(* ===== verification/_CoqProject ===== *)
-Q . S2P
Prelude.v
CLib.v
Os.v
SsDevice.v
SsMap.v
SsObject.v
SecureStorage.v
SsStore.v
SsFlash.v
SsSession.v
SsSim.v
SsTheorems.v
PrivateStore.v
PrivateData.v
OsalQueue.v
OsalTheorems.v
OsalMemory.v
BtEnv.v
BtLine.v
BtUserial.v
BtUpio.v
BtConfig.v
BtHardware.v
BtVendor.v
BtDownload.v
BtImage.v
BtTheorems.v
Snd.v
Pcm.v
PcmRing.v
PcmLife.v
SndSim.v
PcmTheorems.v
Mixer.v
MixerLife.v
MixerTheorems.v
Codec.v
CodecPad.v
CodecPlanOne.v
CodecPlanTwo.v
VolumeConf.v
CodecClient.v
CodecRoute.v
CodecSim.v
VolumeTheorems.v
CodecSetup.v
CodecTheorems.v
Live.v
AudRing.v
AudRingTheorems.v
CodecVoice.v
AudDevices.v
AudDevTheorems.v
AudBp.v
AudIface.v
AudEnv.v
AudHw.v
AudOut.v
AudIn.v
AudAdev.v
AudLive.v
AudCore.v
AudSafe.v
AudSafeOut.v
AudSafeIn.v
AudSafeHal.v
AudSim.v
AudHal.v
AudWrite.v
AudCapture.v
AudCall.v
CamPixel.v
CamPixelTheorems.v
CamEnv.v
CamDevice.v
CamThreads.v
CamFrames.v
CamInv.v
CamStart.v
CamNotify.v
