(* ===== verification/Prelude.v ===== *)
(** * Verification of the SoftWinner (Allwinner) common device code

    The repository holds the hardware libraries shared by the boards of one
    vendor.  This library models the parts of its C code that keep state of
    their own, call by call, and proves what they promise to their callers; the
    places where they break the promise are theorems too.

    ** How the code is modelled

    [Prelude.v] has the integers at their width ([u8] to [s32]), lengths, and the
    tactics and hints; [CLib.v] the C library as far as it is used: buffers are
    lists of bytes, an access outside an object is [None].  [Os.v] is the machine:
    a call is a function of a state monad [M] and ends in an [outcome], [Done],
    [Blocked] (it never comes back) or [Undef] (C gives it no meaning).  The state
    [mach] has the kernel's world, two ledgers (heap blocks and descriptors not
    given back yet) and the globals of the component.  The kernel and the
    allocator are the class [OsOps]: they are parameters, and a theorem that needs
    them to work says so with a law class ([BlockDev], [NandDev], [PrivDev],
    [BtGood], ...) whose content is what their documentation promises.  Concrete
    worlds ([SsSim.v], [BtLine.v]) have those laws, and the witnesses run on them.

    ** libsec_storage: the secure storage (src/hardware/libhardware/libsec_storage)

    - [SsDevice.v]: secure_storage.c up to line 643, the kernel command line, the
      checks of an item and of the map, and one item read from or written to NAND
      (an ioctl) or SD/eMMC (two copies).
    - [SsMap.v]: [__probe_name_in_map] and [__fill_name_in_map]; the map block is
      a run of "name:length" strings, and the n-th string names item n.
    - [SsObject.v]: [wrap_secure_object], [unwrap_secure_object].
    - [SecureStorage.v]: the session, [sunxi_secure_storage_init], [_exit] and the
      object calls between them, with the mutex that spans them.
    - [SsStore.v] is the interface between the two halves, a class [NvStore] of 33
      blocks that keep what is written to them.  [SsFlash.v] shows that the NAND
      and the SD/eMMC code each implement it; [SsSession.v] proves the session
      over the interface alone: it refines a table of names and payloads.
    - [SsTheorems.v]: programs of writes, reads, erases and reopened sessions
      compute what the table computes; an object written is read back after the
      session is closed and opened again; then the calls that break the contract
      (prefixes of names, protection, full map, overrun, the mutex).
    - [PrivateStore.v] is fetch_env.c, the block of 30 names and values at the end
      of the private partition, and [PrivateData.v] api.c over both stores.

    ** camera: the queue of buffers (src/hardware/camera)

    - [OsalQueue.v]: OSAL_Mutex.c and OSAL_Queue.c; nodes, mutexes and queues are
      objects with addresses, and a freed one is [Undef] to use.
    - [OsalTheorems.v]: any interleaving of calls on any number of queues behaves
      as bounded lists.  [OsalMemory.v]: creation and termination.

    ** camera: the device and its threads (src/hardware/camera)

    - [CamPixel.v]: the conversions and the scaling of frames in
      V4L2CameraDevice2.cpp and CallbackNotifier.cpp.  [CamPixelTheorems.v]: which
      byte of the camera's frame every byte of the result is; the crop of a zoom.
    - [CamEnv.v]: the fields of [V4L2CameraDevice]; the driver ([V4l2Ops]), the
      allocator, the decoder and the clocks ([CamEnvOps]) and the objects that are
      called back ([CamClient]) are parameters.
    - [CamDevice.v]: Libve_Decoder2.c, CameraList.cpp and the calls of
      V4L2CameraDevice2.cpp.  [CamThreads.v]: its five threads, cut into steps
      where they give up a lock, sleep or call out; [turn] is one step of a thread
      or one call of the application, [turns] any interleaving.
    - [CamFrames.v]: what a driver that works does ([V4l2Law]), and what each step
      does to the counts of the frames; [CamInv.v]: the invariant [frames_ok] is
      kept by every step.  [CamStart.v]: [startDevice] establishes it, so no frame
      is lost, and none is with the driver while somebody uses it; then a concrete
      camera, the runs in which this fails (a copied picture, a frame left over,
      a lost signal), and the start that fails.
    - [CamNotify.v]: BufferListManager.cpp and CallbackNotifier.cpp, with the
      framework, the JPEG encoder and the kernel as the class [NotifyOps]: messages,
      frames, [takePicture], [setFd] and [savePictureThread] as the turns of one
      thread among the calls of the others ([notify_turns]).  The pictures are
      written in the order they were taken, each once, and no block is lost; then
      the lost descriptor, the eleventh picture of a series, the encoder that fails,
      and the clean-up that is not heard.

    ** libbt-vendor: the Bluetooth chip (src/hardware/realtek/bluetooth/rtl8723bs)

    - [BtEnv.v]: the stack and the serial line as operations ([BtOps]);
      [BtUserial.v] userial_vendor.c and the speed tables; [BtUpio.v] upio.c;
      [BtConfig.v] the two files of a chip; [BtHardware.v] hardware.c, the state
      machine [hw_config_cback] and the callbacks; [BtVendor.v] bt_vendor_rtk.c.
    - [BtDownload.v]: the packets of a download are the image, in order, and the
      stack is told once.  [BtImage.v]: the patch taken from a file is the
      controller's own.  [BtTheorems.v]: configuration file, speeds, port, wake
      lines, and the defects.

    ** libcodec_audio: the sound card (src/hardware/audio/libcodec_audio)

    - [Snd.v]: the ALSA interface ([SndOps]).  [Pcm.v] is pcm.c: opening, the
      mapped pages, reading and writing, and the ring of frames shared with the
      driver; [PcmRing.v] the arithmetic of the ring and the boundary loop,
      [PcmLife.v] what a stream owns while it is opened and closed, [SndSim.v] a
      sound card for the witnesses.  [PcmTheorems.v]: what a mmap round offers
      lies in the buffer and moves the pointer by what was committed, a stream
      gives back all it took, a write needs at most two rounds.
    - [Mixer.v] is mixer.c over the control ioctls ([MixOps]), [MixerLife.v] the
      ledger of a mixer that is opened, and [MixerTheorems.v]: it gives back all it
      took, a value set is read back, a percentage stays in the range of its
      control; with a card of three controls for the witnesses.
    - [Codec.v]: the client of the audio HAL, the table of controls and the steps
      of the plans; [CodecPad.v], [CodecPlanOne.v], [CodecPlanTwo.v] are pad.c,
      plan_one.c and plan_two.c, [VolumeConf.v] volume_conf.c (phone_volume.conf),
      [CodecClient.v] codec.c and codec_devices.c.  [CodecRoute.v] says what a
      routing step writes: each plan's operation is a list of assignments to
      controls ([makes]); [CodecSim.v] is a board.
    - [VolumeTheorems.v]: the volume file's text gives the tables, and reading any
      file ends.  [CodecSetup.v]: the client is wired to the controls it names, or
      nothing is left but the mixer.  [CodecTheorems.v]: the routes of a call, one
      output at a time, and where plan one dereferences NULL.

    - [CodecVoice.v]: ReduceVolume of codec_utils.c, wav.c, and the recording of a
      call in planOne/manage.c: two threads mix their voices into one buffer that a
      reader drains.  A run in which a thread handles a block at a time and no voice
      overtakes the reader delivers the mixture ([call_recorded_mixed], over the
      lemmas on rings of [AudRingTheorems.v]); [rec_turn] cuts a block into its
      accesses of the counters, and shows what is lost when two of them cross.

    ** libril_audio: the modem (src/hardware/audio/libril_audio)

    - [AudBp.v]: the choice of the modem and the AT commands of the four devices.

    ** the audio HAL (src/hardware/audio: audio_hw.c, audio_iface.c, audio_raw.c)

    - [AudRing.v]: the buffer between the playback and a capture of it,
      [WritePcmData] and [ReadPcmData], once as calls and once as the steps of two
      threads and a mutex.  [AudRingTheorems.v]: every interleaving delivers the
      bytes in order and stays inside the buffer; the two reads that do not.
    - [AudDevices.v]: the table of sound cards, which of them are active, and the
      lists the framework asks for.  [AudDevTheorems.v]: its type is kept by every
      call; which card is the default.
    - [AudIface.v]: audio_iface.c, the HAL's clients of libcodec_audio and
      libril_audio.  [AudEnv.v]: the structures of the device and of its streams;
      the class [HalLibs] is what lies outside the repository (the system's
      tinyalsa, the resampler, the echo reference, the effects, audio_route, the
      parameter strings), [HalConsts] the constants of the vendor's headers.
    - [AudHw.v]: mutexes, audio_raw.c, routes, standby and start of a playback;
      [AudOut.v] writing and the life of a playback stream; [AudIn.v] the capture
      stream; [AudAdev.v] modes, parameters, opening and closing of the device.
      A mutex that its own caller holds is [Blocked], a stream that is not there
      [Undef].
    - [Live.v] is the weakest precondition of a call that does not block.
      [AudCore.v] abstracts the HAL to its [core] (the mutexes, the mode, the flag
      of a call, the active streams, the standby of each stream) and runs calls on
      it ([triple], [hstep]); [AudLive.v], [AudSafe.v], [AudSafeOut.v],
      [AudSafeIn.v] and [AudSafeHal.v] do so for every call of the HAL, and
      [AudHal.v] for any sequence of them: no call deadlocks or loops, and the
      invariant [hal_ok] holds between two calls.
    - [AudWrite.v]: a playing stream hands its frames to every active card.
      [AudCapture.v]: a capture stream delivers what the card captured, in order.
      [AudCall.v]: the modem's commands, the start of a call, and the defects.
      [AudSim.v] is the board the witnesses run on.

    ** Fuel

    Every loop of the C code that is not over a list has a bound in the model, and
    the theorems show that the bound is enough, or say that the C loop does not
    end.  [probe_loop] and [fill_loop] take SEC_BLK_SIZE + 1 rounds (each consumes
    a byte of the block); [find_rfkill] the number of rfkill nodes to try;
    [free_chain] the nodes made; [parse_entries] and [find_extension] the length
    of their file; [grow_boundary] 32 rounds (each doubles a 32-bit number);
    [pcm_get_node_number] the ten cards it looks at; [conf_loop] the length of the
    file and one (each round reads at least a byte); [read_frames] the frames it
    is to read (each turn brings one or more, from a resampler that makes frames:
    [CaptureWorks]); [ReadPcmData] the rounds of its own timeout.  [pcm_read], [pcm_write] and
    [pcm_wait] repeat as long as the driver says so: they take their rounds as an
    argument and are [Blocked] when those are used up.

    ** Not modelled

    Parts of the code that are only reached by a build option that is off
    (BT_FW_CAL_ENABLE, the wake ioctls) or never called
    ([rtk_download_fw_config]); the log output; the nanosleep that paces the
    download.  Of libcodec_audio's calls, opening and closing of streams
    ([init_stream]) and the life of the threads that carry the voices and write the
    file (record.c), which poll flags around [pcm_read] and [pcm_write]; planTwo's
    recording, the same functions for two pairs of threads.  In the audio HAL, the pre-processing
    of a capture ([process_frames] and what only it calls), which nothing calls,
    and the code of KARAOK_AUDIO_DEVICE.  Of the camera, the frames of a picture
    that is copied ([TAKE_PICTURE_NORMAL]) are outside the invariant, which they
    break.  The EXIF settings of CallbackNotifier.cpp go to a structure that nothing
    reads and are left out, with the date they are given; the framework's turn is
    one step, and the release of its memory is not counted.  CameraHardware2.cpp
    (parameter strings of the framework) and the window are not modelled, and
    CameraHardware.cpp, V4L2CameraDevice.cpp and Libve_Decoder.c are not built.  Of the rest of the repository: the sensors
    (C++ event loops), the keymaster (a proxy of a trusted application), and the Wi-Fi
    driver hooks (private ioctls of wpa_supplicant). *)

From stdpp Require Export base list gmap numbers strings.
From Stdlib Require Export ZArith Lia.

#[global] Open Scope Z_scope.

(** ** Scope, hints and tactics of the development *)

Declare Scope csem_scope.
Delimit Scope csem_scope with csem.

Create HintDb csem discriminated.
Create Rewrite HintDb lenZ.

(** [bool_to_prop] turns the boolean tests of the hypotheses into the
    propositions they decide. *)
Ltac bool_to_prop :=
  repeat match goal with
  | H : _ && _ = true |- _ => apply andb_true_iff in H; destruct H
  | H : _ || _ = false |- _ => apply orb_false_iff in H; destruct H
  | H : negb _ = true |- _ => apply negb_true_iff in H
  | H : negb _ = false |- _ => apply negb_false_iff in H
  | H : (_ =? _) = true |- _ => apply Z.eqb_eq in H
  | H : (_ =? _) = false |- _ => apply Z.eqb_neq in H
  | H : (_ <? _) = true |- _ => apply Z.ltb_lt in H
  | H : (_ <? _) = false |- _ => apply Z.ltb_ge in H
  | H : (_ <=? _) = true |- _ => apply Z.leb_le in H
  | H : (_ <=? _) = false |- _ => apply Z.leb_gt in H
  end.

(** [case_test] splits on the first [if] of the goal. *)
Ltac case_test :=
  match goal with
  | |- context [if ?b then _ else _] =>
      lazymatch type of b with
      | bool => destruct b eqn:?
      | _ => destruct b
      end
  end; bool_to_prop.

(** ** Machine integers: the wrap-around of each width written out *)

Definition u8 (z : Z) : Z := z mod 256.
Definition u16 (z : Z) : Z := z mod 65536.
Definition u32 (z : Z) : Z := z mod 4294967296.
Definition s32 (z : Z) : Z := (z + 2147483648) mod 4294967296 - 2147483648.
Definition s16 (z : Z) : Z := (z + 32768) mod 65536 - 32768.

Lemma u8_small z : 0 <= z < 256 -> u8 z = z.
Proof. apply Z.mod_small. Qed.
Lemma u16_small z : 0 <= z < 65536 -> u16 z = z.
Proof. apply Z.mod_small. Qed.
Lemma u32_small z : 0 <= z < 4294967296 -> u32 z = z.
Proof. apply Z.mod_small. Qed.
Lemma s32_small z : -2147483648 <= z < 2147483648 -> s32 z = z.
Proof. intros. unfold s32. rewrite Z.mod_small; lia. Qed.
Lemma s16_small z : -32768 <= z < 32768 -> s16 z = z.
Proof. intros. unfold s16. rewrite Z.mod_small; lia. Qed.
Lemma u8_range z : 0 <= u8 z < 256.
Proof. apply Z.mod_pos_bound. lia. Qed.
Lemma u16_range z : 0 <= u16 z < 65536.
Proof. apply Z.mod_pos_bound. lia. Qed.
Lemma u32_range z : 0 <= u32 z < 4294967296.
Proof. apply Z.mod_pos_bound. lia. Qed.
Lemma s32_range z : -2147483648 <= s32 z < 2147483648.
Proof. unfold s32. pose proof (Z.mod_pos_bound (z + 2147483648) 4294967296). lia. Qed.
Lemma s16_range z : -32768 <= s16 z < 32768.
Proof. unfold s16. pose proof (Z.mod_pos_bound (z + 32768) 65536). lia. Qed.
#[export] Hint Resolve u8_range u16_range u32_range s32_range s16_range : csem.

(** ** Lists addressed by C offsets *)

(** Lengths and offsets of C objects are integers; [lenZ] is [sizeof]-like. *)
Definition lenZ {A} (l : list A) : Z := Z.of_nat (length l).

Lemma lenZ_nonneg {A} (l : list A) : 0 <= lenZ l.
Proof. unfold lenZ. lia. Qed.
Lemma lenZ_app {A} (l k : list A) : lenZ (l ++ k) = lenZ l + lenZ k.
Proof. unfold lenZ. rewrite length_app. lia. Qed.
Lemma lenZ_cons {A} (x : A) l : lenZ (x :: l) = 1 + lenZ l.
Proof. unfold lenZ. cbn [length]. lia. Qed.
Lemma lenZ_nil {A} : lenZ (@nil A) = 0.
Proof. reflexivity. Qed.
#[export] Hint Resolve lenZ_nonneg : csem.
#[export] Hint Rewrite @lenZ_app @lenZ_cons @lenZ_nil : lenZ.
