(* ===== verification/CLib.v ===== *)
(** * C objects as byte lists

    What the modelled code uses of the C language and its library: buffers with
    their sizes ([memcpy], [memset], [memcmp]), C strings ([strlen], [strcpy],
    [strncpy], [strncmp], [strcmp]), little-endian fields of packed structs,
    and the decimal conversions [sprintf "%d"] and [atol].  An access outside
    its object gives [None]. *)

From S2P Require Import Prelude.

Abbreviation bytes := (list Z).

(** Every byte of a buffer is in range: what [unsigned char] guarantees. *)
Definition byte_ok (c : Z) : Prop := 0 <= c < 256.
Abbreviation bytes_ok := (Forall byte_ok).

(** ** Buffers *)

Definition zeros (n : Z) : bytes := replicate (Z.to_nat n) 0.
Definition fill (c n : Z) : bytes := replicate (Z.to_nat n) c.

(** Read one byte of a buffer. *)
Definition bget (b : bytes) (off : Z) : option Z :=
  if off <? 0 then None else b !! Z.to_nat off.

(** The [n] bytes from [off]; the caller has checked the bounds. *)
Definition bslice (off n : Z) (b : bytes) : bytes :=
  take (Z.to_nat n) (drop (Z.to_nat off) b).

Definition in_bounds (off n : Z) (b : bytes) : bool :=
  (0 <=? off) && (0 <=? n) && (off + n <=? lenZ b).

(** Overwrite [lenZ src] bytes of [dst] from [off]. *)
Definition bblit (off : Z) (src dst : bytes) : bytes :=
  take (Z.to_nat off) dst ++ src ++ drop (Z.to_nat off + length src) dst.

(** [memcpy (dst + off) src n] with both bounds checked. *)
Definition memcpy (dst : bytes) (off : Z) (src : bytes) (n : Z) : option bytes :=
  if in_bounds off n dst && in_bounds 0 n src
  then Some (bblit off (bslice 0 n src) dst) else None.

(** [memset (dst + off) c n]. *)
Definition memset (dst : bytes) (off c n : Z) : option bytes :=
  if in_bounds off n dst then Some (bblit off (fill c n) dst) else None.

(** ** C strings *)

(** The bytes of the C string at the start of [b]; [None] when no NUL ends it
    inside the object. *)
Fixpoint cstr (b : bytes) : option bytes :=
  match b with
  | [] => None
  | c :: b' => if c =? 0 then Some [] else option_map (cons c) (cstr b')
  end.

(** [memcmp p q n == 0], byte by byte from the left: [None] when the scan runs
    off one of the two objects before it meets a difference. *)
Fixpoint memcmp_eq (p q : bytes) (n : nat) : option bool :=
  match n with
  | O => Some true
  | S n' =>
      match p, q with
      | a :: p', b :: q' => if a =? b then memcmp_eq p' q' n' else Some false
      | _, _ => None
      end
  end.

(** [strncmp p q n == 0]: stops at the first difference or after a common NUL. *)
Fixpoint strncmp_eq (p q : bytes) (n : nat) : option bool :=
  match n with
  | O => Some true
  | S n' =>
      match p, q with
      | a :: p', b :: q' =>
          if a =? b then if a =? 0 then Some true else strncmp_eq p' q' n'
          else Some false
      | _, _ => None
      end
  end.

(** [strncpy dst src n] over the first [n] bytes: the string of [src] (here
    without its NUL), cut at [n], then padded with NULs up to [n]. *)
Definition strncpy_bytes (src : bytes) (n : Z) : bytes :=
  take (Z.to_nat n) (src ++ zeros n).

(** [strcpy (dst + off) s], the whole string and its NUL inside the object. *)
Definition strcpy (dst : bytes) (off : Z) (s : bytes) : option bytes :=
  if in_bounds off (lenZ s + 1) dst then Some (bblit off (s ++ [0]) dst) else None.

(** [strcmp s q == 0] of a string [s] (without its NUL) and a buffer. *)
Definition strcmp_eq (s q : bytes) : option bool := strncmp_eq (s ++ [0]) q (S (length s)).

(** ** Little-endian fields *)

Fixpoint le_put (n : nat) (z : Z) : bytes :=
  match n with
  | O => []
  | S n' => z mod 256 :: le_put n' (z / 256)
  end.

Fixpoint le_get (b : bytes) : Z :=
  match b with
  | [] => 0
  | c :: b' => c + 256 * le_get b'
  end.

Definition get_u32 (b : bytes) (off : Z) : Z := le_get (bslice off 4 b).
Definition get_u16 (b : bytes) (off : Z) : Z := le_get (bslice off 2 b).
Definition put_u32 (b : bytes) (off z : Z) : bytes := bblit off (le_put 4 z) b.

(** ** Decimal conversions *)

Fixpoint dec_digits (fuel : nat) (n : Z) : bytes :=
  match fuel with
  | O => []
  | S f => if n <? 10 then [48 + n] else dec_digits f (n / 10) ++ [48 + n mod 10]
  end.

(** [sprintf "%d"] of an [int]: ten digits are enough for 32 bits. *)
Definition sprintf_d (n : Z) : bytes :=
  if n <? 0 then 45 :: dec_digits 10 (- n) else dec_digits 10 n.

Definition is_digit (c : Z) : bool := (48 <=? c) && (c <=? 57).
Definition is_space (c : Z) : bool := (c =? 32) || ((9 <=? c) && (c <=? 13)).

Fixpoint parse_dec (acc : Z) (b : bytes) : Z :=
  match b with
  | c :: b' => if is_digit c then parse_dec (acc * 10 + (c - 48)) b' else acc
  | [] => acc
  end.

Fixpoint skip_spaces (b : bytes) : bytes :=
  match b with
  | c :: b' => if is_space c then skip_spaces b' else b
  | [] => []
  end.

(** [atol], a saturating [strtol (s, NULL, 10)] with the 32-bit [long] of the
    target. *)
Definition clamp_long (z : Z) : Z := Z.max (-2147483648) (Z.min 2147483647 z).
Definition atol (s : bytes) : Z :=
  match skip_spaces s with
  | c :: s' =>
      if c =? 45 then clamp_long (- parse_dec 0 s')
      else if c =? 43 then clamp_long (parse_dec 0 s')
      else clamp_long (parse_dec 0 (c :: s'))
  | [] => 0
  end.

(** ** Searching *)

(** [strstr (s, sub) != NULL]. *)
Fixpoint starts (sub s : bytes) : bool :=
  match sub, s with
  | [], _ => true
  | a :: sub, b :: s => (a =? b) && starts sub s
  | _ :: _, [] => false
  end.
Fixpoint has_sub (sub s : bytes) : bool :=
  starts sub s || match s with [] => false | _ :: s => has_sub sub s end.

(** ** Lemmas on buffers *)

Lemma lenZ_zeros n : 0 <= n -> lenZ (zeros n) = n.
Proof. intros. unfold lenZ, zeros. rewrite length_replicate. lia. Qed.
Lemma lenZ_fill c n : 0 <= n -> lenZ (fill c n) = n.
Proof. intros. unfold lenZ, fill. rewrite length_replicate. lia. Qed.

Lemma in_bounds_spec off n b :
  in_bounds off n b = true <-> 0 <= off /\ 0 <= n /\ off + n <= lenZ b.
Proof. unfold in_bounds. rewrite !andb_true_iff, !Z.leb_le. tauto. Qed.

Lemma lenZ_bslice off n b :
  0 <= off -> 0 <= n -> off + n <= lenZ b -> lenZ (bslice off n b) = n.
Proof.
  unfold lenZ, bslice. intros. rewrite length_take, length_drop. lia.
Qed.

Lemma lenZ_bblit off src dst :
  0 <= off -> off + lenZ src <= lenZ dst -> lenZ (bblit off src dst) = lenZ dst.
Proof.
  unfold lenZ, bblit. intros.
  rewrite !length_app, length_take, length_drop. lia.
Qed.

Lemma bslice_all n b : lenZ b = n -> bslice 0 n b = b.
Proof.
  unfold bslice, lenZ. intros. rewrite drop_0. apply take_ge. lia.
Qed.

(** Reading back what was just written, and what lies before or after it. *)
Lemma bslice_bblit_same off src dst n :
  0 <= off -> off + lenZ src <= lenZ dst -> lenZ src = n ->
  bslice off n (bblit off src dst) = src.
Proof.
  unfold lenZ, bslice, bblit. intros H1 H2 <-.
  rewrite drop_app_length'; [|rewrite length_take; lia].
  rewrite Nat2Z.id. apply take_app_length.
Qed.

Lemma bslice_bblit_before off n off' src dst :
  0 <= off -> 0 <= n -> off + n <= off' -> off' <= lenZ dst ->
  bslice off n (bblit off' src dst) = bslice off n dst.
Proof.
  unfold lenZ, bslice, bblit. intros.
  rewrite drop_app_le by (rewrite length_take; lia).
  rewrite take_app_le by (rewrite length_drop, length_take; lia).
  rewrite skipn_firstn_comm, firstn_firstn. f_equal. lia.
Qed.

Lemma bslice_bblit_after off n off' src dst :
  0 <= off' -> off' + lenZ src <= off -> off' + lenZ src <= lenZ dst ->
  bslice off n (bblit off' src dst) = bslice off n dst.
Proof.
  unfold lenZ, bslice, bblit. intros. f_equal.
  rewrite drop_app_ge by (rewrite length_take; lia).
  rewrite drop_app_ge by (rewrite length_take; lia).
  rewrite drop_drop, length_take. f_equal. lia.
Qed.

Lemma bslice_bslice off n off' n' b :
  0 <= off -> 0 <= off' -> 0 <= n' -> off' + n' <= n ->
  bslice off' n' (bslice off n b) = bslice (off + off') n' b.
Proof.
  unfold bslice. intros.
  rewrite skipn_firstn_comm, firstn_firstn, drop_drop.
  f_equal; [lia|]. f_equal. lia.
Qed.

Lemma memcpy_Some dst off src n :
  0 <= off -> 0 <= n -> off + n <= lenZ dst -> n <= lenZ src ->
  memcpy dst off src n = Some (bblit off (bslice 0 n src) dst).
Proof.
  intros. unfold memcpy.
  rewrite (proj2 (in_bounds_spec off n dst)) by lia.
  rewrite (proj2 (in_bounds_spec 0 n src)) by lia. done.
Qed.

Lemma memcpy_inv dst off src n dst' :
  memcpy dst off src n = Some dst' -> 0 <= off /\ 0 <= n /\ off + n <= lenZ dst /\ n <= lenZ src.
Proof.
  unfold memcpy. destruct (in_bounds off n dst && in_bounds 0 n src) eqn:E; [|done].
  apply andb_true_iff in E as [E1 E2]. apply in_bounds_spec in E1, E2. lia.
Qed.
Lemma memcpy_lenZ dst off src n dst' : memcpy dst off src n = Some dst' -> lenZ dst' = lenZ dst.
Proof.
  intros E. destruct (memcpy_inv _ _ _ _ _ E) as (H1 & H2 & H3 & H4).
  rewrite memcpy_Some in E by lia. injection E as <-.
  rewrite lenZ_bblit; [done|lia|]. rewrite lenZ_bslice; lia.
Qed.
Lemma memset_Some dst off c n :
  0 <= off -> 0 <= n -> off + n <= lenZ dst ->
  memset dst off c n = Some (bblit off (fill c n) dst).
Proof.
  intros. unfold memset. rewrite (proj2 (in_bounds_spec off n dst)) by lia. done.
Qed.

Lemma bblit_whole src dst : lenZ src = lenZ dst -> bblit 0 src dst = src.
Proof.
  unfold lenZ, bblit. intros. rewrite take_0.
  rewrite drop_ge by lia. by rewrite app_nil_r.
Qed.

(** ** Lemmas on little-endian fields *)

Lemma lenZ_le_put n z : lenZ (le_put n z) = Z.of_nat n.
Proof.
  revert z; induction n; intros; [done|].
  cbn [le_put]. rewrite lenZ_cons, IHn. lia.
Qed.

Lemma le_get_put n z : le_get (le_put n z) = z mod 256 ^ Z.of_nat n.
Proof.
  revert z; induction n; intros; cbn [le_put le_get].
  { by rewrite Z.mod_1_r. }
  rewrite IHn, Nat2Z.inj_succ, Z.pow_succ_r by lia.
  rewrite Z.rem_mul_r by lia. lia.
Qed.

Lemma get_put_u32 b off z :
  0 <= off -> off + 4 <= lenZ b -> 0 <= z < 4294967296 ->
  get_u32 (put_u32 b off z) off = z.
Proof.
  intros. unfold get_u32, put_u32.
  rewrite bslice_bblit_same by (rewrite ?lenZ_le_put; lia).
  rewrite le_get_put. apply Z.mod_small. lia.
Qed.

Lemma lenZ_put_u32 b off z :
  0 <= off -> off + 4 <= lenZ b -> lenZ (put_u32 b off z) = lenZ b.
Proof. intros. apply lenZ_bblit; rewrite ?lenZ_le_put; lia. Qed.

Lemma le_get_range b : bytes_ok b -> 0 <= le_get b < 256 ^ lenZ b.
Proof.
  induction 1 as [|c b Hc _ IH]; [change (0 <= 0 < 1); lia|].
  cbn [le_get]. rewrite lenZ_cons, Z.pow_add_r by (pose proof (lenZ_nonneg b); lia).
  unfold byte_ok in Hc. change (256 ^ 1) with 256. lia.
Qed.

Lemma le_put_ok n z : bytes_ok (le_put n z).
Proof.
  revert z; induction n; intros; cbn [le_put]; constructor; [|done].
  apply Z.mod_pos_bound. lia.
Qed.

(** ** Lemmas on strings *)

Lemma memcmp_eq_prefix p q :
  memcmp_eq p (p ++ q) (length p) = Some true.
Proof. induction p; cbn; [done|]. by rewrite Z.eqb_refl. Qed.

(** Comparing the [length p] bytes of a NUL-free [p] against a NUL-terminated
    string: the scan always ends inside the string, and succeeds exactly when
    [p] is a prefix. *)
Lemma memcmp_eq_cstr p s rest :
  Forall (fun c => c <> 0) p ->
  memcmp_eq p (s ++ 0 :: rest) (length p) = Some (bool_decide (p `prefix_of` s)).
Proof.
  intros Hp; revert s. induction Hp as [|a p Ha Hp IH]; intros s; cbn [length memcmp_eq].
  { by rewrite bool_decide_true by apply prefix_nil. }
  destruct s as [|b s]; cbn [app].
  - rewrite (proj2 (Z.eqb_neq a 0)) by done.
    rewrite bool_decide_false; [done|]. apply prefix_nil_not.
  - destruct (Z.eqb_spec a b) as [->|Hne].
    + rewrite IH. f_equal. apply bool_decide_ext.
      split; [apply prefix_cons|apply prefix_cons_inv_2].
    + rewrite bool_decide_false; [done|].
      intros H; apply prefix_cons_inv_1 in H. done.
Qed.

Lemma cstr_app s rest :
  Forall (fun c => c <> 0) s -> cstr (s ++ 0 :: rest) = Some s.
Proof.
  induction 1 as [|c s Hc Hs IH]; cbn; [done|].
  rewrite (proj2 (Z.eqb_neq c 0)) by done. by rewrite IH.
Qed.

(** ** The decimal round trip *)

Lemma parse_dec_app acc l k :
  Forall (fun c => is_digit c = true) l ->
  parse_dec acc (l ++ k) = parse_dec (parse_dec acc l) k.
Proof.
  intros H; revert acc. induction H as [|c l Hc Hl IH]; intros; cbn; [done|].
  rewrite Hc. apply IH.
Qed.

Lemma is_digit_dec d : 0 <= d < 10 -> is_digit (48 + d) = true.
Proof. intros. unfold is_digit. lia. Qed.

Lemma dec_digits_ok fuel n :
  0 <= n -> Forall (fun c => is_digit c = true) (dec_digits fuel n).
Proof.
  revert n; induction fuel as [|f IH]; intros n Hn; cbn [dec_digits]; [constructor|].
  case_test.
  - constructor; [|constructor]. apply is_digit_dec. lia.
  - apply Forall_app. split; [apply IH; apply Z.div_pos; lia|].
    constructor; [|constructor]. apply is_digit_dec. apply Z.mod_pos_bound. lia.
Qed.

Lemma parse_dec_digits fuel n :
  0 <= n < 10 ^ Z.of_nat fuel -> parse_dec 0 (dec_digits fuel n) = n.
Proof.
  revert n; induction fuel as [|f IH]; intros n Hn; [cbn in *; lia|].
  cbn [dec_digits]. case_test.
  - cbn [parse_dec]. rewrite is_digit_dec by lia. lia.
  - rewrite Nat2Z.inj_succ, Z.pow_succ_r in Hn by lia.
    rewrite parse_dec_app by (apply dec_digits_ok, Z.div_pos; lia).
    rewrite IH by (split; [apply Z.div_pos; lia|apply Z.div_lt_upper_bound; lia]).
    cbn [parse_dec]. rewrite is_digit_dec by (apply Z.mod_pos_bound; lia).
    pose proof (Z.div_mod n 10). lia.
Qed.

Lemma dec_digits_cons fuel n :
  0 <= n -> fuel <> O -> exists d l, dec_digits fuel n = d :: l /\ is_digit d = true.
Proof.
  intros Hn Hf. pose proof (dec_digits_ok fuel n Hn) as H.
  destruct fuel; [done|]. cbn [dec_digits] in *. case_test; [by inv H; eauto|].
  destruct (dec_digits fuel (n / 10)); cbn in *; inv H; eauto.
Qed.

Lemma parse_dec_stop acc c rest :
  is_digit c = false -> parse_dec acc (c :: rest) = acc.
Proof. intros H. cbn. by rewrite H. Qed.

(** [atol] reads back what [sprintf "%d"] prints, whatever non-digit follows. *)
Lemma atol_sprintf_d n rest :
  0 <= n < 2147483648 -> parse_dec n rest = n ->
  atol (sprintf_d n ++ rest) = n.
Proof.
  intros Hn Hrest. unfold sprintf_d.
  rewrite (proj2 (Z.ltb_ge n 0)) by lia.
  pose proof (dec_digits_ok 10 n) as Hok.
  pose proof (parse_dec_digits 10 n) as Hp.
  destruct (dec_digits_cons 10 n) as (d & l & E & Hd); [lia|done|].
  rewrite E in *. unfold atol. cbn [app skip_spaces].
  unfold is_digit in Hd. bool_to_prop.
  assert (is_space d = false) as -> by (unfold is_space; lia).
  rewrite (proj2 (Z.eqb_neq d 45)), (proj2 (Z.eqb_neq d 43)) by lia.
  change (d :: l ++ rest) with ((d :: l) ++ rest).
  rewrite parse_dec_app by (apply Hok; lia).
  rewrite Hp by lia. rewrite Hrest. unfold clamp_long. lia.
Qed.

Lemma sprintf_d_nonzero n : Forall (fun c => c <> 0) (sprintf_d n).
Proof.
  assert (forall f m, 0 <= m -> Forall (fun c => c <> 0) (dec_digits f m)) as H.
  { intros f m Hm. eapply Forall_impl; [exact (dec_digits_ok f m Hm)|].
    intros c Hc. cbn beta in Hc. unfold is_digit in Hc. lia. }
  unfold sprintf_d. case_test; [constructor; [lia|]|]; apply H; lia.
Qed.

(** ** Strings inside buffers *)

Lemma bslice_string off s b :
  0 <= off -> bslice off (lenZ s + 1) b = s ++ [0] ->
  exists rest, drop (Z.to_nat off) b = s ++ 0 :: rest.
Proof.
  intros Hoff E. exists (drop (Z.to_nat (lenZ s + 1)) (drop (Z.to_nat off) b)).
  rewrite <- (take_drop (Z.to_nat (lenZ s + 1)) (drop (Z.to_nat off) b)) at 1.
  unfold bslice in E. by rewrite E, <- app_assoc.
Qed.

Lemma strcmp_eq_cstr s s' rest :
  Forall (fun c => c <> 0) s -> Forall (fun c => c <> 0) s' ->
  strcmp_eq s (s' ++ 0 :: rest) = Some (bool_decide (s = s')).
Proof.
  intros Hs; revert s'. unfold strcmp_eq. induction Hs as [|a s Ha Hs IH]; intros s' Hs'.
  - destruct Hs' as [|b s' Hb _]; [done|]. cbn [app length strncmp_eq].
    rewrite (proj2 (Z.eqb_neq 0 b)) by done. by rewrite bool_decide_false.
  - destruct Hs' as [|b s' Hb Hs']; cbn [app length strncmp_eq].
    + rewrite (proj2 (Z.eqb_neq a 0)) by done. by rewrite bool_decide_false.
    + destruct (Z.eqb_spec a b) as [->|Hab].
      * rewrite (proj2 (Z.eqb_neq b 0)) by done. cbn [length app] in IH. rewrite IH by done.
        f_equal. apply bool_decide_ext. split; congruence.
      * rewrite bool_decide_false; [done|congruence].
Qed.

Lemma strcpy_Some dst off s :
  0 <= off -> off + lenZ s + 1 <= lenZ dst -> strcpy dst off s = Some (bblit off (s ++ [0]) dst).
Proof.
  intros. unfold strcpy. pose proof (lenZ_nonneg s).
  rewrite (proj2 (in_bounds_spec _ _ _)) by lia. done.
Qed.

Lemma lenZ_string (s : bytes) : lenZ (s ++ [0]) = lenZ s + 1.
Proof. by rewrite lenZ_app. Qed.
#[export] Hint Rewrite lenZ_string : lenZ.

Lemma strncmp_eq_take p q n : strncmp_eq p q n = strncmp_eq p (take n q) n.
Proof.
  revert p q; induction n as [|n IH]; intros p q; [by destruct p|].
  destruct p as [|a p], q as [|b q]; try reflexivity. cbn [take strncmp_eq].
  destruct (a =? b); [|reflexivity]. destruct (a =? 0); [reflexivity|]. apply IH.
Qed.
