(* ===== verification/Os.v ===== *)
(** * Execution of the C code: outcomes, the machine state and the kernel calls

    A call of the modelled code runs in a state monad whose result is an
    [outcome]: it returns, it blocks for ever (a mutex its own thread holds), or
    it does something C gives no meaning to (an access outside an object).  The
    state holds the world behind the kernel interface, two ledgers (heap blocks
    and descriptors not yet given back) and the globals of the component.

    The kernel and the allocator are not part of the repository: [OsOps] is the
    interface the code calls, and the law classes say what its documentation
    promises of a device that works. *)

From S2P Require Import Prelude CLib.

(** ** Outcomes and the monad *)

Inductive outcome (S A : Type) : Type :=
| Done (a : A) (s : S)
| Blocked
| Undef.
Arguments Done {S A} a s.
Arguments Blocked {S A}.
Arguments Undef {S A}.

Definition M (S A : Type) : Type := S -> outcome S A.

Section Monad.
Context {S : Type}.

Definition ret {A} (a : A) : M S A := fun s => Done a s.
Definition bind {A B} (m : M S A) (k : A -> M S B) : M S B := fun s =>
  match m s with
  | Done a s' => k a s'
  | Blocked => Blocked
  | Undef => Undef
  end.
Definition undef {A} : M S A := fun _ => Undef.
Definition blocked {A} : M S A := fun _ => Blocked.
Definition gets {A} (f : S -> A) : M S A := fun s => Done (f s) s.
Definition modify (f : S -> S) : M S unit := fun s => Done tt (f s).
(** An access that is outside its object when it is [None]. *)
Definition checked {A} (o : option A) : M S A :=
  match o with Some a => ret a | None => undef end.

Lemma bind_Done {A B} (m : M S A) (k : A -> M S B) s a s' :
  m s = Done a s' -> bind m k s = k a s'.
Proof. unfold bind. by intros ->. Qed.

Lemma bind_inv {A B} (m : M S A) (k : A -> M S B) s b s' :
  bind m k s = Done b s' -> exists a s1, m s = Done a s1 /\ k a s1 = Done b s'.
Proof. unfold bind. destruct (m s) eqn:E; try done. eauto. Qed.

(** [yields m s Q]: from [s] the call returns, and [Q] holds of what it gives. *)
Definition yields {A} (m : M S A) (s : S) (Q : A -> S -> Prop) : Prop :=
  match m s with Done a s' => Q a s' | _ => False end.
Lemma yields_bind {A B} (m : M S A) (k : A -> M S B) s (P : A -> S -> Prop) Q :
  yields m s P -> (forall a s', P a s' -> yields (k a) s' Q) -> yields (bind m k) s Q.
Proof. unfold yields, bind. destruct (m s); [|done..]. intros HP Hk. by apply Hk. Qed.
Lemma yields_mono {A} (m : M S A) s (P Q : A -> S -> Prop) :
  yields m s P -> (forall a s', P a s' -> Q a s') -> yields m s Q.
Proof. unfold yields. destruct (m s); [|done..]. auto. Qed.
Lemma yields_ret {A} (a : A) s (Q : A -> S -> Prop) : Q a s -> yields (ret a) s Q.
Proof. done. Qed.
Lemma yields_assoc {A B C} (m : M S A) (f : A -> M S B) (g : B -> M S C) s Q :
  yields (bind m (fun a => bind (f a) g)) s Q -> yields (bind (bind m f) g) s Q.
Proof. unfold yields, bind. by destruct (m s). Qed.
Lemma yields_ret_bind {A B} (a : A) (k : A -> M S B) s Q :
  yields (k a) s Q -> yields (bind (ret a) k) s Q.
Proof. done. Qed.
Lemma yields_Done {A} (m : M S A) s Q :
  yields m s Q -> exists a s', m s = Done a s' /\ Q a s'.
Proof. unfold yields. destruct (m s); [|done..]. eauto. Qed.

(** The monad laws, pointwise. *)
Lemma bind_ret_l {A B} (a : A) (k : A -> M S B) s : bind (ret a) k s = k a s.
Proof. reflexivity. Qed.
Lemma bind_ret_r {A} (m : M S A) s : bind m ret s = m s.
Proof. unfold bind, ret. by destruct (m s). Qed.
Lemma bind_assoc {A B C} (m : M S A) (f : A -> M S B) (g : B -> M S C) s :
  bind (bind m f) g s = bind m (fun a => bind (f a) g) s.
Proof. unfold bind. by destruct (m s). Qed.
End Monad.

Notation "'let*' x := m 'in' k" := (bind m (fun x => k))
  (at level 10, x binder, m at level 100, k at level 200) : csem_scope.
Notation "'let*' ' p := m 'in' k" := (bind m (fun p => k))
  (at level 10, p strict pattern, m at level 100, k at level 200) : csem_scope.
Notation "m ;;; k" := (bind m (fun _ => k))
  (at level 100, k at level 200, right associativity) : csem_scope.

#[global] Open Scope csem_scope.

(** [mstep H] runs the head call of a [bind] with the equation [H]. *)
Ltac mstep H := erewrite (bind_Done _ _ _ _ _ H); cbn beta iota.

(** [mcall tac] runs the head call, [tac] proving what it returns. *)
Tactic Notation "mcall" tactic3(tac) :=
  erewrite bind_Done; [|tac]; cbn beta iota.

(** ** The machine *)

Record mach (W G : Type) := Mach {
  world : W;
  heap_live : Z;      (* blocks allocated and not freed *)
  fds_live : Z;       (* descriptors opened and not closed *)
  glob : G;           (* the globals of the component *)
}.
Arguments Mach {W G} world heap_live fds_live glob.
Arguments world {W G} m.
Arguments heap_live {W G} m.
Arguments fds_live {W G} m.
Arguments glob {W G} m.

(** ** The kernel interface *)

Class OsOps (W : Type) := {
  os_malloc : Z -> W -> Z * W;                       (* the address, 0 for NULL *)
  os_open : string -> W -> Z * W;
  os_close : Z -> W -> W;
  os_lseek : Z -> Z -> W -> Z * W;
  os_read : Z -> Z -> W -> Z * bytes * W;            (* result, bytes delivered *)
  os_write : Z -> bytes -> W -> Z * W;
  os_fsync : Z -> W -> W;
  os_ioctl : Z -> Z -> Z -> bytes -> W -> Z * bytes * W;  (* fd, request, item, buffer *)
  os_access : string -> W -> Z;
}.

Section Calls.
Context {W G : Type} `{OsOps W}.
Abbreviation S := (mach W G).

Definition c_malloc (n : Z) : M S Z := fun s =>
  let '(p, w) := os_malloc n (world s) in
  Done p (Mach w (if p =? 0 then heap_live s else heap_live s + 1) (fds_live s) (glob s)).
(** [free] of a block that was allocated ([free(NULL)] does nothing). *)
Definition c_free (p : Z) : M S unit := fun s =>
  Done tt (Mach (world s) (if p =? 0 then heap_live s else heap_live s - 1)
                (fds_live s) (glob s)).
Definition c_open (path : string) : M S Z := fun s =>
  let '(fd, w) := os_open path (world s) in
  Done fd (Mach w (heap_live s) (if fd <? 0 then fds_live s else fds_live s + 1) (glob s)).
Definition c_close (fd : Z) : M S unit := fun s =>
  Done tt (Mach (os_close fd (world s)) (heap_live s)
                (if fd <? 0 then fds_live s else fds_live s - 1) (glob s)).
Definition c_lseek (fd off : Z) : M S Z := fun s =>
  let '(r, w) := os_lseek fd off (world s) in
  Done r (Mach w (heap_live s) (fds_live s) (glob s)).
(** [read (fd, buf + off, n)]: the result and the buffer after the call. *)
Definition c_read (fd : Z) (buf : bytes) (off n : Z) : M S (Z * bytes) := fun s =>
  if in_bounds off n buf then
    let '(r, data, w) := os_read fd n (world s) in
    Done (r, if 0 <? r then bblit off (bslice 0 n data) buf else buf)
         (Mach w (heap_live s) (fds_live s) (glob s))
  else Undef.
(** [write (fd, buf + off, n)]. *)
Definition c_write (fd : Z) (buf : bytes) (off n : Z) : M S Z := fun s =>
  if in_bounds off n buf then
    let '(r, w) := os_write fd (bslice off n buf) (world s) in
    Done r (Mach w (heap_live s) (fds_live s) (glob s))
  else Undef.
Definition c_fsync (fd : Z) : M S unit := fun s =>
  Done tt (Mach (os_fsync fd (world s)) (heap_live s) (fds_live s) (glob s)).
(** [ioctl (fd, req, {item, buf, n})]: the driver may fill the [n] bytes. *)
Definition c_ioctl (fd req item : Z) (buf : bytes) (n : Z) : M S (Z * bytes) := fun s =>
  if in_bounds 0 n buf then
    let '(r, data, w) := os_ioctl fd req item (bslice 0 n buf) (world s) in
    Done (r, bblit 0 (bslice 0 n data) buf) (Mach w (heap_live s) (fds_live s) (glob s))
  else Undef.
Definition c_access (path : string) : M S Z := fun s =>
  Done (os_access path (world s)) s.

Definition get_glob {A} (f : G -> A) : M S A := fun s => Done (f (glob s)) s.
Definition set_glob (f : G -> G) : M S unit := fun s =>
  Done tt (Mach (world s) (heap_live s) (fds_live s) (f (glob s))).
End Calls.

(** ** Calls on the world alone *)

Section World.
Context {W G : Type}.
Abbreviation S := (mach W G).

Definition on_world {A} (f : W -> A * W) : M S A := fun s =>
  let '(a, w) := f (world s) in Done a (Mach w (heap_live s) (fds_live s) (glob s)).
Definition step_world (f : W -> W) : M S unit := fun s =>
  Done tt (Mach (f (world s)) (heap_live s) (fds_live s) (glob s)).
Definition ask {A} (f : W -> A) : M S A := fun s => Done (f (world s)) s.

Lemma bind_on_world {A B} (f : W -> A * W) (k : A -> M S B) s a w :
  f (world s) = (a, w) ->
  bind (on_world f) k s = k a (Mach w (heap_live s) (fds_live s) (glob s)).
Proof. intros E. unfold bind, on_world. by rewrite E. Qed.
Lemma bind_step_world {B} (f : W -> W) (k : unit -> M S B) s :
  bind (step_world f) k s = k tt (Mach (f (world s)) (heap_live s) (fds_live s) (glob s)).
Proof. reflexivity. Qed.
Lemma bind_ask {A B} (f : W -> A) (k : A -> M S B) s :
  bind (ask f) k s = k (f (world s)) s.
Proof. reflexivity. Qed.
End World.

(** ** Components inside a larger program *)

(** A call of a component whose globals are a part of the program's. *)
Definition zoom {W G G' A} (get : G -> G') (put : G' -> G -> G) (m : M (mach W G') A)
  : M (mach W G) A := fun s =>
  match m (Mach (world s) (heap_live s) (fds_live s) (get (glob s))) with
  | Done a s' => Done a (Mach (world s') (heap_live s') (fds_live s') (put (glob s') (glob s)))
  | Blocked => Blocked
  | Undef => Undef
  end.

Lemma zoom_Done {W G G' A} (get : G -> G') put (m : M (mach W G') A) (s : mach W G) a s' :
  m (Mach (world s) (heap_live s) (fds_live s) (get (glob s))) = Done a s' ->
  zoom get put m s = Done a (Mach (world s') (heap_live s') (fds_live s') (put (glob s') (glob s))).
Proof. unfold zoom. by intros ->. Qed.

(** ** Running the pure steps *)

Section Run.
Context {W G : Type}.
Abbreviation S := (mach W G).

Lemma bind_get_glob {A B} (f : G -> A) (k : A -> M S B) s :
  bind (get_glob f) k s = k (f (glob s)) s.
Proof. reflexivity. Qed.
Lemma bind_set_glob {B} (f : G -> G) (k : unit -> M S B) s :
  bind (set_glob f) k s = k tt (Mach (world s) (heap_live s) (fds_live s) (f (glob s))).
Proof. reflexivity. Qed.
Lemma bind_checked_Some {A B} (a : A) (k : A -> M S B) s :
  bind (checked (Some a)) k s = k a s.
Proof. reflexivity. Qed.
Lemma bind_checked_None {A B} (k : A -> M S B) s :
  bind (checked (@None A)) k s = Undef.
Proof. reflexivity. Qed.
Lemma bind_undef {A B} (k : A -> M S B) s : bind undef k s = Undef.
Proof. reflexivity. Qed.
Lemma bind_blocked {A B} (k : A -> M S B) s : bind blocked k s = Blocked.
Proof. reflexivity. Qed.
End Run.

Create Rewrite HintDb run.
#[export] Hint Rewrite @bind_ret_l @bind_assoc @bind_get_glob @bind_set_glob
  @bind_checked_Some @bind_checked_None @bind_undef @bind_blocked
  @bind_step_world @bind_ask : run.

(** [mrun] executes the steps that need no fact about the kernel. *)
Ltac mrun :=
  repeat (progress (autorewrite with run; rewrite ?Z.eqb_refl;
    cbn beta iota delta [negb andb orb world heap_live fds_live glob])).

(** ** The calls on known answers of the kernel *)

Section CallLemmas.
Context {W G : Type} `{OsOps W}.
Implicit Types (s : mach W G).

Lemma c_malloc_ok n s p w :
  os_malloc n (world s) = (p, w) -> 0 < p ->
  c_malloc n s = Done p (Mach w (heap_live s + 1) (fds_live s) (glob s)).
Proof. intros E Hp. unfold c_malloc. rewrite E, (proj2 (Z.eqb_neq p 0)) by lia. done. Qed.
Lemma c_free_ok p s :
  0 < p -> c_free p s = Done tt (Mach (world s) (heap_live s - 1) (fds_live s) (glob s)).
Proof. intros Hp. unfold c_free. rewrite (proj2 (Z.eqb_neq p 0)) by lia. done. Qed.
Lemma c_open_ok path s fd w :
  os_open path (world s) = (fd, w) -> 0 < fd ->
  c_open path s = Done fd (Mach w (heap_live s) (fds_live s + 1) (glob s)).
Proof. intros E Hp. unfold c_open. rewrite E, (proj2 (Z.ltb_ge fd 0)) by lia. done. Qed.
Lemma c_close_ok fd s :
  0 < fd -> c_close fd s = Done tt (Mach (os_close fd (world s)) (heap_live s) (fds_live s - 1) (glob s)).
Proof. intros Hp. unfold c_close. rewrite (proj2 (Z.ltb_ge fd 0)) by lia. done. Qed.
Lemma c_lseek_ok fd off s r w :
  os_lseek fd off (world s) = (r, w) ->
  c_lseek fd off s = Done r (Mach w (heap_live s) (fds_live s) (glob s)).
Proof. intros E. unfold c_lseek. by rewrite E. Qed.
Lemma c_read_ok fd buf off n s r data w :
  os_read fd n (world s) = (r, data, w) -> in_bounds off n buf = true -> 0 < r ->
  c_read fd buf off n s =
  Done (r, bblit off (bslice 0 n data) buf) (Mach w (heap_live s) (fds_live s) (glob s)).
Proof.
  intros E Hb Hr. unfold c_read. rewrite Hb, E, (proj2 (Z.ltb_lt 0 r)) by done. done.
Qed.
Lemma c_write_ok fd buf off n s r w :
  os_write fd (bslice off n buf) (world s) = (r, w) -> in_bounds off n buf = true ->
  c_write fd buf off n s = Done r (Mach w (heap_live s) (fds_live s) (glob s)).
Proof. intros E Hb. unfold c_write. by rewrite Hb, E. Qed.
Lemma c_fsync_ok fd s :
  c_fsync fd s = Done tt (Mach (os_fsync fd (world s)) (heap_live s) (fds_live s) (glob s)).
Proof. reflexivity. Qed.
Lemma c_ioctl_ok fd req item buf n s r data w :
  os_ioctl fd req item (bslice 0 n buf) (world s) = (r, data, w) -> in_bounds 0 n buf = true ->
  c_ioctl fd req item buf n s =
  Done (r, bblit 0 (bslice 0 n data) buf) (Mach w (heap_live s) (fds_live s) (glob s)).
Proof. intros E Hb. unfold c_ioctl. by rewrite Hb, E. Qed.

(** Two states with the same parts, the ledgers up to arithmetic. *)
Lemma Mach_eq (w : W) h f (g : G) h' f' :
  h = h' -> f = f' -> Mach w h f g = Mach w h' f' g.
Proof. by intros -> ->. Qed.
End CallLemmas.

(** *** The calls under any answer of the kernel *)

Section YieldCalls.
Context {W G : Type} `{OsOps W}.
Abbreviation S := (mach W G).

Lemma yields_world {A B} (g : W -> A * W) (k : A -> M S B) s Q :
  (forall a w, g (world s) = (a, w) ->
     yields (k a) (Mach w (heap_live s) (fds_live s) (glob s)) Q) ->
  yields (bind (on_world g) k) s Q.
Proof. intros Hk. unfold yields, bind, on_world. destruct (g (world s)) as [a w] eqn:E. by apply Hk. Qed.
Lemma yields_malloc {B} (k : Z -> M S B) n s Q :
  (forall p w, os_malloc n (world s) = (p, w) ->
     yields (k p) (Mach w (if p =? 0 then heap_live s else heap_live s + 1) (fds_live s) (glob s)) Q) ->
  yields (bind (c_malloc n) k) s Q.
Proof.
  intros Hk. unfold yields, bind, c_malloc. destruct (os_malloc n (world s)) as [p w] eqn:E.
  by apply Hk.
Qed.
Lemma yields_open {B} (k : Z -> M S B) path s Q :
  (forall fd w, yields (k fd)
     (Mach w (heap_live s) (if fd <? 0 then fds_live s else fds_live s + 1) (glob s)) Q) ->
  yields (bind (c_open path) k) s Q.
Proof. intros Hk. unfold yields, bind, c_open. destruct (os_open path (world s)) as [fd w]. by apply Hk. Qed.
Lemma yields_set_glob {B} (k : unit -> M S B) g s Q :
  yields (k tt) (Mach (world s) (heap_live s) (fds_live s) (g (glob s))) Q ->
  yields (bind (set_glob g) k) s Q.
Proof. done. Qed.
Lemma yields_checked {A B} (o : option A) (k : A -> M S B) a s Q :
  o = Some a -> yields (k a) s Q -> yields (bind (checked o) k) s Q.
Proof. by intros ->. Qed.
Lemma yields_ask {A B} (f : W -> A) (k : A -> M S B) s Q :
  yields (k (f (world s))) s Q -> yields (bind (ask f) k) s Q.
Proof. done. Qed.
Lemma yields_get_glob {A B} (f : G -> A) (k : A -> M S B) s Q :
  yields (k (f (glob s))) s Q -> yields (bind (get_glob f) k) s Q.
Proof. done. Qed.
Lemma yields_free {B} (k : unit -> M S B) p s Q :
  0 < p ->
  yields (k tt) (Mach (world s) (heap_live s - 1) (fds_live s) (glob s)) Q ->
  yields (bind (c_free p) k) s Q.
Proof. intros Hp Hk. unfold yields, bind, c_free. by rewrite (proj2 (Z.eqb_neq p 0)) by lia. Qed.
End YieldCalls.

(** [msimp] reduces the projections of explicit states. *)
Ltac msimp := cbn [world heap_live fds_live glob] in *.

(** ** What a call keeps of the globals

    [pc P m Q]: from globals with [P], if the call returns, its result and the
    globals it leaves have [Q].  It may block or be undefined. *)

Section Partial.
Context {W G : Type}.
Abbreviation S := (mach W G).

Definition pc {A} (P : G -> Prop) (m : M S A) (Q : A -> G -> Prop) : Prop :=
  forall s a s', P (glob s) -> m s = Done a s' -> Q a (glob s').
(** A call that leaves the globals alone. *)
Definition quiet {A} (m : M S A) : Prop := forall s a s', m s = Done a s' -> glob s' = glob s.

Lemma pc_bind {A B} (P : G -> Prop) (m : M S A) (k : A -> M S B) (Q : A -> G -> Prop) R :
  pc P m Q -> (forall a, pc (Q a) (k a) R) -> pc P (bind m k) R.
Proof. intros Hm Hk s b s' HP (a & s1 & E1 & E2)%bind_inv. eapply Hk, E2. by eapply Hm. Qed.
Lemma pc_ret {A} (P : G -> Prop) (a : A) (Q : A -> G -> Prop) : (forall g, P g -> Q a g) -> pc P (ret a) Q.
Proof. intros H s b s' HP [= <- <-]. by apply H. Qed.
Lemma pc_mono {A} (P P' : G -> Prop) (m : M S A) (Q Q' : A -> G -> Prop) :
  pc P' m Q' -> (forall g, P g -> P' g) -> (forall a g, Q' a g -> Q a g) -> pc P m Q.
Proof. intros Hm HP HQ s a s' H E. eapply HQ, Hm; [|done]. by apply HP. Qed.
Lemma pc_quiet {A} (P : G -> Prop) (m : M S A) : quiet m -> pc P m (fun _ => P).
Proof. intros Hm s a s' HP E. by rewrite (Hm _ _ _ E). Qed.
Lemma pc_quiet_bind {A B} (P : G -> Prop) (m : M S A) (k : A -> M S B) R :
  quiet m -> (forall a, pc P (k a) R) -> pc P (bind m k) R.
Proof. intros Hm Hk. eapply pc_bind; [by apply pc_quiet|done]. Qed.
Lemma pc_set_glob (P : G -> Prop) f (Q : unit -> G -> Prop) :
  (forall g, P g -> Q tt (f g)) -> pc P (set_glob (W := W) f) Q.
Proof. intros H s a s' HP [= <- <-]. by apply H. Qed.
Lemma pc_get_bind {A B} (P : G -> Prop) (f : G -> A) (k : A -> M S B) R :
  (forall a, pc (fun g => P g /\ f g = a) (k a) R) -> pc P (bind (get_glob f) k) R.
Proof. intros Hk s b s' HP E. by eapply (Hk (f (glob s))). Qed.
Lemma pc_undef {A} (P : G -> Prop) (Q : A -> G -> Prop) : pc P undef Q.
Proof. by intros s a s' _ E. Qed.
Lemma pc_checked_bind {A B} (P : G -> Prop) (o : option A) (k : A -> M S B) R :
  (forall a, o = Some a -> pc P (k a) R) -> pc P (bind (checked o) k) R.
Proof. intros Hk. destruct o as [a|]; [|by intros s b s' _ E]. intros s b s' HP E. by eapply (Hk a). Qed.

Lemma pc_pure {A} (P : G -> Prop) (phi : Prop) (m : M S A) (Q : A -> G -> Prop) :
  (phi -> pc P m Q) -> pc (fun g => P g /\ phi) m Q.
Proof. intros Hm s a s' [HP Hp]. by apply Hm. Qed.
Lemma pc_assoc {A B C} (P : G -> Prop) (m : M S A) (k : A -> M S B) (h : B -> M S C) R :
  pc P (bind (bind m k) h) R -> pc P (bind m (fun a => bind (k a) h)) R.
Proof. intros Hm s a s' HP E. eapply Hm; [done|]. by rewrite bind_assoc. Qed.

Lemma quiet_bind {A B} (m : M S A) (k : A -> M S B) :
  quiet m -> (forall a, quiet (k a)) -> quiet (bind m k).
Proof. intros Hm Hk s b s' (a & s1 & E1 & E2)%bind_inv. by rewrite (Hk _ _ _ _ E2), (Hm _ _ _ E1). Qed.
Lemma quiet_ret {A} (a : A) : quiet (ret a).
Proof. by intros s b s' [= _ <-]. Qed.
Lemma quiet_undef {A} : quiet (undef (A := A)).
Proof. by intros s a s' E. Qed.
Lemma quiet_checked {A} (o : option A) : quiet (checked o).
Proof. destruct o; [apply quiet_ret|apply quiet_undef]. Qed.
Lemma quiet_get {A} (f : G -> A) : quiet (get_glob f).
Proof. by intros s a s' [= _ <-]. Qed.
Lemma quiet_ask {A} (f : W -> A) : quiet (ask f).
Proof. by intros s a s' [= _ <-]. Qed.
Lemma quiet_on_world {A} (f : W -> A * W) : quiet (on_world f).
Proof. intros s a s'. unfold on_world. destruct (f _). by intros [= _ <-]. Qed.
Lemma quiet_step_world (f : W -> W) : quiet (step_world f).
Proof. by intros s a s' [= _ <-]. Qed.
End Partial.

Section QuietCalls.
Context {W G : Type} `{OsOps W}.
Abbreviation S := (mach W G).

Lemma quiet_open path : quiet (W := W) (G := G) (c_open path).
Proof. intros s a s'. unfold c_open. destruct (os_open _ _). by intros [= _ <-]. Qed.
Lemma quiet_close fd : quiet (W := W) (G := G) (c_close fd).
Proof. by intros s a s' [= _ <-]. Qed.
Lemma quiet_access path : quiet (W := W) (G := G) (c_access path).
Proof. by intros s a s' [= _ <-]. Qed.
Lemma quiet_read fd buf off n : quiet (W := W) (G := G) (c_read fd buf off n).
Proof.
  intros s a s'. unfold c_read. destruct (in_bounds _ _ _); [|done].
  destruct (os_read _ _ _) as [[r d] w]. by intros [= _ <-].
Qed.
Lemma quiet_malloc n : quiet (W := W) (G := G) (c_malloc n).
Proof. intros s a s'. unfold c_malloc. destruct (os_malloc _ _). by intros [= _ <-]. Qed.
Lemma quiet_free p : quiet (W := W) (G := G) (c_free p).
Proof. by intros s a s' [= _ <-]. Qed.
End QuietCalls.

Create HintDb quiet discriminated.
#[export] Hint Resolve quiet_bind quiet_ret quiet_undef quiet_checked quiet_get quiet_ask
  quiet_on_world quiet_step_world quiet_open quiet_close quiet_access quiet_read quiet_malloc
  quiet_free : quiet.
