(* ===== verification/SsDevice.v ===== *)
(** * libsec_storage: the flash device under the secure storage

    [secure_storage.c], lines 37 to 643: the constants, the boot-device lookup
    on the kernel command line, the validity checks of an object and of the map,
    and the reads and writes of one item on NAND (one copy, through an ioctl) and
    on SD/eMMC (two copies, at fixed offsets). *)

From S2P Require Import Prelude CLib Os.

(** ** Constants and globals *)

Definition FLASH_TYPE_NAND : Z := 0.
Definition FLASH_TYPE_SD1 : Z := 1.
Definition FLASH_TYPE_SD2 : Z := 2.
Definition FLASH_TYPE_UNKNOW : Z := -1.

Definition MAX_STORE_LEN : Z := 0xc00.
Definition STORE_OBJECT_MAGIC : Z := 0x17253948.
Definition STORE_REENCRYPT_MAGIC : Z := 0x86734716.
Definition STORE_WRITE_PROTECT_MAGIC : Z := 0x8ad3820f.

(** [store_object_t] is kept as its bytes; these are the offsets of its fields
    and its size. *)
Module store_object_t.
Definition magic : Z := 0.
Definition id : Z := 4.
Definition name : Z := 8.
Definition re_encrypt : Z := 72.
Definition version : Z := 76.
Definition write_protect : Z := 80.
Definition reserved : Z := 84.
Definition actual_len : Z := 96.
Definition data : Z := 100.
Definition crc : Z := data + MAX_STORE_LEN.
Definition size : Z := crc + 4.
End store_object_t.

Definition SEC_BLK_SIZE : Z := 4096.
Definition MAX_SECURE_STORAGE_MAX_ITEM : Z := 32.
Definition MAP_KEY_NAME_SIZE : Z := 64.
Definition MAP_KEY_DATA_SIZE : Z := 32.

(** [struct map_info] fills one block: the entries, then magic and crc. *)
Module map_info.
Definition data_size : Z := SEC_BLK_SIZE - 8.
Definition magic : Z := data_size.
Definition crc : Z := data_size + 4.
Definition size : Z := data_size + 8.
End map_info.

Record ss_globals := SsGlobals {
  sec_mutex : bool;                 (* held by this process? *)
  secure_storage_map : bytes;
  secure_storage_inited : Z;
  map_dirty : Z;
  flash_boot_type : Z;
}.

(** The image of the library before its first call. *)
Definition ss_initial : ss_globals :=
  SsGlobals false (zeros SEC_BLK_SIZE) 0 0 FLASH_TYPE_UNKNOW.

Definition with_mutex (b : bool) (g : ss_globals) : ss_globals :=
  SsGlobals b (secure_storage_map g) (secure_storage_inited g) (map_dirty g) (flash_boot_type g).
Definition with_map (m : bytes) (g : ss_globals) : ss_globals :=
  SsGlobals (sec_mutex g) m (secure_storage_inited g) (map_dirty g) (flash_boot_type g).
Definition with_inited (n : Z) (g : ss_globals) : ss_globals :=
  SsGlobals (sec_mutex g) (secure_storage_map g) n (map_dirty g) (flash_boot_type g).
Definition with_dirty (n : Z) (g : ss_globals) : ss_globals :=
  SsGlobals (sec_mutex g) (secure_storage_map g) (secure_storage_inited g) n (flash_boot_type g).
Definition with_boot_type (n : Z) (g : ss_globals) : ss_globals :=
  SsGlobals (sec_mutex g) (secure_storage_map g) (secure_storage_inited g) (map_dirty g) n.

Definition SDMMC_SECTOR_SIZE : Z := 512.
Definition SDMMC_SECURE_STORAGE_START_ADD : Z := 6 * 1024 * 1024 / 512.
Definition SDMMC_ITEM_SIZE : Z := 4 * 1024 / 512.
Definition sd_oem_path : string := "/dev/block/mmcblk0".
Definition SECBLK_READ : Z := 0x5614.    (* _IO('V',20) *)
Definition SECBLK_WRITE : Z := 0x5615.   (* _IO('V',21) *)
Definition nand_oem_path : string := "/dev/block/by-name/bootloader".
Definition CMDLINE_FILE_PATH : string := "/proc/cmdline".

(** Where the two copies of an item are. *)
Definition sd_offset (id : Z) : Z :=
  (SDMMC_SECURE_STORAGE_START_ADD + SDMMC_ITEM_SIZE * 2 * id) * SDMMC_SECTOR_SIZE.
Definition sd_offset_backup (id : Z) : Z :=
  (SDMMC_SECURE_STORAGE_START_ADD + SDMMC_ITEM_SIZE * 2 * id + SDMMC_ITEM_SIZE) * SDMMC_SECTOR_SIZE.

(** The distance from a block of the heap to the 32-aligned address inside it. *)
Definition align_off (p : Z) : Z := Z.land (p + 0x20) (Z.lnot 0x1f) - p.

(** ** The boot device *)

(** The scan of [getInfoFromCmdline]: [n] start positions are left; the byte
    after the key, or nothing. *)
Fixpoint scan_cmdline (key line : bytes) (n : nat) : option (option Z) :=
  match n with
  | O => Some None
  | S n' =>
      match strncmp_eq key line (length key) with
      | None => None
      | Some true => option_map Some (bget line (lenZ key))
      | Some false => scan_cmdline key (tail line) n'
      end
  end.

(** ["boot_type="] *)
Definition key_boot_type : bytes := [98; 111; 111; 116; 95; 116; 121; 112; 101; 61].

Section Device.
Context {W : Type} `{OsOps W}.
(** [crc32 (0, p, n)] of zlib. *)
Variable crc32 : bytes -> Z.
Abbreviation S := (mach W ss_globals).

Definition getInfoFromCmdline (key value : bytes) : M S (Z * bytes) :=
  let* fd := c_open CMDLINE_FILE_PATH in
  if fd =? 0 then ret (-1, value) else
  let* '(r, cmdline) := c_read fd (zeros 1024) 0 1024 in
  if (r <? 0) || (1024 <? r) then c_close fd ;;; ret (-1, value) else
  c_close fd ;;;
  let* found := checked (scan_cmdline key cmdline (Z.to_nat (r - lenZ key))) in
  match found with
  | Some c => let* v := checked (memcpy value 0 [c] 1) in ret (0, v)
  | None => let* v := checked (memcpy value 0 [45; 49; 0] 3) in ret (-1, v)
  end.

Definition get_flash_type : M S Z :=
  let* '(r, ctype) := getInfoFromCmdline key_boot_type (zeros 16) in
  if negb (r =? 0) then ret (-1) else
  set_glob (with_boot_type (atol ctype)) ;;; ret 0.

(** ** Validity of an object and of the map *)

Definition check_secure_storage_key (buffer : bytes) : option Z :=
  if in_bounds 0 store_object_t.size buffer then
    if negb (get_u32 buffer store_object_t.magic =? STORE_OBJECT_MAGIC) then Some (-1)
    else if negb (get_u32 buffer store_object_t.crc =?
                  crc32 (bslice 0 (store_object_t.size - 4) buffer)) then Some (-1)
    else Some 0
  else None.

Definition check_secure_storage_map (buffer : bytes) : option Z :=
  if in_bounds 0 map_info.size buffer then
    if negb (get_u32 buffer map_info.magic =? STORE_OBJECT_MAGIC) then Some 2
    else if negb (get_u32 buffer map_info.crc =?
                  crc32 (bslice 0 (map_info.size - 4) buffer)) then Some (-1)
    else Some 0
  else None.

(** ** NAND *)

Definition _nand_read (id : Z) (buf : option bytes) (len : Z) : M S (Z * bytes) :=
  match buf with
  | None => ret (-1, [])
  | Some b =>
    if MAX_SECURE_STORAGE_MAX_ITEM <? id then ret (-1, b) else
    let* fd := c_open nand_oem_path in
    if fd =? 0 then c_close fd ;;; ret (-1, b) else
    let* secblk_op := c_malloc 12 in
    if secblk_op =? 0 then c_close fd ;;; ret (-1, b) else
    let* '(r, b') := c_ioctl fd SECBLK_READ id b len in
    if r <? 0 then c_free secblk_op ;;; c_close fd ;;; ret (-1, b') else
    c_free secblk_op ;;; c_close fd ;;; ret (0, b')
  end.

Definition _nand_write (id : Z) (buf : option bytes) (len : Z) : M S Z :=
  match buf with
  | None => ret (-1)
  | Some b =>
    if MAX_SECURE_STORAGE_MAX_ITEM <? id then ret (-1) else
    let* fd := c_open nand_oem_path in
    if fd =? 0 then ret (-1) else
    let* secblk_op := c_malloc 12 in
    if secblk_op =? 0 then ret (-1) else
    let* '(r, _) := c_ioctl fd SECBLK_WRITE id b len in
    if r <? 0 then c_free secblk_op ;;; c_close fd ;;; ret (-1) else
    c_fsync fd ;;; c_free secblk_op ;;; c_close fd ;;; ret 0
  end.

(** ** SD and eMMC *)

Definition _sd_read (id : Z) (buf : option bytes) (len : Z) : M S (Z * bytes) :=
  match buf with
  | None => ret (-1, [])
  | Some b =>
    if MAX_SECURE_STORAGE_MAX_ITEM <? id then ret (-1, b) else
    let* sd_align_buffer := c_malloc (SEC_BLK_SIZE + 64) in
    if sd_align_buffer =? 0 then ret (-1, b) else
    let align := align_off sd_align_buffer in
    let* fd := c_open sd_oem_path in
    if fd =? 0 then c_free sd_align_buffer ;;; ret (-1, b) else
    let* r := c_lseek fd (sd_offset id) in
    if r <? 0 then c_close fd ;;; c_free sd_align_buffer ;;; ret (-1, b) else
    let* '(r, a) := c_read fd (zeros (SEC_BLK_SIZE + 64)) align len in
    if negb (r =? len) then ret (-1, b) else
    let* b' := checked (memcpy b 0 (bslice align len a) len) in
    c_free sd_align_buffer ;;; c_close fd ;;; ret (0, b')
  end.

Definition _sd_read_backup (id : Z) (buf : option bytes) (len : Z) : M S (Z * bytes) :=
  match buf with
  | None => ret (-1, [])
  | Some b =>
    if MAX_SECURE_STORAGE_MAX_ITEM <? id then ret (-1, b) else
    let* sd_align_buffer := c_malloc (SEC_BLK_SIZE + 64) in
    if sd_align_buffer =? 0 then ret (-1, b) else
    let align := align_off sd_align_buffer in
    let* fd := c_open sd_oem_path in
    if fd =? 0 then c_free sd_align_buffer ;;; ret (-1, b) else
    let* r := c_lseek fd (sd_offset_backup id) in
    if r <? 0 then c_close fd ;;; c_free sd_align_buffer ;;; ret (-1, b) else
    let* '(r, a) := c_read fd (zeros (SEC_BLK_SIZE + 64)) align len in
    if negb (r =? len) then c_free sd_align_buffer ;;; c_close fd ;;; ret (-1, b) else
    let* b' := checked (memcpy b 0 (bslice align len a) len) in
    c_free sd_align_buffer ;;; c_close fd ;;; ret (0, b')
  end.

Definition _sd_write (id : Z) (buf : option bytes) (len : Z) : M S Z :=
  match buf with
  | None => ret (-1)
  | Some b =>
    if MAX_SECURE_STORAGE_MAX_ITEM <? id then ret (-1) else
    let* sd_align_buffer := c_malloc (SEC_BLK_SIZE + 64) in
    if sd_align_buffer =? 0 then ret (-1) else
    let align := align_off sd_align_buffer in
    let* a := checked (memcpy (zeros (SEC_BLK_SIZE + 64)) align b len) in
    let* fd := c_open sd_oem_path in
    if fd =? 0 then ret (-1) else
    let* r := c_lseek fd (sd_offset id) in
    if r <? 0 then ret (-1) else
    let* r := c_write fd a align len in
    if negb (r =? len) then c_free sd_align_buffer ;;; c_close fd ;;; ret (-1) else
    let* r := c_lseek fd (sd_offset_backup id) in
    if r <? 0 then ret (-1) else
    let* r := c_write fd a align len in
    if negb (r =? len) then c_free sd_align_buffer ;;; c_close fd ;;; ret (-1) else
    c_fsync fd ;;; c_free sd_align_buffer ;;; c_close fd ;;; ret 0
  end.

Definition sd_read_key (id : Z) (buf : bytes) (len : Z) : M S (Z * bytes) :=
  let* '(r, b) := _sd_read id (Some buf) len in
  let* good := (if r =? 0 then checked (check_secure_storage_key b) else ret (-1)) in
  if good =? 0 then ret (0, b) else
  let* b := checked (memset b 0 0 len) in
  let* '(r, b) := _sd_read_backup id (Some b) len in
  let* good := (if r =? 0 then checked (check_secure_storage_key b) else ret (-1)) in
  if good =? 0 then ret (0, b) else ret (-1, b).

(** [have_map_copy0] is an automatic variable with no initial value: [None]
    until it is assigned, and reading [None] has no meaning in C. *)
Definition sd_read_map (id : Z) (buf : bytes) (len : Z) : M S (Z * bytes) :=
  let* map_copy0_buf := c_malloc len in
  if map_copy0_buf =? 0 then ret (-1, buf) else
  let* '(r, b) := _sd_read id (Some buf) len in
  let* chk := (if r =? 0 then checked (check_secure_storage_map b) else ret (-1)) in
  if chk =? 0 then c_free map_copy0_buf ;;; ret (0, b) else
  let copy0 := if chk =? 2 then bslice 0 len b else [] in
  let have_map_copy0 := if chk =? 2 then Some 1 else None in
  let* b := checked (memset b 0 0 len) in
  let* '(r, b) := _sd_read_backup id (Some b) len in
  if negb (r =? 0) then c_free map_copy0_buf ;;; ret (-1, b) else
  let* chk := checked (check_secure_storage_map b) in
  if chk =? 0 then c_free map_copy0_buf ;;; ret (0, b) else
  if chk =? 2 then
    let* have := checked have_map_copy0 in
    if negb (have =? 0) && bool_decide (copy0 = bslice 0 len b)
    then c_free map_copy0_buf ;;; ret (0, b)
    else
      let* b := checked (memset b 0 0 len) in
      let* b := checked (memcpy b 0 copy0 len) in
      c_free map_copy0_buf ;;; ret (1, b)
  else c_free map_copy0_buf ;;; ret (1, b).

(** ** The device the board boots from *)

Definition nv_read (id : Z) (buf : bytes) (len : Z) : M S (Z * bytes) :=
  let* t := get_glob flash_boot_type in
  if t =? FLASH_TYPE_NAND then _nand_read id (Some buf) len
  else if (t =? FLASH_TYPE_SD1) || (t =? FLASH_TYPE_SD2) then
    if id =? 0 then sd_read_map 0 buf len else sd_read_key id buf len
  else ret (-1, buf).

Definition nv_write (id : Z) (buf : bytes) (len : Z) : M S Z :=
  let* t := get_glob flash_boot_type in
  if t =? FLASH_TYPE_NAND then _nand_write id (Some buf) len
  else if (t =? FLASH_TYPE_SD1) || (t =? FLASH_TYPE_SD2) then _sd_write id (Some buf) len
  else ret (-1).

Definition sunxi_secstorage_read (item : Z) (buf : bytes) (len : Z) : M S (Z * bytes) :=
  nv_read item buf len.
Definition sunxi_secstorage_write (item : Z) (buf : bytes) (len : Z) : M S Z :=
  nv_write item buf len.
End Device.
