(* ===== verification/SsMap.v ===== *)
(** * libsec_storage: the map of item names

    [__probe_name_in_map] and [__fill_name_in_map] of [secure_storage.c].  The
    map block holds strings ["name:length"], one after the other, and the n-th
    string names item n of the device.  A pointer into the block is its offset
    and the bytes from there to the end of the block; reading past the block
    gives [None].

    The specification side is the list of entries a well-formed block stands
    for; the lemmas say what the two scans compute on it. *)

From S2P Require Import Prelude CLib SsDevice.

(** ** The code *)

Definition chr_colon : Z := 58.
Definition chr_space : Z := 32.

(** The inner loops of the probe: copy characters to [field] until [stop], a
    NUL, the end of the block or [limit] characters.  [n] bounds the iterations
    left; the test [j < limit] fails before it runs out. *)
Fixpoint scan_field (n : nat) (stop limit : Z) (p : bytes) (off j : Z) (field : bytes)
  : option (bytes * Z * Z * bytes) :=
  match p with
  | [] => None
  | c :: p' =>
      if negb (c =? stop) && negb (c =? 0) && (off <? SEC_BLK_SIZE) && (j <? limit) then
        match n with
        | O => None
        | S n' => scan_field n' stop limit p' (off + 1) (j + 1) (field ++ [c])
        end
      else Some (p, off, j, field)
  end.

(** The automatic arrays [name] and [length]: cleared, then filled. *)
Definition padded (field : bytes) (size : Z) : bytes := field ++ zeros (size - lenZ field).

Fixpoint probe_loop (fuel : nat) (p : bytes) (off index : Z) (item_name : bytes) (len : Z)
  : option (Z * Z) :=
  match fuel with
  | O => None
  | S f =>
    match p with
    | [] => None
    | c0 :: _ =>
      if c0 =? 0 then Some (-1, len) else
      match scan_field (Z.to_nat MAP_KEY_NAME_SIZE) chr_colon MAP_KEY_NAME_SIZE p off 0 [] with
      | None => None
      | Some (p1, off1, j1, name) =>
        if MAP_KEY_NAME_SIZE <=? j1 then Some (-1, len) else
        match scan_field (Z.to_nat MAP_KEY_DATA_SIZE) chr_space MAP_KEY_DATA_SIZE
                         (tail p1) (off1 + 1) 0 [] with
        | None => None
        | Some (_, off2, j2, length_) =>
          if (SEC_BLK_SIZE <=? off2) || (MAP_KEY_DATA_SIZE <=? j2) then Some (-1, len) else
          match memcmp_eq item_name (padded name MAP_KEY_NAME_SIZE) (length item_name) with
          | None => None
          | Some true => Some (index, atol (padded length_ MAP_KEY_DATA_SIZE))
          | Some false =>
            match cstr p with
            | None => None
            | Some s =>
              probe_loop f (drop (length s + 1) p) (off + (lenZ s + 1)) (index + 1) item_name len
            end
          end
        end
      end
    end
  end.

(** The item number and [*len], or (-1, [*len] as it was). *)
Definition __probe_name_in_map (buffer item_name : bytes) (len : Z) : option (Z * Z) :=
  probe_loop (Z.to_nat SEC_BLK_SIZE + 1) buffer 0 1 item_name len.

(** The inner loop of the fill: the characters before the colon. *)
Fixpoint scan_name_len (n : nat) (p : bytes) (off name_len : Z) : option (Z * Z) :=
  match p with
  | [] => None
  | c :: p' =>
      if negb (c =? chr_colon) && (off <? SEC_BLK_SIZE) && (name_len <? MAP_KEY_NAME_SIZE) then
        match n with
        | O => None
        | S n' => scan_name_len n' p' (off + 1) (name_len + 1)
        end
      else Some (off, name_len)
  end.

(** How the outer loop of the fill ends. *)
Inductive fill_end : Type :=
| FillFound (index : Z)             (* return index: the name is there *)
| FillDirty                         (* rubbish: the map is cleared *)
| FillAt (off index : Z).           (* the end of the entries *)

Fixpoint fill_loop (fuel : nat) (p : bytes) (off index : Z) (item_name : bytes)
  : option fill_end :=
  match fuel with
  | O => None
  | S f =>
    match p with
    | [] => None
    | c0 :: _ =>
      if negb (c0 =? 0) && (off <? SEC_BLK_SIZE) then
        match scan_name_len (Z.to_nat MAP_KEY_NAME_SIZE) p off 0 with
        | None => None
        | Some (off1, name_len) =>
          if (SEC_BLK_SIZE <=? off1) || (MAP_KEY_NAME_SIZE <=? name_len) then Some FillDirty else
          match memcmp_eq p item_name (length item_name) with
          | None => None
          | Some true => Some (FillFound index)
          | Some false =>
            match cstr p with
            | None => None
            | Some s =>
              fill_loop f (drop (length s + 1) p) (off + (lenZ s + 1)) (index + 1) item_name
            end
          end
        end
      else Some (FillAt off index)
    end
  end.

(** [sprintf (buf_start, "%s:%d", item_name, length)], NUL included. *)
Definition entry_bytes (item_name : bytes) (length_ : Z) : bytes :=
  item_name ++ chr_colon :: sprintf_d length_ ++ [0].

Definition put_entry (buffer : bytes) (off : Z) (item_name : bytes) (length_ : Z) : option bytes :=
  let e := entry_bytes item_name length_ in
  memcpy buffer off e (lenZ e).

(** The item number (-1 when the map is full) and the map after the call. *)
Definition __fill_name_in_map (buffer item_name : bytes) (length_ : Z) : option (Z * bytes) :=
  match fill_loop (Z.to_nat SEC_BLK_SIZE + 1) buffer 0 1 item_name with
  | None => None
  | Some (FillFound index) => Some (index, buffer)
  | Some FillDirty =>
      match memset buffer 0 0 SEC_BLK_SIZE with
      | None => None
      | Some cleared =>
          option_map (pair 1) (put_entry cleared 0 item_name length_)
      end
  | Some (FillAt off index) =>
      if 32 <=? index then Some (-1, buffer)
      else option_map (pair index) (put_entry buffer off item_name length_)
  end.

(** ** Well-formed maps *)

(** A name the format can carry: no NUL, no colon, and shorter than the key
    array of the scans. *)
Definition name_char (c : Z) : Prop := byte_ok c /\ c <> 0 /\ c <> chr_colon.
Definition name_ok (n : bytes) : Prop := Forall name_char n /\ 0 < lenZ n < MAP_KEY_NAME_SIZE.

Abbreviation entry := (bytes * Z)%type.
Definition entry_ok (e : entry) : Prop := name_ok e.1 /\ 0 <= e.2 < 2147483648.

Definition entries_bytes (es : list entry) : bytes :=
  concat (map (fun e => entry_bytes e.1 e.2) es).

(** [represents b es]: block [b] holds exactly the entries [es], then zeros up
    to the end of the data, then magic and crc, whatever they are. *)
Definition represents (b : bytes) (es : list entry) : Prop :=
  Forall entry_ok es /\ exists trailer, lenZ trailer = 8 /\
  lenZ (entries_bytes es) < map_info.data_size /\
  b = entries_bytes es ++ zeros (map_info.data_size - lenZ (entries_bytes es)) ++ trailer.

(** The first entry that has [item] as a prefix of its name, numbered from
    [index]. *)
Fixpoint lookup_prefix (item : bytes) (es : list entry) (index : Z) : option (Z * Z) :=
  match es with
  | [] => None
  | e :: es' =>
      if bool_decide (item `prefix_of` e.1) then Some (index, e.2)
      else lookup_prefix item es' (index + 1)
  end.

(** An entry without its terminating NUL. *)
Definition entry_string (e : entry) : bytes := e.1 ++ chr_colon :: sprintf_d e.2.

(** The abstract counterpart of the fill: reuse the first name the item is a
    prefix of, append otherwise, refuse when 31 items are there. *)
Definition entries_fill (item : bytes) (l : Z) (es : list entry) : Z * list entry :=
  match lookup_prefix item es 1 with
  | Some (k, _) => (k, es)
  | None => if 32 <=? 1 + lenZ es then (-1, es) else (1 + lenZ es, es ++ [(item, l)])
  end.

(** ** The scans on well-formed entries *)

Lemma scan_field_stop n stop limit fs c rest off j field :
  Forall (fun x => x <> stop /\ x <> 0) fs -> c = stop \/ c = 0 ->
  (length fs <= n)%nat -> off + lenZ fs <= SEC_BLK_SIZE -> j + lenZ fs <= limit ->
  scan_field n stop limit (fs ++ c :: rest) off j field =
  Some (c :: rest, off + lenZ fs, j + lenZ fs, field ++ fs).
Proof.
  intros Hfs Hc. revert n off j field.
  induction Hfs as [|x fs [Hx1 Hx2] Hfs IH]; intros n off j field Hn Hoff Hj.
  - rewrite lenZ_nil, !Z.add_0_r, app_nil_r. cbn [app].
    destruct n; cbn; destruct Hc as [-> | ->]; rewrite Z.eqb_refl; cbn;
      rewrite ?andb_false_r; done.
  - cbn [length] in Hn. rewrite lenZ_cons in *. pose proof (lenZ_nonneg fs).
    destruct n as [|n]; [lia|]. cbn [app scan_field].
    rewrite (proj2 (Z.eqb_neq x stop)), (proj2 (Z.eqb_neq x 0)) by done.
    rewrite (proj2 (Z.ltb_lt off SEC_BLK_SIZE)), (proj2 (Z.ltb_lt j limit)) by lia.
    cbn. rewrite IH by lia. by rewrite <- app_assoc, <- !Z.add_assoc.
Qed.

Lemma scan_name_len_colon n fs rest off j :
  Forall (fun x => x <> chr_colon) fs ->
  (length fs <= n)%nat -> off + lenZ fs <= SEC_BLK_SIZE -> j + lenZ fs <= MAP_KEY_NAME_SIZE ->
  scan_name_len n (fs ++ chr_colon :: rest) off j = Some (off + lenZ fs, j + lenZ fs).
Proof.
  intros Hfs. revert n off j.
  induction Hfs as [|x fs Hx Hfs IH]; intros n off j Hn Hoff Hj.
  - rewrite lenZ_nil, !Z.add_0_r. destruct n; reflexivity.
  - cbn [length] in Hn. rewrite lenZ_cons in *. pose proof (lenZ_nonneg fs).
    destruct n as [|n]; [lia|]. cbn [app scan_name_len].
    rewrite (proj2 (Z.eqb_neq x chr_colon)) by done.
    rewrite (proj2 (Z.ltb_lt off SEC_BLK_SIZE)), (proj2 (Z.ltb_lt j MAP_KEY_NAME_SIZE)) by lia.
    cbn. rewrite IH by lia. by rewrite <- !Z.add_assoc.
Qed.

(** A field filled up to its limit is the rubbish the code rejects. *)
Lemma scan_name_len_long n fs off j :
  Forall (fun x => x <> chr_colon) fs -> fs <> [] ->
  (length fs <= n)%nat -> off + lenZ fs < SEC_BLK_SIZE -> j + lenZ fs = MAP_KEY_NAME_SIZE ->
  forall c rest, scan_name_len n (fs ++ c :: rest) off j = Some (off + lenZ fs, j + lenZ fs).
Proof.
  intros Hfs _. revert n off j.
  induction Hfs as [|x fs Hx Hfs IH]; intros n off j Hn Hoff Hj c rest.
  - rewrite lenZ_nil, !Z.add_0_r in *. cbn [app].
    destruct n; cbn; rewrite (proj2 (Z.ltb_ge j MAP_KEY_NAME_SIZE)) by lia;
      rewrite !andb_false_r; done.
  - cbn [length] in Hn. rewrite lenZ_cons in *. pose proof (lenZ_nonneg fs).
    destruct n as [|n]; [lia|]. cbn [app scan_name_len].
    rewrite (proj2 (Z.eqb_neq x chr_colon)) by done.
    rewrite (proj2 (Z.ltb_lt off SEC_BLK_SIZE)), (proj2 (Z.ltb_lt j MAP_KEY_NAME_SIZE)) by lia.
    cbn. rewrite IH by lia. by rewrite <- !Z.add_assoc.
Qed.

(** [memcmp] with the item as the second argument. *)
Lemma memcmp_eq_sym p q n : memcmp_eq p q n = memcmp_eq q p n.
Proof.
  revert p q; induction n as [|n IH]; intros [|a p] [|b q]; cbn; try done.
  rewrite (Z.eqb_sym b a). destruct (a =? b); [apply IH|done].
Qed.

Lemma name_char_nonzero n : Forall name_char n -> Forall (fun c => c <> 0) n.
Proof. intros H. eapply List.Forall_impl; [|exact H]. unfold name_char. tauto. Qed.
Lemma name_char_colon n : Forall name_char n -> Forall (fun c => c <> chr_colon) n.
Proof. intros H. eapply List.Forall_impl; [|exact H]. unfold name_char. tauto. Qed.
#[export] Hint Resolve name_char_nonzero name_char_colon sprintf_d_nonzero : csem.

Lemma entry_bytes_split e rest :
  entry_bytes e.1 e.2 ++ rest = e.1 ++ chr_colon :: sprintf_d e.2 ++ 0 :: rest.
Proof. unfold entry_bytes. rewrite <- app_assoc. cbn. by rewrite <- app_assoc. Qed.

Lemma lenZ_entry n l : lenZ (entry_bytes n l) = lenZ n + lenZ (sprintf_d l) + 2.
Proof.
  unfold entry_bytes. rewrite lenZ_app, lenZ_cons, lenZ_app, lenZ_cons, lenZ_nil. lia.
Qed.

Lemma lenZ_dec_digits f n : 1 <= lenZ (dec_digits (S f) n) <= Z.of_nat (S f).
Proof.
  revert n; induction f as [|f IH]; intros n.
  - cbn [dec_digits]. case_test; rewrite ?lenZ_app, lenZ_cons, ?lenZ_nil; lia.
  - remember (S f) as g. cbn [dec_digits]. case_test.
    + rewrite lenZ_cons, lenZ_nil. lia.
    + rewrite lenZ_app, lenZ_cons, lenZ_nil. specialize (IH (n / 10)). lia.
Qed.

Lemma lenZ_sprintf_d n : 1 <= lenZ (sprintf_d n) <= 11.
Proof.
  unfold sprintf_d. case_test; rewrite ?lenZ_cons.
  - pose proof (lenZ_dec_digits 9 (- n)). lia.
  - pose proof (lenZ_dec_digits 9 n). lia.
Qed.

Lemma sprintf_d_no_space n : Forall (fun x => x <> chr_space /\ x <> 0) (sprintf_d n).
Proof.
  assert (forall f m, 0 <= m -> Forall (fun x => x <> chr_space /\ x <> 0) (dec_digits f m)) as H.
  { intros f m Hm. eapply List.Forall_impl; [|exact (dec_digits_ok f m Hm)].
    intros c Hc. cbn beta in Hc. unfold is_digit, chr_space in *. lia. }
  unfold sprintf_d. case_test; [constructor; [unfold chr_space; lia|]|]; apply H; lia.
Qed.

Lemma atol_padded l size :
  0 <= l < 2147483648 -> lenZ (sprintf_d l) < size ->
  atol (padded (sprintf_d l) size) = l.
Proof.
  intros Hl Hs. unfold padded. apply atol_sprintf_d; [done|].
  unfold zeros. destruct (Z.to_nat (size - lenZ (sprintf_d l))) eqn:E; [lia|].
  reflexivity.
Qed.

Lemma padded_zero s size : lenZ s < size -> exists r, padded s size = s ++ 0 :: r.
Proof.
  intros. unfold padded, zeros.
  destruct (Z.to_nat (size - lenZ s)) as [|k] eqn:E; [lia|].
  exists (replicate k 0). done.
Qed.

Lemma entry_string_nonzero e : entry_ok e -> Forall (fun c => c <> 0) (entry_string e).
Proof.
  intros [[Hn _] _]. unfold entry_string. apply Forall_app. split; [auto with csem|].
  constructor; [done|]. apply sprintf_d_nonzero.
Qed.

Lemma entries_bytes_cons e es rest :
  entries_bytes (e :: es) ++ rest = entry_string e ++ 0 :: (entries_bytes es ++ rest).
Proof.
  unfold entries_bytes, entry_string, entry_bytes. cbn [map concat].
  by rewrite <- !app_assoc, <- !app_comm_cons, <- !app_assoc.
Qed.

Lemma drop_entry e rest :
  drop (length (entry_string e) + 1) (entry_string e ++ 0 :: rest) = rest.
Proof.
  rewrite drop_app_add'; [done|lia].
Qed.

Lemma lenZ_entry_string e :
  entry_ok e -> 2 < lenZ (entry_string e) /\ lenZ (entry_string e) = lenZ e.1 + 1 + lenZ (sprintf_d e.2).
Proof.
  intros [[_ Hn] _]. unfold entry_string. rewrite lenZ_app, lenZ_cons.
  pose proof (lenZ_sprintf_d e.2). lia.
Qed.

(** Arithmetic on the sizes of the format. *)
Ltac map_lia :=
  unfold MAP_KEY_NAME_SIZE, MAP_KEY_DATA_SIZE, map_info.data_size, SEC_BLK_SIZE, lenZ in *; lia.

(** One turn of the probe's loop on a well-formed entry. *)
Lemma probe_loop_entry f e rest off index item len :
  entry_ok e -> Forall (fun c => c <> 0) item ->
  off + lenZ (entry_string e) < SEC_BLK_SIZE ->
  probe_loop (S f) (entry_string e ++ 0 :: rest) off index item len =
  if bool_decide (item `prefix_of` e.1) then Some (index, e.2)
  else probe_loop f rest (off + (lenZ (entry_string e) + 1)) (index + 1) item len.
Proof.
  intros He Hitem Hoff. pose proof (entry_string_nonzero e He) as Hnz.
  pose proof (lenZ_entry_string e He) as [Hl1 Hl2].
  destruct He as [[Hn Hlen] Hl]. pose proof (lenZ_sprintf_d e.2) as Hd.
  unfold MAP_KEY_NAME_SIZE, SEC_BLK_SIZE in *.
  assert (exists c0 q, entry_string e ++ 0 :: rest = c0 :: q /\ c0 <> 0) as (c0 & q & Ep & Hc0).
  { destruct (entry_string e) as [|c0 q]; [by rewrite lenZ_nil in Hl1|]. inv Hnz.
    cbn. eauto. }
  cbn [probe_loop]. rewrite Ep, (proj2 (Z.eqb_neq c0 0)) by done. rewrite <- Ep.
  unfold entry_string at 1. rewrite <- app_assoc, <- app_comm_cons.
  assert (Forall (fun x => x <> chr_colon /\ x <> 0) e.1) as Hn'.
  { eapply List.Forall_impl; [|exact Hn]. unfold name_char. tauto. }
  rewrite scan_field_stop; [|exact Hn'|by left|map_lia|map_lia|map_lia].
  cbn [tail]. rewrite (proj2 (Z.leb_gt MAP_KEY_NAME_SIZE _)) by (unfold MAP_KEY_NAME_SIZE; lia).
  rewrite scan_field_stop; [|exact (sprintf_d_no_space e.2)|by right|map_lia|map_lia|map_lia].
  rewrite (proj2 (Z.leb_gt SEC_BLK_SIZE _)) by (unfold SEC_BLK_SIZE; lia).
  rewrite (proj2 (Z.leb_gt MAP_KEY_DATA_SIZE _)) by (unfold MAP_KEY_DATA_SIZE; lia).
  cbn [orb app].
  destruct (padded_zero e.1 MAP_KEY_NAME_SIZE) as [r ->]; [unfold MAP_KEY_NAME_SIZE; lia|].
  rewrite memcmp_eq_cstr by done.
  rewrite atol_padded by (unfold MAP_KEY_DATA_SIZE; lia).
  case_bool_decide; [done|].
  rewrite cstr_app by done. by rewrite drop_entry.
Qed.

Lemma probe_loop_spec es : forall f rest off index item len,
  Forall entry_ok es -> Forall (fun c => c <> 0) item ->
  off + lenZ (entries_bytes es) < SEC_BLK_SIZE -> (length es < f)%nat ->
  probe_loop f (entries_bytes es ++ 0 :: rest) off index item len =
  Some (default (-1, len) (lookup_prefix item es index)).
Proof.
  induction es as [|e es IH]; intros f rest off index item len Hes Hitem Hoff Hf.
  - destruct f; [cbn in Hf; lia|]. done.
  - destruct f as [|f]; [cbn in Hf; lia|]. inv Hes.
    rewrite entries_bytes_cons.
    assert (lenZ (entries_bytes (e :: es)) =
            lenZ (entry_string e) + 1 + lenZ (entries_bytes es)) as HL.
    { pose proof (entries_bytes_cons e es []) as E. rewrite !app_nil_r in E.
      rewrite E, lenZ_app, lenZ_cons. lia. }
    pose proof (lenZ_nonneg (entries_bytes es)).
    rewrite probe_loop_entry by (done || lia). cbn [lookup_prefix].
    case_bool_decide; [done|]. apply IH; try done; cbn in Hf; lia.
Qed.

(** ** What the probe computes *)

Lemma length_entries es : Forall entry_ok es -> Z.of_nat (length es) <= lenZ (entries_bytes es).
Proof.
  induction 1 as [|e es He Hes IH]; [done|].
  pose proof (entries_bytes_cons e es []) as E. rewrite !app_nil_r in E.
  rewrite E, lenZ_app, lenZ_cons. pose proof (lenZ_entry_string e He). cbn [length]. lia.
Qed.

Lemma represents_zero b es :
  represents b es -> exists rest, b = entries_bytes es ++ 0 :: rest.
Proof.
  intros (_ & tr & _ & Hlt & ->). unfold zeros, map_info.data_size in *.
  destruct (Z.to_nat (SEC_BLK_SIZE - 8 - lenZ (entries_bytes es))) eqn:E;
    [unfold SEC_BLK_SIZE in *; lia|]. cbn. eauto.
Qed.

Lemma represents_length b es : represents b es -> lenZ b = SEC_BLK_SIZE.
Proof.
  intros (_ & tr & Htr & Hlt & ->). rewrite !lenZ_app, lenZ_zeros by lia.
  unfold map_info.data_size. lia.
Qed.

Lemma probe_represents b es item len :
  represents b es -> Forall (fun c => c <> 0) item ->
  __probe_name_in_map b item len = Some (default (-1, len) (lookup_prefix item es 1)).
Proof.
  intros Hr Hitem. destruct (represents_zero b es Hr) as [rest E].
  destruct Hr as (Hes & tr & Htr & Hlt & _). rewrite E.
  pose proof (length_entries es Hes).
  unfold map_info.data_size, SEC_BLK_SIZE in *.
  apply probe_loop_spec; try done; unfold SEC_BLK_SIZE; lia.
Qed.

(** ** What the fill computes *)

Lemma prefix_entry_string item e :
  Forall (fun c => c <> chr_colon) item ->
  item `prefix_of` entry_string e <-> item `prefix_of` e.1.
Proof.
  unfold entry_string. generalize (e.1) as n. induction item as [|a item IH]; intros n Hi.
  { split; intros; apply prefix_nil. }
  inv Hi. destruct n as [|b n]; cbn [app].
  - split; [|by intros H%prefix_nil_not].
    intros H%prefix_cons_inv_1. done.
  - split; intros H; pose proof (prefix_cons_inv_1 _ _ _ _ H) as ->;
      apply prefix_cons_inv_2 in H; apply prefix_cons, IH; done.
Qed.

Lemma fill_loop_entry f e rest off index item :
  entry_ok e -> Forall name_char item -> off + lenZ (entry_string e) < SEC_BLK_SIZE ->
  fill_loop (S f) (entry_string e ++ 0 :: rest) off index item =
  if bool_decide (item `prefix_of` e.1) then Some (FillFound index)
  else fill_loop f rest (off + (lenZ (entry_string e) + 1)) (index + 1) item.
Proof.
  intros He Hitem Hoff. pose proof (entry_string_nonzero e He) as Hnz.
  pose proof (lenZ_entry_string e He) as [Hl1 Hl2].
  destruct He as [[Hn Hlen] Hl]. pose proof (lenZ_sprintf_d e.2) as Hd.
  unfold MAP_KEY_NAME_SIZE, SEC_BLK_SIZE in *.
  assert (exists c0 q, entry_string e ++ 0 :: rest = c0 :: q /\ c0 <> 0) as (c0 & q & Ep & Hc0).
  { destruct (entry_string e) as [|c0 q]; [by rewrite lenZ_nil in Hl1|]. inv Hnz.
    cbn. eauto. }
  cbn [fill_loop]. rewrite Ep, (proj2 (Z.eqb_neq c0 0)) by done. rewrite <- Ep.
  rewrite (proj2 (Z.ltb_lt off SEC_BLK_SIZE)) by map_lia. cbn [negb andb].
  unfold entry_string at 1. rewrite <- app_assoc, <- app_comm_cons.
  rewrite scan_name_len_colon; [|auto with csem|map_lia|map_lia|map_lia].
  rewrite (proj2 (Z.leb_gt SEC_BLK_SIZE _)) by map_lia.
  rewrite (proj2 (Z.leb_gt MAP_KEY_NAME_SIZE _)) by map_lia.
  cbn [orb]. rewrite memcmp_eq_sym, memcmp_eq_cstr by auto with csem.
  rewrite (bool_decide_ext _ (item `prefix_of` e.1)) by auto using prefix_entry_string with csem.
  case_bool_decide; [done|].
  rewrite cstr_app by done. by rewrite drop_entry.
Qed.

Lemma lenZ_entries_cons e es :
  lenZ (entries_bytes (e :: es)) = lenZ (entry_string e) + 1 + lenZ (entries_bytes es).
Proof.
  pose proof (entries_bytes_cons e es []) as E. rewrite !app_nil_r in E.
  rewrite E, lenZ_app, lenZ_cons. lia.
Qed.

(** Entries the item is not a prefix of are passed over. *)
Lemma fill_loop_skip es : forall f p off index item,
  Forall entry_ok es -> Forall name_char item -> lookup_prefix item es index = None ->
  off + lenZ (entries_bytes es) < SEC_BLK_SIZE ->
  fill_loop (length es + f) (entries_bytes es ++ p) off index item =
  fill_loop f p (off + lenZ (entries_bytes es)) (index + lenZ es) item.
Proof.
  induction es as [|e es IH]; intros f p off index item Hes Hitem Hlk Hoff.
  - cbn [entries_bytes map concat length Nat.add app]. change (lenZ _) with 0 at 1.
    change (lenZ (@nil entry)) with 0. by rewrite !Z.add_0_r.
  - inv Hes. cbn [lookup_prefix] in Hlk. case_bool_decide as Hp; [done|].
    rewrite entries_bytes_cons. rewrite lenZ_entries_cons, lenZ_cons in *.
    pose proof (lenZ_nonneg (entries_bytes es)).
    cbn [length Nat.add]. rewrite fill_loop_entry by (done || lia).
    rewrite bool_decide_false by done. rewrite IH by (done || lia). f_equal; lia.
Qed.

Lemma fill_loop_found es : forall f p off index item k l,
  Forall entry_ok es -> Forall name_char item -> lookup_prefix item es index = Some (k, l) ->
  off + lenZ (entries_bytes es) < SEC_BLK_SIZE -> (length es <= f)%nat ->
  fill_loop f (entries_bytes es ++ p) off index item = Some (FillFound k).
Proof.
  induction es as [|e es IH]; intros f p off index item k l Hes Hitem Hlk Hoff Hf; [done|].
  inv Hes. cbn [lookup_prefix length] in *. rewrite entries_bytes_cons.
  rewrite lenZ_entries_cons in *. pose proof (lenZ_nonneg (entries_bytes es)).
  destruct f as [|f]; [lia|]. rewrite fill_loop_entry by (done || lia).
  case_bool_decide; [by inv Hlk|]. eapply IH; [done|done|done|lia|lia].
Qed.

Lemma fill_loop_spec es f rest off index item :
  Forall entry_ok es -> Forall name_char item ->
  off + lenZ (entries_bytes es) < SEC_BLK_SIZE -> (length es < f)%nat ->
  fill_loop f (entries_bytes es ++ 0 :: rest) off index item =
  Some (match lookup_prefix item es index with
        | Some (k, _) => FillFound k
        | None => FillAt (off + lenZ (entries_bytes es)) (index + lenZ es)
        end).
Proof.
  intros Hes Hitem Hoff Hf.
  destruct (lookup_prefix item es index) as [[k l]|] eqn:E.
  - eapply fill_loop_found; try done. lia.
  - replace f with (length es + S (f - length es - 1))%nat by lia.
    by rewrite fill_loop_skip.
Qed.

(** Thirty-one entries of names below the key size always fit. *)
Lemma lenZ_entries_bound es :
  Forall entry_ok es -> lenZ (entries_bytes es) <= 76 * lenZ es.
Proof.
  induction 1 as [|e es He Hes IH]; [done|].
  rewrite lenZ_entries_cons, lenZ_cons.
  pose proof (lenZ_entry_string e He) as [_ ->]. pose proof (lenZ_sprintf_d e.2).
  destruct He as [[_ Hn] _]. map_lia.
Qed.

Lemma put_entry_represents b es item l :
  represents b es -> name_ok item -> 0 <= l < 2147483648 -> lenZ es < 32 ->
  exists b', put_entry b (lenZ (entries_bytes es)) item l = Some b' /\
             represents b' (es ++ [(item, l)]).
Proof.
  intros Hrep Hitem Hl Hlen. pose proof (represents_length _ _ Hrep) as HL.
  destruct Hrep as (Hes & tr & Htr & Hlt & E).
  assert (entry_ok (item, l)) as He by done.
  pose proof (lenZ_entries_bound es Hes) as HB.
  pose proof (lenZ_sprintf_d l) as Hd. pose proof (lenZ_entry item l) as HE.
  assert (lenZ item < 64) as Hi by (destruct Hitem; map_lia).
  pose proof (lenZ_nonneg (entries_bytes es)). pose proof (lenZ_nonneg item).
  unfold put_entry.
  rewrite memcpy_Some by (rewrite ?HL, ?HE; unfold SEC_BLK_SIZE; lia).
  eexists. split; [done|].
  split; [apply Forall_app; split; [done|by constructor]|].
  assert (entries_bytes (es ++ [(item, l)]) = entries_bytes es ++ entry_bytes item l) as EE.
  { unfold entries_bytes. rewrite map_app, concat_app. cbn. by rewrite app_nil_r. }
  exists tr. split; [done|]. rewrite EE, lenZ_app, HE.
  split; [unfold map_info.data_size, SEC_BLK_SIZE; lia|].
  rewrite (bslice_all _ (entry_bytes item l)) by done.
  rewrite E. unfold bblit. rewrite <- app_assoc.
  rewrite take_app_length' by (unfold lenZ; lia). f_equal. f_equal.
  rewrite drop_app_ge by (unfold lenZ; lia).
  unfold zeros, lenZ in *. rewrite drop_app_le by (rewrite length_replicate; map_lia).
  rewrite drop_replicate. do 2 f_equal. map_lia.
Qed.

Lemma fill_represents b es item l :
  represents b es -> name_ok item -> 0 <= l < 2147483648 ->
  exists b', __fill_name_in_map b item l = Some (fst (entries_fill item l es), b') /\
             represents b' (snd (entries_fill item l es)).
Proof.
  intros Hrep Hitem Hl. destruct (represents_zero b es Hrep) as [rest E].
  pose proof Hrep as (Hes & tr & Htr & Hlt & _).
  pose proof (length_entries es Hes).
  pose proof (fill_loop_spec es (Z.to_nat SEC_BLK_SIZE + 1) rest 0 1 item Hes (proj1 Hitem)) as HF.
  rewrite <- E in HF. specialize (HF ltac:(map_lia) ltac:(map_lia)).
  unfold __fill_name_in_map, entries_fill. rewrite HF.
  destruct (lookup_prefix item es 1) as [[k l']|]; [by exists b|].
  case_test; [by exists b|].
  destruct (put_entry_represents b es item l) as (b' & E' & Hb'); [done|done|done|lia|].
  exists b'. rewrite Z.add_0_l, E'. done.
Qed.

(** ** Lookups in the list of entries *)

Lemma lookup_prefix_app item es es' index :
  lookup_prefix item (es ++ es') index =
  match lookup_prefix item es index with
  | Some r => Some r
  | None => lookup_prefix item es' (index + lenZ es)
  end.
Proof.
  revert index; induction es as [|e es IH]; intros index; cbn [app lookup_prefix].
  - by rewrite (@lenZ_nil entry), Z.add_0_r.
  - case_bool_decide; [done|]. rewrite IH, lenZ_cons. by rewrite Z.add_assoc.
Qed.

Lemma lookup_prefix_range item es index k l :
  lookup_prefix item es index = Some (k, l) -> index <= k < index + lenZ es.
Proof.
  revert index; induction es as [|e es IH]; intros index; cbn [lookup_prefix]; [done|].
  rewrite lenZ_cons. pose proof (lenZ_nonneg es).
  case_bool_decide; [|intros E%IH; lia]. intros E; inv E. lia.
Qed.

Lemma entries_fill_lookup item l es :
  0 <= fst (entries_fill item l es) ->
  exists l', lookup_prefix item (snd (entries_fill item l es)) 1 =
             Some (fst (entries_fill item l es), l') /\
             (lookup_prefix item es 1 = None -> l' = l).
Proof.
  unfold entries_fill. destruct (lookup_prefix item es 1) as [[k l']|] eqn:E; cbn.
  - intros _. exists l'. by rewrite E.
  - case_test; cbn; [lia|]. intros _. exists l. split; [|done].
    rewrite lookup_prefix_app, E. cbn. by rewrite bool_decide_true.
Qed.

Lemma entries_fill_other item item' l es :
  ~ item' `prefix_of` item ->
  lookup_prefix item' (snd (entries_fill item l es)) 1 = lookup_prefix item' es 1.
Proof.
  intros Hne. unfold entries_fill.
  destruct (lookup_prefix item es 1) as [[k l']|]; [done|]. case_test; [done|]. cbn.
  rewrite lookup_prefix_app. destruct (lookup_prefix item' es 1); [done|].
  cbn. by rewrite bool_decide_false.
Qed.

(** The cleared block. *)
Lemma represents_cleared : represents (zeros SEC_BLK_SIZE) [].
Proof.
  split; [constructor|]. exists (zeros 8). split; [done|]. split; [done|].
  unfold zeros. cbn [entries_bytes map concat app].
  rewrite <- replicate_add. reflexivity.
Qed.

(** A name that fills the key array is taken for rubbish. *)
Lemma fill_loop_dirty f long c rest off index item :
  Forall name_char long -> MAP_KEY_NAME_SIZE <= lenZ long ->
  off + lenZ long < SEC_BLK_SIZE ->
  fill_loop (S f) (long ++ c :: rest) off index item = Some FillDirty.
Proof.
  intros Hl Hlen Hoff.
  set (fs := take (Z.to_nat MAP_KEY_NAME_SIZE) long).
  set (more := drop (Z.to_nat MAP_KEY_NAME_SIZE) long).
  assert (lenZ fs = MAP_KEY_NAME_SIZE) as Hfs
    by (subst fs; unfold lenZ in *; rewrite length_take; map_lia).
  assert (exists d r, more ++ c :: rest = d :: r) as (d & r & Em)
    by (destruct more; cbn; eauto).
  assert (long ++ c :: rest = fs ++ d :: r) as E.
  { rewrite <- Em, app_assoc. unfold fs, more. by rewrite take_drop. }
  assert (Forall name_char fs) as Hok by (by apply Forall_take).
  assert (exists c0 q, fs ++ d :: r = c0 :: q /\ c0 <> 0) as (c0 & q & Ep & Hc0).
  { destruct fs as [|c0 q]; [by rewrite lenZ_nil in Hfs|]. inv Hok.
    exists c0, (q ++ d :: r). split; [done|]. by destruct H1 as (_ & ? & _). }
  rewrite E. cbn [fill_loop]. rewrite Ep, (proj2 (Z.eqb_neq c0 0)) by done. rewrite <- Ep.
  rewrite (proj2 (Z.ltb_lt off SEC_BLK_SIZE)) by map_lia. cbn [negb andb].
  rewrite scan_name_len_long;
    [|by apply name_char_colon|by intros ->|map_lia|map_lia|map_lia].
  rewrite (proj2 (Z.leb_le MAP_KEY_NAME_SIZE _)) by lia. by rewrite orb_true_r.
Qed.

(** ** Properties *)

(** C23: a fill followed by a probe. On a well-formed map that does not know the
    name and is not full, [__fill_name_in_map] gives it the next item number,
    the probe then finds that number and length, every name that is not a prefix
    of the new one is probed as before, and the map stays well formed. *)
Theorem fill_then_probe b es item l :
  represents b es -> name_ok item -> 0 <= l < 2147483648 ->
  lookup_prefix item es 1 = None -> lenZ es < 31 ->
  exists b', __fill_name_in_map b item l = Some (1 + lenZ es, b') /\
    represents b' (es ++ [(item, l)]) /\
    (forall len, __probe_name_in_map b' item len = Some (1 + lenZ es, l)) /\
    (forall item' len, Forall (fun c => c <> 0) item' -> ~ item' `prefix_of` item ->
       __probe_name_in_map b' item' len = __probe_name_in_map b item' len).
Proof.
  intros Hrep Hitem Hl Hnew Hlen.
  destruct (fill_represents b es item l Hrep Hitem Hl) as (b' & Ef & Hb').
  pose proof (entries_fill_lookup item l es) as Hlk.
  pose proof (fun item' => entries_fill_other item item' l es) as Hother.
  assert (entries_fill item l es = (1 + lenZ es, es ++ [(item, l)])) as E.
  { unfold entries_fill. rewrite Hnew, (proj2 (Z.leb_gt 32 _)) by lia. done. }
  rewrite E in *. cbn [fst snd] in *.
  destruct Hlk as (l' & Hlk & Hl'); [pose proof (lenZ_nonneg es); lia|].
  rewrite (Hl' Hnew) in Hlk.
  exists b'. split; [done|]. split; [done|]. split.
  - intros len. rewrite (probe_represents _ _ _ _ Hb') by (destruct Hitem; auto with csem).
    by rewrite Hlk.
  - intros item' len Hnz Hnp. rewrite (probe_represents _ _ _ _ Hb'), (probe_represents _ _ _ _ Hrep) by done.
    by rewrite Hother.
Qed.

(** The example block of the witnesses: one entry, "mac:3176". *)
Definition name_mac : bytes := [109; 97; 99].
Definition name_sn : bytes := [115; 110].
Definition block_mac : bytes :=
  entries_bytes [(name_mac, 3176)] ++
  zeros (map_info.data_size - lenZ (entries_bytes [(name_mac, 3176)])) ++ zeros 8.

Lemma name_ok_dec n :
  forallb (fun c => (0 <? c) && (c <? 256) && negb (c =? chr_colon)) n = true ->
  (0 <? lenZ n) && (lenZ n <? MAP_KEY_NAME_SIZE) = true -> name_ok n.
Proof.
  intros H Hl. split; [|lia].
  apply Forall_forall. intros c Hc. rewrite forallb_forall in H.
  specialize (H c (proj1 (list_elem_of_In _ _) Hc)). unfold name_char, byte_ok, chr_colon in *. lia.
Qed.

Lemma represents_mac : represents block_mac [(name_mac, 3176)].
Proof.
  split.
  - constructor; [|constructor]. split; [by apply name_ok_dec|cbn; lia].
  - exists (zeros 8). done.
Qed.

Lemma fill_then_probe_witness :
  exists b', __fill_name_in_map block_mac name_sn 3176 = Some (2, b') /\
    represents b' ([(name_mac, 3176)] ++ [(name_sn, 3176)]) /\
    (forall len, __probe_name_in_map b' name_sn len = Some (2, 3176)) /\
    (forall item' len, Forall (fun c => c <> 0) item' -> ~ item' `prefix_of` name_sn ->
       __probe_name_in_map b' item' len = __probe_name_in_map block_mac item' len).
Proof.
  apply (fill_then_probe block_mac [(name_mac, 3176)] name_sn 3176);
    [exact represents_mac|by apply name_ok_dec|lia|vm_compute; reflexivity|reflexivity].
Defined.

(** a stored name of 64 characters or more loses the whole map: the fill
    accepts it without a length check, and the next fill of another name takes
    the map for rubbish, clears it and hands out item 1 again. *)
Theorem fill_long_name_clears b es long l item l' :
  represents b es -> Forall name_char long ->
  MAP_KEY_NAME_SIZE <= lenZ long -> lenZ (entries_bytes es) + lenZ long < map_info.data_size - 20 ->
  lookup_prefix long es 1 = None -> lenZ es < 31 ->
  name_ok item -> 0 <= l' < 2147483648 -> lookup_prefix item es 1 = None ->
  exists b1 b2, __fill_name_in_map b long l = Some (1 + lenZ es, b1) /\
    __fill_name_in_map b1 item l' = Some (1, b2) /\ represents b2 [(item, l')].
Proof.
  intros Hrep Hlong Hlen Hroom Hnew Hn Hitem Hl Hinew.
  pose proof (represents_length _ _ Hrep) as HL.
  destruct (represents_zero b es Hrep) as [rest E].
  destruct Hrep as (Hes & _). pose proof (length_entries es Hes).
  pose proof (lenZ_nonneg (entries_bytes es)). pose proof (lenZ_nonneg long).
  pose proof (lenZ_entry long l) as HE. pose proof (lenZ_sprintf_d l).
  unfold __fill_name_in_map at 1. rewrite E.
  rewrite fill_loop_spec; [|done|done|map_lia|map_lia].
  rewrite Hnew. rewrite (proj2 (Z.leb_gt 32 _)) by lia.
  unfold put_entry. rewrite <- E, Z.add_0_l.
  rewrite memcpy_Some by (rewrite ?HL, ?HE; map_lia).
  cbn [option_map]. set (b1 := bblit _ _ _). exists b1.
  assert (lenZ b1 = SEC_BLK_SIZE) as Hb1.
  { unfold b1. rewrite bslice_all by done.
    rewrite lenZ_bblit by (rewrite ?HL, ?HE; map_lia). done. }
  assert (b1 = entries_bytes es ++ long ++ chr_colon :: drop (Z.to_nat (lenZ (entries_bytes es) + lenZ long + 1)) b1) as E1.
  { unfold b1. rewrite bslice_all by done. unfold bblit, entry_bytes.
    rewrite E, take_app_length' by (unfold lenZ; lia). rewrite <- E, <- !app_assoc.
    do 2 f_equal. cbn [app]. f_equal.
    rewrite !app_assoc. rewrite drop_app_ge; rewrite ?length_app; unfold lenZ; cbn [length]; [|lia]. 
    match goal with |- _ = drop ?n _ => replace n with 1%nat by lia end. done. }
  destruct (put_entry_represents _ _ item l' represents_cleared Hitem Hl) as (b2 & E2 & Hr2); [done|].
  exists b2. split; [done|]. split; [|done].
  unfold __fill_name_in_map. rewrite E1.
  replace (Z.to_nat SEC_BLK_SIZE + 1)%nat with
    (length es + S (Z.to_nat SEC_BLK_SIZE - length es))%nat by map_lia.
  destruct Hitem as [Hic _].
  rewrite fill_loop_skip by (done || map_lia).
  rewrite fill_loop_dirty by (done || map_lia).
  rewrite <- E1. rewrite memset_Some by (rewrite ?Hb1; done).
  rewrite bblit_whole by (rewrite Hb1; done).
  change (fill 0 SEC_BLK_SIZE) with (zeros SEC_BLK_SIZE). change (lenZ (entries_bytes [])) with 0 in E2.
  by rewrite E2.
Qed.

Lemma fill_long_name_clears_witness :
  let long := replicate 64 65 in
  exists b1 b2, __fill_name_in_map block_mac long 3176 = Some (2, b1) /\
    __fill_name_in_map b1 name_sn 3176 = Some (1, b2) /\ represents b2 [(name_sn, 3176)].
Proof.
  intros long.
  apply (fill_long_name_clears block_mac [(name_mac, 3176)] long 3176 name_sn 3176);
    [exact represents_mac| |done|done|vm_compute; reflexivity|done|by apply name_ok_dec|lia
    |vm_compute; reflexivity].
  apply Forall_replicate. unfold name_char, byte_ok, chr_colon. lia.
Defined.
