(* ===== verification/SsObject.v ===== *)
(** * libsec_storage: the secure object

    [wrap_secure_object] and [unwrap_secure_object] of [secure_storage.c]: the
    3176-byte record around a payload, with its magic, name, length and crc.
    A [store_object_t] is kept as the bytes of the buffer it is laid over. *)

From S2P Require Import Prelude CLib SsDevice.

Section Object.
Variable crc32 : bytes -> Z.

(** Source, its length and the destination; the result, the destination after
    the call and [*retLen]. *)
Definition unwrap_secure_object (src : bytes) (len : Z) (payload : bytes) (retLen : Z)
  : option (Z * bytes * Z) :=
  if negb (len =? store_object_t.size) then Some (-1, payload, retLen) else
  if negb (in_bounds 0 store_object_t.size src) then None else
  if negb (get_u32 src store_object_t.magic =? STORE_OBJECT_MAGIC)
  then Some (-1, payload, retLen) else
  if negb (get_u32 src store_object_t.crc =?
           crc32 (bslice 0 (store_object_t.size - 4) src))
  then Some (-1, payload, retLen) else
  let actual_len := get_u32 src store_object_t.actual_len in
  if in_bounds store_object_t.data actual_len src then
    match memcpy payload 0 (bslice store_object_t.data actual_len src) actual_len with
    | Some payload' => Some (0, payload', s32 actual_len)
    | None => None
    end
  else None.

Definition wrap_secure_object (src name : bytes) (len : Z) (tagt : bytes) (retLen : Z)
  : option (Z * bytes * Z) :=
  if MAX_STORE_LEN <? len then Some (-1, tagt, retLen) else
  if negb (in_bounds 0 store_object_t.size tagt && in_bounds 0 len src) then None else
  let t := put_u32 tagt store_object_t.magic STORE_OBJECT_MAGIC in
  let t := bblit store_object_t.name (strncpy_bytes name 64) t in
  let t := put_u32 t store_object_t.re_encrypt 0 in
  let t := put_u32 t store_object_t.version 1 in
  let t := put_u32 t store_object_t.id 0 in
  let t := put_u32 t store_object_t.write_protect 0 in
  let t := bblit store_object_t.reserved (fill 0 4) t in
  let t := put_u32 t store_object_t.actual_len len in
  let t := bblit store_object_t.data (bslice 0 len src) t in
  let t := put_u32 t store_object_t.crc (crc32 (bslice 0 (store_object_t.size - 4) t)) in
  Some (0, t, store_object_t.size).
End Object.

(** ** Fields of a buffer under writes elsewhere *)

Ltac obj_unfold :=
  unfold store_object_t.magic, store_object_t.id, store_object_t.name,
    store_object_t.re_encrypt, store_object_t.version, store_object_t.write_protect,
    store_object_t.reserved, store_object_t.actual_len, store_object_t.data,
    store_object_t.crc, store_object_t.size, store_object_t.crc, store_object_t.data,
    MAX_STORE_LEN, SEC_BLK_SIZE in *.

Lemma lenZ_strncpy name n : 0 <= n -> lenZ (strncpy_bytes name n) = n.
Proof.
  intros. unfold strncpy_bytes, zeros, lenZ.
  rewrite length_take, length_app, length_replicate. lia.
Qed.

Lemma get_u32_bblit_other b off src off' :
  0 <= off -> 0 <= off' -> off' + lenZ src <= lenZ b ->
  off + 4 <= off' \/ off' + lenZ src <= off ->
  get_u32 (bblit off' src b) off = get_u32 b off.
Proof.
  intros H1 H2 H3 [H|H]; unfold get_u32; f_equal.
  - apply bslice_bblit_before; pose proof (lenZ_nonneg src); lia.
  - apply bslice_bblit_after; lia.
Qed.

(** Reading a field back. *)
Lemma get_u32_bblit_same b off z :
  0 <= off -> off + 4 <= lenZ b -> 0 <= z < 4294967296 ->
  get_u32 (bblit off (le_put 4 z) b) off = z.
Proof. apply get_put_u32. Qed.

(** [side] proves the bounds of a write; [peel] passes a read over the last
    write of a named buffer, [land] reads what that write put there. *)
Ltac side := rewrite ?lenZ_le_put, ?lenZ_fill, ?lenZ_strncpy by lia; obj_unfold; unfold STORE_OBJECT_MAGIC; lia.
Ltac peel :=
  match goal with |- get_u32 ?t _ = _ => unfold t end; rewrite get_u32_bblit_other by side.
Ltac land :=
  match goal with |- get_u32 ?t _ = _ => unfold t end; apply get_u32_bblit_same; side.

Section ObjectLemmas.
Variable crc32 : bytes -> Z.
Hypothesis crc32_range : forall b, 0 <= crc32 b < 4294967296.

(** What a successful wrap leaves in the target buffer. *)
Lemma wrap_fields src name len tagt rl :
  0 <= len <= MAX_STORE_LEN -> len <= lenZ src -> store_object_t.size <= lenZ tagt ->
  exists t, wrap_secure_object crc32 src name len tagt rl = Some (0, t, store_object_t.size) /\
    lenZ t = lenZ tagt /\
    get_u32 t store_object_t.magic = STORE_OBJECT_MAGIC /\
    get_u32 t store_object_t.write_protect = 0 /\
    get_u32 t store_object_t.actual_len = len /\
    bslice store_object_t.data len t = bslice 0 len src /\
    get_u32 t store_object_t.crc = crc32 (bslice 0 (store_object_t.size - 4) t).
Proof.
  intros Hlen Hsrc Htagt. unfold wrap_secure_object.
  rewrite (proj2 (Z.ltb_ge MAX_STORE_LEN len)) by lia.
  rewrite (proj2 (in_bounds_spec 0 store_object_t.size tagt)) by (obj_unfold; lia).
  rewrite (proj2 (in_bounds_spec 0 len src)) by lia. cbn [negb andb]. cbv zeta.
  unfold put_u32.
  set (payload := bslice 0 len src).
  assert (lenZ payload = len) as Lp by (apply lenZ_bslice; lia). clearbody payload.
  set (t1 := bblit store_object_t.magic _ tagt).
  assert (lenZ t1 = lenZ tagt) as L1 by (apply lenZ_bblit; side).
  set (t2 := bblit store_object_t.name _ t1).
  assert (lenZ t2 = lenZ tagt) as L2 by (rewrite <- L1; apply lenZ_bblit; side).
  set (t3 := bblit store_object_t.re_encrypt _ t2).
  assert (lenZ t3 = lenZ tagt) as L3 by (rewrite <- L2; apply lenZ_bblit; side).
  set (t4 := bblit store_object_t.version _ t3).
  assert (lenZ t4 = lenZ tagt) as L4 by (rewrite <- L3; apply lenZ_bblit; side).
  set (t5 := bblit store_object_t.id _ t4).
  assert (lenZ t5 = lenZ tagt) as L5 by (rewrite <- L4; apply lenZ_bblit; side).
  set (t6 := bblit store_object_t.write_protect _ t5).
  assert (lenZ t6 = lenZ tagt) as L6 by (rewrite <- L5; apply lenZ_bblit; side).
  set (t7 := bblit store_object_t.reserved _ t6).
  assert (lenZ t7 = lenZ tagt) as L7 by (rewrite <- L6; apply lenZ_bblit; side).
  set (t8 := bblit store_object_t.actual_len _ t7).
  assert (lenZ t8 = lenZ tagt) as L8 by (rewrite <- L7; apply lenZ_bblit; side).
  set (t9 := bblit store_object_t.data _ t8).
  assert (lenZ t9 = lenZ tagt) as L9 by (rewrite <- L8; apply lenZ_bblit; side).
  eexists. split; [done|]. set (t10 := bblit store_object_t.crc _ t9).
  assert (lenZ t10 = lenZ tagt) as L10 by (rewrite <- L9; apply lenZ_bblit; side).
  split; [done|]. split; [|split; [|split; [|split]]].
  - do 9 peel. land.
  - do 4 peel. land.
  - do 2 peel. land.
  - unfold t10. rewrite bslice_bblit_before by side. unfold t9. apply bslice_bblit_same; side.
  - unfold t10 at 1. rewrite get_u32_bblit_same by first [apply crc32_range | side].
    f_equal. symmetry. apply bslice_bblit_before; side.
Qed.
End ObjectLemmas.

Section Unwrap.
Variable crc32 : bytes -> Z.
Hypothesis crc32_range : forall b, 0 <= crc32 b < 4294967296.

(** A buffer that holds a valid object with an [n]-byte payload. *)
Definition valid_object (t : bytes) (payload : bytes) : Prop :=
  store_object_t.size <= lenZ t /\ lenZ payload <= MAX_STORE_LEN /\
  get_u32 t store_object_t.magic = STORE_OBJECT_MAGIC /\
  get_u32 t store_object_t.actual_len = lenZ payload /\
  bslice store_object_t.data (lenZ payload) t = payload /\
  get_u32 t store_object_t.crc = crc32 (bslice 0 (store_object_t.size - 4) t).

Lemma wrap_valid src name len tagt rl :
  0 <= len <= MAX_STORE_LEN -> len <= lenZ src -> store_object_t.size <= lenZ tagt ->
  exists t, wrap_secure_object crc32 src name len tagt rl = Some (0, t, store_object_t.size) /\
    lenZ t = lenZ tagt /\ valid_object t (bslice 0 len src) /\
    get_u32 t store_object_t.write_protect = 0.
Proof.
  intros H1 H2 H3.
  destruct (wrap_fields crc32 crc32_range src name len tagt rl H1 H2 H3)
    as (t & E & L & Hm & Hw & Ha & Hd & Hc).
  exists t. split; [done|]. split; [done|]. split; [|done].
  unfold valid_object. rewrite lenZ_bslice by lia. rewrite L. tauto.
Qed.

Lemma check_key_total t :
  store_object_t.size <= lenZ t ->
  check_secure_storage_key crc32 t = Some 0 \/ check_secure_storage_key crc32 t = Some (-1).
Proof.
  intros HL. unfold check_secure_storage_key.
  rewrite (proj2 (in_bounds_spec 0 store_object_t.size t)) by (obj_unfold; lia).
  repeat case_test; auto.
Qed.

Lemma check_valid t payload :
  valid_object t payload -> check_secure_storage_key crc32 t = Some 0.
Proof.
  intros (Hsz & _ & Hm & _ & _ & Hc). unfold check_secure_storage_key.
  rewrite (proj2 (in_bounds_spec 0 store_object_t.size t)) by (obj_unfold; lia).
  by rewrite Hm, Hc, !Z.eqb_refl.
Qed.

Lemma unwrap_valid t payload dst rl :
  valid_object t payload ->
  unwrap_secure_object crc32 t store_object_t.size dst rl =
  if lenZ payload <=? lenZ dst then Some (0, bblit 0 payload dst, lenZ payload) else None.
Proof.
  intros (Hsz & Hn & Hm & Ha & Hd & Hc). pose proof (lenZ_nonneg payload).
  unfold unwrap_secure_object. rewrite Z.eqb_refl. cbn [negb].
  rewrite (proj2 (in_bounds_spec 0 store_object_t.size t)) by (obj_unfold; lia). cbn [negb].
  rewrite Hm, Hc, !Z.eqb_refl. cbn [negb]. rewrite Ha.
  rewrite (proj2 (in_bounds_spec store_object_t.data (lenZ payload) t)) by (obj_unfold; lia).
  rewrite Hd. unfold memcpy.
  rewrite (proj2 (in_bounds_spec 0 (lenZ payload) payload)) by lia.
  rewrite andb_true_r, bslice_all by done.
  rewrite s32_small by (unfold MAX_STORE_LEN in *; lia).
  destruct (Z.leb_spec (lenZ payload) (lenZ dst)).
  - by rewrite (proj2 (in_bounds_spec 0 (lenZ payload) dst)) by lia.
  - replace (in_bounds 0 (lenZ payload) dst) with false; [done|].
    unfold in_bounds. lia.
Qed.
End Unwrap.
