(* ===== verification/SecureStorage.v ===== *)
(** * libsec_storage: the secure storage session

    The rest of [secure_storage.c]: read, write, probe and erase of a named
    object, and the session functions [sunxi_secure_storage_init] and
    [sunxi_secure_storage_exit], which take and release [sec_mutex]. *)

From S2P Require Import Prelude CLib Os SsDevice SsMap SsObject.

Section Storage.
Context {W : Type} `{OsOps W}.
Variable crc32 : bytes -> Z.
Abbreviation S := (mach W ss_globals).

(** ** The mutex *)

(** [pthread_mutex_lock] of a mutex this thread holds never returns. *)
Definition mutex_lock : M S unit :=
  let* held := get_glob sec_mutex in
  if held : bool then blocked else set_glob (with_mutex true).
(** [pthread_mutex_unlock] of a mutex that is not locked is undefined. *)
Definition mutex_unlock : M S unit :=
  let* held := get_glob sec_mutex in
  if held : bool then set_glob (with_mutex false) else undef.

Definition set_map_dirty : M S unit := set_glob (with_dirty 1).
Definition clear_map_dirty : M S unit := set_glob (with_dirty 0).
Definition try_map_dirty : M S Z := get_glob map_dirty.

(** ** Items *)

Definition sunxi_secure_storage_read (item_name buffer : bytes) (buffer_len data_len : Z)
  : M S (Z * bytes * Z) :=
  let* inited := get_glob secure_storage_inited in
  if inited =? 0 then ret (-1, buffer, data_len) else
  let* buffer_to_sec := c_malloc SEC_BLK_SIZE in
  if buffer_to_sec =? 0 then ret (-1, buffer, data_len) else
  let* m := get_glob secure_storage_map in
  let* '(index, len_in_store) := checked (__probe_name_in_map m item_name 0) in
  if index <? 0 then c_free buffer_to_sec ;;; ret (-1, buffer, data_len) else
  let* buffer := checked (memset buffer 0 0 buffer_len) in
  let* '(r, sec) := sunxi_secstorage_read crc32 index (zeros SEC_BLK_SIZE) SEC_BLK_SIZE in
  if negb (r =? 0) then c_free buffer_to_sec ;;; ret (-1, buffer, data_len) else
  let n := if buffer_len <? len_in_store then buffer_len else len_in_store in
  let* buffer := checked (memcpy buffer 0 sec n) in
  c_free buffer_to_sec ;;; ret (0, buffer, len_in_store).

Definition sunxi_secure_storage_write (item_name buffer : bytes) (length_ : Z) : M S Z :=
  let* inited := get_glob secure_storage_inited in
  if inited =? 0 then ret (-1) else
  let* m := get_glob secure_storage_map in
  let* '(index, m') := checked (__fill_name_in_map m item_name length_) in
  set_glob (with_map m') ;;;
  if index <? 0 then ret (-1) else
  let* r := sunxi_secstorage_write index buffer SEC_BLK_SIZE in
  if negb (r =? 0) then ret (-1) else
  set_map_dirty ;;; ret 0.

Definition sunxi_secure_storage_probe (item_name : bytes) : M S Z :=
  let* inited := get_glob secure_storage_inited in
  if inited =? 0 then ret (-1) else
  let* m := get_glob secure_storage_map in
  let* '(r, _) := checked (__probe_name_in_map m item_name 0) in
  if r <? 0 then ret (-1) else ret 0.

(** ** Objects *)

Definition sunxi_secure_object_erase : M S Z :=
  set_glob (with_map (zeros SEC_BLK_SIZE)) ;;; set_map_dirty ;;; ret 0.

(** [buffer_len] is not used by the code. *)
Definition sunxi_secure_object_read (item_name buffer : bytes) (buffer_len data_len : Z)
  : M S (Z * bytes * Z) :=
  let* '(r, secure_object, retLen) :=
    sunxi_secure_storage_read item_name (zeros SEC_BLK_SIZE) SEC_BLK_SIZE 0 in
  if negb (r =? 0) then ret (-1, buffer, data_len) else
  checked (unwrap_secure_object crc32 secure_object (u32 retLen) buffer data_len).

(** [stack] is what the automatic array [secure_object] holds before it is
    written: nothing initialises it when the read of the old item fails. *)
Definition sunxi_secure_object_write (stack item_name buffer : bytes) (length_ : Z) : M S Z :=
  let* known := sunxi_secure_storage_probe item_name in
  let* protected :=
    (if known =? 0 then
       let* '(_, secure_object, _) :=
         sunxi_secure_object_read item_name stack SEC_BLK_SIZE 0 in
       ret ((get_u32 secure_object store_object_t.magic =? STORE_OBJECT_MAGIC) &&
            (get_u32 secure_object store_object_t.write_protect =? STORE_WRITE_PROTECT_MAGIC))
     else ret false) in
  if protected : bool then ret (-1) else
  let* '(r, secure_object, retLen) :=
    checked (wrap_secure_object crc32 buffer item_name (u32 length_) (zeros SEC_BLK_SIZE) 0) in
  if (r <? 0) || (SEC_BLK_SIZE <? retLen) then ret (-1) else
  sunxi_secure_storage_write item_name secure_object retLen.

(** ** The session *)

Definition sunxi_secure_storage_init : M S Z :=
  mutex_lock ;;;
  let* inited := get_glob secure_storage_inited in
  let* failed :=
    (if inited =? 0 then
       get_flash_type ;;;
       let* m := get_glob secure_storage_map in
       let* '(r, m) := sunxi_secstorage_read crc32 0 m SEC_BLK_SIZE in
       set_glob (with_map m) ;;;
       if r =? -1 then mutex_unlock ;;; ret true else
       let* r := checked (check_secure_storage_map crc32 m) in
       let* first := checked (bget m 0) in
       (if r =? -1 then set_glob (with_map (zeros SEC_BLK_SIZE))
        else if (r =? 2) && ((first =? 0xff) || (first =? 0))
             then set_glob (with_map (zeros SEC_BLK_SIZE))
             else ret tt) ;;;
       ret false
     else ret false) in
  if failed : bool then ret (-1) else
  set_glob (with_inited 1) ;;; ret 0.

(** The map block as it is written out: magic, then the crc over the rest. *)
Definition seal_map (m : bytes) : bytes :=
  let m := put_u32 m map_info.magic STORE_OBJECT_MAGIC in
  put_u32 m map_info.crc (crc32 (bslice 0 (map_info.size - 4) m)).

Definition sunxi_secure_storage_exit (mode : Z) : M S Z :=
  let* inited := get_glob secure_storage_inited in
  if inited =? 0 then ret (-1) else
  let* dirty := try_map_dirty in
  let* failed :=
    (if negb (mode =? 0) || negb (dirty =? 0) then
       let* m := get_glob secure_storage_map in
       set_glob (with_map (seal_map m)) ;;;
       let* r := sunxi_secstorage_write 0 (seal_map m) SEC_BLK_SIZE in
       if r <? 0 then mutex_unlock ;;; ret true else ret false
     else ret false) in
  if failed : bool then ret (-1) else
  set_glob (with_inited 0) ;;; clear_map_dirty ;;; mutex_unlock ;;; ret 0.

Definition secure_storage_support : M S Z :=
  let* r := c_access "/dev/sunxi_soc_info" in
  if r <? 0 then ret (-1) else
  let* r := sunxi_secure_storage_init in
  if r <? 0 then ret (-1) else
  sunxi_secure_storage_exit 0 ;;; ret 0.
End Storage.
