(* ===== verification/SsStore.v ===== *)
(** * libsec_storage: what the session needs of the flash device

    [NvStore] is the contract between the device layer ([SsDevice]) and the
    session layer ([SecureStorage]): 33 blocks of 4096 bytes that keep what was
    written to them.  The session's theorems are proved from it; [SsFlash] shows
    that the SD/eMMC and the NAND paths of the code implement it. *)

From S2P Require Import Prelude CLib Os SsDevice.

Class NvStore (W : Type) `{OsOps W} (crc32 : bytes -> Z) := {
  (** the board boots from a device that works *)
  nv_up : W -> Prop;
  nv_boot : W -> Z;
  nv_item : W -> Z -> bytes;

  nv_item_length w id : nv_up w -> lenZ (nv_item w id) = SEC_BLK_SIZE;

  nv_malloc_law n w : nv_up w -> 0 < n ->
    exists p w', os_malloc n w = (p, w') /\ 0 < p /\ nv_up w' /\ nv_boot w' = nv_boot w /\
      forall id, nv_item w' id = nv_item w id;

  nv_flash_type_law (s : mach W ss_globals) : nv_up (world s) ->
    exists w', get_flash_type s =
        Done 0 (Mach w' (heap_live s) (fds_live s) (with_boot_type (nv_boot (world s)) (glob s))) /\
      nv_up w' /\ nv_boot w' = nv_boot (world s) /\
      forall id, nv_item w' id = nv_item (world s) id;

  nv_write_law id buf (s : mach W ss_globals) :
    nv_up (world s) -> flash_boot_type (glob s) = nv_boot (world s) ->
    0 <= id <= MAX_SECURE_STORAGE_MAX_ITEM -> lenZ buf = SEC_BLK_SIZE ->
    exists w', nv_write id buf SEC_BLK_SIZE s =
        Done 0 (Mach w' (heap_live s) (fds_live s) (glob s)) /\
      nv_up w' /\ nv_boot w' = nv_boot (world s) /\
      nv_item w' id = buf /\
      forall id', 0 <= id' <= MAX_SECURE_STORAGE_MAX_ITEM -> id' <> id ->
        nv_item w' id' = nv_item (world s) id';

  nv_read_key_law id buf (s : mach W ss_globals) :
    nv_up (world s) -> flash_boot_type (glob s) = nv_boot (world s) ->
    1 <= id <= MAX_SECURE_STORAGE_MAX_ITEM -> lenZ buf = SEC_BLK_SIZE ->
    check_secure_storage_key crc32 (nv_item (world s) id) = Some 0 ->
    exists w', nv_read crc32 id buf SEC_BLK_SIZE s =
        Done (0, nv_item (world s) id) (Mach w' (heap_live s) (fds_live s) (glob s)) /\
      nv_up w' /\ nv_boot w' = nv_boot (world s) /\
      forall id', nv_item w' id' = nv_item (world s) id';

  nv_read_map_law buf (s : mach W ss_globals) :
    nv_up (world s) -> flash_boot_type (glob s) = nv_boot (world s) ->
    lenZ buf = SEC_BLK_SIZE ->
    check_secure_storage_map crc32 (nv_item (world s) 0) = Some 0 \/
    check_secure_storage_map crc32 (nv_item (world s) 0) = Some 2 ->
    exists w', nv_read crc32 0 buf SEC_BLK_SIZE s =
        Done (0, nv_item (world s) 0) (Mach w' (heap_live s) (fds_live s) (glob s)) /\
      nv_up w' /\ nv_boot w' = nv_boot (world s) /\
      forall id', nv_item w' id' = nv_item (world s) id';
}.
