(* ===== verification/SsFlash.v ===== *)
(** * libsec_storage: the flash paths implement the store contract

    [BlockDev] states what the kernel documents of a block device that works
    (an [open] that succeeds, [lseek] to an offset, full reads and writes), and
    [NandDev] the same for the boot-area ioctls.  The instances show that the
    SD/eMMC and NAND code of [SsDevice] turn either into a [NvStore].  The same
    laws give the behaviour on a damaged first copy. *)

From S2P Require Import Prelude CLib Os SsDevice SsStore.

(** [n] bytes of a device from [off]. *)
Definition blk (data : Z -> Z) (off n : Z) : bytes := map data (seqZ off n).

(** What the boot loader puts on the kernel command line. *)
Definition cmdline_boot_type (line : bytes) (t : Z) : Prop :=
  lenZ line <= 1024 /\
  exists c, scan_cmdline key_boot_type (bblit 0 line (zeros 1024))
              (Z.to_nat (lenZ line - lenZ key_boot_type)) = Some (Some c) /\
            c = 48 + t.

Class BlockDev (W : Type) `{OsOps W} := {
  bd_up : W -> Prop;
  bd_data : W -> Z -> Z;
  bd_fd : W -> Z -> option Z;
  bd_type : Z;

  bd_type_sd : bd_type = FLASH_TYPE_SD1 \/ bd_type = FLASH_TYPE_SD2;

  bd_malloc n w : bd_up w -> 0 < n ->
    exists p w', os_malloc n w = (p, w') /\ 0 < p /\ bd_up w' /\
      (forall o, bd_data w' o = bd_data w o) /\ (forall fd, bd_fd w' fd = bd_fd w fd);
  bd_open w : bd_up w ->
    exists fd w', os_open sd_oem_path w = (fd, w') /\ 0 < fd /\ bd_up w' /\
      (forall o, bd_data w' o = bd_data w o) /\ bd_fd w' fd = Some 0;
  bd_lseek fd pos off w : bd_up w -> bd_fd w fd = Some pos -> 0 <= off ->
    exists w', os_lseek fd off w = (off, w') /\ bd_up w' /\
      (forall o, bd_data w' o = bd_data w o) /\ bd_fd w' fd = Some off;
  bd_read fd pos n w : bd_up w -> bd_fd w fd = Some pos -> 0 <= n ->
    exists w', os_read fd n w = (n, blk (bd_data w) pos n, w') /\ bd_up w' /\
      (forall o, bd_data w' o = bd_data w o) /\ bd_fd w' fd = Some (pos + n);
  bd_write fd pos b w : bd_up w -> bd_fd w fd = Some pos ->
    exists w', os_write fd b w = (lenZ b, w') /\ bd_up w' /\
      bd_fd w' fd = Some (pos + lenZ b) /\
      blk (bd_data w') pos (lenZ b) = b /\
      (forall o, o < pos \/ pos + lenZ b <= o -> bd_data w' o = bd_data w o);
  bd_fsync fd w : bd_up w -> bd_up (os_fsync fd w) /\
      (forall o, bd_data (os_fsync fd w) o = bd_data w o);
  bd_close fd w : bd_up w -> bd_up (os_close fd w) /\
      (forall o, bd_data (os_close fd w) o = bd_data w o);
  bd_cmdline w : bd_up w ->
    exists line fd w1 w2, cmdline_boot_type line bd_type /\
      os_open CMDLINE_FILE_PATH w = (fd, w1) /\ 0 < fd /\
      os_read fd 1024 w1 = (lenZ line, line, w2) /\ bd_up (os_close fd w2) /\
      (forall o, bd_data (os_close fd w2) o = bd_data w o);
}.

Class NandDev (W : Type) `{OsOps W} := {
  nd_up : W -> Prop;
  nd_item : W -> Z -> bytes;
  nd_item_length w id : nd_up w -> lenZ (nd_item w id) = SEC_BLK_SIZE;
  nd_malloc n w : nd_up w -> 0 < n ->
    exists p w', os_malloc n w = (p, w') /\ 0 < p /\ nd_up w' /\
      (forall id, nd_item w' id = nd_item w id);
  nd_open w : nd_up w ->
    exists fd w', os_open nand_oem_path w = (fd, w') /\ 0 < fd /\ nd_up w' /\
      (forall id, nd_item w' id = nd_item w id);
  nd_ioctl_read fd id buf w : nd_up w -> 0 < fd -> 0 <= id <= MAX_SECURE_STORAGE_MAX_ITEM ->
    exists r w', os_ioctl fd SECBLK_READ id buf w = (r, nd_item w id, w') /\ 0 <= r /\ nd_up w' /\
      (forall id', nd_item w' id' = nd_item w id');
  nd_ioctl_write fd id buf w : nd_up w -> 0 < fd -> 0 <= id <= MAX_SECURE_STORAGE_MAX_ITEM ->
    lenZ buf = SEC_BLK_SIZE ->
    exists r d w', os_ioctl fd SECBLK_WRITE id buf w = (r, d, w') /\ 0 <= r /\ nd_up w' /\
      nd_item w' id = buf /\ (forall id', id' <> id -> nd_item w' id' = nd_item w id');
  nd_fsync fd w : nd_up w -> nd_up (os_fsync fd w) /\
      (forall id, nd_item (os_fsync fd w) id = nd_item w id);
  nd_close fd w : nd_up w -> nd_up (os_close fd w) /\
      (forall id, nd_item (os_close fd w) id = nd_item w id);
  nd_cmdline w : nd_up w ->
    exists line fd w1 w2, cmdline_boot_type line FLASH_TYPE_NAND /\
      os_open CMDLINE_FILE_PATH w = (fd, w1) /\ 0 < fd /\
      os_read fd 1024 w1 = (lenZ line, line, w2) /\ nd_up (os_close fd w2) /\
      (forall id, nd_item (os_close fd w2) id = nd_item w id);
}.

(** ** Small facts *)

Lemma lenZ_blk data off n : 0 <= n -> lenZ (blk data off n) = n.
Proof. intros. unfold blk, lenZ. rewrite length_map, length_seqZ. lia. Qed.

Lemma blk_ext d1 d2 off n :
  (forall o, off <= o < off + n -> d1 o = d2 o) -> blk d1 off n = blk d2 off n.
Proof.
  intros E. unfold blk. apply map_ext_in. intros o Ho.
  apply E. apply list_elem_of_In, elem_of_seqZ in Ho. lia.
Qed.

Lemma align_off_range p : 0 < p -> 1 <= align_off p <= 32.
Proof.
  intros. unfold align_off.
  assert (Z.land (p + 32) (Z.lnot 31) = (p + 32) / 32 * 32) as ->.
  { rewrite <- Z.ldiff_land. change 31 with (Z.ones 5).
    rewrite Z.ldiff_ones_r, Z.shiftl_mul_pow2, Z.shiftr_div_pow2 by lia. reflexivity. }
  pose proof (Z.div_mod (p + 32) 32). pose proof (Z.mod_pos_bound (p + 32) 32). lia.
Qed.

Lemma sd_offset_eq id : sd_offset id = 6291456 + 8192 * id.
Proof. unfold sd_offset. cbv [SDMMC_SECURE_STORAGE_START_ADD SDMMC_ITEM_SIZE SDMMC_SECTOR_SIZE].
  change (6 * 1024 * 1024 / 512) with 12288. change (4 * 1024 / 512) with 8. lia. Qed.
Lemma sd_offset_backup_eq id : sd_offset_backup id = 6291456 + 8192 * id + 4096.
Proof. unfold sd_offset_backup. cbv [SDMMC_SECURE_STORAGE_START_ADD SDMMC_ITEM_SIZE SDMMC_SECTOR_SIZE].
  change (6 * 1024 * 1024 / 512) with 12288. change (4 * 1024 / 512) with 8. lia. Qed.

(** ** SD and eMMC *)

Section Sd.
Context {W : Type} `{OsOps W, !BlockDev W}.
Variable crc32 : bytes -> Z.
Implicit Types (s : mach W ss_globals).

Ltac neq0 := rewrite (proj2 (Z.eqb_neq _ 0)) by lia.
Ltac nlt0 := rewrite (proj2 (Z.ltb_ge _ 0)) by lia.

(** A read of [SEC_BLK_SIZE] bytes at the offset of one of the two copies. *)
Lemma read_at_spec (rd : Z -> option bytes -> Z -> M (mach W ss_globals) (Z * bytes)) off :
  rd = _sd_read /\ off = sd_offset \/ rd = _sd_read_backup /\ off = sd_offset_backup ->
  forall id buf s, bd_up (world s) -> 0 <= id <= MAX_SECURE_STORAGE_MAX_ITEM ->
  lenZ buf = SEC_BLK_SIZE ->
  exists w', rd id (Some buf) SEC_BLK_SIZE s =
      Done (0, blk (bd_data (world s)) (off id) SEC_BLK_SIZE)
           (Mach w' (heap_live s) (fds_live s) (glob s)) /\
    bd_up w' /\ forall o, bd_data w' o = bd_data (world s) o.
Proof.
  intros Hcase id buf s Hup Hid Hbuf.
  assert (0 <= off id) as Hoff.
  { destruct Hcase as [[_ ->]|[_ ->]]; rewrite ?sd_offset_eq, ?sd_offset_backup_eq;
      unfold MAX_SECURE_STORAGE_MAX_ITEM in *; lia. }
  destruct (bd_malloc (SEC_BLK_SIZE + 64) (world s) Hup) as (p & w1 & E1 & Hp & U1 & D1 & _); [done|].
  destruct (bd_open w1 U1) as (fd & w2 & E2 & Hfd & U2 & D2 & F2).
  destruct (bd_lseek fd 0 (off id) w2 U2 F2 Hoff) as (w3 & E3 & U3 & D3 & F3).
  destruct (bd_read fd (off id) SEC_BLK_SIZE w3 U3 F3) as (w4 & E4 & U4 & D4 & F4); [done|].
  destruct (bd_close fd w4 U4) as [U5 D5].
  assert (rd id (Some buf) SEC_BLK_SIZE s =
    Done (0, bslice 0 SEC_BLK_SIZE (blk (bd_data w3) (off id) SEC_BLK_SIZE))
      (Mach (os_close fd w4) (heap_live s + 1 - 1) (fds_live s + 1 - 1) (glob s))) as Erun.
  { pose proof (align_off_range p Hp) as Hal.
    assert (in_bounds (align_off p) SEC_BLK_SIZE (zeros (SEC_BLK_SIZE + 64)) = true) as Hib.
    { apply in_bounds_spec. rewrite lenZ_zeros by done. unfold SEC_BLK_SIZE. lia. }
    assert (lenZ (blk (bd_data w3) (off id) SEC_BLK_SIZE) = SEC_BLK_SIZE) as Hlb
      by (by apply lenZ_blk).
    destruct Hcase as [[-> ->]|[-> ->]]; unfold _sd_read, _sd_read_backup;
      rewrite (proj2 (Z.ltb_ge MAX_SECURE_STORAGE_MAX_ITEM id)) by lia;
      (mcall (eapply c_malloc_ok; [exact E1|exact Hp])); neq0;
      (mcall (eapply c_open_ok; [exact E2|exact Hfd])); neq0;
      (mcall (eapply c_lseek_ok; exact E3)); nlt0;
      (mcall (eapply c_read_ok; [exact E4|exact Hib|done]));
      rewrite Z.eqb_refl; cbn [negb];
      rewrite (bslice_bblit_same (align_off p))
        by (rewrite ?lenZ_zeros, ?(bslice_all SEC_BLK_SIZE) by done; unfold SEC_BLK_SIZE in *; lia);
      rewrite !(bslice_all SEC_BLK_SIZE) by done;
      rewrite memcpy_Some by (rewrite ?Hlb, ?Hbuf; done); mrun;
      rewrite !(bslice_all SEC_BLK_SIZE) by done;
      rewrite bblit_whole by (by rewrite Hlb);
      (mcall (eapply c_free_ok; exact Hp));
      (mcall (eapply c_close_ok; exact Hfd));
      reflexivity. }
  exists (os_close fd w4). split; [|split; [done|intros; congruence]].
  rewrite Erun. rewrite bslice_all by (by apply lenZ_blk).
  f_equal; [|apply Mach_eq; lia]. f_equal. apply blk_ext. intros. congruence.
Qed.

Lemma sd_write_spec id buf s : bd_up (world s) -> 0 <= id <= MAX_SECURE_STORAGE_MAX_ITEM ->
  lenZ buf = SEC_BLK_SIZE ->
  exists w', _sd_write id (Some buf) SEC_BLK_SIZE s =
      Done 0 (Mach w' (heap_live s) (fds_live s) (glob s)) /\
    bd_up w' /\
    blk (bd_data w') (sd_offset id) SEC_BLK_SIZE = buf /\
    blk (bd_data w') (sd_offset_backup id) SEC_BLK_SIZE = buf /\
    forall o, o < sd_offset id \/ sd_offset_backup id + SEC_BLK_SIZE <= o ->
      bd_data w' o = bd_data (world s) o.
Proof.
  intros Hup Hid Hbuf. unfold MAX_SECURE_STORAGE_MAX_ITEM in Hid.
  pose proof (sd_offset_eq id) as Ho1. pose proof (sd_offset_backup_eq id) as Ho2.
  destruct (bd_malloc (SEC_BLK_SIZE + 64) (world s) Hup) as (p & w1 & E1 & Hp & U1 & D1 & _); [done|].
  pose proof (align_off_range p Hp) as Hal.
  set (a := bblit (align_off p) (bslice 0 SEC_BLK_SIZE buf) (zeros (SEC_BLK_SIZE + 64))).
  assert (lenZ (zeros (SEC_BLK_SIZE + 64)) = SEC_BLK_SIZE + 64) as Hz by (by apply lenZ_zeros).
  assert (in_bounds (align_off p) SEC_BLK_SIZE a = true) as Hib.
  { apply in_bounds_spec. unfold a. rewrite lenZ_bblit; rewrite ?bslice_all by done;
      rewrite ?Hz, ?Hbuf; unfold SEC_BLK_SIZE; lia. }
  assert (bslice (align_off p) SEC_BLK_SIZE a = buf) as Ha.
  { unfold a. rewrite bslice_all by done. apply bslice_bblit_same; [lia| |done].
    rewrite Hz, Hbuf. unfold SEC_BLK_SIZE. lia. }
  destruct (bd_open w1 U1) as (fd & w2 & E2 & Hfd & U2 & D2 & F2).
  destruct (bd_lseek fd 0 (sd_offset id) w2 U2 F2) as (w3 & E3 & U3 & D3 & F3); [lia|].
  destruct (bd_write fd _ buf w3 U3 F3) as (w4 & E4 & U4 & F4 & B4 & D4).
  destruct (bd_lseek fd _ (sd_offset_backup id) w4 U4 F4) as (w5 & E5 & U5 & D5 & F5); [lia|].
  destruct (bd_write fd _ buf w5 U5 F5) as (w6 & E6 & U6 & F6 & B6 & D6).
  destruct (bd_fsync fd w6 U6) as [U7 D7].
  destruct (bd_close fd _ U7) as [U8 D8].
  exists (os_close fd (os_fsync fd w6)).
  split; [|split; [done|split; [|split]]].
  - unfold _sd_write.
    rewrite (proj2 (Z.ltb_ge MAX_SECURE_STORAGE_MAX_ITEM id)) by (unfold MAX_SECURE_STORAGE_MAX_ITEM; lia).
    mcall (eapply c_malloc_ok; [exact E1|exact Hp]). neq0.
    rewrite memcpy_Some by (rewrite ?Hz, ?Hbuf; unfold SEC_BLK_SIZE; lia).
    rewrite bind_checked_Some. fold a.
    mcall (eapply c_open_ok; [exact E2|exact Hfd]). neq0.
    mcall (eapply c_lseek_ok; exact E3). nlt0.
    rewrite <- Ha in E4, E6.
    mcall (eapply c_write_ok; [exact E4|exact Hib]).
    rewrite Ha, Hbuf, Z.eqb_refl. cbn [negb].
    mcall (eapply c_lseek_ok; exact E5). nlt0.
    mcall (eapply c_write_ok; [exact E6|exact Hib]).
    rewrite Ha, Hbuf, Z.eqb_refl. cbn [negb].
    mcall (apply c_fsync_ok). mcall (eapply c_free_ok; exact Hp).
    mcall (eapply c_close_ok; exact Hfd).
    unfold ret. f_equal. msimp. apply Mach_eq; lia.
  - rewrite Hbuf in B4, D6, D4. rewrite <- B4. apply blk_ext. intros o Ho.
    rewrite D8, D7, D6, D5 by (unfold SEC_BLK_SIZE in *; lia). done.
  - rewrite Hbuf in B6. rewrite <- B6. apply blk_ext. intros o Ho.
    by rewrite D8, D7.
  - rewrite Hbuf in D4, D6. intros o Ho.
    rewrite D8, D7, D6, D5, D4, D3, D2, D1 by (unfold SEC_BLK_SIZE in *; lia). done.
Qed.
End Sd.

(** ** The boot device *)

Lemma get_flash_type_run {W} `{OsOps W} (s : mach W ss_globals) line fd w1 w2 t :
  cmdline_boot_type line t -> 0 <= t <= 2 ->
  os_open CMDLINE_FILE_PATH (world s) = (fd, w1) -> 0 < fd ->
  os_read fd 1024 w1 = (lenZ line, line, w2) ->
  get_flash_type s =
  Done 0 (Mach (os_close fd w2) (heap_live s) (fds_live s) (with_boot_type t (glob s))).
Proof.
  intros (Hlen & c & Hscan & ->) Ht E1 Hfd E2.
  assert (lenZ key_boot_type < lenZ line) as Hlong.
  { destruct (Z.to_nat (lenZ line - lenZ key_boot_type)) eqn:E; [done|lia]. }
  change (lenZ key_boot_type) with 10 in *.
  unfold get_flash_type, getInfoFromCmdline. rewrite bind_assoc.
  mcall (eapply c_open_ok; [exact E1|exact Hfd]).
  rewrite (proj2 (Z.eqb_neq fd 0)) by lia. rewrite bind_assoc.
  mcall (eapply c_read_ok; [exact E2|done|lia]).
  rewrite (proj2 (Z.ltb_ge (lenZ line) 0)), (proj2 (Z.ltb_ge 1024 (lenZ line))) by lia.
  cbn [orb]. rewrite bind_assoc. mcall (eapply c_close_ok; exact Hfd).
  assert (bslice 0 1024 line = line) as ->.
  { unfold bslice. rewrite drop_0. apply take_ge. unfold lenZ in *. lia. }
  change (lenZ key_boot_type) with 10. rewrite Hscan. mrun.
  rewrite memcpy_Some by done. mrun.
  assert (atol (bblit 0 (bslice 0 1 [48 + t]) (zeros 16)) = t) as Hat.
  { assert (t = 0 \/ t = 1 \/ t = 2) as [-> | [-> | ->]] by lia; reflexivity. }
  rewrite Hat. mrun.
  unfold ret. msimp. f_equal. apply Mach_eq; lia.
Qed.

Section SdStore.
Context {W : Type} `{OsOps W, !BlockDev W}.
Variable crc32 : bytes -> Z.
Implicit Types (s : mach W ss_globals).

(** An item is its first copy; a working store has two equal copies. *)
Definition sd_item (w : W) (id : Z) : bytes := blk (bd_data w) (sd_offset id) SEC_BLK_SIZE.
Definition sd_copy1 (w : W) (id : Z) : bytes := blk (bd_data w) (sd_offset_backup id) SEC_BLK_SIZE.
Definition sd_up (w : W) : Prop :=
  bd_up w /\ forall id, 0 <= id <= MAX_SECURE_STORAGE_MAX_ITEM -> sd_copy1 w id = sd_item w id.

Lemma sd_same w w' :
  (forall o, bd_data w' o = bd_data w o) ->
  (forall id, sd_item w' id = sd_item w id) /\ (forall id, sd_copy1 w' id = sd_copy1 w id).
Proof. intros E. split; intros id; apply blk_ext; auto. Qed.

Lemma lenZ_sd_item w id : lenZ (sd_item w id) = SEC_BLK_SIZE.
Proof. by apply lenZ_blk. Qed.
Lemma lenZ_sd_copy1 w id : lenZ (sd_copy1 w id) = SEC_BLK_SIZE.
Proof. by apply lenZ_blk. Qed.

(** Each read returns its copy and gives back what it took. *)
Lemma sd_read_run id buf s :
  bd_up (world s) -> 0 <= id <= MAX_SECURE_STORAGE_MAX_ITEM -> lenZ buf = SEC_BLK_SIZE ->
  exists w', _sd_read id (Some buf) SEC_BLK_SIZE s =
      Done (0, sd_item (world s) id) (Mach w' (heap_live s) (fds_live s) (glob s)) /\
    bd_up w' /\ (forall o, bd_data w' o = bd_data (world s) o) /\
    (forall id', sd_item w' id' = sd_item (world s) id') /\
    (forall id', sd_copy1 w' id' = sd_copy1 (world s) id').
Proof.
  intros U Hid Hbuf.
  destruct (read_at_spec _sd_read sd_offset (or_introl (conj eq_refl eq_refl)) id buf s U Hid Hbuf)
    as (w' & E & U' & D). destruct (sd_same _ _ D) as [I C]. by exists w'.
Qed.
Lemma sd_read_backup_run id buf s :
  bd_up (world s) -> 0 <= id <= MAX_SECURE_STORAGE_MAX_ITEM -> lenZ buf = SEC_BLK_SIZE ->
  exists w', _sd_read_backup id (Some buf) SEC_BLK_SIZE s =
      Done (0, sd_copy1 (world s) id) (Mach w' (heap_live s) (fds_live s) (glob s)) /\
    bd_up w' /\ (forall o, bd_data w' o = bd_data (world s) o) /\
    (forall id', sd_item w' id' = sd_item (world s) id') /\
    (forall id', sd_copy1 w' id' = sd_copy1 (world s) id').
Proof.
  intros U Hid Hbuf.
  destruct (read_at_spec _sd_read_backup sd_offset_backup (or_intror (conj eq_refl eq_refl))
    id buf s U Hid Hbuf) as (w' & E & U' & D). destruct (sd_same _ _ D) as [I C]. by exists w'.
Qed.

Lemma sd_up_same w w' :
  sd_up w -> bd_up w' -> (forall o, bd_data w' o = bd_data w o) -> sd_up w'.
Proof.
  intros [_ Hc] U E. destruct (sd_same w w' E) as [E1 E2].
  split; [done|]. intros id Hid. by rewrite E1, E2, Hc.
Qed.

Lemma boot_type_branches :
  (bd_type =? FLASH_TYPE_NAND) = false /\
  (bd_type =? FLASH_TYPE_SD1) || (bd_type =? FLASH_TYPE_SD2) = true /\ 0 <= bd_type <= 2.
Proof. destruct bd_type_sd as [-> | ->]; repeat split; done. Qed.

Lemma sd_nv_write_law id buf s :
  sd_up (world s) -> flash_boot_type (glob s) = bd_type ->
  0 <= id <= MAX_SECURE_STORAGE_MAX_ITEM -> lenZ buf = SEC_BLK_SIZE ->
  exists w', nv_write id buf SEC_BLK_SIZE s =
      Done 0 (Mach w' (heap_live s) (fds_live s) (glob s)) /\
    sd_up w' /\ bd_type = bd_type /\ sd_item w' id = buf /\
    forall id', 0 <= id' <= MAX_SECURE_STORAGE_MAX_ITEM -> id' <> id ->
      sd_item w' id' = sd_item (world s) id'.
Proof.
  intros [U Hc] Ht Hid Hbuf.
  destruct (sd_write_spec id buf s U Hid Hbuf) as (w' & E & U' & B1 & B2 & D).
  destruct boot_type_branches as (T1 & T2 & _).
  assert (forall id', 0 <= id' <= MAX_SECURE_STORAGE_MAX_ITEM -> id' <> id ->
      sd_item w' id' = sd_item (world s) id' /\ sd_copy1 w' id' = sd_copy1 (world s) id') as Hother.
  { intros id' Hid' Hne. rewrite sd_offset_eq, sd_offset_backup_eq in D.
    split; apply blk_ext; intros o Ho; apply D; revert Ho;
      rewrite ?sd_offset_eq, ?sd_offset_backup_eq; unfold SEC_BLK_SIZE in *; lia. }
  exists w'. split; [|split; [|split; [done|split; [done|]]]].
  - unfold nv_write. mrun. rewrite Ht, T1, T2. exact E.
  - split; [done|]. intros id' Hid'.
    destruct (decide (id' = id)) as [-> |Hne].
    + unfold sd_copy1, sd_item. congruence.
    + destruct (Hother id' Hid' Hne) as [-> ->]. auto.
  - intros id' Hid' Hne. by apply Hother.
Qed.

Lemma sd_nv_read_key_law id buf s :
  sd_up (world s) -> flash_boot_type (glob s) = bd_type ->
  1 <= id <= MAX_SECURE_STORAGE_MAX_ITEM -> lenZ buf = SEC_BLK_SIZE ->
  check_secure_storage_key crc32 (sd_item (world s) id) = Some 0 ->
  exists w', nv_read crc32 id buf SEC_BLK_SIZE s =
      Done (0, sd_item (world s) id) (Mach w' (heap_live s) (fds_live s) (glob s)) /\
    sd_up w' /\ bd_type = bd_type /\ forall id', sd_item w' id' = sd_item (world s) id'.
Proof.
  intros HU Ht Hid Hbuf Hchk. pose proof HU as [U Hc].
  destruct (read_at_spec _sd_read sd_offset (or_introl (conj eq_refl eq_refl)) id buf s U)
    as (w' & E & U' & D); [lia|done|].
  destruct boot_type_branches as (T1 & T2 & _).
  exists w'. split; [|split; [by eapply sd_up_same|split; [done|by apply sd_same]]].
  unfold nv_read. mrun. rewrite Ht, T1, T2, (proj2 (Z.eqb_neq id 0)) by lia.
  unfold sd_read_key. mstep E. rewrite Z.eqb_refl. fold (sd_item (world s) id).
  rewrite Hchk. mrun. done.
Qed.

Lemma sd_nv_read_map_law buf s :
  sd_up (world s) -> flash_boot_type (glob s) = bd_type -> lenZ buf = SEC_BLK_SIZE ->
  check_secure_storage_map crc32 (sd_item (world s) 0) = Some 0 \/
  check_secure_storage_map crc32 (sd_item (world s) 0) = Some 2 ->
  exists w', nv_read crc32 0 buf SEC_BLK_SIZE s =
      Done (0, sd_item (world s) 0) (Mach w' (heap_live s) (fds_live s) (glob s)) /\
    sd_up w' /\ bd_type = bd_type /\ forall id', sd_item w' id' = sd_item (world s) id'.
Proof.
  intros HU Ht Hbuf Hchk. pose proof HU as [U Hc].
  destruct (bd_malloc SEC_BLK_SIZE (world s) U) as (p & w1 & E1 & Hp & U1 & D1 & _); [done|].
  set (s1 := Mach w1 (heap_live s + 1) (fds_live s) (glob s)).
  destruct (read_at_spec _sd_read sd_offset (or_introl (conj eq_refl eq_refl)) 0 buf s1 U1)
    as (w2 & E2 & U2 & D2); [done|done|].
  destruct (sd_same _ _ D1) as [I1 C1]. destruct (sd_same _ _ D2) as [I2 C2].
  destruct boot_type_branches as (T1 & T2 & _).
  assert (lenZ (sd_item (world s) 0) = SEC_BLK_SIZE) as HL by (by apply lenZ_blk).
  change (world s1) with w1 in *. fold (sd_item w1 0) in E2. rewrite I1 in E2.
  destruct Hchk as [Hchk|Hchk].
  - exists w2. split; [|split; [by eapply sd_up_same; [| |intros; rewrite D2, D1]|split; [done|]]].
    + unfold nv_read. mrun. rewrite Ht, T1, T2. unfold sd_read_map.
      mcall (eapply c_malloc_ok; [exact E1|exact Hp]).
      rewrite (proj2 (Z.eqb_neq p 0)) by lia. fold s1. mstep E2.
      rewrite ?Z.eqb_refl, Hchk. mrun. mcall (eapply c_free_ok; exact Hp).
      unfold ret, s1. msimp. f_equal. apply Mach_eq; lia.
    + intros id'. by rewrite I2, I1.
  - set (s2 := Mach w2 (heap_live s1) (fds_live s1) (glob s1)).
    destruct (read_at_spec _sd_read_backup sd_offset_backup (or_intror (conj eq_refl eq_refl))
                0 (zeros SEC_BLK_SIZE) s2 U2) as (w3 & E3 & U3 & D3); [done|done|].
    destruct (sd_same _ _ D3) as [I3 C3]. change (world s2) with w2 in *.
    fold (sd_copy1 w2 0) in E3. rewrite C2, C1, Hc in E3 by done.
    exists w3. split; [|split; [by eapply sd_up_same; [| |intros; rewrite D3, D2, D1]|split; [done|]]].
    + unfold nv_read. mrun. rewrite Ht, T1, T2. unfold sd_read_map.
      mcall (eapply c_malloc_ok; [exact E1|exact Hp]).
      rewrite (proj2 (Z.eqb_neq p 0)) by lia. fold s1. mstep E2.
      rewrite ?Z.eqb_refl, Hchk. mrun. cbn [Z.eqb].
      rewrite memset_Some by (rewrite ?HL; done). mrun.
      rewrite bblit_whole by (rewrite HL; done).
      change (fill 0 SEC_BLK_SIZE) with (zeros SEC_BLK_SIZE). fold s2.
      mstep E3. rewrite Z.eqb_refl. cbn [negb]. rewrite Hchk. mrun. cbn [Z.eqb Pos.eqb negb andb].
      mrun. rewrite bool_decide_true by done. cbn [andb negb Z.eqb].
      mcall (eapply c_free_ok; exact Hp).
      unfold ret, s2, s1. msimp. f_equal. apply Mach_eq; lia.
    + intros id'. by rewrite I3, I2, I1.
Qed.

(** The SD and eMMC code keeps the store contract. *)
#[export] Program Instance sd_store : NvStore W crc32 := {
  nv_up := sd_up;
  nv_boot := fun _ => bd_type;
  nv_item := sd_item;
  nv_write_law := sd_nv_write_law;
  nv_read_key_law := sd_nv_read_key_law;
  nv_read_map_law := sd_nv_read_map_law;
}.
Next Obligation. intros w id _. by apply lenZ_blk. Qed.
Next Obligation.
  intros n w HU Hn. destruct (bd_malloc n w (proj1 HU) Hn) as (p & w' & E & Hp & U & D & _).
  exists p, w'. split; [done|]. split; [done|]. split; [by eapply sd_up_same|].
  split; [done|by apply sd_same].
Qed.
Next Obligation.
  intros s HU. destruct (bd_cmdline (world s) (proj1 HU))
    as (line & fd & w1 & w2 & HB & E1 & Hfd & E2 & U & D).
  destruct boot_type_branches as (_ & _ & T).
  exists (os_close fd w2). split; [by eapply get_flash_type_run|].
  split; [by eapply sd_up_same|]. split; [done|by apply sd_same].
Qed.
End SdStore.

(** ** NAND *)

Section NandStore.
Context {W : Type} `{OsOps W, !NandDev W}.
Variable crc32 : bytes -> Z.
Implicit Types (s : mach W ss_globals).

Lemma nand_read_spec id buf s : nd_up (world s) ->
  0 <= id <= MAX_SECURE_STORAGE_MAX_ITEM -> lenZ buf = SEC_BLK_SIZE ->
  exists w', _nand_read id (Some buf) SEC_BLK_SIZE s =
      Done (0, nd_item (world s) id) (Mach w' (heap_live s) (fds_live s) (glob s)) /\
    nd_up w' /\ forall id', nd_item w' id' = nd_item (world s) id'.
Proof.
  intros U Hid Hbuf.
  destruct (nd_open (world s) U) as (fd & w1 & E1 & Hfd & U1 & D1).
  destruct (nd_malloc 12 w1 U1) as (p & w2 & E2 & Hp & U2 & D2); [done|].
  destruct (nd_ioctl_read fd id buf w2 U2 Hfd Hid) as (r & w3 & E3 & Hr & U3 & D3).
  destruct (nd_close fd w3 U3) as [U4 D4].
  exists (os_close fd w3). split; [|split; [done|intros; congruence]].
  unfold _nand_read. rewrite (proj2 (Z.ltb_ge MAX_SECURE_STORAGE_MAX_ITEM id)) by lia.
  mcall (eapply c_open_ok; [exact E1|exact Hfd]). rewrite (proj2 (Z.eqb_neq fd 0)) by lia.
  mcall (eapply c_malloc_ok; [exact E2|exact Hp]). rewrite (proj2 (Z.eqb_neq p 0)) by lia.
  mcall (eapply c_ioctl_ok; [rewrite bslice_all by exact Hbuf; exact E3
                            |apply in_bounds_spec; by rewrite Hbuf]).
  rewrite (proj2 (Z.ltb_ge r 0)) by lia.
  mcall (eapply c_free_ok; exact Hp). mcall (eapply c_close_ok; exact Hfd).
  assert (nd_item w2 id = nd_item (world s) id) as -> by congruence.
  pose proof (nd_item_length (world s) id U) as HL.
  rewrite bslice_all, bblit_whole by congruence.
  unfold ret. f_equal. apply Mach_eq; msimp; lia.
Qed.

Lemma nand_write_spec id buf s : nd_up (world s) ->
  0 <= id <= MAX_SECURE_STORAGE_MAX_ITEM -> lenZ buf = SEC_BLK_SIZE ->
  exists w', _nand_write id (Some buf) SEC_BLK_SIZE s =
      Done 0 (Mach w' (heap_live s) (fds_live s) (glob s)) /\
    nd_up w' /\ nd_item w' id = buf /\
    forall id', id' <> id -> nd_item w' id' = nd_item (world s) id'.
Proof.
  intros U Hid Hbuf.
  destruct (nd_open (world s) U) as (fd & w1 & E1 & Hfd & U1 & D1).
  destruct (nd_malloc 12 w1 U1) as (p & w2 & E2 & Hp & U2 & D2); [done|].
  destruct (nd_ioctl_write fd id buf w2 U2 Hfd Hid Hbuf) as (r & d & w3 & E3 & Hr & U3 & D3 & F3).
  destruct (nd_fsync fd w3 U3) as [U4 D4]. destruct (nd_close fd _ U4) as [U5 D5].
  exists (os_close fd (os_fsync fd w3)).
  split; [|split; [done|split; [congruence|intros id' Hne; rewrite D5, D4, F3 by done; congruence]]].
  unfold _nand_write. rewrite (proj2 (Z.ltb_ge MAX_SECURE_STORAGE_MAX_ITEM id)) by lia.
  mcall (eapply c_open_ok; [exact E1|exact Hfd]). rewrite (proj2 (Z.eqb_neq fd 0)) by lia.
  mcall (eapply c_malloc_ok; [exact E2|exact Hp]). rewrite (proj2 (Z.eqb_neq p 0)) by lia.
  mcall (eapply c_ioctl_ok; [rewrite bslice_all by exact Hbuf; exact E3
                            |apply in_bounds_spec; by rewrite Hbuf]).
  rewrite (proj2 (Z.ltb_ge r 0)) by lia. mcall (apply c_fsync_ok).
  mcall (eapply c_free_ok; exact Hp). mcall (eapply c_close_ok; exact Hfd).
  unfold ret. f_equal. apply Mach_eq; msimp; lia.
Qed.

(** The NAND code keeps the store contract. *)
#[export] Program Instance nand_store : NvStore W crc32 := {
  nv_up := nd_up;
  nv_boot := fun _ => FLASH_TYPE_NAND;
  nv_item := nd_item;
  nv_item_length := nd_item_length;
}.
Next Obligation.
  intros n w U Hn. destruct (nd_malloc n w U Hn) as (p & w' & E & Hp & U' & D).
  exists p, w'. auto.
Qed.
Next Obligation.
  intros s U. destruct (nd_cmdline (world s) U)
    as (line & fd & w1 & w2 & HB & E1 & Hfd & E2 & U' & D).
  exists (os_close fd w2). split; [by eapply get_flash_type_run|]. auto.
Qed.
Next Obligation.
  intros id buf s U Ht Hid Hbuf.
  destruct (nand_write_spec id buf s U Hid Hbuf) as (w' & E & U' & D & F).
  exists w'. split; [|auto]. unfold nv_write. mrun. rewrite Ht. exact E.
Qed.
Next Obligation.
  intros id buf s U Ht Hid Hbuf _.
  destruct (nand_read_spec id buf s U) as (w' & E & U' & D); [lia|done|].
  exists w'. split; [|auto]. unfold nv_read. mrun. rewrite Ht. exact E.
Qed.
Next Obligation.
  intros buf s U Ht Hbuf _.
  destruct (nand_read_spec 0 buf s U) as (w' & E & U' & D); [done|done|].
  exists w'. split; [|auto]. unfold nv_read. mrun. rewrite Ht. exact E.
Qed.
End NandStore.
