(* ===== verification/SsSession.v ===== *)
(** * libsec_storage: the session refines a table of named payloads

    Over any flash that keeps the [NvStore] contract, an open session stands for
    a table [kv] of (name, payload) pairs in item order.  [table_read] and
    [table_write] are the abstract operations; the lemmas show that the code's
    read and write compute them, errors included. *)

From S2P Require Import Prelude CLib Os SsDevice SsMap SsObject SecureStorage SsStore.

(** ** The abstract table *)

Abbreviation table := (list (bytes * bytes)).

(** The code compares only as many characters as the asked name has: the first
    name it is a prefix of answers. *)
Fixpoint table_find (item : bytes) (kv : table) : option (nat * bytes) :=
  match kv with
  | [] => None
  | (name, payload) :: kv' =>
      if bool_decide (item `prefix_of` name) then Some (O, payload)
      else match table_find item kv' with
           | Some (k, p) => Some (S k, p)
           | None => None
           end
  end.

Definition table_read (item : bytes) (kv : table) : option bytes := snd <$> table_find item kv.

(** Replace the payload of the item found, append a new item, or refuse. *)
Definition table_write (item payload : bytes) (kv : table) : Z * table :=
  match table_find item kv with
  | Some (k, _) => (0, alter (fun e => (e.1, payload)) k kv)
  | None => if 31 <=? lenZ kv then (-1, kv) else (0, kv ++ [(item, payload)])
  end.

Definition entries_of (kv : table) : list entry := map (fun e => (e.1, store_object_t.size)) kv.

(** The test the code makes on what it read of the old item: it looks for the
    object header in the payload. *)
Definition looks_protected (stack payload : bytes) : bool :=
  (get_u32 (bblit 0 payload stack) store_object_t.magic =? STORE_OBJECT_MAGIC) &&
  (get_u32 (bblit 0 payload stack) store_object_t.write_protect =? STORE_WRITE_PROTECT_MAGIC).

Section Session.
Context {W : Type} `{OsOps W}.
Variable crc32 : bytes -> Z.
Hypothesis crc32_range : forall b, 0 <= crc32 b < 4294967296.
Context `{!NvStore W crc32}.
Implicit Types (s : mach W ss_globals).

(** An item block that holds a valid object. *)
Definition items_hold (w : W) (kv : table) : Prop :=
  forall k name payload, kv !! k = Some (name, payload) ->
    valid_object crc32 (nv_item w (Z.of_nat k + 1)) payload.

(** The session is open and the table is [kv]. *)
Record session (s : mach W ss_globals) (kv : table) : Prop := {
  se_up : nv_up (world s);
  se_boot : flash_boot_type (glob s) = nv_boot (world s);
  se_inited : secure_storage_inited (glob s) = 1;
  se_mutex : sec_mutex (glob s) = true;
  se_map : represents (secure_storage_map (glob s)) (entries_of kv);
  se_items : items_hold (world s) kv;
  se_len : lenZ kv <= 31;
}.

(** The table as the device keeps it between sessions: a sealed map block, or
    a block that was never written. *)
Definition disk_holds (w : W) (kv : table) : Prop :=
  items_hold w kv /\ lenZ kv <= 31 /\
  (check_secure_storage_map crc32 (nv_item w 0) = Some 0 /\
   represents (nv_item w 0) (entries_of kv) \/
   kv = [] /\ check_secure_storage_map crc32 (nv_item w 0) = Some 2 /\
   (bget (nv_item w 0) 0 = Some 0 \/ bget (nv_item w 0) 0 = Some 255)).

(** No session: the mutex is free and the device holds [kv]. *)
Record at_rest (s : mach W ss_globals) (kv : table) : Prop := {
  ar_up : nv_up (world s);
  ar_inited : secure_storage_inited (glob s) = 0;
  ar_mutex : sec_mutex (glob s) = false;
  ar_dirty : map_dirty (glob s) = 0;
  ar_block : lenZ (secure_storage_map (glob s)) = SEC_BLK_SIZE;
  ar_disk : disk_holds (world s) kv;
}.

(** A session whose unwritten changes are marked. *)
Definition synced (s : mach W ss_globals) (kv : table) : Prop :=
  session s kv /\ (map_dirty (glob s) = 0 -> disk_holds (world s) kv).

(** ** Lookups *)

Lemma lookup_prefix_entries item kv index :
  lookup_prefix item (entries_of kv) index =
  match table_find item kv with
  | Some (k, _) => Some (index + Z.of_nat k, store_object_t.size)
  | None => None
  end.
Proof.
  revert index; induction kv as [|[name p] kv IH]; intros index; [done|].
  cbn [entries_of map lookup_prefix table_find fst snd].
  case_bool_decide; [by rewrite Z.add_0_r|].
  change (map _ kv) with (entries_of kv). rewrite IH.
  destruct (table_find item kv) as [[k q]|]; [|done]. do 2 f_equal. lia.
Qed.

Lemma table_find_lookup item kv k p :
  table_find item kv = Some (k, p) -> exists name, kv !! k = Some (name, p).
Proof.
  revert k; induction kv as [|[name q] kv IH]; intros k; cbn [table_find]; [done|].
  case_bool_decide; [intros E; inv E; by exists name|].
  destruct (table_find item kv) as [[k' q']|]; [|done]. intros E; inv E.
  destruct (IH k' eq_refl) as [n Hn]. by exists n.
Qed.

Lemma lenZ_entries_of kv : lenZ (entries_of kv) = lenZ kv.
Proof. unfold lenZ, entries_of. by rewrite length_map. Qed.

(** A valid object only depends on its first 3176 bytes. *)
Lemma valid_object_bslice t t' payload :
  valid_object crc32 t payload -> store_object_t.size <= lenZ t' ->
  bslice 0 store_object_t.size t' = bslice 0 store_object_t.size t ->
  valid_object crc32 t' payload.
Proof.
  intros (Hsz & Hn & Hm & Ha & Hd & Hc) Hsz' E.
  assert (forall off n, 0 <= off -> 0 <= n -> off + n <= store_object_t.size ->
            bslice off n t' = bslice off n t) as HS.
  { intros off n H1 H2 H3.
    replace off with (0 + off) by lia.
    rewrite <- !(bslice_bslice 0 store_object_t.size) by lia. by rewrite E. }
  pose proof (lenZ_nonneg payload).
  unfold valid_object, get_u32 in *. obj_unfold.
  rewrite !HS by lia. tauto.
Qed.

(** ** The session under a change of the world that keeps the items *)

Lemma session_world s kv w' h f :
  session s kv -> nv_up w' -> nv_boot w' = nv_boot (world s) ->
  (forall id, nv_item w' id = nv_item (world s) id) ->
  session (Mach w' h f (glob s)) kv.
Proof.
  intros [U B I X M Hk L] U' B' E. split; msimp; try done; [congruence|].
  intros k name p Hp. rewrite E. by eapply Hk.
Qed.

Lemma item_number s kv item k p :
  session s kv -> table_find item kv = Some (k, p) ->
  0 <= Z.of_nat k < 31 /\ valid_object crc32 (nv_item (world s) (Z.of_nat k + 1)) p.
Proof.
  intros Hs Hf. destruct (table_find_lookup _ _ _ _ Hf) as [name Hk].
  split; [|by eapply se_items].
  apply lookup_lt_Some in Hk. pose proof (se_len _ _ Hs). unfold lenZ in *. lia.
Qed.

(** The probe of an open session. *)
Lemma session_probe s kv item len :
  session s kv -> Forall (fun c => c <> 0) item ->
  __probe_name_in_map (secure_storage_map (glob s)) item len =
  Some (match table_find item kv with
        | Some (k, _) => (Z.of_nat k + 1, store_object_t.size)
        | None => (-1, len)
        end).
Proof.
  intros Hs Hitem. rewrite (probe_represents _ _ _ _ (se_map _ _ Hs) Hitem).
  rewrite lookup_prefix_entries. destruct (table_find item kv) as [[k p]|]; cbn; [|done].
  do 2 f_equal. lia.
Qed.

(** Reading the block of an item that is in the table. *)
Lemma storage_read_found s kv item k p :
  session s kv -> Forall (fun c => c <> 0) item -> table_find item kv = Some (k, p) ->
  exists sec w',
    sunxi_secure_storage_read crc32 item (zeros SEC_BLK_SIZE) SEC_BLK_SIZE 0 s =
      Done (0, sec, store_object_t.size) (Mach w' (heap_live s) (fds_live s) (glob s)) /\
    valid_object crc32 sec p /\ lenZ sec = SEC_BLK_SIZE /\
    nv_up w' /\ nv_boot w' = nv_boot (world s) /\
    (forall id, nv_item w' id = nv_item (world s) id).
Proof.
  intros Hs Hitem Hf. destruct (item_number _ _ _ _ _ Hs Hf) as [Hk Hv].
  destruct (nv_malloc_law SEC_BLK_SIZE (world s) (se_up _ _ Hs)) as (q & w1 & E1 & Hq & U1 & B1 & D1); [done|].
  set (s1 := Mach w1 (heap_live s + 1) (fds_live s) (glob s)).
  destruct (nv_read_key_law (Z.of_nat k + 1) (zeros SEC_BLK_SIZE) s1) as (w2 & E2 & U2 & B2 & D2).
  { done. } { unfold s1; msimp. rewrite B1. by apply se_boot with kv. }
  { unfold MAX_SECURE_STORAGE_MAX_ITEM. lia. } { done. }
  { unfold s1; msimp. rewrite D1. by eapply check_valid. }
  unfold s1 in E2; msimp. rewrite D1 in E2.
  set (item_block := nv_item (world s) (Z.of_nat k + 1)) in *.
  assert (lenZ item_block = SEC_BLK_SIZE) as HL by (apply nv_item_length; by eapply se_up).
  exists (bblit 0 (bslice 0 store_object_t.size item_block) (zeros SEC_BLK_SIZE)), w2.
  assert (lenZ (bslice 0 store_object_t.size item_block) = store_object_t.size) as HL'
    by (apply lenZ_bslice; rewrite ?HL; done).
  split; [|split; [|split; [|split; [done|split; [unfold s1 in *; msimp; congruence|intros; rewrite D2; apply D1]]]]].
  - unfold sunxi_secure_storage_read. mrun. rewrite (se_inited _ _ Hs). cbn [Z.eqb].
    mcall (eapply c_malloc_ok; [exact E1|exact Hq]). rewrite (proj2 (Z.eqb_neq q 0)) by lia.
    mrun. msimp. rewrite (session_probe _ _ _ _ Hs Hitem), Hf. mrun.
    rewrite (proj2 (Z.ltb_ge _ 0)) by lia.
    rewrite memset_Some by done. mrun. rewrite bblit_whole by done.
    unfold sunxi_secstorage_read. mstep E2. mrun. cbn [negb].
    change (SEC_BLK_SIZE <? store_object_t.size) with false. cbn iota.
    change (fill 0 SEC_BLK_SIZE) with (zeros SEC_BLK_SIZE).
    rewrite memcpy_Some by (rewrite ?HL; done). mrun.
    mcall (eapply c_free_ok; exact Hq). unfold ret. f_equal. msimp. apply Mach_eq; lia.
  - eapply valid_object_bslice; [exact Hv| |].
    + rewrite lenZ_bblit by (rewrite ?HL'; done). done.
    + apply bslice_bblit_same; rewrite ?HL'; done.
  - rewrite lenZ_bblit by (rewrite ?HL'; done). done.
Qed.

(** ** The code computes the table operations *)

(** Reading an object: the payload of the item found, at the start of the
    caller's buffer; a payload longer than that buffer is written past it. *)
Lemma object_read_run s kv item buffer bl dl :
  session s kv -> Forall (fun c => c <> 0) item ->
  exists w', nv_up w' /\ nv_boot w' = nv_boot (world s) /\
    (forall id, nv_item w' id = nv_item (world s) id) /\
    sunxi_secure_object_read crc32 item buffer bl dl s =
    match table_read item kv with
    | Some p => if lenZ p <=? lenZ buffer
                then Done (0, bblit 0 p buffer, lenZ p) (Mach w' (heap_live s) (fds_live s) (glob s))
                else Undef
    | None => Done (-1, buffer, dl) (Mach w' (heap_live s) (fds_live s) (glob s))
    end.
Proof.
  intros Hs Hitem. unfold table_read.
  destruct (table_find item kv) as [[k p]|] eqn:Hf; cbn [fmap option_fmap option_map snd].
  - destruct (storage_read_found s kv item k p Hs Hitem Hf)
      as (sec & w' & E & Hv & HL & U & B & D).
    exists w'. split; [done|]. split; [done|]. split; [done|].
    unfold sunxi_secure_object_read. mstep E. mrun.
    change (u32 store_object_t.size) with store_object_t.size.
    rewrite (unwrap_valid crc32 sec p buffer dl Hv). by destruct (lenZ p <=? lenZ buffer).
  - destruct (nv_malloc_law SEC_BLK_SIZE (world s) (se_up _ _ Hs)) as (q & w1 & E1 & Hq & U1 & B1 & D1); [done|].
    exists w1. split; [done|]. split; [done|]. split; [done|].
    unfold sunxi_secure_object_read, sunxi_secure_storage_read. mrun.
    rewrite (se_inited _ _ Hs). cbn [Z.eqb]. mrun.
    mcall (eapply c_malloc_ok; [exact E1|exact Hq]). rewrite (proj2 (Z.eqb_neq q 0)) by lia.
    mrun. msimp. rewrite (session_probe _ _ _ _ Hs Hitem), Hf. mrun. cbn [Z.ltb Z.compare].
    mrun. mcall (eapply c_free_ok; exact Hq). mrun. cbn [Z.eqb negb].
    unfold ret. f_equal. msimp. apply Mach_eq; lia.
Qed.

Lemma storage_probe_run s kv item :
  session s kv -> Forall (fun c => c <> 0) item ->
  sunxi_secure_storage_probe item s =
  Done (match table_find item kv with Some _ => 0 | None => -1 end) s.
Proof.
  intros Hs Hitem. unfold sunxi_secure_storage_probe. mrun.
  rewrite (se_inited _ _ Hs). cbn [Z.eqb]. mrun.
  rewrite (session_probe _ _ _ _ Hs Hitem). mrun.
  destruct (table_find item kv) as [[k p]|]; [|done].
  rewrite (proj2 (Z.ltb_ge _ 0)) by lia. done.
Qed.

Lemma entries_of_alter k p kv : entries_of (alter (fun e => (e.1, p)) k kv) = entries_of kv.
Proof.
  unfold entries_of. revert k; induction kv as [|e kv IH]; intros [|k]; cbn; f_equal; auto.
Qed.

(** The fill of an open session. *)
Lemma session_fill s kv item payload :
  session s kv -> name_ok item ->
  exists m', __fill_name_in_map (secure_storage_map (glob s)) item store_object_t.size =
    Some (match table_find item kv with
          | Some (k, _) => Z.of_nat k + 1
          | None => if 31 <=? lenZ kv then -1 else lenZ kv + 1
          end, m') /\
    represents m' (entries_of (snd (table_write item payload kv))).
Proof.
  intros Hs Hitem.
  destruct (fill_represents _ _ item store_object_t.size (se_map _ _ Hs) Hitem)
    as (m' & E & Hm'); [done|].
  exists m'. revert E Hm'. unfold entries_fill, table_write.
  rewrite lookup_prefix_entries, lenZ_entries_of.
  destruct (table_find item kv) as [[k p]|]; cbn [fst snd].
  - rewrite entries_of_alter. intros -> Hm'. split; [|done]. do 2 f_equal. lia.
  - replace (32 <=? 1 + lenZ kv) with (31 <=? lenZ kv) by lia.
    destruct (31 <=? lenZ kv); cbn [fst snd]; intros -> Hm'; [done|].
    split; [do 2 f_equal; lia|]. unfold entries_of in *. by rewrite map_app.
Qed.

(** The table after a write of block [t] under the number the fill gave. *)
Lemma items_hold_write w w' kv item payload t id :
  items_hold w kv -> lenZ kv <= 31 -> valid_object crc32 t payload ->
  0 <= fst (table_write item payload kv) ->
  id = match table_find item kv with Some (k, _) => Z.of_nat k + 1 | None => lenZ kv + 1 end ->
  nv_item w' id = t ->
  (forall id', 0 <= id' <= MAX_SECURE_STORAGE_MAX_ITEM -> id' <> id ->
     nv_item w' id' = nv_item w id') ->
  items_hold w' (snd (table_write item payload kv)).
Proof.
  unfold table_write, MAX_SECURE_STORAGE_MAX_ITEM. intros Hk HL Hv Hr -> Ht Hother.
  destruct (table_find item kv) as [[j p]|] eqn:Hf; cbn [fst snd] in *.
  - intros k name q. rewrite list_lookup_alter. case_decide as Hd.
    + subst j. destruct (kv !! k) as [[name' q']|] eqn:Ek; cbn; [|done].
      intros E. injection E as _ <-. by rewrite Ht.
    + intros Ek. rewrite Hother; [by eapply Hk| |lia].
      apply lookup_lt_Some in Ek. unfold lenZ in HL. lia.
  - destruct (31 <=? lenZ kv) eqn:E31; cbn [fst snd] in *; [lia|]. bool_to_prop.
    intros k name q Ek. apply lookup_app_Some in Ek as [Ek|[Hge Ek]].
    + rewrite Hother; [by eapply Hk| |]; apply lookup_lt_Some in Ek; unfold lenZ in *; lia.
    + destruct (k - length kv)%nat eqn:Ed; [|done]. cbn in Ek. injection Ek as _ <-.
      replace (Z.of_nat k + 1) with (lenZ kv + 1) by (unfold lenZ; lia). by rewrite Ht.
Qed.

(** Writing an object refines [table_write]. *)
Lemma object_write_run s kv stack item buffer len :
  session s kv -> name_ok item -> 0 <= len <= MAX_STORE_LEN -> len <= lenZ buffer ->
  lenZ stack = SEC_BLK_SIZE ->
  (forall k p, table_find item kv = Some (k, p) -> looks_protected stack p = false) ->
  exists s', sunxi_secure_object_write crc32 stack item buffer len s =
      Done (fst (table_write item (bslice 0 len buffer) kv)) s' /\
    session s' (snd (table_write item (bslice 0 len buffer) kv)) /\
    heap_live s' = heap_live s /\ fds_live s' = fds_live s /\
    (fst (table_write item (bslice 0 len buffer) kv) = 0 -> map_dirty (glob s') = 1) /\
    (fst (table_write item (bslice 0 len buffer) kv) <> 0 ->
       map_dirty (glob s') = map_dirty (glob s) /\
       forall id, nv_item (world s') id = nv_item (world s) id).
Proof.
  intros Hs Hitem Hlen Hbuf Hstack Hprot.
  assert (Forall (fun c => c <> 0) item) as Hnz by (destruct Hitem; auto with csem).
  set (payload := bslice 0 len buffer).
  (* the old item, when there is one *)
  assert (exists w1, nv_up w1 /\ nv_boot w1 = nv_boot (world s) /\
    (forall id, nv_item w1 id = nv_item (world s) id) /\
    forall (k : bool -> M (mach W ss_globals) Z),
    bind (if (match table_find item kv with Some _ => 0 | None => -1 end) =? 0 then
       let* '(_, secure_object, _) := sunxi_secure_object_read crc32 item stack SEC_BLK_SIZE 0 in
       ret ((get_u32 secure_object store_object_t.magic =? STORE_OBJECT_MAGIC) &&
            (get_u32 secure_object store_object_t.write_protect =? STORE_WRITE_PROTECT_MAGIC))
     else ret false) k s = k false (Mach w1 (heap_live s) (fds_live s) (glob s)))
    as (w1 & U1 & B1 & D1 & Erun).
  { destruct (object_read_run s kv item stack SEC_BLK_SIZE 0 Hs Hnz) as (w1 & U1 & B1 & D1 & E).
    unfold table_read in E. destruct (table_find item kv) as [[k p]|] eqn:Hf.
    - destruct (item_number _ _ _ _ _ Hs Hf) as [_ Hv].
      cbn [fmap option_fmap option_map snd] in E.
      rewrite (proj2 (Z.leb_le (lenZ p) (lenZ stack))) in E.
      2:{ destruct Hv as (_ & Hv & _). rewrite Hstack. unfold MAX_STORE_LEN, SEC_BLK_SIZE in *. lia. }
      exists w1. split; [done|]. split; [done|]. split; [done|]. intros c.
      rewrite Z.eqb_refl, bind_assoc. mstep E. mrun.
      specialize (Hprot k p eq_refl). unfold looks_protected in Hprot. by rewrite Hprot.
    - exists (world s). split; [by eapply se_up|]. split; [done|]. split; [done|].
      intros c. cbn [Z.eqb]. mrun. by destruct s. }
  assert (session (Mach w1 (heap_live s) (fds_live s) (glob s)) kv) as Hs1
    by (by apply session_world).
  destruct (wrap_valid crc32 crc32_range buffer item len (zeros SEC_BLK_SIZE) 0 Hlen Hbuf)
    as (t & Ew & HL & Hv & _); [done|].
  destruct (session_fill _ kv item payload Hs1 Hitem) as (m' & Ef & Hm'). msimp.
  unfold sunxi_secure_object_write. mstep (storage_probe_run s kv item Hs Hnz).
  rewrite Erun. rewrite u32_small by (unfold MAX_STORE_LEN in *; lia). rewrite Ew. mrun.
  change ((0 <? 0) || (SEC_BLK_SIZE <? store_object_t.size)) with false. cbn iota.
  unfold sunxi_secure_storage_write. mrun. msimp. rewrite (se_inited _ _ Hs). cbn [Z.eqb]. mrun.
  rewrite Ef. mrun. msimp.
  destruct (Z.ltb_spec (match table_find item kv with
      | Some (k, _) => Z.of_nat k + 1 | None => if 31 <=? lenZ kv then -1 else lenZ kv + 1 end) 0)
    as [Hneg|Hpos].
  - (* the table is full *)
    assert (table_write item payload kv = (-1, kv)) as Et.
    { unfold table_write. destruct (table_find item kv) as [[k p]|]; [lia|].
      destruct (31 <=? lenZ kv); [done|]. pose proof (lenZ_nonneg kv). lia. }
    rewrite Et in *. cbn [fst snd] in *. eexists. split; [reflexivity|].
    split; [|repeat split; done].
    destruct Hs1 as [? ? ? ? ? ? ?]. split; msimp; done.
  - assert (0 <= fst (table_write item payload kv) /\
            fst (table_write item payload kv) = 0) as [Hr Hr0].
    { unfold table_write. destruct (table_find item kv) as [[k p]|]; [done|].
      destruct (31 <=? lenZ kv); [lia|done]. }
    set (id := match table_find item kv with
               | Some (k, _) => Z.of_nat k + 1
               | None => if 31 <=? lenZ kv then -1 else lenZ kv + 1 end) in *.
    set (s2 := Mach w1 (heap_live s) (fds_live s) (with_map m' (glob s))).
    destruct (nv_write_law id t s2) as (w3 & E3 & U3 & B3 & D3 & F3).
    { done. } { unfold s2; msimp. cbn. by rewrite (se_boot _ _ Hs), B1. }
    { unfold id, MAX_SECURE_STORAGE_MAX_ITEM in *. pose proof (se_len _ _ Hs).
      destruct (table_find item kv) as [[k p]|] eqn:Hf;
        [pose proof (item_number _ _ _ _ _ Hs Hf); lia|]. case_test; lia. }
    { by rewrite HL. }
    unfold sunxi_secstorage_write. fold s2. mstep E3. mrun. rewrite Hr0.
    unfold set_map_dirty. mrun. eexists. split; [reflexivity|].
    split; [|repeat split; done].
    pose proof (se_len _ _ Hs). unfold s2 in *; msimp. split; msimp.
    + done.
    + cbn. by rewrite (se_boot _ _ Hs), B3, B1.
    + cbn. by apply se_inited with kv.
    + cbn. by apply se_mutex with kv.
    + exact Hm'.
    + apply (items_hold_write w1 w3 kv item payload t id); [|done|exact Hv|exact Hr| |done|done].
      * intros k name p Hk. rewrite D1. by eapply se_items.
      * revert Hpos. unfold id. destruct (table_find item kv) as [[k p]|]; [done|].
        case_test; lia.
    + unfold table_write. destruct (table_find item kv) as [[k p]|]; cbn.
      * unfold lenZ in *. by rewrite length_alter.
      * destruct (Z.leb_spec 31 (lenZ kv)); cbn; [lia|]. rewrite lenZ_app. change (lenZ [(item, payload)]) with 1. lia.
Qed.

(** ** Opening and closing a session *)

Lemma disk_holds_items w w' kv :
  (forall id, nv_item w' id = nv_item w id) -> disk_holds w kv -> disk_holds w' kv.
Proof.
  intros E (Hk & HL & HD). split; [|split; [done|by rewrite E]].
  intros k name p Ek. rewrite E. by eapply Hk.
Qed.

Lemma bblit_app_r pre tr off src :
  0 <= off -> bblit (lenZ pre + off) src (pre ++ tr) = pre ++ bblit off src tr.
Proof.
  intros Hoff. unfold bblit, lenZ.
  replace (Z.to_nat (Z.of_nat (length pre) + off)) with (length pre + Z.to_nat off)%nat by lia.
  rewrite take_app_add. rewrite <- app_assoc. f_equal. f_equal. f_equal.
  rewrite <- Nat.add_assoc. apply drop_app_add.
Qed.

Lemma represents_trailer m es t1 t2 :
  represents m es -> lenZ t1 = 4 -> lenZ t2 = 4 ->
  represents (bblit map_info.crc t2 (bblit map_info.magic t1 m)) es.
Proof.
  intros (Hes & tr & Htr & Hlt & ->) H1 H2. split; [done|].
  set (pre := entries_bytes es ++ zeros (map_info.data_size - lenZ (entries_bytes es))).
  assert (lenZ pre = map_info.data_size) as Hpre
    by (unfold pre; rewrite lenZ_app, lenZ_zeros; lia).
  exists (bblit 4 t2 (bblit 0 t1 tr)). split; [|split; [done|]].
  - rewrite !lenZ_bblit; rewrite ?lenZ_bblit; lia.
  - rewrite !app_assoc. fold pre. unfold map_info.crc, map_info.magic. rewrite <- Hpre.
    rewrite <- (Z.add_0_r (lenZ pre)) at 2. by rewrite !bblit_app_r by lia.
Qed.

Lemma seal_map_spec m es :
  represents m es -> represents (seal_map crc32 m) es /\
  check_secure_storage_map crc32 (seal_map crc32 m) = Some 0.
Proof.
  intros Hm. pose proof (represents_length _ _ Hm) as HL.
  split; [apply represents_trailer; [done|apply lenZ_le_put|apply lenZ_le_put]|].
  unfold check_secure_storage_map, seal_map, put_u32.
  set (m1 := bblit map_info.magic (le_put 4 STORE_OBJECT_MAGIC) m).
  assert (lenZ m1 = SEC_BLK_SIZE) as L1.
  { unfold m1. rewrite lenZ_bblit; rewrite ?lenZ_le_put, ?HL; done. }
  set (c := crc32 _). assert (0 <= c < 4294967296) as Hc by apply crc32_range.
  set (m2 := bblit map_info.crc (le_put 4 c) m1).
  assert (lenZ m2 = SEC_BLK_SIZE) as L2.
  { unfold m2. rewrite lenZ_bblit; rewrite ?lenZ_le_put, ?L1; done. }
  rewrite (proj2 (in_bounds_spec 0 map_info.size m2)) by (rewrite L2; done).
  assert (get_u32 m2 map_info.magic = STORE_OBJECT_MAGIC) as ->.
  { unfold m2. rewrite get_u32_bblit_other; [|done|done|rewrite lenZ_le_put, L1; done|by left].
    apply get_u32_bblit_same; rewrite ?HL; done. }
  assert (get_u32 m2 map_info.crc = c) as ->.
  { apply get_u32_bblit_same; rewrite ?L1; done. }
  assert (bslice 0 (map_info.size - 4) m2 = bslice 0 (map_info.size - 4) m1) as ->.
  { unfold m2. apply bslice_bblit_before; rewrite ?L1; done. }
  fold c. by rewrite !Z.eqb_refl.
Qed.

Lemma exit_run s kv mode :
  synced s kv ->
  exists s', sunxi_secure_storage_exit crc32 mode s = Done 0 s' /\ at_rest s' kv /\
    heap_live s' = heap_live s /\ fds_live s' = fds_live s.
Proof.
  intros [Hs Hsync]. pose proof Hs as [U B I X M Hk L].
  pose proof (represents_length _ _ M) as HL.
  unfold sunxi_secure_storage_exit, try_map_dirty. mrun. rewrite I. cbn [Z.eqb]. mrun.
  destruct (negb (mode =? 0) || negb (map_dirty (glob s) =? 0)) eqn:Hw.
  - destruct (seal_map_spec _ _ M) as [Hr Hc]. mrun.
    set (s1 := Mach _ _ _ _).
    destruct (nv_write_law 0 (seal_map crc32 (secure_storage_map (glob s))) s1)
      as (w' & E & U' & B' & D & F); [done|done|done|by eapply represents_length|].
    unfold sunxi_secstorage_write. mstep E. change (0 <? 0) with false. mrun.
    unfold clear_map_dirty, mutex_unlock. mrun. unfold s1; msimp.
    cbn [sec_mutex with_dirty with_inited with_map]. rewrite X. mrun. eexists. split; [reflexivity|]. split; [|done].
    split; msimp; try done.
    + by eapply represents_length.
    + split; [|split; [done|left; by rewrite D]].
      intros k name p Ek. rewrite F; [by eapply Hk| |lia].
      apply lookup_lt_Some in Ek. unfold MAX_SECURE_STORAGE_MAX_ITEM, lenZ in *. lia.
  - apply orb_false_iff in Hw as [_ Hw]. bool_to_prop. mrun.
    unfold clear_map_dirty, mutex_unlock. mrun. cbn [sec_mutex with_dirty with_inited].
    rewrite X. mrun. eexists. split; [reflexivity|]. split; [|done].
    split; msimp; try done. by apply Hsync.
Qed.

Lemma init_run s kv :
  at_rest s kv ->
  exists s', sunxi_secure_storage_init crc32 s = Done 0 s' /\ synced s' kv /\
    heap_live s' = heap_live s /\ fds_live s' = fds_live s.
Proof.
  intros [U I X D HB (Hk & HL & Hdisk)].
  unfold sunxi_secure_storage_init, mutex_lock. mrun. rewrite X. mrun.
  cbn [secure_storage_inited with_mutex]. rewrite I. cbn [Z.eqb].
  destruct (nv_flash_type_law (Mach (world s) (heap_live s) (fds_live s)
    (with_mutex true (glob s))) U) as (w1 & E1 & U1 & B1 & D1). mrun. msimp.
  mstep E1. mrun.
  destruct (nv_read_map_law (secure_storage_map (glob s))
    (Mach w1 (heap_live s) (fds_live s)
      (with_boot_type (nv_boot (world s)) (with_mutex true (glob s)))))
    as (w2 & E2 & U2 & B2 & D2); msimp.
  { exact U1. } { by rewrite B1. } { exact HB. }
  { rewrite !D1. destruct Hdisk as [[-> _]|(_ & -> & _)]; auto. }
  unfold sunxi_secstorage_read. rewrite D1 in E2. mstep E2. mrun.
  assert (forall k : nat, nv_item w2 (Z.of_nat k + 1) = nv_item (world s) (Z.of_nat k + 1)) as Dk
    by (intros; by rewrite D2, D1).
  assert (items_hold w2 kv) as Hk2 by (intros k name p Ek; rewrite Dk; by eapply Hk).
  destruct Hdisk as [[Hc Hr]|(-> & Hc & Hfirst)]; rewrite Hc; mrun.
  - destruct (bget (nv_item (world s) 0) 0) as [c|] eqn:Eg.
    2:{ exfalso. unfold bget in Eg. cbn in Eg. apply represents_length in Hr.
        destruct (nv_item (world s) 0); [done|done]. }
    mrun. cbn [Z.eqb Pos.eqb andb]. mrun. eexists. split; [reflexivity|].
    split; [|done]. split.
    + split; msimp; try done. cbn. by rewrite B2, B1.
    + intros _. msimp. split; [done|]. split; [done|]. left. rewrite D2, D1. done.
  - assert (exists c, bget (nv_item (world s) 0) 0 = Some c /\ (c = 0 \/ c = 255)) as (c & -> & Hcc)
      by (destruct Hfirst as [-> | ->]; eauto).
    assert ((c =? 255) || (c =? 0) = true) as Hb by (destruct Hcc as [-> | ->]; done).
    change (0 =? -1) with false. mrun. rewrite Hb. change (2 =? -1) with false. mrun. eexists. split; [reflexivity|]. split; [|done]. split.
    + split; msimp; try done; [|exact represents_cleared]. cbn. by rewrite B2, B1.
    + intros _. msimp. split; [done|]. split; [done|]. right. rewrite D2, D1. auto.
Qed.
End Session.
