(* ===== verification/SsSim.v ===== *)
(** * A kernel to run the secure storage on

    A concrete [OsOps]: one block device whose bytes are a function, a table of
    open files, and a command line.  It meets [BlockDev], so the contract of
    [SsStore] has a model, and the theorems of [SsTheorems] are tried on it.  It
    models no code of the repository. *)

From S2P Require Import Prelude CLib Os SsDevice SsMap SsObject SecureStorage SsStore SsFlash SsSession.

Inductive file := FDisk (pos : Z) | FText.

Record sim := Sim { sim_disk : Z -> Z; sim_files : Z -> option file; sim_next : Z }.

(** ["x boot_type=1 y"] *)
Definition sim_cmdline : bytes :=
  [120; 32; 98; 111; 111; 116; 95; 116; 121; 112; 101; 61; 49; 32; 121].

Definition sim_set (fd : Z) (f : option file) (w : sim) : sim :=
  Sim (sim_disk w) (fun d => if d =? fd then f else sim_files w d) (sim_next w).

Definition sim_open (path : string) (w : sim) : Z * sim :=
  let f := if String.eqb path sd_oem_path then Some (FDisk 0)
           else if String.eqb path CMDLINE_FILE_PATH then Some FText else None in
  match f with
  | None => (-1, w)
  | Some f => (sim_next w,
      sim_set (sim_next w) (Some f) (Sim (sim_disk w) (sim_files w) (sim_next w + 1)))
  end.

Definition sim_write (fd : Z) (b : bytes) (w : sim) : Z * sim :=
  match sim_files w fd with
  | Some (FDisk pos) =>
      (lenZ b, sim_set fd (Some (FDisk (pos + lenZ b)))
        (Sim (fun o => if (pos <=? o) && (o <? pos + lenZ b)
                       then nth (Z.to_nat (o - pos)) b 0 else sim_disk w o)
             (sim_files w) (sim_next w)))
  | _ => (-1, w)
  end.

Definition sim_read (fd n : Z) (w : sim) : Z * bytes * sim :=
  match sim_files w fd with
  | Some (FDisk pos) => (n, blk (sim_disk w) pos n, sim_set fd (Some (FDisk (pos + n))) w)
  | Some FText => (lenZ sim_cmdline, sim_cmdline, w)
  | None => (-1, [], w)
  end.

#[export] Instance sim_ops : OsOps sim := {
  os_malloc n w := (4096, w);
  os_open := sim_open;
  os_close fd w := sim_set fd None w;
  os_lseek fd off w :=
    match sim_files w fd with
    | Some (FDisk _) => (off, sim_set fd (Some (FDisk off)) w)
    | _ => (-1, w)
    end;
  os_read := sim_read;
  os_write := sim_write;
  os_fsync fd w := w;
  os_ioctl fd req item b w := (-1, b, w);
  os_access path w := 0;
}.

Definition sim_pos (w : sim) (fd : Z) : option Z :=
  match sim_files w fd with Some (FDisk pos) => Some pos | _ => None end.

Lemma sim_pos_set fd pos w : sim_pos (sim_set fd (Some (FDisk pos)) w) fd = Some pos.
Proof. unfold sim_pos, sim_set; cbn. by rewrite Z.eqb_refl. Qed.

Lemma sim_pos_inv w fd pos : sim_pos w fd = Some pos -> sim_files w fd = Some (FDisk pos).
Proof. unfold sim_pos. destruct (sim_files w fd) as [[]|]; intros E; by inv E. Qed.

Lemma blk_written b pos data :
  blk (fun o => if (pos <=? o) && (o <? pos + lenZ b)
                then nth (Z.to_nat (o - pos)) b 0 else data o) pos (lenZ b) = b.
Proof.
  unfold blk. apply list_eq. intros i. rewrite list_lookup_fmap.
  destruct (decide (i < length b)%nat) as [Hi|Hi].
  - rewrite lookup_seqZ_lt by (unfold lenZ; lia). cbn.
    rewrite (proj2 (Z.leb_le _ _)), (proj2 (Z.ltb_lt _ _)) by (unfold lenZ; lia). cbn [andb].
    replace (Z.to_nat (pos + Z.of_nat i - pos)) with i by lia.
    destruct (lookup_lt_is_Some_2 _ _ Hi) as [x Hx]. by rewrite nth_lookup, Hx.
  - rewrite lookup_seqZ_ge by (unfold lenZ; lia). cbn. symmetry. apply lookup_ge_None. lia.
Qed.

#[export] Program Instance sim_block : BlockDev sim := {
  bd_up w := 0 < sim_next w;
  bd_data := sim_disk;
  bd_fd := sim_pos;
  bd_type := FLASH_TYPE_SD1;
}.
Next Obligation. by left. Qed.
Next Obligation. intros n w U _. by exists 4096, w. Qed.
Next Obligation.
  intros w U. cbn beta in *. eexists _, _. split; [reflexivity|]. split; [done|].
  split; [cbn [sim_next sim_set]; lia|].
  split; [done|]. apply sim_pos_set.
Qed.
Next Obligation.
  intros fd pos off w U F _. eexists. cbn. rewrite (sim_pos_inv _ _ _ F).
  split; [reflexivity|]. split; [done|]. split; [done|]. apply sim_pos_set.
Qed.
Next Obligation.
  intros fd pos n w U F _. eexists. cbn. unfold sim_read. rewrite (sim_pos_inv _ _ _ F).
  split; [reflexivity|]. split; [done|]. split; [done|]. apply sim_pos_set.
Qed.
Next Obligation.
  intros fd pos b w U F. eexists. cbn. unfold sim_write. rewrite (sim_pos_inv _ _ _ F).
  split; [reflexivity|]. split; [done|]. split; [apply sim_pos_set|].
  split; [apply blk_written|]. intros o Ho. cbn. case_test; [lia|done].
Qed.
Next Obligation. done. Qed.
Next Obligation. done. Qed.
Next Obligation.
  intros w U. cbn beta in *. exists sim_cmdline. eexists _, _, _.
  split; [split; [done|eexists; split; [vm_compute; reflexivity|done]]|].
  split; [reflexivity|]. split; [done|]. split.
  { cbn. unfold sim_read; cbn. by rewrite Z.eqb_refl. }
  cbn. split; [lia|done].
Qed.

(** A 32-bit checksum to run the code with. *)
Definition sim_crc (b : bytes) : Z := u32 (foldr Z.add 0 b).

Lemma sim_crc_range b : 0 <= sim_crc b < 4294967296.
Proof. apply u32_range. Qed.

(** A board fresh from the factory: the device reads as zeros. *)
Definition sim_fresh : mach sim ss_globals :=
  Mach (Sim (fun _ => 0) (fun _ => None) 3) 0 0 ss_initial.

(** The same board in an open session. *)
Definition sim_session : mach sim ss_globals :=
  Mach (Sim (fun _ => 0) (fun _ => None) 3) 0 0
       (SsGlobals true (zeros SEC_BLK_SIZE) 1 0 FLASH_TYPE_SD1).

Lemma sim_up : sd_up (Sim (fun _ => 0) (fun _ => None) 3).
Proof. split; [done|]. intros id _. unfold sd_item, sd_copy1, blk; cbn.
  apply list_eq. intros i. rewrite !list_lookup_fmap.
  destruct (decide (i < 4096)%nat) as [Hi|Hi].
  - by rewrite !lookup_seqZ_lt by (unfold SEC_BLK_SIZE; lia).
  - by rewrite !lookup_seqZ_ge by (unfold SEC_BLK_SIZE; lia). Qed.

(** A board in an open session whose every flash block holds [obj]. *)
Definition sim_disk_of (obj : bytes) : sim :=
  Sim (fun o => nth (Z.to_nat (o mod SEC_BLK_SIZE)) obj 0) (fun _ => None) 3.
Definition sim_board (obj m : bytes) : mach sim ss_globals :=
  Mach (sim_disk_of obj) 0 0 (SsGlobals true m 1 1 FLASH_TYPE_SD1).

Lemma sim_block_of obj off :
  lenZ obj = SEC_BLK_SIZE -> off mod SEC_BLK_SIZE = 0 ->
  blk (sim_disk (sim_disk_of obj)) off SEC_BLK_SIZE = obj.
Proof.
  intros HL Hoff. unfold blk. apply list_eq. intros i. rewrite list_lookup_fmap.
  assert (length obj = Z.to_nat SEC_BLK_SIZE) as HL' by (unfold lenZ in HL; lia).
  destruct (decide (i < Z.to_nat SEC_BLK_SIZE)%nat) as [Hi|Hi].
  - rewrite lookup_seqZ_lt by lia. cbn [fmap option_fmap option_map sim_disk sim_disk_of].
    destruct (lookup_lt_is_Some_2 obj i) as [x Hx]; [lia|].
    rewrite <- Z.add_mod_idemp_l, Hoff, Z.add_0_l, Z.mod_small by (unfold SEC_BLK_SIZE in *; lia).
    by rewrite Nat2Z.id, nth_lookup, Hx.
  - rewrite lookup_seqZ_ge by lia. symmetry. apply lookup_ge_None. lia.
Qed.

Lemma sim_copies obj id : lenZ obj = SEC_BLK_SIZE ->
  sd_item (sim_disk_of obj) id = obj /\ sd_copy1 (sim_disk_of obj) id = obj.
Proof.
  intros HL. unfold sd_item, sd_copy1. rewrite sd_offset_eq, sd_offset_backup_eq.
  split; (apply sim_block_of; [exact HL|]); unfold SEC_BLK_SIZE.
  - replace (6291456 + 8192 * id) with ((1536 + 2 * id) * 4096) by lia. apply Z.mod_mul. lia.
  - replace (6291456 + 8192 * id + 4096) with ((1537 + 2 * id) * 4096) by lia. apply Z.mod_mul. lia.
Qed.

(** The map block of a list of entries. *)
Definition map_block (es : list entry) : bytes :=
  entries_bytes es ++ zeros (map_info.data_size - lenZ (entries_bytes es)) ++ zeros 8.

Lemma sim_board_session obj payload kv :
  lenZ obj = SEC_BLK_SIZE -> valid_object sim_crc obj payload ->
  Forall (fun e => e.2 = payload) kv -> represents (map_block (entries_of kv)) (entries_of kv) ->
  lenZ kv <= 31 ->
  synced sim_crc (sim_board obj (map_block (entries_of kv))) kv.
Proof.
  intros HL Hv Hp Hr Hk. pose proof (fun id => sim_copies obj id HL) as Hc.
  split; [|discriminate].
  refine (Build_session sim_crc (sim_board obj _) kv _ eq_refl eq_refl eq_refl Hr _ Hk).
  - split; [reflexivity|]. intros id _. destruct (Hc id) as [E1 E2]. exact (eq_trans E2 (eq_sym E1)).
  - intros k name p Ek. rewrite Forall_lookup in Hp. specialize (Hp _ _ Ek). cbn in Hp. subst p.
    change (nv_item (world (sim_board obj (map_block (entries_of kv)))) (Z.of_nat k + 1))
      with (sd_item (sim_disk_of obj) (Z.of_nat k + 1)). rewrite (proj1 (Hc _)). exact Hv.
Qed.

(** An object with payload 1 2 3 that carries the write-protection mark. *)
Definition sim_object : bytes :=
  match wrap_secure_object sim_crc [1; 2; 3] [] 3 (zeros SEC_BLK_SIZE) 0 with
  | Some (_, t, _) =>
      let t := put_u32 t store_object_t.write_protect STORE_WRITE_PROTECT_MAGIC in
      put_u32 t store_object_t.crc (sim_crc (bslice 0 (store_object_t.size - 4) t))
  | None => []
  end.

Lemma sim_object_valid : lenZ sim_object = SEC_BLK_SIZE /\ valid_object sim_crc sim_object [1; 2; 3] /\
  get_u32 sim_object store_object_t.write_protect = STORE_WRITE_PROTECT_MAGIC.
Proof.
  split; [vm_compute; reflexivity|]. split; [|vm_compute; reflexivity].
  split; [vm_compute; discriminate|]. split; [vm_compute; discriminate|].
  repeat split; vm_compute; reflexivity.
Qed.
