(* ===== verification/SsTheorems.v ===== *)
(** * libsec_storage: what the secure storage promises, and where it breaks it

    The properties of the whole component.  The first group is stated over any
    store with the [NvStore] contract (SD/eMMC and NAND are instances): a program
    of writes, reads and close-and-reopen cycles computes what the abstract table
    computes.  The second group states the calls that break their contract:
    overflow, aliasing of names, the write protection, the mutex, and the two
    device paths that mishandle a damaged flash. *)

From S2P Require Import Prelude CLib Os SsDevice SsMap SsObject SecureStorage SsStore SsFlash SsSession SsSim.

(** ** Programs over the storage *)

Inductive ss_op :=
| OpWrite (stack item buffer : bytes) (len : Z)
| OpRead (item buffer : bytes) (data_len : Z)
| OpErase
| OpReopen (mode : Z).

(** The value returned, the caller's buffer and length after the call. *)
Abbreviation ss_result := (Z * bytes * Z)%type.

Definition spec_op (o : ss_op) (kv : table) : ss_result * table :=
  match o with
  | OpWrite _ item buffer len =>
      let '(r, kv') := table_write item (bslice 0 len buffer) kv in ((r, [], 0), kv')
  | OpRead item buffer dl =>
      (match table_read item kv with
       | Some p => (0, bblit 0 p buffer, lenZ p)
       | None => (-1, buffer, dl)
       end, kv)
  | OpErase => ((0, [], 0), [])
  | OpReopen _ => ((0, [], 0), kv)
  end.

Fixpoint spec_ops (os : list ss_op) (kv : table) : list ss_result * table :=
  match os with
  | [] => ([], kv)
  | o :: os' =>
      let '(r, kv1) := spec_op o kv in
      let '(rs, kv2) := spec_ops os' kv1 in (r :: rs, kv2)
  end.

(** What the caller must respect: C strings for names, payloads within the
    object and within the buffer, room for what a read returns, and no payload
    that reads as a protected object header. *)
Definition op_ok (o : ss_op) (kv : table) : Prop :=
  match o with
  | OpWrite stack item buffer len =>
      name_ok item /\ 0 <= len <= MAX_STORE_LEN /\ len <= lenZ buffer /\
      lenZ stack = SEC_BLK_SIZE /\
      forall k p, table_find item kv = Some (k, p) -> looks_protected stack p = false
  | OpRead item buffer dl =>
      Forall (fun c => c <> 0) item /\
      forall p, table_read item kv = Some p -> lenZ p <= lenZ buffer
  | OpErase | OpReopen _ => True
  end.

Fixpoint ops_ok (os : list ss_op) (kv : table) : Prop :=
  match os with
  | [] => True
  | o :: os' => op_ok o kv /\ ops_ok os' (snd (spec_op o kv))
  end.

Section Programs.
Context {W : Type} `{OsOps W}.
Variable crc32 : bytes -> Z.

Definition exec_op (o : ss_op) : M (mach W ss_globals) ss_result :=
  match o with
  | OpWrite stack item buffer len =>
      let* r := sunxi_secure_object_write crc32 stack item buffer len in ret (r, [], 0)
  | OpRead item buffer dl =>
      sunxi_secure_object_read crc32 item buffer (lenZ buffer) dl
  | OpErase => let* r := sunxi_secure_object_erase in ret (r, [], 0)
  | OpReopen mode =>
      let* _ := sunxi_secure_storage_exit crc32 mode in
      let* r := sunxi_secure_storage_init crc32 in ret (r, [], 0)
  end.

Fixpoint exec_ops (os : list ss_op) : M (mach W ss_globals) (list ss_result) :=
  match os with
  | [] => ret []
  | o :: os' =>
      let* r := exec_op o in
      let* rs := exec_ops os' in ret (r :: rs)
  end.
End Programs.

Section Refinement.
Context {W : Type} `{OsOps W}.
Variable crc32 : bytes -> Z.
Hypothesis crc32_range : forall b, 0 <= crc32 b < 4294967296.
Context `{!NvStore W crc32}.
Implicit Types (s : mach W ss_globals).

Abbreviation session := (session crc32).
Abbreviation synced := (synced crc32).

(** Both ledgers are as before: no block and no descriptor was lost. *)
Definition balanced (s s' : mach W ss_globals) : Prop :=
  heap_live s' = heap_live s /\ fds_live s' = fds_live s.

Lemma erase_session s kv h f :
  session s kv ->
  session (Mach (world s) h f (with_dirty 1 (with_map (zeros SEC_BLK_SIZE) (glob s)))) [].
Proof.
  intros [U B I X M Hk L]. split; try done. exact represents_cleared.
Qed.

Lemma exec_op_refines o s kv :
  synced s kv -> op_ok o kv ->
  exists s', exec_op crc32 o s = Done (fst (spec_op o kv)) s' /\
    synced s' (snd (spec_op o kv)) /\ balanced s s'.
Proof.
  intros Hsy Hok. pose proof Hsy as [Hs Hd]. unfold balanced.
  destruct o as [stack item buffer len|item buffer dl| |mode]; cbn [exec_op spec_op op_ok] in *.
  - destruct Hok as (Hn & Hl & Hb & Hst & Hp).
    destruct (object_write_run crc32 crc32_range s kv stack item buffer len Hs Hn Hl Hb Hst Hp)
      as (s' & E & Hs' & H1 & H2 & Hz & Hnz).
    destruct (table_write item (bslice 0 len buffer) kv) as [r kv'] eqn:Et. cbn [fst snd] in *.
    exists s'. mstep E. split; [done|]. split; [|done]. split; [done|]. intros D.
    destruct (decide (r = 0)) as [->|Hr]; [specialize (Hz eq_refl); lia|].
    destruct (Hnz Hr) as [D' I]. rewrite D' in D.
    assert (kv' = kv) as ->.
    { revert Et. unfold table_write. destruct (table_find item kv) as [[k p]|]; [intros E'; inv E'; done|].
      case_test; intros E'; inv E'; done. }
    by apply (disk_holds_items crc32 (world s)), Hd.
  - destruct Hok as [Hnz Hp].
    destruct (object_read_run crc32 s kv item buffer (lenZ buffer) dl Hs Hnz)
      as (w' & U & B & I & E). rewrite E.
    assert (synced (Mach w' (heap_live s) (fds_live s) (glob s)) kv) as Hs'.
    { split; [by apply session_world|]. msimp. intros D.
      by apply (disk_holds_items crc32 (world s)), Hd. }
    destruct (table_read item kv) as [p|]; cbn [fst snd]; [|by eexists].
    rewrite (proj2 (Z.leb_le _ _)) by auto. by eexists.
  - eexists. split; [reflexivity|]. split; [|done]. split; [exact (erase_session s kv _ _ Hs)|done].
  - destruct (exit_run crc32 crc32_range s kv mode Hsy) as (s1 & E1 & Hr & H1 & H2).
    destruct (init_run crc32 s1 kv Hr) as (s2 & E2 & Hs2 & H3 & H4).
    exists s2. mstep E1. mstep E2. split; [done|]. split; [done|]. lia.
Qed.

(** C1: any sequence of object writes, reads, erasures and close-and-reopen
    cycles, in either mode, that respects the interface returns what the table of
    named payloads returns, ends in a session that stands for the resulting
    table, and loses neither a heap block nor a descriptor. The header describes
    mode 0 of the exit as "no sync"; what the code does, and what is stated here,
    is that a map that was changed is written out in both modes, and mode 1
    writes an unchanged one as well. *)
Theorem storage_programs_refine_table os s kv :
  synced s kv -> ops_ok os kv ->
  exists s', exec_ops crc32 os s = Done (fst (spec_ops os kv)) s' /\
    synced s' (snd (spec_ops os kv)) /\ balanced s s'.
Proof.
  revert s kv; induction os as [|o os IH]; intros s kv Hs Hok; [by exists s|].
  destruct Hok as [Ho Hos]. destruct (exec_op_refines o s kv Hs Ho) as (s1 & E1 & Hs1 & B1).
  cbn [spec_ops exec_ops]. destruct (spec_op o kv) as [r kv1] eqn:Eo. cbn [fst snd] in *.
  destruct (IH s1 kv1 Hs1 Hos) as (s2 & E2 & Hs2 & B2). mstep E1. mstep E2.
  destruct (spec_ops os kv1) as [rs kv2]. exists s2. split; [done|]. split; [done|].
  unfold balanced in *. lia.
Qed.

(** ** The table *)

Lemma table_find_app item kv kv' :
  table_find item (kv ++ kv') =
  match table_find item kv with
  | Some r => Some r
  | None => match table_find item kv' with
            | Some (k, p) => Some ((length kv + k)%nat, p)
            | None => None
            end
  end.
Proof.
  induction kv as [|[n q] kv IH]; cbn [table_find app length].
  - by destruct (table_find item kv') as [[k p]|].
  - case_bool_decide; [done|]. rewrite IH.
    destruct (table_find item kv) as [[k p]|]; [done|].
    by destruct (table_find item kv') as [[k p]|].
Qed.

Lemma table_find_alter item payload kv k : forall k' p',
  table_find item kv = Some (k', p') ->
  table_find item (alter (fun e => (e.1, payload)) k kv) =
  Some (k', if bool_decide (k' = k) then payload else p').
Proof.
  revert k; induction kv as [|[n q] kv IH]; intros k k' p'; [done|].
  cbn [table_find]. case_bool_decide as Hn.
  - intros E; inv E. destruct k; cbn [alter list_alter fst table_find];
      by rewrite bool_decide_true.
  - destruct (table_find item kv) as [[k1 p1]|] eqn:Ef; [|done]. intros E; inv E.
    destruct k as [|k]; cbn [alter list_alter fst table_find];
      rewrite bool_decide_false by done.
    + by rewrite Ef.
    + change (list_alter (fun e : bytes * bytes => (e.1, payload)) k kv)
        with (alter (fun e : bytes * bytes => (e.1, payload)) k kv).
      rewrite (IH k k1 p' eq_refl). f_equal. f_equal.
      by rewrite (bool_decide_ext (k1 = k) (S k1 = S k)) by lia.
Qed.

Lemma table_find_alter_None item payload kv k :
  table_find item kv = None ->
  table_find item (alter (fun e => (e.1, payload)) k kv) = None.
Proof.
  revert k; induction kv as [|[n q] kv IH]; intros k; [done|].
  cbn [table_find]. case_bool_decide as Hn; [done|].
  destruct (table_find item kv) as [[k1 p1]|] eqn:Ef; [done|]. intros _.
  destruct k as [|k]; cbn [alter list_alter fst table_find];
    rewrite bool_decide_false by done; [by rewrite Ef|].
  change (list_alter (fun e : bytes * bytes => (e.1, payload)) k kv)
    with (alter (fun e : bytes * bytes => (e.1, payload)) k kv).
  by rewrite IH.
Qed.

Lemma table_read_write_same item payload kv :
  fst (table_write item payload kv) = 0 ->
  table_read item (snd (table_write item payload kv)) = Some payload.
Proof.
  unfold table_write, table_read. destruct (table_find item kv) as [[k p]|] eqn:Ef.
  - intros _. cbn [snd]. rewrite (table_find_alter _ _ _ _ _ _ Ef).
    by rewrite bool_decide_true.
  - case_test; [done|]. intros _. cbn [snd]. rewrite table_find_app, Ef.
    cbn [table_find]. by rewrite bool_decide_true.
Qed.

Lemma table_find_prefix item kv k p :
  table_find item kv = Some (k, p) -> exists name, kv !! k = Some (name, p) /\ item `prefix_of` name.
Proof.
  revert k; induction kv as [|[n q] kv IH]; intros k; cbn [table_find]; [done|].
  case_bool_decide; [intros E; inv E; by exists n|].
  destruct (table_find item kv) as [[k' q']|]; [|done]. intros E; inv E.
  destruct (IH k' eq_refl) as (n' & Hn & Hp). by exists n'.
Qed.

Lemma table_read_write_other item item' payload kv :
  ~ item' `prefix_of` item -> ~ item `prefix_of` item' ->
  table_read item' (snd (table_write item payload kv)) = table_read item' kv.
Proof.
  intros N1 N2. unfold table_write, table_read.
  destruct (table_find item kv) as [[k p]|] eqn:Ef; cbn [snd].
  - destruct (table_find item' kv) as [[k' p']|] eqn:Ef'.
    + rewrite (table_find_alter _ _ _ _ _ _ Ef'). case_bool_decide as Hk; [|done]. subst k'.
      destruct (table_find_prefix _ _ _ _ Ef) as (n & Hn & Pn).
      destruct (table_find_prefix _ _ _ _ Ef') as (n' & Hn' & Pn').
      simplify_eq. destruct (prefix_weak_total _ _ _ Pn Pn') as [?|?]; done.
    + by rewrite table_find_alter_None.
  - case_test; cbn [snd]; [done|]. rewrite table_find_app.
    destruct (table_find item' kv) as [[k' p']|] eqn:Ef'; [done|].
    cbn [table_find]. by rewrite bool_decide_false.
Qed.

(** ** One object *)

(** The object in its program: written, closed, reopened and read. *)
Definition write_close_reopen (stack item buffer : bytes) (len mode : Z)
  : M (mach W ss_globals) Z :=
  let* r := sunxi_secure_object_write crc32 stack item buffer len in
  let* _ := sunxi_secure_storage_exit crc32 mode in
  let* _ := sunxi_secure_storage_init crc32 in ret r.

Lemma write_close_reopen_run stack item buffer len mode s kv :
  synced s kv -> op_ok (OpWrite stack item buffer len) kv ->
  exists s', write_close_reopen stack item buffer len mode s =
      Done (fst (table_write item (bslice 0 len buffer) kv)) s' /\
    synced s' (snd (table_write item (bslice 0 len buffer) kv)) /\ balanced s s'.
Proof.
  intros Hs Hok. destruct (exec_op_refines (OpWrite stack item buffer len) s kv Hs Hok)
    as (s1 & E1 & Hs1 & B1).
  cbn [exec_op spec_op] in *.
  destruct (table_write item (bslice 0 len buffer) kv) as [r kv'] eqn:Et. cbn [fst snd] in *.
  apply bind_inv in E1 as (a & s1' & E1 & Er). inv Er.
  destruct (exit_run crc32 crc32_range s1 kv' mode Hs1) as (s2 & E2 & Hr & H1 & H2).
  destruct (init_run crc32 s2 kv' Hr) as (s3 & E3 & Hs3 & H3 & H4).
  exists s3. unfold write_close_reopen. mstep E1. mstep E2. mstep E3.
  split; [done|]. split; [done|]. unfold balanced in *. lia.
Qed.

(** C4: a payload that was written and whose write returned 0 is what a read
    returns after the session is closed, in either mode, and opened again; and a
    name that is neither a prefix of the written one nor prefixed by it reads as
    before the write. This is the code's behaviour, not the header's:
    secure_storage.h calls mode 0 "no sync", while sunxi_secure_storage_exit
    writes the map when it is dirty whatever the mode is, and a write has made it
    dirty, so mode 0 loses nothing. *)
Theorem object_write_persists stack item buffer len mode s kv :
  synced s kv -> op_ok (OpWrite stack item buffer len) kv ->
  fst (table_write item (bslice 0 len buffer) kv) = 0 ->
  exists s', write_close_reopen stack item buffer len mode s = Done 0 s' /\
    (forall out dl, len <= lenZ out -> exists s'',
       sunxi_secure_object_read crc32 item out (lenZ out) dl s' =
       Done (0, bblit 0 (bslice 0 len buffer) out, len) s'') /\
    (forall item' out dl p, Forall (fun c => c <> 0) item' ->
       ~ item' `prefix_of` item -> ~ item `prefix_of` item' ->
       table_read item' kv = Some p -> lenZ p <= lenZ out -> exists s'',
       sunxi_secure_object_read crc32 item' out (lenZ out) dl s' =
       Done (0, bblit 0 p out, lenZ p) s'').
Proof.
  intros Hs Hok Hz. destruct (write_close_reopen_run _ _ _ _ mode _ _ Hs Hok)
    as (s1 & E1 & [Hs1 _] & _). rewrite Hz in E1. exists s1. split; [exact E1|].
  destruct Hok as (Hn & Hl & Hb & _). split.
  - intros out dl Ho. assert (Forall (fun c => c <> 0) item) as Hnz by (destruct Hn; auto with csem).
    destruct (object_read_run crc32 s1 _ item out (lenZ out) dl Hs1 Hnz) as (w & _ & _ & _ & E).
    rewrite (table_read_write_same _ _ _ Hz), lenZ_bslice in E by lia.
    rewrite (proj2 (Z.leb_le _ _)) in E by lia. eauto.
  - intros item' out dl p Hnz N1 N2 Hp Ho.
    destruct (object_read_run crc32 s1 _ item' out (lenZ out) dl Hs1 Hnz) as (w & _ & _ & _ & E).
    rewrite table_read_write_other, Hp in E by done.
    rewrite (proj2 (Z.leb_le _ _)) in E by lia. eauto.
Qed.

(** when the table holds 31 items, writing an item with a new name returns
    -1 and changes nothing a read can see. *)
Theorem object_write_full stack item buffer len s kv :
  synced s kv -> op_ok (OpWrite stack item buffer len) kv ->
  lenZ kv = 31 -> table_find item kv = None ->
  exists s', sunxi_secure_object_write crc32 stack item buffer len s = Done (-1) s' /\
    synced s' kv /\ balanced s s'.
Proof.
  intros Hs Hok HL Hf. destruct (exec_op_refines (OpWrite stack item buffer len) s kv Hs Hok)
    as (s1 & E1 & Hs1 & B1).
  cbn [exec_op spec_op] in *. unfold table_write in *. rewrite Hf, HL in *. cbn [fst snd] in *.
  apply bind_inv in E1 as (a & s1' & E1 & Er). inv Er. by exists s1.
Qed.

(** names are compared over the length of the asked name only, so
    writing an item under a proper prefix of a stored name does not add an item:
    it replaces the payload of the stored one, which from then on reads back the
    other item's payload. *)
Theorem object_write_prefix_clobbers stack item long buffer len k old s kv :
  synced s kv -> op_ok (OpWrite stack item buffer len) kv ->
  Forall (fun c => c <> 0) long -> item <> long -> item `prefix_of` long ->
  table_find item kv = Some (k, old) -> table_find long kv = Some (k, old) ->
  exists s', sunxi_secure_object_write crc32 stack item buffer len s = Done 0 s' /\
    forall out dl, len <= lenZ out -> exists s'',
      sunxi_secure_object_read crc32 long out (lenZ out) dl s' =
      Done (0, bblit 0 (bslice 0 len buffer) out, len) s''.
Proof.
  intros Hs Hok Hnz _ _ Hf1 Hf2.
  destruct (exec_op_refines (OpWrite stack item buffer len) s kv Hs Hok) as (s1 & E1 & [Hs1 _] & B1).
  destruct Hok as (Hn & Hl & Hb & _). cbn [exec_op spec_op] in *. unfold table_write in *.
  rewrite Hf1 in *. cbn [fst snd] in *. apply bind_inv in E1 as (a & s1' & E1 & Er). inv Er.
  exists s1. split; [done|]. intros out dl Ho.
  destruct (object_read_run crc32 s1 _ long out (lenZ out) dl Hs1 Hnz) as (w & _ & _ & _ & E).
  unfold table_read in E. rewrite (table_find_alter _ _ _ _ _ _ Hf2), bool_decide_true in E by done.
  cbn [fmap option_fmap option_map snd] in E. rewrite lenZ_bslice in E by lia.
  rewrite (proj2 (Z.leb_le _ _)) in E by lia. eauto.
Qed.

(** the write protection of an object does not protect it.  The
    block of the item carries the protection mark, and the write still returns
    0 and replaces the payload: the code looks for the mark in the payload the
    object wraps, not in the object. *)
Theorem object_write_ignores_protection stack item buffer len k old s kv :
  synced s kv -> op_ok (OpWrite stack item buffer len) kv ->
  table_find item kv = Some (k, old) ->
  get_u32 (nv_item (world s) (Z.of_nat k + 1)) store_object_t.write_protect =
    STORE_WRITE_PROTECT_MAGIC ->
  exists s', sunxi_secure_object_write crc32 stack item buffer len s = Done 0 s' /\
    session s' (alter (fun e => (e.1, bslice 0 len buffer)) k kv).
Proof.
  intros Hs Hok Hf _.
  destruct (exec_op_refines (OpWrite stack item buffer len) s kv Hs Hok) as (s1 & E1 & [Hs1 _] & B1).
  cbn [exec_op spec_op] in *. unfold table_write in *. rewrite Hf in *. cbn [fst snd] in *.
  apply bind_inv in E1 as (a & s1' & E1 & Er). inv Er. by exists s1.
Qed.

(** [sunxi_secure_object_read] is given the length of the caller's
    buffer and ignores it: a buffer shorter than the stored payload is written
    past its end. *)
Theorem object_read_overruns item buffer dl p s kv :
  session s kv -> Forall (fun c => c <> 0) item ->
  table_read item kv = Some p -> lenZ buffer < lenZ p ->
  sunxi_secure_object_read crc32 item buffer (lenZ buffer) dl s = Undef.
Proof.
  intros Hs Hnz Hp Hlt.
  destruct (object_read_run crc32 s kv item buffer (lenZ buffer) dl Hs Hnz) as (w & _ & _ & _ & E).
  rewrite Hp, (proj2 (Z.leb_gt _ _)) in E by lia. exact E.
Qed.

(** [secure_storage_support] on a board with the SoC device, the storage at
    rest, returns 0 and leaves the storage at rest with the same table. *)
Theorem support_leaves_rest s kv :
  at_rest crc32 s kv -> 0 <= os_access "/dev/sunxi_soc_info" (world s) ->
  exists s', secure_storage_support crc32 s = Done 0 s' /\ at_rest crc32 s' kv /\ balanced s s'.
Proof.
  intros Hr Ha. destruct (init_run crc32 s kv Hr) as (s1 & E1 & Hs1 & H1 & H2).
  destruct (exit_run crc32 crc32_range s1 kv 0 Hs1) as (s2 & E2 & Hr2 & H3 & H4).
  exists s2. unfold secure_storage_support, c_access. unfold bind at 1.
  rewrite (proj2 (Z.ltb_ge _ _)) by lia. mstep E1. change (0 <? 0) with false. cbn iota.
  mstep E2. split; [done|]. split; [done|]. unfold balanced. lia.
Qed.

(** [sunxi_secure_storage_init] takes [sec_mutex] before it looks
    at [secure_storage_inited] and keeps it, so a second call in an open session
    waits for itself for ever. *)
Theorem init_twice_blocks s kv :
  at_rest crc32 s kv ->
  exists s', sunxi_secure_storage_init crc32 s = Done 0 s' /\
    sunxi_secure_storage_init crc32 s' = Blocked.
Proof.
  intros Hr. destruct (init_run crc32 s kv Hr) as (s' & E & [Hs _] & _). exists s'.
  split; [done|]. unfold sunxi_secure_storage_init, mutex_lock. mrun.
  by rewrite (se_mutex _ _ _ Hs).
Qed.
End Refinement.

(** ** The mutex *)

Section Mutex.
Context {W : Type} `{OsOps W}.
Variable crc32 : bytes -> Z.
Implicit Types (s : mach W ss_globals).

Lemma write_unknown id buf n s :
  flash_boot_type (glob s) = FLASH_TYPE_UNKNOW ->
  sunxi_secstorage_write id buf n s = Done (-1) s.
Proof. intros E. unfold sunxi_secstorage_write, nv_write. mrun. by rewrite E. Qed.

(** when the map cannot be written, [sunxi_secure_storage_exit]
    releases the mutex and leaves the session open; the exit that the caller
    then repeats releases a mutex that is not locked. *)
Theorem exit_after_failed_exit s :
  secure_storage_inited (glob s) = 1 -> sec_mutex (glob s) = true ->
  flash_boot_type (glob s) = FLASH_TYPE_UNKNOW ->
  exists s', sunxi_secure_storage_exit crc32 1 s = Done (-1) s' /\
    sunxi_secure_storage_exit crc32 1 s' = Undef.
Proof.
  intros Hi Hm Ht. unfold sunxi_secure_storage_exit, try_map_dirty. mrun. rewrite Hi.
  cbn [Z.eqb]. mrun. mcall (by apply write_unknown). change (-1 <? 0) with true.
  unfold mutex_unlock. mrun. cbn [sec_mutex with_map]. rewrite Hm. mrun.
  eexists. split; [reflexivity|].
  mrun. msimp. cbn [secure_storage_inited with_mutex with_map]. rewrite Hi. cbn [Z.eqb]. mrun.
  mcall (by apply write_unknown). change (-1 <? 0) with true. by mrun.
Qed.
End Mutex.

(** ** Damaged and short flash *)

Section Damage.
Context {W : Type} `{OsOps W}.
Variable crc32 : bytes -> Z.
Implicit Types (s : mach W ss_globals).

(** a short read of the first copy costs [_sd_read] the aligned
    block and the descriptor, which nothing gives back; [_sd_read_backup], on the
    same answers of the kernel, gives both back. *)
Theorem sd_read_short_leaks id b len p w1 fd w2 r w3 n data w4 r' w3' n' data' w4' s :
  id <= MAX_SECURE_STORAGE_MAX_ITEM -> 0 <= len <= SEC_BLK_SIZE ->
  os_malloc (SEC_BLK_SIZE + 64) (world s) = (p, w1) -> 0 < p ->
  os_open sd_oem_path w1 = (fd, w2) -> 0 < fd ->
  os_lseek fd (sd_offset id) w2 = (r, w3) -> 0 <= r ->
  os_read fd len w3 = (n, data, w4) -> n <> len ->
  os_lseek fd (sd_offset_backup id) w2 = (r', w3') -> 0 <= r' ->
  os_read fd len w3' = (n', data', w4') -> n' <> len ->
  _sd_read id (Some b) len s =
    Done (-1, b) (Mach w4 (heap_live s + 1) (fds_live s + 1) (glob s)) /\
  _sd_read_backup id (Some b) len s =
    Done (-1, b) (Mach (os_close fd w4') (heap_live s) (fds_live s) (glob s)).
Proof.
  intros Hid Hlen E1 Hp E2 Hfd E3 Hr E4 Hn E3' Hr' E4' Hn'.
  pose proof (align_off_range p Hp) as Ha.
  assert (in_bounds (align_off p) len (zeros (SEC_BLK_SIZE + 64)) = true) as Hin.
  { apply in_bounds_spec. rewrite lenZ_zeros by done. unfold SEC_BLK_SIZE in *. lia. }
  assert (forall v m d v' h f, os_read fd len v = (m, d, v') ->
    exists a, c_read fd (zeros (SEC_BLK_SIZE + 64)) (align_off p) len
      (Mach v h f (glob s)) = Done (m, a) (Mach v' h f (glob s))) as Hread.
  { intros v m d v' h f E. unfold c_read. rewrite Hin. msimp. rewrite E. eauto. }
  destruct (Hread _ _ _ _ (heap_live s + 1) (fds_live s + 1) E4) as [a Ea].
  destruct (Hread _ _ _ _ (heap_live s + 1) (fds_live s + 1) E4') as [a' Ea'].
  unfold _sd_read, _sd_read_backup.
  rewrite (proj2 (Z.ltb_ge MAX_SECURE_STORAGE_MAX_ITEM id)) by lia.
  split; (mcall (eapply c_malloc_ok; [exact E1|exact Hp])); cbv zeta;
    rewrite (proj2 (Z.eqb_neq p 0)) by lia; (mcall (eapply c_open_ok; [exact E2|exact Hfd]));
    rewrite (proj2 (Z.eqb_neq fd 0)) by lia.
  - mcall (eapply c_lseek_ok; apply E3). rewrite (proj2 (Z.ltb_ge r 0)) by lia. msimp.
    mstep Ea. by rewrite (proj2 (Z.eqb_neq n len)) by done.
  - mcall (eapply c_lseek_ok; apply E3'). rewrite (proj2 (Z.ltb_ge r' 0)) by lia. msimp.
    mstep Ea'. rewrite (proj2 (Z.eqb_neq n' len)) by done. cbn [negb].
    mcall (by apply c_free_ok). mcall (by apply c_close_ok). msimp. apply f_equal, Mach_eq; lia.
Qed.
End Damage.

Section DamagedCopy.
Context {W : Type} `{OsOps W, !BlockDev W}.
Variable crc32 : bytes -> Z.
Implicit Types (s : mach W ss_globals).

(** C28: a damaged first copy of an item is not lost: [sd_read_key] falls back on
    the second copy, returns it, and gives back what it took. *)
Theorem sd_read_key_falls_back id buf s :
  bd_up (world s) -> 0 <= id <= MAX_SECURE_STORAGE_MAX_ITEM -> lenZ buf = SEC_BLK_SIZE ->
  check_secure_storage_key crc32 (sd_item (world s) id) <> Some 0 ->
  check_secure_storage_key crc32 (sd_copy1 (world s) id) = Some 0 ->
  exists w', sd_read_key crc32 id buf SEC_BLK_SIZE s =
      Done (0, sd_copy1 (world s) id) (Mach w' (heap_live s) (fds_live s) (glob s)) /\
    forall o, bd_data w' o = bd_data (world s) o.
Proof.
  intros U Hid Hbuf Hbad Hgood.
  destruct (sd_read_run id buf s U Hid Hbuf) as (w1 & E1 & U1 & D1 & I1 & C1).
  pose proof (lenZ_sd_item (world s) id) as HL.
  destruct (sd_read_backup_run id (zeros SEC_BLK_SIZE)
    (Mach w1 (heap_live s) (fds_live s) (glob s)) U1 Hid eq_refl)
    as (w2 & E2 & U2 & D2 & I2 & C2). msimp. rewrite C1 in E2.
  exists w2. split; [|intros; by rewrite D2, D1].
  destruct (check_key_total crc32 (sd_item (world s) id)) as [Hc|Hc];
    [rewrite HL; discriminate|by destruct Hbad|].
  unfold sd_read_key. mstep E1. cbn [Z.eqb]. rewrite Hc. mrun. cbn [Z.eqb].
  rewrite memset_Some by (rewrite ?HL; done). mrun.
  rewrite bblit_whole by (rewrite HL; done).
  change (fill 0 SEC_BLK_SIZE) with (zeros SEC_BLK_SIZE).
  mstep E2. cbn [Z.eqb]. rewrite Hgood. by mrun.
Qed.

(** [sd_read_map] reads [have_map_copy0] before anything was
    assigned to it when the first copy of the map has a wrong checksum and the
    second copy has no magic number. *)
Theorem sd_read_map_uninitialised buf s :
  bd_up (world s) -> lenZ buf = SEC_BLK_SIZE ->
  check_secure_storage_map crc32 (sd_item (world s) 0) = Some (-1) ->
  check_secure_storage_map crc32 (sd_copy1 (world s) 0) = Some 2 ->
  sd_read_map crc32 0 buf SEC_BLK_SIZE s = Undef.
Proof.
  intros U Hbuf Hbad Hempty.
  destruct (bd_malloc SEC_BLK_SIZE (world s) U) as (p & w1 & E1 & Hp & U1 & D1 & _); [done|].
  destruct (sd_same _ _ D1) as [I1 C1].
  destruct (sd_read_run 0 buf (Mach w1 (heap_live s + 1) (fds_live s) (glob s)) U1)
    as (w2 & E2 & U2 & _ & _ & C2); [split; discriminate|exact Hbuf|].
  destruct (sd_read_backup_run 0 (zeros SEC_BLK_SIZE)
    (Mach w2 (heap_live s + 1) (fds_live s) (glob s)) U2) as (w3 & E3 & _); [split; discriminate|reflexivity|].
  msimp. rewrite I1 in E2. rewrite C2, C1 in E3.
  pose proof (lenZ_sd_item (world s) 0) as HL.
  unfold sd_read_map. mcall (eapply c_malloc_ok; [exact E1|exact Hp]).
  rewrite (proj2 (Z.eqb_neq p 0)) by lia. mstep E2. rewrite Z.eqb_refl, Hbad. mrun.
  cbn [Z.eqb Pos.eqb]. rewrite memset_Some by (rewrite ?HL; done). mrun.
  rewrite bblit_whole by (rewrite HL; done). change (fill 0 SEC_BLK_SIZE) with (zeros SEC_BLK_SIZE).
  mstep E3. rewrite Z.eqb_refl. cbn [negb]. rewrite Hempty. mrun. cbn [Z.eqb Pos.eqb]. by mrun.
Qed.
End DamagedCopy.

(** ** The theorems on the simulated board *)

Lemma sim_no_items : check_secure_storage_map sim_crc (sd_item (Sim (fun _ => 0) (fun _ => None) 3) 0) =
  Some 2 /\ bget (sd_item (Sim (fun _ => 0) (fun _ => None) 3) 0) 0 = Some 0.
Proof. vm_compute. auto. Qed.

Lemma sim_disk_empty : disk_holds sim_crc (Sim (fun _ => 0) (fun _ => None) 3) [].
Proof.
  split; [by intros k name p E|]. split; [done|]. right. destruct sim_no_items. auto.
Qed.

Lemma sim_session_synced : synced sim_crc sim_session [].
Proof.
  split; [|intros _; exact sim_disk_empty].
  exact (Build_session sim_crc sim_session [] sim_up eq_refl eq_refl eq_refl
    represents_cleared (proj1 sim_disk_empty) (proj1 (proj2 sim_disk_empty))).
Qed.

Lemma sim_fresh_rest : at_rest sim_crc sim_fresh [].
Proof.
  exact (Build_at_rest sim_crc sim_fresh [] sim_up eq_refl eq_refl eq_refl eq_refl sim_disk_empty).
Qed.

Definition demo_stack : bytes := zeros SEC_BLK_SIZE.
Definition demo_ops : list ss_op :=
  [OpWrite demo_stack name_mac [1; 2; 3] 3; OpWrite demo_stack name_sn [4] 1;
   OpRead name_mac (zeros 4) 0; OpReopen 0; OpRead name_sn (zeros 1) 0; OpErase; OpReopen 1;
   OpRead name_mac (zeros 4) 7].

Ltac name_dec := apply name_ok_dec; vm_compute; reflexivity.

Lemma demo_write name buffer :
  name_ok name -> lenZ buffer <= MAX_STORE_LEN -> op_ok (OpWrite demo_stack name buffer (lenZ buffer)) [].
Proof. intros H1 H2. split; [done|]. pose proof (lenZ_nonneg buffer). repeat split; try lia. done. Qed.

Lemma storage_programs_refine_table_witness :
  exists s', exec_ops sim_crc demo_ops sim_session =
      Done [(0, [], 0); (0, [], 0); (0, [1; 2; 3; 0], 3); (0, [], 0); (0, [4], 1); (0, [], 0);
            (0, [], 0); (-1, [0; 0; 0; 0], 7)] s' /\
    synced sim_crc s' [] /\ balanced sim_session s'.
Proof.
  apply (storage_programs_refine_table sim_crc sim_crc_range demo_ops sim_session []);
    [exact sim_session_synced|].
  repeat split; try name_dec; try done; try (repeat constructor; done);
    intros p Hp; vm_compute in Hp; inv Hp; done.
Defined.

Lemma object_write_persists_witness :
  exists s', write_close_reopen sim_crc demo_stack name_sn [7; 8] 2 0 sim_session = Done 0 s' /\
    (forall out dl, 2 <= lenZ out -> exists s'',
       sunxi_secure_object_read sim_crc name_sn out (lenZ out) dl s' =
       Done (0, bblit 0 (bslice 0 2 [7; 8]) out, 2) s'') /\
    (forall item' out dl p, Forall (fun c => c <> 0) item' ->
       ~ item' `prefix_of` name_sn -> ~ name_sn `prefix_of` item' ->
       table_read item' [] = Some p -> lenZ p <= lenZ out -> exists s'',
       sunxi_secure_object_read sim_crc item' out (lenZ out) dl s' =
       Done (0, bblit 0 p out, lenZ p) s'').
Proof.
  apply (object_write_persists sim_crc sim_crc_range demo_stack name_sn [7; 8] 2 0 sim_session []);
    [exact sim_session_synced|apply (demo_write name_sn [7; 8]); [name_dec|done]|reflexivity].
Defined.

(** Boards with one item and with 31 items, every block the protected object. *)
Lemma represents_map_block es :
  Forall entry_ok es -> lenZ (entries_bytes es) < map_info.data_size -> represents (map_block es) es.
Proof. intros H1 H2. split; [done|]. by exists (zeros 8). Qed.

Definition demo_item (i : Z) : bytes * bytes := ([97; 65 + i], [1; 2; 3]).
Definition demo_full : table := map demo_item (seqZ 0 31).
Definition demo_one : table := [(name_mac, [1; 2; 3])].
Definition demo_board (kv : table) : mach sim ss_globals :=
  sim_board sim_object (map_block (entries_of kv)).

Lemma demo_one_synced : synced sim_crc (demo_board demo_one) demo_one.
Proof.
  destruct sim_object_valid as (HL & Hv & _).
  apply (sim_board_session _ [1; 2; 3]); [exact HL|exact Hv|by constructor| |vm_compute; discriminate].
  exact represents_mac.
Qed.

Lemma demo_full_synced : synced sim_crc (demo_board demo_full) demo_full.
Proof.
  destruct sim_object_valid as (HL & Hv & _).
  apply (sim_board_session _ [1; 2; 3]); [exact HL|exact Hv| | |vm_compute; discriminate].
  - apply Forall_forall. intros e He. apply list_elem_of_In, in_map_iff in He as (i & <- & _). done.
  - apply represents_map_block; [|vm_compute; reflexivity].
    unfold entries_of, demo_full. apply Forall_forall. intros e He.
    apply list_elem_of_In, in_map_iff in He as (x & <- & Hx).
    apply in_map_iff in Hx as (i & <- & Hi). apply list_elem_of_In, elem_of_seqZ in Hi.
    split; [split; [|split; reflexivity]|split; [discriminate|reflexivity]].
    repeat apply Forall_cons_2; [..|apply Forall_nil_2]; unfold name_char, byte_ok, chr_colon; lia.
Qed.

Lemma object_write_full_witness :
  exists s', sunxi_secure_object_write sim_crc demo_stack name_sn [7] 1 (demo_board demo_full) =
      Done (-1) s' /\
    synced sim_crc s' demo_full /\ balanced (demo_board demo_full) s'.
Proof.
  apply (object_write_full sim_crc sim_crc_range demo_stack name_sn [7] 1 (demo_board demo_full) demo_full);
    [exact demo_full_synced| |reflexivity|reflexivity].
  split; [name_dec|]. by repeat split.
Defined.

Lemma demo_one_write buffer :
  lenZ buffer <= MAX_STORE_LEN -> op_ok (OpWrite demo_stack [109; 97] buffer (lenZ buffer)) demo_one.
Proof.
  intros HL. pose proof (lenZ_nonneg buffer). split; [name_dec|]. repeat split; try lia.
  intros k p E. vm_compute in E. inv E. vm_compute. reflexivity.
Qed.

Lemma object_write_prefix_clobbers_witness :
  exists s', sunxi_secure_object_write sim_crc demo_stack [109; 97] [9] 1 (demo_board demo_one) = Done 0 s' /\
    forall out dl, 1 <= lenZ out -> exists s'',
      sunxi_secure_object_read sim_crc name_mac out (lenZ out) dl s' =
      Done (0, bblit 0 (bslice 0 1 [9]) out, 1) s''.
Proof.
  apply (object_write_prefix_clobbers sim_crc sim_crc_range demo_stack [109; 97] name_mac [9] 1 0 [1; 2; 3]
    (demo_board demo_one) demo_one); try reflexivity; try discriminate.
  - exact demo_one_synced.
  - by apply (demo_one_write [9]).
  - repeat constructor; discriminate.
  - by exists [99].
Defined.

Lemma object_write_ignores_protection_witness :
  exists s', sunxi_secure_object_write sim_crc demo_stack [109; 97] [9] 1 (demo_board demo_one) = Done 0 s' /\
    session sim_crc s' (alter (fun e => (e.1, bslice 0 1 [9])) 0%nat demo_one).
Proof.
  apply (object_write_ignores_protection sim_crc sim_crc_range demo_stack [109; 97] [9] 1 0 [1; 2; 3]
    (demo_board demo_one) demo_one).
  - exact demo_one_synced.
  - by apply (demo_one_write [9]).
  - reflexivity.
  - change (nv_item (world (demo_board demo_one)) (Z.of_nat 0 + 1))
      with (sd_item (sim_disk_of sim_object) 1).
    rewrite (proj1 (sim_copies _ _ (proj1 sim_object_valid))). apply sim_object_valid.
Defined.

Lemma object_read_overruns_witness :
  sunxi_secure_object_read sim_crc name_mac [0; 0] 2 0 (demo_board demo_one) = Undef.
Proof.
  apply (object_read_overruns sim_crc name_mac [0; 0] 0 [1; 2; 3] (demo_board demo_one) demo_one);
    [exact (proj1 demo_one_synced)|repeat constructor; discriminate|reflexivity|reflexivity].
Defined.

Lemma support_leaves_rest_witness :
  exists s', secure_storage_support sim_crc sim_fresh = Done 0 s' /\ at_rest sim_crc s' [] /\
    balanced sim_fresh s'.
Proof.
  apply (support_leaves_rest sim_crc sim_crc_range sim_fresh []); [exact sim_fresh_rest|discriminate].
Defined.

Lemma init_twice_blocks_witness :
  exists s', sunxi_secure_storage_init sim_crc sim_fresh = Done 0 s' /\
    sunxi_secure_storage_init sim_crc s' = Blocked.
Proof. apply (init_twice_blocks sim_crc sim_fresh []). exact sim_fresh_rest. Defined.

Definition sim_unknown : mach sim ss_globals :=
  Mach (sim_disk_of []) 0 0 (SsGlobals true (zeros SEC_BLK_SIZE) 1 0 FLASH_TYPE_UNKNOW).

Lemma exit_after_failed_exit_witness :
  exists s', sunxi_secure_storage_exit sim_crc 1 sim_unknown = Done (-1) s' /\
    sunxi_secure_storage_exit sim_crc 1 s' = Undef.
Proof. apply (exit_after_failed_exit sim_crc sim_unknown); reflexivity. Defined.

(** A device that ends before the storage: every read returns 0 bytes. *)
Definition short_ops : OsOps unit := {|
  os_malloc n w := (4096, w); os_open p w := (3, w); os_close fd w := w;
  os_lseek fd off w := (off, w); os_read fd n w := (0, [], w); os_write fd b w := (-1, w);
  os_fsync fd w := w; os_ioctl fd r i b w := (-1, b, w); os_access p w := 0 |}.

Lemma sd_read_short_leaks_witness :
  @_sd_read unit short_ops 1 (Some [0; 0]) 2 (Mach tt 0 0 ss_initial) =
    Done (-1, [0; 0]) (Mach tt 1 1 ss_initial) /\
  @_sd_read_backup unit short_ops 1 (Some [0; 0]) 2 (Mach tt 0 0 ss_initial) =
    Done (-1, [0; 0]) (Mach tt 0 0 ss_initial).
Proof.
  apply (@sd_read_short_leaks unit short_ops 1 [0; 0] 2 4096 tt 3 tt (sd_offset 1) tt 0 [] tt
    (sd_offset_backup 1) tt 0 [] tt (Mach tt 0 0 ss_initial));
    first [reflexivity|discriminate|split; discriminate].
Defined.

(** A board whose first copies all differ from the second ones. *)
Definition sim_two (first second : bytes) : mach sim ss_globals :=
  Mach (Sim (fun o => nth (Z.to_nat (o mod 8192)) (first ++ second) 0) (fun _ => None) 3) 0 0 ss_initial.

Lemma sd_read_key_falls_back_witness :
  exists w', sd_read_key sim_crc 1 (zeros SEC_BLK_SIZE) SEC_BLK_SIZE (sim_two (zeros SEC_BLK_SIZE) sim_object) =
      Done (0, sd_copy1 (world (sim_two (zeros SEC_BLK_SIZE) sim_object)) 1)
        (Mach w' 0 0 ss_initial) /\
    forall o, bd_data w' o = bd_data (world (sim_two (zeros SEC_BLK_SIZE) sim_object)) o.
Proof.
  apply (sd_read_key_falls_back sim_crc 1 (zeros SEC_BLK_SIZE) (sim_two (zeros SEC_BLK_SIZE) sim_object));
    [reflexivity|split; discriminate|reflexivity|vm_compute; discriminate|vm_compute; reflexivity].
Defined.

(** A map block whose magic number is right and whose checksum is not. *)
Definition bad_map : bytes := put_u32 (put_u32 (zeros SEC_BLK_SIZE) map_info.magic STORE_OBJECT_MAGIC) map_info.crc 1.

Lemma sd_read_map_uninitialised_witness :
  sd_read_map sim_crc 0 (zeros SEC_BLK_SIZE) SEC_BLK_SIZE (sim_two bad_map (zeros SEC_BLK_SIZE)) = Undef.
Proof.
  apply (sd_read_map_uninitialised sim_crc (zeros SEC_BLK_SIZE) (sim_two bad_map (zeros SEC_BLK_SIZE)));
    [reflexivity|reflexivity|vm_compute; reflexivity|vm_compute; reflexivity].
Defined.
