(* ===== verification/PrivateStore.v ===== *)
(** * libsec_storage: the private partition

    [fetch_env.c]: the last 8 KiB of the "private" partition hold a header
    ([USER_DATA_HEAR]: magic, count) and a table of [USER_PRIVATE_DATA] slots
    (name, value, valid).  The table is kept as the bytes of the block; the
    lemmas relate them to an association list. *)

From S2P Require Import Prelude CLib Os.

(** ** Constants and layout *)

Definition MAGIC : bytes := [115; 117; 110; 120; 105].        (* "sunxi" *)
Definition PRIVATE_SIZE : Z := 16 * 1024 * 1024.
Definition USER_DATA_MAXSIZE : Z := 8 * 1024.
Definition USER_DATA_PARAMETER_MAX_COUNT : Z := 30.
Definition NANDI_PATH : string := "/dev/block/by-name/private".
Definition NANDI_OLD_PATH : string := "/dev/block/private".
Definition NAME_SIZE : Z := 32.
Definition VALUE_SIZE : Z := 128.

Module USER_DATA_HEAR.
Definition magic_name : Z := 0.
Definition count : Z := 8.
Definition size : Z := 24.
End USER_DATA_HEAR.

Module USER_PRIVATE_DATA.
Definition name : Z := 0.
Definition value : Z := NAME_SIZE.
Definition valid : Z := value + VALUE_SIZE.
Definition size : Z := valid + 16.
End USER_PRIVATE_DATA.

(** The slot [user_data_p] points to after [j] increments. *)
Definition slot (j : Z) : Z := USER_DATA_HEAR.size + USER_PRIVATE_DATA.size * j.

Definition count_of (b : bytes) : Z := s32 (get_u32 b USER_DATA_HEAR.count).
Definition set_count (b : bytes) (n : Z) : bytes := put_u32 b USER_DATA_HEAR.count n.

(** ** The table in a block of [USER_DATA_MAXSIZE] bytes *)

(** The first slot was never written: eight bytes of 0xff. *)
Definition first_slot_blank (b : bytes) : option bool :=
  strncmp_eq (fill 0xff 8) (drop (Z.to_nat (slot 0)) b) 8.

(** [for (j = 0; j < count && j < USER_DATA_PARAMETER_MAX_COUNT; j++)] with its
    [strcmp]: where the loop stops and whether it found the name. *)
Fixpoint find_slot (n : nat) (b name : bytes) (count j : Z) : option (Z * bool) :=
  match n with
  | O => Some (j, false)
  | S n' =>
      if j <? count then
        match strcmp_eq name (drop (Z.to_nat (slot j + USER_PRIVATE_DATA.name)) b) with
        | None => None
        | Some true => Some (j, true)
        | Some false => find_slot n' b name count (j + 1)
        end
      else Some (j, false)
  end.

Definition put_value (b : bytes) (j : Z) (value : bytes) : option bytes :=
  match strcpy b (slot j + USER_PRIVATE_DATA.value) value with
  | None => None
  | Some b =>
      if in_bounds (slot j + USER_PRIVATE_DATA.valid) 4 b
      then Some (put_u32 b (slot j + USER_PRIVATE_DATA.valid) 1) else None
  end.

Definition put_slot (b : bytes) (j : Z) (name value : bytes) : option bytes :=
  match strcpy b (slot j + USER_PRIVATE_DATA.name) name with
  | None => None
  | Some b => put_value b j value
  end.

(** The block as the function uses it: wiped when the magic is not there. *)
Definition init_private (b : bytes) : option bytes :=
  match strncmp_eq MAGIC (drop (Z.to_nat USER_DATA_HEAR.magic_name) b) 5 with
  | None => None
  | Some true => Some b
  | Some false =>
      match memset b 0 0xff USER_DATA_MAXSIZE with
      | None => None
      | Some b =>
          match strcpy b USER_DATA_HEAR.magic_name MAGIC with
          | None => None
          | Some b => Some (set_count b 0)
          end
      end
  end.

Definition modify_env_parameter (private_buf : bytes) (name value : option bytes)
  : option (Z * bytes) :=
  match name, value with
  | Some name, Some value =>
      match init_private private_buf with
      | None => None
      | Some b =>
          match first_slot_blank b with
          | None => None
          | Some false =>
              if 0 <? count_of b then
                match find_slot (Z.to_nat USER_DATA_PARAMETER_MAX_COUNT) b name (count_of b) 0 with
                | None => None
                | Some (j, true) => option_map (pair 0) (put_value b j value)
                | Some (j, false) =>
                    if j =? count_of b then
                      option_map (fun b => (0, set_count b (count_of b + 1))) (put_slot b j name value)
                    else Some (0, b)
                end
              else option_map (fun b => (0, set_count b (count_of b + 1))) (put_slot b 0 name value)
          | Some true => option_map (pair 0) (put_slot (set_count b 1) 0 name value)
          end
      end
  | _, _ => Some (-1, private_buf)
  end.

Definition check_env_parameter (private_buf : bytes) (name : option bytes) (value : bytes)
  : option (Z * bytes) :=
  match name with
  | None => Some (0, value)
  | Some name =>
      match strncmp_eq MAGIC (drop (Z.to_nat USER_DATA_HEAR.magic_name) private_buf) 5 with
      | None => None
      | Some false => Some (-1, value)
      | Some true =>
          match first_slot_blank private_buf with
          | None => None
          | Some true => Some (-1, value)
          | Some false =>
              if 0 <? count_of private_buf then
                match find_slot (Z.to_nat USER_DATA_PARAMETER_MAX_COUNT) private_buf name
                        (count_of private_buf) 0 with
                | None => None
                | Some (j, true) =>
                    match cstr (drop (Z.to_nat (slot j + USER_PRIVATE_DATA.value)) private_buf) with
                    | None => None
                    | Some v => option_map (pair 0) (strcpy value 0 v)
                    end
                | Some (j, false) => Some (-1, value)
                end
              else Some (-1, value)
          end
      end
  end.

(** [strnlen (b, n)]. *)
Definition strnlen (b : bytes) (n : Z) : Z :=
  match cstr (bslice 0 n b) with Some s => lenZ s | None => n end.

(** ** The partition *)

Section Store.
Context {W G : Type} `{OsOps W}.
Abbreviation S := (mach W G).

(** Both functions try the old path when the first [open] fails. *)
Definition open_private : M S Z :=
  let* private_fd := c_open NANDI_PATH in
  if private_fd <? 0 then c_open NANDI_OLD_PATH else ret private_fd.

Definition env_write (buf : bytes) : M S Z :=
  let* private_fd := open_private in
  if private_fd <? 0 then ret (-1) else
  let* _ := c_lseek private_fd (PRIVATE_SIZE - USER_DATA_MAXSIZE) in
  let* n := c_write private_fd buf 0 USER_DATA_MAXSIZE in
  if n <? 0 then c_close private_fd ;;; ret (-1) else
  c_fsync private_fd ;;; c_close private_fd ;;; ret 0.

Definition env_read (buf : bytes) : M S (Z * bytes) :=
  let* private_fd := open_private in
  if private_fd <? 0 then ret (-1, buf) else
  let* _ := c_lseek private_fd (PRIVATE_SIZE - USER_DATA_MAXSIZE) in
  let* '(n, buf) := c_read private_fd buf 0 USER_DATA_MAXSIZE in
  if n <? 0 then c_close private_fd ;;; ret (-1, buf) else
  c_close private_fd ;;; ret (0, buf).

Definition sunxi_private_store_read (item_name : option bytes) (buffer : option bytes)
    (buffer_len data_len : Z) : M S (Z * bytes * Z) :=
  match buffer with
  | None => ret (-1, [], data_len)
  | Some buffer =>
    if buffer_len <? VALUE_SIZE then ret (-1, buffer, data_len) else
    let* pri_buf := c_malloc USER_DATA_MAXSIZE in
    if pri_buf =? 0 then ret (-1, buffer, data_len) else
    let* '(r, b) := env_read (fill 0xff USER_DATA_MAXSIZE) in
    if negb (r =? 0) then c_free pri_buf ;;; ret (-1, buffer, data_len) else
    let* '(r, buffer) := checked (check_env_parameter b item_name buffer) in
    if r =? 0 then c_free pri_buf ;;; ret (0, buffer, strnlen buffer VALUE_SIZE)
    else c_free pri_buf ;;; ret (-1, buffer, data_len)
  end.

(** [buffer] is read as a C string. *)
Definition sunxi_private_store_write (item_name : option bytes) (buffer : option bytes) (length_ : Z)
  : M S Z :=
  let* value := match buffer with
                | Some buffer => let* v := checked (cstr buffer) in ret (Some v)
                | None => ret None
                end in
  let* pri_buf := c_malloc USER_DATA_MAXSIZE in
  if pri_buf =? 0 then ret (-1) else
  let* '(r, b) := env_read (fill 0xff USER_DATA_MAXSIZE) in
  if negb (r =? 0) then c_free pri_buf ;;; ret (-1) else
  let* '(r, b) := checked (modify_env_parameter b item_name value) in
  if negb (r =? 0) then c_free pri_buf ;;; ret (-1) else
  let* r := env_write b in
  if negb (r =? 0) then c_free pri_buf ;;; ret (-1) else
  c_free pri_buf ;;; ret 0.

Definition sunxi_private_store_erase : M S Z :=
  let* pri_buf := c_malloc USER_DATA_MAXSIZE in
  if pri_buf =? 0 then ret (-1) else
  let* r := env_write (fill 0xff USER_DATA_MAXSIZE) in
  if negb (r =? 0) then c_free pri_buf ;;; ret (-1) else
  c_free pri_buf ;;; ret 0.
End Store.

(** ** The abstract table *)

Abbreviation env := (list (bytes * bytes)).

Fixpoint env_find (name : bytes) (kv : env) : option (nat * bytes) :=
  match kv with
  | [] => None
  | (n, v) :: kv' =>
      if bool_decide (name = n) then Some (O, v)
      else match env_find name kv' with Some (k, v) => Some (S k, v) | None => None end
  end.

Definition env_get (name : bytes) (kv : env) : option bytes := snd <$> env_find name kv.
Definition env_set (name value : bytes) (kv : env) : env :=
  match env_find name kv with
  | Some (k, _) => alter (fun e => (e.1, value)) k kv
  | None => kv ++ [(name, value)]
  end.

(** The names and values the format can carry. *)
Definition env_name_ok (n : bytes) : Prop :=
  Forall (fun c => c <> 0) n /\ lenZ n < NAME_SIZE /\ exists c r, n = c :: r /\ c <> 255.
Definition env_value_ok (v : bytes) : Prop := Forall (fun c => c <> 0) v /\ lenZ v < VALUE_SIZE.
Definition env_entry_ok (e : bytes * bytes) : Prop := env_name_ok e.1 /\ env_value_ok e.2.

Definition has_magic (b : bytes) : option bool :=
  strncmp_eq MAGIC (drop (Z.to_nat USER_DATA_HEAR.magic_name) b) 5.

(** Slot [j] holds the entry, both strings with their NUL. *)
Definition slot_holds (b : bytes) (j : Z) (e : bytes * bytes) : Prop :=
  bslice (slot j) (lenZ e.1 + 1) b = e.1 ++ [0] /\
  bslice (slot j + NAME_SIZE) (lenZ e.2 + 1) b = e.2 ++ [0].

(** The block stands for the table: no magic, or a blank first slot, or a
    count and that many slots. *)
Definition represents_env (b : bytes) (kv : env) : Prop :=
  lenZ b = USER_DATA_MAXSIZE /\ Forall env_entry_ok kv /\
  (has_magic b = Some false /\ kv = [] \/
   has_magic b = Some true /\ first_slot_blank b = Some true /\ kv = [] \/
   has_magic b = Some true /\ first_slot_blank b = Some false /\ count_of b = lenZ kv /\
     forall k e, kv !! k = Some e -> slot_holds b (Z.of_nat k) e).

Ltac slot_unfold :=
  unfold slot, USER_DATA_HEAR.size, USER_PRIVATE_DATA.size, USER_PRIVATE_DATA.valid,
    USER_PRIVATE_DATA.value, USER_PRIVATE_DATA.name, NAME_SIZE, VALUE_SIZE, USER_DATA_MAXSIZE,
    USER_DATA_PARAMETER_MAX_COUNT, USER_DATA_HEAR.count in *.

(** Writing inside a slot leaves what is outside of it. *)
Definition same_outside (b b' : bytes) (j : Z) : Prop :=
  lenZ b' = lenZ b /\
  forall off n, 0 <= off -> 0 <= n -> off + n <= slot j \/ slot (j + 1) <= off ->
    bslice off n b' = bslice off n b.

Lemma put_value_spec b j v :
  lenZ b = USER_DATA_MAXSIZE -> 0 <= j < 46 -> lenZ v < VALUE_SIZE ->
  exists b', put_value b j v = Some b' /\ same_outside b b' j /\
    bslice (slot j + NAME_SIZE) (lenZ v + 1) b' = v ++ [0] /\
    (forall n, 0 <= n <= NAME_SIZE -> bslice (slot j) n b' = bslice (slot j) n b).
Proof.
  intros HL Hj Hv. pose proof (lenZ_nonneg v). unfold put_value. slot_unfold.
  rewrite strcpy_Some by lia.
  set (b1 := bblit _ _ _).
  assert (lenZ b1 = 8192) as L1 by (unfold b1; rewrite lenZ_bblit; rewrite ?lenZ_string; lia).
  rewrite (proj2 (in_bounds_spec _ _ _)) by lia. eexists. split; [reflexivity|]. unfold put_u32.
  assert (lenZ (le_put 4 1) = 4) as L4 by reflexivity.
  split; [split|split].
  - unfold slot. rewrite lenZ_bblit; lia.
  - intros off n H1 H2 H3. slot_unfold. destruct H3 as [H3|H3].
    + rewrite bslice_bblit_before by lia. unfold b1. rewrite bslice_bblit_before; try done; lia.
    + rewrite bslice_bblit_after by lia. unfold b1.
      rewrite bslice_bblit_after; rewrite ?lenZ_string; try done; lia.
  - rewrite bslice_bblit_before by lia. unfold b1.
    apply bslice_bblit_same; rewrite ?lenZ_string; lia.
  - intros n Hn. rewrite bslice_bblit_before by lia. unfold b1.
    rewrite bslice_bblit_before; try done; lia.
Qed.

Lemma put_slot_spec b j n v :
  lenZ b = USER_DATA_MAXSIZE -> 0 <= j < 46 -> lenZ n < NAME_SIZE -> lenZ v < VALUE_SIZE ->
  exists b', put_slot b j n v = Some b' /\ same_outside b b' j /\ slot_holds b' j (n, v).
Proof.
  intros HL Hj Hn Hv. pose proof (lenZ_nonneg n). unfold put_slot.
  rewrite strcpy_Some by (slot_unfold; lia). set (b1 := bblit _ _ _).
  assert (lenZ b1 = USER_DATA_MAXSIZE) as L1
    by (unfold b1; slot_unfold; rewrite lenZ_bblit; rewrite ?lenZ_string; lia).
  destruct (put_value_spec b1 j v L1 Hj Hv) as (b' & E & [HL' HO] & Hval & Hname).
  exists b'. split; [exact E|]. split; [split; [congruence|]|split; [|exact Hval]].
  - intros off m H1 H2 H3. rewrite HO by done. unfold b1. slot_unfold.
    destruct H3; [apply bslice_bblit_before|apply bslice_bblit_after; rewrite ?lenZ_string]; lia.
  - cbn [fst]. rewrite Hname by (unfold NAME_SIZE in *; lia). unfold b1, USER_PRIVATE_DATA.name.
    rewrite Z.add_0_r. slot_unfold. apply bslice_bblit_same; rewrite ?lenZ_string; lia.
Qed.

(** What the header says is outside every slot. *)
Lemma same_outside_header b b' j :
  same_outside b b' j -> 0 <= j ->
  has_magic b' = has_magic b /\ count_of b' = count_of b /\
  (1 <= j -> first_slot_blank b' = first_slot_blank b).
Proof.
  intros [_ HO] Hj.
  assert (forall off n, 0 <= off -> off + Z.of_nat n <= slot j ->
    take n (drop (Z.to_nat off) b') = take n (drop (Z.to_nat off) b)) as HT.
  { intros off n H1 H2. specialize (HO off (Z.of_nat n) H1). unfold bslice in HO.
    rewrite Nat2Z.id in HO. apply HO; [lia|by left]. }
  split; [|split].
  - unfold has_magic. rewrite strncmp_eq_take, HT, <- strncmp_eq_take; [done|done|unfold USER_DATA_HEAR.magic_name; slot_unfold; lia].
  - unfold count_of, get_u32. rewrite HO; [done|done|done|slot_unfold; lia].
  - intros Hj1. unfold first_slot_blank.
    rewrite strncmp_eq_take, HT, <- strncmp_eq_take; [done|done|unfold USER_DATA_HEAR.magic_name; slot_unfold; lia].
Qed.

Lemma slot_holds_outside b b' j k e :
  same_outside b b' j -> env_entry_ok e -> 0 <= k -> 0 <= j -> k <> j ->
  slot_holds b k e -> slot_holds b' k e.
Proof.
  intros [_ HO] [(_ & Hn & _) (_ & Hv)] Hk Hj Hne [H1 H2].
  pose proof (lenZ_nonneg e.1). pose proof (lenZ_nonneg e.2).
  split; rewrite HO; try done; slot_unfold; lia.
Qed.

Lemma slot_not_blank b e :
  slot_holds b 0 e -> env_name_ok e.1 -> first_slot_blank b = Some false.
Proof.
  intros [H _] (_ & _ & c & r & E & Hc). unfold first_slot_blank.
  destruct (bslice_string (slot 0) e.1 b) as [rest ->]; [done|done|].
  rewrite E. cbn [app fill Z.to_nat Pos.to_nat strncmp_eq].
  change (fill 255 8) with (255 :: fill 255 7). cbn [strncmp_eq].
  rewrite (proj2 (Z.eqb_neq 255 c)) by congruence. done.
Qed.

Lemma find_slot_spec b name n suf j :
  0 <= j -> Forall (fun c => c <> 0) name -> Forall env_entry_ok suf ->
  (forall k e, suf !! k = Some e -> slot_holds b (j + Z.of_nat k) e) ->
  find_slot n b name (j + lenZ suf) j =
  Some (match env_find name (take n suf) with
        | Some (k, _) => (j + Z.of_nat k, true)
        | None => (j + Z.of_nat (Nat.min n (length suf)), false)
        end).
Proof.
  intros Hj Hname Hok. revert n j Hj. induction Hok as [|[nm v] suf He Hok IH]; intros n j Hj Hk.
  - rewrite take_nil, lenZ_nil, Nat.min_0_r, Z.add_0_r. cbn.
    destruct n; cbn [find_slot]; [by rewrite Z.add_0_r|].
    rewrite (proj2 (Z.ltb_ge j j)) by lia. by rewrite Z.add_0_r.
  - destruct n as [|n]; cbn [find_slot take env_find]; [by rewrite Z.add_0_r|].
    rewrite lenZ_cons. pose proof (lenZ_nonneg suf).
    rewrite (proj2 (Z.ltb_lt j (j + (1 + lenZ suf)))) by lia.
    destruct (Hk O (nm, v) eq_refl) as [Hs _]. destruct He as [(Hnz & _) _]. cbn [fst] in *.
    unfold USER_PRIVATE_DATA.name. rewrite !Z.add_0_r in *.
    destruct (bslice_string (slot j) nm b) as [rest ->]; [slot_unfold; lia|done|].
    rewrite strcmp_eq_cstr by done. case_bool_decide; [by rewrite Z.add_0_r|].
    replace (j + (1 + lenZ suf)) with (j + 1 + lenZ suf) by lia. rewrite IH; [|lia|].
    + destruct (env_find name (take n suf)) as [[k q]|]; do 2 f_equal; cbn [length]; lia.
    + intros k e E. replace (j + 1 + Z.of_nat k) with (j + Z.of_nat (S k)) by lia. by apply Hk.
Qed.

Lemma env_find_lookup name kv k v :
  env_find name kv = Some (k, v) -> kv !! k = Some (name, v).
Proof.
  revert k; induction kv as [|[n q] kv IH]; intros k; cbn [env_find]; [done|].
  case_bool_decide; [intros E; inv E; done|].
  destruct (env_find name kv) as [[k' q']|]; [|done]. intros E; inv E. by apply IH.
Qed.

Lemma env_find_app name kv kv' :
  env_find name (kv ++ kv') =
  match env_find name kv with
  | Some r => Some r
  | None => match env_find name kv' with Some (k, v) => Some ((length kv + k)%nat, v) | None => None end
  end.
Proof.
  induction kv as [|[n q] kv IH]; cbn [env_find app length].
  - by destruct (env_find name kv') as [[k p]|].
  - case_bool_decide; [done|]. rewrite IH.
    destruct (env_find name kv) as [[k p]|]; [done|]. by destruct (env_find name kv') as [[k p]|].
Qed.

(** The block a reader accepts: what the scan needs of [represents_env]. *)
Lemma check_env_run b kv name value :
  represents_env b kv -> Forall (fun c => c <> 0) name ->
  check_env_parameter b (Some name) value =
  match env_find name (take 30 kv) with
  | Some (_, v) => if lenZ v + 1 <=? lenZ value then Some (0, bblit 0 (v ++ [0]) value) else None
  | None => Some (-1, value)
  end.
Proof.
  intros (HL & Hok & Hcase) Hname. unfold check_env_parameter. fold (has_magic b).
  destruct Hcase as [[-> ->]|[(-> & -> & ->)|(-> & -> & Hc & Hk)]]; [done|done|].
  rewrite Hc. destruct (Z.ltb_spec 0 (lenZ kv)) as [Hpos|Hz].
  2:{ destruct kv; [done|]. rewrite lenZ_cons in Hz. pose proof (lenZ_nonneg kv). lia. }
  change (lenZ kv) with (0 + lenZ kv).
  rewrite (find_slot_spec b name _ kv 0) by (done || lia).
  change (Z.to_nat USER_DATA_PARAMETER_MAX_COUNT) with 30%nat.
  destruct (env_find name (take 30 kv)) as [[k v]|] eqn:Ef; [|done].
  pose proof (env_find_lookup _ _ _ _ Ef) as El. apply lookup_take_Some in El as [El _].
  destruct (Hk _ _ El) as [_ Hs]. rewrite Forall_lookup in Hok.
  destruct (Hok _ _ El) as [_ [Hnz _]]. cbn [fst snd] in *.
  change USER_PRIVATE_DATA.value with NAME_SIZE. rewrite Z.add_0_l.
  destruct (bslice_string (slot (Z.of_nat k) + NAME_SIZE) v b) as [rest ->];
    [slot_unfold; lia|done|].
  rewrite cstr_app by done. unfold strcpy, in_bounds. pose proof (lenZ_nonneg v).
  rewrite Z.add_0_l, (proj2 (Z.leb_le 0 (lenZ v + 1))) by lia. cbn.
  by destruct (lenZ v + 1 <=? lenZ value).
Qed.

(** Counting leaves the slots; putting a slot extends the table. *)
Lemma set_count_outside b n :
  lenZ b = USER_DATA_MAXSIZE ->
  lenZ (set_count b n) = USER_DATA_MAXSIZE /\
  has_magic (set_count b n) = has_magic b /\
  first_slot_blank (set_count b n) = first_slot_blank b /\
  (forall j e, 0 <= j -> slot_holds b j e -> slot_holds (set_count b n) j e) /\
  (0 <= n < 2147483648 -> count_of (set_count b n) = n).
Proof.
  intros HL. unfold set_count. slot_unfold.
  assert (forall off m, 0 <= off -> 0 <= m -> off + m <= 8 \/ 12 <= off ->
    bslice off m (put_u32 b 8 n) = bslice off m b) as HO.
  { intros off m H1 H2 [H3|H3]; unfold put_u32;
      [apply bslice_bblit_before|apply bslice_bblit_after]; rewrite ?lenZ_le_put; lia. }
  split; [rewrite lenZ_put_u32; lia|]. split; [|split; [|split]].
  - pose proof (HO 0 5) as E. unfold has_magic.
    rewrite (strncmp_eq_take _ (drop _ (put_u32 b 8 n))), (strncmp_eq_take _ (drop _ b)).
    f_equal. apply E; lia.
  - pose proof (HO 24 8) as E. unfold first_slot_blank.
    rewrite (strncmp_eq_take _ (drop _ (put_u32 b 8 n))), (strncmp_eq_take _ (drop _ b)).
    f_equal. apply E; lia.
  - intros j e Hj [H1 H2]. pose proof (lenZ_nonneg e.1). pose proof (lenZ_nonneg e.2).
    split; rewrite HO; try done; slot_unfold; lia.
  - intros Hn. unfold count_of. slot_unfold. rewrite get_put_u32 by lia. apply s32_small; lia.
Qed.

Lemma put_slot_appends b kv name value :
  lenZ b = USER_DATA_MAXSIZE -> has_magic b = Some true -> Forall env_entry_ok kv ->
  (kv <> [] -> first_slot_blank b = Some false) -> lenZ kv < 46 ->
  (forall k e, kv !! k = Some e -> slot_holds b (Z.of_nat k) e) ->
  env_entry_ok (name, value) ->
  exists b1, put_slot b (lenZ kv) name value = Some b1 /\ lenZ b1 = USER_DATA_MAXSIZE /\
    has_magic b1 = Some true /\ first_slot_blank b1 = Some false /\ count_of b1 = count_of b /\
    forall k e, (kv ++ [(name, value)]) !! k = Some e -> slot_holds b1 (Z.of_nat k) e.
Proof.
  intros HL Hm Hok Hb Hlen Hk He. pose proof He as [(Hn1 & Hn2 & Hn3) [Hv1 Hv2]].
  cbn [fst snd] in *. pose proof (lenZ_nonneg kv).
  destruct (put_slot_spec b (lenZ kv) name value HL) as (b1 & E & Hsame & Hslot); [lia|done|done|].
  destruct (same_outside_header _ _ _ Hsame) as (M & C & F); [lia|].
  pose proof (proj1 Hsame) as L1. rewrite HL in L1.
  exists b1. split; [done|]. split; [done|]. split; [congruence|].
  split; [|split; [done|]].
  - destruct kv as [|e0 kv0]; [by apply (slot_not_blank b1 (name, value))|].
    rewrite F by (rewrite lenZ_cons in *; pose proof (lenZ_nonneg kv0); lia). by apply Hb.
  - intros k e Ek. apply lookup_app_Some in Ek as [Ek|[Hge Ek]].
    + rewrite Forall_lookup in Hok. apply lookup_lt_Some in Ek as Hlt.
      apply (slot_holds_outside b b1 (lenZ kv)); eauto; unfold lenZ in *; lia.
    + destruct (k - length kv)%nat eqn:Ed; [|done]. cbn in Ek. injection Ek as <-.
      by replace (Z.of_nat k) with (lenZ kv) by (unfold lenZ; lia).
Qed.

Lemma represents_counted b kv n :
  lenZ b = USER_DATA_MAXSIZE -> Forall env_entry_ok kv -> has_magic b = Some true ->
  first_slot_blank b = Some false -> n = lenZ kv -> lenZ kv < 47 ->
  (forall k e, kv !! k = Some e -> slot_holds b (Z.of_nat k) e) ->
  represents_env (set_count b n) kv.
Proof.
  intros HL Hok Hm Hb -> Hlt Hk. pose proof (lenZ_nonneg kv).
  destruct (set_count_outside b (lenZ kv) HL) as (L & M & F & S & C).
  split; [done|]. split; [done|]. right; right. rewrite M, F, C by lia.
  repeat split; try done; apply S; try lia; by apply Hk.
Qed.

(** A wiped block and the one [init_private] makes of it. *)
Lemma init_private_run b kv :
  represents_env b kv ->
  exists b0, init_private b = Some b0 /\ represents_env b0 kv /\ has_magic b0 = Some true.
Proof.
  intros (HL & Hok & Hcase). unfold init_private. fold (has_magic b).
  destruct Hcase as [[-> ->]|Hcase].
  - rewrite memset_Some by (rewrite ?HL; done). rewrite bblit_whole by (by rewrite HL).
    eexists. split; [vm_compute; reflexivity|]. split; [|vm_compute; reflexivity].
    split; [vm_compute; reflexivity|]. split; [constructor|]. right; left.
    split; [vm_compute; reflexivity|]. split; [vm_compute; reflexivity|done].
  - assert (has_magic b = Some true) as Hm by (destruct Hcase as [H|H]; apply H). rewrite Hm.
    exists b. split; [done|]. split; [|done]. split; [done|]. split; [done|]. by right.
Qed.

(** Replacing a value keeps the other slots. *)
Lemma put_value_alters b kv k name old value :
  represents_env b kv -> has_magic b = Some true -> first_slot_blank b = Some false ->
  count_of b = lenZ kv -> lenZ kv < 46 ->
  (forall k e, kv !! k = Some e -> slot_holds b (Z.of_nat k) e) ->
  kv !! k = Some (name, old) -> env_value_ok value ->
  exists b', put_value b (Z.of_nat k) value = Some b' /\
    represents_env b' (alter (fun e => (e.1, value)) k kv).
Proof.
  intros (HL & Hok & _) Hm Hb Hc Hlt Hk Ek [Hv1 Hv2].
  apply lookup_lt_Some in Ek as Hkl. rewrite Forall_lookup in Hok.
  destruct (Hok _ _ Ek) as [(Hn1 & Hn2 & Hn3) _]. cbn [fst] in *.
  destruct (put_value_spec b (Z.of_nat k) value HL) as (b' & E & Hsame & Hval & Hname);
    [unfold lenZ in *; lia|done|].
  destruct (same_outside_header _ _ _ Hsame) as (M & C & F); [lia|].
  assert (slot_holds b' (Z.of_nat k) (name, value)) as Hslot.
  { split; [|done]. cbn [fst]. rewrite Hname by (pose proof (lenZ_nonneg name); lia).
    apply (Hk k (name, old) Ek). }
  exists b'. split; [done|]. split; [by rewrite (proj1 Hsame)|].
  assert (forall i e, alter (fun e => (e.1, value)) k kv !! i = Some e ->
    env_entry_ok e /\ slot_holds b' (Z.of_nat i) e) as Hall.
  { intros i e Ei. destruct (decide (i = k)) as [->|Hne].
    - rewrite list_lookup_alter_eq, Ek in Ei. cbn in Ei. injection Ei as <-. done.
    - rewrite list_lookup_alter_ne in Ei by done. split; [by eapply Hok|].
      apply (slot_holds_outside b b' (Z.of_nat k)); eauto; lia. }
  split; [rewrite Forall_lookup; intros i e Ei; by apply (Hall i e)|]. right; right.
  rewrite M, C. split; [done|]. split; [|split].
  - destruct k as [|k]; [by apply (slot_not_blank b' (name, value))|]. rewrite F by lia. done.
  - unfold lenZ in *. by rewrite length_alter.
  - intros i e Ei. by apply (Hall i e).
Qed.

Lemma modify_env_run b kv name value :
  represents_env b kv -> env_entry_ok (name, value) -> (length kv <= 30)%nat ->
  exists b', modify_env_parameter b (Some name) (Some value) = Some (0, b') /\
    represents_env b' (env_set name value kv).
Proof.
  intros Hr He Hlen. destruct (init_private_run b kv Hr) as (b0 & E & Hr0 & Hm).
  unfold modify_env_parameter. rewrite E. pose proof Hr0 as (HL & Hok & Hcase).
  assert (lenZ kv < 46) as Hlt by (unfold lenZ; lia).
  destruct Hcase as [[Hbad _]|[(_ & Hb & ->)|(_ & Hb & Hc & Hk)]]; [congruence| |]; rewrite Hb.
  - destruct (set_count_outside b0 1 HL) as (L1 & M1 & F1 & S1 & C1).
    destruct (put_slot_appends (set_count b0 1) [] name value L1) as (b1 & E1 & L & M & F & C & S);
      try done; [congruence|].
    change (lenZ (@nil (bytes * bytes))) with 0 in E1. rewrite E1. exists b1. split; [done|]. split; [done|]. split; [by constructor|]. right; right.
    rewrite C, C1 by lia. auto.
  - assert (exists b', option_map (fun b => (0, set_count b (count_of b + 1))) (put_slot b0 (lenZ kv) name value)
      = Some (0, b') /\ represents_env b' (kv ++ [(name, value)])) as Happ.
    { destruct (put_slot_appends b0 kv name value HL Hm Hok) as (b1 & -> & L & M & F & C & S);
        [done|done|done|done|].
      eexists. split; [reflexivity|]. apply represents_counted; try done.
      - apply Forall_app. auto.
      - rewrite lenZ_app. change (lenZ [(name, value)]) with 1. lia.
      - rewrite lenZ_app. change (lenZ [(name, value)]) with 1. lia. }
    rewrite Hc. unfold env_set. destruct (Z.ltb_spec 0 (lenZ kv)) as [Hpos|Hz].
    + change (lenZ kv) with (0 + lenZ kv) at 1.
      destruct He as [(Hnz & Hn2 & Hn3) Hv]. cbn [fst snd] in *.
      rewrite (find_slot_spec b0 name _ kv 0) by (done || lia).
      change (Z.to_nat USER_DATA_PARAMETER_MAX_COUNT) with 30%nat. rewrite take_ge by lia.
      destruct (env_find name kv) as [[k old]|] eqn:Ef.
      * apply env_find_lookup in Ef. rewrite Z.add_0_l.
        destruct (put_value_alters b0 kv k name old value) as (b' & -> & Hr'); try done. by exists b'.
      * rewrite Z.add_0_l, Nat.min_r, (proj2 (Z.eqb_eq _ _)) by (unfold lenZ; lia). exact Happ.
    + assert (kv = []) as ->.
      { destruct kv; [done|]. rewrite lenZ_cons in Hz. pose proof (lenZ_nonneg kv). lia. }
      exact Happ.
Qed.
