(* ===== verification/PrivateData.v ===== *)
(** * libsec_storage: the interface of the library

    [api.c]: [private_data_write] saves to the private partition and, where the
    board has it, to the secure storage; [private_data_read] asks the secure
    storage and then the partition.  [PrivDev] is what the kernel documents of
    the partition; over it the store is a table of names and values. *)

From S2P Require Import Prelude CLib Os SsDevice SsMap SsObject SecureStorage SsStore SsFlash SsSession SsSim SsTheorems PrivateStore.

(** [strncpy (dst, src, n)] from a buffer: the [n] bytes it writes, [None] when
    the source ends before its NUL and before [n]. *)
Fixpoint strncpy_buf (src : bytes) (n : nat) : option bytes :=
  match n with
  | O => Some []
  | S n' =>
      match src with
      | [] => None
      | c :: src' => if c =? 0 then Some (zeros (Z.of_nat n)) else option_map (cons c) (strncpy_buf src' n')
      end
  end.

Section Api.
Context {W : Type} `{OsOps W}.
Variable crc32 : bytes -> Z.
Abbreviation S := (mach W ss_globals).

(** [stack] is the uninitialised array of [sunxi_secure_object_write]. *)
Definition private_data_write (stack : bytes) (item_name buffer : option bytes) (length_ : Z) : M S Z :=
  match item_name, buffer with
  | Some item, Some buf =>
    if SEC_BLK_SIZE <? length_ then ret (-1) else
    if length_ <? 0 then undef else
    let* src := checked (strncpy_buf buf (Z.to_nat length_)) in
    let* buffer_bak := checked (memcpy (zeros SEC_BLK_SIZE) 0 src length_) in
    let* r := sunxi_private_store_write (Some item) (Some buffer_bak) length_ in
    if r <? 0 then ret (-1) else
    let* r := secure_storage_support crc32 in
    if r =? 0 then
      let* r := sunxi_secure_storage_init crc32 in
      if r <? 0 then ret (-1) else
      let* r := sunxi_secure_object_write crc32 stack item buffer_bak length_ in
      if r <? 0 then sunxi_secure_storage_exit crc32 0 ;;; ret (-1) else
      let* r := sunxi_secure_storage_exit crc32 0 in
      if r <? 0 then ret (-1) else ret 0
    else ret 0
  | _, _ => ret (-1)
  end.

(** The part after the label [Next]. *)
Definition private_data_read_next (item_name buffer : bytes) (buffer_len data_len : Z)
  : M S (Z * bytes * Z) :=
  let* buffer := checked (memset buffer 0 0 buffer_len) in
  sunxi_private_store_read (Some item_name) (Some buffer) buffer_len data_len.

Definition private_data_read (item_name buffer : bytes) (buffer_len data_len : Z)
  : M S (Z * bytes * Z) :=
  let* r := secure_storage_support crc32 in
  if r =? 0 then
    let* r := sunxi_secure_storage_init crc32 in
    if r <? 0 then private_data_read_next item_name buffer buffer_len data_len else
    let* '(r, buffer, data_len) :=
      sunxi_secure_object_read crc32 item_name buffer buffer_len data_len in
    if r <? 0 then
      let* _ := sunxi_secure_storage_exit crc32 0 in
      private_data_read_next item_name buffer buffer_len data_len
    else
      let* r := sunxi_secure_storage_exit crc32 0 in
      if r <? 0 then private_data_read_next item_name buffer buffer_len data_len
      else ret (0, buffer, data_len)
  else private_data_read_next item_name buffer buffer_len data_len.
End Api.

(** ** The partition as the kernel serves it *)

Class PrivDev (W : Type) `{OsOps W} := {
  pd_up : W -> Prop;
  pd_data : W -> bytes;

  pd_malloc n w : pd_up w -> 0 < n ->
    exists p w', os_malloc n w = (p, w') /\ 0 < p /\ pd_up w' /\ pd_data w' = pd_data w;
  pd_read w : pd_up w ->
    exists fd w1 w2 w3, os_open NANDI_PATH w = (fd, w1) /\ 0 < fd /\
      os_lseek fd (PRIVATE_SIZE - USER_DATA_MAXSIZE) w1 = (PRIVATE_SIZE - USER_DATA_MAXSIZE, w2) /\
      os_read fd USER_DATA_MAXSIZE w2 = (USER_DATA_MAXSIZE, pd_data w, w3) /\
      lenZ (pd_data w) = USER_DATA_MAXSIZE /\
      pd_up (os_close fd w3) /\ pd_data (os_close fd w3) = pd_data w;
  pd_write b w : pd_up w -> lenZ b = USER_DATA_MAXSIZE ->
    exists fd w1 w2 w3, os_open NANDI_PATH w = (fd, w1) /\ 0 < fd /\
      os_lseek fd (PRIVATE_SIZE - USER_DATA_MAXSIZE) w1 = (PRIVATE_SIZE - USER_DATA_MAXSIZE, w2) /\
      os_write fd b w2 = (USER_DATA_MAXSIZE, w3) /\
      pd_up (os_close fd (os_fsync fd w3)) /\ pd_data (os_close fd (os_fsync fd w3)) = b;
}.

Section Partition.
Context {W G : Type} `{OsOps W, !PrivDev W}.
Implicit Types (s : mach W G).

Lemma open_private_ok s fd w :
  os_open NANDI_PATH (world s) = (fd, w) -> 0 < fd ->
  open_private s = Done fd (Mach w (heap_live s) (fds_live s + 1) (glob s)).
Proof.
  intros E Hfd. unfold open_private. mcall (eapply c_open_ok; [exact E|exact Hfd]).
  by rewrite (proj2 (Z.ltb_ge fd 0)) by lia.
Qed.

Lemma env_read_run buf s :
  pd_up (world s) -> lenZ buf = USER_DATA_MAXSIZE ->
  exists w', env_read buf s = Done (0, pd_data (world s)) (Mach w' (heap_live s) (fds_live s) (glob s)) /\
    pd_up w' /\ pd_data w' = pd_data (world s) /\ lenZ (pd_data (world s)) = USER_DATA_MAXSIZE.
Proof.
  intros U HL. destruct (pd_read (world s) U) as (fd & w1 & w2 & w3 & E1 & Hfd & E2 & E3 & HD & U' & D').
  exists (os_close fd w3). split; [|done]. unfold env_read.
  mcall (eapply open_private_ok; [exact E1|exact Hfd]). rewrite (proj2 (Z.ltb_ge fd 0)) by lia.
  mcall (eapply c_lseek_ok; exact E2). msimp.
  mcall (eapply c_read_ok; [exact E3|by apply in_bounds_spec; rewrite HL|done]).
  change (USER_DATA_MAXSIZE <? 0) with false. cbn iota. mcall (apply c_close_ok; exact Hfd). msimp.
  rewrite bslice_all by done. rewrite bblit_whole by congruence.
  unfold ret. f_equal. apply Mach_eq; lia.
Qed.

Lemma env_write_run b s :
  pd_up (world s) -> lenZ b = USER_DATA_MAXSIZE ->
  exists w', env_write b s = Done 0 (Mach w' (heap_live s) (fds_live s) (glob s)) /\
    pd_up w' /\ pd_data w' = b.
Proof.
  intros U HL. destruct (pd_write b (world s) U HL) as (fd & w1 & w2 & w3 & E1 & Hfd & E2 & E3 & U' & D').
  exists (os_close fd (os_fsync fd w3)). split; [|done]. unfold env_write.
  mcall (eapply open_private_ok; [exact E1|exact Hfd]). rewrite (proj2 (Z.ltb_ge fd 0)) by lia.
  mcall (eapply c_lseek_ok; exact E2). msimp.
  mcall (eapply c_write_ok; [rewrite bslice_all by done; exact E3|by apply in_bounds_spec; rewrite HL]).
  change (USER_DATA_MAXSIZE <? 0) with false. cbn iota. mcall (apply c_fsync_ok).
  mcall (apply c_close_ok; exact Hfd). msimp. unfold ret. f_equal. apply Mach_eq; lia.
Qed.

Lemma strnlen_string v rest n :
  Forall (fun c => c <> 0) v -> lenZ v < n -> strnlen (v ++ 0 :: rest) n = lenZ v.
Proof.
  intros Hv Hn. unfold strnlen, bslice. rewrite drop_0.
  replace (Z.to_nat n) with (length v + S (Z.to_nat n - length v - 1))%nat by (unfold lenZ in *; lia).
  rewrite take_app_add. cbn [take]. by rewrite cstr_app.
Qed.

Lemma store_read_run name buffer bl dl s kv :
  pd_up (world s) -> represents_env (pd_data (world s)) kv -> Forall (fun c => c <> 0) name ->
  VALUE_SIZE <= bl <= lenZ buffer ->
  exists w', pd_up w' /\ pd_data w' = pd_data (world s) /\
    sunxi_private_store_read (Some name) (Some buffer) bl dl s =
    Done (match env_find name (take 30 kv) with
          | Some (_, v) => (0, bblit 0 (v ++ [0]) buffer, lenZ v)
          | None => (-1, buffer, dl)
          end) (Mach w' (heap_live s) (fds_live s) (glob s)).
Proof.
  intros U Hr Hname Hbl.
  destruct (pd_malloc USER_DATA_MAXSIZE (world s) U) as (p & w1 & E1 & Hp & U1 & D1); [done|].
  destruct (env_read_run (fill 0xff USER_DATA_MAXSIZE) (Mach w1 (heap_live s + 1) (fds_live s) (glob s)) U1)
    as (w2 & E2 & U2 & D2 & HL); [by rewrite lenZ_fill|]. msimp. rewrite D1 in *.
  exists w2. split; [done|]. split; [done|].
  unfold sunxi_private_store_read. rewrite (proj2 (Z.ltb_ge bl VALUE_SIZE)) by lia.
  mcall (eapply c_malloc_ok; [exact E1|exact Hp]). rewrite (proj2 (Z.eqb_neq p 0)) by lia.
  mstep E2. cbn [Z.eqb negb]. rewrite (check_env_run _ kv) by done.
  destruct (env_find name (take 30 kv)) as [[k v]|] eqn:Ef.
  - apply env_find_lookup, lookup_take_Some in Ef as [Ek _].
    destruct Hr as (_ & Hok & _). rewrite Forall_lookup in Hok.
    destruct (Hok _ _ Ek) as [_ [Hv1 Hv2]]. cbn [snd] in *.
    rewrite (proj2 (Z.leb_le _ _)) by lia. mrun. cbn [Z.eqb].
    mcall (apply c_free_ok; exact Hp). msimp. unfold ret. f_equal; [|apply Mach_eq; lia].
    unfold bblit at 2. rewrite take_0, <- app_assoc. cbn [app].
    rewrite strnlen_string by done. done.
  - mrun. cbn [Z.eqb]. mcall (apply c_free_ok; exact Hp). msimp.
    unfold ret. f_equal. apply Mach_eq; lia.
Qed.

Lemma store_write_run name buffer value len s kv :
  pd_up (world s) -> represents_env (pd_data (world s)) kv ->
  cstr buffer = Some value -> env_entry_ok (name, value) -> (length kv <= 30)%nat ->
  exists w', pd_up w' /\ represents_env (pd_data w') (env_set name value kv) /\
    sunxi_private_store_write (Some name) (Some buffer) len s =
    Done 0 (Mach w' (heap_live s) (fds_live s) (glob s)).
Proof.
  intros U Hr Hval He Hlen.
  destruct (pd_malloc USER_DATA_MAXSIZE (world s) U) as (p & w1 & E1 & Hp & U1 & D1); [done|].
  destruct (env_read_run (fill 0xff USER_DATA_MAXSIZE) (Mach w1 (heap_live s + 1) (fds_live s) (glob s)) U1)
    as (w2 & E2 & U2 & D2 & HL); [by rewrite lenZ_fill|]. msimp. rewrite D1 in *.
  destruct (modify_env_run _ kv name value Hr He Hlen) as (b' & Eb & Hr').
  destruct (env_write_run b' (Mach w2 (heap_live s + 1) (fds_live s) (glob s)) U2)
    as (w3 & E3 & U3 & D3); [by destruct Hr'|].
  exists w3. split; [done|]. split; [by rewrite D3|].
  unfold sunxi_private_store_write. rewrite Hval. mrun.
  mcall (eapply c_malloc_ok; [exact E1|exact Hp]). rewrite (proj2 (Z.eqb_neq p 0)) by lia.
  mstep E2. cbn [Z.eqb negb]. rewrite Eb. mrun. cbn [Z.eqb negb]. mstep E3. cbn [Z.eqb negb].
  mcall (apply c_free_ok; exact Hp). msimp. unfold ret. f_equal. apply Mach_eq; lia.
Qed.

Lemma store_erase_run s :
  pd_up (world s) ->
  exists w', pd_up w' /\ represents_env (pd_data w') [] /\
    sunxi_private_store_erase s = Done 0 (Mach w' (heap_live s) (fds_live s) (glob s)).
Proof.
  intros U.
  destruct (pd_malloc USER_DATA_MAXSIZE (world s) U) as (p & w1 & E1 & Hp & U1 & D1); [done|].
  destruct (env_write_run (fill 0xff USER_DATA_MAXSIZE) (Mach w1 (heap_live s + 1) (fds_live s) (glob s)) U1)
    as (w3 & E3 & U3 & D3); [by rewrite lenZ_fill|].
  exists w3. split; [done|]. split.
  { rewrite D3. split; [by rewrite lenZ_fill|]. split; [constructor|]. left.
    split; [vm_compute; reflexivity|done]. }
  unfold sunxi_private_store_erase.
  mcall (eapply c_malloc_ok; [exact E1|exact Hp]). rewrite (proj2 (Z.eqb_neq p 0)) by lia.
  mstep E3. cbn [Z.eqb negb].
  mcall (apply c_free_ok; exact Hp). msimp. unfold ret. f_equal. apply Mach_eq; lia.
Qed.
End Partition.

(** ** Programs over the private store *)

Inductive pv_op :=
| PvWrite (name value : bytes)
| PvRead (name buffer : bytes) (data_len : Z)
| PvErase.

Definition pv_spec (o : pv_op) (kv : env) : (Z * bytes * Z) * env :=
  match o with
  | PvWrite name value => ((0, [], 0), env_set name value kv)
  | PvRead name buffer dl =>
      (match env_get name kv with
       | Some v => (0, bblit 0 (v ++ [0]) buffer, lenZ v)
       | None => (-1, buffer, dl)
       end, kv)
  | PvErase => ((0, [], 0), [])
  end.

Fixpoint pv_specs (os : list pv_op) (kv : env) : list (Z * bytes * Z) * env :=
  match os with
  | [] => ([], kv)
  | o :: os' => let '(r, kv1) := pv_spec o kv in
                let '(rs, kv2) := pv_specs os' kv1 in (r :: rs, kv2)
  end.

(** Names and values that fit, and at most 30 names. *)
Definition pv_ok (o : pv_op) (kv : env) : Prop :=
  match o with
  | PvWrite name value => env_entry_ok (name, value) /\ (length (env_set name value kv) <= 30)%nat
  | PvRead name buffer _ => Forall (fun c => c <> 0) name /\ VALUE_SIZE <= lenZ buffer
  | PvErase => True
  end.

Fixpoint pvs_ok (os : list pv_op) (kv : env) : Prop :=
  match os with
  | [] => True
  | o :: os' => pv_ok o kv /\ pvs_ok os' (snd (pv_spec o kv))
  end.

Section PvPrograms.
Context {W G : Type} `{OsOps W}.

Definition pv_exec (o : pv_op) : M (mach W G) (Z * bytes * Z) :=
  match o with
  | PvWrite name value =>
      let* r := sunxi_private_store_write (Some name) (Some (value ++ [0])) (lenZ value) in ret (r, [], 0)
  | PvRead name buffer dl => sunxi_private_store_read (Some name) (Some buffer) (lenZ buffer) dl
  | PvErase => let* r := sunxi_private_store_erase in ret (r, [], 0)
  end.

Fixpoint pv_execs (os : list pv_op) : M (mach W G) (list (Z * bytes * Z)) :=
  match os with
  | [] => ret []
  | o :: os' => let* r := pv_exec o in let* rs := pv_execs os' in ret (r :: rs)
  end.
End PvPrograms.

Lemma env_set_length name value kv : (length kv <= length (env_set name value kv))%nat.
Proof.
  unfold env_set. destruct (env_find name kv) as [[k v]|];
    [by rewrite length_alter|rewrite length_app; lia].
Qed.

Section PvTheorems.
Context {W G : Type} `{OsOps W, !PrivDev W}.
Implicit Types (s : mach W G).

(** The partition is up and holds the table. *)
Definition partition_holds s (kv : env) : Prop :=
  pd_up (world s) /\ represents_env (pd_data (world s)) kv /\ (length kv <= 30)%nat.

Lemma pv_exec_refines o s kv :
  partition_holds s kv -> pv_ok o kv ->
  exists w', pv_exec o s = Done (fst (pv_spec o kv)) (Mach w' (heap_live s) (fds_live s) (glob s)) /\
    partition_holds (Mach w' (heap_live s) (fds_live s) (glob s)) (snd (pv_spec o kv)).
Proof.
  intros (U & Hr & Hlen) Hok. unfold partition_holds.
  destruct o as [name value|name buffer dl|]; cbn [pv_ok pv_spec pv_exec fst snd] in *; msimp.
  - destruct Hok as [He Hl]. pose proof He as [_ [Hv _]].
    destruct (store_write_run name (value ++ [0]) value (lenZ value) s kv U Hr) as (w' & U' & Hr' & E);
      [by apply cstr_app|done|done|].
    exists w'. mstep E. split; [done|]. auto.
  - destruct Hok as [Hn Hb]. destruct (store_read_run name buffer (lenZ buffer) dl s kv U Hr Hn)
      as (w' & U' & D' & E); [lia|].
    exists w'. rewrite E, take_ge by lia. unfold env_get. rewrite D'.
    split; [|done]. by destruct (env_find name kv) as [[k v]|].
  - destruct (store_erase_run s U) as (w' & U' & Hr' & E). exists w'. mstep E.
    split; [done|]. split; [done|]. split; [done|]. cbn. lia.
Qed.

(** C15: any sequence of writes, reads and erasures of the private store with
    names and values that fit and at most 30 names returns what the table of
    names and values returns, leaves the partition holding the resulting table,
    and loses neither a heap block nor a descriptor. *)
Theorem private_programs_refine_table os s kv :
  partition_holds s kv -> pvs_ok os kv ->
  exists w', pv_execs os s = Done (fst (pv_specs os kv)) (Mach w' (heap_live s) (fds_live s) (glob s)) /\
    partition_holds (Mach w' (heap_live s) (fds_live s) (glob s)) (snd (pv_specs os kv)).
Proof.
  revert s kv; induction os as [|o os IH]; intros s kv Hp Hok.
  { exists (world s). destruct s. done. }
  destruct Hok as [Ho Hos]. destruct (pv_exec_refines o s kv Hp Ho) as (w1 & E1 & Hp1).
  cbn [pv_specs pv_execs]. destruct (pv_spec o kv) as [r kv1]. cbn [fst snd] in *.
  destruct (IH _ kv1 Hp1 Hos) as (w2 & E2 & Hp2). mstep E1. mstep E2.
  destruct (pv_specs os kv1) as [rs kv2]. by exists w2.
Qed.

(** with 30 names stored, writing a new one reports success and
    is lost to every reader: the write appends a slot and counts it, the scans
    stop after 30. *)
Theorem private_write_beyond_30_lost name value s kv out dl :
  pd_up (world s) -> represents_env (pd_data (world s)) kv -> length kv = 30%nat ->
  env_entry_ok (name, value) -> env_find name kv = None -> VALUE_SIZE <= lenZ out ->
  exists s', sunxi_private_store_write (Some name) (Some (value ++ [0])) (lenZ value) s = Done 0 s' /\
    exists s'', sunxi_private_store_read (Some name) (Some out) (lenZ out) dl s' =
      Done (-1, out, dl) s''.
Proof.
  intros U Hr Hlen He Hf Hout. pose proof He as [(Hn & _) [Hv _]].
  destruct (store_write_run name (value ++ [0]) value (lenZ value) s kv U Hr) as (w' & U' & Hr' & E);
    [by apply cstr_app|done|lia|].
  eexists. split; [exact E|].
  destruct (store_read_run name out (lenZ out) dl (Mach w' (heap_live s) (fds_live s) (glob s)) _ U' Hr' Hn)
    as (w2 & _ & _ & E2); [lia|].
  unfold env_set in E2. rewrite Hf, take_app_le, take_ge, Hf in E2 by lia. eauto.
Qed.
End PvTheorems.

(** ** The interface *)

Section ApiTheorems.
Context {W : Type} `{OsOps W}.
Variable crc32 : bytes -> Z.
Hypothesis crc32_range : forall b, 0 <= crc32 b < 4294967296.
Context `{!NvStore W crc32}.
Implicit Types (s : mach W ss_globals).

(** [private_data_read] on a board with the SoC device answers from the
    secure storage when the item is there, whatever the private partition holds
    (the comment over the function promises the opposite order), and runs the
    read of the private partition on the cleared buffer when it is not; in both
    cases the storage is at rest again with the same table. *)
Theorem private_data_read_order item buffer dl s kv :
  at_rest crc32 s kv -> 0 <= os_access "/dev/sunxi_soc_info" (world s) ->
  Forall (fun c => c <> 0) item ->
  (forall p, table_read item kv = Some p -> lenZ p <= lenZ buffer) ->
  exists s', at_rest crc32 s' kv /\ balanced s s' /\
    private_data_read crc32 item buffer (lenZ buffer) dl s =
    match table_read item kv with
    | Some p => Done (0, bblit 0 p buffer, lenZ p) s'
    | None => sunxi_private_store_read (Some item) (Some (zeros (lenZ buffer))) (lenZ buffer) dl s'
    end.
Proof.
  intros Hr Ha Hn Hroom. unfold private_data_read, secure_storage_support.
  destruct (init_run crc32 s kv Hr) as (s1 & E1 & Hs1 & H1 & H2).
  destruct (exit_run crc32 crc32_range s1 kv 0 Hs1) as (s2 & E2 & Hr2 & H3 & H4).
  destruct (init_run crc32 s2 kv Hr2) as (s3 & E3 & Hs3 & H5 & H6).
  destruct (object_read_run crc32 s3 kv item buffer (lenZ buffer) dl (proj1 Hs3) Hn)
    as (w4 & U4 & B4 & D4 & E4).
  assert (synced crc32 (Mach w4 (heap_live s3) (fds_live s3) (glob s3)) kv) as Hs4.
  { split; [by apply session_world; [apply Hs3| | |]|]. intros D. apply (disk_holds_items crc32 (world s3)); [done|].
    by apply Hs3. }
  destruct (exit_run crc32 crc32_range _ kv 0 Hs4) as (s5 & E5 & Hr5 & H7 & H8). msimp.
  exists s5. split; [done|]. split; [unfold balanced; lia|].
  rewrite bind_assoc. unfold c_access at 1. unfold bind at 1.
  rewrite (proj2 (Z.ltb_ge _ _)) by lia. rewrite bind_assoc. mstep E1.
  change (0 <? 0) with false. cbn iota. rewrite bind_assoc. mstep E2. mrun. mstep E3.
  change (0 <? 0) with false. cbn iota.
  destruct (table_read item kv) as [p|] eqn:Ep.
  - rewrite (proj2 (Z.leb_le _ _)) in E4 by auto. mstep E4.
    change (0 <? 0) with false. cbn iota. mstep E5. done.
  - mstep E4. change (-1 <? 0) with true. cbn iota. mstep E5.
    unfold private_data_read_next. pose proof (lenZ_nonneg buffer).
    rewrite memset_Some by lia. mrun. by rewrite bblit_whole by (by rewrite lenZ_fill).
Qed.
End ApiTheorems.

Lemma strncpy_buf_exact v rest :
  Forall (fun c => c <> 0) v -> strncpy_buf (v ++ rest) (length v) = Some v.
Proof.
  induction 1 as [|c v Hc _ IH]; [by destruct rest|]. cbn [app length strncpy_buf].
  rewrite (proj2 (Z.eqb_neq c 0)) by done. by rewrite IH.
Qed.

Section NoSoc.
Context {W : Type} `{OsOps W, !PrivDev W}.
Variable crc32 : bytes -> Z.
Hypothesis no_soc : forall w, pd_up w -> os_access "/dev/sunxi_soc_info" w < 0.
Implicit Types (s : mach W ss_globals).

Lemma support_no_soc s : pd_up (world s) -> secure_storage_support crc32 s = Done (-1) s.
Proof.
  intros U. unfold secure_storage_support, c_access. unfold bind at 1.
  by rewrite (proj2 (Z.ltb_lt _ 0) (no_soc _ U)).
Qed.

(** C22: on a board without the SoC device, a value written through the
    interface is what [private_data_read] returns, with its length, and every
    other name reads as before. *)
Theorem private_data_roundtrip stack item value s kv :
  pd_up (world s) -> represents_env (pd_data (world s)) kv ->
  env_entry_ok (item, value) -> (length (env_set item value kv) <= 30)%nat ->
  exists s', private_data_write crc32 stack (Some item) (Some (value ++ [0])) (lenZ value) s = Done 0 s' /\
    represents_env (pd_data (world s')) (env_set item value kv) /\
    forall name out dl, Forall (fun c => c <> 0) name -> VALUE_SIZE <= lenZ out ->
      exists s'', private_data_read crc32 name out (lenZ out) dl s' =
      Done (match env_get name (env_set item value kv) with
            | Some v => (0, bblit 0 (v ++ [0]) (zeros (lenZ out)), lenZ v)
            | None => (-1, zeros (lenZ out), dl)
            end) s''.
Proof.
  intros U Hr He Hlen. pose proof He as [_ [Hv1 Hv2]]. cbn [snd] in *.
  pose proof (lenZ_nonneg value). pose proof (env_set_length item value kv).
  destruct (store_write_run item (bblit 0 value (zeros SEC_BLK_SIZE)) value (lenZ value) s kv U Hr)
    as (w' & U' & Hr' & E); [|done|lia|].
  { unfold bblit. rewrite take_0. cbn [app].
    assert (exists rest, drop (Z.to_nat 0 + length value) (zeros SEC_BLK_SIZE) = 0 :: rest) as [rest ->].
    { unfold zeros. rewrite drop_replicate. unfold lenZ, VALUE_SIZE, SEC_BLK_SIZE in *.
      destruct (Z.to_nat 4096 - (Z.to_nat 0 + length value))%nat eqn:Ed; [lia|].
      by exists (replicate n 0). }
    by apply cstr_app. }
  exists (Mach w' (heap_live s) (fds_live s) (glob s)). split; [|split; [exact Hr'|]].
  - unfold private_data_write. unfold VALUE_SIZE in Hv2.
    rewrite (proj2 (Z.ltb_ge SEC_BLK_SIZE _)) by (unfold SEC_BLK_SIZE; lia).
    rewrite (proj2 (Z.ltb_ge (lenZ value) 0)) by lia. unfold lenZ at 1. rewrite Nat2Z.id.
    rewrite strncpy_buf_exact by done. mrun.
    rewrite memcpy_Some by (rewrite ?lenZ_zeros; unfold SEC_BLK_SIZE; lia).
    rewrite (bslice_all _ _ eq_refl). mrun. mstep E. change (0 <? 0) with false. cbn iota.
    mcall (by apply support_no_soc). done.
  - intros name out dl Hn Hout. unfold private_data_read.
    mcall (by apply support_no_soc). cbn [Z.eqb].
    unfold private_data_read_next. pose proof (lenZ_nonneg out).
    rewrite memset_Some by lia. mrun. rewrite bblit_whole by (by rewrite lenZ_fill).
    change (fill 0 (lenZ out)) with (zeros (lenZ out)).
    destruct (store_read_run name (zeros (lenZ out)) (lenZ out) dl
      (Mach w' (heap_live s) (fds_live s) (glob s)) _ U' Hr' Hn) as (w2 & _ & _ & E2);
      [by rewrite lenZ_zeros|].
    rewrite take_ge in E2 by lia. unfold env_get. eexists. rewrite E2.
    by destruct (env_find name (env_set item value kv)) as [[k v]|].
Qed.
End NoSoc.

(** ** The theorems on a concrete partition *)

(** A board that has only the partition. *)
Record part := Part { part_data : bytes }.

#[export] Instance part_ops : OsOps part := {
  os_malloc n w := (4096, w); os_open p w := (3, w); os_close fd w := w;
  os_lseek fd off w := (off, w); os_read fd n w := (n, part_data w, w);
  os_write fd b w := (lenZ b, Part b); os_fsync fd w := w;
  os_ioctl fd r i b w := (-1, b, w); os_access p w := -1 }.

#[export] Program Instance part_dev : PrivDev part := {
  pd_up w := lenZ (part_data w) = USER_DATA_MAXSIZE; pd_data := part_data }.
Next Obligation. intros n w U _. by exists 4096, w. Qed.
Next Obligation. intros w U. by eexists 3, _, _, _. Qed.
Next Obligation.
  intros b w U HL. eexists 3, _, _, _. cbn. split; [done|]. split; [done|]. split; [done|].
  split; [by rewrite HL|done].
Qed.

Definition part_fresh : mach part ss_globals := Mach (Part (fill 0xff USER_DATA_MAXSIZE)) 0 0 ss_initial.

Lemma part_fresh_holds : partition_holds part_fresh [].
Proof.
  split; [by apply lenZ_fill|]. split; [|cbn; lia].
  split; [by apply lenZ_fill|]. split; [constructor|]. left. split; [vm_compute; reflexivity|done].
Qed.

Lemma env_name_ok_dec c r :
  forallb (fun c => negb (c =? 0)) (c :: r) && (lenZ (c :: r) <? NAME_SIZE) && negb (c =? 255) = true ->
  env_name_ok (c :: r).
Proof.
  intros E. bool_to_prop. split; [|split; [done|by exists c, r]].
  apply Forall_forall. intros x Hx. apply list_elem_of_In in Hx.
  rewrite forallb_forall in H. specialize (H x Hx). bool_to_prop. done.
Qed.

Lemma env_value_ok_dec v :
  forallb (fun c => negb (c =? 0)) v && (lenZ v <? VALUE_SIZE) = true -> env_value_ok v.
Proof.
  intros E. bool_to_prop. split; [|done]. apply Forall_forall. intros x Hx.
  apply list_elem_of_In in Hx. rewrite forallb_forall in H. specialize (H x Hx). by bool_to_prop.
Qed.

Ltac entry_dec := split; [apply env_name_ok_dec|apply env_value_ok_dec]; vm_compute; reflexivity.

Lemma private_programs_refine_table_witness :
  exists w', pv_execs [PvWrite name_mac [1; 2]; PvWrite name_sn [3]; PvWrite name_mac [4];
                      PvRead name_mac (zeros 128) 0; PvErase; PvRead name_sn (zeros 128) 5] part_fresh =
    Done [(0, [], 0); (0, [], 0); (0, [], 0); (0, 4 :: zeros 127, 1); (0, [], 0); (-1, zeros 128, 5)]
      (Mach w' 0 0 ss_initial) /\
    partition_holds (Mach w' 0 0 ss_initial : mach part ss_globals) [].
Proof.
  apply (private_programs_refine_table
    [PvWrite name_mac [1; 2]; PvWrite name_sn [3]; PvWrite name_mac [4];
     PvRead name_mac (zeros 128) 0; PvErase; PvRead name_sn (zeros 128) 5] part_fresh []);
    [exact part_fresh_holds|].
  repeat (split; [first [split; [entry_dec|vm_compute; lia]
                        |split; [repeat constructor; discriminate|vm_compute; discriminate]
                        |exact I]|]); exact I.
Defined.

(** A partition with 30 names, built by the code itself. *)
Definition name_of (i : Z) : bytes := [97; 65 + i].
Definition full_env : env := map (fun i => (name_of i, [1])) (seqZ 0 30).
Definition full_block : bytes :=
  foldl (fun b e => match modify_env_parameter b (Some e.1) (Some e.2) with
                    | Some (_, b') => b' | None => b end)
        (fill 0xff USER_DATA_MAXSIZE) full_env.

Lemma foldl_env_run es : forall b kv,
  represents_env b kv -> Forall env_entry_ok es -> (length kv + length es <= 31)%nat ->
  represents_env (foldl (fun b e => match modify_env_parameter b (Some e.1) (Some e.2) with
                    | Some (_, b') => b' | None => b end) b es)
    (foldl (fun kv e => env_set e.1 e.2 kv) kv es).
Proof.
  induction es as [|[n v] es IH]; intros b kv Hr Hok Hlen; [done|]. cbn [foldl fst snd].
  inv Hok. cbn [length] in Hlen.
  destruct (modify_env_run b kv n v Hr) as (b' & E & Hr'); [done|lia|]. rewrite E. apply IH; [done|done|].
  assert (length (env_set n v kv) <= S (length kv))%nat; [|lia].
  unfold env_set. destruct (env_find n kv) as [[k q]|];
    [rewrite length_alter; lia|rewrite length_app; cbn; lia].
Qed.

Lemma full_env_self : foldl (fun kv e => env_set e.1 e.2 kv) [] full_env = full_env.
Proof. vm_compute. reflexivity. Qed.

Lemma full_env_ok : Forall env_entry_ok full_env.
Proof.
  apply Forall_forall. intros e He. apply list_elem_of_In, in_map_iff in He as (i & <- & Hi).
  apply list_elem_of_In, elem_of_seqZ in Hi. split; [|by apply env_value_ok_dec].
  split; [|split; [done|by exists 97, [65 + i]]].
  apply Forall_cons_2; [lia|]. apply Forall_cons_2; [lia|]. apply Forall_nil_2.
Qed.

Lemma full_block_holds : represents_env full_block full_env.
Proof.
  pose proof (foldl_env_run full_env (fill 0xff USER_DATA_MAXSIZE) []
    (proj1 (proj2 part_fresh_holds)) full_env_ok) as H.
  rewrite full_env_self in H. apply H. vm_compute. lia.
Qed.

Definition part_full : mach part ss_globals := Mach (Part full_block) 0 0 ss_initial.

Lemma private_write_beyond_30_lost_witness :
  exists s', sunxi_private_store_write (Some name_mac) (Some [7; 0]) 1 part_full = Done 0 s' /\
    exists s'', sunxi_private_store_read (Some name_mac) (Some (zeros 128)) 128 9 s' =
      Done (-1, zeros 128, 9) s''.
Proof.
  apply (private_write_beyond_30_lost name_mac [7] part_full full_env (zeros 128) 9).
  - apply full_block_holds.
  - apply full_block_holds.
  - reflexivity.
  - entry_dec.
  - reflexivity.
  - vm_compute. discriminate.
Defined.

Lemma private_data_read_order_witness :
  exists s', at_rest sim_crc s' [] /\ balanced sim_fresh s' /\
    private_data_read sim_crc name_mac (zeros 128) 128 0 sim_fresh =
    sunxi_private_store_read (Some name_mac) (Some (zeros 128)) 128 0 s'.
Proof.
  apply (private_data_read_order sim_crc sim_crc_range name_mac (zeros 128) 0 sim_fresh []);
    [exact sim_fresh_rest|discriminate|repeat constructor; discriminate|discriminate].
Defined.

Lemma private_data_roundtrip_witness :
  exists s', private_data_write sim_crc [] (Some name_mac) (Some [7; 8; 0]) 2 part_fresh = Done 0 s' /\
    represents_env (pd_data (world s')) [(name_mac, [7; 8])] /\
    forall name out dl, Forall (fun c => c <> 0) name -> VALUE_SIZE <= lenZ out ->
      exists s'', private_data_read sim_crc name out (lenZ out) dl s' =
      Done (match env_get name [(name_mac, [7; 8])] with
            | Some v => (0, bblit 0 (v ++ [0]) (zeros (lenZ out)), lenZ v)
            | None => (-1, zeros (lenZ out), dl)
            end) s''.
Proof.
  apply (private_data_roundtrip (W := part) sim_crc) with (kv := []) (value := [7; 8]);
    [reflexivity|apply part_fresh_holds|apply part_fresh_holds|entry_dec|cbn; lia].
Defined.
