(* ===== verification/OsalQueue.v ===== *)
(** * camera: the queue of buffers and commands

    [OSAL_Mutex.c] and [OSAL_Queue.c]: a ring of [OSAL_QElem] nodes on the heap,
    shared by the threads of the camera under a mutex.  The nodes, the mutexes
    and the queues are objects with addresses: using a freed one is [Undef],
    locking a mutex that is held is [Blocked].  POSIX's mutex calls and the
    allocator are the C library's. *)

From S2P Require Import Prelude CLib Os.

Inductive OMX_ERRORTYPE :=
| OMX_ErrorNone
| OMX_ErrorInsufficientResources
| OMX_ErrorUndefined
| OMX_ErrorBadParameter.
#[export] Instance OMX_ERRORTYPE_eq : EqDecision OMX_ERRORTYPE.
Proof. solve_decision. Defined.

Record OSAL_QElem := QElem { qdata : Z; qNext : Z }.
Record OSAL_QUEUE := Queue { first : Z; last : Z; numElem : Z; qMutex : Z; maxElem : Z }.

(** The objects by address; [true] for a mutex that is held. *)
Record osal_g := Osal {
  nodes : gmap Z OSAL_QElem;
  mutexes : gmap Z bool;
  queues : gmap Z OSAL_QUEUE;
}.

Definition with_nodes (f : gmap Z OSAL_QElem -> gmap Z OSAL_QElem) (g : osal_g) :=
  Osal (f (nodes g)) (mutexes g) (queues g).
Definition with_mutexes (f : gmap Z bool -> gmap Z bool) (g : osal_g) :=
  Osal (nodes g) (f (mutexes g)) (queues g).
Definition with_queues (f : gmap Z OSAL_QUEUE -> gmap Z OSAL_QUEUE) (g : osal_g) :=
  Osal (nodes g) (mutexes g) (f (queues g)).

Definition set_first (p : Z) (q : OSAL_QUEUE) := Queue p (last q) (numElem q) (qMutex q) (maxElem q).
Definition set_last (p : Z) (q : OSAL_QUEUE) := Queue (first q) p (numElem q) (qMutex q) (maxElem q).
Definition set_num (n : Z) (q : OSAL_QUEUE) := Queue (first q) (last q) n (qMutex q) (maxElem q).
Definition set_mutex (m : Z) (q : OSAL_QUEUE) := Queue (first q) (last q) (numElem q) m (maxElem q).
Definition set_max (n : Z) (q : OSAL_QUEUE) := Queue (first q) (last q) (numElem q) (qMutex q) n.
Definition set_data (d : Z) (n : OSAL_QElem) := QElem d (qNext n).
Definition set_next (p : Z) (n : OSAL_QElem) := QElem (qdata n) p.

Definition SIZEOF_QElem : Z := 8.
Definition SIZEOF_mutex : Z := 4.

Section Osal.
Context {W : Type} `{OsOps W}.
Variable mutex_init : W -> Z * W.          (* pthread_mutex_init *)
Abbreviation S := (mach W osal_g).

(** ** Objects *)

Definition the_queue (h : Z) : M S OSAL_QUEUE :=
  let* qs := get_glob queues in checked (qs !! h).
Definition put_queue (h : Z) (f : OSAL_QUEUE -> OSAL_QUEUE) : M S unit :=
  let* q := the_queue h in set_glob (with_queues (<[h := f q]>)).
Definition the_node (p : Z) : M S OSAL_QElem :=
  let* ns := get_glob nodes in checked (ns !! p).
Definition put_node (p : Z) (f : OSAL_QElem -> OSAL_QElem) : M S unit :=
  let* n := the_node p in set_glob (with_nodes (<[p := f n]>)).
(** [malloc] and [memset] of a node. *)
Definition new_node : M S Z :=
  let* p := c_malloc SIZEOF_QElem in
  (if p =? 0 then ret tt else set_glob (with_nodes (<[p := QElem 0 0]>))) ;;; ret p.
Definition free_node (p : Z) : M S unit :=
  let* n := the_node p in c_free p ;;; set_glob (with_nodes (delete p)).

(** ** OSAL_Mutex.c *)

Definition OSAL_MutexCreate : M S (OMX_ERRORTYPE * Z) :=
  let* p := c_malloc SIZEOF_mutex in
  if p =? 0 then ret (OMX_ErrorInsufficientResources, 0) else
  let* r := (fun s => let '(r, w) := mutex_init (world s) in
                      Done r (Mach w (heap_live s) (fds_live s) (glob s))) in
  if negb (r =? 0) then ret (OMX_ErrorUndefined, 0) else
  set_glob (with_mutexes (<[p := false]>)) ;;; ret (OMX_ErrorNone, p).

(** Destroying a mutex that is held is an error. *)
Definition OSAL_MutexTerminate (m : Z) : M S OMX_ERRORTYPE :=
  if m =? 0 then ret OMX_ErrorBadParameter else
  let* ms := get_glob mutexes in
  let* held := checked (ms !! m) in
  if held : bool then ret OMX_ErrorUndefined else
  set_glob (with_mutexes (delete m)) ;;; c_free m ;;; ret OMX_ErrorNone.

Definition OSAL_MutexLock (m : Z) : M S OMX_ERRORTYPE :=
  if m =? 0 then ret OMX_ErrorBadParameter else
  let* ms := get_glob mutexes in
  let* held := checked (ms !! m) in
  if held : bool then blocked else
  set_glob (with_mutexes (<[m := true]>)) ;;; ret OMX_ErrorNone.

Definition OSAL_MutexUnlock (m : Z) : M S OMX_ERRORTYPE :=
  if m =? 0 then ret OMX_ErrorBadParameter else
  let* ms := get_glob mutexes in
  let* held := checked (ms !! m) in
  set_glob (with_mutexes (<[m := false]>)) ;;; ret OMX_ErrorNone.

(** ** OSAL_Queue.c *)

(** [while (queue->first != NULL)]: the chain of at most [fuel] nodes. *)
Fixpoint free_chain (fuel : nat) (h : Z) : M S unit :=
  let* q := the_queue h in
  if first q =? 0 then ret tt else
  match fuel with
  | O => blocked
  | Datatypes.S fuel' =>
      let* n := the_node (first q) in
      free_node (first q) ;;; put_queue h (set_first (qNext n)) ;;; free_chain fuel' h
  end.

(** [for (i = 0; i < maxElem - 2; i++)] with [n] rounds left, [made] nodes made
    and the last of them; [None] when a node could not be had. *)
Fixpoint create_nodes (n made : nat) (h current : Z) : M S (option Z) :=
  match n with
  | O => ret (Some current)
  | Datatypes.S n' =>
      let* p := new_node in
      if p =? 0 then free_chain made h ;;; ret None
      else put_node current (set_next p) ;;; create_nodes n' (Datatypes.S made) h p
  end.

Definition OSAL_QueueCreate (h maxQueueElem : Z) : M S OMX_ERRORTYPE :=
  if h =? 0 then ret OMX_ErrorBadParameter else
  let* '(r, m) := OSAL_MutexCreate in
  if negb (bool_decide (r = OMX_ErrorNone)) then ret r else
  put_queue h (set_mutex m) ;;;
  put_queue h (set_max maxQueueElem) ;;;
  let* p := new_node in
  put_queue h (set_first p) ;;;
  if p =? 0 then ret OMX_ErrorInsufficientResources else
  put_queue h (set_last p) ;;;
  put_queue h (set_num 0) ;;;
  let* current := create_nodes (Z.to_nat (maxQueueElem - 2)) 1 h p in
  match current with
  | None => ret OMX_ErrorInsufficientResources
  | Some current =>
      let* q := the_queue h in
      put_node current (set_next (first q)) ;;; ret OMX_ErrorNone
  end.

(** [for (i = 0; i < maxElem - 2; i++)] of [OSAL_QueueTerminate]. *)
Fixpoint free_nodes (n : nat) (h : Z) : M S unit :=
  match n with
  | O => ret tt
  | Datatypes.S n' =>
      let* q := the_queue h in
      let* e := the_node (first q) in
      free_node (first q) ;;; put_queue h (set_first (qNext e)) ;;; free_nodes n' h
  end.

Definition OSAL_QueueTerminate (h : Z) : M S OMX_ERRORTYPE :=
  if h =? 0 then ret OMX_ErrorBadParameter else
  let* q := the_queue h in
  free_nodes (Z.to_nat (maxElem q - 2)) h ;;;
  let* q := the_queue h in
  (if first q =? 0 then ret tt else free_node (first q) ;;; put_queue h (set_first 0)) ;;;
  OSAL_MutexTerminate (qMutex q).

(** [queue->last->data = data; queue->last = queue->last->qNext;
    queue->numElem++]. *)
Definition link_last (h data : Z) : M S unit :=
  let* q := the_queue h in
  put_node (last q) (set_data data) ;;;
  let* n := the_node (last q) in
  put_queue h (set_last (qNext n)) ;;;
  put_queue h (set_num (s32 (numElem q + 1))).

Definition OSAL_Queue (h data : Z) : M S Z :=
  if h =? 0 then ret (-1) else
  let* q := the_queue h in
  OSAL_MutexLock (qMutex q) ;;;
  let* q := the_queue h in
  let* n := the_node (last q) in
  if negb (qdata n =? 0) || (maxElem q <=? numElem q) then
    OSAL_MutexUnlock (qMutex q) ;;; ret (-1)
  else
    link_last h data ;;; OSAL_MutexUnlock (qMutex q) ;;; ret 0.

Definition OSAL_Dequeue (h : Z) : M S Z :=
  if h =? 0 then ret 0 else
  let* q := the_queue h in
  OSAL_MutexLock (qMutex q) ;;;
  let* q := the_queue h in
  let* n := the_node (first q) in
  if (qdata n =? 0) || (numElem q <=? 0) then
    OSAL_MutexUnlock (qMutex q) ;;; ret 0
  else
    put_node (first q) (set_data 0) ;;;
    put_queue h (set_first (qNext n)) ;;;
    put_queue h (set_num (s32 (numElem q - 1))) ;;;
    OSAL_MutexUnlock (qMutex q) ;;; ret (qdata n).

Definition OSAL_GetElemNum (h : Z) : M S Z :=
  if h =? 0 then ret (-1) else
  let* q := the_queue h in
  OSAL_MutexLock (qMutex q) ;;;
  let* q := the_queue h in
  OSAL_MutexUnlock (qMutex q) ;;; ret (numElem q).

Definition OSAL_SetElemNum (h ElemNum : Z) : M S Z :=
  if h =? 0 then ret (-1) else
  let* q := the_queue h in
  OSAL_MutexLock (qMutex q) ;;;
  put_queue h (set_num ElemNum) ;;;
  OSAL_MutexUnlock (qMutex q) ;;; ret ElemNum.

(** The search of [OSAL_QueueSetElem]: every round looks at the same two
    nodes. *)
Fixpoint same_elem (n : nat) (h data : Z) : M S bool :=
  match n with
  | O => ret false
  | Datatypes.S n' =>
      let* q := the_queue h in
      let* a := the_node (first q) in
      let* b := the_node (last q) in
      if (qdata a =? data) || (qdata b =? data) then ret true else same_elem n' h data
  end.

Definition OSAL_QueueSetElem (h data : Z) : M S Z :=
  if h =? 0 then ret (-1) else
  let* q := the_queue h in
  OSAL_MutexLock (qMutex q) ;;;
  let* q := the_queue h in
  let* n := the_node (last q) in
  if negb (qdata n =? 0) || (maxElem q <=? numElem q) then
    OSAL_MutexUnlock (qMutex q) ;;; ret (-1)
  else
    let* same := same_elem (Z.to_nat (numElem q)) h data in
    if same : bool then OSAL_MutexUnlock (qMutex q) ;;; ret 0
    else link_last h data ;;; OSAL_MutexUnlock (qMutex q) ;;; ret 0.
End Osal.
