(* ===== verification/OsalTheorems.v ===== *)
(** * camera: the queues are bounded FIFOs

    Any number of queues share the heap; what a queue owns is its mutex and its
    ring of nodes.  Under that invariant the operations of [OSAL_Queue.c] behave,
    for every interleaving of calls on every queue, as lists of bounded length. *)

From S2P Require Import Prelude CLib Os OsalQueue.

(** ** What a queue is made of *)

(** The nodes [ns], the oldest element's first, hold the elements [vs]. *)
Definition ring_at (nm : gmap Z OSAL_QElem) (ns vs : list Z) : Prop :=
  forall i a, ns !! i = Some a ->
    exists n, ns !! ((i + 1) mod length ns)%nat = Some n /\ nm !! a = Some (QElem (nth i vs 0) n).

(** The elements a queue made for [mx] can hold. *)
Definition capacity (mx : Z) : Z := if mx <=? 0 then 0 else Z.max 1 (mx - 1).

Record queue_ok (g : osal_g) (q : OSAL_QUEUE) (ns vs : list Z) : Prop := {
  qo_ring : ring_at (nodes g) ns vs;
  qo_nodup : NoDup ns;
  qo_pos : Forall (fun a => 0 < a) ns;
  qo_size : lenZ ns = Z.max 1 (maxElem q - 1);
  qo_first : ns !! 0%nat = Some (first q);
  qo_last : ns !! (length vs mod length ns)%nat = Some (last q);
  qo_num : numElem q = lenZ vs;
  qo_cap : lenZ vs <= capacity (maxElem q);
  qo_data : Forall (fun d => d <> 0) vs;
  qo_max : maxElem q < 2147483648;
  qo_mutex : 0 < qMutex q;
  qo_free : mutexes g !! qMutex q = Some false;
}.

Lemma capacity_le mx : capacity mx <= Z.max 1 (mx - 1).
Proof. unfold capacity. destruct (Z.leb_spec mx 0); lia. Qed.

Lemma queue_ok_frame g g' q ns vs :
  (forall a, a ∈ ns -> nodes g' !! a = nodes g !! a) ->
  mutexes g' !! qMutex q = mutexes g !! qMutex q ->
  queue_ok g q ns vs -> queue_ok g' q ns vs.
Proof.
  intros Hn Hm []. split; try done; [|by rewrite Hm]. intros i a Ha.
  destruct (qo_ring0 i a Ha) as (n & H1 & H2). exists n. split; [done|].
  rewrite Hn; [done|]. by eapply list_elem_of_lookup_2.
Qed.

Section QueueOk.
Context (g : osal_g) (q : OSAL_QUEUE) (ns vs : list Z) (Hok : queue_ok g q ns vs).

Lemma qo_length : (1 <= length ns)%nat /\ (length vs <= length ns)%nat.
Proof.
  destruct Hok. pose proof (capacity_le (maxElem q)). unfold lenZ in *. lia.
Qed.

Lemma first_node : exists n, ns !! (1 mod length ns)%nat = Some n /\
  nodes g !! first q = Some (QElem (nth 0 vs 0) n).
Proof. destruct Hok. by apply (qo_ring0 0%nat). Qed.

Lemma last_node : exists n, ns !! ((length vs + 1) mod length ns)%nat = Some n /\
  nodes g !! last q = Some (QElem (nth (length vs mod length ns) vs 0) n).
Proof.
  destruct qo_length. destruct (qo_ring _ _ _ _ Hok _ _ (qo_last _ _ _ _ Hok)) as (n & H1 & H2).
  exists n. split; [|done]. by rewrite Nat.Div0.add_mod_idemp_l in H1.
Qed.

(** The test of [OSAL_Queue]: is there no room? *)
Lemma full_test :
  negb (nth (length vs mod length ns) vs 0 =? 0) || (maxElem q <=? numElem q) =
  negb (lenZ vs <? capacity (maxElem q)).
Proof.
  destruct qo_length as [H1 H2], Hok. rewrite qo_num0.
  unfold capacity, lenZ in *. destruct (decide (length vs = length ns)) as [E|E].
  - rewrite E, Nat.Div0.mod_same. destruct vs as [|v vs']; [cbn in E; lia|].
    inv qo_data0. cbn [nth]. rewrite (proj2 (Z.eqb_neq v 0)) by done. cbn [negb orb].
    destruct (Z.leb_spec (maxElem q) 0); symmetry; apply negb_true_iff, Z.ltb_ge; lia.
  - rewrite Nat.mod_small by lia. rewrite nth_overflow by lia. cbn [Z.eqb negb orb].
    destruct (Z.leb_spec (maxElem q) 0), (Z.leb_spec (maxElem q) (Z.of_nat (length vs)));
      symmetry; (apply negb_true_iff, Z.ltb_ge; lia) || (apply negb_false_iff, Z.ltb_lt; lia).
Qed.

Lemma room_length : lenZ vs < capacity (maxElem q) -> (length vs < length ns)%nat.
Proof. destruct Hok. pose proof (capacity_le (maxElem q)). unfold lenZ in *. lia. Qed.

Lemma put_ok d n :
  lenZ vs < capacity (maxElem q) -> d <> 0 ->
  ns !! ((length vs + 1) mod length ns)%nat = Some n ->
  forall qs', queue_ok (Osal (<[last q := QElem d n]> (nodes g)) (mutexes g) qs')
    (Queue (first q) n (numElem q + 1) (qMutex q) (maxElem q)) ns (vs ++ [d]).
Proof.
  intros Hroom Hd Hn qs'. pose proof (room_length Hroom) as Hlt. destruct Hok.
  rewrite Nat.mod_small in qo_last0 by done.
  assert (length (vs ++ [d]) = length vs + 1)%nat as Hl by (rewrite length_app; cbn; lia).
  split; cbn [first last numElem qMutex maxElem nodes mutexes]; try done.
  - intros i a Ha. destruct (qo_ring0 i a Ha) as (m & H1 & H2). exists m. split; [done|].
    destruct (decide (i = length vs)) as [->|Hi].
    + rewrite qo_last0 in Ha. injection Ha as <-. rewrite H1 in Hn. injection Hn as ->.
      rewrite lookup_insert_eq, app_nth2, Nat.sub_diag by lia. done.
    + rewrite lookup_insert_ne.
      * rewrite H2. do 2 f_equal. destruct (decide (i < length vs)%nat); [by rewrite app_nth1|].
        rewrite !nth_overflow; [done|lia..].
      * intros E. apply Hi. eapply NoDup_lookup; [done|done|]. by rewrite qo_last0, E.
  - by rewrite Hl.
  - unfold lenZ in *. lia.
  - unfold lenZ in *. lia.
  - apply Forall_app. auto.
Qed.

Lemma get_ok d vs' n :
  vs = d :: vs' -> ns !! (1 mod length ns)%nat = Some n ->
  forall qs', queue_ok (Osal (<[first q := QElem 0 n]> (nodes g)) (mutexes g) qs')
    (Queue n (last q) (numElem q - 1) (qMutex q) (maxElem q)) (tail ns ++ take 1 ns) vs'.
Proof.
  intros E Hn qs'. destruct qo_length as [Hl1 Hl2]. destruct Hok.
  set (N := length ns) in *. rewrite E in *. cbn [length] in Hl2.
  assert (length (tail ns ++ take 1 ns) = N) as HN
    by (rewrite length_app, length_take; destruct ns; cbn in *; lia).
  assert (forall i, (i < N)%nat -> (tail ns ++ take 1 ns) !! i = ns !! ((i + 1) mod N)%nat) as Hrot.
  { intros i Hi. destruct ns as [|a t] eqn:Et; [cbn in *; lia|]. cbn [tail take] in *. rewrite take_0.
    cbn in HN. destruct (decide (i < length t)%nat).
    - rewrite lookup_app_l, Nat.mod_small by (subst N; cbn; lia). by rewrite Nat.add_1_r.
    - assert (i = length t) as -> by (subst N; cbn in *; lia).
      rewrite lookup_app_r, Nat.sub_diag by lia. replace (length t + 1)%nat with N by (subst N; cbn; lia).
      by rewrite Nat.Div0.mod_same. }
  assert (forall i a, ns !! i = Some a -> (i < N)%nat) as Hlt by (intros; by eapply lookup_lt_Some).
  split; cbn [first last numElem qMutex maxElem nodes mutexes]; try done.
  - intros i a Ha. rewrite HN. assert (i < N)%nat as Hi by (rewrite <- HN; by eapply lookup_lt_Some).
    rewrite Hrot in Ha by done. destruct (qo_ring0 _ _ Ha) as (m & H1 & H2). exists m. fold N in H1.
    rewrite Hrot by (apply Nat.mod_upper_bound; lia). split; [done|].
    destruct (decide (i = N - 1)%nat) as [->|Hi'].
    + replace (N - 1 + 1)%nat with N in * by lia. rewrite Nat.Div0.mod_same in *.
      rewrite qo_first0 in Ha. injection Ha as <-. rewrite lookup_insert_eq. cbn [plus] in H1.
      rewrite Hn in H1. injection H1 as ->. rewrite nth_overflow by lia. done.
    + rewrite Nat.mod_small in * by lia. rewrite lookup_insert_ne.
      * rewrite H2. by rewrite Nat.add_1_r.
      * intros Ef. rewrite <- Ef in Ha. pose proof (NoDup_lookup _ _ _ _ qo_nodup0 qo_first0 Ha). lia.
  - assert (tail ns ++ take 1 ns ≡ₚ ns) as -> by (destruct ns; [done|]; cbn; by rewrite take_0, Permutation_app_comm).
    done.
  - assert (tail ns ++ take 1 ns ≡ₚ ns) as -> by (destruct ns; [done|]; cbn; by rewrite take_0, Permutation_app_comm).
    done.
  - unfold lenZ in *. by rewrite HN.
  - by rewrite Hrot by lia.
  - rewrite HN, Hrot by (apply Nat.mod_upper_bound; lia). rewrite Nat.Div0.add_mod_idemp_l.
    cbn [length] in qo_last0. by rewrite Nat.add_1_r.
  - rewrite lenZ_cons in *. lia.
  - rewrite lenZ_cons in *. lia.
  - by inv qo_data0.
Qed.
End QueueOk.

(** ** All the queues of the heap *)

(** The queues by address: what each was made for and what it holds. *)
Abbreviation fifos := (gmap Z (Z * list Z)).

Definition osal_inv (g : osal_g) (S : fifos) : Prop :=
  exists R : gmap Z (list Z),
    (forall h, is_Some (R !! h) <-> is_Some (S !! h)) /\
    (forall h mx vs, S !! h = Some (mx, vs) -> h <> 0 /\ exists q ns,
      queues g !! h = Some q /\ maxElem q = mx /\ R !! h = Some (qMutex q :: ns) /\ queue_ok g q ns vs) /\
    (forall h1 h2 l1 l2, h1 <> h2 -> R !! h1 = Some l1 -> R !! h2 = Some l2 -> forall a, a ∈ l1 -> a ∉ l2).

Lemma osal_inv_open g S h mx vs :
  osal_inv g S -> S !! h = Some (mx, vs) ->
  h <> 0 /\ exists q ns, queues g !! h = Some q /\ maxElem q = mx /\ queue_ok g q ns vs /\
    forall nm' q' ns' vs',
      (forall a, a ∉ ns -> nm' !! a = nodes g !! a) ->
      qMutex q' = qMutex q -> maxElem q' = mx -> ns' ≡ₚ ns ->
      queue_ok (Osal nm' (mutexes g) (<[h := q']> (queues g))) q' ns' vs' ->
      osal_inv (Osal nm' (mutexes g) (<[h := q']> (queues g))) (<[h := (mx, vs')]> S).
Proof.
  intros (R & Hd & Hq & Hsep) HS. destruct (Hq _ _ _ HS) as (Hh & q & ns & H1 & H2 & H3 & H4).
  split; [done|]. exists q, ns. split; [done|]. split; [done|]. split; [done|].
  intros nm' q' ns' vs' Hn Hm Hmx Hp Hok.
  exists (<[h := qMutex q' :: ns']> R). split; [|split].
  - intros h'. rewrite !lookup_insert. case_decide; [by split; eauto|apply Hd].
  - intros h' mx' vs1 HS'. cbn [queues]. rewrite lookup_insert in HS'. case_decide as E.
    + injection HS' as <- <-. subst h'. split; [done|]. exists q', ns'. by rewrite !lookup_insert_eq.
    + destruct (Hq _ _ _ HS') as (Hh' & q1 & ns1 & G1 & G2 & G3 & G4). split; [done|]. exists q1, ns1.
      rewrite !lookup_insert_ne by done. split; [done|]. split; [done|]. split; [done|].
      apply (queue_ok_frame g); [|done|exact G4]. cbn [nodes]. intros a Ha. apply Hn. intros Ha'.
      apply (Hsep _ _ _ _ E H3 G3 a); by apply list_elem_of_further.
  - assert (forall a, a ∈ qMutex q' :: ns' <-> a ∈ qMutex q :: ns) as Hel
      by (intros a; rewrite Hm; by rewrite Hp).
    intros h1 h2 l1 l2 Hne. rewrite !lookup_insert. case_decide; case_decide; intros E1 E2 a; simplify_eq.
    + rewrite Hel. by apply (Hsep h1 h2).
    + rewrite Hel. intros Ha. by apply (Hsep h1 h2 l1 (qMutex q :: ns)).
    + by apply (Hsep h1 h2).
Qed.

(** ** The operations on objects that are there *)

Section Runs.
Context {W : Type} `{OsOps W}.
Implicit Types (s : mach W osal_g).

Lemma the_queue_run {B} h (k : OSAL_QUEUE -> M _ B) s q :
  queues (glob s) !! h = Some q -> bind (the_queue h) k s = k q s.
Proof. intros E. unfold the_queue. mrun. rewrite E. by mrun. Qed.
Lemma put_queue_run {B} h f (k : unit -> M _ B) s q :
  queues (glob s) !! h = Some q ->
  bind (put_queue h f) k s = k tt (Mach (world s) (heap_live s) (fds_live s)
    (with_queues (<[h := f q]>) (glob s))).
Proof. intros E. unfold put_queue. mrun. erewrite the_queue_run by exact E. by mrun. Qed.
Lemma the_node_run {B} p (k : OSAL_QElem -> M _ B) s n :
  nodes (glob s) !! p = Some n -> bind (the_node p) k s = k n s.
Proof. intros E. unfold the_node. mrun. rewrite E. by mrun. Qed.
Lemma put_node_run {B} p f (k : unit -> M _ B) s n :
  nodes (glob s) !! p = Some n ->
  bind (put_node p f) k s = k tt (Mach (world s) (heap_live s) (fds_live s)
    (with_nodes (<[p := f n]>) (glob s))).
Proof. intros E. unfold put_node. mrun. erewrite the_node_run by exact E. by mrun. Qed.
Lemma free_node_run {B} p (k : unit -> M _ B) s n :
  nodes (glob s) !! p = Some n -> 0 < p ->
  bind (free_node p) k s = k tt (Mach (world s) (heap_live s - 1) (fds_live s)
    (with_nodes (delete p) (glob s))).
Proof.
  intros E Hp. unfold free_node. mrun. erewrite the_node_run by exact E. mrun.
  mcall (by apply c_free_ok). by mrun.
Qed.
Lemma lock_run {B} m (k : OMX_ERRORTYPE -> M _ B) s :
  0 < m -> mutexes (glob s) !! m = Some false ->
  bind (OSAL_MutexLock m) k s = k OMX_ErrorNone (Mach (world s) (heap_live s) (fds_live s)
    (with_mutexes (<[m := true]>) (glob s))).
Proof.
  intros Hm E. unfold OSAL_MutexLock. rewrite (proj2 (Z.eqb_neq m 0)) by lia. mrun. rewrite E. by mrun.
Qed.
Lemma unlock_run {B} m (k : OMX_ERRORTYPE -> M _ B) s :
  0 < m -> is_Some (mutexes (glob s) !! m) ->
  bind (OSAL_MutexUnlock m) k s = k OMX_ErrorNone (Mach (world s) (heap_live s) (fds_live s)
    (with_mutexes (<[m := false]>) (glob s))).
Proof.
  intros Hm [b E]. unfold OSAL_MutexUnlock. rewrite (proj2 (Z.eqb_neq m 0)) by lia. mrun. rewrite E. by mrun.
Qed.

(** A lock taken and given back is as before. *)
Lemma relock (ms : gmap Z bool) m : ms !! m = Some false -> <[m := false]> (<[m := true]> ms) = ms.
Proof. intros E. by rewrite insert_insert_eq, insert_id. Qed.
End Runs.

Ltac gs := cbv beta iota delta [with_nodes with_mutexes with_queues set_first set_last set_num set_data
  set_next]; cbn [nodes mutexes queues world heap_live fds_live glob first last numElem qMutex maxElem
  qdata qNext].
(** [look] finds a queue or a node just written. *)
Ltac look := gs; rewrite ?lookup_insert_eq; reflexivity || eassumption.

Section Operations.
Context {W : Type} `{OsOps W}.
Context (s : mach W osal_g) (h : Z) (q : OSAL_QUEUE) (ns vs : list Z).
Context (Hh : h <> 0) (Hq : queues (glob s) !! h = Some q) (Hok : queue_ok (glob s) q ns vs).

Abbreviation upd nm q' :=
  (Mach (world s) (heap_live s) (fds_live s) (Osal nm (mutexes (glob s)) (<[h := q']> (queues (glob s))))).

Lemma num_small d : (d = 1 \/ d = -1) -> lenZ vs + d <= capacity (maxElem q) -> 0 <= lenZ vs + d ->
  s32 (numElem q + d) = numElem q + d.
Proof.
  intros Hd H1 H2. destruct Hok. rewrite qo_num0. apply s32_small. unfold capacity in *.
  destruct (Z.leb_spec (maxElem q) 0); lia.
Qed.

(** The element goes behind the last one; the mutex is held. *)
Lemma link_run {B} d n (k : unit -> M _ B) :
  lenZ vs < capacity (maxElem q) -> nodes (glob s) !! last q = Some (QElem 0 n) ->
  bind (link_last h d) k (Mach (world s) (heap_live s) (fds_live s)
      (with_mutexes (<[qMutex q := true]>) (glob s))) =
  k tt (Mach (world s) (heap_live s) (fds_live s)
    (Osal (<[last q := QElem d n]> (nodes (glob s))) (<[qMutex q := true]> (mutexes (glob s)))
      (<[h := Queue (first q) n (numElem q + 1) (qMutex q) (maxElem q)]> (queues (glob s))))).
Proof.
  intros Hroom Hn. pose proof (lenZ_nonneg vs).
  unfold link_last. mrun. erewrite the_queue_run by look.
  mrun. erewrite put_node_run by look. gs. mrun. erewrite the_node_run by look. mrun. erewrite put_queue_run by look. mrun. erewrite put_queue_run by look. gs.
  rewrite insert_insert_eq, num_small by (lia || auto). done.
Qed.

Lemma queue_run d :
  OSAL_Queue h d s =
  if lenZ vs <? capacity (maxElem q) then
    match nodes (glob s) !! last q with
    | Some n => Done 0 (upd (<[last q := QElem d (qNext n)]> (nodes (glob s)))
        (Queue (first q) (qNext n) (numElem q + 1) (qMutex q) (maxElem q)))
    | None => Undef
    end
  else Done (-1) s.
Proof.
  destruct (last_node _ _ _ _ Hok) as (n & _ & Hn).
  unfold OSAL_Queue. rewrite (proj2 (Z.eqb_neq h 0)) by done. mrun. erewrite the_queue_run by exact Hq. pose proof (qo_mutex _ _ _ _ Hok). pose proof (qo_free _ _ _ _ Hok).
  mrun. erewrite lock_run by done. mrun. erewrite the_queue_run by look. mrun. erewrite the_node_run by look. gs.
  rewrite (full_test _ _ _ _ Hok). destruct (Z.ltb_spec (lenZ vs) (capacity (maxElem q))); cbn [negb].
  - pose proof (room_length _ _ _ _ Hok ltac:(done)). rewrite nth_overflow in Hn
      by (rewrite Nat.mod_small by done; done).
    erewrite link_run by done. mrun. erewrite unlock_run by (gs; rewrite ?lookup_insert_eq; eauto).
    rewrite Hn. gs. by rewrite relock.
  - mrun. erewrite unlock_run by (gs; rewrite ?lookup_insert_eq; eauto). gs. rewrite relock by done.
    by destruct s as [? ? ? []].
Qed.

Lemma dequeue_run :
  OSAL_Dequeue h s =
  match vs with
  | [] => Done 0 s
  | d :: _ =>
      match nodes (glob s) !! first q with
      | Some n => Done d (upd (<[first q := QElem 0 (qNext n)]> (nodes (glob s)))
          (Queue (qNext n) (last q) (numElem q - 1) (qMutex q) (maxElem q)))
      | None => Undef
      end
  end.
Proof.
  destruct (first_node _ _ _ _ Hok) as (n & _ & Hn).
  unfold OSAL_Dequeue. rewrite (proj2 (Z.eqb_neq h 0)) by done. mrun. erewrite the_queue_run by exact Hq. pose proof (qo_mutex _ _ _ _ Hok). pose proof (qo_free _ _ _ _ Hok).
  mrun. erewrite lock_run by done. mrun. erewrite the_queue_run by look. mrun. erewrite the_node_run by look. gs.
  rewrite (qo_num _ _ _ _ Hok). pose proof (qo_data _ _ _ _ Hok) as Hd. destruct vs as [|d vs'] eqn:E.
  - cbn [nth Z.eqb orb].
    mrun. erewrite unlock_run by (gs; rewrite ?lookup_insert_eq; eauto). gs. rewrite relock by done.
    by destruct s as [? ? ? []].
  - cbn [nth] in *. inv Hd. rewrite (proj2 (Z.eqb_neq d 0)) by done.
    rewrite lenZ_cons. pose proof (lenZ_nonneg vs'). rewrite (proj2 (Z.leb_gt _ 0)) by lia. cbn [orb].
    mrun. erewrite put_node_run by look. gs. mrun. erewrite put_queue_run by look. mrun.
    mrun. erewrite put_queue_run by look. gs. mrun. erewrite unlock_run by (gs; rewrite ?lookup_insert_eq; eauto).
    rewrite Hn. gs. rewrite relock, insert_insert_eq by done.
    pose proof (qo_cap _ _ _ _ Hok) as Hc. pose proof (qo_max _ _ _ _ Hok). rewrite lenZ_cons in Hc.
    rewrite s32_small by (unfold capacity in *; destruct (Z.leb_spec (maxElem q) 0); lia). done.
Qed.

Lemma num_run : OSAL_GetElemNum h s = Done (lenZ vs) s.
Proof.
  unfold OSAL_GetElemNum. rewrite (proj2 (Z.eqb_neq h 0)) by done. mrun. erewrite the_queue_run by exact Hq. pose proof (qo_mutex _ _ _ _ Hok). pose proof (qo_free _ _ _ _ Hok).
  mrun. erewrite lock_run by done. mrun. erewrite the_queue_run by look.
  mrun. erewrite unlock_run by (gs; rewrite ?lookup_insert_eq; eauto). gs. rewrite relock by done.
  rewrite (qo_num _ _ _ _ Hok). by destruct s as [? ? ? []].
Qed.
End Operations.

Section SetElem.
Context {W : Type} `{OsOps W}.

Lemma same_run (s : mach W osal_g) h q a b d n :
  queues (glob s) !! h = Some q -> nodes (glob s) !! first q = Some a -> nodes (glob s) !! last q = Some b ->
  same_elem n h d s =
  Done (match n with O => false | _ => (qdata a =? d) || (qdata b =? d) end) s.
Proof.
  intros Hq Ha Hb. induction n as [|n IH]; [done|]. cbn [same_elem].
  erewrite the_queue_run by done. erewrite the_node_run by done. erewrite the_node_run by done.
  destruct (_ || _) eqn:E; [done|]. rewrite IH. by destruct n.
Qed.

Lemma set_elem_run (s : mach W osal_g) h q ns vs d :
  h <> 0 -> queues (glob s) !! h = Some q -> queue_ok (glob s) q ns vs -> d <> 0 ->
  OSAL_QueueSetElem h d s =
  if (lenZ vs <? capacity (maxElem q)) && bool_decide (head vs = Some d) then Done 0 s
  else OSAL_Queue h d s.
Proof.
  intros Hh Hq Hok Hd. rewrite (queue_run s h q ns vs Hh Hq Hok d).
  destruct (last_node _ _ _ _ Hok) as (n & _ & Hn).
  destruct (first_node _ _ _ _ Hok) as (m & _ & Hm).
  unfold OSAL_QueueSetElem. rewrite (proj2 (Z.eqb_neq h 0)) by done. mrun.
  erewrite the_queue_run by exact Hq. pose proof (qo_mutex _ _ _ _ Hok). pose proof (qo_free _ _ _ _ Hok).
  mrun. erewrite lock_run by done. mrun. erewrite the_queue_run by look. mrun. erewrite the_node_run by look. gs.
  rewrite (full_test _ _ _ _ Hok). destruct (Z.ltb_spec (lenZ vs) (capacity (maxElem q))); cbn [negb andb].
  - pose proof (room_length _ _ _ _ Hok ltac:(done)) as Hlt. rewrite nth_overflow in Hn
      by (rewrite Nat.mod_small by done; done).
    replace (Z.to_nat (numElem q)) with (length vs) by (rewrite (qo_num _ _ _ _ Hok); unfold lenZ; lia).
    mcall (eapply same_run; [look|look|look]). gs. rewrite (proj2 (Z.eqb_neq 0 d)) by done.
    rewrite orb_false_r.
    assert (match length vs with O => false | _ => nth 0 vs 0 =? d end = bool_decide (head vs = Some d)) as ->.
    { destruct vs as [|v vs']; [done|]. cbn [length nth head]. symmetry.
      destruct (Z.eqb_spec v d); [by apply bool_decide_eq_true; f_equal|].
      apply bool_decide_eq_false. congruence. }
    destruct (bool_decide _); mrun.
    + erewrite unlock_run by (gs; rewrite ?lookup_insert_eq; eauto). gs. rewrite relock by done.
      by destruct s as [? ? ? []].
    + erewrite (link_run s h q ns vs) by done. mrun.
      erewrite unlock_run by (gs; rewrite ?lookup_insert_eq; eauto). rewrite Hn. gs. by rewrite relock.
  - mrun. erewrite unlock_run by (gs; rewrite ?lookup_insert_eq; eauto). gs. rewrite relock by done.
    by destruct s as [? ? ? []].
Qed.
End SetElem.

(** ** The specification: a bounded FIFO *)

Inductive q_op :=
| QPut (h data : Z)        (* OSAL_Queue *)
| QSet (h data : Z)        (* OSAL_QueueSetElem *)
| QGet (h : Z)             (* OSAL_Dequeue *)
| QNum (h : Z).            (* OSAL_GetElemNum *)

Definition q_handle (o : q_op) : Z :=
  match o with QPut h _ | QSet h _ | QGet h | QNum h => h end.

(** The result and the queue after the operation; an element equal to the oldest
    one is not put twice by [QSet]. *)
Definition fifo_op (o : q_op) (mx : Z) (vs : list Z) : Z * list Z :=
  match o with
  | QPut _ d => if lenZ vs <? capacity mx then (0, vs ++ [d]) else (-1, vs)
  | QSet _ d =>
      if lenZ vs <? capacity mx then (0, if bool_decide (head vs = Some d) then vs else vs ++ [d])
      else (-1, vs)
  | QGet _ => match vs with [] => (0, []) | d :: vs' => (d, vs') end
  | QNum _ => (lenZ vs, vs)
  end.

Definition q_spec (o : q_op) (S : fifos) : Z * fifos :=
  match S !! q_handle o with
  | Some (mx, vs) => let '(r, vs') := fifo_op o mx vs in (r, <[q_handle o := (mx, vs')]> S)
  | None => (-1, S)
  end.
Fixpoint q_specs (os : list q_op) (S : fifos) : list Z * fifos :=
  match os with
  | [] => ([], S)
  | o :: os' => let '(r, S') := q_spec o S in let '(rs, S'') := q_specs os' S' in (r :: rs, S'')
  end.

(** The queue was made, and NULL is not an element. *)
Definition q_ok (S : fifos) (o : q_op) : Prop :=
  is_Some (S !! q_handle o) /\
  match o with QPut _ d | QSet _ d => d <> 0 | _ => True end.

Section Refinement.
Context {W : Type} `{OsOps W}.
Implicit Types (s : mach W osal_g).

Definition q_exec (o : q_op) : M (mach W osal_g) Z :=
  match o with
  | QPut h d => OSAL_Queue h d
  | QSet h d => OSAL_QueueSetElem h d
  | QGet h => OSAL_Dequeue h
  | QNum h => OSAL_GetElemNum h
  end.
Fixpoint q_execs (os : list q_op) : M (mach W osal_g) (list Z) :=
  match os with
  | [] => ret []
  | o :: os' => let* r := q_exec o in let* rs := q_execs os' in ret (r :: rs)
  end.

Lemma inv_same (g : osal_g) S h mx vs :
  osal_inv g S -> S !! h = Some (mx, vs) -> osal_inv g (<[h := (mx, vs)]> S).
Proof. intros Hi HS. by rewrite insert_id. Qed.

Lemma put_refines s S h mx vs d :
  osal_inv (glob s) S -> S !! h = Some (mx, vs) -> d <> 0 ->
  exists g', OSAL_Queue h d s =
      Done (if lenZ vs <? capacity mx then 0 else -1) (Mach (world s) (heap_live s) (fds_live s) g') /\
    osal_inv g' (<[h := (mx, if lenZ vs <? capacity mx then vs ++ [d] else vs)]> S).
Proof.
  intros Hi HS Hd. destruct (osal_inv_open _ _ _ _ _ Hi HS) as (Hh & q & ns & Hq & Hmx & Hok & Hclose).
  rewrite (queue_run s h q ns vs Hh Hq Hok), Hmx.
  destruct (Z.ltb_spec (lenZ vs) (capacity mx)).
  - destruct (last_node _ _ _ _ Hok) as (n & Hn & ->). eexists. split; [reflexivity|].
    cbn [qNext]. rewrite <- Hmx in *. apply Hclose with ns; try done.
    + intros a Ha. apply lookup_insert_ne. intros <-. apply Ha.
      eapply list_elem_of_lookup_2, (qo_last _ _ _ _ Hok).
    + by apply (put_ok (glob s)).
  - exists (glob s). split; [by destruct s|]. by apply inv_same.
Qed.

Lemma get_refines s S h mx vs :
  osal_inv (glob s) S -> S !! h = Some (mx, vs) ->
  exists g', OSAL_Dequeue h s = Done (hd 0 vs) (Mach (world s) (heap_live s) (fds_live s) g') /\
    osal_inv g' (<[h := (mx, tail vs)]> S).
Proof.
  intros Hi HS. destruct (osal_inv_open _ _ _ _ _ Hi HS) as (Hh & q & ns & Hq & Hmx & Hok & Hclose).
  rewrite (dequeue_run s h q ns vs Hh Hq Hok). destruct vs as [|d vs'].
  - exists (glob s). split; [by destruct s|]. by apply inv_same.
  - destruct (first_node _ _ _ _ Hok) as (n & Hn & ->). eexists. split; [reflexivity|].
    cbn [qNext]. apply Hclose with (tail ns ++ take 1 ns); try done.
    + intros a Ha. apply lookup_insert_ne. intros <-. apply Ha.
      eapply list_elem_of_lookup_2, (qo_first _ _ _ _ Hok).
    + destruct ns; [done|]. cbn. by rewrite take_0, Permutation_app_comm.
    + by apply (get_ok (glob s) q ns (d :: vs') Hok d).
Qed.

Lemma q_exec_refines o s S :
  osal_inv (glob s) S -> q_ok S o ->
  exists g', q_exec o s = Done (q_spec o S).1 (Mach (world s) (heap_live s) (fds_live s) g') /\
    osal_inv g' (q_spec o S).2.
Proof.
  intros Hi [[[mx vs] HS] Hd]. unfold q_spec. rewrite HS. destruct o as [h d|h d|h|h]; cbn [q_handle fifo_op] in *.
  - destruct (put_refines s S h mx vs d Hi HS Hd) as (g' & E & Hi'). exists g'. cbn [q_exec]. rewrite E.
    by destruct (lenZ vs <? capacity mx).
  - destruct (osal_inv_open _ _ _ _ _ Hi HS) as (Hh & q & ns & Hq & Hmx & Hok & _).
    cbn [q_exec]. rewrite (set_elem_run s h q ns vs d Hh Hq Hok Hd), Hmx.
    destruct (put_refines s S h mx vs d Hi HS Hd) as (g' & E & Hi').
    destruct (lenZ vs <? capacity mx); cbn [andb]; [destruct (bool_decide _)|].
    + exists (glob s). split; [by destruct s|]. by apply inv_same.
    + by exists g'.
    + by exists g'.
  - destruct (get_refines s S h mx vs Hi HS) as (g' & E & Hi'). exists g'. cbn [q_exec]. rewrite E.
    by destruct vs.
  - destruct (osal_inv_open _ _ _ _ _ Hi HS) as (Hh & q & ns & Hq & Hmx & Hok & _).
    exists (glob s). cbn [q_exec]. rewrite (num_run s h q ns vs Hh Hq Hok). split; [by destruct s|].
    by apply inv_same.
Qed.

Lemma q_spec_keeps o S S' h : S' = (q_spec o S).2 -> is_Some (S !! h) -> is_Some (S' !! h).
Proof.
  intros -> Hs. unfold q_spec. destruct (S !! q_handle o) as [[mx vs]|]; [|done].
  destruct (fifo_op o mx vs) as [r vs']. cbn [snd]. rewrite lookup_insert. case_decide; [by eexists|done].
Qed.


(** the search of [OSAL_QueueSetElem] looks at the oldest element in
    every round, so an element that is in the queue behind it is queued a second
    time; the comment there says it never is. *)
Theorem set_elem_queues_twice s S h mx a vs d :
  osal_inv (glob s) S -> S !! h = Some (mx, a :: vs) -> In d vs -> d <> a ->
  lenZ (a :: vs) < capacity mx ->
  exists g', OSAL_QueueSetElem h d s = Done 0 (Mach (world s) (heap_live s) (fds_live s) g') /\
    osal_inv g' (<[h := (mx, a :: vs ++ [d])]> S).
Proof.
  intros Hi HS Hd Hne Hroom. destruct (osal_inv_open _ _ _ _ _ Hi HS) as (Hh & q & ns & Hq & Hmx & Hok & _).
  assert (d <> 0) as Hd0.
  { pose proof (qo_data _ _ _ _ Hok) as Hall. rewrite Forall_forall in Hall. apply Hall.
    apply list_elem_of_In. by right. }
  rewrite (set_elem_run s h q ns (a :: vs) d Hh Hq Hok Hd0), Hmx.
  rewrite bool_decide_false, andb_false_r by (cbn [head]; congruence).
  destruct (put_refines s S h mx (a :: vs) d Hi HS Hd0) as (g' & E & Hi').
  rewrite (proj2 (Z.ltb_lt _ _) Hroom) in E, Hi'. by exists g'.
Qed.
End Refinement.

(** ** A heap with one queue *)

(** An allocator that gives the next address until there are none left. *)
Record bump := Bump { bp_next : Z; bp_limit : Z }.
#[export] Instance bump_ops : OsOps bump := {|
  os_malloc _ w := if bp_next w <? bp_limit w then (bp_next w, Bump (bp_next w + 1) (bp_limit w)) else (0, w);
  os_open _ w := (-1, w);
  os_close _ w := w;
  os_lseek _ _ w := (-1, w);
  os_read _ _ w := (-1, [], w);
  os_write _ _ w := (-1, w);
  os_fsync _ w := w;
  os_ioctl _ _ _ b w := (-1, b, w);
  os_access _ _ := -1;
|}.

(** Made for four elements at 100, with the mutex 1 and the nodes 2, 3 and 4;
    holds 7 and 8. *)
Definition demo_queue : OSAL_QUEUE := Queue 2 4 2 1 4.
Definition demo_heap : osal_g :=
  Osal (list_to_map [(2, QElem 7 3); (3, QElem 8 4); (4, QElem 0 2)]) (list_to_map [(1, false)])
    (list_to_map [(100, demo_queue)]).
Definition demo_fifos : fifos := list_to_map [(100, (4, [7; 8]))].

Lemma demo_heap_inv : osal_inv demo_heap demo_fifos.
Proof.
  exists (list_to_map [(100, [1; 2; 3; 4])]). unfold demo_fifos. cbn [list_to_map foldr uncurry fst snd].
  split; [|split].
  - intros h. rewrite !lookup_insert. case_decide; [by split; eauto|]. split; by intros [].
  - intros h mx vs. rewrite lookup_insert. case_decide as E; [|done]. intros [= <- <-]. subst h.
    split; [done|]. exists demo_queue, [2; 3; 4]. split; [done|]. split; [done|].
    split; [by rewrite lookup_insert_eq|].
    split; try done; try (apply (bool_decide_unpack _); vm_compute; exact I).
    + intros i a Ha. do 3 (destruct i as [|i]; [injection Ha as <-; by eexists|]). done.
  - intros h1 h2 l1 l2 Hne. rewrite !lookup_insert. case_decide; case_decide; by subst.
Qed.


Lemma set_elem_queues_twice_witness :
  exists g', OSAL_QueueSetElem 100 8 (Mach (Bump 5 5) 4 0 demo_heap) = Done 0 (Mach (Bump 5 5) 4 0 g') /\
    osal_inv g' (<[100 := (4, [7; 8; 8])]> demo_fifos).
Proof.
  apply (set_elem_queues_twice (Mach (Bump 5 5) 4 0 demo_heap) demo_fifos 100 4 7 [8] 8).
  - exact demo_heap_inv.
  - reflexivity.
  - by left.
  - discriminate.
  - reflexivity.
Defined.
