(* ===== verification/OsalMemory.v ===== *)
(** * camera: the life of a queue

    [OSAL_QueueCreate] builds the ring out of the nodes the allocator gives and
    [OSAL_QueueTerminate] gives all of it back; when a node cannot be had,
    [OSAL_QueueCreate] gives back the nodes but not the mutex. *)

From S2P Require Import Prelude CLib Os OsalQueue OsalTheorems.

(** ** Chains of nodes *)

(** The nodes [l], empty, each pointing to the next and the last to [e]. *)
Fixpoint chain_map (nm : gmap Z OSAL_QElem) (l : list Z) (e : Z) : gmap Z OSAL_QElem :=
  match l with
  | [] => nm
  | p :: l' => <[p := QElem 0 (hd e l')]> (chain_map nm l' e)
  end.

Lemma chain_map_out nm l e a : a ∉ l -> chain_map nm l e !! a = nm !! a.
Proof.
  induction l as [|p l IH]; [done|]. intros Ha. apply not_elem_of_cons in Ha as [H1 H2].
  cbn [chain_map]. rewrite lookup_insert_ne by done. auto.
Qed.

Lemma chain_map_comm nm l e c x : c ∉ l -> chain_map (<[c := x]> nm) l e = <[c := x]> (chain_map nm l e).
Proof.
  induction l as [|p l IH]; [done|]. intros Hc. apply not_elem_of_cons in Hc as [H1 H2].
  cbn [chain_map]. rewrite IH by done. by rewrite insert_insert_ne.
Qed.

Lemma chain_map_lookup nm l e i a : NoDup l -> l !! i = Some a ->
  chain_map nm l e !! a = Some (QElem 0 (default e (l !! (i + 1)%nat))).
Proof.
  revert i. induction l as [|p l IH]; [done|]. intros i Hd Hi. inv Hd. cbn [chain_map].
  destruct i as [|i]; cbn [lookup list_lookup plus] in *.
  - injection Hi as ->. rewrite lookup_insert_eq. by destruct l.
  - rewrite lookup_insert_ne; [by apply IH|]. intros <-. eapply H1, list_elem_of_lookup_2, Hi.
Qed.

Lemma chain_map_close nm l z e e' : NoDup (l ++ [z]) ->
  <[z := QElem 0 e]> (chain_map nm (l ++ [z]) e') = chain_map nm (l ++ [z]) e.
Proof.
  induction l as [|p l IH]; intros Hd; cbn [app chain_map].
  - by rewrite insert_insert_eq.
  - inv Hd. rewrite insert_insert_ne, IH by (done || (intros ->; set_solver)).
    by destruct l.
Qed.

Lemma ring_of_chain nm l : NoDup l -> ring_at (chain_map nm l (hd 0 l)) l [].
Proof.
  intros Hd i a Ha. rewrite (chain_map_lookup _ _ _ i a Hd Ha).
  pose proof (lookup_lt_Some _ _ _ Ha) as Hi. destruct (decide (i + 1 < length l)%nat) as [Hlt|Hge].
  - rewrite Nat.mod_small by done. destruct (lookup_lt_is_Some_2 l (i + 1) Hlt) as [n Hn].
    exists n. rewrite Hn. by destruct i.
  - replace (i + 1)%nat with (length l) by lia. rewrite Nat.Div0.mod_same.
    rewrite (lookup_ge_None_2 l (length l)) by done. destruct l as [|p l]; [done|].
    exists p. by destruct i.
Qed.

Definition dels (nm : gmap Z OSAL_QElem) (l : list Z) : gmap Z OSAL_QElem :=
  foldl (fun m a => delete a m) nm l.

Lemma dels_out l : forall nm a, a ∉ l -> dels nm l !! a = nm !! a.
Proof.
  induction l as [|p l IH]; [done|]. intros nm a Ha. apply not_elem_of_cons in Ha as [H1 H2].
  cbn [dels foldl]. unfold dels in IH. rewrite IH by done. by apply lookup_delete_ne.
Qed.

Section Memory.
Context {W : Type} `{OsOps W}.
Variable mutex_init : W -> Z * W.
Implicit Types (s : mach W osal_g).

(** [k] nodes asked of the allocator. *)
Fixpoint node_mallocs (k : nat) (w : W) : list Z * W :=
  match k with
  | O => ([], w)
  | S k' =>
      let '(p, w1) := os_malloc SIZEOF_QElem w in
      let '(ps, w2) := node_mallocs k' w1 in (p :: ps, w2)
  end.

Lemma node_mallocs_length k : forall w, length (node_mallocs k w).1 = k.
Proof.
  induction k as [|k IH]; [done|]. intros w. cbn [node_mallocs].
  destruct (os_malloc _ w) as [p w1]. specialize (IH w1). destruct (node_mallocs k w1). cbn in *. lia.
Qed.

Lemma new_node_run {B} (k : Z -> M _ B) s p w :
  os_malloc SIZEOF_QElem (world s) = (p, w) -> 0 < p ->
  bind new_node k s = k p (Mach w (heap_live s + 1) (fds_live s) (with_nodes (<[p := QElem 0 0]>) (glob s))).
Proof.
  intros E Hp. unfold new_node. mrun. mcall (by apply c_malloc_ok).
  rewrite (proj2 (Z.eqb_neq p 0)) by lia. by mrun.
Qed.
Lemma new_node_fails {B} (k : Z -> M _ B) s w :
  os_malloc SIZEOF_QElem (world s) = (0, w) ->
  bind new_node k s = k 0 (Mach w (heap_live s) (fds_live s) (glob s)).
Proof. intros E. unfold new_node, c_malloc, bind. by rewrite E. Qed.

Ltac gs := cbv beta iota delta [with_nodes with_mutexes with_queues set_first set_last set_num set_data
  set_next set_mutex set_max]; cbn [nodes mutexes queues world heap_live fds_live glob first last numElem
  qMutex maxElem qdata qNext].

(** The loop of [OSAL_QueueCreate] after the node [c], when every node is had. *)
Lemma create_nodes_run n : forall made h c nm ps w' s,
  nodes (glob s) = <[c := QElem 0 0]> nm -> node_mallocs n (world s) = (ps, w') ->
  Forall (fun p => 0 < p) ps -> NoDup (c :: ps) ->
  create_nodes n made h c s = Done (Some (List.last (c :: ps) 0))
    (Mach w' (heap_live s + Z.of_nat n) (fds_live s)
      (Osal (chain_map nm (c :: ps) 0) (mutexes (glob s)) (queues (glob s)))).
Proof.
  induction n as [|n IH]; intros made h c nm ps w' s Hn E Hp Hd.
  - cbn [node_mallocs] in E. injection E as <- <-. cbn [create_nodes chain_map hd List.last].
    unfold ret. rewrite <- Hn. destruct s as [? ? ? []]; cbn. by rewrite Z.add_0_r.
  - cbn [node_mallocs] in E. destruct (os_malloc _ _) as [p w1] eqn:E1.
    destruct (node_mallocs n w1) as [ps' w2] eqn:E2. injection E as <- <-.
    inv Hp. inv Hd. cbn beta in *. cbn [create_nodes]. erewrite new_node_run by done.
    rewrite (proj2 (Z.eqb_neq p 0)) by lia. assert (c <> p) by (intros ->; set_solver).
    erewrite put_node_run by (gs; rewrite Hn, lookup_insert_ne, lookup_insert_eq by done; reflexivity).
    erewrite (IH _ h p (<[c := QElem 0 p]> nm) ps' w2); gs; try done.
    + rewrite chain_map_comm by done. cbn [chain_map hd List.last].
      replace (heap_live s + 1 + Z.of_nat n) with (heap_live s + Z.of_nat (S n)) by lia. done.
    + rewrite Hn, (insert_insert_ne _ c p), insert_insert_eq, insert_insert_ne by done. done.
Qed.

(** Giving back the nodes made so far. *)
Lemma free_chain_run l : forall fuel h q nm s,
  queues (glob s) !! h = Some q -> first q = hd 0 l -> nodes (glob s) = chain_map nm l 0 ->
  Forall (fun p => 0 < p /\ nm !! p = None) l -> NoDup l -> (length l <= fuel)%nat ->
  free_chain fuel h s = Done tt (Mach (world s) (heap_live s - lenZ l) (fds_live s)
    (Osal nm (mutexes (glob s)) (<[h := set_first 0 q]> (queues (glob s))))).
Proof.
  induction l as [|p l IH]; intros fuel h q nm s Hq Hf Hn Hl Hd Hfuel.
  - destruct fuel; cbn [free_chain]; erewrite the_queue_run by done; rewrite Hf; cbn [hd Z.eqb];
      cbn [chain_map] in Hn; unfold ret; rewrite <- Hn; unfold lenZ; cbn [length];
      (rewrite insert_id by (by destruct q; cbn in *; subst)); destruct s as [? ? ? []]; cbn;
      by rewrite Z.sub_0_r.
  - destruct fuel as [|fuel]; [cbn in Hfuel; lia|]. inv Hl. inv Hd.
    match goal with X : 0 < p /\ _ |- _ => destruct X as [Hp Hnone] end.
    cbn [free_chain]. erewrite the_queue_run by done. rewrite Hf. cbn [hd].
    rewrite (proj2 (Z.eqb_neq p 0)) by lia. cbn [chain_map] in Hn.
    erewrite the_node_run by (rewrite Hn, lookup_insert_eq; reflexivity).
    erewrite free_node_run by (done || (rewrite Hn, lookup_insert_eq; reflexivity)).
    erewrite put_queue_run by (gs; exact Hq). gs.
    erewrite (IH fuel h (set_first (hd 0 l) q) nm).
    + gs. rewrite insert_insert_eq, lenZ_cons.
      replace (heap_live s - 1 - lenZ l) with (heap_live s - (1 + lenZ l)) by lia. done.
    + gs. by rewrite lookup_insert_eq.
    + done.
    + gs. rewrite Hn, delete_insert_id; [done|]. by rewrite chain_map_out.
    + done.
    + done.
    + cbn in Hfuel. lia.
Qed.
(** The queue after the mutex and the first node. *)
Lemma mutex_create_run {B} (k : OMX_ERRORTYPE * Z -> M _ B) s m w1 w2 :
  os_malloc SIZEOF_mutex (world s) = (m, w1) -> 0 < m -> mutex_init w1 = (0, w2) ->
  bind (OSAL_MutexCreate mutex_init) k s = k (OMX_ErrorNone, m)
    (Mach w2 (heap_live s + 1) (fds_live s) (with_mutexes (<[m := false]>) (glob s))).
Proof.
  intros E Hm Ei. unfold OSAL_MutexCreate. mrun. mcall (by apply c_malloc_ok).
  rewrite (proj2 (Z.eqb_neq m 0)) by lia. unfold bind at 1 2. msimp. rewrite Ei. by mrun.
Qed.

Definition made_queue (p m mx : Z) : OSAL_QUEUE := Queue p p 0 m mx.

Lemma create_start s h mx q0 m w1 w2 p w3 :
  h <> 0 -> queues (glob s) !! h = Some q0 ->
  os_malloc SIZEOF_mutex (world s) = (m, w1) -> 0 < m -> mutex_init w1 = (0, w2) ->
  os_malloc SIZEOF_QElem w2 = (p, w3) -> 0 < p ->
  OSAL_QueueCreate mutex_init h mx s =
  bind (create_nodes (Z.to_nat (mx - 2)) 1 h p) (fun current =>
      match current with
      | None => ret OMX_ErrorInsufficientResources
      | Some current =>
          let* q := the_queue h in put_node current (set_next (first q)) ;;; ret OMX_ErrorNone
      end)
    (Mach w3 (heap_live s + 1 + 1) (fds_live s)
      (Osal (<[p := QElem 0 0]> (nodes (glob s))) (<[m := false]> (mutexes (glob s)))
        (<[h := made_queue p m mx]> (queues (glob s))))).
Proof.
  intros Hh Hq E1 Hm Ei E2 Hp. unfold OSAL_QueueCreate. rewrite (proj2 (Z.eqb_neq h 0)) by done.
  erewrite mutex_create_run by done. change (negb (bool_decide (OMX_ErrorNone = OMX_ErrorNone))) with false.
  cbn iota. erewrite put_queue_run by (gs; exact Hq). erewrite put_queue_run by (gs; by rewrite lookup_insert_eq).
  erewrite new_node_run by (gs; exact E2 || done). erewrite put_queue_run by (gs; by rewrite lookup_insert_eq).
  rewrite (proj2 (Z.eqb_neq p 0)) by lia.
  erewrite put_queue_run by (gs; by rewrite lookup_insert_eq).
  erewrite put_queue_run by (gs; by rewrite lookup_insert_eq). gs.
  by rewrite !insert_insert_eq.
Qed.

(** The invariant with one more queue. *)
Lemma osal_inv_add g S h q ns :
  osal_inv g S -> S !! h = None -> h <> 0 -> maxElem q < 2147483648 ->
  (forall a, a ∈ qMutex q :: ns -> nodes g !! a = None /\ mutexes g !! a = None) ->
  forall nm', (forall a, a ∉ ns -> nm' !! a = nodes g !! a) ->
  let g' := Osal nm' (<[qMutex q := false]> (mutexes g)) (<[h := q]> (queues g)) in
  queue_ok g' q ns [] -> osal_inv g' (<[h := (maxElem q, [])]> S).
Proof.
  intros (R & Hd & Hq & Hsep) HS Hh Hmx Hfresh nm' Hnm g' Hok.
  assert (forall h' l, R !! h' = Some l -> forall a, a ∈ l -> a ∉ qMutex q :: ns) as Hnew.
  { intros h' l Hl a Ha Hin. destruct (proj1 (Hd h')) as [[mx vs] HS']; [by eexists|].
    destruct (Hq _ _ _ HS') as (_ & q1 & ns1 & _ & _ & G3 & G4). rewrite Hl in G3. injection G3 as ->.
    destruct (Hfresh _ Hin) as [N1 N2]. apply elem_of_cons in Ha as [->|Ha].
    - by rewrite (qo_free _ _ _ _ G4) in N2.
    - apply list_elem_of_lookup in Ha as [i Hi]. destruct (qo_ring _ _ _ _ G4 i a Hi) as (? & _ & E).
      by rewrite E in N1. }
  exists (<[h := qMutex q :: ns]> R). split; [|split].
  - intros h'. rewrite !lookup_insert. case_decide; [by split; eauto|apply Hd].
  - intros h' mx vs HS'. rewrite lookup_insert in HS'. case_decide as E.
    + injection HS' as <- <-. subst h'. split; [done|]. exists q, ns. subst g'. cbn [queues].
      by rewrite !lookup_insert_eq.
    + destruct (Hq _ _ _ HS') as (Hh' & q1 & ns1 & G1 & G2 & G3 & G4). split; [done|]. exists q1, ns1.
      subst g'. cbn [queues]. rewrite !lookup_insert_ne by done.
      repeat (split; [done|]). apply (queue_ok_frame g); [| |exact G4]; cbn [nodes mutexes].
      * intros a Ha. apply Hnm. intros Ha'. apply (Hnew _ _ G3 a); by apply list_elem_of_further.
      * apply lookup_insert_ne. intros Em. apply (Hnew _ _ G3 (qMutex q1)); [by left|].
        rewrite <- Em. by left.
  - intros h1 h2 l1 l2 Hne. rewrite !lookup_insert. case_decide; case_decide; intros E1 E2 a; simplify_eq.
    + intros Ha Ha'. by apply (Hnew _ _ E2 a).
    + intros Ha. by apply (Hnew _ _ E1 a).
    + by apply (Hsep h1 h2).
Qed.

(** What creating a queue for [mx] elements asks of the allocator. *)
Definition ring_size (mx : Z) : nat := S (Z.to_nat (mx - 2)).
Definition all_fresh (g : osal_g) (l : list Z) : Prop :=
  NoDup l /\ forall a, a ∈ l -> 0 < a /\ nodes g !! a = None /\ mutexes g !! a = None.

Lemma ring_split (p : Z) ps : exists l z, p :: ps = l ++ [z] /\ List.last (p :: ps) 0 = z.
Proof.
  destruct (@exists_last _ (p :: ps)) as (l & z & E); [done|]. exists l, z. split; [done|].
  rewrite E. apply last_last.
Qed.

(** C27: [OSAL_QueueCreate], when the allocator gives the mutex and the nodes,
    builds an empty queue and leaves every other queue as it was; what it keeps
    of the heap is the mutex and the ring. The queue holds [capacity mx]
    elements: one fewer than the [mx] it was asked for, and one for an [mx] of 1. *)
Theorem queue_create_makes_fifo s S h mx q0 m w1 w2 ps w3 :
  osal_inv (glob s) S -> S !! h = None -> h <> 0 -> mx < 2147483648 ->
  queues (glob s) !! h = Some q0 ->
  os_malloc SIZEOF_mutex (world s) = (m, w1) -> mutex_init w1 = (0, w2) ->
  node_mallocs (ring_size mx) w2 = (ps, w3) -> all_fresh (glob s) (m :: ps) ->
  exists g', OSAL_QueueCreate mutex_init h mx s =
      Done OMX_ErrorNone (Mach w3 (heap_live s + 1 + Z.of_nat (ring_size mx)) (fds_live s) g') /\
    osal_inv g' (<[h := (mx, [])]> S).
Proof.
  intros Hi HS Hh Hmx Hq E1 Ei E2 [Hnd Hf]. destruct (Hf m ltac:(by left)) as [Hm _].
  unfold ring_size in *. cbn [node_mallocs] in E2. destruct (os_malloc _ w2) as [p wA] eqn:Ep.
  pose proof (node_mallocs_length (Z.to_nat (mx - 2)) wA) as Hlen.
  destruct (node_mallocs _ wA) as [ps' wB] eqn:En. injection E2 as <- <-. cbn [fst] in Hlen.
  assert (Forall (fun a => 0 < a) (p :: ps')) as Hpos.
  { apply Forall_forall. intros a Ha. by apply (Hf a); right. }
  inv Hpos. inv Hnd. erewrite create_start by done.
  mcall (eapply create_nodes_run; [reflexivity|done..]). gs.
  erewrite the_queue_run by (gs; by rewrite lookup_insert_eq).
  destruct (ring_split p ps') as (l & z & El & ->). rewrite El.
  assert (NoDup (l ++ [z])) as Hndl by (by rewrite <- El).
  assert (chain_map (nodes (glob s)) (l ++ [z]) 0 !! z = Some (QElem 0 0)) as Hz.
  { rewrite (chain_map_lookup _ _ _ (length l) z Hndl) by (by rewrite lookup_app_r, Nat.sub_diag).
    by rewrite lookup_ge_None_2 by (rewrite length_app; cbn; lia). }
  erewrite put_node_run by (gs; exact Hz). gs. cbn [made_queue first].
  rewrite chain_map_close, <- El by done. eexists. split.
  - unfold ret. f_equal. apply Mach_eq; lia.
  - apply (osal_inv_add (glob s) S h (made_queue p m mx) (p :: ps')); try done.
    + intros a Ha. by apply (Hf a).
    + intros a Ha. by apply chain_map_out.
    + split; cbn [nodes mutexes made_queue qMutex maxElem first last numElem]; try done.
      * by apply (ring_of_chain (nodes (glob s)) (p :: ps')).
      * by constructor.
      * unfold lenZ. cbn [length]. lia.
      * by rewrite Nat.Div0.mod_0_l.
      * unfold capacity. case_test; unfold lenZ; cbn [length]; lia.
      * by rewrite lookup_insert_eq.
Qed.

Lemma chain_map_snoc nm l p e : p ∉ l -> chain_map nm (l ++ [p]) e = <[p := QElem 0 e]> (chain_map nm l p).
Proof.
  induction l as [|a l IH]; [done|]. intros Hp. apply not_elem_of_cons in Hp as [H1 H2].
  cbn [app chain_map]. rewrite IH, insert_insert_ne by done. by destruct l.
Qed.

(** The loop when only [k] more nodes can be had: [l] and [c] are given back. *)
Lemma create_nodes_fail n : forall k h l c q nm ps w' w'' s,
  queues (glob s) !! h = Some q -> first q = hd 0 (l ++ [c]) -> nodes (glob s) = chain_map nm (l ++ [c]) 0 ->
  (k < n)%nat -> node_mallocs k (world s) = (ps, w') -> os_malloc SIZEOF_QElem w' = (0, w'') ->
  Forall (fun p => 0 < p /\ nm !! p = None) ((l ++ [c]) ++ ps) -> NoDup ((l ++ [c]) ++ ps) ->
  create_nodes n (length (l ++ [c])) h c s = Done None
    (Mach w'' (heap_live s - lenZ (l ++ [c])) (fds_live s)
      (Osal nm (mutexes (glob s)) (<[h := set_first 0 q]> (queues (glob s))))).
Proof.
  induction n as [|n IH]; [lia|]. intros k h l c q nm ps w' w'' s Hq Hf Hn Hk E E0 Hl Hd.
  destruct k as [|k]; cbn [node_mallocs] in E; cbn [create_nodes].
  - injection E as <- <-. rewrite app_nil_r in *. erewrite new_node_fails by exact E0.
    rewrite Z.eqb_refl. mcall (by eapply (free_chain_run (l ++ [c]) _ h q nm)). done.
  - destruct (os_malloc _ (world s)) as [p wA] eqn:Ep. destruct (node_mallocs k wA) as [ps' wB] eqn:En.
    injection E as <- <-. pose proof (proj1 (Forall_app _ _ _) Hl) as [Hl1 Hl2]. inv Hl2.
    match goal with X : 0 < p /\ _ |- _ => destruct X as [Hp Hnone] end.
    apply NoDup_app in Hd as (Hd1 & Hd2 & Hd3).
    assert (c <> p) by (intros ->; apply (Hd2 p); [apply elem_of_app; right|]; by left).
    assert (p ∉ l ++ [c]) as Hpl by (intros Hin; apply (Hd2 p Hin); by left).
    assert (chain_map nm (l ++ [c]) 0 !! c = Some (QElem 0 0)) as Hc.
    { rewrite (chain_map_lookup _ _ _ (length l) c Hd1) by (by rewrite lookup_app_r, Nat.sub_diag).
      by rewrite lookup_ge_None_2 by (rewrite length_app; cbn; lia). }
    erewrite new_node_run by done. rewrite (proj2 (Z.eqb_neq p 0)) by lia.
    erewrite put_node_run by (gs; rewrite Hn, lookup_insert_ne, Hc by done; reflexivity). gs.
    replace (S (length (l ++ [c]))) with (length ((l ++ [c]) ++ [p])) by (rewrite !length_app; cbn; lia).
    erewrite (IH k h (l ++ [c]) p q nm ps' wB w''); gs; try done.
    + rewrite lenZ_app. cbn [lenZ length]. unfold ret. f_equal. apply Mach_eq; [unfold lenZ; cbn; lia|done].
    + rewrite Hf. by destruct l.
    + rewrite chain_map_snoc by done. rewrite Hn. rewrite insert_insert_ne by done. f_equal.
      by apply chain_map_close.
    + lia.
    + by rewrite <- app_assoc.
    + rewrite <- app_assoc. apply NoDup_app. done.
Qed.

(** when a node cannot be had, [OSAL_QueueCreate] gives back the nodes
    it made and reports the failure, but it keeps the mutex, which nobody will
    destroy: the caller was told that there is no queue. *)
Theorem queue_create_leaks_mutex s S h mx q0 m w1 w2 k ps w3 w4 :
  osal_inv (glob s) S -> S !! h = None -> h <> 0 -> queues (glob s) !! h = Some q0 ->
  os_malloc SIZEOF_mutex (world s) = (m, w1) -> mutex_init w1 = (0, w2) ->
  (k < ring_size mx)%nat -> node_mallocs k w2 = (ps, w3) -> os_malloc SIZEOF_QElem w3 = (0, w4) ->
  all_fresh (glob s) (m :: ps) ->
  exists q', OSAL_QueueCreate mutex_init h mx s =
    Done OMX_ErrorInsufficientResources (Mach w4 (heap_live s + 1) (fds_live s)
      (Osal (nodes (glob s)) (<[m := false]> (mutexes (glob s))) (<[h := q']> (queues (glob s))))).
Proof.
  intros Hi HS Hh Hq E1 Ei Hk E2 E0 [Hnd Hf]. destruct (Hf m ltac:(by left)) as [Hm _].
  destruct k as [|k]; cbn [node_mallocs] in E2.
  - injection E2 as <- <-. exists (Queue 0 (last q0) (numElem q0) m mx).
    unfold OSAL_QueueCreate. rewrite (proj2 (Z.eqb_neq h 0)) by done.
    erewrite mutex_create_run by done.
    change (negb (bool_decide (OMX_ErrorNone = OMX_ErrorNone))) with false. cbn iota.
    erewrite put_queue_run by (gs; exact Hq). erewrite put_queue_run by (gs; by rewrite lookup_insert_eq).
    erewrite new_node_fails by (gs; exact E0). erewrite put_queue_run by (gs; by rewrite lookup_insert_eq).
    rewrite Z.eqb_refl. gs. by rewrite !insert_insert_eq.
  - destruct (os_malloc _ w2) as [p wA] eqn:Ep. destruct (node_mallocs k wA) as [ps' wB] eqn:En.
    injection E2 as <- <-. exists (set_first 0 (made_queue p m mx)).
    destruct (Hf p ltac:(right; by left)) as [Hp _]. inv Hnd.
    erewrite create_start by done. unfold ring_size in Hk.
    mcall (eapply (create_nodes_fail _ k h [] p (made_queue p m mx) (nodes (glob s)) ps' wB w4)).
    + gs. rewrite insert_insert_eq. unfold ret, lenZ. cbn [length app]. f_equal. apply Mach_eq; [lia|done].
    + gs. by rewrite lookup_insert_eq.
    + done.
    + done.
    + lia.
    + done.
    + done.
    + apply Forall_forall. intros a Ha. destruct (Hf a) as (? & ? & _); [by right|done].
    + done.
Qed.

(** The loop of [OSAL_QueueTerminate] over the nodes [front] before [z]. *)
Lemma free_nodes_run front z : forall h q s,
  queues (glob s) !! h = Some q -> first q = hd z front ->
  (forall i a b, (front ++ [z]) !! i = Some a -> (front ++ [z]) !! S i = Some b ->
    exists d, nodes (glob s) !! a = Some (QElem d b)) ->
  Forall (fun p => 0 < p) front -> NoDup front ->
  free_nodes (length front) h s = Done tt (Mach (world s) (heap_live s - lenZ front) (fds_live s)
    (Osal (dels (nodes (glob s)) front) (mutexes (glob s)) (<[h := set_first z q]> (queues (glob s))))).
Proof.
  induction front as [|p front IH]; intros h q s Hq Hf Hlinks Hp Hd.
  - cbn [length free_nodes]. unfold ret, lenZ. cbn [length dels foldl hd] in *. rewrite Z.sub_0_r.
    rewrite insert_id; [by destruct s as [? ? ? []]|]. destruct q. cbn in *. by subst.
  - inv Hp. inv Hd. cbn [length free_nodes]. erewrite the_queue_run by exact Hq. rewrite Hf. cbn [hd] in *.
    destruct (Hlinks 0%nat p (hd z front)) as [d Hn]; [done|by destruct front|].
    erewrite the_node_run by exact Hn. erewrite free_node_run by done.
    erewrite put_queue_run by (gs; exact Hq). gs.
    erewrite (IH h (set_first (hd z front) q)); gs.
    + rewrite insert_insert_eq, lenZ_cons.
      replace (heap_live s - 1 - lenZ front) with (heap_live s - (1 + lenZ front)) by lia. done.
    + by rewrite lookup_insert_eq.
    + done.
    + intros i a b Ha Hb. destruct (Hlinks (S i) a b Ha Hb) as [d' Hd']. exists d'.
      rewrite lookup_delete_ne; [done|]. intros <-. apply lookup_lt_Some in Hb.
      rewrite length_app in Hb. cbn [length] in Hb. rewrite lookup_app_l in Ha by lia.
      match goal with X : p ∉ front |- _ => by apply X, (list_elem_of_lookup_2 _ i) end.
    + done.
    + done.
Qed.

(** A queue goes: the other queues are as they were. *)
Lemma osal_inv_remove g S h mx vs :
  osal_inv g S -> S !! h = Some (mx, vs) ->
  h <> 0 /\ exists q ns, queues g !! h = Some q /\ maxElem q = mx /\ queue_ok g q ns vs /\
    forall nm' q', (forall a, a ∉ ns -> nm' !! a = nodes g !! a) ->
    osal_inv (Osal nm' (delete (qMutex q) (mutexes g)) (<[h := q']> (queues g))) (delete h S).
Proof.
  intros (R & Hd & Hq & Hsep) HS. destruct (Hq _ _ _ HS) as (Hh & q & ns & H1 & H2 & H3 & H4).
  split; [done|]. exists q, ns. repeat (split; [done|]). intros nm' q' Hn. exists (delete h R).
  split; [|split].
  - intros h'. rewrite !lookup_delete. case_decide; [by split; intros []|apply Hd].
  - intros h' mx' vs1 HS'. rewrite lookup_delete in HS'. case_decide as E; [done|].
    destruct (Hq _ _ _ HS') as (Hh' & q1 & ns1 & G1 & G2 & G3 & G4). split; [done|]. exists q1, ns1.
    cbn [queues]. rewrite lookup_insert_ne, lookup_delete_ne by done. repeat (split; [done|]).
    apply (queue_ok_frame g); [| |exact G4]; cbn [nodes mutexes].
    + intros a Ha. apply Hn. intros Ha'. apply (Hsep _ _ _ _ E H3 G3 a); by apply list_elem_of_further.
    + apply lookup_delete_ne. intros Em. apply (Hsep _ _ _ _ E H3 G3 (qMutex q)); [by left|].
      rewrite Em. by left.
  - intros h1 h2 l1 l2 Hne. rewrite !lookup_delete. case_decide; [done|]. case_decide; [done|].
    by apply (Hsep h1 h2).
Qed.

(** [OSAL_QueueTerminate] gives back the ring and the mutex, all that
    [OSAL_QueueCreate] took, whatever the queue still holds, and leaves every
    other queue as it was. *)
Theorem queue_terminate_gives_back s S h mx vs :
  osal_inv (glob s) S -> S !! h = Some (mx, vs) ->
  exists g', OSAL_QueueTerminate h s =
      Done OMX_ErrorNone (Mach (world s) (heap_live s - 1 - Z.of_nat (ring_size mx)) (fds_live s) g') /\
    osal_inv g' (delete h S).
Proof.
  intros Hi HS. destruct (osal_inv_remove _ _ _ _ _ Hi HS) as (Hh & q & ns & Hq & <- & Hok & Hclose).
  pose proof (qo_size _ _ _ _ Hok) as Hsz. pose proof (qo_nodup _ _ _ _ Hok) as Hnd.
  pose proof (qo_pos _ _ _ _ Hok) as Hpos. pose proof (qo_first _ _ _ _ Hok) as Hfirst.
  pose proof (qo_ring _ _ _ _ Hok) as Hring. pose proof (qo_mutex _ _ _ _ Hok) as Hm.
  destruct (@exists_last _ ns) as (front & z & ->); [intros ->; unfold lenZ in Hsz; cbn in Hsz; lia|].
  assert (length front = Z.to_nat (maxElem q - 2)) as Hlen
    by (unfold lenZ in Hsz; rewrite length_app in Hsz; cbn in Hsz; lia).
  apply Forall_app in Hpos as [Hpos Hz]. inv Hz. apply NoDup_app in Hnd as (Hnd & Hnz & _).
  assert (z ∉ front) as Hzf by (intros Hin; apply (Hnz z Hin); by left).
  destruct (Hring (length front) z) as (n & _ & Hzn); [by rewrite lookup_app_r, Nat.sub_diag|].
  unfold OSAL_QueueTerminate. rewrite (proj2 (Z.eqb_neq h 0)) by done.
  erewrite the_queue_run by exact Hq. rewrite <- Hlen.
  mcall (eapply (free_nodes_run front z h q s); [done| | |done|done]).
  - erewrite the_queue_run by (gs; by rewrite lookup_insert_eq). gs.
    rewrite (proj2 (Z.eqb_neq z 0)) by lia. mrun.
    erewrite free_node_run by (gs; try done; rewrite dels_out by done; exact Hzn).
    erewrite put_queue_run by (gs; by rewrite lookup_insert_eq). gs. rewrite insert_insert_eq.
    unfold OSAL_MutexTerminate. rewrite (proj2 (Z.eqb_neq (qMutex q) 0)) by lia. mrun. gs.
    rewrite (qo_free _ _ _ _ Hok). mrun. mcall (by apply c_free_ok). gs.
    eexists. split.
    + unfold ret. f_equal. apply Mach_eq; [|done]. unfold ring_size, lenZ. lia.
    + apply Hclose. intros a Ha. apply not_elem_of_app in Ha as [Ha1 Ha2].
      rewrite lookup_delete_ne by (intros ->; apply Ha2; by left). by apply dels_out.
  - destruct front; cbn in *; congruence.
  - intros i a b Ha Hb. destruct (Hring i a Ha) as (n' & Hn' & Hna). exists (nth i vs 0). rewrite Hna.
    pose proof (lookup_lt_Some _ _ _ Hb). rewrite Nat.mod_small, Nat.add_1_r in Hn' by lia. congruence.
Qed.
End Memory.

(** ** On the concrete heap *)

Definition demo_init (w : bump) : Z * bump := (0, w).
(** A second queue is to be made at 200. *)
Definition two_heap : osal_g :=
  Osal (nodes demo_heap) (mutexes demo_heap) (<[200 := Queue 0 0 0 0 0]> (queues demo_heap)).

Lemma two_heap_inv : osal_inv two_heap demo_fifos.
Proof.
  destruct demo_heap_inv as (R & H1 & H2 & H3). exists R. split; [done|]. split; [|done].
  intros h mx vs HS. destruct (H2 _ _ _ HS) as (Hh & q & ns & G1 & G2 & G3 & G4).
  split; [done|]. exists q, ns. split.
  - unfold demo_fifos in HS. cbn [list_to_map foldr uncurry fst snd] in HS. rewrite lookup_insert in HS.
    case_decide; [|done]. subst h. exact G1.
  - split; [exact G2|]. split; [exact G3|]. by apply (queue_ok_frame demo_heap).
Qed.

Lemma two_heap_fresh l :
  NoDup l -> Forall (fun a => 5 <= a) l -> all_fresh two_heap l.
Proof.
  intros Hd Hl. split; [done|]. intros a Ha. rewrite Forall_forall in Hl. specialize (Hl a Ha).
  split; [lia|]. cbn [two_heap demo_heap nodes mutexes list_to_map foldr uncurry fst snd].
  by rewrite !lookup_insert_ne by lia.
Qed.

Lemma queue_create_makes_fifo_witness :
  exists g', OSAL_QueueCreate demo_init 200 4 (Mach (Bump 5 20) 4 0 two_heap) =
      Done OMX_ErrorNone (Mach (Bump 9 20) (4 + 1 + 3) 0 g') /\
    osal_inv g' (<[200 := (4, [])]> demo_fifos).
Proof.
  apply (queue_create_makes_fifo demo_init (Mach (Bump 5 20) 4 0 two_heap) demo_fifos 200 4
    (Queue 0 0 0 0 0) 5 (Bump 6 20) (Bump 6 20) [6; 7; 8] (Bump 9 20)); try reflexivity.
  - exact two_heap_inv.
  - discriminate.
  - apply two_heap_fresh; apply (bool_decide_unpack _); vm_compute; exact I.
Defined.

Lemma queue_create_leaks_mutex_witness :
  exists q', OSAL_QueueCreate demo_init 200 4 (Mach (Bump 5 8) 4 0 two_heap) =
    Done OMX_ErrorInsufficientResources (Mach (Bump 8 8) (4 + 1) 0
      (Osal (nodes two_heap) (<[5 := false]> (mutexes two_heap)) (<[200 := q']> (queues two_heap)))).
Proof.
  apply (queue_create_leaks_mutex demo_init (Mach (Bump 5 8) 4 0 two_heap) demo_fifos 200 4
    (Queue 0 0 0 0 0) 5 (Bump 6 8) (Bump 6 8) 2 [6; 7] (Bump 8 8) (Bump 8 8)); try reflexivity.
  - exact two_heap_inv.
  - discriminate.
  - unfold ring_size. lia.
  - apply two_heap_fresh; apply (bool_decide_unpack _); vm_compute; exact I.
Defined.

Lemma queue_terminate_gives_back_witness :
  exists g', OSAL_QueueTerminate 100 (Mach (Bump 5 5) 4 0 demo_heap) =
      Done OMX_ErrorNone (Mach (Bump 5 5) (4 - 1 - 3) 0 g') /\
    osal_inv g' (delete 100 demo_fifos).
Proof.
  apply (queue_terminate_gives_back (Mach (Bump 5 5) 4 0 demo_heap) demo_fifos 100 4 [7; 8]).
  - exact demo_heap_inv.
  - reflexivity.
Defined.
