(* ===== verification/BtEnv.v ===== *)
(** * libbt-vendor (rtl8723bs): what the library calls outside itself

    The serial line, the properties, the timers and the file sizes are the
    kernel's and the C library's; buffers and commands go through the callbacks
    the Bluetooth stack handed over ([bt_vendor_callbacks_t], not part of the
    repository).  [BtOps] is that interface. *)

From S2P Require Import Prelude CLib Os.

(** [struct termios], with the line speed in [c_cflag] as bionic keeps it. *)
Record termios := Termios { c_iflag : Z; c_oflag : Z; c_cflag : Z; c_lflag : Z }.

Class BtOps (W : Type) := {
  bt_property_get : string -> string -> W -> string;         (* key, default *)
  bt_property_set : string -> string -> W -> Z * W;
  bt_tcgetattr : Z -> W -> option termios;
  bt_tcsetattr : Z -> termios -> W -> Z * W;
  bt_tcflush : Z -> W -> W;
  bt_timer_create : W -> Z * W;
  bt_timer_settime : Z -> W -> W;                            (* milliseconds *)
  bt_timer_delete : W -> W;
  bt_stat : string -> W -> option Z;                         (* st_size *)
  bt_alloc : Z -> W -> bool * W;                             (* did it get a buffer? *)
  bt_xmit : Z -> bytes -> W -> Z * W;                        (* opcode, command bytes *)
}.

Section Calls.
Context {W G : Type} `{OsOps W, BtOps W}.
Abbreviation S := (mach W G).

Definition property_get (key default : string) : M S string := ask (bt_property_get key default).
Definition property_set (key value : string) : M S Z := on_world (bt_property_set key value).
Definition tcsetattr (fd : Z) (t : termios) : M S Z := on_world (bt_tcsetattr fd t).
Definition tcflush (fd : Z) : M S unit := step_world (bt_tcflush fd).
Definition timer_create : M S Z := on_world bt_timer_create.
Definition timer_settime (ms : Z) : M S unit := step_world (bt_timer_settime ms).
Definition timer_delete : M S unit := step_world bt_timer_delete.
Definition stat (path : string) : M S (option Z) := ask (bt_stat path).
End Calls.

(** [strtol (b, 0, 10)] of an automatic array: [None] when the digits run to
    its end. *)
Definition strtol10 (b : bytes) : option Z :=
  let t := skip_spaces b in
  let t := match t with c :: t' => if (c =? 45) || (c =? 43) then t' else t | [] => [] end in
  if forallb is_digit t then None else Some (atol b).
