(* ===== verification/BtLine.v ===== *)
(** * libbt-vendor (rtl8723bs): a stack and a line that work

    [BtGood] is what the download relies on: the stack gives a buffer for every
    command and accepts it, and setting the line succeeds in time.  [line] is a
    small concrete system that has it, with the files and nodes it is given; the
    examples run on it. *)

From S2P Require Import Prelude CLib Os BtEnv.

Class BtGood (W : Type) `{OsOps W, BtOps W} := {
  bg_up : W -> Prop;
  bg_alloc n w : bg_up w -> exists w', bt_alloc n w = (true, w') /\ bg_up w';
  bg_xmit op cmd w : bg_up w -> exists r w', bt_xmit op cmd w = (r, w') /\ r <> 0 /\ bg_up w';
  bg_tcsetattr fd t w : bg_up w -> exists r w', bt_tcsetattr fd t w = (r, w') /\ bg_up w';
  bg_tcflush fd w : bg_up w -> bg_up (bt_tcflush fd w);
}.

(** The nodes that cannot be opened and the sizes of the files that are there;
    every read fails, every other call succeeds. *)
Record line := Line { ln_missing : list string; ln_files : list (string * Z) }.

Definition line_stat (path : string) (w : line) : option Z :=
  snd <$> find (fun e => bool_decide (e.1 = path)) (ln_files w).

#[export] Instance line_os : OsOps line := {|
  os_malloc _ w := (64, w);
  os_open path w := ((if existsb (fun p => bool_decide (p = path)) (ln_missing w) then -1 else 5), w);
  os_close _ w := w;
  os_lseek _ off w := (off, w);
  os_read _ _ w := (-1, [], w);
  os_write _ b w := (lenZ b, w);
  os_fsync _ w := w;
  os_ioctl _ _ _ b w := (0, b, w);
  os_access _ _ := 0;
|}.

#[export] Instance line_bt : BtOps line := {|
  bt_property_get _ default _ := default;
  bt_property_set _ _ w := (0, w);
  bt_tcgetattr _ _ := Some (Termios 0 0 0 0);
  bt_tcsetattr _ _ w := (0, w);
  bt_tcflush _ w := w;
  bt_timer_create w := (0, w);
  bt_timer_settime _ w := w;
  bt_timer_delete w := w;
  bt_stat := line_stat;
  bt_alloc _ w := (true, w);
  bt_xmit _ _ w := (1, w);
|}.

#[export] Program Instance line_good : BtGood line := {| bg_up _ := True |}.
Solve All Obligations with (intros; cbn; eauto).

Definition line_up : line := Line [] [].
