(* ===== verification/BtUserial.v ===== *)
(** * libbt-vendor (rtl8723bs): the serial port

    [userial_vendor.c] and the speed conversions of [hardware.c]: the port is
    opened raw at a configured speed, changes speed during the firmware
    download, and switches hardware flow control. *)

From stdpp Require Import pretty.
From S2P Require Import Prelude CLib Os BtEnv.

(** ** Constants of [userial_vendor.h] and termios *)

Definition USERIAL_BAUD_600 : Z := 1.
Definition USERIAL_BAUD_1200 : Z := 2.
Definition USERIAL_BAUD_9600 : Z := 4.
Definition USERIAL_BAUD_19200 : Z := 5.
Definition USERIAL_BAUD_57600 : Z := 6.
Definition USERIAL_BAUD_115200 : Z := 7.
Definition USERIAL_BAUD_230400 : Z := 8.
Definition USERIAL_BAUD_460800 : Z := 9.
Definition USERIAL_BAUD_921600 : Z := 10.
Definition USERIAL_BAUD_1M : Z := 11.
Definition USERIAL_BAUD_1_5M : Z := 12.
Definition USERIAL_BAUD_2M : Z := 13.
Definition USERIAL_BAUD_3M : Z := 14.
Definition USERIAL_BAUD_4M : Z := 15.

Definition USERIAL_STOPBITS_1 : Z := 1.
Definition USERIAL_STOPBITS_2 : Z := 4.
Definition USERIAL_PARITY_NONE : Z := 8.
Definition USERIAL_PARITY_EVEN : Z := 16.
Definition USERIAL_PARITY_ODD : Z := 32.
Definition USERIAL_DATABITS_5 : Z := 64.
Definition USERIAL_DATABITS_6 : Z := 128.
Definition USERIAL_DATABITS_7 : Z := 256.
Definition USERIAL_DATABITS_8 : Z := 512.
Definition USERIAL_HW_FLOW_CTRL_OFF : Z := 0.
Definition USERIAL_HW_FLOW_CTRL_ON : Z := 1.

Definition B600 : Z := 0x8.
Definition B1200 : Z := 0x9.
Definition B9600 : Z := 0xd.
Definition B19200 : Z := 0xe.
Definition B57600 : Z := 0x1001.
Definition B115200 : Z := 0x1002.
Definition B230400 : Z := 0x1003.
Definition B460800 : Z := 0x1004.
Definition B921600 : Z := 0x1007.
Definition B1000000 : Z := 0x1008.
Definition B1500000 : Z := 0x100a.
Definition B2000000 : Z := 0x100b.
Definition B3000000 : Z := 0x100d.
Definition B4000000 : Z := 0x100f.
Definition CBAUD : Z := 0x100f.
Definition CSIZE : Z := 0x30.
Definition CS8 : Z := 0x30.
Definition CSTOPB : Z := 0x40.
Definition PARENB : Z := 0x100.
Definition PARODD : Z := 0x200.
Definition CRTSCTS : Z := 0x80000000.

(** The C library's [cfmakeraw], [cfsetospeed] and [cfsetispeed]. *)
Definition cfmakeraw (t : termios) : termios :=
  Termios (Z.land (c_iflag t) (Z.lnot 0x5eb)) (Z.land (c_oflag t) (Z.lnot 0x1))
    (Z.lor (Z.land (c_cflag t) (Z.lnot (Z.lor CSIZE PARENB))) CS8)
    (Z.land (c_lflag t) (Z.lnot 0x804b)).
Definition with_cflag (c : Z) (t : termios) : termios := Termios (c_iflag t) (c_oflag t) c (c_lflag t).
Definition cfsetspeed (speed : Z) (t : termios) : termios :=
  with_cflag (Z.lor (Z.land (c_cflag t) (Z.lnot CBAUD)) (Z.land speed CBAUD)) t.

(** ** Speeds *)

Definition line_speed_to_userial_baud (line_speed : Z) : Z :=
  if line_speed =? 4000000 then USERIAL_BAUD_4M
  else if line_speed =? 3000000 then USERIAL_BAUD_3M
  else if line_speed =? 2000000 then USERIAL_BAUD_2M
  else if line_speed =? 1500000 then USERIAL_BAUD_1_5M
  else if line_speed =? 1000000 then USERIAL_BAUD_1M
  else if line_speed =? 921600 then USERIAL_BAUD_921600
  else if line_speed =? 460800 then USERIAL_BAUD_460800
  else if line_speed =? 230400 then USERIAL_BAUD_230400
  else if line_speed =? 115200 then USERIAL_BAUD_115200
  else if line_speed =? 57600 then USERIAL_BAUD_57600
  else if line_speed =? 19200 then USERIAL_BAUD_19200
  else if line_speed =? 9600 then USERIAL_BAUD_9600
  else if line_speed =? 1200 then USERIAL_BAUD_1200
  else if line_speed =? 600 then USERIAL_BAUD_600
  else USERIAL_BAUD_115200.

(** Pairs (rtk_speed, uart_speed). *)
Definition baudrates : list (Z * Z) :=
  [(0x00006004, 921600); (0x05F75004, 921600); (0x00004003, 1500000); (0x04928002, 1500000);
   (0x00005002, 2000000); (0x00008001, 3000000); (0x04928001, 3000000); (0x00007001, 3500000);
   (0x052A6001, 3500000); (0x00005001, 4000000); (0x0000701d, 115200); (0x0252C002, 115200)].

Fixpoint first_pair (p : Z * Z -> bool) (l : list (Z * Z)) : option (Z * Z) :=
  match l with
  | [] => None
  | e :: l' => if p e then Some e else first_pair p l'
  end.

Definition rtk_speed_to_uart_speed (rtk_speed : Z) : Z :=
  match first_pair (fun e => e.1 =? rtk_speed) baudrates with Some e => e.2 | None => 115200 end.
Definition uart_speed_to_rtk_speed (uart_speed : Z) : Z :=
  match first_pair (fun e => e.2 =? uart_speed) baudrates with Some e => e.1 | None => 0x701D end.

(** Whether the speed is supported, and the termios constant stored. *)
Definition userial_to_tcio_baud (cfg_baud : Z) : bool * Z :=
  if cfg_baud =? USERIAL_BAUD_115200 then (true, B115200)
  else if cfg_baud =? USERIAL_BAUD_4M then (true, B4000000)
  else if cfg_baud =? USERIAL_BAUD_3M then (true, B3000000)
  else if cfg_baud =? USERIAL_BAUD_2M then (true, B2000000)
  else if cfg_baud =? USERIAL_BAUD_1M then (true, B1000000)
  else if cfg_baud =? USERIAL_BAUD_1_5M then (true, B1500000)
  else if cfg_baud =? USERIAL_BAUD_921600 then (true, B921600)
  else if cfg_baud =? USERIAL_BAUD_460800 then (true, B460800)
  else if cfg_baud =? USERIAL_BAUD_230400 then (true, B230400)
  else if cfg_baud =? USERIAL_BAUD_57600 then (true, B57600)
  else if cfg_baud =? USERIAL_BAUD_19200 then (true, B19200)
  else if cfg_baud =? USERIAL_BAUD_9600 then (true, B9600)
  else if cfg_baud =? USERIAL_BAUD_1200 then (true, B1200)
  else if cfg_baud =? USERIAL_BAUD_600 then (true, B600)
  else (false, B115200).

(** ** The port *)

Record vnd_userial_cb_t := VndUserial { us_fd : Z; us_termios : termios; us_port_name : string }.

Definition with_fd (fd : Z) (u : vnd_userial_cb_t) := VndUserial fd (us_termios u) (us_port_name u).
Definition with_termios (t : termios) (u : vnd_userial_cb_t) := VndUserial (us_fd u) t (us_port_name u).
Definition with_port (p : string) (u : vnd_userial_cb_t) := VndUserial (us_fd u) (us_termios u) p.

Record tUSERIAL_CFG := UserialCfg { cfg_fmt : Z; cfg_baud : Z; cfg_hw_fctrl : Z }.

Definition UART_PORT_PREFIX : string := "/dev/ttyS".
Definition BT_UART_PROPERTY : string := "persist.service.bdroid.uart".

Definition has (fmt bit : Z) : bool := negb (Z.land fmt bit =? 0).

Section Userial.
Context {W : Type} `{OsOps W, BtOps W}.
Abbreviation S := (mach W vnd_userial_cb_t).

(** [dev] has room for 14 characters. *)
Definition userial_vendor_init (uart_id : Z) : M S unit :=
  set_glob (with_fd (-1)) ;;;
  set_glob (with_port (UART_PORT_PREFIX +:+ pretty uart_id)) ;;;
  let* _ := property_set BT_UART_PROPERTY
              (String.substring 0 14 (UART_PORT_PREFIX +:+ pretty uart_id)) in
  ret tt.

(** The parity and stop bits asked for, [None] when the format is refused. *)
Definition cfg_bits (fmt : Z) : option Z :=
  if negb (has fmt USERIAL_DATABITS_8 || has fmt USERIAL_DATABITS_7 ||
           has fmt USERIAL_DATABITS_6 || has fmt USERIAL_DATABITS_5) then None else
  match
    (if has fmt USERIAL_PARITY_NONE then Some 0
     else if has fmt USERIAL_PARITY_EVEN then Some PARENB
     else if has fmt USERIAL_PARITY_ODD then Some (Z.lor PARENB PARODD) else None)
  with
  | None => None
  | Some parity =>
      if has fmt USERIAL_STOPBITS_1 then Some parity
      else if has fmt USERIAL_STOPBITS_2 then Some (Z.lor CSTOPB parity)
      else None
  end.

Definition userial_vendor_open (p_cfg : tUSERIAL_CFG) : M S Z :=
  set_glob (with_fd (-1)) ;;;
  let '(ok, baud) := userial_to_tcio_baud (cfg_baud p_cfg) in
  if negb ok then ret (-1) else
  match cfg_bits (cfg_fmt p_cfg) with
  | None => ret (-1)
  | Some bits =>
    let* port := get_glob us_port_name in
    let* fd := c_open port in
    set_glob (with_fd fd) ;;;
    if fd =? -1 then ret (-1) else
    tcflush fd ;;;
    let* old := get_glob us_termios in
    let* got := ask (bt_tcgetattr fd) in
    let t := cfmakeraw (match got with Some t => t | None => old end) in
    let t :=
      if cfg_hw_fctrl p_cfg =? USERIAL_HW_FLOW_CTRL_ON
      then with_cflag (Z.lor (c_cflag t) (Z.lor CRTSCTS bits)) t
      else with_cflag (Z.lor (Z.land (c_cflag t) (Z.lnot CRTSCTS)) bits) t in
    let* _ := tcsetattr fd t in
    tcflush fd ;;;
    let* _ := tcsetattr fd t in
    tcflush fd ;;;
    tcflush fd ;;;
    let t := cfsetspeed baud (cfsetspeed baud t) in
    set_glob (with_termios t) ;;;
    let* _ := tcsetattr fd t in
    let* fd := get_glob us_fd in ret fd
  end.

Definition userial_vendor_close : M S unit :=
  let* fd := get_glob us_fd in
  if fd =? -1 then ret tt else
  c_close fd ;;; set_glob (with_fd (-1)).

Definition userial_vendor_set_baud (userial_baud : Z) : M S unit :=
  let tcio_baud := snd (userial_to_tcio_baud userial_baud) in
  let* t := get_glob us_termios in
  let t := cfsetspeed tcio_baud (cfsetspeed tcio_baud t) in
  set_glob (with_termios t) ;;;
  let* fd := get_glob us_fd in
  let* _ := tcsetattr fd t in
  tcflush fd.

(** Without BT_WAKE_VIA_USERIAL_IOCTL every operation is the default one. *)
Definition userial_vendor_ioctl : M S unit := ret tt.

(** [strcpy] into the 256-byte name. *)
Definition userial_set_port (p_conf_value : string) : M S Z :=
  if 256 <? Z.of_nat (String.length p_conf_value) + 1 then undef else
  set_glob (with_port p_conf_value) ;;; ret 0.

(** [junk] is the automatic [termios_old] when [tcgetattr] fails. *)
Definition userial_vendor_set_hw_fctrl (junk : termios) (hw_fctrl : Z) : M S unit :=
  let* fd := get_glob us_fd in
  if fd =? -1 then ret tt else
  let* got := ask (bt_tcgetattr fd) in
  let t := match got with Some t => t | None => junk end in
  if negb (hw_fctrl =? 0) then
    if has (c_cflag t) CRTSCTS then ret tt
    else let* _ := tcsetattr fd (with_cflag (Z.lor (c_cflag t) CRTSCTS) t) in ret tt
  else
    if has (c_cflag t) CRTSCTS
    then let* _ := tcsetattr fd (with_cflag (Z.land (c_cflag t) (Z.lnot CRTSCTS)) t) in ret tt
    else ret tt.
End Userial.
