(* ===== verification/BtUpio.v ===== *)
(** * libbt-vendor (rtl8723bs): power and wake lines

    [upio.c], built with BT_WAKE_VIA_PROC: the rfkill switch, the low power
    mode node, the btwrite node and its timer. *)

From stdpp Require Import pretty.
From S2P Require Import Prelude CLib Os BtEnv.

Definition VENDOR_LPM_PROC_NODE : string := "/proc/bluetooth/sleep/lpm".
Definition VENDOR_BTWRITE_PROC_NODE : string := "/proc/bluetooth/sleep/btwrite".
Definition PROC_BTWRITE_TIMER_TIMEOUT_MS : Z := 8000.

Definition UPIO_BT_POWER_OFF : Z := 0.
Definition UPIO_BT_POWER_ON : Z := 1.
Definition UPIO_BT_WAKE : Z := 0.
Definition UPIO_HOST_WAKE : Z := 1.
Definition UPIO_LPM_MODE : Z := 2.
Definition UPIO_UNKNOWN : Z := 0.
Definition UPIO_DEASSERT : Z := 1.
Definition UPIO_ASSERT : Z := 2.

(** [lpm_proc_cb], [upio_state] (its three entries) and the rfkill variables. *)
Record upio_g := Upio {
  btwrite_active : bool;
  timer_created : bool;
  st_bt_wake : Z;
  st_host_wake : Z;
  st_lpm_mode : Z;
  rfkill_id : Z;
  bt_emul_enable : Z;
  rfkill_state_path : string;
}.

Definition upio_initial : upio_g := Upio false false 0 0 0 (-1) 0 "".

Definition with_active (b : bool) (u : upio_g) :=
  Upio b (timer_created u) (st_bt_wake u) (st_host_wake u) (st_lpm_mode u) (rfkill_id u)
    (bt_emul_enable u) (rfkill_state_path u).
Definition with_timer (b : bool) (u : upio_g) :=
  Upio (btwrite_active u) b (st_bt_wake u) (st_host_wake u) (st_lpm_mode u) (rfkill_id u)
    (bt_emul_enable u) (rfkill_state_path u).
Definition with_bt_wake (a : Z) (u : upio_g) :=
  Upio (btwrite_active u) (timer_created u) a (st_host_wake u) (st_lpm_mode u) (rfkill_id u)
    (bt_emul_enable u) (rfkill_state_path u).
Definition with_lpm_mode (a : Z) (u : upio_g) :=
  Upio (btwrite_active u) (timer_created u) (st_bt_wake u) (st_host_wake u) a (rfkill_id u)
    (bt_emul_enable u) (rfkill_state_path u).
Definition with_rfkill (id : Z) (u : upio_g) :=
  Upio (btwrite_active u) (timer_created u) (st_bt_wake u) (st_host_wake u) (st_lpm_mode u) id
    (bt_emul_enable u) (rfkill_state_path u).
Definition with_emul (e : Z) (u : upio_g) :=
  Upio (btwrite_active u) (timer_created u) (st_bt_wake u) (st_host_wake u) (st_lpm_mode u)
    (rfkill_id u) e (rfkill_state_path u).
Definition with_path (p : string) (u : upio_g) :=
  Upio (btwrite_active u) (timer_created u) (st_bt_wake u) (st_host_wake u) (st_lpm_mode u)
    (rfkill_id u) (bt_emul_enable u) p.

(** ["bluetooth"] *)
Definition rfkill_bluetooth : bytes := [98; 108; 117; 101; 116; 111; 111; 116; 104].

Definition rfkill_type_path (id : Z) : string := "/sys/class/rfkill/rfkill" +:+ pretty id +:+ "/type".
Definition rfkill_state_of (id : Z) : string := "/sys/class/rfkill/rfkill" +:+ pretty id +:+ "/state".

Section Upio.
Context {W : Type} `{OsOps W, BtOps W}.
Abbreviation S := (mach W upio_g).

Definition is_emulator_context : M S bool :=
  let* value := property_get "ro.kernel.qemu" "0" in ret (String.eqb value "1").

Definition is_rfkill_disabled : M S Z :=
  let* value := property_get "ro.rfkilldisabled" "0" in
  ret (if String.eqb value "1" then UPIO_BT_POWER_ON else UPIO_BT_POWER_OFF).

(** The search of [init_rfkill] from [id]; it has no bound of its own, so
    running out of [fuel] is not returning. *)
Fixpoint find_rfkill (fuel : nat) (id : Z) : M S Z :=
  match fuel with
  | O => blocked
  | Datatypes.S fuel =>
      let* fd := c_open (rfkill_type_path id) in
      if fd <? 0 then ret (-1) else
      let* '(sz, buf) := c_read fd (zeros 16) 0 16 in
      c_close fd ;;;
      let* same := checked (memcmp_eq buf rfkill_bluetooth 9) in
      if (9 <=? sz) && same then set_glob (with_rfkill id) ;;; ret 0
      else find_rfkill fuel (id + 1)
  end.

Definition init_rfkill (fuel : nat) : M S Z :=
  let* d := is_rfkill_disabled in
  if negb (d =? 0) then ret (-1) else
  let* r := find_rfkill fuel 0 in
  if negb (r =? 0) then ret (-1) else
  let* id := get_glob rfkill_id in
  let path := rfkill_state_of id in
  let* p := c_malloc (Z.of_nat (String.length path) + 1) in      (* asprintf *)
  set_glob (with_path (if p =? 0 then "" else path)) ;;; ret 0.

Definition proc_btwrite_timeout : M S unit := set_glob (with_active false).

Definition upio_init : M S unit :=
  set_glob (fun u => Upio false false UPIO_UNKNOWN UPIO_UNKNOWN UPIO_UNKNOWN (rfkill_id u)
                       (bt_emul_enable u) (rfkill_state_path u)).

Definition upio_cleanup : M S unit :=
  let* created := get_glob timer_created in
  (if created : bool then timer_delete else ret tt) ;;;
  set_glob (with_timer false).

Definition upio_set_bluetooth_power (fuel : nat) (on : Z) : M S Z :=
  let buffer := if on =? UPIO_BT_POWER_ON then 49 else 48 in
  let* emulator := is_emulator_context in
  if emulator : bool then
    let* e := get_glob bt_emul_enable in
    if e =? on then ret (-1) else set_glob (with_emul on) ;;; ret 0
  else
  let* d := is_rfkill_disabled in
  if negb (d =? 0) then ret 0 else
  let* id := get_glob rfkill_id in
  let* failed := (if id =? -1 then let* r := init_rfkill fuel in ret (negb (r =? 0)) else ret false) in
  if failed : bool then ret (-1) else
  let* path := get_glob rfkill_state_path in
  let* fd := c_open path in
  if fd <? 0 then ret (-1) else
  let* sz := c_write fd [buffer] 0 1 in
  c_close fd ;;;
  ret (if sz <? 0 then -1 else 0).

(** [case UPIO_LPM_MODE]. *)
Definition set_lpm_mode (action : Z) : M S unit :=
  let* old := get_glob st_lpm_mode in
  if old =? action then ret tt else
  set_glob (with_lpm_mode action) ;;;
  let* fd := c_open VENDOR_LPM_PROC_NODE in
  if fd <? 0 then ret tt else
  let* buffer :=
    (if action =? UPIO_ASSERT then ret 49
     else
       let* created := get_glob timer_created in
       (if created : bool then timer_delete ;;; set_glob (with_timer false) else ret tt) ;;;
       ret 48) in
  let* r := c_write fd [buffer] 0 1 in
  (if r <? 0 then ret tt
   else if action =? UPIO_ASSERT then
     let* created := get_glob timer_created in
     if created : bool then ret tt
     else let* status := timer_create in
          if status =? 0 then set_glob (with_timer true) else ret tt
   else ret tt) ;;;
  c_close fd.

(** [case UPIO_BT_WAKE]. *)
Definition set_bt_wake (action : Z) : M S unit :=
  let* old := get_glob st_bt_wake in
  let* active := get_glob btwrite_active in
  if (old =? action) && active then ret tt else
  set_glob (with_bt_wake action) ;;;
  if action =? UPIO_DEASSERT then ret tt else
  let* fd := c_open VENDOR_BTWRITE_PROC_NODE in
  if fd <? 0 then ret tt else
  let* r := c_write fd [49] 0 1 in
  (if r <? 0 then ret tt
   else
     set_glob (with_active true) ;;;
     let* created := get_glob timer_created in
     if created : bool then timer_settime PROC_BTWRITE_TIMER_TIMEOUT_MS else ret tt) ;;;
  c_close fd.

Definition upio_set (pio action polarity : Z) : M S unit :=
  if pio =? UPIO_LPM_MODE then set_lpm_mode action
  else if pio =? UPIO_BT_WAKE then set_bt_wake action
  else ret tt.

(** The descriptor is not closed. *)
Definition upio_write_proc (path : string) (data : Z) : M S unit :=
  let* fd := c_open path in
  if fd <? 0 then ret tt else
  let* _ := c_write fd (le_put 4 data) 0 1 in
  ret tt.
End Upio.
