(* ===== verification/BtConfig.v ===== *)
(** * libbt-vendor (rtl8723bs): firmware and configuration files

    The parts of [hardware.c] that read and take apart the two files of a chip:
    the vendor configuration (baud rate, flow control) and the multi-patch
    firmware image.  Offsets are relative to the start of each file. *)

From S2P Require Import Prelude CLib Os BtEnv.

Definition RTK_VENDOR_CONFIG_MAGIC : Z := 0x8723ab55.
Definition ROM_LMP_8723a : Z := 0x1200.
Definition ROM_LMP_8723b : Z := 0x8723.
Definition ROM_LMP_8821a : Z := 0x8821.
Definition ROM_LMP_8761a : Z := 0x8761.

(** ["Realtech"] and 0x77FD0451. *)
Definition RTK_EPATCH_SIGNATURE : bytes := [0x52; 0x65; 0x61; 0x6C; 0x74; 0x65; 0x63; 0x68].
Definition Extension_Section_SIGNATURE : bytes := [0x51; 0x04; 0xFD; 0x77].

Definition project_id : list Z := [ROM_LMP_8723a; ROM_LMP_8723b; ROM_LMP_8821a; ROM_LMP_8761a].

(** ** The patch table *)

Record patch_info := PatchInfo { prod_id : Z; patch_name : string; config_name : string }.

Definition patch_table : list patch_info :=
  [PatchInfo ROM_LMP_8723a "rtl8723a_fw" "rtl8723a_config";
   PatchInfo ROM_LMP_8723b "rtl8723b_fw" "rtl8723b_config";
   PatchInfo ROM_LMP_8821a "rtl8821a_fw" "rtl8821a_config";
   PatchInfo ROM_LMP_8761a "rtl8761a_fw" "rtl8761a_config"].

(** The walk stops on the id or on an entry with id 0; [None] when it leaves the
    table. *)
Fixpoint find_patch (id : Z) (t : list patch_info) : option patch_info :=
  match t with
  | [] => None
  | e :: t' => if (prod_id e =? id) || (prod_id e =? 0) then Some e else find_patch id t'
  end.
Definition get_patch_entry (id : Z) : option patch_info := find_patch id patch_table.

(** ** The vendor configuration *)

(** [struct rtk_bt_vendor_config]: signature (4), data_len (2), then entries
    of offset (2), entry_len (1) and that many bytes of data. *)
Definition config_header : Z := 6.
Definition entry_header : Z := 3.

(** What the parse sets: the baud rate it returns, [gNeedToSetHWFlowControl]
    and [gHwFlowControlEnable]. *)
Record config_result := ConfigResult { cr_baudrate : Z; cr_need_fctrl : Z; cr_fctrl : Z }.

Definition rd8 (b : bytes) (off : Z) : option Z := bget b off.
Definition rd16 (b : bytes) (off : Z) : option Z :=
  if in_bounds off 2 b then Some (get_u16 b off) else None.
Definition rd32 (b : bytes) (off : Z) : option Z :=
  if in_bounds off 4 b then Some (get_u32 b off) else None.

(** One entry at [off]: the log of the entry 0xc reads [entry_data[12]]. *)
Definition parse_entry (b : bytes) (off : Z) (r : config_result) : option (Z * config_result) :=
  match rd16 b off, rd8 b (off + 2) with
  | Some offset, Some entry_len =>
      if offset =? 0xc then
        match rd32 b (off + entry_header), rd8 b (off + entry_header + 12) with
        | Some baudrate, Some d12 =>
            Some (entry_len + entry_header,
              if 12 <=? entry_len
              then ConfigResult baudrate 1 (if Z.land d12 0x4 =? 0 then 0 else 1)
              else ConfigResult baudrate 0 (cr_fctrl r))
        | _, _ => None
        end
      else Some (entry_len + entry_header, r)
  | _, _ => None
  end.

Fixpoint parse_entries (fuel : nat) (b : bytes) (config_len i : Z) (r : config_result)
  : option config_result :=
  if i <? config_len then
    match fuel with
    | O => None
    | S fuel =>
        match parse_entry b (config_header + i) r with
        | Some (temp, r) => parse_entries fuel b config_len (i + temp) r
        | None => None
        end
    end
  else Some r.

(** [need] and [fctrl] are the two globals before the call. *)
Definition rtk_parse_config_file (config_buf : bytes) (filelen need fctrl : Z) : option config_result :=
  match rd32 config_buf 0, rd16 config_buf 4 with
  | Some signature, Some config_len =>
      let none := ConfigResult 0 need fctrl in
      if negb (signature =? RTK_VENDOR_CONFIG_MAGIC) then Some none
      else if negb (config_len =? filelen - config_header) then Some none
      else parse_entries (length config_buf) config_buf config_len 0 none
  | _, _ => None
  end.

(** ** The extension section *)

(** The walk backwards from [t]: the position of the entry with opcode 0, or
    nothing when 0xFF ends it; [None] when it leaves the image. *)
Fixpoint find_extension (fuel : nat) (b : bytes) (t : Z) : option (option Z) :=
  match fuel with
  | O => None
  | S fuel =>
      match rd8 b t with
      | None => None
      | Some c =>
          if c =? 0 then Some (Some t) else
          match rd8 b (t - 1) with
          | None => None
          | Some l =>
              match rd8 b (t - (l + 2)) with
              | None => None
              | Some c' => if c' =? 0xFF then Some None else find_extension fuel b (t - (l + 2))
              end
          end
      end
  end.

(** ** The patches of an image *)

Record epatch_entry := EpatchEntry { chipID : Z; patch_length : Z; start_offset : Z }.

(** The loop over [number_of_total_patch] from [i], [n] rounds left. *)
Fixpoint find_epatch (n : nat) (b : bytes) (total i eversion : Z) : option (option epatch_entry) :=
  match n with
  | O => Some None
  | S n =>
      match rd16 b (14 + 2 * i) with
      | None => None
      | Some chip =>
          if chip =? eversion + 1 then
            match rd16 b (14 + 2 * total + 2 * i), rd32 b (14 + 4 * total + 4 * i) with
            | Some len, Some off => Some (Some (EpatchEntry (eversion + 1) len off))
            | _, _ => None
            end
          else find_epatch n b total (i + 1) eversion
      end
  end.

(** ** Reading the files *)

(** A pointer to a heap block: NULL, the block, or a block already freed. *)
Inductive cptr := PNull | PLive (addr : Z) (b : bytes) | PFreed.

Section Files.
Context {W G : Type} `{OsOps W, BtOps W}.
Abbreviation S := (mach W G).

Definition RTLBT : string := "/system/etc/firmware/rtlbt/".

(** The value returned ([uint32_t], -1 on failure, as the [int] it is stored
    in), the caller's buffer pointer, and what the parse found. *)
Definition rtk_get_bt_config (short_name : string) (need fctrl : Z)
  : M S (Z * cptr * option config_result) :=
  let name := RTLBT +:+ short_name in
  let* st := stat name in
  match st with
  | None => ret (-1, PNull, None)
  | Some filelen =>
    let* fd := c_open name in
    if fd <? 0 then ret (-1, PNull, None) else
    let* p := c_malloc filelen in
    if p =? 0 then ret (-1, PNull, None) else
    let* '(r, buf) := c_read fd (zeros filelen) 0 filelen in
    if r <? filelen then c_free p ;;; c_close fd ;;; ret (-1, PFreed, None) else
    let* cr := checked (rtk_parse_config_file buf filelen need fctrl) in
    c_close fd ;;; ret (s32 filelen, PLive p buf, Some cr)
  end.

(** Only the first [fwsize] bytes of the block are written. *)
Definition rtk_get_bt_firmware (addi_len : Z) (short_name : string) : M S (Z * cptr) :=
  let name := RTLBT +:+ short_name in
  let* st := stat name in
  match st with
  | None => ret (-1, PNull)
  | Some fwsize =>
    let buf_size := fwsize + addi_len in
    let* fd := c_open name in
    if fd <? 0 then ret (-1, PNull) else
    let* p := c_malloc buf_size in
    if p =? 0 then c_close fd ;;; ret (-1, PNull) else
    let* '(r, buf) := c_read fd (zeros buf_size) 0 fwsize in
    if r <? fwsize then c_free p ;;; c_close fd ;;; ret (-1, PNull) else
    c_close fd ;;; ret (s32 buf_size, PLive p buf)
  end.
End Files.

(** ** Reading a field between known bytes *)

Lemma bget_app_r pre b off : 0 <= off -> bget (pre ++ b) (lenZ pre + off) = bget b off.
Proof.
  intros H. unfold bget, lenZ. rewrite !(proj2 (Z.ltb_ge _ _)) by lia.
  rewrite lookup_app_r by lia. f_equal. lia.
Qed.

Lemma bslice_app_mid pre m post :
  bslice (lenZ pre) (lenZ m) (pre ++ m ++ post) = m.
Proof.
  unfold bslice, lenZ. rewrite !Nat2Z.id, drop_app_length. by rewrite take_app_length.
Qed.

Lemma in_bounds_mid pre m post : in_bounds (lenZ pre) (lenZ m) (pre ++ m ++ post) = true.
Proof.
  apply in_bounds_spec. rewrite !lenZ_app. pose proof (lenZ_nonneg pre). pose proof (lenZ_nonneg m).
  pose proof (lenZ_nonneg post). lia.
Qed.

Lemma rd16_mid pre z post : 0 <= z < 65536 -> rd16 (pre ++ le_put 2 z ++ post) (lenZ pre) = Some z.
Proof.
  intros Hz. unfold rd16, get_u16. change 2 with (lenZ (le_put 2 z)).
  rewrite in_bounds_mid, bslice_app_mid, le_get_put. f_equal. apply Z.mod_small. done.
Qed.
Lemma rd32_mid pre z post : 0 <= z < 4294967296 -> rd32 (pre ++ le_put 4 z ++ post) (lenZ pre) = Some z.
Proof.
  intros Hz. unfold rd32, get_u32. change 4 with (lenZ (le_put 4 z)).
  rewrite in_bounds_mid, bslice_app_mid, le_get_put. f_equal. apply Z.mod_small. done.
Qed.

Lemma rd32_take pre d post : 4 <= lenZ d -> rd32 (pre ++ d ++ post) (lenZ pre) = Some (le_get (take 4 d)).
Proof.
  intros Hd. unfold rd32, get_u32.
  assert (lenZ (take 4 d) = 4) as H4 by (unfold lenZ in *; rewrite length_take; lia).
  assert (pre ++ d ++ post = pre ++ take 4 d ++ (drop 4 d ++ post)) as ->
    by (rewrite (app_assoc (take 4 d)), take_drop; done).
  rewrite <- H4. by rewrite in_bounds_mid, bslice_app_mid.
Qed.
