(* ===== verification/BtHardware.v ===== *)
(** * libbt-vendor (rtl8723bs): the controller configuration

    [hardware.c]: the commands the library sends, the callbacks the stack runs
    on the events that answer them, and [hw_config_cback], the state machine that
    prepares the firmware, switches the speed of both ends and downloads the
    firmware packet by packet.  What reaches the stack is recorded in a trace. *)

From S2P Require Import Prelude CLib Os BtEnv BtUserial BtUpio BtConfig.

Definition PATCH_DATA_FIELD_MAX_SIZE : Z := 252.
Definition HCI_CMD_MAX_LEN : Z := 258.
Definition HCI_RESET : Z := 0x0C03.
Definition HCI_VSC_UPDATE_BAUDRATE : Z := 0xFC17.
Definition HCI_VSC_DOWNLOAD_FW_PATCH : Z := 0xFC20.
Definition HCI_VENDOR_READ_RTK_ROM_VERISION : Z := 0xFC6D.
Definition HCI_READ_LMP : Z := 0x1001.
Definition HCI_VSC_H5_INIT : Z := 0xFCEE.
Definition HCI_EVT_CMD_CMPL_OPCODE : Z := 3.
Definition HCI_EVT_CMD_CMPL_STATUS_RET_BYTE : Z := 5.
Definition LPM_CMD_PARAM_SIZE : Z := 12.
Definition HCI_CMD_PREAMBLE_SIZE : Z := 3.

Definition HW_CFG_START : Z := 2.
Definition HW_CFG_SET_UART_BAUD_HOST : Z := 3.
Definition HW_CFG_SET_UART_BAUD_CONTROLLER : Z := 4.
Definition HW_CFG_DL_FW_PATCH : Z := 5.

Inductive rom_state := cmd_not_send | cmd_has_sent | cmd_sent_event_timeout | event_received.
Inductive sig_handler := rtk_get_eversion_timeout_h | rtk_get_lmp_timeout_h.

(** The completion callback given with a command. *)
Inductive hc_cback := CbConfig | CbGetLmp | CbLmp | CbEpilog.

(** What the library does to the stack and to time. *)
Inductive bt_event :=
| Xmit (opcode : Z) (cmd : bytes) (cb : hc_cback)
| FwcfgCb (ok : bool)
| LpmCb (status : Z)
| EpilogCb (ok : bool)
| Delay (ms : Z).

(** ** Globals *)

(** The callbacks the stack gave, its buffers the library holds, the trace. *)
Record stack_g := Stack { bt_vendor_cbacks : bool; hc_live : Z; trace : list bt_event }.

Record chip_g := Chip {
  hw_state : Z;                       (* hw_cfg_cb.state *)
  fw_fd : Z;                          (* hw_cfg_cb.fw_fd *)
  gHwFlowControlEnable : Z;
  gNeedToSetHWFlowControl : Z;
  gEVersion : Z;
  need_download_fw : Z;
  lmp_version : Z;
  gRom_version_cmd_state : rom_state;
  alarm_set : option sig_handler;
}.

(** The static variables of [hw_config_cback]; [bufpatch] points into [buf]. *)
Record dl_g := Dl {
  buf_len : Z;
  buf : option (Z * bytes);
  baudrate : Z;
  iCurIndex : Z;
  iCurLen : Z;
  iEndIndex : Z;
  iLastPacketLen : Z;
  iAdditionPkt : Z;
  iTotalIndex : Z;
  bufpatch : option Z;
  iIndexRx : Z;
}.

Record hw_g := Hw {
  hw_user : vnd_userial_cb_t;
  hw_upio : upio_g;
  hw_stack : stack_g;
  hw_chip : chip_g;
  hw_dl : dl_g;
}.

Definition with_user (u : vnd_userial_cb_t) (g : hw_g) := Hw u (hw_upio g) (hw_stack g) (hw_chip g) (hw_dl g).
Definition with_upio (u : upio_g) (g : hw_g) := Hw (hw_user g) u (hw_stack g) (hw_chip g) (hw_dl g).
Definition on_stack (f : stack_g -> stack_g) (g : hw_g) :=
  Hw (hw_user g) (hw_upio g) (f (hw_stack g)) (hw_chip g) (hw_dl g).
Definition on_chip (f : chip_g -> chip_g) (g : hw_g) :=
  Hw (hw_user g) (hw_upio g) (hw_stack g) (f (hw_chip g)) (hw_dl g).
Definition on_dl (f : dl_g -> dl_g) (g : hw_g) :=
  Hw (hw_user g) (hw_upio g) (hw_stack g) (hw_chip g) (f (hw_dl g)).

Definition set_state (n : Z) (c : chip_g) :=
  Chip n (fw_fd c) (gHwFlowControlEnable c) (gNeedToSetHWFlowControl c) (gEVersion c)
    (need_download_fw c) (lmp_version c) (gRom_version_cmd_state c) (alarm_set c).
Definition set_fw_fd (fd : Z) (c : chip_g) :=
  Chip (hw_state c) fd (gHwFlowControlEnable c) (gNeedToSetHWFlowControl c) (gEVersion c)
    (need_download_fw c) (lmp_version c) (gRom_version_cmd_state c) (alarm_set c).
Definition set_fctrl (need on : Z) (c : chip_g) :=
  Chip (hw_state c) (fw_fd c) on need (gEVersion c)
    (need_download_fw c) (lmp_version c) (gRom_version_cmd_state c) (alarm_set c).
Definition set_eversion (v : Z) (c : chip_g) :=
  Chip (hw_state c) (fw_fd c) (gHwFlowControlEnable c) (gNeedToSetHWFlowControl c) v
    (need_download_fw c) (lmp_version c) (gRom_version_cmd_state c) (alarm_set c).
Definition no_download (c : chip_g) :=
  Chip (hw_state c) (fw_fd c) (gHwFlowControlEnable c) (gNeedToSetHWFlowControl c) (gEVersion c)
    0 (lmp_version c) (gRom_version_cmd_state c) (alarm_set c).
Definition set_lmp (v : Z) (c : chip_g) :=
  Chip (hw_state c) (fw_fd c) (gHwFlowControlEnable c) (gNeedToSetHWFlowControl c) (gEVersion c)
    (need_download_fw c) v (gRom_version_cmd_state c) (alarm_set c).
Definition set_rom (r : rom_state) (c : chip_g) :=
  Chip (hw_state c) (fw_fd c) (gHwFlowControlEnable c) (gNeedToSetHWFlowControl c) (gEVersion c)
    (need_download_fw c) (lmp_version c) r (alarm_set c).
Definition set_alarm (a : option sig_handler) (c : chip_g) :=
  Chip (hw_state c) (fw_fd c) (gHwFlowControlEnable c) (gNeedToSetHWFlowControl c) (gEVersion c)
    (need_download_fw c) (lmp_version c) (gRom_version_cmd_state c) a.

Definition set_buf (n : Z) (b : option (Z * bytes)) (d : dl_g) :=
  Dl n b (baudrate d) (iCurIndex d) (iCurLen d) (iEndIndex d) (iLastPacketLen d) (iAdditionPkt d)
    (iTotalIndex d) (bufpatch d) (iIndexRx d).
Definition set_baudrate (n : Z) (d : dl_g) :=
  Dl (buf_len d) (buf d) n (iCurIndex d) (iCurLen d) (iEndIndex d) (iLastPacketLen d) (iAdditionPkt d)
    (iTotalIndex d) (bufpatch d) (iIndexRx d).
Definition set_cur (i len : Z) (p : option Z) (d : dl_g) :=
  Dl (buf_len d) (buf d) (baudrate d) i len (iEndIndex d) (iLastPacketLen d) (iAdditionPkt d)
    (iTotalIndex d) p (iIndexRx d).
Definition set_rx (i : Z) (d : dl_g) :=
  Dl (buf_len d) (buf d) (baudrate d) (iCurIndex d) (iCurLen d) (iEndIndex d) (iLastPacketLen d)
    (iAdditionPkt d) (iTotalIndex d) (bufpatch d) i.
Definition set_plan (e l a t : Z) (p : option Z) (d : dl_g) :=
  Dl (buf_len d) (buf d) (baudrate d) (iCurIndex d) (iCurLen d) e l a t p (iIndexRx d).

(** The statics as [HW_CFG_START] resets them. *)
Definition dl_reset : dl_g := Dl (-1) None 0 0 0 0 0 0 0 None 0.

Section Hardware.
Context {W : Type} `{OsOps W, BtOps W}.
(** What an automatic [struct termios] holds before it is written. *)
Variable junk : termios.
Abbreviation S := (mach W hw_g).

Definition chip {A} (f : chip_g -> A) : M S A := get_glob (fun g => f (hw_chip g)).
Definition dl {A} (f : dl_g -> A) : M S A := get_glob (fun g => f (hw_dl g)).
Definition set_chip (f : chip_g -> chip_g) : M S unit := set_glob (on_chip f).
Definition set_dl (f : dl_g -> dl_g) : M S unit := set_glob (on_dl f).
Definition in_user {A} (m : M (mach W vnd_userial_cb_t) A) : M S A := zoom hw_user with_user m.
Definition in_upio {A} (m : M (mach W upio_g) A) : M S A := zoom hw_upio with_upio m.

(** ** The callbacks of the stack *)

Definition has_cbacks : M S bool := get_glob (fun g => bt_vendor_cbacks (hw_stack g)).
Definition emit (e : bt_event) : M S unit :=
  set_glob (on_stack (fun k => Stack (bt_vendor_cbacks k) (hc_live k) (trace k ++ [e]))).
Definition hc_count (n : Z) : M S unit :=
  set_glob (on_stack (fun k => Stack (bt_vendor_cbacks k) (hc_live k + n) (trace k))).
Definition hc_alloc (n : Z) : M S bool :=
  let* ok := on_world (bt_alloc n) in
  (if ok : bool then hc_count 1 else ret tt) ;;; ret ok.
Definition hc_dealloc : M S unit := hc_count (-1).
(** The stack owns the buffer when it answers TRUE. *)
Definition hc_xmit (opcode : Z) (cmd : bytes) (cb : hc_cback) : M S Z :=
  let* r := on_world (bt_xmit opcode cmd) in
  emit (Xmit opcode cmd cb) ;;;
  (if r =? 0 then ret tt else hc_count (-1)) ;;;
  ret r.
Definition fwcfg_cb (ok : bool) : M S unit := emit (FwcfgCb ok).
Definition ms_delay (timeout : Z) : M S unit := if timeout =? 0 then ret tt else emit (Delay timeout).

Definition uint16_stream (n : Z) : bytes := [u8 n; u8 (Z.shiftr n 8)].
Definition uint32_stream (n : Z) : bytes :=
  [u8 n; u8 (Z.shiftr n 8); u8 (Z.shiftr n 16); u8 (Z.shiftr n 24)].

(** ** Commands *)

Definition hw_config_set_controller_baudrate (baudrate : Z) : M S Z :=
  set_chip (set_state HW_CFG_SET_UART_BAUD_HOST) ;;;
  hc_xmit HCI_VSC_UPDATE_BAUDRATE
    (uint16_stream HCI_VSC_UPDATE_BAUDRATE ++ [4] ++ uint32_stream baudrate) CbConfig.

(** [data] is the [len] bytes copied. *)
Definition hci_download_patch_h4 (index : Z) (data : bytes) (len : Z) : M S Z :=
  set_chip (set_state HW_CFG_DL_FW_PATCH) ;;;
  hc_xmit HCI_VSC_DOWNLOAD_FW_PATCH
    (uint16_stream HCI_VSC_DOWNLOAD_FW_PATCH ++ [u8 (1 + len)] ++ [u8 index] ++ data) CbConfig.

Definition rtk_get_eversion_timeout : M S unit :=
  set_chip no_download ;;;
  let* ok := has_cbacks in if ok : bool then fwcfg_cb true else undef.
Definition rtk_get_lmp_timeout : M S unit :=
  set_chip no_download ;;;
  let* ok := has_cbacks in if ok : bool then fwcfg_cb true else undef.

(** A three-byte command, then a one-second alarm. *)
Definition rtk_get_eversion : M S unit :=
  let* ok := has_cbacks in if negb ok then undef else
  let* ok := hc_alloc HCI_CMD_MAX_LEN in if negb ok then undef else
  let* _ := hc_xmit HCI_VENDOR_READ_RTK_ROM_VERISION
              (uint16_stream HCI_VENDOR_READ_RTK_ROM_VERISION ++ [0]) CbConfig in
  set_chip (set_rom cmd_has_sent) ;;;
  set_chip (set_alarm (Some rtk_get_eversion_timeout_h)).

Definition rtk_get_lmp : M S unit :=
  let* ok := has_cbacks in if negb ok then undef else
  let* ok := hc_alloc HCI_CMD_MAX_LEN in if negb ok then undef else
  let* _ := hc_xmit HCI_READ_LMP (uint16_stream HCI_READ_LMP ++ [0]) CbLmp in
  set_chip (set_rom cmd_has_sent) ;;;
  set_chip (set_alarm (Some rtk_get_lmp_timeout_h)).

(** ** HW_CFG_START *)

(** The answer to the ROM version command. *)
Definition cfg_read_eversion (ev : bytes) : M S unit :=
  let* status := checked (bget ev HCI_EVT_CMD_CMPL_STATUS_RET_BYTE) in
  set_chip (set_rom event_received) ;;; set_chip (set_alarm None) ;;;
  if status =? 0 then
    let* v := checked (bget ev (HCI_EVT_CMD_CMPL_STATUS_RET_BYTE + 1)) in
    set_chip (set_eversion v)
  else if status =? 1 then set_chip (set_eversion 0)
  else ret tt.

(** [memcpy (&buf[off], src, n)] inside the new image. *)
Definition copy_to (b : bytes) (off : Z) (src : bytes) (n : Z) : M S bytes :=
  checked (memcpy b off src n).

(** The image of an 8723a: the file as it is, then the configuration. *)
Definition cfg_image_8723a (addr : Z) (epatch : bytes) (len config_len : Z) (config : bytes) : M S unit :=
  let* same := checked (memcmp_eq epatch RTK_EPATCH_SIGNATURE 8) in
  if same : bool then set_chip no_download else
  let* p := c_malloc len in
  if p =? 0 then set_dl (set_buf (-1) None) else
  let* b := copy_to (zeros len) 0 epatch len in
  c_free addr ;;;
  let* b := (if config_len =? 0 then ret b else copy_to b (len - config_len) config config_len) in
  set_dl (set_buf len (Some (p, b))).

(** The patch of this ROM version, its last four bytes the firmware version,
    then the configuration. *)
Definition cfg_take_patch (addr : Z) (epatch : bytes) (e : epatch_entry) (config_len : Z)
    (config : bytes) : M S unit :=
  let len := patch_length e + config_len in
  let* p := c_malloc len in
  if p =? 0 then
    set_dl (set_buf (-1) None) ;;; c_free addr ;;;
    if config_len =? 0 then ret tt else undef
  else
    let* src := checked (if in_bounds (start_offset e) (patch_length e) epatch
                         then Some (bslice (start_offset e) (patch_length e) epatch) else None) in
    let* b := copy_to (zeros len) 0 src (patch_length e) in
    let* v := checked (if in_bounds 8 4 epatch then Some (bslice 8 4 epatch) else None) in
    let* b := copy_to b (patch_length e - 4) v 4 in
    c_free addr ;;;
    let* b := (if config_len =? 0 then ret b else copy_to b (len - config_len) config config_len) in
    set_dl (set_buf len (Some (p, b))).

(** The image of the other chips. [current_entry] is an automatic variable
    that only a match assigns, [patch_lmp.data] one that only an entry with
    opcode 0 assigns. *)
Definition cfg_image_epatch (addr : Z) (epatch : bytes) (len config_len : Z) (config : bytes) : M S unit :=
  let* sig := checked (if in_bounds (len - config_len - 4) 4 epatch
                       then Some (bslice (len - config_len - 4) 4 epatch) else None) in
  if bool_decide (sig <> Extension_Section_SIGNATURE) then set_chip no_download else
  let* found := checked (find_extension (length epatch) epatch (len - config_len - 5)) in
  let* t := checked found in
  let* length_ := checked (rd8 epatch (t - 1)) in
  let* data := c_malloc length_ in
  let* lmp_data := checked (if (data =? 0) || (length_ <=? 0) || negb (in_bounds (t - 2) length_ epatch)
                            then None else rd8 epatch (t - 2)) in
  let* id := checked (project_id !! Z.to_nat lmp_data) in
  let* lmp := chip lmp_version in
  if negb (lmp =? id) then set_chip no_download else
  let* same := checked (memcmp_eq epatch RTK_EPATCH_SIGNATURE 8) in
  if negb same then set_chip no_download else
  let* total := checked (rd16 epatch 12) in
  let* v := chip gEVersion in
  let* e := checked (find_epatch (Z.to_nat total) epatch total 0 v) in
  let* e := checked e in
  cfg_take_patch addr epatch e config_len config.

(** The two files; the value is [config_len]. *)
Definition cfg_load : M S Z :=
  let* lmp := chip lmp_version in
  let* entry := checked (get_patch_entry lmp) in
  let* on := chip gHwFlowControlEnable in
  let* need := chip gNeedToSetHWFlowControl in
  let* '(config_len, config_ptr, cr) := rtk_get_bt_config (config_name entry) need on in
  (match cr with
   | Some c => set_dl (set_baudrate (cr_baudrate c)) ;;; set_chip (set_fctrl (cr_need_fctrl c) (cr_fctrl c))
   | None => ret tt
   end) ;;;
  let config_len := if config_len <? 0 then 0 else config_len in
  let config := match config_ptr with PLive _ b => b | _ => [] end in
  let* '(len, epatch_ptr) := rtk_get_bt_firmware config_len (patch_name entry) in
  set_dl (fun d => set_buf len (buf d) d) ;;;
  (match epatch_ptr with
   | PLive addr epatch =>
       if len <? 0 then ret tt
       else if lmp =? ROM_LMP_8723a then cfg_image_8723a addr epatch len config_len config
       else cfg_image_epatch addr epatch len config_len config
   | _ => ret tt
   end) ;;;
  (match config_ptr with
   | PNull => ret tt
   | PLive addr _ => c_free addr
   | PFreed => undef
   end) ;;;
  ret config_len.

(** The number of packets: padded so that, with the commands around them, a
    multiple of eight is sent. *)
Definition cfg_plan : M S unit :=
  let* n := dl buf_len in
  let* speed := dl baudrate in
  let* lmp := chip lmp_version in
  let iEnd := u8 ((n - 1) / PATCH_DATA_FIELD_MAX_SIZE) in
  let iLast := u8 (n mod PATCH_DATA_FIELD_MAX_SIZE) in
  let extra := if negb (speed =? 0) && negb (lmp =? ROM_LMP_8723a) then 4
               else if (negb (speed =? 0) && (lmp =? ROM_LMP_8723a)) ||
                       ((speed =? 0) && negb (lmp =? ROM_LMP_8723a)) then 3
               else 2 in
  let iAdd := u8 (if (iEnd + extra) mod 8 =? 0 then 0 else 8 - (iEnd + extra) mod 8) in
  set_dl (set_plan iEnd (if iLast =? 0 then PATCH_DATA_FIELD_MAX_SIZE else iLast) iAdd (u8 (iAdd + iEnd))
            (Some 0)).

(** ** HW_CFG_DL_FW_PATCH *)

(** The acknowledgement of a packet: its index, and the move to the next. *)
Definition dl_ack (ev : bytes) : M S unit :=
  let* rx := checked (bget ev (HCI_EVT_CMD_CMPL_STATUS_RET_BYTE + 1)) in
  set_dl (set_rx rx) ;;;
  let* cur := dl iCurIndex in
  let* last := dl iEndIndex in
  let* p := dl bufpatch in
  let* p := (if cur <? last then
               let* p := checked p in ret (Some (p + PATCH_DATA_FIELD_MAX_SIZE))
             else ret p) in
  let* len := dl iCurLen in
  set_dl (set_cur (u8 (cur + 1)) len p).

(** The download is complete. *)
Definition dl_finish : M S bool :=
  let* b := dl buf in
  (match b with
   | Some (addr, _) => c_free addr ;;; set_dl (fun d => set_buf (buf_len d) None d)
   | None => ret tt
   end) ;;;
  hc_dealloc ;;; fwcfg_cb true ;;;
  set_chip (set_state 0) ;;;
  let* fd := chip fw_fd in
  (if fd =? -1 then ret tt else c_close fd ;;; set_chip (set_fw_fd (-1))) ;;;
  ret true.

(** The next packet: data, the last data, padding, or the end packet. *)
Definition dl_send : M S bool :=
  let* cur := dl iCurIndex in
  let* last := dl iEndIndex in
  let* total := dl iTotalIndex in
  let* p := dl bufpatch in
  let* last_len := dl iLastPacketLen in
  let '(cur', len, p') :=
    if cur <? last then (Z.land cur 0x7F, PATCH_DATA_FIELD_MAX_SIZE, p)
    else if cur =? last then
      ((if cur =? total then Z.lor cur 0x80 else Z.land cur 0x7F), last_len, p)
    else if cur <? total then (Z.land cur 0x7F, 0, None)
    else (Z.lor cur 0x80, 0, None) in
  set_dl (set_cur cur' len p') ;;;
  let* b := dl buf in
  let* data := (if len =? 0 then ret [] else
                checked (match b, p' with
                         | Some (_, b), Some off =>
                             if in_bounds off len b then Some (bslice off len b) else None
                         | _, _ => None
                         end)) in
  let* r := hci_download_patch_h4 cur' data len in
  (if negb (Z.land cur' 0x80 =? 0) then
     let* need := chip gNeedToSetHWFlowControl in
     let* on := chip gHwFlowControlEnable in
     if need =? 0 then ret tt
     else in_user (userial_vendor_set_hw_fctrl junk (if on =? 0 then 0 else 1))
   else ret tt) ;;;
  ret (negb (r =? 0)).

(** From the label [DOWNLOAD_FW]: [p_evt_buf] and [opcode] are automatic
    variables that only an event assigns. *)
Definition cfg_download (p_mem : option bytes) (opcode : option Z) : M S bool :=
  let* ev := checked p_mem in
  let* _ := checked (bget ev HCI_EVT_CMD_CMPL_STATUS_RET_BYTE) in
  let* opcode := checked opcode in
  (if opcode =? HCI_VSC_DOWNLOAD_FW_PATCH then dl_ack ev else ret tt) ;;;
  let* rx := dl iIndexRx in
  let* total := dl iTotalIndex in
  if (opcode =? HCI_VSC_DOWNLOAD_FW_PATCH) && (negb (Z.land rx 0x80 =? 0) || (rx =? total))
  then dl_finish else dl_send.

Definition cfg_baud_controller : M S bool :=
  let* speed := dl baudrate in
  let* r := hw_config_set_controller_baudrate speed in
  ret (negb (r =? 0)).

Definition cfg_baud_host : M S unit :=
  ms_delay 100 ;;;
  let* speed := dl baudrate in
  in_user (userial_vendor_set_baud (line_speed_to_userial_baud (rtk_speed_to_uart_speed speed))) ;;;
  ms_delay 100.

Definition cfg_start (p_mem : option bytes) (opcode : option Z) : M S bool :=
  let* lmp := chip lmp_version in
  (match p_mem with
   | Some ev => if lmp =? ROM_LMP_8723a then ret tt else cfg_read_eversion ev
   | None => ret tt
   end) ;;;
  set_dl (fun _ => dl_reset) ;;;
  let* on := chip gHwFlowControlEnable in
  set_chip (set_fctrl 0 on) ;;;
  let* config_len := cfg_load in
  let* n := dl buf_len in
  let* need := chip need_download_fw in
  if (0 <? n) && negb (need =? 0) then
    cfg_plan ;;;
    if config_len =? 0 then cfg_download p_mem opcode else cfg_baud_controller
  else
    hc_dealloc ;;; fwcfg_cb true ;;; set_chip (set_state 0) ;;; ret true.

(** [switch (hw_cfg_cb.state)]. *)
Definition cfg_switch (p_mem : option bytes) (opcode : option Z) : M S bool :=
  let* st := chip hw_state in
  if st =? HW_CFG_START then cfg_start p_mem opcode
  else if st =? HW_CFG_SET_UART_BAUD_CONTROLLER then cfg_baud_controller
  else if st =? HW_CFG_SET_UART_BAUD_HOST then cfg_baud_host ;;; cfg_download p_mem opcode
  else if st =? HW_CFG_DL_FW_PATCH then cfg_download p_mem opcode
  else ret false.

(** ** The callbacks *)

Definition hw_config_cback (p_mem : option bytes) : M S unit :=
  let* opcode :=
    match p_mem with
    | Some ev =>
        let* _ := checked (bget ev HCI_EVT_CMD_CMPL_STATUS_RET_BYTE) in
        let* op := checked (rd16 ev HCI_EVT_CMD_CMPL_OPCODE) in ret (Some op)
    | None => ret None
    end in
  let* cbacks := has_cbacks in
  let* p_buf := (if cbacks : bool then hc_alloc HCI_CMD_MAX_LEN else ret false) in
  let* is_proceeding :=
    (if p_buf : bool then cfg_switch p_mem opcode else ret false) in
  (match p_mem with
   | Some _ => if cbacks : bool then hc_dealloc else ret tt
   | None => ret tt
   end) ;;;
  if is_proceeding : bool then ret tt else
  (if cbacks : bool then
     (if p_buf : bool then hc_dealloc else ret tt) ;;; fwcfg_cb false
   else ret tt) ;;;
  let* fd := chip fw_fd in
  (if fd =? -1 then ret tt else c_close fd ;;; set_chip (set_fw_fd (-1))) ;;;
  set_chip (set_state 0).

Definition rtk_get_lmp_cback (ev : bytes) : M S unit :=
  set_chip (set_rom event_received) ;;; set_chip (set_alarm None) ;;;
  let* status := checked (bget ev HCI_EVT_CMD_CMPL_STATUS_RET_BYTE) in
  (if status =? 0 then
     let* v := checked (rd16 ev LPM_CMD_PARAM_SIZE) in
     set_chip (set_lmp v) ;;;
     if v =? ROM_LMP_8723a then hw_config_cback None else rtk_get_eversion
   else ret tt) ;;;
  let* cbacks := has_cbacks in
  if cbacks : bool then emit (LpmCb status) ;;; hc_dealloc else ret tt.

Definition hw_lpm_ctrl_cback (ev : bytes) : M S unit :=
  let* status := checked (bget ev HCI_EVT_CMD_CMPL_STATUS_RET_BYTE) in
  let* cbacks := has_cbacks in
  if cbacks : bool then
    emit (LpmCb (if status =? 0 then 0 else 1)) ;;; hc_dealloc
  else ret tt.

Definition rtl_hw_lpm_enable (turn_on : Z) : M S unit :=
  in_upio (upio_set UPIO_LPM_MODE (if turn_on =? 0 then UPIO_DEASSERT else UPIO_ASSERT) 0).

Definition hw_config_start : M S unit :=
  set_chip (fun c => set_fw_fd (-1) (set_state 0 c)) ;;;
  let* cbacks := has_cbacks in
  let* p_buf := (if cbacks : bool then hc_alloc 2 else ret false) in
  if p_buf : bool then
    set_chip (set_state HW_CFG_START) ;;;
    let* _ := hc_xmit HCI_VSC_H5_INIT (uint16_stream HCI_VSC_H5_INIT) CbGetLmp in
    ret tt
  else if cbacks : bool then fwcfg_cb false else ret tt.

(** [hw_epilog_process] and its callback, built with HW_END_WITH_HCI_RESET. *)
Definition hw_epilog_cback (ev : bytes) : M S unit :=
  let* _ := checked (bget ev HCI_EVT_CMD_CMPL_STATUS_RET_BYTE) in
  let* _ := checked (rd16 ev HCI_EVT_CMD_CMPL_OPCODE) in
  let* cbacks := has_cbacks in
  if cbacks : bool then hc_dealloc ;;; emit (EpilogCb true) else ret tt.

Definition hw_epilog_process : M S unit :=
  let* cbacks := has_cbacks in
  let* p_buf := (if cbacks : bool then hc_alloc HCI_CMD_PREAMBLE_SIZE else ret false) in
  if p_buf : bool then
    let* _ := hc_xmit HCI_RESET (uint16_stream HCI_RESET ++ [0]) CbEpilog in ret tt
  else if cbacks : bool then emit (EpilogCb false) else ret tt.

(** An event goes to the callback of its command; [rtk_get_lmp] is installed
    as one and takes no argument, so the event buffer it gets stays behind. *)
Definition run_cback (cb : hc_cback) (ev : bytes) : M S unit :=
  match cb with
  | CbConfig => hw_config_cback (Some ev)
  | CbGetLmp => rtk_get_lmp
  | CbLmp => rtk_get_lmp_cback ev
  | CbEpilog => hw_epilog_cback ev
  end.
End Hardware.
