(* ===== verification/BtVendor.v ===== *)
(** * libbt-vendor (rtl8723bs): the vendor interface

    [bt_vendor_rtk.c]: [init], [op] and [cleanup], the entry points of
    [BLUETOOTH_VENDOR_LIB_INTERFACE]. *)

From S2P Require Import Prelude CLib Os BtEnv BtUserial BtUpio BtConfig BtHardware.

Definition PROC_BLUETOOTH_VENDOR_ID : string := "/proc/bluetooth/vendor_id".
Definition PROC_BLUETOOTH_UART_ID_PATH : string := "/proc/bluetooth/uart_id".
Definition PROC_BLUETOOTH_BAUD_RATE_PATH : string := "/proc/bluetooth/baud_rate".

Record vnd_g := Vnd {
  vnd_hw : hw_g;
  uart_id : Z;
  baud_rate : Z;
  vnd_local_bd_addr : bytes;
}.
Definition with_hw (h : hw_g) (g : vnd_g) := Vnd h (uart_id g) (baud_rate g) (vnd_local_bd_addr g).
Definition with_uart_id (n : Z) (g : vnd_g) := Vnd (vnd_hw g) n (baud_rate g) (vnd_local_bd_addr g).
Definition with_baud_rate (n : Z) (g : vnd_g) := Vnd (vnd_hw g) (uart_id g) n (vnd_local_bd_addr g).
Definition with_bd_addr (a : bytes) (g : vnd_g) := Vnd (vnd_hw g) (uart_id g) (baud_rate g) a.

Definition userial_init_cfg : tUSERIAL_CFG :=
  UserialCfg (Z.lor (Z.lor USERIAL_DATABITS_8 USERIAL_PARITY_EVEN) USERIAL_STOPBITS_1)
    USERIAL_BAUD_115200 USERIAL_HW_FLOW_CTRL_OFF.

(** The requests of the stack, with what [param] points to. *)
Inductive bt_vendor_opcode_t :=
| BT_VND_OP_POWER_CTRL (state : Z)
| BT_VND_OP_FW_CFG
| BT_VND_OP_SCO_CFG
| BT_VND_OP_USERIAL_OPEN
| BT_VND_OP_USERIAL_CLOSE
| BT_VND_OP_GET_LPM_IDLE_TIMEOUT
| BT_VND_OP_LPM_SET_MODE (mode : Z)
| BT_VND_OP_LPM_WAKE_SET_STATE
| BT_VND_OP_EPILOG.

Section Vendor.
Context {W : Type} `{OsOps W, BtOps W}.
(** The stack's BT_VND_PWR_OFF and BT_VND_PWR_ON, the number of HCI channels,
    the contents of an uninitialised 50-byte array, and a bound on the search
    for the rfkill node. *)
Variable pwr_off pwr_on : Z.
Variable ch_max : nat.
Variable stack_buf : bytes.
Variable fuel : nat.
Abbreviation S := (mach W vnd_g).

Definition in_hw {A} (m : M (mach W hw_g) A) : M S A := zoom vnd_hw with_hw m.

Definition read_proc_bluetooth_info : M S unit :=
  let* fd := c_open PROC_BLUETOOTH_UART_ID_PATH in
  if fd <? 0 then ret tt else
  let* '(_, buf) := c_read fd stack_buf 0 50 in
  c_close fd ;;;
  let* id := checked (strtol10 buf) in
  set_glob (with_uart_id id) ;;;
  let* fd := c_open PROC_BLUETOOTH_BAUD_RATE_PATH in
  if fd <? 0 then ret tt else
  let* '(_, buf) := c_read fd buf 0 50 in
  c_close fd ;;;
  let* rate := checked (strtol10 buf) in
  set_glob (with_baud_rate rate).

(** [p_cb] is whether the stack gave callbacks. *)
Definition init (p_cb : bool) (local_bdaddr : bytes) : M S Z :=
  if negb p_cb then ret (-1) else
  read_proc_bluetooth_info ;;;
  in_hw (in_upio (upio_write_proc PROC_BLUETOOTH_VENDOR_ID 1)) ;;;
  let* id := get_glob uart_id in
  in_hw (in_user (userial_vendor_init id)) ;;;
  in_hw (in_upio upio_init) ;;;
  in_hw (set_glob (on_stack (fun k => Stack true (hc_live k) (trace k)))) ;;;
  let* a := checked (if in_bounds 0 6 local_bdaddr then Some (bslice 0 6 local_bdaddr) else None) in
  set_glob (with_bd_addr a) ;;;
  ret 0.

(** The value returned, and the descriptors stored in the array of
    BT_VND_OP_USERIAL_OPEN. *)
Definition op (opcode : bt_vendor_opcode_t) : M S (Z * list Z) :=
  match opcode with
  | BT_VND_OP_POWER_CTRL state =>
      (if state =? pwr_off then
         let* _ := in_hw (in_upio (upio_set_bluetooth_power fuel UPIO_BT_POWER_OFF)) in
         in_hw (ms_delay 200)
       else if state =? pwr_on then
         let* _ := in_hw (in_upio (upio_set_bluetooth_power fuel UPIO_BT_POWER_ON)) in
         in_hw (ms_delay 500)
       else ret tt) ;;;
      ret (0, [])
  | BT_VND_OP_FW_CFG => in_hw hw_config_start ;;; ret (0, [])
  | BT_VND_OP_SCO_CFG => ret (-1, [])
  | BT_VND_OP_USERIAL_OPEN =>
      let* fd := in_hw (in_user (userial_vendor_open userial_init_cfg)) in
      if fd =? -1 then ret (0, []) else ret (1, replicate ch_max fd)
  | BT_VND_OP_USERIAL_CLOSE => in_hw (in_user userial_vendor_close) ;;; ret (0, [])
  | BT_VND_OP_GET_LPM_IDLE_TIMEOUT => ret (0, [])
  | BT_VND_OP_LPM_SET_MODE mode => in_hw (rtl_hw_lpm_enable mode) ;;; ret (0, [])
  | BT_VND_OP_LPM_WAKE_SET_STATE => ret (0, [])
  | BT_VND_OP_EPILOG =>
      let* ok := in_hw has_cbacks in
      (if ok : bool then in_hw (emit (EpilogCb true)) else ret tt) ;;;
      ret (0, [])
  end.

Definition cleanup : M S unit :=
  in_hw (in_upio upio_cleanup) ;;;
  in_hw (set_glob (on_stack (fun k => Stack false (hc_live k) (trace k)))).
End Vendor.
