(* ===== verification/BtDownload.v ===== *)
(** * libbt-vendor (rtl8723bs): the firmware download delivers the image

    A download runs one callback per event.  Over a stack that accepts every
    command ([BtGood]) and a controller that acknowledges every packet, the
    packets sent are exactly those of the plan, their data is the image, and the
    stack is told once that the configuration succeeded. *)

From S2P Require Import Prelude CLib Os BtEnv BtLine BtUserial BtUpio BtConfig BtHardware.

(** ** The plan and its packets *)

(** [e] is the number of the last data packet, [last] its length, [t] the
    number of the last packet. *)
Record plan := Plan { p_end : Z; p_last : Z; p_total : Z }.
Definition plan_ok (p : plan) (b : bytes) : Prop :=
  0 <= p_end p <= p_total p /\ p_total p <= 127 /\ 1 <= p_last p <= 252 /\
  lenZ b = 252 * p_end p + p_last p.

Definition pkt_index (p : plan) (k : Z) : Z := if k =? p_total p then Z.lor k 0x80 else k.
Definition pkt_data (p : plan) (b : bytes) (k : Z) : bytes :=
  if k <? p_end p then bslice (252 * k) 252 b
  else if k =? p_end p then bslice (252 * k) (p_last p) b else [].
Definition pkt_cmd (p : plan) (b : bytes) (k : Z) : bytes :=
  uint16_stream HCI_VSC_DOWNLOAD_FW_PATCH ++ [u8 (1 + lenZ (pkt_data p b k))] ++
  [u8 (pkt_index p k)] ++ pkt_data p b k.
Definition pkt (p : plan) (b : bytes) (k : Z) : bt_event :=
  Xmit HCI_VSC_DOWNLOAD_FW_PATCH (pkt_cmd p b k) CbConfig.

(** The command-complete event that acknowledges packet [k]. *)
Definition is_ack (p : plan) (k : Z) (ev : bytes) : Prop :=
  rd16 ev HCI_EVT_CMD_CMPL_OPCODE = Some HCI_VSC_DOWNLOAD_FW_PATCH /\
  is_Some (bget ev HCI_EVT_CMD_CMPL_STATUS_RET_BYTE) /\
  bget ev (HCI_EVT_CMD_CMPL_STATUS_RET_BYTE + 1) = Some (pkt_index p k).

(** ** Seven-bit indices *)

Lemma index_bits k : 0 <= k < 128 ->
  Z.land k 0x7F = k /\ Z.land k 0x80 = 0 /\ Z.lor k 0x80 = k + 128 /\ Z.land (Z.lor k 0x80) 0x80 = 0x80.
Proof.
  intros Hk.
  assert (forallb (fun k => (Z.land k 0x7F =? k) && (Z.land k 0x80 =? 0) && (Z.lor k 0x80 =? k + 128) &&
    (Z.land (Z.lor k 0x80) 0x80 =? 0x80)) (seqZ 0 128) = true) as H by (vm_compute; reflexivity).
  rewrite forallb_forall in H. specialize (H k).
  rewrite <- list_elem_of_In, elem_of_seqZ in H. specialize (H ltac:(lia)). bool_to_prop. auto.
Qed.

Section Download.
Context {W : Type} `{OsOps W, BtOps W, !BtGood W}.
Variable junk : termios.
Implicit Types (s : mach W hw_g).

Fixpoint feed (evs : list bytes) : M (mach W hw_g) unit :=
  match evs with
  | [] => ret tt
  | ev :: evs' => hw_config_cback junk (Some ev) ;;; feed evs'
  end.

(** The part of the state a download does not touch. *)
Record loaded (p : plan) (addr : Z) (b : bytes) (st : Z) (g : hw_g) : Prop := {
  lo_cbacks : bt_vendor_cbacks (hw_stack g) = true;
  lo_state : hw_state (hw_chip g) = st;
  lo_fd : fw_fd (hw_chip g) = -1;
  lo_buf : buf (hw_dl g) = Some (addr, b);
  lo_end : iEndIndex (hw_dl g) = p_end p;
  lo_last : iLastPacketLen (hw_dl g) = p_last p;
  lo_total : iTotalIndex (hw_dl g) = p_total p;
  lo_addr : 0 < addr;
}.

(** The next packet to send is [k]. *)
Definition at_packet (p : plan) (k : Z) (g : hw_g) : Prop :=
  iCurIndex (hw_dl g) = k /\ (k <= p_end p -> bufpatch (hw_dl g) = Some (252 * k)).
(** Packet [k] was sent. *)
Definition sent (p : plan) (k : Z) (g : hw_g) : Prop :=
  iCurIndex (hw_dl g) = pkt_index p k /\ (k <= p_end p -> bufpatch (hw_dl g) = Some (252 * k)).

Ltac gsimp := cbn [hw_user hw_upio hw_stack hw_chip hw_dl on_stack on_chip on_dl with_user
  bt_vendor_cbacks hc_live trace hw_state fw_fd gHwFlowControlEnable gNeedToSetHWFlowControl gEVersion
  need_download_fw lmp_version gRom_version_cmd_state alarm_set set_state set_fw_fd set_cur set_rx set_buf
  buf_len buf baudrate iCurIndex iCurLen iEndIndex iLastPacketLen iAdditionPkt iTotalIndex bufpatch iIndexRx
  world heap_live fds_live glob] in *.

Lemma xmit_run op cmd cb s :
  bg_up (world s) -> exists w' r, bg_up w' /\ r <> 0 /\
    hc_xmit op cmd cb s = Done r (Mach w' (heap_live s) (fds_live s)
      (on_stack (fun k => Stack (bt_vendor_cbacks k) (hc_live k - 1) (trace k ++ [Xmit op cmd cb])) (glob s))).
Proof.
  intros U. destruct (bg_xmit op cmd (world s) U) as (r & w' & E & Hr & U').
  exists w', r. split; [done|]. split; [done|]. unfold hc_xmit.
  erewrite bind_on_world by exact E. unfold emit, hc_count. mrun.
  rewrite (proj2 (Z.eqb_neq r 0)) by done. mrun. done.
Qed.

Lemma tcsetattr_run {G B} fd t (k : Z -> M (mach W G) B) (s : mach W G) :
  bg_up (world s) -> exists r w', bg_up w' /\
    bind (tcsetattr fd t) k s = k r (Mach w' (heap_live s) (fds_live s) (glob s)).
Proof.
  intros U. destruct (bg_tcsetattr fd t (world s) U) as (r & w' & E & U').
  exists r, w'. split; [done|]. unfold tcsetattr. by erewrite bind_on_world by exact E.
Qed.

Lemma userial_fctrl_run on (s : mach W vnd_userial_cb_t) :
  bg_up (world s) -> exists w', bg_up w' /\
    userial_vendor_set_hw_fctrl junk on s = Done tt (Mach w' (heap_live s) (fds_live s) (glob s)).
Proof.
  intros U. unfold userial_vendor_set_hw_fctrl. mrun.
  destruct (us_fd (glob s) =? -1); [exists (world s); by destruct s|]. mrun.
  set (t := match bt_tcgetattr _ _ with Some _ => _ | None => _ end).
  destruct (negb (on =? 0)), (has (c_cflag t) CRTSCTS).
  1, 4: exists (world s); by destruct s.
  - destruct (tcsetattr_run (us_fd (glob s)) (with_cflag (Z.lor (c_cflag t) CRTSCTS) t)
      (fun _ => ret tt) s U) as (r & w' & U' & E). by exists w'.
  - destruct (tcsetattr_run (us_fd (glob s)) (with_cflag (Z.land (c_cflag t) (Z.lnot CRTSCTS)) t)
      (fun _ => ret tt) s U) as (r & w' & U' & E). by exists w'.
Qed.

Lemma set_hw_fctrl_run on s :
  bg_up (world s) -> exists w', bg_up w' /\
    in_user (userial_vendor_set_hw_fctrl junk on) s =
    Done tt (Mach w' (heap_live s) (fds_live s) (glob s)).
Proof.
  intros U. destruct (userial_fctrl_run on
    (Mach (world s) (heap_live s) (fds_live s) (hw_user (glob s))) U) as (w' & U' & E).
  exists w'. split; [done|]. unfold in_user. rewrite (zoom_Done _ _ _ _ _ _ E).
  by destruct (glob s).
Qed.

Lemma download_h4_run idx data len s :
  bg_up (world s) -> exists w' r, bg_up w' /\ r <> 0 /\
    hci_download_patch_h4 idx data len s =
    Done r (Mach w' (heap_live s) (fds_live s)
      (on_stack (fun k => Stack (bt_vendor_cbacks k) (hc_live k - 1)
         (trace k ++ [Xmit HCI_VSC_DOWNLOAD_FW_PATCH
            (uint16_stream HCI_VSC_DOWNLOAD_FW_PATCH ++ [u8 (1 + len)] ++ [u8 idx] ++ data) CbConfig]))
       (on_chip (set_state HW_CFG_DL_FW_PATCH) (glob s)))).
Proof.
  intros U. unfold hci_download_patch_h4, set_chip. mrun. apply xmit_run. exact U.
Qed.

(** What follows the last packet. *)
Lemma after_last_run idx s :
  bg_up (world s) -> exists w', bg_up w' /\
    (if negb (Z.land idx 0x80 =? 0) then
       let* need := chip gNeedToSetHWFlowControl in
       let* on := chip gHwFlowControlEnable in
       if need =? 0 then ret tt
       else in_user (userial_vendor_set_hw_fctrl junk (if on =? 0 then 0 else 1))
     else ret tt) s = Done tt (Mach w' (heap_live s) (fds_live s) (glob s)).
Proof.
  intros U. destruct (negb (Z.land idx 0x80 =? 0)); [|exists (world s); by destruct s].
  unfold chip. mrun. destruct (gNeedToSetHWFlowControl _ =? 0); [exists (world s); by destruct s|].
  by apply set_hw_fctrl_run.
Qed.

(** One packet. *)
Lemma dl_send_run p addr b k st s :
  bg_up (world s) -> plan_ok p b -> loaded p addr b st (glob s) -> 0 <= k <= p_total p ->
  at_packet p k (glob s) ->
  exists w' g', bg_up w' /\ dl_send junk s = Done true (Mach w' (heap_live s) (fds_live s) g') /\
    loaded p addr b HW_CFG_DL_FW_PATCH g' /\ sent p k g' /\
    trace (hw_stack g') = trace (hw_stack (glob s)) ++ [pkt p b k] /\
    hc_live (hw_stack g') = hc_live (hw_stack (glob s)) - 1.
Proof.
  intros U (He & Ht & Hl & HL) [L1 L2 L3 L4 L5 L6 L7 L8] Hk [Hcur Hpatch].
  destruct (index_bits k) as (B1 & B2 & B3 & B4); [lia|].
  unfold dl_send, dl. mrun. rewrite Hcur, L5, L6, L7.
  set (len := if k <? p_end p then 252 else if k =? p_end p then p_last p else 0).
  set (q := if k <=? p_end p then Some (252 * k) else None).
  assert ((if k <? p_end p then (Z.land k 0x7F, PATCH_DATA_FIELD_MAX_SIZE, bufpatch (hw_dl (glob s)))
    else if k =? p_end p then ((if k =? p_total p then Z.lor k 0x80 else Z.land k 0x7F), p_last p,
           bufpatch (hw_dl (glob s)))
    else if k <? p_total p then (Z.land k 0x7F, 0, None) else (Z.lor k 0x80, 0, None)) =
    (pkt_index p k, len, q)) as ->.
  { unfold pkt_index, len, q. rewrite B1.
    destruct (Z.ltb_spec k (p_end p)); [|destruct (Z.eqb_spec k (p_end p))].
    - rewrite (proj2 (Z.eqb_neq k (p_total p))), (proj2 (Z.leb_le k (p_end p))) by lia. by rewrite Hpatch by lia.
    - rewrite (proj2 (Z.leb_le k (p_end p))) by lia. by rewrite Hpatch by lia.
    - rewrite (proj2 (Z.leb_gt k (p_end p))) by lia.
      destruct (Z.ltb_spec k (p_total p));
        [by rewrite (proj2 (Z.eqb_neq k (p_total p))) by lia|by rewrite (proj2 (Z.eqb_eq k (p_total p))) by lia]. }
  unfold set_dl. mrun. gsimp. rewrite L4.
  assert ((if len =? 0 then ret [] else
    checked (match q with
             | Some off => if in_bounds off len b then Some (bslice off len b) else None
             | None => None
             end)) = (ret (pkt_data p b k) : M (mach W hw_g) bytes)) as Hdata.
  { unfold len, q, pkt_data.
    destruct (Z.ltb_spec k (p_end p)); [|destruct (Z.eqb_spec k (p_end p))].
    - rewrite (proj2 (Z.leb_le k (p_end p))) by lia. cbn [Z.eqb].
      by rewrite (proj2 (in_bounds_spec _ _ _)) by lia.
    - rewrite (proj2 (Z.leb_le k (p_end p))), (proj2 (Z.eqb_neq (p_last p) 0)) by lia.
      by rewrite (proj2 (in_bounds_spec _ _ _)) by lia.
    - done. }
  rewrite Hdata. mrun.
  assert (lenZ (pkt_data p b k) = len) as Hlen.
  { unfold len, pkt_data. destruct (Z.ltb_spec k (p_end p)); [|destruct (Z.eqb_spec k (p_end p))];
      rewrite ?lenZ_bslice; try lia. done. }
  destruct (download_h4_run (pkt_index p k) (pkt_data p b k) len
    (Mach (world s) (heap_live s) (fds_live s) (on_dl (set_cur (pkt_index p k) len q) (glob s))) U)
    as (w1 & r & U1 & Hr & E1). gsimp.
  destruct (after_last_run (pkt_index p k) (Mach w1 (heap_live s) (fds_live s)
    (on_stack (fun k0 => Stack (bt_vendor_cbacks k0) (hc_live k0 - 1) (trace k0 ++
       [Xmit HCI_VSC_DOWNLOAD_FW_PATCH (uint16_stream HCI_VSC_DOWNLOAD_FW_PATCH ++ [u8 (1 + len)] ++
         [u8 (pkt_index p k)] ++ pkt_data p b k) CbConfig]))
     (on_chip (set_state HW_CFG_DL_FW_PATCH) (on_dl (set_cur (pkt_index p k) len q) (glob s))))) U1)
    as (w2 & U2 & E2). gsimp.
  eexists w2, _. split; [done|]. split; [mstep E1; mstep E2; unfold ret;
    rewrite (proj2 (Z.eqb_neq r 0)) by done; reflexivity|].
  gsimp. split; [by split|]. split; [split; [done|]|].
  - intros Hle. unfold q. by rewrite (proj2 (Z.leb_le k (p_end p))) by lia.
  - split; [|done]. unfold pkt, pkt_cmd. by rewrite Hlen.
Qed.

(** ** One event *)

Definition hc_add (n : Z) (k : stack_g) : stack_g :=
  Stack (bt_vendor_cbacks k) (hc_live k + n) (trace k).

(** A callback that goes on gives the event back and nothing else. *)
Lemma cback_run ev op s :
  bg_up (world s) -> bt_vendor_cbacks (hw_stack (glob s)) = true ->
  is_Some (bget ev HCI_EVT_CMD_CMPL_STATUS_RET_BYTE) ->
  rd16 ev HCI_EVT_CMD_CMPL_OPCODE = Some op ->
  exists w1, bg_up w1 /\ forall s2,
    cfg_switch junk (Some ev) (Some op) (Mach w1 (heap_live s) (fds_live s) (on_stack (hc_add 1) (glob s))) = Done true s2 ->
    hw_config_cback junk (Some ev) s =
    Done tt (Mach (world s2) (heap_live s2) (fds_live s2) (on_stack (hc_add (-1)) (glob s2))).
Proof.
  intros U Hcb [st Hst] Hop. destruct (bg_alloc HCI_CMD_MAX_LEN (world s) U) as (w1 & E & U1).
  exists w1. split; [done|]. intros s2 Hsw. unfold hw_config_cback, has_cbacks.
  mrun. rewrite Hst, Hop. mrun. rewrite Hcb. unfold hc_alloc. rewrite bind_assoc.
  erewrite bind_on_world by exact E. unfold hc_count. mrun. unfold hc_add in Hsw at 1. mstep Hsw. unfold hc_dealloc, hc_count. by mrun.
Qed.

Lemma cfg_download_other ev op s :
  is_Some (bget ev HCI_EVT_CMD_CMPL_STATUS_RET_BYTE) -> op <> HCI_VSC_DOWNLOAD_FW_PATCH ->
  cfg_download junk (Some ev) (Some op) s = dl_send junk s.
Proof.
  intros [st Hst] Hop. unfold cfg_download. mrun. rewrite Hst. mrun.
  rewrite (proj2 (Z.eqb_neq op _)) by exact Hop. unfold dl. by mrun.
Qed.

Lemma pkt_index_low p k : 0 <= k < p_total p -> p_total p <= 127 -> pkt_index p k = k.
Proof. intros. unfold pkt_index. by rewrite (proj2 (Z.eqb_neq _ _)) by lia. Qed.

Lemma cfg_download_ack p addr b k ev st s :
  plan_ok p b -> loaded p addr b st (glob s) -> 0 <= k < p_total p -> sent p k (glob s) ->
  is_ack p k ev ->
  exists g1, cfg_download junk (Some ev) (Some HCI_VSC_DOWNLOAD_FW_PATCH) s =
      dl_send junk (Mach (world s) (heap_live s) (fds_live s) g1) /\
    loaded p addr b st g1 /\ at_packet p (k + 1) g1 /\ hw_stack g1 = hw_stack (glob s).
Proof.
  intros (He & Ht & Hl & HL) [L1 L2 L3 L4 L5 L6 L7 L8] Hk [Hcur Hpatch] (Hop & [st' Hst] & Hrx).
  rewrite pkt_index_low in Hcur, Hrx by lia. destruct (index_bits k) as (_ & B2 & _); [lia|].
  unfold cfg_download. mrun. rewrite Hst. mrun. unfold dl_ack, dl, set_dl. rewrite Hrx. mrun. gsimp.
  rewrite Hcur, L5.
  assert (forall A (f : option Z -> M (mach W hw_g) A), 
    bind (if k <? p_end p then let* q := checked (bufpatch (hw_dl (glob s))) in
           ret (Some (q + PATCH_DATA_FIELD_MAX_SIZE)) else ret (bufpatch (hw_dl (glob s)))) f =
    f (if k <? p_end p then Some (252 * (k + 1)) else bufpatch (hw_dl (glob s)))) as Hstep.
  { intros A f. destruct (Z.ltb_spec k (p_end p)); [|reflexivity].
    rewrite Hpatch by lia. unfold PATCH_DATA_FIELD_MAX_SIZE.
    replace (252 * (k + 1)) with (252 * k + 252) by lia. reflexivity. }
  rewrite Hstep. mrun. gsimp. rewrite L7, B2, u8_small by lia.
  rewrite (proj2 (Z.eqb_neq k (p_total p))) by lia. cbn [negb orb Z.eqb].
  eexists. split; [reflexivity|]. split; [by split|]. split; [|done].
  split; [done|]. gsimp. intros Hle. by rewrite (proj2 (Z.ltb_lt k (p_end p))) by lia.
Qed.

Lemma cback_ack p addr b k ev s :
  bg_up (world s) -> plan_ok p b -> loaded p addr b HW_CFG_DL_FW_PATCH (glob s) ->
  0 <= k < p_total p -> sent p k (glob s) -> is_ack p k ev ->
  exists w' g', bg_up w' /\ hw_config_cback junk (Some ev) s = Done tt (Mach w' (heap_live s) (fds_live s) g') /\
    loaded p addr b HW_CFG_DL_FW_PATCH g' /\ sent p (k + 1) g' /\
    trace (hw_stack g') = trace (hw_stack (glob s)) ++ [pkt p b (k + 1)] /\
    hc_live (hw_stack g') = hc_live (hw_stack (glob s)) - 1.
Proof.
  intros U Hp Hl Hk Hs Hack. pose proof Hack as (Hop & Hst & _).
  destruct (cback_run ev _ s U (lo_cbacks _ _ _ _ _ Hl) Hst Hop) as (w1 & U1 & Hrun).
  set (s1 := Mach w1 (heap_live s) (fds_live s) (on_stack (hc_add 1) (glob s))).
  assert (loaded p addr b HW_CFG_DL_FW_PATCH (glob s1)) as Hl1 by (by destruct Hl; split).
  destruct (cfg_download_ack p addr b k ev _ s1 Hp Hl1 Hk) as (g1 & E1 & Hg1 & Hat & Hstk); [done|done|].
  destruct (dl_send_run p addr b (k + 1) _ (Mach (world s1) (heap_live s1) (fds_live s1) g1) U1 Hp Hg1)
    as (w2 & g2 & U2 & E2 & Hl2 & Hs2 & Ht2 & Hc2); [lia|done|]. gsimp.
  exists w2, (on_stack (hc_add (-1)) g2). split; [done|]. split; [|split; [by destruct Hl2; split|]].
  - rewrite (Hrun (Mach w2 (heap_live s) (fds_live s) g2)); [done|].
    unfold cfg_switch, chip. mrun. gsimp. rewrite (lo_state _ _ _ _ _ Hl).
    cbn [HW_CFG_DL_FW_PATCH HW_CFG_START HW_CFG_SET_UART_BAUD_CONTROLLER HW_CFG_SET_UART_BAUD_HOST Z.eqb Pos.eqb].
    exact (eq_trans E1 E2).
  - split; [exact Hs2|]. rewrite Hstk in Ht2, Hc2. gsimp.
    split; [exact Ht2|]. unfold s1, hc_add in *. gsimp. lia.
Qed.

(** The acknowledgement of the last packet ends the download. *)
Lemma cback_last p addr b ev s :
  bg_up (world s) -> plan_ok p b -> loaded p addr b HW_CFG_DL_FW_PATCH (glob s) ->
  sent p (p_total p) (glob s) -> is_ack p (p_total p) ev ->
  exists w' g', bg_up w' /\
    hw_config_cback junk (Some ev) s = Done tt (Mach w' (heap_live s - 1) (fds_live s) g') /\
    buf (hw_dl g') = None /\ hw_state (hw_chip g') = 0 /\
    trace (hw_stack g') = trace (hw_stack (glob s)) ++ [FwcfgCb true] /\
    hc_live (hw_stack g') = hc_live (hw_stack (glob s)) - 1.
Proof.
  intros U (He & Ht & Hl & HL) [L1 L2 L3 L4 L5 L6 L7 L8] [Hcur Hpatch] (Hop & Hst & Hrx).
  destruct (cback_run ev _ s U L1 Hst Hop) as (w1 & U1 & Hrun). destruct Hst as [st Hst].
  destruct (index_bits (p_total p)) as (_ & _ & B3 & B4); [lia|].
  unfold pkt_index in *. rewrite Z.eqb_refl in *.
  eexists _, _. split; [exact U1|]. split.
  - rewrite (Hrun (Mach w1 (heap_live s - 1) (fds_live s) (on_chip (set_state 0)
      (on_stack (fun k => Stack (bt_vendor_cbacks k) (hc_live k + 1 - 1) (trace k ++ [FwcfgCb true]))
        (on_dl (fun d => set_buf (buf_len d) None (set_cur (u8 (Z.lor (p_total p) 128 + 1)) (iCurLen d)
           (bufpatch d) (set_rx (Z.lor (p_total p) 128) d))) (glob s)))))); [reflexivity|].
    unfold cfg_switch, chip. mrun. gsimp. rewrite L2.
    cbn [HW_CFG_DL_FW_PATCH HW_CFG_START HW_CFG_SET_UART_BAUD_CONTROLLER HW_CFG_SET_UART_BAUD_HOST Z.eqb Pos.eqb].
    unfold cfg_download. mrun. rewrite Hst. mrun. unfold dl_ack, dl, set_dl. rewrite Hrx. mrun. gsimp.
    rewrite Hcur, L5, B3, (proj2 (Z.ltb_ge (p_total p + 128) (p_end p))) by lia. mrun. gsimp.
    rewrite <- B3, B4. cbn [Z.eqb negb orb]. unfold dl_finish, dl, set_dl, chip, set_chip, hc_dealloc,
      hc_count, fwcfg_cb, emit. mrun. gsimp. rewrite L4. mrun. mcall (apply c_free_ok; exact L8).
    mrun. gsimp. rewrite L3. by mrun.
  - gsimp. split; [done|]. split; [done|]. split; [done|]. unfold hc_add. gsimp. lia.
Qed.

(** ** The whole download *)

Lemma feed_acks p addr b n : forall k evs s,
  bg_up (world s) -> plan_ok p b -> loaded p addr b HW_CFG_DL_FW_PATCH (glob s) ->
  0 <= k -> p_total p - k = Z.of_nat n -> sent p k (glob s) -> length evs = S n ->
  (forall i ev, evs !! i = Some ev -> is_ack p (k + Z.of_nat i) ev) ->
  exists w' g', bg_up w' /\ feed evs s = Done tt (Mach w' (heap_live s - 1) (fds_live s) g') /\
    buf (hw_dl g') = None /\ hw_state (hw_chip g') = 0 /\
    trace (hw_stack g') = trace (hw_stack (glob s)) ++ map (pkt p b) (seqZ (k + 1) (Z.of_nat n)) ++ [FwcfgCb true] /\
    hc_live (hw_stack g') = hc_live (hw_stack (glob s)) - Z.of_nat (S n).
Proof.
  induction n as [|n IH]; intros k evs s U Hp Hl Hk Hn Hs Hlen Hev;
    (destruct evs as [|ev evs]; [done|]); cbn [feed].
  - destruct evs as [|? ?]; [|done]. assert (k = p_total p) as -> by lia.
    specialize (Hev O ev eq_refl). rewrite Z.add_0_r in Hev.
    destruct (cback_last p addr b ev s U Hp Hl Hs Hev) as (w' & g' & U' & E & H1 & H2 & H3 & H4).
    exists w', g'. mstep E. cbn [feed]. repeat (split; [done|]). done.
  - pose proof (Hev O ev eq_refl) as Hack. rewrite Z.add_0_r in Hack.
    destruct (cback_ack p addr b k ev s U Hp Hl) as (w1 & g1 & U1 & E1 & Hl1 & Hs1 & Ht1 & Hc1);
      [lia|done|done|].
    destruct (IH (k + 1) evs (Mach w1 (heap_live s) (fds_live s) g1) U1 Hp Hl1) as
      (w' & g' & U' & E & H1 & H2 & H3 & H4); [lia|lia|done|cbn in *; lia| |].
    { intros i e Hi. specialize (Hev (S i) e Hi).
      by replace (k + 1 + Z.of_nat i) with (k + Z.of_nat (S i)) by lia. }
    exists w', g'. mstep E1. split; [done|]. split; [done|]. split; [done|]. split; [done|].
    gsimp. split; [|lia]. rewrite H3, Ht1, <- app_assoc.
    rewrite (seqZ_cons (k + 1) (Z.of_nat (S n))) by lia. cbn [map app].
    by replace (Z.pred (Z.of_nat (S n))) with (Z.of_nat n) by lia.
Qed.

Lemma cfg_baud_host_run p addr b s :
  bg_up (world s) -> loaded p addr b HW_CFG_SET_UART_BAUD_HOST (glob s) -> at_packet p 0 (glob s) ->
  exists w' g', bg_up w' /\ cfg_baud_host s = Done tt (Mach w' (heap_live s) (fds_live s) g') /\
    loaded p addr b HW_CFG_SET_UART_BAUD_HOST g' /\ at_packet p 0 g' /\
    trace (hw_stack g') = trace (hw_stack (glob s)) ++ [Delay 100; Delay 100] /\
    hc_live (hw_stack g') = hc_live (hw_stack (glob s)).
Proof.
  intros U Hl Hat. unfold cfg_baud_host, ms_delay, emit, dl. cbn [Z.eqb]. mrun. gsimp.
  set (sp := line_speed_to_userial_baud _).
  assert (forall s1 : mach W vnd_userial_cb_t, bg_up (world s1) -> exists w' u', bg_up w' /\
    userial_vendor_set_baud sp s1 = Done tt (Mach w' (heap_live s1) (fds_live s1) u')) as Hset.
  { intros s1 U1. unfold userial_vendor_set_baud. mrun.
    match goal with |- context [bind (tcsetattr ?fd ?t) ?k ?s2] =>
      destruct (tcsetattr_run fd t k s2 U1) as (r & w' & U' & ->) end.
    unfold tcflush, step_world. eexists _, _. split; [|reflexivity]. by apply bg_tcflush. }
  match goal with |- context [bind (in_user ?m) ?k ?s2] =>
    destruct (Hset (Mach (world s2) (heap_live s2) (fds_live s2) (hw_user (glob s2))) U)
      as (w' & u' & U' & E) end.
  unfold in_user. mcall (apply (zoom_Done _ _ _ _ _ _ E)). gsimp. mrun.
  eexists w', _. split; [done|]. split; [reflexivity|]. gsimp.
  split; [by destruct Hl; split|]. split; [done|]. split; [by rewrite <- app_assoc|done].
Qed.

(** What the first packet waits for: the delays of the speed change. *)
Definition before_packets (st : Z) : list bt_event :=
  if st =? HW_CFG_SET_UART_BAUD_HOST then [Delay 100; Delay 100] else [].

Lemma cback_first p addr b ev op st s :
  bg_up (world s) -> plan_ok p b -> loaded p addr b st (glob s) ->
  st = HW_CFG_SET_UART_BAUD_HOST \/ st = HW_CFG_DL_FW_PATCH ->
  at_packet p 0 (glob s) -> is_Some (bget ev HCI_EVT_CMD_CMPL_STATUS_RET_BYTE) ->
  rd16 ev HCI_EVT_CMD_CMPL_OPCODE = Some op -> op <> HCI_VSC_DOWNLOAD_FW_PATCH ->
  exists w' g', bg_up w' /\ hw_config_cback junk (Some ev) s = Done tt (Mach w' (heap_live s) (fds_live s) g') /\
    loaded p addr b HW_CFG_DL_FW_PATCH g' /\ sent p 0 g' /\
    trace (hw_stack g') = trace (hw_stack (glob s)) ++ before_packets st ++ [pkt p b 0] /\
    hc_live (hw_stack g') = hc_live (hw_stack (glob s)) - 1.
Proof.
  intros U Hp Hl Hst Hat Hev Hop Hne. pose proof Hp as (He & _).
  destruct (cback_run ev op s U (lo_cbacks _ _ _ _ _ Hl) Hev Hop) as (w1 & U1 & Hrun).
  set (s1 := Mach w1 (heap_live s) (fds_live s) (on_stack (hc_add 1) (glob s))) in *.
  assert (loaded p addr b st (glob s1)) as Hl1 by (by destruct Hl; split).
  assert (at_packet p 0 (glob s1)) as Hat1 by exact Hat.
  assert (exists w2 g2, bg_up w2 /\ cfg_switch junk (Some ev) (Some op) s1 =
      dl_send junk (Mach w2 (heap_live s) (fds_live s) g2) /\ (exists st', loaded p addr b st' g2) /\
      at_packet p 0 g2 /\ trace (hw_stack g2) = trace (hw_stack (glob s)) ++ before_packets st /\
      hc_live (hw_stack g2) = hc_live (hw_stack (glob s)) + 1)
    as (w2 & g2 & U2 & E2 & [st' Hl2] & Hat2 & Ht2 & Hc2).
  { unfold cfg_switch, chip. mrun. rewrite (lo_state _ _ _ _ _ Hl1).
    destruct Hst as [-> | ->].
    - change (HW_CFG_SET_UART_BAUD_HOST =? HW_CFG_START) with false.
      change (HW_CFG_SET_UART_BAUD_HOST =? HW_CFG_SET_UART_BAUD_CONTROLLER) with false. cbn iota.
      rewrite Z.eqb_refl. destruct (cfg_baud_host_run p addr b s1 U1 Hl1 Hat1)
        as (w2 & g2 & U2 & E2 & Hl2 & Hat2 & Ht2 & Hc2).
      exists w2, g2. mstep E2. rewrite cfg_download_other by done.
      split; [done|]. split; [done|]. split; [by eexists|]. split; [done|]. split; [exact Ht2|exact Hc2].
    - change (HW_CFG_DL_FW_PATCH =? HW_CFG_START) with false.
      change (HW_CFG_DL_FW_PATCH =? HW_CFG_SET_UART_BAUD_CONTROLLER) with false.
      change (HW_CFG_DL_FW_PATCH =? HW_CFG_SET_UART_BAUD_HOST) with false. cbn iota.
      rewrite Z.eqb_refl. exists w1, (glob s1). rewrite cfg_download_other by done.
      split; [done|]. split; [done|]. split; [by eexists|]. split; [done|].
      split; [by rewrite app_nil_r|reflexivity]. }
  destruct (dl_send_run p addr b 0 st' (Mach w2 (heap_live s) (fds_live s) g2) U2 Hp Hl2)
    as (w3 & g3 & U3 & E3 & Hl3 & Hs3 & Ht3 & Hc3); [lia|done|]. gsimp.
  exists w3, (on_stack (hc_add (-1)) g3). split; [done|]. split; [|split; [by destruct Hl3; split|]].
  - rewrite (Hrun _ (eq_trans E2 E3)). done.
  - split; [exact Hs3|]. split; [unfold on_stack; gsimp; unfold hc_add; gsimp; by rewrite Ht3, Ht2, <- app_assoc|].
    unfold hc_add. gsimp. lia.
Qed.

(** The data of the packets is the image. *)
Lemma pkt_data_concat p b :
  plan_ok p b -> concat (map (pkt_data p b) (seqZ 0 (p_total p + 1))) = b.
Proof.
  intros (He & Ht & Hl & HL).
  assert (forall n : nat, Z.of_nat n <= p_end p ->
    concat (map (pkt_data p b) (seqZ 0 (Z.of_nat n))) = take (252 * n) b) as Hpre.
  { induction n as [|n IH]; intros Hn; [done|].
    rewrite seqZ_S, map_app, concat_app, IH by lia. cbn [map concat]. rewrite app_nil_r.
    unfold pkt_data. rewrite (proj2 (Z.ltb_lt _ _)) by lia.
    unfold bslice. replace (252 * S n)%nat with (252 * n + 252)%nat by lia.
    replace (Z.to_nat (252 * (0 + Z.of_nat n))) with (252 * n)%nat by lia.
    apply take_take_drop. }
  replace (p_total p + 1) with (p_end p + (1 + (p_total p - p_end p))) by lia.
  rewrite seqZ_app, map_app, concat_app by lia.
  specialize (Hpre (Z.to_nat (p_end p)) ltac:(lia)). rewrite Z2Nat.id in Hpre by lia. rewrite Hpre.
  rewrite seqZ_app, map_app, concat_app by lia.
  rewrite (seqZ_cons _ 1), (seqZ_nil _ (Z.pred 1)), Z.add_0_l by lia. cbn [map concat].
  assert (concat (map (pkt_data p b) (seqZ (p_end p + 1) (p_total p - p_end p))) = []) as ->.
  { apply concat_nil_Forall, Forall_forall. intros x Hx.
    apply list_elem_of_In, in_map_iff in Hx as (k & <- & Hk).
    apply list_elem_of_In, elem_of_seqZ in Hk. unfold pkt_data.
    by rewrite (proj2 (Z.ltb_ge _ _)), (proj2 (Z.eqb_neq _ _)) by lia. }
  rewrite !app_nil_r. unfold pkt_data. rewrite Z.ltb_irrefl, Z.eqb_refl. unfold bslice.
  replace (Z.to_nat (252 * p_end p)) with (252 * Z.to_nat (p_end p))%nat by lia.
  rewrite (take_ge (drop _ b)); [apply take_drop|].
  rewrite length_drop. unfold lenZ in HL. lia.
Qed.

(** C11: from the state in which the first packet is due (after the speed
    change, or at once without a configuration), the event that starts the
    download and one acknowledgement per packet make the library send exactly the
    packets of the plan, in order, whose data put together is the image; it
    reports success once, frees the image, and gives back every event. *)
Theorem firmware_download_delivers p addr b ev0 op st acks s :
  bg_up (world s) -> plan_ok p b -> loaded p addr b st (glob s) -> at_packet p 0 (glob s) ->
  st = HW_CFG_SET_UART_BAUD_HOST \/ st = HW_CFG_DL_FW_PATCH ->
  is_Some (bget ev0 HCI_EVT_CMD_CMPL_STATUS_RET_BYTE) ->
  rd16 ev0 HCI_EVT_CMD_CMPL_OPCODE = Some op -> op <> HCI_VSC_DOWNLOAD_FW_PATCH ->
  lenZ acks = p_total p + 1 ->
  (forall k ev, acks !! k = Some ev -> is_ack p (Z.of_nat k) ev) ->
  concat (map (pkt_data p b) (seqZ 0 (p_total p + 1))) = b /\
  exists w' g', feed (ev0 :: acks) s = Done tt (Mach w' (heap_live s - 1) (fds_live s) g') /\
    trace (hw_stack g') = trace (hw_stack (glob s)) ++ before_packets st ++
      map (pkt p b) (seqZ 0 (p_total p + 1)) ++ [FwcfgCb true] /\
    buf (hw_dl g') = None /\ hw_state (hw_chip g') = 0 /\
    hc_live (hw_stack g') = hc_live (hw_stack (glob s)) - lenZ (ev0 :: acks).
Proof.
  intros U Hp Hl Hat Hst Hev Hop Hne Hlen Hack. split; [by apply pkt_data_concat|].
  pose proof Hp as (He & Ht & _).
  destruct (cback_first p addr b ev0 op st s U Hp Hl Hst Hat Hev Hop Hne)
    as (w1 & g1 & U1 & E1 & Hl1 & Hs1 & Ht1 & Hc1).
  destruct (feed_acks p addr b (Z.to_nat (p_total p)) 0 acks (Mach w1 (heap_live s) (fds_live s) g1)
    U1 Hp Hl1) as (w2 & g2 & U2 & E2 & H1 & H2 & H3 & H4);
    [lia|lia|done|unfold lenZ in *; lia|by intros i ev Hi; apply Hack|].
  exists w2, g2. cbn [feed]. mstep E1. split; [exact E2|]. gsimp.
  split; [|split; [done|split; [done|]]].
  - rewrite H3, Ht1, <- !app_assoc. do 2 f_equal. rewrite (seqZ_cons 0) by lia. cbn [map app].
    by replace (Z.of_nat (Z.to_nat (p_total p))) with (Z.pred (p_total p + 1)) by lia.
  - rewrite lenZ_cons. lia.
Qed.

(** C25: the plan of an image of at most 30492 bytes: its last data packet is
    full or carries the rest, the data packets hold the image, the indices fit
    seven bits, and with the commands around the download a multiple of eight is
    sent. *)
Theorem plan_fits_image addr b s :
  buf (hw_dl (glob s)) = Some (addr, b) -> buf_len (hw_dl (glob s)) = lenZ b ->
  1 <= lenZ b <= 252 * 121 ->
  exists g' p, cfg_plan s = Done tt (Mach (world s) (heap_live s) (fds_live s) g') /\
    plan_ok p b /\ p_total p < p_end p + 8 /\
    iEndIndex (hw_dl g') = p_end p /\ iLastPacketLen (hw_dl g') = p_last p /\
    iTotalIndex (hw_dl g') = p_total p /\ bufpatch (hw_dl g') = Some 0 /\
    (p_total p + (if baudrate (hw_dl (glob s)) =? 0 then 0 else 1) +
      (if lmp_version (hw_chip (glob s)) =? ROM_LMP_8723a then 2 else 3)) mod 8 = 0.
Proof.
  intros Hb Hn Hsz. unfold cfg_plan, dl, chip, set_dl. mrun. rewrite Hn. gsimp.
  unfold PATCH_DATA_FIELD_MAX_SIZE. set (n := lenZ b) in *.
  assert (252 * ((n - 1) / 252) <= n - 1 < 252 * ((n - 1) / 252) + 252) as He
    by (pose proof (Z.div_mod (n - 1) 252); pose proof (Z.mod_pos_bound (n - 1) 252); lia).
  assert (u8 ((n - 1) / 252) = (n - 1) / 252) as -> by (apply u8_small; lia).
  assert (u8 (n mod 252) = n mod 252) as -> by (apply u8_small; pose proof (Z.mod_pos_bound n 252); lia).
  set (sp := baudrate _). set (lmp := lmp_version _).
  set (extra := if negb (sp =? 0) && negb (lmp =? ROM_LMP_8723a) then 4 else
    if (negb (sp =? 0) && (lmp =? ROM_LMP_8723a)) || ((sp =? 0) && negb (lmp =? ROM_LMP_8723a)) then 3 else 2).
  assert (extra = (if sp =? 0 then 0 else 1) + (if lmp =? ROM_LMP_8723a then 2 else 3)) as Hex.
  { unfold extra. destruct (sp =? 0), (lmp =? ROM_LMP_8723a); done. }
  rewrite <- Z.add_assoc, <- Hex || idtac.
  assert (2 <= extra <= 4) as Hx by (rewrite Hex; destruct (sp =? 0), (lmp =? ROM_LMP_8723a); lia).
  set (e := (n - 1) / 252) in *.
  set (add := if (e + extra) mod 8 =? 0 then 0 else 8 - (e + extra) mod 8).
  assert (0 <= add < 8 /\ (e + extra + add) mod 8 = 0) as [Hadd Hmod].
  { unfold add. pose proof (Z.mod_pos_bound (e + extra) 8).
    destruct (Z.eqb_spec ((e + extra) mod 8) 0); [rewrite Z.add_0_r; lia|]. split; [lia|].
    rewrite <- Z.add_mod_idemp_l by lia. replace (_ + _) with (1 * 8) by lia. by apply Z.mod_mul. }
  rewrite (u8_small add) by lia. rewrite (u8_small (add + e)) by lia.
  set (last := if n mod 252 =? 0 then 252 else n mod 252).
  assert (1 <= last <= 252 /\ n = 252 * e + last) as [Hlast Hnl].
  { unfold last. pose proof (Z.mod_pos_bound n 252). pose proof (Z.div_mod n 252).
    destruct (Z.eqb_spec (n mod 252) 0); lia. }
  eexists _, (Plan e last (add + e)). split; [reflexivity|]. gsimp. unfold plan_ok. gsimp. cbn [p_end p_last p_total].
  split; [lia|]. split; [lia|]. repeat (split; [done|]).
  rewrite <- Z.add_assoc, <- Hex. by replace (add + e + extra) with (e + extra + add) by lia.
Qed.

(** The padding packet after 128 data packets. *)
Lemma switch_wraps p addr b ev s :
  bg_up (world s) -> p_end p = 127 -> p_total p = 132 ->
  loaded p addr b HW_CFG_DL_FW_PATCH (glob s) -> sent p 127 (glob s) ->
  is_Some (bget ev HCI_EVT_CMD_CMPL_STATUS_RET_BYTE) ->
  bget ev (HCI_EVT_CMD_CMPL_STATUS_RET_BYTE + 1) = Some 127 ->
  exists w' g', bg_up w' /\ cfg_switch junk (Some ev) (Some HCI_VSC_DOWNLOAD_FW_PATCH) s =
      Done true (Mach w' (heap_live s) (fds_live s) g') /\
    bt_vendor_cbacks (hw_stack g') = true /\ hw_state (hw_chip g') = HW_CFG_DL_FW_PATCH /\
    iCurIndex (hw_dl g') = 0 /\ iEndIndex (hw_dl g') = 127 /\ bufpatch (hw_dl g') = None /\
    trace (hw_stack g') = trace (hw_stack (glob s)) ++
      [Xmit HCI_VSC_DOWNLOAD_FW_PATCH [0x20; 0xFC; 1; 0] CbConfig].
Proof.
  intros U He Ht [L1 L2 L3 L4 L5 L6 L7 L8] [Hcur _] [st Hst] Hi.
  unfold pkt_index in Hcur. rewrite Ht in Hcur, L7. rewrite He in L5. cbn [Z.eqb Pos.eqb] in Hcur.
  set (g2 := on_dl (set_cur 0 0 None) (on_dl (set_cur 128 (iCurLen (hw_dl (glob s))) (bufpatch (hw_dl (glob s))))
               (on_dl (set_rx 127) (glob s)))).
  destruct (download_h4_run 0 [] 0 (Mach (world s) (heap_live s) (fds_live s) g2) U)
    as (w2 & r & U2 & Hr & E2). gsimp.
  exists w2. eexists. split; [exact U2|]. split.
  - unfold cfg_switch, chip. mrun. rewrite L2.
    cbn [HW_CFG_DL_FW_PATCH HW_CFG_START HW_CFG_SET_UART_BAUD_CONTROLLER HW_CFG_SET_UART_BAUD_HOST Z.eqb Pos.eqb].
    unfold cfg_download. mrun. rewrite Hst. mrun. unfold dl_ack, dl, set_dl. rewrite Hi. mrun.
    gsimp. rewrite Hcur, L5. change (127 <? 127) with false. mrun. gsimp.
    rewrite L7. change (u8 (127 + 1)) with 128. change (Z.land 127 128) with 0.
    cbn [Z.eqb Pos.eqb negb orb].
    unfold dl_send, dl, set_dl. mrun. gsimp. rewrite L5, L7.
    change (128 <? 127) with false. change (128 =? 127) with false. change (128 <? 132) with true.
    change (Z.land 128 127) with 0. cbn iota. mrun. gsimp. fold g2. mstep E2.
    change (Z.land 0 128) with 0. mrun. rewrite (proj2 (Z.eqb_neq r 0)) by done. reflexivity.
  - gsimp. split; [done|]. split; [done|]. split; [done|]. split; [done|]. split; [done|]. reflexivity.
Qed.

(** indices have seven bits and the packet counter is masked with
    them.  For an image of 128 data packets that needs padding (32005 to 32256
    bytes, e.g. with 132 as last packet) the packet after the data goes out with
    index 0, the counter starts again below the last data packet, and the next
    acknowledgement moves a NULL data pointer. *)
Theorem firmware_index_wraps p addr b ev1 ev2 s :
  bg_up (world s) -> p_end p = 127 -> p_total p = 132 ->
  loaded p addr b HW_CFG_DL_FW_PATCH (glob s) -> sent p 127 (glob s) ->
  is_Some (bget ev1 HCI_EVT_CMD_CMPL_STATUS_RET_BYTE) ->
  rd16 ev1 HCI_EVT_CMD_CMPL_OPCODE = Some HCI_VSC_DOWNLOAD_FW_PATCH ->
  bget ev1 (HCI_EVT_CMD_CMPL_STATUS_RET_BYTE + 1) = Some 127 ->
  is_Some (bget ev2 HCI_EVT_CMD_CMPL_STATUS_RET_BYTE) ->
  rd16 ev2 HCI_EVT_CMD_CMPL_OPCODE = Some HCI_VSC_DOWNLOAD_FW_PATCH ->
  bget ev2 (HCI_EVT_CMD_CMPL_STATUS_RET_BYTE + 1) = Some 0 ->
  exists s', hw_config_cback junk (Some ev1) s = Done tt s' /\
    trace (hw_stack (glob s')) = trace (hw_stack (glob s)) ++
      [Xmit HCI_VSC_DOWNLOAD_FW_PATCH [0x20; 0xFC; 1; 0] CbConfig] /\
    hw_config_cback junk (Some ev2) s' = Undef.
Proof.
  intros U He Ht Hl Hs Hs1 Ho1 Hi1 [st2 Hs2] Ho2 Hi2.
  destruct (cback_run ev1 _ s U (lo_cbacks _ _ _ _ _ Hl) Hs1 Ho1) as (w1 & U1 & Hrun).
  destruct (switch_wraps p addr b ev1 (Mach w1 (heap_live s) (fds_live s) (on_stack (hc_add 1) (glob s))) U1
    He Ht) as (w2 & g2 & U2 & E2 & G1 & G2 & G3 & G4 & G5 & G6); [by destruct Hl; split|exact Hs|done|done|].
  eexists. split; [exact (Hrun _ E2)|]. gsimp. split; [exact G6|].
  destruct (bg_alloc HCI_CMD_MAX_LEN w2 U2) as (w3 & E3 & U3).
  unfold hw_config_cback, has_cbacks. mrun. rewrite Hs2, Ho2. mrun. gsimp. unfold hc_add. gsimp. rewrite G1.
  unfold hc_alloc. rewrite bind_assoc. erewrite bind_on_world by exact E3. unfold hc_count. mrun. gsimp.
  unfold bind at 1, cfg_switch, chip. mrun. gsimp. rewrite G2.
  cbn [HW_CFG_DL_FW_PATCH HW_CFG_START HW_CFG_SET_UART_BAUD_CONTROLLER HW_CFG_SET_UART_BAUD_HOST Z.eqb Pos.eqb].
  unfold cfg_download. mrun. rewrite Hs2. mrun. unfold dl_ack, dl, set_dl. rewrite Hi2. mrun.
  gsimp. rewrite G3, G4, G5. change (0 <? 127) with true. by mrun.
Qed.
End Download.

(** ** A download on the concrete line *)

(** A command-complete event: opcode, status 0 and the byte that follows. *)
Definition complete (opcode index : Z) : bytes := [0x0e; 4; 1] ++ uint16_stream opcode ++ [0; index].
Definition demo_image : bytes := fill 7 252 ++ [9].
Definition demo_plan : plan := Plan 1 1 4.
Definition demo_acks : list bytes :=
  map (complete HCI_VSC_DOWNLOAD_FW_PATCH) [0; 1; 2; 3; 0x84].
Definition demo_chip (st : Z) : chip_g := Chip st (-1) 0 0 1 1 ROM_LMP_8723b event_received None.
Definition demo_user : vnd_userial_cb_t := VndUserial 5 (Termios 0 0 0 0) "/dev/ttyS1".
Definition demo_stack : stack_g := Stack true 0 [].
Definition demo_hw (st : Z) (d : dl_g) : mach line hw_g :=
  Mach line_up 1 1 (Hw demo_user upio_initial demo_stack (demo_chip st) d).
Definition demo_dl : dl_g := Dl 253 (Some (64, demo_image)) 0x04928002 0 0 1 1 3 4 (Some 0) 0.

Lemma firmware_download_delivers_witness :
  concat (map (pkt_data demo_plan demo_image) (seqZ 0 5)) = demo_image /\
  exists w' g', feed (Termios 0 0 0 0) (complete HCI_VSC_UPDATE_BAUDRATE 0 :: demo_acks)
      (demo_hw HW_CFG_SET_UART_BAUD_HOST demo_dl) = Done tt (Mach w' 0 1 g') /\
    trace (hw_stack g') = [Delay 100; Delay 100] ++ map (pkt demo_plan demo_image) (seqZ 0 5) ++ [FwcfgCb true] /\
    buf (hw_dl g') = None /\ hw_state (hw_chip g') = 0 /\ hc_live (hw_stack g') = -6.
Proof.
  apply (firmware_download_delivers (Termios 0 0 0 0) demo_plan 64 demo_image
    (complete HCI_VSC_UPDATE_BAUDRATE 0) HCI_VSC_UPDATE_BAUDRATE HW_CFG_SET_UART_BAUD_HOST demo_acks
    (demo_hw HW_CFG_SET_UART_BAUD_HOST demo_dl)).
  - exact I.
  - unfold plan_ok. vm_compute. repeat split; discriminate.
  - split; reflexivity.
  - split; reflexivity.
  - by left.
  - vm_compute. by eexists.
  - reflexivity.
  - discriminate.
  - reflexivity.
  - intros k ev Hk. do 5 (destruct k as [|k]; [cbn in Hk; inv Hk; vm_compute; by repeat (eexists || split)|]).
    discriminate.
Defined.

Lemma plan_fits_image_witness :
  exists g' p, cfg_plan (demo_hw HW_CFG_START (Dl 253 (Some (64, demo_image)) 0x04928002 0 0 0 0 0 0 None 0)) =
      Done tt (Mach line_up 1 1 g') /\
    plan_ok p demo_image /\ p_total p < p_end p + 8 /\ iEndIndex (hw_dl g') = p_end p /\
    iLastPacketLen (hw_dl g') = p_last p /\ iTotalIndex (hw_dl g') = p_total p /\
    bufpatch (hw_dl g') = Some 0 /\ (p_total p + 1 + 3) mod 8 = 0.
Proof.
  apply (plan_fits_image 64 demo_image
    (demo_hw HW_CFG_START (Dl 253 (Some (64, demo_image)) 0x04928002 0 0 0 0 0 0 None 0))).
  - reflexivity.
  - reflexivity.
  - split; vm_compute; discriminate.
Defined.

(** An image of 32256 bytes after its 128th packet. *)
Definition wrap_image : bytes := fill 7 32256.
Definition wrap_dl : dl_g := Dl 32256 (Some (64, wrap_image)) 0x04928002 127 252 127 252 5 132 (Some 32004) 126.

Lemma firmware_index_wraps_witness :
  exists s', hw_config_cback (Termios 0 0 0 0) (Some (complete HCI_VSC_DOWNLOAD_FW_PATCH 127))
      (demo_hw HW_CFG_DL_FW_PATCH wrap_dl) = Done tt s' /\
    trace (hw_stack (glob s')) = [] ++ [Xmit HCI_VSC_DOWNLOAD_FW_PATCH [0x20; 0xFC; 1; 0] CbConfig] /\
    hw_config_cback (Termios 0 0 0 0) (Some (complete HCI_VSC_DOWNLOAD_FW_PATCH 0)) s' = Undef.
Proof.
  apply (firmware_index_wraps (Termios 0 0 0 0) (Plan 127 252 132) 64 wrap_image
    (complete HCI_VSC_DOWNLOAD_FW_PATCH 127) (complete HCI_VSC_DOWNLOAD_FW_PATCH 0)
    (demo_hw HW_CFG_DL_FW_PATCH wrap_dl)).
  - exact I.
  - reflexivity.
  - reflexivity.
  - split; reflexivity.
  - split; reflexivity.
  - by eexists.
  - reflexivity.
  - reflexivity.
  - by eexists.
  - reflexivity.
  - reflexivity.
Defined.
