(* ===== verification/BtImage.v ===== *)
(** * libbt-vendor (rtl8723bs): the patch taken from a firmware image

    An image of the chips other than the 8723a is a table of patches, one for
    each ROM version, their bytes, and a section of extensions read backwards
    from the end.  [epatch_file] is the format; [cfg_image_epatch] takes out of
    it the patch of the controller's version. *)

From S2P Require Import Prelude CLib Os BtEnv BtLine BtUserial BtUpio BtConfig BtHardware BtDownload.

(** ** The format *)

Record patch_row := Row { row_chip : Z; row_len : Z; row_off : Z }.
Definition row_ok (r : patch_row) : Prop :=
  0 <= row_chip r < 65536 /\ 0 <= row_len r < 65536 /\ 0 <= row_off r < 4294967296.

Definition column (n : nat) (f : patch_row -> Z) (es : list patch_row) : bytes :=
  concat (map (fun e => le_put n (f e)) es).

Definition epatch_header (version : Z) (es : list patch_row) : bytes :=
  RTK_EPATCH_SIGNATURE ++ le_put 4 version ++ le_put 2 (lenZ es) ++
  column 2 row_chip es ++ column 2 row_len es ++ column 4 row_off es.

(** An extension: its data, the length of the data, its opcode. *)
Definition ext_entry (e : Z * bytes) : bytes := e.2 ++ [lenZ e.2; e.1].
Definition ext_entries (es : list (Z * bytes)) : bytes := concat (map ext_entry es).
Definition ext_ok (e : Z * bytes) : Prop := 0 < e.1 < 255 /\ lenZ e.2 < 256.

(** The extension with opcode 0 names the project; others may follow it. *)
Definition epatch_file (version : Z) (es : list patch_row) (body : bytes) (proj : Z)
    (others : list (Z * bytes)) : bytes :=
  epatch_header version es ++ body ++ [proj; 1; 0] ++ ext_entries others ++ Extension_Section_SIGNATURE.

(** ** Reading it *)

Ltac len := unfold lenZ; rewrite ?length_app; cbn [length]; lia.

Lemma bget_mid pre x post : bget (pre ++ [x] ++ post) (lenZ pre) = Some x.
Proof.
  pose proof (bget_app_r pre ([x] ++ post) 0 ltac:(lia)) as E. by rewrite Z.add_0_r in E.
Qed.

Lemma lenZ_column n f es : lenZ (column n f es) = Z.of_nat n * lenZ es.
Proof.
  unfold column. induction es as [|e es IH]; [unfold lenZ; cbn [map concat length]; lia|]. cbn [map concat].
  rewrite lenZ_app, IH, lenZ_le_put, lenZ_cons. lia.
Qed.

Lemma column_split n f es j e : es !! j = Some e ->
  exists post, column n f es = column n f (take j es) ++ le_put n (f e) ++ post /\
    lenZ (column n f (take j es)) = Z.of_nat n * Z.of_nat j.
Proof.
  intros Hj. exists (column n f (drop (S j) es)). split.
  - rewrite <- (take_drop_middle es j e Hj) at 1. unfold column. by rewrite map_app, concat_app.
  - rewrite lenZ_column. unfold lenZ. rewrite length_take. apply lookup_lt_Some in Hj. lia.
Qed.

(** A field of a column that starts after [pre]. *)
Lemma column_rd16 pre f es post j e : es !! j = Some e -> 0 <= f e < 65536 ->
  rd16 (pre ++ column 2 f es ++ post) (lenZ pre + 2 * Z.of_nat j) = Some (f e).
Proof.
  intros Hj Hr. destruct (column_split 2 f es j e Hj) as (q & -> & Hl).
  rewrite <- !app_assoc, (app_assoc pre).
  replace (lenZ pre + 2 * Z.of_nat j) with (lenZ (pre ++ column 2 f (take j es))) by (rewrite lenZ_app; lia).
  by apply rd16_mid.
Qed.
Lemma column_rd32 pre f es post j e : es !! j = Some e -> 0 <= f e < 4294967296 ->
  rd32 (pre ++ column 4 f es ++ post) (lenZ pre + 4 * Z.of_nat j) = Some (f e).
Proof.
  intros Hj Hr. destruct (column_split 4 f es j e Hj) as (q & -> & Hl).
  rewrite <- !app_assoc, (app_assoc pre).
  replace (lenZ pre + 4 * Z.of_nat j) with (lenZ (pre ++ column 4 f (take j es))) by (rewrite lenZ_app; lia).
  by apply rd32_mid.
Qed.

(** The three fields of a row, the table at offset 14. *)
Lemma table_reads version es rest j e :
  es !! j = Some e -> row_ok e ->
  let b := epatch_header version es ++ rest in
  rd16 b (14 + 2 * Z.of_nat j) = Some (row_chip e) /\
  rd16 b (14 + 2 * lenZ es + 2 * Z.of_nat j) = Some (row_len e) /\
  rd32 b (14 + 4 * lenZ es + 4 * Z.of_nat j) = Some (row_off e).
Proof.
  intros Hj (H1 & H2 & H3) b. subst b. unfold epatch_header. rewrite <- !app_assoc.
  set (pre := RTK_EPATCH_SIGNATURE ++ le_put 4 version ++ le_put 2 (lenZ es)).
  assert (lenZ pre = 14) as Hpre by reflexivity.
  assert (forall x, RTK_EPATCH_SIGNATURE ++ le_put 4 version ++ le_put 2 (lenZ es) ++ x = pre ++ x) as E
    by (intros x; subst pre; by rewrite <- !app_assoc).
  rewrite E. split; [|split].
  - rewrite <- Hpre. by apply column_rd16.
  - rewrite (app_assoc pre).
    replace (14 + 2 * lenZ es) with (lenZ (pre ++ column 2 row_chip es)) by (rewrite lenZ_app, lenZ_column; lia).
    by apply column_rd16.
  - rewrite (app_assoc pre), (app_assoc (pre ++ _)).
    replace (14 + 4 * lenZ es) with (lenZ ((pre ++ column 2 row_chip es) ++ column 2 row_len es))
      by (rewrite !lenZ_app, !lenZ_column; lia).
    by apply column_rd32.
Qed.

(** The search finds the first row of the version. *)
Lemma find_epatch_ok version es rest k e v :
  Forall row_ok es -> es !! k = Some e -> row_chip e = v + 1 ->
  (forall j e', (j < k)%nat -> es !! j = Some e' -> row_chip e' <> v + 1) ->
  forall n i, (n + i = length es)%nat -> (i <= k)%nat ->
  find_epatch n (epatch_header version es ++ rest) (lenZ es) (Z.of_nat i) v =
  Some (Some (EpatchEntry (v + 1) (row_len e) (row_off e))).
Proof.
  intros Hok Hk Hv Hfirst. induction n as [|n IH]; intros i Hn Hi.
  - apply lookup_lt_Some in Hk. lia.
  - cbn [find_epatch]. destruct (lookup_lt_is_Some_2 es i) as [e' He']; [lia|].
    destruct (table_reads version es rest i e' He') as (E1 & E2 & E3);
      [by eapply (proj1 (Forall_lookup _ _) Hok)|].
    rewrite E1. destruct (decide (i = k)) as [->|Hne].
    + rewrite Hk in He'. injection He' as <-. by rewrite Hv, Z.eqb_refl, E2, E3.
    + rewrite (proj2 (Z.eqb_neq _ _)) by (apply (Hfirst i); [lia|done]).
      replace (Z.of_nat i + 1) with (Z.of_nat (S i)) by lia. apply IH; lia.
Qed.

(** ** The walk over the extensions *)

Lemma ext_last pre proj others :
  Forall ext_ok others ->
  exists a c, pre ++ [proj; 1; 0] ++ ext_entries others = a ++ [c] /\ c <> 255.
Proof.
  intros Hok. destruct (decide (others = [])) as [->|Hne].
  - exists (pre ++ [proj; 1]), 0. by rewrite <- app_assoc.
  - destruct (@exists_last _ others Hne) as (l & [o d] & ->). apply Forall_app in Hok as [_ Hl]. inv Hl.
    match goal with X : ext_ok _ |- _ => destruct X as [Ho _]; cbn [fst] in Ho end.
    exists (pre ++ [proj; 1; 0] ++ ext_entries l ++ d ++ [lenZ d]), o. split; [|lia].
    unfold ext_entries, ext_entry. rewrite map_app, concat_app. cbn [map concat fst snd].
    rewrite app_nil_r, <- !app_assoc. done.
Qed.

Lemma find_extension_ok proj pre others : forall post fuel,
  Forall ext_ok others -> (length others < fuel)%nat ->
  find_extension fuel (pre ++ [proj; 1; 0] ++ ext_entries others ++ post)
    (lenZ (pre ++ [proj; 1; 0] ++ ext_entries others) - 1) = Some (Some (lenZ pre + 2)).
Proof.
  induction others as [|[o d] l IH] using rev_ind; intros post fuel Hok Hf.
  - destruct fuel as [|fuel]; [cbn in Hf; lia|]. cbn [ext_entries map concat find_extension]. rewrite app_nil_r.
    replace (lenZ (pre ++ [proj; 1; 0]) - 1) with (lenZ (pre ++ [proj; 1])) by len.
    assert (pre ++ [proj; 1; 0] ++ [] ++ post = (pre ++ [proj; 1]) ++ [0] ++ post) as ->
      by (by rewrite <- !app_assoc).
    unfold rd8. rewrite bget_mid. cbn [Z.eqb]. do 2 f_equal. len.
  - apply Forall_app in Hok as [Hok Ho]. inv Ho.
    match goal with X : ext_ok _ |- _ => destruct X as [Ho Hd]; cbn [fst snd] in Ho, Hd end.
    destruct fuel as [|fuel]; [lia|]. cbn [find_extension].
    rewrite length_app in Hf. cbn [length] in Hf.
    destruct (ext_last pre proj l Hok) as (a & c & Ea & Hc).
    set (start := pre ++ [proj; 1; 0] ++ ext_entries l) in *.
    assert (ext_entries (l ++ [(o, d)]) = ext_entries l ++ d ++ [lenZ d; o]) as El.
    { unfold ext_entries, ext_entry. rewrite map_app, concat_app. cbn [map concat fst snd]. by rewrite app_nil_r. }
    assert (pre ++ [proj; 1; 0] ++ ext_entries (l ++ [(o, d)]) ++ post =
      start ++ (d ++ [lenZ d; o]) ++ post) as Eb
      by (rewrite El; subst start; by rewrite <- !app_assoc).
    assert (lenZ (pre ++ [proj; 1; 0] ++ ext_entries (l ++ [(o, d)])) - 1 = lenZ start + lenZ d + 1) as Et.
    { rewrite El. subst start. len. }
    assert (forall x, pre ++ [proj; 1; 0] ++ ext_entries l ++ x = start ++ x) as Es
      by (intros x; subst start; by rewrite <- !app_assoc).
    rewrite Eb, Et. unfold rd8. clearbody start.
    assert (bget (start ++ (d ++ [lenZ d; o]) ++ post) (lenZ start + lenZ d + 1) = Some o) as ->.
    { replace (lenZ start + lenZ d + 1) with (lenZ (start ++ d ++ [lenZ d])) by len.
      replace (start ++ (d ++ [lenZ d; o]) ++ post) with ((start ++ d ++ [lenZ d]) ++ [o] ++ post)
        by (by rewrite <- !app_assoc). apply bget_mid. }
    rewrite (proj2 (Z.eqb_neq o 0)) by lia.
    assert (bget (start ++ (d ++ [lenZ d; o]) ++ post) (lenZ start + lenZ d + 1 - 1) = Some (lenZ d)) as ->.
    { replace (lenZ start + lenZ d + 1 - 1) with (lenZ (start ++ d)) by len.
      replace (start ++ (d ++ [lenZ d; o]) ++ post) with ((start ++ d) ++ [lenZ d] ++ [o] ++ post)
        by (by rewrite <- !app_assoc). apply bget_mid. }
    replace (lenZ start + lenZ d + 1 - (lenZ d + 2)) with (lenZ start - 1) by lia.
    assert (bget (start ++ (d ++ [lenZ d; o]) ++ post) (lenZ start - 1) = Some c) as ->.
    { rewrite Ea. replace (lenZ (a ++ [c]) - 1) with (lenZ a) by len.
      rewrite <- (app_assoc a). apply bget_mid. }
    rewrite (proj2 (Z.eqb_neq c 0xFF)) by done.
    specialize (IH ((d ++ [lenZ d; o]) ++ post) fuel Hok ltac:(lia)). by rewrite Es in IH.
Qed.

(** ** The patch of the controller *)

(** [len] bytes at [off] of the file, the last four replaced by the version. *)
Definition patch_of (b : bytes) (version : Z) (e : patch_row) : bytes :=
  take (Z.to_nat (row_len e - 4)) (bslice (row_off e) (row_len e) b) ++ le_put 4 version.

Section Image.
Context {W : Type} `{OsOps W, BtOps W}.
Implicit Types (s : mach W hw_g).

Lemma bblit_zeros_start src n : lenZ src <= n -> bblit 0 src (zeros n) = src ++ zeros (n - lenZ src).
Proof.
  intros Hn. unfold bblit, zeros, lenZ in *.
  rewrite drop_replicate. change (Z.to_nat 0) with 0%nat. rewrite take_0. cbn [app]. do 2 f_equal. lia.
Qed.

Lemma bblit_app a m c src : lenZ src = lenZ m -> bblit (lenZ a) src (a ++ m ++ c) = a ++ src ++ c.
Proof.
  intros E. unfold bblit, lenZ in *. rewrite Nat2Z.id, take_app_length.
  replace (length src) with (length m) by lia. by rewrite drop_app_add, drop_app_length.
Qed.

(** The three copies: the patch, the version over its end, the
    configuration after it. *)
Lemma copies_make_patch (src v config : bytes) :
  4 <= lenZ src -> lenZ v = 4 ->
  bblit (lenZ src) config (bblit (lenZ src - 4) v (bblit 0 src (zeros (lenZ src + lenZ config)))) =
  take (Z.to_nat (lenZ src - 4)) src ++ v ++ config.
Proof.
  intros Hs Hv. pose proof (lenZ_nonneg config). rewrite bblit_zeros_start by lia.
  set (z := zeros _). assert (lenZ z = lenZ config) as Hz by (subst z; rewrite lenZ_zeros; lia).
  rewrite <- (take_drop (Z.to_nat (lenZ src - 4)) src) at 3.
  set (a := take _ src). set (m := drop _ src).
  assert (lenZ a = lenZ src - 4) as Ha by (subst a; unfold lenZ in *; rewrite length_take; lia).
  assert (lenZ m = 4) as Hm by (subst m; unfold lenZ in *; rewrite length_drop; lia).
  rewrite <- Ha, <- app_assoc, bblit_app by lia.
  replace (lenZ src) with (lenZ (a ++ v)) by (rewrite lenZ_app; lia).
  rewrite (app_assoc a). rewrite <- (app_nil_r z), bblit_app by done. by rewrite app_nil_r, <- app_assoc.
Qed.

Lemma take_patch_run s addr b e version config p w :
  os_malloc (row_len e + lenZ config) (world s) = (p, w) -> 0 < p -> 0 < addr ->
  4 <= row_len e -> in_bounds (row_off e) (row_len e) b = true ->
  bslice 8 4 b = le_put 4 version -> 12 <= lenZ b ->
  cfg_take_patch addr b (EpatchEntry (row_chip e) (row_len e) (row_off e)) (lenZ config) config s =
  Done tt (Mach w (heap_live s) (fds_live s)
    (on_dl (set_buf (row_len e + lenZ config) (Some (p, patch_of b version e ++ config))) (glob s))).
Proof.
  intros E Hp Haddr Hlen Hin Hv H12. pose proof (lenZ_nonneg config).
  unfold cfg_take_patch. cbn [patch_length start_offset]. mcall (eapply c_malloc_ok; [exact E|done]).
  rewrite (proj2 (Z.eqb_neq p 0)) by lia. rewrite Hin. mrun.
  set (src := bslice (row_off e) (row_len e) b).
  assert (lenZ src = row_len e) as Hs
    by (subst src; apply in_bounds_spec in Hin; rewrite lenZ_bslice; lia).
  unfold copy_to. set (n := row_len e + lenZ config). pose proof (lenZ_zeros n ltac:(lia)) as L0.
  assert (lenZ (bblit 0 src (zeros n)) = n) as L1 by (rewrite lenZ_bblit; lia).
  pose proof (lenZ_le_put 4 version) as Lv.
  assert (lenZ (bblit (row_len e - 4) (le_put 4 version) (bblit 0 src (zeros n))) = n) as L2
    by (rewrite lenZ_bblit; lia).
  rewrite memcpy_Some by lia. mrun.
  rewrite (proj2 (in_bounds_spec 8 4 b)) by lia. mrun. rewrite Hv.
  rewrite (bslice_all (row_len e) src) by done.
  rewrite memcpy_Some by lia. mrun.
  rewrite (bslice_all 4 (le_put 4 version)) by done. mcall (by apply c_free_ok).
  assert (patch_of b version e ++ config =
    bblit (row_len e) config (bblit (row_len e - 4) (le_put 4 version)
      (bblit 0 src (zeros n)))) as Eb.
  { subst n. rewrite <- Hs, copies_make_patch by (done || lia). unfold patch_of. fold src. by rewrite Hs, app_assoc. }
  rewrite Eb. destruct (Z.eqb_spec (lenZ config) 0) as [E0|E0].
  - destruct config; [|discriminate]. mrun. unfold set_dl, set_glob. msimp.
    f_equal. f_equal; [lia|]. f_equal. f_equal. f_equal. f_equal. unfold bblit. cbn [length app].
    by rewrite Nat.add_0_r, take_drop.
  - rewrite memcpy_Some by lia. mrun. rewrite bslice_all by done. unfold set_dl, set_glob. msimp.
    replace (n - lenZ config) with (row_len e) by lia.
    f_equal. apply Mach_eq; lia.
Qed.

(** The fields of a file in a buffer that is longer. *)
Lemma file_header version es body proj others tail :
  lenZ es < 65536 ->
  let b := epatch_file version es body proj others ++ tail in
  memcmp_eq b RTK_EPATCH_SIGNATURE 8 = Some true /\ rd16 b 12 = Some (lenZ es) /\
  bslice 8 4 b = le_put 4 version.
Proof.
  intros Hes b. pose proof (lenZ_nonneg es).
  set (r := column 2 row_chip es ++ column 2 row_len es ++ column 4 row_off es ++
    body ++ [proj; 1; 0] ++ ext_entries others ++ Extension_Section_SIGNATURE ++ tail).
  assert (b = RTK_EPATCH_SIGNATURE ++ le_put 4 version ++ le_put 2 (lenZ es) ++ r) as Eb.
  { subst b r. unfold epatch_file, epatch_header. by rewrite <- !app_assoc. }
  clearbody r. rewrite Eb. split; [reflexivity|]. split.
  - pose proof (rd16_mid (RTK_EPATCH_SIGNATURE ++ le_put 4 version) (lenZ es) r ltac:(lia)) as E.
    rewrite <- app_assoc in E. exact E.
  - exact (bslice_app_mid RTK_EPATCH_SIGNATURE (le_put 4 version) (le_put 2 (lenZ es) ++ r)).
Qed.

Lemma file_trailer version es body proj others tail :
  Forall ext_ok others ->
  let f := epatch_file version es body proj others in
  let t := lenZ (epatch_header version es ++ body) in
  in_bounds (lenZ f - 4) 4 (f ++ tail) = true /\
  bslice (lenZ f - 4) 4 (f ++ tail) = Extension_Section_SIGNATURE /\
  find_extension (length (f ++ tail)) (f ++ tail) (lenZ f - 5) = Some (Some (t + 2)) /\
  rd8 (f ++ tail) (t + 1) = Some 1 /\ rd8 (f ++ tail) t = Some proj /\
  in_bounds t 1 (f ++ tail) = true.
Proof.
  intros Hok f t. set (pre := epatch_header version es ++ body) in *.
  assert (forall x, f ++ x = pre ++ [proj; 1; 0] ++ ext_entries others ++ Extension_Section_SIGNATURE ++ x) as Ef
    by (intros x; subst f pre; unfold epatch_file; by rewrite <- !app_assoc).
  set (start := pre ++ [proj; 1; 0] ++ ext_entries others).
  assert (forall x, f ++ x = start ++ Extension_Section_SIGNATURE ++ x) as Es
    by (intros x; rewrite Ef; subst start; by rewrite <- !app_assoc).
  assert (lenZ f = lenZ start + 4) as Hf.
  { pose proof (Es []) as E. rewrite !app_nil_r in E. rewrite E, lenZ_app. done. }
  assert (length others < length (f ++ tail))%nat as Hfuel.
  { rewrite Ef, !length_app. cbn [length].
    assert (length others <= length (ext_entries others))%nat; [|lia]. unfold ext_entries, ext_entry.
    clear. induction others as [|e l IH]; [done|]. cbn [map concat length]. rewrite !length_app. cbn [length]. lia. }
  replace (lenZ f - 4) with (lenZ start) by lia. replace (lenZ f - 5) with (lenZ start - 1) by lia.
  split; [rewrite Es; apply (in_bounds_mid start Extension_Section_SIGNATURE)|].
  split; [rewrite Es; apply (bslice_app_mid start Extension_Section_SIGNATURE)|].
  split.
  { pose proof (find_extension_ok proj pre others (Extension_Section_SIGNATURE ++ tail) _ Hok Hfuel) as E.
    by rewrite <- Ef in E. }
  rewrite Ef. unfold rd8. subst t. split.
  - replace (lenZ pre + 1) with (lenZ (pre ++ [proj])) by len.
    replace (pre ++ [proj; 1; 0] ++ ext_entries others ++ Extension_Section_SIGNATURE ++ tail)
      with ((pre ++ [proj]) ++ [1] ++ [0] ++ ext_entries others ++ Extension_Section_SIGNATURE ++ tail)
      by (by rewrite <- !app_assoc). apply bget_mid.
  - split; [apply (bget_mid pre proj)|apply (in_bounds_mid pre [proj])].
Qed.

(** C12: given a well-formed image whose project is the chip that answered and
    whose table has a patch for its ROM version, loading takes that patch, with
    the firmware version as its last four bytes, followed by the configuration.
    The image is given back and one block is kept beside the new one: the copy of
    the extension, which nobody frees. *)
Theorem epatch_image_built s addr version es body proj others tail config k e d w1 p w2 :
  let f := epatch_file version es body proj others in
  Forall row_ok es -> lenZ es < 65536 -> Forall ext_ok others ->
  project_id !! Z.to_nat proj = Some (lmp_version (hw_chip (glob s))) ->
  es !! k = Some e -> row_chip e = gEVersion (hw_chip (glob s)) + 1 ->
  (forall j e', (j < k)%nat -> es !! j = Some e' -> row_chip e' <> gEVersion (hw_chip (glob s)) + 1) ->
  4 <= row_len e -> row_off e + row_len e <= lenZ f -> lenZ tail = lenZ config -> 0 < addr ->
  os_malloc 1 (world s) = (d, w1) -> 0 < d ->
  os_malloc (row_len e + lenZ config) w1 = (p, w2) -> 0 < p ->
  cfg_image_epatch addr (f ++ tail) (lenZ (f ++ tail)) (lenZ config) config s =
  Done tt (Mach w2 (heap_live s + 1) (fds_live s)
    (on_dl (set_buf (row_len e + lenZ config) (Some (p, patch_of (f ++ tail) version e ++ config))) (glob s))).
Proof.
  intros f Hes Hn Hext Hproj Hk Hv Hfirst Hlen Hoff Htail Haddr E1 Hd E2 Hp.
  destruct (file_header version es body proj others tail Hn) as (H1 & H2 & H3).
  destruct (file_trailer version es body proj others tail Hext) as (T1 & T2 & T3 & T4 & T5 & T6).
  fold f in H1, H2, H3, T1, T2, T3, T4, T5, T6. set (t := lenZ (epatch_header version es ++ body)) in *.
  assert (row_ok e) as (_ & _ & Ho) by (by eapply (proj1 (Forall_lookup _ _) Hes)).
  assert (12 <= lenZ (f ++ tail)) as H12.
  { apply (f_equal length) in H3. unfold bslice in H3. rewrite length_take, length_drop in H3.
    change (length (le_put 4 version)) with 4%nat in H3. unfold lenZ. lia. }
  assert (find_epatch (Z.to_nat (lenZ es)) (f ++ tail) (lenZ es) 0 (gEVersion (hw_chip (glob s))) =
    Some (Some (EpatchEntry (row_chip e) (row_len e) (row_off e)))) as Hfind.
  { subst f. unfold epatch_file. rewrite <- (app_assoc (epatch_header _ _)). rewrite Hv.
    apply (find_epatch_ok version es _ k e _ Hes Hk Hv Hfirst _ 0%nat); unfold lenZ; lia. }
  unfold cfg_image_epatch, chip. rewrite lenZ_app, Htail.
  replace (lenZ f + lenZ config - lenZ config - 4) with (lenZ f - 4) by lia.
  replace (lenZ f + lenZ config - lenZ config - 5) with (lenZ f - 5) by lia.
  rewrite T1, T2. mrun. rewrite bool_decide_false by (intros Hc; by apply Hc).
  rewrite T3. mrun. replace (t + 2 - 1) with (t + 1) by lia. rewrite T4. mrun.
  mcall (by apply (c_malloc_ok 1)). replace (t + 2 - 2) with t by lia.
  rewrite (proj2 (Z.eqb_neq d 0)) by lia. change (1 <=? 0) with false. rewrite T6, T5. mrun.
  rewrite Hproj. mrun. rewrite H1. mrun. rewrite H2. mrun. rewrite Hfind. mrun.
  rewrite (take_patch_run _ addr (f ++ tail) e version config p w2); try done. apply in_bounds_spec.
  rewrite lenZ_app. pose proof (lenZ_nonneg tail). lia.
Qed.
End Image.

(** ** On the concrete line *)

(** Two patches of six and five bytes; the extension names the 8723b and one with
    another opcode follows it. *)
Definition two_rows : list patch_row := [Row 1 6 30; Row 2 5 36].
Definition two_body : bytes := [1; 2; 3; 4; 5; 6; 7; 8; 9; 10; 11].
Definition two_others : list (Z * bytes) := [(3, [17; 18])].

Lemma epatch_image_built_witness :
  let f := epatch_file 77 two_rows two_body 1 two_others in
  cfg_image_epatch 64 (f ++ [0; 0; 0]) (lenZ (f ++ [0; 0; 0])) 3 [90; 91; 92] (demo_hw HW_CFG_START dl_reset) =
  Done tt (Mach line_up (1 + 1) 1
    (on_dl (set_buf (5 + 3) (Some (64, patch_of (f ++ [0; 0; 0]) 77 (Row 2 5 36) ++ [90; 91; 92])))
      (glob (demo_hw HW_CFG_START dl_reset)))) /\
  patch_of (f ++ [0; 0; 0]) 77 (Row 2 5 36) = [7; 77; 0; 0; 0].
Proof.
  split; [|reflexivity].
  apply (epatch_image_built (demo_hw HW_CFG_START dl_reset) 64 77 two_rows two_body 1 two_others [0; 0; 0]
    [90; 91; 92] 1 (Row 2 5 36) 64 line_up 64 line_up); try reflexivity.
  - repeat constructor; vm_compute; discriminate.
  - repeat constructor; vm_compute; discriminate.
  - intros [|j] e' Hj He; [|lia]. cbn in He. injection He as <-. discriminate.
  - discriminate.
  - vm_compute. discriminate.
Defined.
