(* ===== verification/BtTheorems.v ===== *)
(** * libbt-vendor (rtl8723bs): properties of the library

    Speeds, the configuration file, the firmware image, the serial port, the
    wake lines and the bring-up of the controller. *)

From S2P Require Import Prelude CLib Os BtEnv BtLine BtUserial BtUpio BtConfig BtHardware BtVendor BtDownload.

(** ** Speeds *)

(** The speed a termios constant stands for. *)
Definition tcio_speeds : list (Z * Z) :=
  [(B600, 600); (B1200, 1200); (B9600, 9600); (B19200, 19200); (B57600, 57600); (B115200, 115200);
   (B230400, 230400); (B460800, 460800); (B921600, 921600); (B1000000, 1000000); (B1500000, 1500000);
   (B2000000, 2000000); (B3000000, 3000000); (B4000000, 4000000)].
Definition tcio_speed (c : Z) : option Z := snd <$> first_pair (fun e => e.1 =? c) tcio_speeds.

(** The speed the host port gets when the controller is told [rtk_speed]. *)
Definition host_speed (rtk_speed : Z) : option Z :=
  tcio_speed (snd (userial_to_tcio_baud (line_speed_to_userial_baud (rtk_speed_to_uart_speed rtk_speed)))).

Lemma speed_table_check :
  forallb (fun e => (bool_decide (host_speed e.1 = Some e.2) || (e.2 =? 3500000)) &&
                    (rtk_speed_to_uart_speed (uart_speed_to_rtk_speed e.2) =? e.2)) baudrates = true.
Proof. vm_compute. reflexivity. Qed.

(** C29: for every controller speed of the table but 3500000, the chain of
    conversions programs the host port at the same speed; and a line speed of the
    table survives the translation to the controller's code and back. *)
Theorem host_speed_matches rtk uart :
  In (rtk, uart) baudrates ->
  (uart <> 3500000 -> host_speed rtk = Some uart) /\
  rtk_speed_to_uart_speed (uart_speed_to_rtk_speed uart) = uart.
Proof.
  intros Hin. pose proof speed_table_check as H. rewrite forallb_forall in H. specialize (H _ Hin).
  cbn [fst snd] in H. apply andb_true_iff in H as [H1 H2]. bool_to_prop. split; [|done]. intros Hne.
  apply orb_true_iff in H1 as [H1|H1]; [by apply bool_decide_eq_true in H1|]. by bool_to_prop.
Qed.

Lemma host_speed_matches_witness :
  (1500000 <> 3500000 -> host_speed 0x04928002 = Some 1500000) /\
  rtk_speed_to_uart_speed (uart_speed_to_rtk_speed 1500000) = 1500000.
Proof. apply (host_speed_matches 0x04928002 1500000). right; right; right; left. reflexivity. Defined.

(** a controller told to run at 3500000 is met by a host port at
    115200: the table knows the speed, the conversion to a port speed does not. *)
Theorem speed_3500000_mismatch :
  Forall (fun rtk => rtk_speed_to_uart_speed rtk = 3500000 /\ host_speed rtk = Some 115200)
    [0x00007001; 0x052A6001].
Proof. repeat constructor. Qed.

(** ** The vendor configuration *)

(** A configuration file with the given entries (offset, data). *)
Definition config_entry (e : Z * bytes) : bytes := le_put 2 e.1 ++ [lenZ e.2] ++ e.2.
Definition config_body (es : list (Z * bytes)) : bytes := concat (map config_entry es).
Definition config_file (es : list (Z * bytes)) : bytes :=
  le_put 4 RTK_VENDOR_CONFIG_MAGIC ++ le_put 2 (lenZ (config_body es)) ++ config_body es.

(** What an entry means, when [post] follows it in the file.  For an entry 0xc that
    is the first four bytes behind its header, and bit 2 of the thirteenth if the
    entry has twelve bytes of data or more; the thirteenth is read (for the log) in
    any case, and so must be in the file. *)
Definition entry_meaning (e : Z * bytes) (post : bytes) (r : config_result) : option config_result :=
  if e.1 =? 0xc then
    let seen := e.2 ++ post in
    if lenZ seen <? 13 then None
    else if 12 <=? lenZ e.2
    then Some (ConfigResult (le_get (take 4 seen)) 1 (if Z.land (nth 12 seen 0) 0x4 =? 0 then 0 else 1))
    else Some (ConfigResult (le_get (take 4 seen)) 0 (cr_fctrl r))
  else Some r.
(** The last entry 0xc decides. *)
Fixpoint config_meaning (es : list (Z * bytes)) (r : config_result) : option config_result :=
  match es with
  | [] => Some r
  | e :: es' => r ← entry_meaning e (config_body es') r; config_meaning es' r
  end.

Definition config_entry_ok (e : Z * bytes) : Prop :=
  0 <= e.1 < 65536 /\ bytes_ok e.2 /\ lenZ e.2 < 256.

(** The bytes an entry 0xc reads. *)
Lemma entry_reads pre seen :
  13 <= lenZ seen ->
  rd32 (pre ++ seen) (lenZ pre) = Some (le_get (take 4 seen)) /\ rd8 (pre ++ seen) (lenZ pre + 12) = Some (nth 12 seen 0).
Proof.
  intros Hl. split.
  - pose proof (rd32_take pre seen [] ltac:(lia)) as E. by rewrite app_nil_r in E.
  - unfold rd8. rewrite bget_app_r by lia. unfold bget. cbn [Z.ltb Z.compare]. change (Z.to_nat 12) with 12%nat.
    destruct (lookup_lt_is_Some_2 seen 12) as [x Hx]; [unfold lenZ in *; lia|]. by rewrite nth_lookup, Hx.
Qed.
Lemma entry_too_short pre seen : lenZ seen < 13 -> rd8 (pre ++ seen) (lenZ pre + 12) = None.
Proof.
  intros Hl. unfold rd8. rewrite bget_app_r by lia. unfold bget. cbn [Z.ltb Z.compare].
  apply lookup_ge_None_2. change (Z.to_nat 12) with 12%nat. unfold lenZ in *. lia.
Qed.

(** One entry of a file. *)
Lemma parse_entry_ok pre e post r :
  config_entry_ok e ->
  parse_entry (pre ++ config_entry e ++ post) (lenZ pre) r =
  (r ← entry_meaning e post r; Some (lenZ e.2 + entry_header, r)).
Proof.
  intros (H1 & H2 & H3). destruct e as [o d]. cbn [fst snd] in *. pose proof (lenZ_nonneg d).
  unfold parse_entry, config_entry, entry_meaning, entry_header. cbn [fst snd]. rewrite <- !app_assoc, rd16_mid by done.
  assert (rd8 (pre ++ le_put 2 o ++ [lenZ d] ++ d ++ post) (lenZ pre + 2) = Some (lenZ d)) as ->.
  { unfold rd8. rewrite bget_app_r by lia. change 2 with (lenZ (le_put 2 o) + 0) at 1.
    by rewrite bget_app_r by lia. }
  destruct (Z.eqb_spec o 0xc) as [->|Hne]; [|done].
  assert (pre ++ le_put 2 12 ++ [lenZ d] ++ d ++ post =
    (pre ++ le_put 2 12 ++ [lenZ d]) ++ d ++ post) as -> by (by rewrite <- !app_assoc).
  assert (lenZ (pre ++ le_put 2 12 ++ [lenZ d]) = lenZ pre + 3) as <- by (rewrite !lenZ_app; done).
  destruct (Z.ltb_spec (lenZ (d ++ post)) 13) as [Hs|Hs].
  - rewrite (entry_too_short _ _ Hs). by destruct (rd32 _ _).
  - destruct (entry_reads (pre ++ le_put 2 12 ++ [lenZ d]) (d ++ post) Hs) as [-> ->]. by case_test.
Qed.

Lemma parse_entries_ok es : forall pre r fuel,
  Forall config_entry_ok es -> (length (config_body es) <= fuel)%nat -> lenZ pre >= 6 ->
  parse_entries fuel (pre ++ config_body es) (lenZ pre - 6 + lenZ (config_body es)) (lenZ pre - 6) r =
  config_meaning es r.
Proof.
  induction es as [|e es IH]; intros pre r fuel Hok Hfuel Hpre; cbn [config_meaning].
  - unfold config_body. cbn [map concat]. rewrite lenZ_nil, Z.add_0_r.
    destruct fuel; cbn [parse_entries]; by rewrite Z.ltb_irrefl.
  - inv Hok. assert (length (config_entry e) = 3 + length e.2)%nat as Hlen by reflexivity.
    assert (config_body (e :: es) = config_entry e ++ config_body es) as Eb by reflexivity. rewrite Eb in *.
    rewrite length_app in Hfuel. destruct fuel as [|fuel]; [lia|]. cbn [parse_entries].
    rewrite lenZ_app. assert (lenZ (config_entry e) = lenZ e.2 + 3) as HlenZ by (unfold lenZ; lia).
    rewrite HlenZ. pose proof (lenZ_nonneg e.2). pose proof (lenZ_nonneg (config_body es)).
    rewrite (proj2 (Z.ltb_lt _ _)) by lia. unfold config_header.
    replace (6 + (lenZ pre - 6)) with (lenZ pre) by lia. rewrite parse_entry_ok by done.
    destruct (entry_meaning e (config_body es) r) as [r'|]; [|done]. cbn [mbind option_bind]. unfold entry_header.
    specialize (IH (pre ++ config_entry e) r' fuel). rewrite lenZ_app, HlenZ, <- app_assoc in IH.
    replace (lenZ pre + (lenZ e.2 + 3) - 6) with (lenZ pre - 6 + (lenZ e.2 + 3)) in IH by lia.
    replace (lenZ pre - 6 + (lenZ e.2 + 3) + lenZ (config_body es))
      with (lenZ pre - 6 + (lenZ e.2 + 3 + lenZ (config_body es))) in IH by lia.
    by rewrite IH by (done || lia).
Qed.

(** C24: parsing the file made of a list of entries, of any lengths a header can
    state, gives the baud rate and the flow control of its last entry 0xc, or leaves
    the globals and returns 0 when it has none.  An entry 0xc of less than twelve
    bytes only gives a baud rate, taken from the bytes that follow its header even
    when they are the next entry's, and clears [gNeedToSetHWFlowControl]; and the
    parse reads past the file exactly when fewer than thirteen bytes follow the
    header of an entry 0xc (a finding). *)
Theorem config_parse_roundtrip es need on :
  Forall config_entry_ok es -> lenZ (config_body es) < 65536 ->
  rtk_parse_config_file (config_file es) (lenZ (config_file es)) need on =
  config_meaning es (ConfigResult 0 need on).
Proof.
  intros Hok Hlen. pose proof (lenZ_nonneg (config_body es)).
  unfold rtk_parse_config_file, config_file.
  pose proof (rd32_mid [] RTK_VENDOR_CONFIG_MAGIC (le_put 2 (lenZ (config_body es)) ++ config_body es)) as E1.
  cbn [app lenZ length Z.of_nat] in E1. change (lenZ (@nil Z)) with 0 in E1. rewrite E1 by done.
  pose proof (rd16_mid (le_put 4 RTK_VENDOR_CONFIG_MAGIC) (lenZ (config_body es)) (config_body es)) as E2.
  change (lenZ (le_put 4 RTK_VENDOR_CONFIG_MAGIC)) with 4 in E2. rewrite E2 by lia.
  rewrite Z.eqb_refl. cbn [negb]. rewrite !lenZ_app.
  change (lenZ (le_put 4 RTK_VENDOR_CONFIG_MAGIC)) with 4.
  change (lenZ (le_put 2 (lenZ (config_body es)))) with 2. unfold config_header.
  rewrite (proj2 (Z.eqb_eq _ _)) by lia. cbn [negb]. rewrite app_assoc.
  pose proof (parse_entries_ok es (le_put 4 RTK_VENDOR_CONFIG_MAGIC ++ le_put 2 (lenZ (config_body es)))
    (ConfigResult 0 need on) (length ((le_put 4 RTK_VENDOR_CONFIG_MAGIC ++ le_put 2 (lenZ (config_body es))) ++ config_body es)) Hok) as E3.
  change (lenZ (le_put 4 RTK_VENDOR_CONFIG_MAGIC ++ le_put 2 (lenZ (config_body es)))) with 6 in E3.
  apply E3; [rewrite length_app; lia|lia].
Qed.

(** an entry 0xc of exactly 12 bytes at the end of the file is read
    past its end: both the log and the flow-control test use [entry_data[12]]. *)
Theorem config_entry_12_overrun data need on :
  bytes_ok data -> lenZ data = 12 ->
  rtk_parse_config_file (config_file [(0xc, data)]) (lenZ (config_file [(0xc, data)])) need on = None.
Proof.
  intros _ Hl. assert (length data = 12%nat) as Hn by (unfold lenZ in Hl; lia).
  do 12 (destruct data as [|? data]; [discriminate|]). destruct data; [|discriminate].
  reflexivity.
Qed.

(** ** Files *)

Section Files.
Context {W : Type} `{OsOps W, BtOps W}.
Implicit Types (s : mach W hw_g).

Lemma find_patch_None id t :
  ~ In id (map prod_id t) -> Forall (fun e => prod_id e <> 0) t -> find_patch id t = None.
Proof.
  intros Hn Ht. induction Ht as [|e t He _ IH]; [done|]. cbn [map find_patch] in *.
  rewrite (proj2 (Z.eqb_neq (prod_id e) id)), (proj2 (Z.eqb_neq (prod_id e) 0)) by (cbn in Hn; tauto).
  apply IH. cbn in Hn. tauto.
Qed.

(** the walk over the patch table stops on the id or on an entry
    with id 0, and the table has no such entry: with the LMP version of a chip it
    does not list, loading the firmware reads past the table. *)
Theorem unknown_chip_leaves_table s :
  ~ In (lmp_version (hw_chip (glob s))) (map prod_id patch_table) -> cfg_load s = Undef.
Proof.
  intros Hn. unfold cfg_load, chip. mrun. unfold get_patch_entry.
  rewrite find_patch_None; [by mrun|done|]. by repeat constructor.
Qed.

(** when the configuration file cannot be read whole,
    [rtk_get_bt_config] frees the buffer and leaves the pointer, and its caller
    frees it again. *)
Theorem config_short_read_frees_twice s e n fd w1 p w2 r data w3 :
  get_patch_entry (lmp_version (hw_chip (glob s))) = Some e ->
  bt_stat (RTLBT +:+ config_name e) (world s) = Some n -> 0 <= n ->
  os_open (RTLBT +:+ config_name e) (world s) = (fd, w1) -> 0 <= fd ->
  os_malloc n w1 = (p, w2) -> 0 < p ->
  os_read fd n w2 = (r, data, w3) -> r < n ->
  bt_stat (RTLBT +:+ patch_name e) (os_close fd w3) = None ->
  cfg_load s = Undef.
Proof.
  intros He Hst Hn E1 Hfd E2 Hp E3 Hr Hfw. unfold cfg_load, chip, set_dl. mrun. rewrite He. mrun.
  assert (rtk_get_bt_config (config_name e) (gNeedToSetHWFlowControl (hw_chip (glob s)))
      (gHwFlowControlEnable (hw_chip (glob s))) s =
    Done (-1, PFreed, None) (Mach (os_close fd w3) (heap_live s + 1 - 1) (fds_live s + 1 - 1) (glob s))) as Ecfg.
  { unfold rtk_get_bt_config, stat. mrun. rewrite Hst. unfold c_open. unfold bind at 1. rewrite E1.
    rewrite (proj2 (Z.ltb_ge fd 0)) by lia. mcall (eapply c_malloc_ok; [exact E2|exact Hp]).
    rewrite (proj2 (Z.eqb_neq p 0)) by lia. msimp.
    assert (in_bounds 0 n (zeros n) = true) as Hin by (apply in_bounds_spec; rewrite lenZ_zeros; lia).
    unfold c_read. unfold bind at 1. rewrite Hin. msimp. rewrite E3.
    rewrite (proj2 (Z.ltb_lt r n)) by lia. mcall (by apply c_free_ok). unfold c_close, bind, ret. msimp.
    by rewrite (proj2 (Z.ltb_ge fd 0)) by lia. }
  mstep Ecfg. mrun. change (-1 <? 0) with true. cbn iota.
  unfold rtk_get_bt_firmware, stat. mrun. rewrite Hfw. by mrun.
Qed.
End Files.

(** ** Bring-up *)

Section BringUp.
Context {W : Type} `{OsOps W, BtOps W}.
Variable junk : termios.
Implicit Types (s : mach W hw_g).

(** when the LMP command fails, its callback cancels the timeout and
    tells the stack about low power mode; nothing else is sent and the firmware
    configuration is never answered. *)
Theorem lmp_failure_unanswered ev status s :
  bget ev HCI_EVT_CMD_CMPL_STATUS_RET_BYTE = Some status -> status <> 0 ->
  bt_vendor_cbacks (hw_stack (glob s)) = true ->
  exists g', rtk_get_lmp_cback junk ev s = Done tt (Mach (world s) (heap_live s) (fds_live s) g') /\
    trace (hw_stack g') = trace (hw_stack (glob s)) ++ [LpmCb status] /\
    alarm_set (hw_chip g') = None.
Proof.
  intros Hst Hne Hcb. unfold rtk_get_lmp_cback, set_chip, has_cbacks, emit, hc_dealloc, hc_count.
  rewrite Hst. mrun. rewrite (proj2 (Z.eqb_neq status 0)) by done. mrun.
  cbn [hw_stack on_chip]. rewrite Hcb. mrun. eexists. split; [reflexivity|]. done.
Qed.
End BringUp.

Section BringUpGood.
Context {W : Type} `{OsOps W, BtOps W, !BtGood W}.
Variable junk : termios.
Implicit Types (s : mach W hw_g).

Lemma hc_alloc_run n s :
  bg_up (world s) -> exists w', bg_up w' /\
    hc_alloc n s = Done true (Mach w' (heap_live s) (fds_live s) (on_stack (hc_add 1) (glob s))).
Proof.
  intros U. destruct (bg_alloc n (world s) U) as (w1 & E1 & U1). exists w1. split; [done|].
  unfold hc_alloc. erewrite bind_on_world by exact E1. unfold hc_count. by mrun.
Qed.

(** The command is recorded and its buffer belongs to the stack. *)
Definition logged (e : bt_event) (g : hw_g) : hw_g :=
  on_stack (fun q => Stack (bt_vendor_cbacks q) (hc_live q + 1 - 1) (trace q ++ [e])) g.

Lemma start_run s :
  bg_up (world s) -> bt_vendor_cbacks (hw_stack (glob s)) = true ->
  exists w', bg_up w' /\ hw_config_start s = Done tt (Mach w' (heap_live s) (fds_live s)
    (logged (Xmit HCI_VSC_H5_INIT [0xEE; 0xFC] CbGetLmp)
      (on_chip (fun c => set_state HW_CFG_START (set_fw_fd (-1) (set_state 0 c))) (glob s)))).
Proof.
  intros U Hcb. unfold hw_config_start, set_chip, has_cbacks. mrun. cbn [hw_stack on_chip].
  rewrite Hcb. set (s1 := Mach _ _ _ _).
  destruct (hc_alloc_run 2 s1 U) as (w1 & U1 & E1). mstep E1. mrun. set (s2 := Mach w1 _ _ _).
  destruct (xmit_run HCI_VSC_H5_INIT (uint16_stream HCI_VSC_H5_INIT) CbGetLmp s2 U1) as (w2 & r & U2 & _ & E2).
  exists w2. split; [done|]. mstep E2. reflexivity.
Qed.

Lemma get_lmp_run s :
  bg_up (world s) -> bt_vendor_cbacks (hw_stack (glob s)) = true ->
  exists w', bg_up w' /\ rtk_get_lmp s = Done tt (Mach w' (heap_live s) (fds_live s)
    (on_chip (fun c => set_alarm (Some rtk_get_lmp_timeout_h) (set_rom cmd_has_sent c))
      (logged (Xmit HCI_READ_LMP [0x01; 0x10; 0] CbLmp) (glob s)))).
Proof.
  intros U Hcb. unfold rtk_get_lmp, set_chip, has_cbacks. mrun. rewrite Hcb. cbn [negb].
  destruct (hc_alloc_run HCI_CMD_MAX_LEN s U) as (w1 & U1 & E1). mstep E1. cbn [negb]. set (s2 := Mach w1 _ _ _).
  destruct (xmit_run HCI_READ_LMP (uint16_stream HCI_READ_LMP ++ [0]) CbLmp s2 U1) as (w2 & r & U2 & _ & E2).
  exists w2. split; [done|]. mstep E2. reflexivity.
Qed.

Lemma get_eversion_run s :
  bg_up (world s) -> bt_vendor_cbacks (hw_stack (glob s)) = true ->
  exists w', bg_up w' /\ rtk_get_eversion s = Done tt (Mach w' (heap_live s) (fds_live s)
    (on_chip (fun c => set_alarm (Some rtk_get_eversion_timeout_h) (set_rom cmd_has_sent c))
      (logged (Xmit HCI_VENDOR_READ_RTK_ROM_VERISION [0x6D; 0xFC; 0] CbConfig) (glob s)))).
Proof.
  intros U Hcb. unfold rtk_get_eversion, set_chip, has_cbacks. mrun. rewrite Hcb. cbn [negb].
  destruct (hc_alloc_run HCI_CMD_MAX_LEN s U) as (w1 & U1 & E1). mstep E1. cbn [negb]. set (s2 := Mach w1 _ _ _).
  destruct (xmit_run HCI_VENDOR_READ_RTK_ROM_VERISION (uint16_stream HCI_VENDOR_READ_RTK_ROM_VERISION ++ [0])
    CbConfig s2 U1) as (w2 & r & U2 & _ & E2).
  exists w2. split; [done|]. mstep E2. reflexivity.
Qed.

(** C26: bringing a controller up sends the H5 command, then, on its answer, the
    LMP command, then, on a good answer from a chip other than the 8723a, the
    ROM version command; the state machine is then at its start, knows the chip
    and has a timeout running.  Of the two events handed over, the one given to
    [rtk_get_lmp] is not given back. *)
Theorem bring_up_sequence ev1 ev2 v s :
  bg_up (world s) -> bt_vendor_cbacks (hw_stack (glob s)) = true ->
  bget ev2 HCI_EVT_CMD_CMPL_STATUS_RET_BYTE = Some 0 ->
  rd16 ev2 LPM_CMD_PARAM_SIZE = Some v -> v <> ROM_LMP_8723a ->
  exists w' g',
    (hw_config_start ;;; run_cback junk CbGetLmp ev1 ;;; run_cback junk CbLmp ev2) s =
      Done tt (Mach w' (heap_live s) (fds_live s) g') /\ bg_up w' /\
    trace (hw_stack g') = trace (hw_stack (glob s)) ++
      [Xmit HCI_VSC_H5_INIT [0xEE; 0xFC] CbGetLmp; Xmit HCI_READ_LMP [0x01; 0x10; 0] CbLmp;
       Xmit HCI_VENDOR_READ_RTK_ROM_VERISION [0x6D; 0xFC; 0] CbConfig; LpmCb 0] /\
    hw_state (hw_chip g') = HW_CFG_START /\ lmp_version (hw_chip g') = v /\
    alarm_set (hw_chip g') = Some rtk_get_eversion_timeout_h /\
    hc_live (hw_stack g') = hc_live (hw_stack (glob s)) - 1.
Proof.
  intros U Hcb Hst Hv Hne. destruct (start_run s U Hcb) as (w1 & U1 & E1). mstep E1.
  set (s1 := Mach w1 _ _ _). cbn [run_cback].
  destruct (get_lmp_run s1 U1 Hcb) as (w2 & U2 & E2). mstep E2.
  unfold rtk_get_lmp_cback, set_chip, has_cbacks, emit, hc_dealloc, hc_count. mrun. rewrite Hst.
  mrun. cbn [Z.eqb]. rewrite Hv. mrun. rewrite (proj2 (Z.eqb_neq v _)) by exact Hne.
  match goal with |- context [bind rtk_get_eversion ?k ?s3] =>
    destruct (get_eversion_run s3 U2 Hcb) as (w3 & U3 & E3) end.
  mstep E3. mrun. msimp. 
  match goal with |- context [if bt_vendor_cbacks (hw_stack ?g) then _ else _] =>
    change (bt_vendor_cbacks (hw_stack g)) with (bt_vendor_cbacks (hw_stack (glob s))) end.
  rewrite Hcb. mrun. eexists w3, _. split; [reflexivity|]. split; [done|].
  cbn. rewrite <- !app_assoc. repeat (split; [done|]). lia.
Qed.
End BringUpGood.

(** ** Flag words *)

Lemma land_set x b k : Z.land k b = k -> Z.land (Z.lor x b) k = k.
Proof.
  intros E. apply Z.bits_inj'. intros i Hi. apply (f_equal (fun z => Z.testbit z i)) in E.
  rewrite Z.land_spec in E. rewrite Z.land_spec, Z.lor_spec.
  destruct (Z.testbit x i), (Z.testbit b i), (Z.testbit k i); done.
Qed.
Lemma land_other x b k : Z.land k b = 0 -> Z.land (Z.lor x b) k = Z.land x k.
Proof.
  intros E. apply Z.bits_inj'. intros i Hi. apply (f_equal (fun z => Z.testbit z i)) in E.
  rewrite Z.land_spec, Z.bits_0 in E. rewrite !Z.land_spec, Z.lor_spec.
  destruct (Z.testbit x i), (Z.testbit b i), (Z.testbit k i); done.
Qed.
Lemma land_cleared x m k : Z.land k m = k -> Z.land (Z.land x (Z.lnot m)) k = 0.
Proof.
  intros E. apply Z.bits_inj'. intros i Hi. apply (f_equal (fun z => Z.testbit z i)) in E.
  rewrite Z.land_spec in E. rewrite !Z.land_spec, Z.lnot_spec, Z.bits_0 by done.
  destruct (Z.testbit x i), (Z.testbit m i), (Z.testbit k i); done.
Qed.
Lemma land_kept x m k : Z.land k m = 0 -> Z.land (Z.land x (Z.lnot m)) k = Z.land x k.
Proof.
  intros E. apply Z.bits_inj'. intros i Hi. apply (f_equal (fun z => Z.testbit z i)) in E.
  rewrite Z.land_spec, Z.bits_0 in E. rewrite !Z.land_spec, Z.lnot_spec by done.
  destruct (Z.testbit x i), (Z.testbit m i), (Z.testbit k i); done.
Qed.

Lemma cfsetspeed_speed sp t : Z.land (c_cflag (cfsetspeed sp t)) CBAUD = Z.land sp CBAUD.
Proof.
  unfold cfsetspeed, with_cflag. cbn [c_cflag]. apply Z.bits_inj'. intros i Hi.
  rewrite !Z.land_spec, Z.lor_spec, !Z.land_spec, Z.lnot_spec by done.
  destruct (Z.testbit (c_cflag t) i), (Z.testbit sp i), (Z.testbit CBAUD i); done.
Qed.
Lemma cfsetspeed_other sp t k :
  Z.land k CBAUD = 0 -> Z.land (c_cflag (cfsetspeed sp t)) k = Z.land (c_cflag t) k.
Proof.
  intros E. unfold cfsetspeed, with_cflag. cbn [c_cflag]. apply Z.bits_inj'. intros i Hi.
  apply (f_equal (fun z => Z.testbit z i)) in E. rewrite Z.land_spec, Z.bits_0 in E.
  rewrite !Z.land_spec, Z.lor_spec, !Z.land_spec, Z.lnot_spec by done.
  destruct (Z.testbit (c_cflag t) i), (Z.testbit sp i), (Z.testbit CBAUD i), (Z.testbit k i); done.
Qed.

(** ** The serial port *)

(** 115200 baud, 8 bits, parity, no hardware flow control. *)
Definition port_ready (t : termios) : Prop :=
  Z.land (c_cflag t) CBAUD = B115200 /\ Z.land (c_cflag t) CSIZE = CS8 /\
  Z.land (c_cflag t) PARENB = PARENB /\ Z.land (c_cflag t) CRTSCTS = 0.

Section Port.
Context {W : Type} `{OsOps W, BtOps W}.

Lemma userial_open_run (s : mach W vnd_userial_cb_t) fd w1 :
  os_open (us_port_name (glob s)) (world s) = (fd, w1) -> 0 <= fd ->
  exists w' u', userial_vendor_open userial_init_cfg s =
      Done fd (Mach w' (heap_live s) (fds_live s + 1) u') /\
    us_fd u' = fd /\ us_port_name u' = us_port_name (glob s) /\ port_ready (us_termios u').
Proof.
  intros E Hfd. unfold userial_vendor_open.
  change (userial_to_tcio_baud (cfg_baud userial_init_cfg)) with (true, B115200).
  change (cfg_bits (cfg_fmt userial_init_cfg)) with (Some PARENB).
  change (cfg_hw_fctrl userial_init_cfg =? USERIAL_HW_FLOW_CTRL_ON) with false. cbn [negb]. mrun.
  cbn [us_port_name with_fd]. unfold c_open. unfold bind at 1. msimp. rewrite E.
  rewrite (proj2 (Z.ltb_ge fd 0)) by lia. mrun. rewrite (proj2 (Z.eqb_neq fd (-1))) by lia.
  unfold tcflush, tcsetattr. mrun.
  set (t0 := match bt_tcgetattr _ _ with Some _ => _ | None => _ end).
  repeat (match goal with |- context [bind (on_world ?f) ?k ?s1] =>
    let r := fresh "r" in let w := fresh "w" in let Ew := fresh "Ew" in
    destruct (f (world s1)) as [r w] eqn:Ew; rewrite (bind_on_world f k s1 r w Ew); clear Ew end; mrun).
  eexists _, _. split; [reflexivity|]. cbn [us_fd with_termios with_fd us_port_name us_termios].
  split; [done|]. split; [done|]. unfold port_ready.
  rewrite cfsetspeed_speed, !cfsetspeed_other by reflexivity. unfold with_cflag, cfmakeraw. cbn [c_cflag].
  split; [reflexivity|]. rewrite !(land_other _ PARENB CSIZE), !(land_kept _ CRTSCTS CSIZE) by reflexivity.
  split; [by apply land_set|]. split; [by apply land_set|].
  rewrite (land_other _ PARENB CRTSCTS) by reflexivity. by apply land_cleared.
Qed.

Variable pwr_off pwr_on : Z.
Variable ch_max fuel : nat.
Implicit Types (s : mach W vnd_g).

Abbreviation op := (op pwr_off pwr_on ch_max fuel).
Definition port (g : vnd_g) : vnd_userial_cb_t := hw_user (vnd_hw g).

Lemma op_open_run s fd w1 :
  os_open (us_port_name (port (glob s))) (world s) = (fd, w1) -> 0 <= fd ->
  exists w' g', op BT_VND_OP_USERIAL_OPEN s =
      Done (1, replicate ch_max fd) (Mach w' (heap_live s) (fds_live s + 1) g') /\
    us_fd (port g') = fd /\ us_port_name (port g') = us_port_name (port (glob s)) /\
    port_ready (us_termios (port g')).
Proof.
  intros E Hfd.
  destruct (userial_open_run (Mach (world s) (heap_live s) (fds_live s) (port (glob s))) fd w1 E Hfd)
    as (w' & u' & Eo & H1 & H2 & H3). msimp.
  unfold BtVendor.op, in_hw, in_user.
  mcall (apply zoom_Done, (zoom_Done hw_user with_user); exact Eo). msimp.
  rewrite (proj2 (Z.eqb_neq fd (-1))) by lia. eexists _, _. split; [reflexivity|]. done.
Qed.

Lemma op_close_run s :
  0 <= us_fd (port (glob s)) ->
  exists g', op BT_VND_OP_USERIAL_CLOSE s =
      Done (0, []) (Mach (os_close (us_fd (port (glob s))) (world s)) (heap_live s) (fds_live s - 1) g') /\
    us_fd (port g') = -1 /\ us_port_name (port g') = us_port_name (port (glob s)).
Proof.
  intros Hfd. unfold BtVendor.op, in_hw, in_user.
  assert (userial_vendor_close (Mach (world s) (heap_live s) (fds_live s) (port (glob s))) =
    Done tt (Mach (os_close (us_fd (port (glob s))) (world s)) (heap_live s) (fds_live s - 1)
      (with_fd (-1) (port (glob s))))) as E.
  { unfold userial_vendor_close. mrun. rewrite (proj2 (Z.eqb_neq _ (-1))) by lia.
    unfold c_close, bind, set_glob. msimp. by rewrite (proj2 (Z.ltb_ge _ 0)) by lia. }
  mcall (apply zoom_Done, (zoom_Done hw_user with_user); exact E). msimp.
  eexists. split; [reflexivity|]. done.
Qed.

(** opening the serial port through [op] hands the descriptor to every HCI
    channel and leaves the port at 115200 baud, 8 bits, with parity and without
    hardware flow control; closing it gives the descriptor back, and closing it
    again does nothing. *)
Theorem userial_open_close s fd w1 :
  os_open (us_port_name (port (glob s))) (world s) = (fd, w1) -> 0 <= fd ->
  exists s1 s2, op BT_VND_OP_USERIAL_OPEN s = Done (1, replicate ch_max fd) s1 /\
    port_ready (us_termios (port (glob s1))) /\ fds_live s1 = fds_live s + 1 /\
    op BT_VND_OP_USERIAL_CLOSE s1 = Done (0, []) s2 /\ fds_live s2 = fds_live s /\
    op BT_VND_OP_USERIAL_CLOSE s2 = Done (0, []) s2.
Proof.
  intros E Hfd. destruct (op_open_run s fd w1 E Hfd) as (w' & g' & E1 & H1 & H2 & H3).
  eexists. destruct (op_close_run (Mach w' (heap_live s) (fds_live s + 1) g')) as (g2 & E2 & H4 & H5);
    [msimp; lia|].
  eexists. split; [exact E1|]. split; [done|]. split; [done|]. split; [exact E2|]. msimp. split; [lia|].
  unfold BtVendor.op, in_hw, in_user.
  assert (forall w h f, userial_vendor_close (Mach w h f (port g2)) = Done tt (Mach w h f (port g2))) as E3.
  { intros w h f. unfold userial_vendor_close. mrun. by rewrite H4. }
  mcall (apply zoom_Done, (zoom_Done hw_user with_user); apply E3). msimp.
  unfold ret, with_hw, with_user, port. destruct g2 as [[] ? ? ?]. done.
Qed.

(** opening an open port forgets the descriptor it had: a second
    open without a close, then one close, leaves a descriptor behind. *)
Theorem userial_reopen_leaks s fd1 w1 :
  os_open (us_port_name (port (glob s))) (world s) = (fd1, w1) -> 0 <= fd1 ->
  exists s1, op BT_VND_OP_USERIAL_OPEN s = Done (1, replicate ch_max fd1) s1 /\
    forall fd2 w2, os_open (us_port_name (port (glob s))) (world s1) = (fd2, w2) -> 0 <= fd2 ->
    exists s2 s3, op BT_VND_OP_USERIAL_OPEN s1 = Done (1, replicate ch_max fd2) s2 /\
      op BT_VND_OP_USERIAL_CLOSE s2 = Done (0, []) s3 /\
      us_fd (port (glob s3)) = -1 /\ fds_live s3 = fds_live s + 1.
Proof.
  intros E Hfd. destruct (op_open_run s fd1 w1 E Hfd) as (w' & g' & E1 & H1 & H2 & _).
  eexists. split; [exact E1|]. msimp. intros fd2 w2 E2 Hfd2.
  destruct (op_open_run (Mach w' (heap_live s) (fds_live s + 1) g') fd2 w2) as (w3 & g3 & E3 & H3 & H4 & _);
    [msimp; by rewrite H2|done|]. msimp.
  destruct (op_close_run (Mach w3 (heap_live s) (fds_live s + 1 + 1) g3)) as (g4 & E4 & H5 & _);
    [msimp; lia|].
  eexists _, _. split; [exact E3|]. split; [exact E4|]. msimp. split; [done|lia].
Qed.
End Port.

(** ** The wake lines *)

Section Lines.
Context {W : Type} `{OsOps W, BtOps W}.
Implicit Types (s : mach W upio_g).

(** [upio_set] notes the new low power mode before it opens the
    driver's node.  When the node cannot be opened nothing was written, and the
    same request made again is skipped as already done. *)
Theorem lpm_request_lost action polarity fd w1 s :
  st_lpm_mode (glob s) <> action ->
  os_open VENDOR_LPM_PROC_NODE (world s) = (fd, w1) -> fd < 0 ->
  exists s', upio_set UPIO_LPM_MODE action polarity s = Done tt s' /\ world s' = w1 /\
    st_lpm_mode (glob s') = action /\
    upio_set UPIO_LPM_MODE action polarity s' = Done tt s'.
Proof.
  intros Hne E Hfd. unfold upio_set. rewrite Z.eqb_refl. unfold set_lpm_mode.
  eexists. split.
  - mrun. rewrite (proj2 (Z.eqb_neq _ action)) by done. mrun. unfold c_open, bind. msimp. rewrite E.
    rewrite (proj2 (Z.ltb_lt fd 0)) by done. reflexivity.
  - msimp. split; [done|]. split; [done|]. by mrun.
Qed.

(** a low power mode request that reaches the driver leaves the descriptors
    balanced, and the hold timer exists exactly when the mode is asserted and a
    timer could be made. *)
Theorem lpm_request_done action fd w1 r w2 status w3 s :
  action = UPIO_ASSERT \/ action = UPIO_DEASSERT -> st_lpm_mode (glob s) <> action ->
  timer_created (glob s) = (if action =? UPIO_ASSERT then false else true) ->
  os_open VENDOR_LPM_PROC_NODE (world s) = (fd, w1) -> 0 <= fd ->
  os_write fd [if action =? UPIO_ASSERT then 49 else 48]
    (if action =? UPIO_ASSERT then w1 else bt_timer_delete w1) = (r, w2) -> 0 <= r ->
  bt_timer_create w2 = (status, w3) ->
  exists s', upio_set UPIO_LPM_MODE action 0 s = Done tt s' /\
    fds_live s' = fds_live s /\ heap_live s' = heap_live s /\ st_lpm_mode (glob s') = action /\
    timer_created (glob s') = (action =? UPIO_ASSERT) && (status =? 0).
Proof.
  intros Ha Hne Ht E Hfd Ew Hr Ec. unfold upio_set. rewrite Z.eqb_refl. unfold set_lpm_mode.
  mrun. rewrite (proj2 (Z.eqb_neq _ action)) by done. mrun. unfold c_open. unfold bind at 1. msimp.
  rewrite E. rewrite (proj2 (Z.ltb_ge fd 0)) by done.
  destruct Ha as [-> | ->].
  - change (UPIO_ASSERT =? UPIO_ASSERT) with true in *. cbn iota in *. mrun.
    mcall (eapply c_write_ok; [exact Ew|reflexivity]). rewrite (proj2 (Z.ltb_ge r 0)) by done. msimp.
    mrun. cbn [timer_created with_lpm_mode]. rewrite Ht. unfold timer_create. rewrite ?bind_assoc.
    erewrite bind_on_world by exact Ec. cbn [andb].
    destruct (status =? 0); mrun; unfold c_close; msimp; rewrite (proj2 (Z.ltb_ge fd 0)) by done;
      (eexists; split; [reflexivity|]); msimp; repeat split; try lia; done.
  - change (UPIO_DEASSERT =? UPIO_ASSERT) with false in *. cbn iota in *. mrun.
    cbn [timer_created with_lpm_mode]. rewrite Ht. unfold timer_delete. mrun.
    mcall (eapply c_write_ok; [exact Ew|reflexivity]). rewrite (proj2 (Z.ltb_ge r 0)) by done. msimp.
    mrun. unfold c_close; msimp. rewrite (proj2 (Z.ltb_ge fd 0)) by done.
    (eexists; split; [reflexivity|]). msimp. repeat split; try lia; done.
Qed.

(** [upio_write_proc] never closes the node it opens, whether the
    write succeeds or not. *)
Theorem write_proc_leaks path data fd w1 s :
  os_open path (world s) = (fd, w1) -> 0 <= fd ->
  exists w', upio_write_proc path data s = Done tt (Mach w' (heap_live s) (fds_live s + 1) (glob s)).
Proof.
  intros E Hfd. unfold upio_write_proc. unfold c_open. unfold bind at 1. rewrite E.
  rewrite (proj2 (Z.ltb_ge fd 0)) by done.
  destruct (os_write fd (bslice 0 1 (le_put 4 data)) w1) as [r w2] eqn:Ew. exists w2.
  mcall (eapply c_write_ok; [exact Ew|reflexivity]). reflexivity.
Qed.
End Lines.

(** ** The properties on the concrete line *)

(** An address entry, an entry 0xc that is too short, whose baud rate ends in the
    next entry's header, and the entry 0xc of a chip at 1500000 with flow control. *)
Definition demo_entries : list (Z * bytes) :=
  [(0x30, [1; 2; 3; 4; 5; 6]); (0xc, [1; 2]); (0xc, le_put 4 0x04928002 ++ zeros 8 ++ [4])].

Lemma config_parse_roundtrip_witness :
  rtk_parse_config_file (config_file (take 2 demo_entries)) (lenZ (config_file (take 2 demo_entries))) 1 0 = None /\
  rtk_parse_config_file (config_file demo_entries) (lenZ (config_file demo_entries)) 0 0 =
  Some (ConfigResult 0x04928002 1 1).
Proof.
  split.
  - apply (config_parse_roundtrip (take 2 demo_entries) 1 0).
    + repeat constructor; vm_compute; discriminate.
    + reflexivity.
  - apply (config_parse_roundtrip demo_entries 0 0).
    + repeat constructor; vm_compute; discriminate.
    + reflexivity.
Defined.

Lemma config_entry_12_overrun_witness :
  rtk_parse_config_file (config_file [(0xc, zeros 12)]) (lenZ (config_file [(0xc, zeros 12)])) 0 0 = None.
Proof.
  apply (config_entry_12_overrun (zeros 12) 0 0).
  - repeat constructor; vm_compute; discriminate.
  - reflexivity.
Defined.

Definition demo_chip_of (lmp : Z) : hw_g :=
  Hw demo_user upio_initial demo_stack (Chip HW_CFG_START (-1) 0 0 1 1 lmp event_received None) dl_reset.

Lemma unknown_chip_leaves_table_witness : cfg_load (Mach line_up 0 0 (demo_chip_of 0x8703)) = Undef.
Proof.
  apply (unknown_chip_leaves_table (Mach line_up 0 0 (demo_chip_of 0x8703))).
  vm_compute. intros H. repeat destruct H as [H|H]; done.
Defined.

(** The 8723b's configuration is there and cannot be read; its patch is not. *)
Definition half_line : line := Line [] [(RTLBT +:+ "rtl8723b_config", 30)].

Lemma config_short_read_frees_twice_witness :
  cfg_load (Mach half_line 0 0 (demo_chip_of ROM_LMP_8723b)) = Undef.
Proof.
  eapply (config_short_read_frees_twice (Mach half_line 0 0 (demo_chip_of ROM_LMP_8723b)) _ 30
    5 half_line 64 half_line (-1) [] half_line); try reflexivity; vm_compute; discriminate.
Defined.

Definition demo_started : mach line hw_g := Mach line_up 0 1 (demo_chip_of 0).

(** The answer to the LMP command: the version is the last two bytes. *)
Definition lmp_answer (status lmp : Z) : bytes :=
  [0x0e; 12; 1] ++ uint16_stream HCI_READ_LMP ++ [status] ++ zeros 6 ++ uint16_stream lmp.

Lemma lmp_failure_unanswered_witness :
  exists g', rtk_get_lmp_cback (Termios 0 0 0 0) (lmp_answer 12 0) demo_started =
      Done tt (Mach line_up 0 1 g') /\
    trace (hw_stack g') = [LpmCb 12] /\ alarm_set (hw_chip g') = None.
Proof.
  apply (lmp_failure_unanswered (Termios 0 0 0 0) (lmp_answer 12 0) 12 demo_started).
  - reflexivity.
  - discriminate.
  - reflexivity.
Defined.

Lemma bring_up_sequence_witness :
  exists w' g',
    (hw_config_start ;;; run_cback (Termios 0 0 0 0) CbGetLmp (complete HCI_VSC_H5_INIT 0) ;;;
     run_cback (Termios 0 0 0 0) CbLmp (lmp_answer 0 ROM_LMP_8723b)) demo_started =
      Done tt (Mach w' 0 1 g') /\ bg_up w' /\
    trace (hw_stack g') = [] ++
      [Xmit HCI_VSC_H5_INIT [0xEE; 0xFC] CbGetLmp; Xmit HCI_READ_LMP [0x01; 0x10; 0] CbLmp;
       Xmit HCI_VENDOR_READ_RTK_ROM_VERISION [0x6D; 0xFC; 0] CbConfig; LpmCb 0] /\
    hw_state (hw_chip g') = HW_CFG_START /\ lmp_version (hw_chip g') = ROM_LMP_8723b /\
    alarm_set (hw_chip g') = Some rtk_get_eversion_timeout_h /\ hc_live (hw_stack g') = 0 - 1.
Proof.
  apply (bring_up_sequence (Termios 0 0 0 0) (complete HCI_VSC_H5_INIT 0) (lmp_answer 0 ROM_LMP_8723b)
    ROM_LMP_8723b demo_started).
  - exact I.
  - reflexivity.
  - reflexivity.
  - reflexivity.
  - discriminate.
Defined.

Definition demo_vendor : mach line vnd_g :=
  Mach line_up 0 0 (Vnd (Hw (VndUserial (-1) (Termios 0 0 0 0) "/dev/ttyS1") upio_initial demo_stack
    (demo_chip 0) dl_reset) 1 115200 []).

Lemma userial_open_close_witness :
  exists s1 s2, op 0 1 4 10 BT_VND_OP_USERIAL_OPEN demo_vendor = Done (1, replicate 4 5) s1 /\
    port_ready (us_termios (port (glob s1))) /\ fds_live s1 = 0 + 1 /\
    op 0 1 4 10 BT_VND_OP_USERIAL_CLOSE s1 = Done (0, []) s2 /\ fds_live s2 = 0 /\
    op 0 1 4 10 BT_VND_OP_USERIAL_CLOSE s2 = Done (0, []) s2.
Proof.
  apply (userial_open_close 0 1 4 10 demo_vendor 5 line_up).
  - reflexivity.
  - discriminate.
Defined.

Lemma userial_reopen_leaks_witness :
  exists s1, op 0 1 4 10 BT_VND_OP_USERIAL_OPEN demo_vendor = Done (1, replicate 4 5) s1 /\
    forall fd2 w2, os_open "/dev/ttyS1" (world s1) = (fd2, w2) -> 0 <= fd2 ->
    exists s2 s3, op 0 1 4 10 BT_VND_OP_USERIAL_OPEN s1 = Done (1, replicate 4 fd2) s2 /\
      op 0 1 4 10 BT_VND_OP_USERIAL_CLOSE s2 = Done (0, []) s3 /\
      us_fd (port (glob s3)) = -1 /\ fds_live s3 = 0 + 1.
Proof.
  apply (userial_reopen_leaks 0 1 4 10 demo_vendor 5 line_up).
  - reflexivity.
  - discriminate.
Defined.

Definition no_lpm_node : line := Line [VENDOR_LPM_PROC_NODE] [].

Lemma lpm_request_lost_witness :
  exists s', upio_set UPIO_LPM_MODE UPIO_ASSERT 0 (Mach no_lpm_node 0 0 upio_initial) = Done tt s' /\
    world s' = no_lpm_node /\ st_lpm_mode (glob s') = UPIO_ASSERT /\
    upio_set UPIO_LPM_MODE UPIO_ASSERT 0 s' = Done tt s'.
Proof.
  apply (lpm_request_lost UPIO_ASSERT 0 (-1) no_lpm_node (Mach no_lpm_node 0 0 upio_initial)).
  - discriminate.
  - reflexivity.
  - reflexivity.
Defined.

Lemma lpm_request_done_witness :
  exists s', upio_set UPIO_LPM_MODE UPIO_DEASSERT 0
      (Mach line_up 0 0 (with_timer true (with_lpm_mode UPIO_ASSERT upio_initial))) = Done tt s' /\
    fds_live s' = 0 /\ heap_live s' = 0 /\ st_lpm_mode (glob s') = UPIO_DEASSERT /\
    timer_created (glob s') = false.
Proof.
  apply (lpm_request_done UPIO_DEASSERT 5 line_up 1 line_up 0 line_up
    (Mach line_up 0 0 (with_timer true (with_lpm_mode UPIO_ASSERT upio_initial)))).
  - by right.
  - discriminate.
  - reflexivity.
  - reflexivity.
  - discriminate.
  - reflexivity.
  - discriminate.
  - reflexivity.
Defined.

Lemma write_proc_leaks_witness :
  exists w', upio_write_proc "/proc/bluetooth/sleep/lpm" 49 (Mach line_up 0 0 upio_initial) =
    Done tt (Mach w' 0 1 upio_initial).
Proof.
  apply (write_proc_leaks "/proc/bluetooth/sleep/lpm" 49 5 line_up (Mach line_up 0 0 upio_initial)).
  - reflexivity.
  - discriminate.
Defined.
