(* ===== verification/Snd.v ===== *)
(** * libcodec_audio: the sound kernel interface

    What [pcm.c] and [mixer.c] exchange with ALSA ([sound/asound.h]): the
    structures of the PCM ioctls, field by field as far as the code reads or
    writes them, and the calls themselves as the class [SndOps].  Memory mapped
    from the driver is addressed; its contents are the kernel's. *)

From S2P Require Import Prelude CLib Os.

(** ** Hardware parameters *)

Definition SNDRV_PCM_HW_PARAM_ACCESS : Z := 0.
Definition SNDRV_PCM_HW_PARAM_FORMAT : Z := 1.
Definition SNDRV_PCM_HW_PARAM_SUBFORMAT : Z := 2.
Definition SNDRV_PCM_HW_PARAM_FIRST_MASK : Z := 0.
Definition SNDRV_PCM_HW_PARAM_LAST_MASK : Z := 2.
Definition SNDRV_PCM_HW_PARAM_SAMPLE_BITS : Z := 8.
Definition SNDRV_PCM_HW_PARAM_FRAME_BITS : Z := 9.
Definition SNDRV_PCM_HW_PARAM_CHANNELS : Z := 10.
Definition SNDRV_PCM_HW_PARAM_RATE : Z := 11.
Definition SNDRV_PCM_HW_PARAM_PERIOD_SIZE : Z := 13.
Definition SNDRV_PCM_HW_PARAM_PERIODS : Z := 15.
Definition SNDRV_PCM_HW_PARAM_FIRST_INTERVAL : Z := 8.
Definition SNDRV_PCM_HW_PARAM_LAST_INTERVAL : Z := 19.
Definition SNDRV_MASK_MAX : Z := 256.
Definition SNDRV_PCM_FORMAT_S16_LE : Z := 2.
Definition SNDRV_PCM_FORMAT_S32_LE : Z := 10.
Definition SNDRV_PCM_SUBFORMAT_STD : Z := 0.
Definition SNDRV_PCM_ACCESS_MMAP_INTERLEAVED : Z := 0.
Definition SNDRV_PCM_ACCESS_RW_INTERLEAVED : Z := 3.
Definition SNDRV_PCM_TSTAMP_ENABLE : Z := 1.
Definition SNDRV_PCM_SYNC_PTR_HWSYNC : Z := 1.
Definition SNDRV_PCM_SYNC_PTR_APPL : Z := 2.
Definition SNDRV_PCM_MMAP_OFFSET_STATUS : Z := 0x80000000.
Definition SNDRV_PCM_MMAP_OFFSET_CONTROL : Z := 0x81000000.

(** [struct snd_interval]: the bounds, and the bit that fixes it to an integer. *)
Record snd_interval := Interval { i_min : Z; i_max : Z; i_integer : Z }.

(** [struct snd_pcm_hw_params]: the masks of eight words each from
    FIRST_MASK, the intervals from FIRST_INTERVAL. *)
Record snd_pcm_hw_params := HwParams {
  hw_masks : list (list Z);
  hw_intervals : list snd_interval;
  hw_flags : Z;
}.

Record snd_pcm_sw_params := SwParams {
  sw_tstamp_mode : Z;
  sw_period_step : Z;
  sw_avail_min : Z;
  sw_xfer_align : Z;
  sw_start_threshold : Z;
  sw_stop_threshold : Z;
  sw_silence_threshold : Z;
  sw_silence_size : Z;
  sw_boundary : Z;
}.

(** ** The shared status and control pages *)

Record snd_pcm_mmap_status := MmapStatus {
  st_state : Z;
  st_hw_ptr : Z;
  st_tstamp : Z * Z;        (* seconds and nanoseconds *)
}.
Record snd_pcm_mmap_control := MmapControl { ct_appl_ptr : Z; ct_avail_min : Z }.
Record snd_pcm_sync_ptr := SyncPtr {
  sy_flags : Z;
  sy_status : snd_pcm_mmap_status;
  sy_control : snd_pcm_mmap_control;
}.

(** ** The calls *)

Definition MAP_FAILED : Z := -1.
Definition EPIPE : Z := 32.
Definition EINVAL : Z := 22.
Definition ENOMEM : Z := 12.
Definition ENODEV : Z := 19.
Definition ENOSYS : Z := 38.
Definition ESTRPIPE : Z := 86.

Class SndOps (W : Type) := {
  snd_errno : W -> Z;
  snd_strerror : Z -> bytes;
  snd_page_size : Z;
  snd_info : Z -> W -> Z * W;
  snd_hw_params : Z -> snd_pcm_hw_params -> W -> Z * snd_pcm_hw_params * W;
  snd_sw_params : Z -> snd_pcm_sw_params -> W -> Z * W;
  snd_prepare : Z -> W -> Z * W;
  snd_start : Z -> W -> Z * W;
  snd_drop : Z -> W -> Z * W;
  snd_writei : Z -> bytes -> Z -> W -> Z * W;            (* buffer, frames *)
  snd_readi : Z -> bytes -> Z -> W -> Z * bytes * W;     (* the buffer after *)
  snd_status : Z -> W -> Z * Z * W;                      (* result, state *)
  snd_sync_ptr : Z -> snd_pcm_sync_ptr -> W -> Z * snd_pcm_sync_ptr * W;
  snd_mmap : Z -> Z -> Z -> W -> Z * W;                  (* length, fd, offset *)
  snd_munmap : Z -> Z -> W -> W;
  snd_map_status : Z -> W -> snd_pcm_mmap_status;        (* what a page holds *)
  snd_map_control : Z -> W -> snd_pcm_mmap_control;
  snd_put_control : Z -> snd_pcm_mmap_control -> W -> W;
  snd_poll : Z -> Z -> W -> Z * Z * W;                   (* fd, timeout; result, revents *)
}.

(** ** Text *)

Definition str (s : string) : bytes :=
  map (fun c => Z.of_N (Ascii.N_of_ascii c)) (String.list_ascii_of_string s).
