(* ===== verification/Pcm.v ===== *)
(** * libcodec_audio: PCM streams

    [pcm.c]: opening a stream (hardware and software parameters, the mapped
    pages), writing and reading it, and the ring of frames shared with the
    driver.  A [struct pcm] is an object with an address; a freed one is [Undef]
    to use.  A loop the kernel can prolong takes its number of rounds and is
    [Blocked] when they are used up. *)

From stdpp Require Import pretty.
From S2P Require Import Prelude CLib Os Snd.

(** ** Hardware parameters *)

Definition param_is_mask (p : Z) : bool :=
  (SNDRV_PCM_HW_PARAM_FIRST_MASK <=? p) && (p <=? SNDRV_PCM_HW_PARAM_LAST_MASK).
Definition param_is_interval (p : Z) : bool :=
  (SNDRV_PCM_HW_PARAM_FIRST_INTERVAL <=? p) && (p <=? SNDRV_PCM_HW_PARAM_LAST_INTERVAL).

(** Change one mask, or one interval, of the parameters. *)
Definition on_mask (n : Z) (f : list Z -> list Z) (p : snd_pcm_hw_params) : snd_pcm_hw_params :=
  HwParams (alter f (Z.to_nat (n - SNDRV_PCM_HW_PARAM_FIRST_MASK)) (hw_masks p))
           (hw_intervals p) (hw_flags p).
Definition on_interval (n : Z) (f : snd_interval -> snd_interval) (p : snd_pcm_hw_params)
  : snd_pcm_hw_params :=
  HwParams (hw_masks p)
           (alter f (Z.to_nat (n - SNDRV_PCM_HW_PARAM_FIRST_INTERVAL)) (hw_intervals p))
           (hw_flags p).

Definition param_set_mask (p : snd_pcm_hw_params) (n bit : Z) : snd_pcm_hw_params :=
  if SNDRV_MASK_MAX <=? bit then p else
  if param_is_mask n then
    on_mask n (fun m =>
      let m := <[0%nat := 0]> m in
      let m := <[1%nat := 0]> m in
      alter (fun w => Z.lor w (Z.shiftl 1 (Z.land bit 31))) (Z.to_nat (Z.shiftr bit 5)) m) p
  else p.

Definition param_set_min (p : snd_pcm_hw_params) (n val : Z) : snd_pcm_hw_params :=
  if param_is_interval n
  then on_interval n (fun i => Interval val (i_max i) (i_integer i)) p else p.

Definition param_set_int (p : snd_pcm_hw_params) (n val : Z) : snd_pcm_hw_params :=
  if param_is_interval n then on_interval n (fun _ => Interval val val 1) p else p.

Definition param_get_int (p : snd_pcm_hw_params) (n : Z) : Z :=
  if param_is_interval n then
    match hw_intervals p !! Z.to_nat (n - SNDRV_PCM_HW_PARAM_FIRST_INTERVAL) with
    | Some i => if i_integer i =? 0 then 0 else i_max i
    | None => 0
    end
  else 0.

(** Every mask has its first two words set, every interval is unbounded. *)
Definition param_init : snd_pcm_hw_params :=
  HwParams (replicate 3 ([0xffffffff; 0xffffffff] ++ replicate 6 0))
           (replicate 12 (Interval 0 0xffffffff 0)) 0.

(** ** The stream *)

Definition PCM_IN : Z := 0x10000000.
Definition PCM_OUT : Z := 0.
Definition PCM_MMAP : Z := 1.
Definition PCM_NOIRQ : Z := 2.
Definition PCM_FORMAT_S16_LE : Z := 0.
Definition PCM_FORMAT_S32_LE : Z := 1.
Definition PCM_STATE_RUNNING : Z := 3.
Definition PCM_STATE_XRUN : Z := 4.
Definition PCM_STATE_DRAINING : Z := 5.
Definition PCM_STATE_SUSPENDED : Z := 7.
Definition PCM_STATE_DISCONNECTED : Z := 8.
Definition PCM_ERROR_MAX : Z := 128.
Definition SNDRV_PCM_HW_PARAMS_NO_PERIOD_WAKEUP : Z := 4.
Definition LONG_MAX : Z := 2147483647.

Definition has_flag (flags bit : Z) : bool := negb (Z.land flags bit =? 0).

Record pcm_config := PcmConfig {
  channels : Z;
  rate : Z;
  period_size : Z;
  period_count : Z;
  format : Z;
  start_threshold : Z;
  stop_threshold : Z;
  silence_threshold : Z;
  avail_min : Z;
  raw_flag : Z;
  in_init_channels : Z;
}.

(** Where [mmap_status] and [mmap_control] point: nowhere, at a page of the
    driver, or into the stream's own [sync_ptr]. *)
Inductive mm_ptr := MmNull | MmPage (addr : Z) | MmSync.

Record pcm := Pcm {
  p_fd : Z;
  p_flags : Z;
  p_running : bool;
  p_underruns : Z;
  p_buffer_size : Z;
  p_boundary : Z;
  p_error : bytes;                         (* the C string in error[] *)
  p_config : pcm_config;
  p_mmap_status : mm_ptr;
  p_mmap_control : mm_ptr;
  p_sync_ptr : option (Z * snd_pcm_sync_ptr);  (* its address and contents *)
  p_mmap_buffer : Z;
  p_noirq_frames_per_msec : Z;
}.

Definition with_fd v p := Pcm v (p_flags p) (p_running p) (p_underruns p) (p_buffer_size p) (p_boundary p) (p_error p) (p_config p) (p_mmap_status p) (p_mmap_control p) (p_sync_ptr p) (p_mmap_buffer p) (p_noirq_frames_per_msec p).
Definition with_flags v p := Pcm (p_fd p) v (p_running p) (p_underruns p) (p_buffer_size p) (p_boundary p) (p_error p) (p_config p) (p_mmap_status p) (p_mmap_control p) (p_sync_ptr p) (p_mmap_buffer p) (p_noirq_frames_per_msec p).
Definition with_running v p := Pcm (p_fd p) (p_flags p) v (p_underruns p) (p_buffer_size p) (p_boundary p) (p_error p) (p_config p) (p_mmap_status p) (p_mmap_control p) (p_sync_ptr p) (p_mmap_buffer p) (p_noirq_frames_per_msec p).
Definition with_underruns v p := Pcm (p_fd p) (p_flags p) (p_running p) v (p_buffer_size p) (p_boundary p) (p_error p) (p_config p) (p_mmap_status p) (p_mmap_control p) (p_sync_ptr p) (p_mmap_buffer p) (p_noirq_frames_per_msec p).
Definition with_size v p := Pcm (p_fd p) (p_flags p) (p_running p) (p_underruns p) v (p_boundary p) (p_error p) (p_config p) (p_mmap_status p) (p_mmap_control p) (p_sync_ptr p) (p_mmap_buffer p) (p_noirq_frames_per_msec p).
Definition with_boundary v p := Pcm (p_fd p) (p_flags p) (p_running p) (p_underruns p) (p_buffer_size p) v (p_error p) (p_config p) (p_mmap_status p) (p_mmap_control p) (p_sync_ptr p) (p_mmap_buffer p) (p_noirq_frames_per_msec p).
Definition with_error v p := Pcm (p_fd p) (p_flags p) (p_running p) (p_underruns p) (p_buffer_size p) (p_boundary p) v (p_config p) (p_mmap_status p) (p_mmap_control p) (p_sync_ptr p) (p_mmap_buffer p) (p_noirq_frames_per_msec p).
Definition with_config v p := Pcm (p_fd p) (p_flags p) (p_running p) (p_underruns p) (p_buffer_size p) (p_boundary p) (p_error p) v (p_mmap_status p) (p_mmap_control p) (p_sync_ptr p) (p_mmap_buffer p) (p_noirq_frames_per_msec p).
Definition with_pages st ct p := Pcm (p_fd p) (p_flags p) (p_running p) (p_underruns p) (p_buffer_size p) (p_boundary p) (p_error p) (p_config p) st ct (p_sync_ptr p) (p_mmap_buffer p) (p_noirq_frames_per_msec p).
Definition with_sync v p := Pcm (p_fd p) (p_flags p) (p_running p) (p_underruns p) (p_buffer_size p) (p_boundary p) (p_error p) (p_config p) (p_mmap_status p) (p_mmap_control p) v (p_mmap_buffer p) (p_noirq_frames_per_msec p).
Definition with_buffer v p := Pcm (p_fd p) (p_flags p) (p_running p) (p_underruns p) (p_buffer_size p) (p_boundary p) (p_error p) (p_config p) (p_mmap_status p) (p_mmap_control p) (p_sync_ptr p) v (p_noirq_frames_per_msec p).
Definition with_noirq v p := Pcm (p_fd p) (p_flags p) (p_running p) (p_underruns p) (p_buffer_size p) (p_boundary p) (p_error p) (p_config p) (p_mmap_status p) (p_mmap_control p) (p_sync_ptr p) (p_mmap_buffer p) v.

Definition set_avail_min v c :=
  PcmConfig (channels c) (rate c) (period_size c) (period_count c) (format c) (start_threshold c)
    (stop_threshold c) (silence_threshold c) v (raw_flag c) (in_init_channels c).
Definition set_start_threshold v c :=
  PcmConfig (channels c) (rate c) (period_size c) (period_count c) (format c) v
    (stop_threshold c) (silence_threshold c) (avail_min c) (raw_flag c) (in_init_channels c).
Definition set_stop_threshold v c :=
  PcmConfig (channels c) (rate c) (period_size c) (period_count c) (format c) (start_threshold c)
    v (silence_threshold c) (avail_min c) (raw_flag c) (in_init_channels c).
Definition set_period sz n c :=
  PcmConfig (channels c) (rate c) sz n (format c) (start_threshold c)
    (stop_threshold c) (silence_threshold c) (avail_min c) (raw_flag c) (in_init_channels c).

(** [calloc] of a stream. *)
Definition config_zero : pcm_config := PcmConfig 0 0 0 0 0 0 0 0 0 0 0.
Definition pcm_zero : pcm := Pcm 0 0 false 0 0 0 [] config_zero MmNull MmNull None 0 0.
(** The static [bad_pcm]; its address is none that [calloc] returns. *)
Definition BAD_PCM : Z := -1.
Definition bad_pcm : pcm := with_fd (-1) pcm_zero.

Definition pcm_format_to_alsa (f : Z) : Z :=
  if f =? PCM_FORMAT_S32_LE then SNDRV_PCM_FORMAT_S32_LE else SNDRV_PCM_FORMAT_S16_LE.
Definition pcm_format_to_bits (f : Z) : Z := if f =? PCM_FORMAT_S32_LE then 32 else 16.

(** Division of unsigned integers: by zero it has no value. *)
Definition udiv (a b : Z) : option Z := if b =? 0 then None else Some (a / b).

Definition bytes_to_frames (c : pcm_config) (n : Z) : option Z :=
  udiv n (u32 (channels c * Z.shiftr (pcm_format_to_bits (format c)) 3)).
Definition frames_to_bytes (c : pcm_config) (n : Z) : Z :=
  u32 (u32 (n * channels c) * Z.shiftr (pcm_format_to_bits (format c)) 3).
(** [count / (channels * bits / 8)] of [pcm_write] and [pcm_read]. *)
Definition xfer_frames (c : pcm_config) (count : Z) : option Z :=
  udiv count (u32 (channels c * pcm_format_to_bits (format c)) / 8).

(** [while (boundary * 2 <= LONG_MAX - buffer_size) boundary *= 2]: a 32-bit
    [long], so both sides are compared as 32-bit unsigned. *)
Fixpoint grow_boundary (fuel : nat) (boundary buffer_size : Z) : option Z :=
  if u32 (boundary * 2) <=? u32 (LONG_MAX - buffer_size) then
    match fuel with
    | O => None
    | S f => grow_boundary f (u32 (boundary * 2)) buffer_size
    end
  else Some boundary.

(** ** The calls *)

Section Pcm.
Context {W : Type} `{OsOps W, SndOps W}.
Abbreviation S := (mach W (gmap Z pcm)).

Definition the_pcm (p : Z) : M S pcm := let* m := get_glob id in checked (m !! p).
Definition put_pcm (p : Z) (f : pcm -> pcm) : M S unit :=
  let* v := the_pcm p in set_glob (<[p := f v]>).

Definition pcm_get_buffer_size (p : Z) : M S Z := let* v := the_pcm p in ret (p_buffer_size v).
Definition pcm_get_error (p : Z) : M S bytes := let* v := the_pcm p in ret (p_error v).
Definition pcm_is_ready (p : Z) : M S bool := let* v := the_pcm p in ret (0 <=? p_fd v).
Definition pcm_bytes_to_frames (p n : Z) : M S Z :=
  let* v := the_pcm p in checked (bytes_to_frames (p_config v) n).
Definition pcm_frames_to_bytes (p n : Z) : M S Z :=
  let* v := the_pcm p in ret (frames_to_bytes (p_config v) n).

(** [oops]: the message, cut to the field, and the system's own text when there
    is an error number. *)
Definition oops (p e : Z) (msg : bytes) : M S Z :=
  let cut := take (Z.to_nat (PCM_ERROR_MAX - 1)) in
  put_pcm p (with_error (cut msg)) ;;;
  let* err := ask snd_errno in
  (if err =? 0 then ret tt
   else put_pcm p (fun v => with_error (cut (p_error v ++ str ": " ++ snd_strerror e)) v)) ;;;
  ret (-1).
(** [return oops (pcm, errno, msg)]. *)
Definition oops_errno (p : Z) (msg : string) : M S Z :=
  let* e := ask snd_errno in oops p e (str msg).

(** *** The status and control pages *)

Definition mmap_status_of (v : pcm) : M S snd_pcm_mmap_status :=
  match p_mmap_status v, p_sync_ptr v with
  | MmPage a, _ => ask (snd_map_status a)
  | MmSync, Some (_, y) => ret (sy_status y)
  | _, _ => undef
  end.
Definition mmap_control_of (v : pcm) : M S snd_pcm_mmap_control :=
  match p_mmap_control v, p_sync_ptr v with
  | MmPage a, _ => ask (snd_map_control a)
  | MmSync, Some (_, y) => ret (sy_control y)
  | _, _ => undef
  end.
Definition put_control (p : Z) (c : snd_pcm_mmap_control) : M S unit :=
  let* v := the_pcm p in
  match p_mmap_control v, p_sync_ptr v with
  | MmPage a, _ => step_world (snd_put_control a c)
  | MmSync, Some (a, y) => put_pcm p (with_sync (Some (a, SyncPtr (sy_flags y) (sy_status y) c)))
  | _, _ => undef
  end.

Definition pcm_sync_ptr (p flags : Z) : M S Z :=
  let* v := the_pcm p in
  match p_sync_ptr v with
  | None => ret 0
  | Some (a, y) =>
      let* '(r, y') := on_world (snd_sync_ptr (p_fd v) (SyncPtr flags (sy_status y) (sy_control y))) in
      put_pcm p (with_sync (Some (a, y'))) ;;;
      if r <? 0 then ret (-1) else ret 0
  end.

Definition SIZEOF_sync_ptr : Z := 136.

Definition put_avail_min (p : Z) : M S unit :=
  let* v := the_pcm p in
  let* c := mmap_control_of v in
  put_control p (MmapControl (ct_appl_ptr c)
    (if has_flag (p_flags v) PCM_MMAP then avail_min (p_config v) else 1)).

(** The label [mmap_error]: a [sync_ptr] of the stream's own. *)
Definition hw_sync_pages (p : Z) : M S Z :=
  let* a := c_malloc SIZEOF_sync_ptr in
  if a =? 0 then put_pcm p (with_sync None) ;;; ret (- ENOMEM) else
  put_pcm p (with_sync (Some (a, SyncPtr 0 (MmapStatus 0 0 (0, 0)) (MmapControl 0 0)))) ;;;
  put_pcm p (with_pages MmSync MmSync) ;;;
  put_avail_min p ;;;
  pcm_sync_ptr p 0 ;;;
  ret 0.

Definition page_or_null (a : Z) : mm_ptr := if (a =? MAP_FAILED) || (a =? 0) then MmNull else MmPage a.

Definition pcm_hw_mmap_status (p : Z) : M S Z :=
  let* v := the_pcm p in
  match p_sync_ptr v with
  | Some _ => ret 0
  | None =>
      let* st := on_world (snd_mmap snd_page_size (p_fd v) SNDRV_PCM_MMAP_OFFSET_STATUS) in
      put_pcm p (fun v => with_pages (page_or_null st) (p_mmap_control v) v) ;;;
      match page_or_null st with
      | MmPage _ =>
          let* ct := on_world (snd_mmap snd_page_size (p_fd v) SNDRV_PCM_MMAP_OFFSET_CONTROL) in
          put_pcm p (fun v => with_pages (p_mmap_status v) (page_or_null ct) v) ;;;
          match page_or_null ct with
          | MmPage _ => put_avail_min p ;;; ret 0
          | _ =>
              step_world (snd_munmap st snd_page_size) ;;;
              put_pcm p (fun v => with_pages MmNull (p_mmap_control v) v) ;;;
              hw_sync_pages p
          end
      | _ => hw_sync_pages p
      end
  end.

Definition munmap_page (m : mm_ptr) : M S unit :=
  match m with
  | MmPage a => step_world (snd_munmap a snd_page_size)
  | _ => ret tt
  end.

Definition pcm_hw_munmap_status (p : Z) : M S unit :=
  let* v := the_pcm p in
  match p_sync_ptr v with
  | Some (a, _) => c_free a ;;; put_pcm p (with_sync None)
  | None => munmap_page (p_mmap_status v) ;;; munmap_page (p_mmap_control v)
  end ;;;
  put_pcm p (with_pages MmNull MmNull).

(** *** Writing and reading *)

Definition pcm_write_round (p : Z) (data : bytes) (frames : Z) : M S (option Z) :=
  let* v := the_pcm p in
  if p_running v then
    let* r := on_world (snd_writei (p_fd v) data frames) in
    if r =? 0 then ret (Some 0) else
    put_pcm p (with_running false) ;;;
    let* e := ask snd_errno in
    if e =? EPIPE
    then put_pcm p (fun v => with_underruns (s32 (p_underruns v + 1)) v) ;;; ret None
    else let* r := oops_errno p "cannot write stream data" in ret (Some r)
  else
    let* r := on_world (snd_prepare (p_fd v)) in
    if negb (r =? 0) then let* r := oops_errno p "cannot prepare channel" in ret (Some r) else
    let* r := on_world (snd_writei (p_fd v) data frames) in
    if negb (r =? 0) then let* r := oops_errno p "cannot write initial data" in ret (Some r) else
    put_pcm p (with_running true) ;;; ret (Some 0).

(** [for (;;)] around a round; [None] is [continue]. *)
Fixpoint rounds (fuel : nat) (body : M S (option Z)) : M S Z :=
  match fuel with
  | O => blocked
  | Datatypes.S f =>
      let* r := body in
      match r with Some r => ret r | None => rounds f body end
  end.

Definition pcm_write (fuel : nat) (p : Z) (data : bytes) (count : Z) : M S Z :=
  let* v := the_pcm p in
  if has_flag (p_flags v) PCM_IN then ret (- EINVAL) else
  let* frames := checked (xfer_frames (p_config v) count) in
  rounds fuel (pcm_write_round p data frames).

(** [pcm_read]'s round: its result, [None] when it starts again, and the buffer. *)
Definition pcm_read_round (p : Z) (buf : bytes) (frames : Z) : M S (option Z * bytes) :=
  let* v := the_pcm p in
  let fail msg buf := (let* r := oops_errno p msg in ret (Some r, buf)) in
  let read :=
    (let* '(r, buf') := on_world (snd_readi (p_fd v) buf frames) in
     if r =? 0 then ret (Some 0, buf') else
     put_pcm p (with_running false) ;;;
     let* e := ask snd_errno in
     if e =? EPIPE
     then put_pcm p (fun v => with_underruns (s32 (p_underruns v + 1)) v) ;;; ret (None, buf')
     else fail "cannot read stream data"%string buf') in
  if p_running v then read else
  let* r := on_world (snd_prepare (p_fd v)) in
  if negb (r =? 0) then fail "cannot prepare channel"%string buf else
  let* r := on_world (snd_start (p_fd v)) in
  if negb (r =? 0) then fail "cannot start channel"%string buf else
  put_pcm p (with_running true) ;;; read.

Fixpoint pcm_read_loop (fuel : nat) (p : Z) (buf : bytes) (frames : Z) : M S (Z * bytes) :=
  match fuel with
  | O => blocked
  | Datatypes.S f =>
      let* '(r, buf) := pcm_read_round p buf frames in
      match r with Some r => ret (r, buf) | None => pcm_read_loop f p buf frames end
  end.

Definition pcm_read (fuel : nat) (p : Z) (buf : bytes) (count : Z) : M S (Z * bytes) :=
  let* v := the_pcm p in
  if negb (has_flag (p_flags v) PCM_IN) then ret (- EINVAL, buf) else
  let* frames := checked (xfer_frames (p_config v) count) in
  pcm_read_loop fuel p buf frames.

(** *** Start, stop, state *)

Definition pcm_start (p : Z) : M S Z :=
  let* v := the_pcm p in
  let* r := on_world (snd_prepare (p_fd v)) in
  if r <? 0 then oops_errno p "cannot prepare channel" else
  (if has_flag (p_flags v) PCM_MMAP then pcm_sync_ptr p 0 ;;; ret tt else ret tt) ;;;
  let* r := on_world (snd_start (p_fd v)) in
  if r <? 0 then oops_errno p "cannot start channel" else
  put_pcm p (with_running true) ;;; ret 0.

Definition pcm_stop (p : Z) : M S Z :=
  let* v := the_pcm p in
  let* r := on_world (snd_drop (p_fd v)) in
  if r <? 0 then oops_errno p "cannot stop channel" else
  put_pcm p (with_running false) ;;; ret 0.

Definition get_pcm_state (p : Z) : M S Z :=
  if p =? BAD_PCM then ret 0 else
  let* v := the_pcm p in
  let* '(r, st) := on_world (snd_status (p_fd v)) in
  if r <? 0 then oops_errno p "cannot  pcm_state" else ret st.

Definition pcm_state (p : Z) : M S Z :=
  let* r := pcm_sync_ptr p 0 in
  if r <? 0 then ret r else
  let* v := the_pcm p in
  let* st := mmap_status_of v in ret (st_state st).

Definition pcm_set_avail_min (p n : Z) : M S Z :=
  let* v := the_pcm p in
  if negb (Z.land (Z.lnot (p_flags v)) (Z.lor PCM_MMAP PCM_NOIRQ) =? 0) then ret (- ENOSYS) else
  put_pcm p (fun v => with_config (set_avail_min n (p_config v)) v) ;;; ret 0.

(** *** The ring of frames *)

(** [int avail = ...]: the distance as an [int], brought back over the boundary. *)
Definition playback_avail (hw appl buffer_size boundary : Z) : Z :=
  let avail := s32 (hw + buffer_size - appl) in
  if avail <? 0 then s32 (avail + boundary)
  else if s32 boundary <? avail then s32 (avail - boundary)
  else avail.
Definition capture_avail (hw appl boundary : Z) : Z :=
  let avail := s32 (hw - appl) in
  if avail <? 0 then s32 (avail + boundary) else avail.

Definition pcm_mmap_playback_avail (p : Z) : M S Z :=
  let* v := the_pcm p in
  let* st := mmap_status_of v in
  let* ct := mmap_control_of v in
  ret (playback_avail (st_hw_ptr st) (ct_appl_ptr ct) (p_buffer_size v) (p_boundary v)).
Definition pcm_mmap_capture_avail (p : Z) : M S Z :=
  let* v := the_pcm p in
  let* st := mmap_status_of v in
  let* ct := mmap_control_of v in
  ret (capture_avail (st_hw_ptr st) (ct_appl_ptr ct) (p_boundary v)).

Definition pcm_mmap_avail (p : Z) : M S Z :=
  pcm_sync_ptr p SNDRV_PCM_SYNC_PTR_HWSYNC ;;;
  let* v := the_pcm p in
  if has_flag (p_flags v) PCM_IN then pcm_mmap_capture_avail p else pcm_mmap_playback_avail p.

Definition appl_forward (appl frames boundary : Z) : Z :=
  let a := u32 (appl + frames) in
  if boundary <? a then u32 (a - boundary) else a.

Definition pcm_mmap_appl_forward (p frames : Z) : M S unit :=
  let* v := the_pcm p in
  let* ct := mmap_control_of v in
  put_control p (MmapControl (appl_forward (ct_appl_ptr ct) frames (p_boundary v)) (ct_avail_min ct)).

(** The result is the mapped buffer, the offset and the number of frames. *)
Definition pcm_mmap_begin (p frames : Z) : M S (Z * Z * Z) :=
  let* v := the_pcm p in
  let* ct := mmap_control_of v in
  let* offset := checked (if p_buffer_size v =? 0 then None
                          else Some (ct_appl_ptr ct mod p_buffer_size v)) in
  let* a := pcm_mmap_avail p in
  let avail := u32 a in
  let avail := if p_buffer_size v <? avail then p_buffer_size v else avail in
  let continuous := u32 (p_buffer_size v - offset) in
  let copy_frames := if avail <? frames then avail else frames in
  let copy_frames := if continuous <? copy_frames then continuous else copy_frames in
  ret (p_mmap_buffer v, offset, copy_frames).

Definition pcm_mmap_commit (p offset frames : Z) : M S Z :=
  pcm_mmap_appl_forward p frames ;;; pcm_sync_ptr p 0 ;;; ret frames.

Definition pcm_avail_update (p : Z) : M S Z := pcm_sync_ptr p 0 ;;; pcm_mmap_avail p.

(** [*avail] and [*tstamp] go in and come out. *)
Definition pcm_get_htimestamp (p : Z) (avail : Z) (tstamp : Z * Z) : M S (Z * Z * (Z * Z)) :=
  let* ready := pcm_is_ready p in
  if negb ready then ret (-1, avail, tstamp) else
  let* rc := pcm_sync_ptr p (Z.lor SNDRV_PCM_SYNC_PTR_APPL SNDRV_PCM_SYNC_PTR_HWSYNC) in
  if rc <? 0 then ret (-1, avail, tstamp) else
  let* v := the_pcm p in
  let* st := mmap_status_of v in
  if negb (st_state st =? PCM_STATE_RUNNING) && negb (st_state st =? PCM_STATE_DRAINING)
  then ret (-1, avail, tstamp) else
  let tstamp := st_tstamp st in
  if (fst tstamp =? 0) && (snd tstamp =? 0) then ret (-1, avail, tstamp) else
  let* ct := mmap_control_of v in
  let frames := s32 (if has_flag (p_flags v) PCM_IN then st_hw_ptr st - ct_appl_ptr ct
                     else st_hw_ptr st + p_buffer_size v - ct_appl_ptr ct) in
  let frames := if frames <? 0 then s32 (frames + p_boundary v)
                else if s32 (p_boundary v) <? frames then s32 (frames - p_boundary v)
                else frames in
  ret (0, u32 frames, tstamp).

(** *** Waiting *)

Definition POLLIN : Z := 1.
Definition POLLOUT : Z := 4.
Definition POLLERR : Z := 8.
Definition POLLNVAL : Z := 32.

(** One turn of the [do]: its result, or the events that the [while] tests. *)
Definition pcm_wait_round (p timeout : Z) : M S (Z + Z) :=
  let* v := the_pcm p in
  let* '(err, revents) := on_world (snd_poll (p_fd v) timeout) in
  let* e := ask snd_errno in
  if err <? 0 then ret (inl (- e)) else
  if err =? 0 then ret (inl 0) else
  if e =? - 4 (* -EINTR *) then ret (inr revents) else
  if negb (Z.land revents (Z.lor POLLERR POLLNVAL) =? 0) then
    let* st := get_pcm_state p in
    ret (if st =? PCM_STATE_XRUN then inl (- EPIPE)
         else if st =? PCM_STATE_SUSPENDED then inl (- ESTRPIPE)
         else if st =? PCM_STATE_DISCONNECTED then inl (- ENODEV)
         else inr revents)
  else ret (inr revents).

Fixpoint pcm_wait (fuel : nat) (p timeout : Z) : M S Z :=
  match fuel with
  | O => blocked
  | Datatypes.S f =>
      let* r := pcm_wait_round p timeout in
      match r with
      | inl r => ret r
      | inr revents =>
          if Z.land revents (Z.lor POLLIN POLLOUT) =? 0 then pcm_wait f p timeout else ret 1
      end
  end.

(** *** Opening and closing *)

Definition SIZEOF_pcm : Z := 232.

Definition pcm_path (card device flags : Z) : string :=
  "/dev/snd/pcmC" +:+ pretty card +:+ "D" +:+ pretty device +:+
  (if has_flag flags PCM_IN then "c" else "p").

Definition pcm_close (p : Z) : M S Z :=
  if p =? BAD_PCM then ret 0 else
  pcm_hw_munmap_status p ;;;
  let* v := the_pcm p in
  (if has_flag (p_flags v) PCM_MMAP then
     pcm_stop p ;;;
     step_world (snd_munmap (p_mmap_buffer v) (frames_to_bytes (p_config v) (p_buffer_size v)))
   else ret tt) ;;;
  let* v := the_pcm p in
  (if 0 <=? p_fd v then c_close (p_fd v) else ret tt) ;;;
  c_free p ;;; set_glob (delete p) ;;; ret 0.

(** The parameters [pcm_open] asks for. *)
Definition open_hw_params (config : pcm_config) (flags : Z) : snd_pcm_hw_params :=
  let bits := pcm_format_to_bits (format config) in
  let p := param_set_mask param_init SNDRV_PCM_HW_PARAM_FORMAT (pcm_format_to_alsa (format config)) in
  let p := param_set_mask p SNDRV_PCM_HW_PARAM_SUBFORMAT SNDRV_PCM_SUBFORMAT_STD in
  let p := param_set_min p SNDRV_PCM_HW_PARAM_PERIOD_SIZE (period_size config) in
  let p := param_set_int p SNDRV_PCM_HW_PARAM_SAMPLE_BITS bits in
  let p := param_set_int p SNDRV_PCM_HW_PARAM_FRAME_BITS (u32 (bits * channels config)) in
  let p := param_set_int p SNDRV_PCM_HW_PARAM_CHANNELS (channels config) in
  let p := param_set_int p SNDRV_PCM_HW_PARAM_PERIODS (period_count config) in
  let p := param_set_int p SNDRV_PCM_HW_PARAM_RATE (rate config) in
  let p := if has_flag flags PCM_NOIRQ
           then HwParams (hw_masks p) (hw_intervals p)
                  (Z.lor (hw_flags p) SNDRV_PCM_HW_PARAMS_NO_PERIOD_WAKEUP) else p in
  param_set_mask p 0 (* ACCESS *)
    (if has_flag flags PCM_MMAP then SNDRV_PCM_ACCESS_MMAP_INTERLEAVED
     else SNDRV_PCM_ACCESS_RW_INTERLEAVED).

(** [fail_close] and [fail]. *)
Definition open_fail_close (p fd : Z) : M S unit := c_close fd ;;; put_pcm p (with_fd (-1)).
Definition open_fail (p fd flags : Z) : M S unit :=
  let* v := the_pcm p in
  (if has_flag flags PCM_MMAP
   then step_world (snd_munmap (p_mmap_buffer v) (frames_to_bytes (p_config v) (p_buffer_size v)))
   else ret tt) ;;;
  open_fail_close p fd.

(** The software parameters, from the caller's (refined) [config] and the
    stream's copy [own] of the one it was given. *)
Definition open_sw_params (config own : pcm_config) (flags boundary : Z) : snd_pcm_sw_params * pcm_config :=
  let frames := u32 (period_count config * period_size config) in
  let '(start, own) := if start_threshold config =? 0
                       then (frames / 2, set_start_threshold (frames / 2) own)
                       else (start_threshold config, own) in
  let '(stop, own) := if stop_threshold config =? 0
                      then (frames, set_stop_threshold frames own)
                      else (stop_threshold config, own) in
  let '(amin, own) := if avail_min own =? 0
                      then let a := if has_flag flags PCM_MMAP then period_size own else 1 in
                           (a, set_avail_min a own)
                      else (avail_min config, own) in
  (SwParams SNDRV_PCM_TSTAMP_ENABLE 1 amin (period_size config / 2) start stop
     (silence_threshold config) 0 boundary, own).

(** The second half, on a device whose hardware parameters are set. *)
Definition open_sw (p fd flags : Z) (config : pcm_config) : M S unit :=
  let* v := the_pcm p in
  let '(sw, own) := open_sw_params config (p_config v) flags (p_buffer_size v) in
  put_pcm p (with_config own) ;;;
  let* b := (match grow_boundary 32 (p_buffer_size v) (p_buffer_size v) with
             | Some b => ret b | None => blocked end) in
  put_pcm p (with_boundary b) ;;;
  let* r := on_world (snd_sw_params fd sw) in
  if negb (r =? 0) then oops_errno p "cannot set sw params" ;;; open_fail p fd flags else
  let* rc := pcm_hw_mmap_status p in
  if rc <? 0 then oops p rc (str "mmap status failed") ;;; open_fail p fd flags else
  put_pcm p (with_underruns 0).

(** [if (flags & PCM_MMAP)]: the buffer of the device; [true] when it failed. *)
Definition open_mmap (p fd flags : Z) : M S bool :=
  if has_flag flags PCM_MMAP then
    let* v := the_pcm p in
    let len := frames_to_bytes (p_config v) (p_buffer_size v) in
    let* a := on_world (snd_mmap len fd 0) in
    put_pcm p (with_buffer a) ;;;
    if a =? MAP_FAILED then
      let* e := ask snd_errno in
      oops p (- e) (str ("failed to mmap buffer " +:+ pretty (s32 len) +:+ " bytes" +:+
                         String.String (Ascii.ascii_of_nat 10) "")) ;;;
      open_fail_close p fd ;;; ret true
    else ret false
  else ret false.

(** The driver refined the parameters.  The result is the caller's [config]. *)
Definition open_refined (p fd flags : Z) (config : pcm_config) (params : snd_pcm_hw_params)
  : M S pcm_config :=
  let config := set_period (param_get_int params SNDRV_PCM_HW_PARAM_PERIOD_SIZE)
                           (param_get_int params SNDRV_PCM_HW_PARAM_PERIODS) config in
  put_pcm p (with_size (u32 (period_count config * period_size config))) ;;;
  let* failed := open_mmap p fd flags in
  if failed : bool then ret config else open_sw p fd flags config ;;; ret config.

(** The device is open. *)
Definition open_hw (p fd flags : Z) (config : pcm_config) : M S pcm_config :=
  let* r := on_world (snd_info fd) in
  if negb (r =? 0) then oops_errno p "cannot get info" ;;; open_fail_close p fd ;;; ret config else
  if has_flag flags PCM_NOIRQ && negb (has_flag flags PCM_MMAP) then
    oops p (- EINVAL) (str "noirq only currently supported with mmap().") ;;;
    open_fail p fd flags ;;; ret config else
  (if has_flag flags PCM_NOIRQ then put_pcm p (with_noirq (rate config / 1000)) else ret tt) ;;;
  let* '(r, params) := on_world (snd_hw_params fd (open_hw_params config flags)) in
  if negb (r =? 0) then
    oops_errno p "cannot set hw params" ;;; open_fail_close p fd ;;; ret config else
  open_refined p fd flags config params.

(** The stream and the caller's [config]. *)
Definition pcm_open (card device flags : Z) (config : option pcm_config)
  : M S (Z * option pcm_config) :=
  let* p := c_malloc SIZEOF_pcm in
  match config with
  | None => c_free p ;;; ret (BAD_PCM, None)
  | Some config =>
      if p =? 0 then ret (BAD_PCM, Some config) else
      set_glob (<[p := with_config config pcm_zero]>) ;;;
      let fn := pcm_path card device flags in
      put_pcm p (with_flags flags) ;;;
      let* fd := c_open fn in
      put_pcm p (with_fd fd) ;;;
      if fd <? 0 then
        oops_errno p ("cannot open device '" +:+ fn +:+ "'") ;;; ret (p, Some config)
      else
        let* config := open_hw p fd flags config in ret (p, Some config)
  end.

(** *** The node of a card *)

Definition card_path (i : Z) : string := "/sys/class/sound/card" +:+ pretty i.

(** One turn of the search: [true] when card [i] has the name. *)
Definition node_has_name (i : Z) (name : bytes) : M S bool :=
  let* r := c_access (card_path i) in
  if negb (r =? 0) then ret false else
  let* r := c_access (card_path i +:+ "/id") in
  if negb (r =? 0) then ret false else
  let* fd := c_open (card_path i +:+ "/id") in
  if fd <? 0 then ret false else
  let* '(r, buf) := c_read fd (zeros 32) 0 32 in
  if r <? 0 then c_close fd ;;; ret false else
  let buf := map (fun c => if c =? 0xa then 0 else c) buf in
  let* same := checked (strcmp_eq name buf) in
  c_close fd ;;; ret same.

Fixpoint find_node (n : nat) (i : Z) (name : bytes) : M S Z :=
  match n with
  | O => ret (-1)
  | Datatypes.S n' =>
      let* found := node_has_name i name in
      if found : bool then ret i else find_node n' (i + 1) name
  end.
Definition pcm_get_node_number (name : bytes) : M S Z := find_node 10 0 name.
End Pcm.
