(* ===== verification/PcmRing.v ===== *)
(** * libcodec_audio: the ring of a playback stream

    The driver and the program each keep a counter of frames that wraps at the
    stream's boundary, a power-of-two multiple of the buffer.  The theorems
    compare the two wrapped counters with counters that never wrap. *)

From S2P Require Import Prelude CLib Os Snd Pcm.

(** ** The boundary *)

Lemma grow_boundary_S fuel b bs :
  grow_boundary (S fuel) b bs =
  if u32 (b * 2) <=? u32 (LONG_MAX - bs) then grow_boundary fuel (u32 (b * 2)) bs else Some b.
Proof. reflexivity. Qed.

Lemma grow_boundary_step fuel b bs :
  0 < b -> 0 < bs -> b + bs <= LONG_MAX -> 
  grow_boundary (S fuel) b bs =
  if b * 2 <=? LONG_MAX - bs then grow_boundary fuel (b * 2) bs else Some b.
Proof.
  unfold LONG_MAX. intros. rewrite grow_boundary_S. unfold LONG_MAX.
  rewrite (u32_small (2147483647 - bs)), (u32_small (b * 2)) by lia. done.
Qed.

(** What the loop has found when it stops. *)
Record boundary_of (bs b : Z) : Prop := {
  bo_multiple : exists k, 0 <= k /\ b = bs * 2 ^ k;
  bo_last : LONG_MAX - bs < b * 2;
  bo_fits : b = bs \/ b + bs <= LONG_MAX;
}.

Lemma grow_boundary_run n : forall b bs,
  0 < bs -> (exists k, 0 <= k /\ b = bs * 2 ^ k) -> b + bs <= LONG_MAX ->
  LONG_MAX < b * 2 ^ Z.of_nat n ->
  exists b', grow_boundary n b bs = Some b' /\ boundary_of bs b' /\ b' + bs <= LONG_MAX.
Proof.
  induction n as [|n IH]; intros b bs Hbs (k & Hk & Eb) Hfit Hbig.
  { rewrite Z.pow_0_r, Z.mul_1_r in Hbig. lia. }
  assert (0 < b) by (subst b; apply Z.mul_pos_pos; [lia|apply Z.pow_pos_nonneg; lia]).
  rewrite grow_boundary_step by done. case_test.
  - apply IH; [done| |lia|].
    + exists (k + 1). split; [lia|]. rewrite Z.pow_add_r by lia. lia.
    + rewrite Nat2Z.inj_succ, Z.pow_succ_r in Hbig by lia. lia.
  - exists b. split; [done|]. split; [|done]. split; eauto; lia.
Qed.

(** The loop of [pcm_open] ends within the 32 rounds it is given, for every
    buffer the comparison has a meaning for. *)
Lemma grow_boundary_ends bs :
  0 < bs <= LONG_MAX -> exists b, grow_boundary 32 bs bs = Some b /\ boundary_of bs b.
Proof.
  intros Hbs. destruct (Z.leb_spec (bs + bs) LONG_MAX) as [Hle|Hgt].
  - destruct (grow_boundary_run 32 bs bs) as (b & E & Hb & _);
      [lia|exists 0; rewrite Z.mul_1_r; lia|lia| |eauto].
    change (2 ^ Z.of_nat 32) with 4294967296. unfold LONG_MAX in *. lia.
  - exists bs. split; [|split; [exists 0; rewrite Z.mul_1_r; lia|lia|by left]].
    unfold LONG_MAX in *. rewrite grow_boundary_S. unfold LONG_MAX.
    rewrite (u32_small (2147483647 - bs)) by lia.
    rewrite (u32_small (bs * 2)) by lia. case_test; [lia|done].
Qed.

(** A buffer of no frames: the loop of [pcm_open] never ends. *)
Lemma grow_boundary_zero fuel : grow_boundary fuel 0 0 = None.
Proof. induction fuel as [|f IH]; [done|exact IH]. Qed.

(** ** Wrapped counters *)

(** [a] stands for the counter [n]: the program's pointer may rest on the
    boundary itself, the driver's is always below it. *)
Definition appl_at (b n a : Z) : Prop := 0 <= a <= b /\ exists q, n = a + b * q.
Definition hw_at (b n h : Z) : Prop := 0 <= h < b /\ exists q, n = h + b * q.

(** A ring the code can count: the boundary holds two buffers at least and fits
    the 32-bit counters with one to spare. *)
Definition ring_ok (bs b : Z) : Prop := 0 < bs /\ 2 * bs <= b /\ b + bs <= LONG_MAX.

Lemma hw_at_mod b n : 0 < b -> hw_at b n (n mod b).
Proof.
  intros. split; [apply Z.mod_pos_bound; lia|]. exists (n / b).
  pose proof (Z.div_mod n b). lia.
Qed.

Lemma playback_avail_free bs b H A h a :
  ring_ok bs b -> hw_at b H h -> appl_at b A a -> H <= A < H + bs ->
  playback_avail h a bs b = H + bs - A.
Proof.
  intros (Hbs & H2 & Hfit) [Hh [q ->]] [Ha [r ->]] HF. unfold LONG_MAX in Hfit.
  unfold playback_avail. rewrite (s32_small (h + bs - a)) by lia.
  assert (r - q = -1 \/ r - q = 0 \/ r - q = 1) as Hm by nia.
  assert (b * r = b * q + b * (r - q)) as E by lia. revert E HF.
  destruct Hm as [-> | [-> | ->]]; intros E HF;
    repeat case_test; rewrite ?(s32_small b) in * by lia; rewrite ?s32_small by lia; lia.
Qed.

(** When the buffer is full, the number of free frames comes out as 0 or, across
    the boundary, as the boundary itself. *)
Lemma playback_avail_full bs b H h a :
  ring_ok bs b -> hw_at b H h -> appl_at b (H + bs) a ->
  playback_avail h a bs b = if a <? bs then b else 0.
Proof.
  intros (Hbs & H2 & Hfit) [Hh [q ->]] [Ha [r E]]. unfold LONG_MAX in Hfit.
  unfold playback_avail. rewrite (s32_small (h + bs - a)) by lia.
  assert (r - q = 0 \/ r - q = 1) as Hm by nia.
  assert (b * r = b * q + b * (r - q)) as E' by lia. revert E E'.
  destruct Hm as [-> | ->]; intros E E';
    repeat case_test; rewrite ?(s32_small b) in * by lia; rewrite ?s32_small by lia; lia.
Qed.

Lemma capture_avail_ok b H A h a :
  0 < b <= LONG_MAX -> hw_at b H h -> appl_at b A a -> A <= H < A + b ->
  capture_avail h a b = H - A.
Proof.
  intros Hb [Hh [q ->]] [Ha [r ->]] HF. unfold LONG_MAX in Hb.
  unfold capture_avail. rewrite (s32_small (h - a)) by lia.
  assert (q - r = 0 \/ q - r = 1) as Hm by nia.
  assert (b * q = b * r + b * (q - r)) as E by lia. revert E HF.
  destruct Hm as [-> | ->]; intros E HF;
    repeat case_test; rewrite ?s32_small by lia; lia.
Qed.

(** Committing frames moves the program's pointer with its counter. *)
Lemma appl_forward_ok b A a n :
  0 < b -> appl_at b A a -> 0 <= n <= b -> 2 * b < 4294967296 ->
  appl_at b (A + n) (appl_forward a n b).
Proof.
  intros Hb [Ha [r ->]] Hn H2. unfold appl_forward. rewrite (u32_small (a + n)) by lia.
  case_test; rewrite ?u32_small by lia; (split; [lia|]); [exists (r + 1)|exists r]; lia.
Qed.

(** The offset in the buffer does not depend on the wrapping. *)
Lemma appl_offset bs b A a :
  0 < bs -> (exists k, 0 <= k /\ b = bs * 2 ^ k) -> appl_at b A a -> a mod bs = A mod bs.
Proof.
  intros Hbs (k & Hk & ->) [_ [r ->]].
  replace (a + bs * 2 ^ k * r) with (a + (2 ^ k * r) * bs) by lia. by rewrite Z.mod_add by lia.
Qed.

(** ** A stream on a driver *)

(** What the kernel documents of the pointers of a playback stream: the counter
    of frames played only grows, the pointer it shows is that counter at the
    boundary, frames that were not committed are not played, and a call without
    the APPL flag takes the program's pointer and leaves it. *)
Class PlaybackDev (W : Type) `{SndOps W} := {
  played : Z -> W -> Z;
  dev_boundary : Z;
  sync_ptr_law : forall fd y w,
    Z.land (sy_flags y) SNDRV_PCM_SYNC_PTR_APPL = 0 ->
    exists y' w', snd_sync_ptr fd y w = (0, y', w') /\
      ct_appl_ptr (sy_control y') = ct_appl_ptr (sy_control y) /\
      hw_at dev_boundary (played fd w') (st_hw_ptr (sy_status y')) /\
      played fd w <= played fd w' /\
      (forall committed, appl_at dev_boundary committed (ct_appl_ptr (sy_control y)) ->
        played fd w <= committed -> played fd w' <= committed);
}.

Section Ring.
Context {W : Type} `{OsOps W, SndOps W, !PlaybackDev W}.
Abbreviation S := (mach W (gmap Z pcm)).

(** The stream at [p] plays, keeps its pointers in a [sync_ptr], and has
    committed [A] frames, at most a buffer ahead of the driver. *)
Record streaming (p A : Z) (v : pcm) (y : snd_pcm_sync_ptr) (s : S) : Prop := {
  sm_object : glob s !! p = Some v;
  sm_out : has_flag (p_flags v) PCM_IN = false;
  sm_pages : p_mmap_status v = MmSync /\ p_mmap_control v = MmSync;
  sm_sync : exists adr, p_sync_ptr v = Some (adr, y);
  sm_ring : ring_ok (p_buffer_size v) (p_boundary v);
  sm_multiple : exists k, 0 <= k /\ p_boundary v = p_buffer_size v * 2 ^ k;
  sm_boundary : dev_boundary = p_boundary v;
  sm_appl : appl_at (p_boundary v) A (ct_appl_ptr (sy_control y));
  sm_ahead : played (p_fd v) (world s) <= A <= played (p_fd v) (world s) + p_buffer_size v;
}.

Lemma run_the_pcm {B} (k : pcm -> M S B) p v (s : S) :
  glob s !! p = Some v -> bind (the_pcm p) k s = k v s.
Proof. intros E. unfold the_pcm. mrun. unfold id. rewrite E. by mrun. Qed.
Lemma run_put_pcm {B} (k : unit -> M S B) f p v (s : S) :
  glob s !! p = Some v ->
  bind (put_pcm p f) k s = k tt (Mach (world s) (heap_live s) (fds_live s) (<[p := f v]> (glob s))).
Proof. intros E. unfold put_pcm. mrun. rewrite (run_the_pcm _ _ _ _ E). by mrun. Qed.

(** One call of the driver: the stream is as before, its status is fresh. *)
Lemma run_sync p A v y s fl :
  streaming p A v y s -> Z.land fl SNDRV_PCM_SYNC_PTR_APPL = 0 ->
  exists v' y' s', pcm_sync_ptr p fl s = Done 0 s' /\ streaming p A v' y' s' /\
    hw_at (p_boundary v) (played (p_fd v) (world s')) (st_hw_ptr (sy_status y')) /\
    played (p_fd v) (world s) <= played (p_fd v) (world s') /\
    ct_appl_ptr (sy_control y') = ct_appl_ptr (sy_control y) /\
    (exists z, v' = with_sync z v) /\
    heap_live s' = heap_live s /\ fds_live s' = fds_live s /\ glob s' = <[p := v']> (glob s).
Proof.
  intros [Ho Hout Hp [adr Hs] Hr Hm Hb Ha Hh] Hfl.
  destruct (sync_ptr_law (p_fd v) (SyncPtr fl (sy_status y) (sy_control y)) (world s))
    as (y' & w' & E & Ea & Hhw & Hle & Hcom); [done|]. cbn [sy_control] in Ea.
  specialize (Hcom A). cbn [sy_control] in Hcom. rewrite Hb in Hcom, Hhw.
  exists (with_sync (Some (adr, y')) v), y'. eexists. split_and!.
  - unfold pcm_sync_ptr. mrun. rewrite (run_the_pcm _ _ _ _ Ho). rewrite Hs. mrun.
    erewrite bind_on_world by exact E. mrun. rewrite (run_put_pcm _ _ _ v) by done. mrun.
    reflexivity.
  - split; cbn [p_flags p_fd p_boundary p_buffer_size p_mmap_status p_mmap_control p_sync_ptr
      with_sync world glob heap_live fds_live]; try done.
    + by rewrite lookup_insert_eq.
    + eauto.
    + rewrite Ea. done.
    + specialize (Hcom Ha). lia.
  - done.
  - done.
  - done.
  - eauto.
  - done.
  - done.
  - done.
Qed.

Lemma run_control {B} (k : snd_pcm_mmap_control -> M S B) p A v y s s0 :
  streaming p A v y s0 -> bind (mmap_control_of v) k s = k (sy_control y) s.
Proof. intros [_ _ [_ Hp] [adr Hs] _ _ _ _ _]. unfold mmap_control_of. rewrite Hp, Hs. by mrun. Qed.
Lemma run_status {B} (k : snd_pcm_mmap_status -> M S B) p A v y s s0 :
  streaming p A v y s0 -> bind (mmap_status_of v) k s = k (sy_status y) s.
Proof. intros [_ _ [Hp _] [adr Hs] _ _ _ _ _]. unfold mmap_status_of. rewrite Hp, Hs. by mrun. Qed.

(** [pcm_mmap_begin] offers the frames that are free and contiguous, as many as
    were asked for at most; [free] is what [pcm_mmap_playback_avail] counts. *)
Lemma mmap_begin_run p A v y s frames :
  streaming p A v y s -> 0 <= frames ->
  exists v' y' s', streaming p A v' y' s' /\
    played (p_fd v) (world s) <= played (p_fd v) (world s') /\
    (exists z, v' = with_sync z v) /\ ct_appl_ptr (sy_control y') = ct_appl_ptr (sy_control y) /\
    let off := A mod p_buffer_size v in
    let free := playback_avail (st_hw_ptr (sy_status y')) (ct_appl_ptr (sy_control y))
                  (p_buffer_size v) (p_boundary v) in
    hw_at (p_boundary v) (played (p_fd v) (world s')) (st_hw_ptr (sy_status y')) /\
    (0 <= free -> pcm_mmap_begin p frames s =
      Done (p_mmap_buffer v, off,
            Z.min frames (Z.min (Z.min free (p_buffer_size v)) (p_buffer_size v - off))) s').
Proof.
  intros Hst Hf.
  destruct (run_sync p A v y s SNDRV_PCM_SYNC_PTR_HWSYNC Hst eq_refl)
    as (v' & y' & s' & E & Hst' & Hhw & Hle & Ha & [z Hz] & Hh & Hd & Hg).
  exists v', y', s'. split_and!; [done|done|eauto|done|].
  intros off free. split; [done|]. intros Hfree.
  assert (A mod p_buffer_size v = ct_appl_ptr (sy_control y) mod p_buffer_size v) as Eoff
    by (destruct Hst; destruct sm_ring0; symmetry; eapply appl_offset; eauto).
  destruct (sm_ring _ _ _ _ _ Hst) as (Hbs & H2 & Hfit). unfold LONG_MAX in Hfit.
  pose proof (Z.mod_pos_bound A (p_buffer_size v) Hbs) as Hoff. fold off in Hoff.
  unfold pcm_mmap_begin. rewrite (run_the_pcm _ _ _ _ (sm_object _ _ _ _ _ Hst)).
  rewrite (run_control _ _ _ _ _ _ _ Hst).
  rewrite (proj2 (Z.eqb_neq (p_buffer_size v) 0)) by lia. mrun. rewrite <- Eoff. fold off.
  unfold pcm_mmap_avail. mrun. mstep E. mrun.
  rewrite (run_the_pcm _ _ _ _ (sm_object _ _ _ _ _ Hst')), (sm_out _ _ _ _ _ Hst').
  cbn beta iota. unfold pcm_mmap_playback_avail. mrun.
  rewrite (run_the_pcm _ _ _ _ (sm_object _ _ _ _ _ Hst')).
  mrun. rewrite (run_status _ _ _ _ _ _ _ Hst'). mrun.
  rewrite (run_control _ _ _ _ _ _ _ Hst').
  rewrite Ha, Hz. cbn [with_sync p_buffer_size p_boundary].
  fold free. mrun. unfold ret. f_equal. f_equal.
  assert (free < 4294967296) as Hmax
    by (unfold free, playback_avail; repeat case_test;
        match goal with |- s32 ?z < _ => pose proof (s32_range z); lia end).
  rewrite (u32_small free), (u32_small (p_buffer_size v - off)) by lia.
  destruct (Z.ltb_spec (p_buffer_size v) free);
    (match goal with |- context [?x <? frames] => destruct (Z.ltb_spec x frames) end);
    repeat case_test; lia.
Qed.

(** A commit moves the program's counter by the frames committed. *)
Lemma mmap_commit_run p A v y s off n :
  streaming p A v y s -> 0 <= n ->
  A + n <= played (p_fd v) (world s) + p_buffer_size v ->
  exists v' y' s', pcm_mmap_commit p off n s = Done n s' /\ streaming p (A + n) v' y' s' /\
    (exists z, v' = with_sync z v) /\
    played (p_fd v) (world s) <= played (p_fd v) (world s').
Proof.
  intros Hst Hn Hroom. pose proof Hst as [Ho Hout Hp [adr Hs] Hr Hm Hb Ha Hh].
  destruct Hr as (Hbs & H2 & Hfit) eqn:Er. clear Er. unfold LONG_MAX in Hfit.
  set (y1 := SyncPtr (sy_flags y) (sy_status y)
    (MmapControl (appl_forward (ct_appl_ptr (sy_control y)) n (p_boundary v)) (ct_avail_min (sy_control y)))).
  set (v1 := with_sync (Some (adr, y1)) v).
  set (s1 := Mach (world s) (heap_live s) (fds_live s) (<[p := v1]> (glob s)) : S).
  assert (streaming p (A + n) v1 y1 s1) as Hst1.
  { split; unfold v1; cbn [p_flags p_fd p_boundary p_buffer_size p_mmap_status p_mmap_control
      p_sync_ptr with_sync world glob heap_live fds_live sy_control y1 ct_appl_ptr s1]; try done.
    - by rewrite lookup_insert_eq.
    - eauto.
    - apply appl_forward_ok; [lia|done|lia|lia].
    - lia. }
  destruct (run_sync p (A + n) v1 y1 s1 0 Hst1 eq_refl)
    as (v' & y' & s' & E & Hst' & _ & Hle & _ & [z Hz] & _).
  exists v', y', s'. split_and!; [|done|exists z; by rewrite Hz|exact Hle].
  unfold pcm_mmap_commit, pcm_mmap_appl_forward. mrun. rewrite (run_the_pcm _ _ _ _ Ho). mrun.
  rewrite (run_control _ _ _ _ _ _ _ Hst). unfold put_control. mrun.
  rewrite (run_the_pcm _ _ _ _ Ho). destruct Hp as [_ Hp]. rewrite Hp, Hs. mrun.
  rewrite (run_put_pcm _ _ _ _ _ Ho). mstep E. done.
Qed.
End Ring.
