(* ===== verification/PcmLife.v ===== *)
(** * libcodec_audio: the life of a stream

    A stream that was opened, well or badly, and then closed leaves no descriptor,
    no memory and no mapping behind: on a kernel of any answers, with a ledger of
    what is mapped ([kernel]). *)

From S2P Require Import Prelude CLib Os Snd Pcm PcmRing.

(** ** A kernel with a ledger of its mappings

    The answers are those of any [W]; but [mmap] never hands out an address that is
    mapped, nor NULL.  [munmap] takes a mapping out of the ledger when address and
    length are those it was made with. *)

Record kernel (W : Type) := Kernel { answers : W; maps : gmap Z Z }.
Arguments Kernel {W} answers maps.
Arguments answers {W} k.
Arguments maps {W} k.

Definition fresh (m : gmap Z Z) (a : Z) : Prop := a <> 0 /\ a <> MAP_FAILED /\ m !! a = None.
#[export] Instance fresh_dec m a : Decision (fresh m a).
Proof. unfold fresh. apply _. Defined.
Definition unmap (a len : Z) (m : gmap Z Z) : gmap Z Z :=
  if decide (a <> 0 /\ a <> MAP_FAILED /\ m !! a = Some len) then delete a m else m.

Definition lift {W A} (f : W -> A * W) (k : kernel W) : A * kernel W :=
  let '(a, w) := f (answers k) in (a, Kernel w (maps k)).
Definition lift_step {W} (f : W -> W) (k : kernel W) : kernel W := Kernel (f (answers k)) (maps k).
Lemma maps_lift {W A} (f : W -> A * W) k : maps (lift f k).2 = maps k.
Proof. unfold lift. by destruct (f _). Qed.

#[export] Instance kernel_os {W} `{OsOps W} : OsOps (kernel W) := {
  os_malloc := fun n => lift (os_malloc n);
  os_open := fun path => lift (os_open path);
  os_close := fun fd => lift_step (os_close fd);
  os_lseek := fun fd off => lift (os_lseek fd off);
  os_read := fun fd n => lift (os_read fd n);
  os_write := fun fd b => lift (os_write fd b);
  os_fsync := fun fd => lift_step (os_fsync fd);
  os_ioctl := fun fd req item b => lift (os_ioctl fd req item b);
  os_access := fun path k => os_access path (answers k);
}.
#[export] Instance kernel_snd {W} `{SndOps W} : SndOps (kernel W) := {
  snd_errno := fun k => snd_errno (answers k);
  snd_strerror := snd_strerror;
  snd_page_size := snd_page_size;
  snd_info := fun fd => lift (snd_info fd);
  snd_hw_params := fun fd p => lift (snd_hw_params fd p);
  snd_sw_params := fun fd p => lift (snd_sw_params fd p);
  snd_prepare := fun fd => lift (snd_prepare fd);
  snd_start := fun fd => lift (snd_start fd);
  snd_drop := fun fd => lift (snd_drop fd);
  snd_writei := fun fd b n => lift (snd_writei fd b n);
  snd_readi := fun fd b n => lift (snd_readi fd b n);
  snd_status := fun fd => lift (snd_status fd);
  snd_sync_ptr := fun fd y => lift (snd_sync_ptr fd y);
  snd_mmap := fun len fd off k =>
    let '(a, w) := snd_mmap len fd off (answers k) in
    if decide (fresh (maps k) a) then (a, Kernel w (<[a := len]> (maps k)))
    else (MAP_FAILED, Kernel w (maps k));
  snd_munmap := fun a len k => Kernel (snd_munmap a len (answers k)) (unmap a len (maps k));
  snd_map_status := fun a k => snd_map_status a (answers k);
  snd_map_control := fun a k => snd_map_control a (answers k);
  snd_put_control := fun a c => lift_step (snd_put_control a c);
  snd_poll := fun fd t => lift (snd_poll fd t);
}.

(** ** What a stream holds *)

(** Its [sync_ptr]; the pages of the status and control; the buffer, and its
    length while it is mapped. *)
Record grip := Grip {
  g_sync : option Z;
  g_status : mm_ptr;
  g_control : mm_ptr;
  g_buffer : Z;
  g_len : option Z;
  g_size : Z;              (* the size of the buffer, in frames *)
}.
Definition page (x : mm_ptr) : option Z := match x with MmPage a => Some a | _ => None end.
Definition no_pages (g : grip) : Prop := page (g_status g) = None /\ page (g_control g) = None.

(** Of the stream's own fields. *)
Definition grips (v : pcm) (g : grip) : Prop :=
  fst <$> p_sync_ptr v = g_sync g /\ p_mmap_status v = g_status g /\ p_mmap_control v = g_control g /\
  p_mmap_buffer v = g_buffer g /\ p_buffer_size v = g_size g /\
  (forall l, g_len g = Some l -> frames_to_bytes (p_config v) (p_buffer_size v) = l).

(** [M] is the ledger [m] of the others, with the stream's mappings. *)
Definition put_page (size : Z) (x : mm_ptr) (m : gmap Z Z) : gmap Z Z :=
  match page x with Some a => <[a := size]> m | None => m end.
Definition put_buffer (g : grip) (m : gmap Z Z) : gmap Z Z :=
  match g_len g with Some l => <[g_buffer g := l]> m | None => m end.
Definition fresh_page (m : gmap Z Z) (x : mm_ptr) : Prop := forall a, page x = Some a -> fresh m a.
Record ledger (size : Z) (m : gmap Z Z) (g : grip) (M : gmap Z Z) : Prop := {
  le_maps : M = put_page size (g_control g) (put_page size (g_status g) (put_buffer g m));
  le_status : fresh_page (put_buffer g m) (g_status g);
  le_control : fresh_page (put_page size (g_status g) (put_buffer g m)) (g_control g);
  le_buffer : match g_len g with Some _ => fresh m (g_buffer g) 
              | None => forall l, unmap (g_buffer g) l m = m end;
}.

Lemma fresh_insert m b l a : fresh (<[b := l]> m) a -> fresh m a /\ a <> b.
Proof.
  intros (H0 & Hf & Hm). assert (a <> b) by (intros ->; by rewrite lookup_insert_eq in Hm).
  by rewrite lookup_insert_ne in Hm.
Qed.
Lemma unmap_insert m a l : fresh m a -> unmap a l (<[a := l]> m) = m.
Proof.
  intros (H0 & Hf & Hm). unfold unmap. rewrite decide_True by (by rewrite lookup_insert_eq).
  by apply delete_insert_id.
Qed.
Lemma unmap_none m a l : m !! a = None -> unmap a l m = m.
Proof. intros Hm. unfold unmap. rewrite decide_False; [done|]. rewrite Hm. by intros (_ & _ & ?). Qed.

(** Without pages, giving the buffer back leaves the ledger of the others. *)
Lemma ledger_unmap_buffer size m g M l :
  ledger size m g M -> no_pages g -> (forall l', g_len g = Some l' -> l = l') -> unmap (g_buffer g) l M = m.
Proof.
  intros [-> _ _ Hb] [Es Ec] Hl. unfold put_page. rewrite Es, Ec. unfold put_buffer.
  destruct (g_len g) as [l'|]; [|done]. rewrite (Hl l') by done. by apply unmap_insert.
Qed.
Lemma ledger_buffer_gone size m g :
  no_pages g -> (forall l, unmap (g_buffer g) l m = m) -> g_len g = None -> ledger size m g m.
Proof.
  intros [Es Ec] Hb El. split; unfold put_page, put_buffer, fresh_page; rewrite ?Es, ?Ec, ?El; done.
Qed.
(** Nothing is mapped. *)
Lemma ledger_none size m g M : ledger size m g M -> no_pages g -> g_len g = None -> M = m.
Proof. intros [-> _ _ _] [Es Ec] El. unfold put_page, put_buffer. by rewrite Es, Ec, El. Qed.
(** The pages are given back. *)
Lemma ledger_unmap_pages size m g M y :
  ledger size m g M ->
  ledger size m (Grip y MmNull MmNull (g_buffer g) (g_len g) (g_size g))
    (match page (g_control g) with Some a => unmap a size | None => id end
      (match page (g_status g) with Some a => unmap a size | None => id end M)).
Proof.
  destruct g as [y0 st ct b l z]. intros [-> Hs Hc Hb]. split; try done. unfold put_page, fresh_page in *. cbn in *.
  destruct (page st) as [st'|]; [specialize (Hs st' eq_refl)|];
    (destruct (page ct) as [ct'|]; [specialize (Hc ct' eq_refl)|]); cbn [id]; try done; try by rewrite unmap_insert.
  apply fresh_insert in Hc as [Hc Hn]. rewrite (insert_insert_ne _ ct' st') by done.
  rewrite unmap_insert; [by rewrite unmap_insert|].
  destruct Hs as (? & ? & ?). split_and!; [done..|]. by rewrite lookup_insert_ne.
Qed.
(** A page more, or not. *)
Lemma ledger_map_status size m y ct b l z M a :
  ledger size m (Grip y MmNull MmNull b l z) M -> page ct = None -> fresh M a ->
  ledger size m (Grip y (MmPage a) ct b l z) (<[a := size]> M).
Proof.
  intros [-> _ _ Hb] Ec Hf. split; cbn in *; unfold put_page, fresh_page in *; rewrite ?Ec; cbn in *; try done.
  by intros ? [= <-].
Qed.
Lemma ledger_map_control size m y st b l z M a :
  ledger size m (Grip y st MmNull b l z) M -> fresh M a ->
  ledger size m (Grip y st (MmPage a) b l z) (<[a := size]> M).
Proof.
  intros [-> Hs _ Hb] Hf. split; cbn in *; unfold put_page, fresh_page in *; cbn in *; try done.
  by intros ? [= <-].
Qed.
Lemma ledger_no_page size m y st ct st' ct' b l z M y' :
  ledger size m (Grip y st ct b l z) M -> page st = page st' -> page ct = page ct' ->
  ledger size m (Grip y' st' ct' b l z) M.
Proof.
  intros [-> Hs Hc Hb] Es Ec. split; cbn in *; unfold put_page, fresh_page in *; cbn in *; by rewrite <- ?Es, <- ?Ec.
Qed.
(** The buffer. *)
Lemma ledger_map_buffer size m y st ct b z M a len :
  ledger size m (Grip y st ct b None z) M -> no_pages (Grip y st ct b None z) -> fresh M a ->
  ledger size m (Grip y st ct a (Some len) z) (<[a := len]> M).
Proof.
  intros [-> Hs Hc Hb] [Es Ec] Hf. cbn in *. unfold put_page, fresh_page in *. rewrite Es, Ec in *. cbn in *.
  split; cbn; unfold put_page, fresh_page; rewrite ?Es, ?Ec; cbn; try done.
Qed.
Lemma ledger_no_buffer size m y st ct b z M :
  ledger size m (Grip y st ct b None z) M -> ledger size m (Grip y st ct MAP_FAILED None z) M.
Proof.
  intros [-> Hs Hc Hb]. by split; cbn in *.
Qed.

(** ** What the kernel documents of HW_PARAMS

    On success the period and the number of periods are fixed, and the buffer is
    neither empty nor larger than a [long] (the loop over the boundary needs
    that). *)

Definition size_ok (n : Z) : Prop := 0 < n <= LONG_MAX.
Definition hw_params_refine (W : Type) `{SndOps W} : Prop := forall fd params (w : W) params' w',
  snd_hw_params fd params w = (0, params', w') ->
  size_ok (u32 (param_get_int params' SNDRV_PCM_HW_PARAM_PERIODS *
                param_get_int params' SNDRV_PCM_HW_PARAM_PERIOD_SIZE)).

Section Life.
Context {W : Type} `{OsOps W, SndOps W}.
Abbreviation S := (mach (kernel W) (gmap Z pcm)).

(** What the stream at [p] holds, over [h] blocks and [f] descriptors of others:
    itself, its [sync_ptr] when it has one, its descriptor when it is open; the
    kernel's ledger is [M].  Only a stream with [PCM_MMAP] maps a buffer, and one
    with a [sync_ptr] has no pages. *)
Definition one (b : bool) : Z := if b then 1 else 0.
Record holds (p h f flags fd : Z) (g : grip) (M : gmap Z Z) (s : S) : Prop := {
  ho_object : exists v, glob s !! p = Some v /\ p_fd v = fd /\ p_flags v = flags /\ grips v g;
  ho_heap : heap_live s = h + 1 + one (bool_decide (is_Some (g_sync g)));
  ho_sync : forall a, g_sync g = Some a -> a <> 0 /\ no_pages g;
  ho_mmap : is_Some (g_len g) -> has_flag flags PCM_MMAP = true;
  ho_fds : fds_live s = f + one (0 <=? fd);
  ho_maps : maps (world s) = M;
}.

(** A change of the stream that is none of its possessions. *)
Definition inner (k : pcm -> pcm) : Prop :=
  forall v, p_fd (k v) = p_fd v /\ p_flags (k v) = p_flags v /\ p_sync_ptr (k v) = p_sync_ptr v /\
    p_mmap_status (k v) = p_mmap_status v /\ p_mmap_control (k v) = p_mmap_control v /\
    p_mmap_buffer (k v) = p_mmap_buffer v /\ p_buffer_size (k v) = p_buffer_size v /\
    frames_to_bytes (p_config (k v)) (p_buffer_size (k v)) = frames_to_bytes (p_config v) (p_buffer_size v).

Lemma run_the_holds {B} (k : pcm -> M S B) Q p h f fl fd g M s :
  holds p h f fl fd g M s ->
  (forall v, p_fd v = fd -> p_flags v = fl -> grips v g -> yields (k v) s Q) ->
  yields (bind (the_pcm p) k) s Q.
Proof.
  intros [(v & Ho & Hf & Hl & Hg) _ _ _ _ _] Hk. unfold yields. rewrite (run_the_pcm _ _ _ _ Ho). by apply Hk.
Qed.
Lemma run_the_known {B} (k : pcm -> M S B) Q p v s :
  glob s !! p = Some v -> yields (k v) s Q -> yields (bind (the_pcm p) k) s Q.
Proof. intros Ho. unfold yields. by rewrite (run_the_pcm _ _ _ _ Ho). Qed.

Lemma holds_world p h f fl fd g M (s : S) w :
  holds p h f fl fd g M s -> maps w = maps (world s) ->
  holds p h f fl fd g M (Mach w (heap_live s) (fds_live s) (glob s)).
Proof. intros [] E. split; try done. cbn. congruence. Qed.
Lemma run_world_holds {A B} (o : kernel W -> A * kernel W) (k : A -> M S B) Q p h f fl fd g M s :
  holds p h f fl fd g M s -> (forall w, maps (o w).2 = maps w) ->
  (forall a s', holds p h f fl fd g M s' -> yields (k a) s' Q) ->
  yields (bind (on_world o) k) s Q.
Proof.
  intros Hh Ho Hk. unfold yields, bind, on_world. specialize (Ho (world s)).
  destruct (o (world s)) as [a w]. apply (Hk a). by apply holds_world.
Qed.
Lemma run_step_holds {B} (o : kernel W -> kernel W) (k : unit -> M S B) Q p h f fl fd g M s :
  holds p h f fl fd g M s -> (forall w, maps (o w) = maps w) ->
  (forall s', holds p h f fl fd g M s' -> yields (k tt) s' Q) ->
  yields (bind (step_world o) k) s Q.
Proof. intros Hh Ho Hk. unfold yields. mrun. apply Hk. by apply holds_world. Qed.
Lemma run_ask_holds {A B} (o : kernel W -> A) (k : A -> M S B) s Q :
  yields (k (o (world s))) s Q -> yields (bind (ask o) k) s Q.
Proof. done. Qed.

(** The stream changed, with what it holds. *)
Lemma run_put_known {B} (k : unit -> M S B) Q p h' f' fl' fd' g' h f fl fd g M s u :
  holds p h f fl fd g M s ->
  (forall v, glob s !! p = Some v -> p_fd v = fd -> p_flags v = fl -> grips v g ->
     p_fd (u v) = fd' /\ p_flags (u v) = fl' /\ grips (u v) g') ->
  h + one (bool_decide (is_Some (g_sync g))) = h' + one (bool_decide (is_Some (g_sync g'))) ->
  (forall a, g_sync g' = Some a -> a <> 0 /\ no_pages g') ->
  (is_Some (g_len g') -> has_flag fl' PCM_MMAP = true) ->
  f + one (0 <=? fd) = f' + one (0 <=? fd') ->
  (forall s', holds p h' f' fl' fd' g' M s' -> yields (k tt) s' Q) ->
  yields (bind (put_pcm p u) k) s Q.
Proof.
  intros [(v & Ho & Hf & Hl & Hg) Hheap Hs Hm Hfds HM] Hu Eh Hs' Hm' Ef Hk.
  unfold yields. rewrite (run_put_pcm _ _ _ _ _ Ho). apply Hk. split; cbn [glob heap_live fds_live world].
  - exists (u v). rewrite lookup_insert_eq. by destruct (Hu v Ho Hf Hl Hg) as (-> & -> & ?).
  - lia.
  - done.
  - done.
  - lia.
  - done.
Qed.
Lemma grips_inner v g u : inner u -> grips v g -> grips (u v) g.
Proof.
  intros Hi (E1 & E2 & E3 & E4 & E5 & E6). destruct (Hi v) as (_ & _ & F1 & F2 & F3 & F4 & F5 & F6).
  unfold grips. rewrite F6, F1, F2, F3, F4, F5. by split_and!.
Qed.
Lemma run_put_inner {B} (k : unit -> M S B) Q p h f fl fd g M s u :
  holds p h f fl fd g M s -> inner u ->
  (forall s', holds p h f fl fd g M s' -> yields (k tt) s' Q) ->
  yields (bind (put_pcm p u) k) s Q.
Proof.
  intros Hh Hi Hk. pose proof Hh as [].
  eapply (run_put_known _ _ _ h f fl fd g); [exact Hh|..]; try done.
  intros v _ Hf Hl Hg. destruct (Hi v) as (E1 & E2 & _). rewrite E1, E2. split_and!; try done.
  by apply grips_inner.
Qed.

(** A call that keeps what the stream holds. *)
Definition keeps {A} (p : Z) (m : M S A) : Prop := forall h f fl fd g M s,
  holds p h f fl fd g M s -> yields m s (fun _ s' => holds p h f fl fd g M s').
Lemma run_keeps {A B} (m : M S A) (k : A -> M S B) Q p h f fl fd g M s :
  keeps p m -> holds p h f fl fd g M s ->
  (forall a s', holds p h f fl fd g M s' -> yields (k a) s' Q) ->
  yields (bind m k) s Q.
Proof. intros Hm Hh Hk. eapply yields_bind; [by apply Hm|]. cbn beta. auto. Qed.

(** One step of a call: what the stream holds is followed through it. *)
Ltac lstep :=
  lazymatch goal with
  | |- yields (bind (bind _ _) _) _ _ => apply yields_assoc
  | |- yields (bind (ret _) _) _ _ => apply yields_ret_bind
  | |- yields (ret _) _ _ => apply yields_ret
  | |- yields (bind (ask _) _) _ _ => apply run_ask_holds
  | Hh : holds ?p _ _ _ _ _ _ ?s |- yields (bind (the_pcm ?p) _) ?s _ =>
      eapply run_the_holds; [exact Hh|intros ? ? ? ?]
  | Hh : holds ?p _ _ _ _ _ _ ?s |- yields (bind (put_pcm ?p _) _) ?s _ =>
      eapply run_put_inner; [exact Hh|by intros ?; split_and!|clear Hh; intros ? ?]
  | Hh : holds ?p _ _ _ _ _ _ ?s |- yields (bind (on_world _) _) ?s _ =>
      eapply run_world_holds; [exact Hh|intros ?; apply maps_lift|clear Hh; intros ? ? ?]
  | Hh : holds ?p _ _ _ _ _ _ ?s |- yields (bind (step_world _) _) ?s _ =>
      eapply run_step_holds; [exact Hh|done|clear Hh; intros ? ?]
  | |- yields (bind (if ?b then _ else _) _) _ _ => destruct b eqn:?
  | |- yields (if ?b then _ else _) _ _ => destruct b eqn:?
  | |- yields (let '(_, _) := ?x in _) _ _ => destruct x
  | |- yields (bind (let '(_, _) := ?x in _) _) _ _ => destruct x
  end; cbn beta iota.
(** The last call of a sequence, as a sequence of its own. *)
Lemma yields_last {A} (m : M S A) s Q : yields (bind m ret) s Q -> yields m s Q.
Proof. unfold yields, bind, ret. by destruct (m s). Qed.

Lemma oops_keeps p e msg : keeps p (oops p e msg).
Proof. intros h f fl fd g M s Hh. unfold oops. cbv zeta. do 10 (try lstep); done. Qed.
Lemma run_oops {B} (k : Z -> M S B) Q p h f fl fd g M s e msg :
  holds p h f fl fd g M s ->
  (forall a s', holds p h f fl fd g M s' -> yields (k a) s' Q) ->
  yields (bind (oops p e msg) k) s Q.
Proof. intros Hh Hk. eapply run_keeps; [apply oops_keeps|eassumption|done]. Qed.
Lemma run_oops_errno {B} (k : Z -> M S B) Q p h f fl fd g M s msg :
  holds p h f fl fd g M s ->
  (forall a s', holds p h f fl fd g M s' -> yields (k a) s' Q) ->
  yields (bind (oops_errno p msg) k) s Q.
Proof. intros Hh Hk. unfold oops_errno. do 2 lstep. by eapply run_oops. Qed.

(** *** The steps that change what is held *)

Lemma run_malloc_holds {B} (k : Z -> M S B) Q p h f fl fd g M n s :
  holds p h f fl fd g M s ->
  (forall s', holds p h f fl fd g M s' -> yields (k 0) s' Q) ->
  (forall a s', a <> 0 -> holds p (h + 1) f fl fd g M s' -> yields (k a) s' Q) ->
  yields (bind (c_malloc n) k) s Q.
Proof.
  intros [Ho Hheap Hs Hm Hfds HM] H0' H1'. unfold yields, bind, c_malloc.
  pose proof (maps_lift (os_malloc n) (world s)) as Ew.
  change (os_malloc n (world s)) with (lift (os_malloc n) (world s)).
  destruct (lift (os_malloc n) (world s)) as [a w]. destruct (Z.eqb_spec a 0) as [->|Ha].
  - apply H0'. split; try done. cbn in *. congruence.
  - apply (H1' a); [done|]. split; cbn in *; try done; [lia|congruence].
Qed.
Lemma run_free_holds {B} (k : unit -> M S B) Q p h f fl fd g M a s :
  holds p h f fl fd g M s -> a <> 0 ->
  (forall s', holds p (h - 1) f fl fd g M s' -> yields (k tt) s' Q) ->
  yields (bind (c_free a) k) s Q.
Proof.
  intros [] Ha Hk. unfold yields, bind, c_free.
  rewrite (proj2 (Z.eqb_neq a 0) Ha). apply Hk. split; cbn; try done. lia.
Qed.
Lemma run_close_holds {B} (k : unit -> M S B) Q p h f fl fd g M c s :
  holds p h f fl fd g M s -> 0 <= c ->
  (forall s', holds p h (f - 1) fl fd g M s' -> yields (k tt) s' Q) ->
  yields (bind (c_close c) k) s Q.
Proof.
  intros [] Hc Hk. unfold yields, bind, c_close.
  rewrite (proj2 (Z.ltb_ge c 0) Hc). apply Hk. split; cbn; try done. lia.
Qed.
Lemma run_open_holds {B} (k : Z -> M S B) Q p h f fl fd g M path s :
  holds p h f fl fd g M s ->
  (forall c s', holds p h (f + one (0 <=? c)) fl fd g M s' -> yields (k c) s' Q) ->
  yields (bind (c_open path) k) s Q.
Proof.
  intros [Ho Hheap Hs Hm Hfds HM] Hk. unfold yields, bind, c_open.
  pose proof (maps_lift (os_open path) (world s)) as Ew.
  change (os_open path (world s)) with (lift (os_open path) (world s)).
  destruct (lift (os_open path) (world s)) as [c w]. apply (Hk c).
  split; cbn in *; try done; [|congruence]. rewrite Hfds.
  destruct (Z.ltb_spec c 0), (Z.leb_spec 0 c); cbn [one]; lia.
Qed.
(** A mapping asked for and put into the stream. *)
Lemma run_map {B} (k : Z -> M S B) Q p h f fl fd g g' M s len c off (u : Z -> pcm -> pcm) :
  holds p h f fl fd g M s ->
  (forall a v, glob s !! p = Some v -> p_fd v = fd -> p_flags v = fl -> grips v g ->
    p_fd (u a v) = fd /\ p_flags (u a v) = fl /\ grips (u a v) (g' a)) ->
  (forall a, g_sync (g' a) = None) -> g_sync g = None ->
  (forall a, is_Some (g_len (g' a)) -> has_flag fl PCM_MMAP = true) ->
  (forall s', holds p h f fl fd (g' MAP_FAILED) M s' -> yields (k MAP_FAILED) s' Q) ->
  (forall a s', fresh M a -> holds p h f fl fd (g' a) (<[a := len]> M) s' -> yields (k a) s' Q) ->
  yields (let* a := on_world (snd_mmap len c off) in put_pcm p (u a) ;;; k a) s Q.
Proof.
  intros Hh Hu Hy Hy0 Hm Hno Hyes. pose proof Hh as [Ho Hheap Hs Hmm Hfds HM].
  unfold yields, bind at 1, on_world. cbn [snd_mmap kernel_snd].
  destruct (snd_mmap len c off (answers (world s))) as [a w]. rewrite HM.
  assert (Hh' : forall w' M', maps w' = M' ->
    holds p h f fl fd g M' (Mach w' (heap_live s) (fds_live s) (glob s))) by (intros ?? E; by split).
  assert (Hput : forall a w' M', maps w' = M' ->
    (forall s', holds p h f fl fd (g' a) M' s' -> yields (k a) s' Q) ->
    yields (put_pcm p (u a) ;;; k a) (Mach w' (heap_live s) (fds_live s) (glob s)) Q).
  { intros b w' M' E Hk. eapply (run_put_known _ _ _ h f fl fd (g' b)); [by apply Hh'|..]; try done.
    - intros v Hv. by apply Hu.
    - by rewrite Hy, Hy0.
    - intros ?. by rewrite Hy.
    - apply Hm. }
  destruct (decide (fresh M a)) as [Hf|Hf]; cbn beta iota.
  - apply (Hput a _ (<[a := len]> M)); [done|]. intros s'. by apply Hyes.
  - by apply (Hput MAP_FAILED _ M).
Qed.
(** A mapping given back. *)
Lemma run_unmap {B} (k : unit -> M S B) Q p h f fl fd g M s a len :
  holds p h f fl fd g M s ->
  (forall s', holds p h f fl fd g (unmap a len M) s' -> yields (k tt) s' Q) ->
  yields (bind (step_world (snd_munmap a len)) k) s Q.
Proof.
  intros [] Hk. unfold yields. mrun. apply Hk. split; try done. cbn. congruence.
Qed.

(** *** The calls of [pcm_open] *)

(** Another [sync_ptr] at the same address. *)
Lemma put_sync_keeps p h f fl fd g M s a y :
  holds p h f fl fd g M s -> g_sync g = Some a ->
  yields (put_pcm p (with_sync (Some (a, y)))) s (fun _ s' => holds p h f fl fd g M s').
Proof.
  intros Hh Ea. pose proof Hh as []. apply yields_last.
  eapply (run_put_known _ _ _ h f fl fd g); [exact Hh|..]; try done.
  intros v _ Ef El (E1 & E2 & E3 & E4 & E5 & E6). by split_and!.
Qed.

Lemma sync_ptr_keeps p fl' : keeps p (pcm_sync_ptr p fl').
Proof.
  intros h f fl fd g M s Hh. unfold pcm_sync_ptr.
  eapply run_the_holds; [exact Hh|intros v Ef El Hg].
  destruct (p_sync_ptr v) as [[a z]|] eqn:Ez; [|by lstep].
  pose proof Hg as [Ey _]. rewrite Ez in Ey. cbn in Ey.
  eapply run_world_holds; [exact Hh|intros ?; apply maps_lift|clear Hh; intros [r y'] s' Hh].
  eapply yields_bind; [by eapply put_sync_keeps|]. cbn beta. intros _ s2 H2. by repeat lstep.
Qed.

(** The control has somewhere to be. *)
Definition mm_ok (g : grip) : Prop :=
  match g_control g with MmPage _ => True | MmSync => is_Some (g_sync g) | MmNull => False end.

Lemma put_avail_min_keeps p h f fl fd g M s :
  holds p h f fl fd g M s -> mm_ok g ->
  yields (put_avail_min p) s (fun _ s' => holds p h f fl fd g M s').
Proof.
  intros Hh Hm. unfold put_avail_min.
  eapply run_the_holds; [exact Hh|intros v _ _ (Ey & _ & Ec & _)].
  unfold mmap_control_of, put_control, mm_ok in *. rewrite Ec.
  destruct (g_control g) as [|a|] eqn:Eg; [done| |].
  - lstep. eapply run_the_holds; [exact Hh|intros v2 _ _ (_ & _ & F & _)]. rewrite F, Eg.
    apply yields_last. lstep. done.
  - destruct Hm as [a Ea]. rewrite Ea in Ey. destruct (p_sync_ptr v) as [[a' z]|] eqn:Ez; [|done].
    lstep. eapply run_the_holds; [exact Hh|intros v2 _ _ (Fy & _ & F & _)]. rewrite F, Eg. rewrite Ea in Fy.
    destruct (p_sync_ptr v2) as [[a2 z2]|] eqn:Ez2; [|done]. cbn in Fy. injection Fy as ->.
    by eapply put_sync_keeps.
Qed.

(** The stream holds its mappings beside those of the others, [m]. *)
Definition holds_some (p h f fl fd : Z) (m : gmap Z Z) (P : grip -> Prop) (s : S) : Prop :=
  exists g M, holds p h f fl fd g M s /\ ledger snd_page_size m g M /\ P g.
Definition any_grip (g : grip) : Prop := True.

Lemma hw_sync_pages_run p h f fl fd m M b l z s :
  holds p h f fl fd (Grip None MmNull MmNull b l z) M s ->
  ledger snd_page_size m (Grip None MmNull MmNull b l z) M ->
  yields (hw_sync_pages p) s (fun rc s' => holds_some p h f fl fd m (fun g => rc < 0 -> no_pages g) s').
Proof.
  intros Hh HM. unfold hw_sync_pages. eapply run_malloc_holds; [exact Hh|..].
  - clear Hh. intros s' Hh. change (0 =? 0) with true. cbn beta iota.
    eapply (run_put_known _ _ _ h f fl fd (Grip None MmNull MmNull b l z)); [exact Hh|..]; try done; try by destruct Hh.
    { intros v _ Ef El (E1 & E2 & E3 & E4 & E5 & E6). by split_and!. }
    intros s2 H2. apply yields_ret. by exists (Grip None MmNull MmNull b l z), M.
  - clear Hh. intros a s' Ha Hh. rewrite (proj2 (Z.eqb_neq a 0) Ha).
    eapply (run_put_known _ _ _ h f fl fd (Grip (Some a) MmNull MmNull b l z));
      [exact Hh|..]; try done; try by destruct Hh.
    { intros v _ Ef El (E1 & E2 & E3 & E4 & E5 & E6). by split_and!. }
    { cbn. lia. }
    { by intros ? [= <-]. }
    clear dependent s'. intros s2 H2. set (g2 := Grip (Some a) MmSync MmSync b l z).
    eapply (run_put_known _ _ _ h f fl fd g2); [exact H2|..]; try done; try by destruct H2.
    { intros v _ Ef El (E1 & E2 & E3 & E4 & E5 & E6). by split_and!. }
    intros s3 H3.
    eapply yields_bind; [eapply put_avail_min_keeps; [exact H3|by eexists]|]. cbn beta. intros _ s4 H4.
    eapply run_keeps; [apply sync_ptr_keeps|exact H4|]. intros _ s5 H5.
    apply yields_ret. exists g2, M. split_and!; [done| |lia]. by eapply ledger_no_page.
Qed.

Lemma page_or_null_fresh M a : fresh M a -> page_or_null a = MmPage a.
Proof.
  intros (H0' & Hf & _). unfold page_or_null. by destruct (Z.eqb_spec a MAP_FAILED), (Z.eqb_spec a 0).
Qed.
Lemma hw_mmap_status_run p h f fl fd m M b l z s :
  holds p h f fl fd (Grip None MmNull MmNull b l z) M s ->
  ledger snd_page_size m (Grip None MmNull MmNull b l z) M ->
  yields (pcm_hw_mmap_status p) s (fun rc s' => holds_some p h f fl fd m (fun g => rc < 0 -> no_pages g) s').
Proof.
  intros Hh HM. unfold pcm_hw_mmap_status.
  eapply run_the_holds; [exact Hh|intros v Ef El (Ey & _)].
  destruct (p_sync_ptr v) as [[a y]|]; [done|].
  pose proof (ho_mmap _ _ _ _ _ _ _ _ Hh) as Hmm. cbn in Hmm.
  eapply (run_map _ _ _ _ _ _ _ _ (fun a => Grip None (page_or_null a) MmNull b l z)); [exact Hh|..]; try done.
  { intros a v2 _ F1 F2 (E1 & E2 & E3 & E4 & E5 & E6). by split_and!. }
  { intros s1 H1'. cbn [page_or_null]. by eapply hw_sync_pages_run. }
  clear Hh. intros st s1 Hst Hh.
  rewrite (page_or_null_fresh _ _ Hst) in *. pose proof (ledger_map_status _ m None MmNull b l z M st HM eq_refl Hst) as HM1.
  clear HM. rename HM1 into HM.
  eapply (run_map _ _ _ _ _ _ _ _ (fun a => Grip None (MmPage st) (page_or_null a) b l z)); [exact Hh|..]; try done.
  { intros a v2 _ F1 F2 (E1 & E2 & E3 & E4 & E5 & E6). by split_and!. }
  - clear s1 Hh. intros s1 Hh. cbn [page_or_null]. change ((MAP_FAILED =? MAP_FAILED) || (MAP_FAILED =? 0)) with true.
    cbn iota. eapply run_unmap; [exact Hh|]. clear s1 Hh. intros s1 Hh.
    eapply (run_put_known _ _ _ h f fl fd (Grip None MmNull MmNull b l z)); [exact Hh|..]; try done.
    { intros v2 _ F1 F2 (E1 & E2 & E3 & E4 & E5 & E6). by split_and!. }
    intros s2 H2. eapply hw_sync_pages_run; [exact H2|]. exact (ledger_unmap_pages _ _ _ _ None HM).
  - clear s1 Hh. intros ct s1 Hct Hh.
    rewrite (page_or_null_fresh _ _ Hct) in *. pose proof (ledger_map_control _ m None (MmPage st) b l z _ ct HM Hct) as HM1.
    eapply yields_bind; [by eapply put_avail_min_keeps|]. cbn beta. intros _ s4 H4.
    apply yields_ret. eexists _, _. split_and!; [exact H4|exact HM1|lia].
Qed.

(** *** Opening *)

Lemma open_fail_close_run p h f fl fd g M s :
  holds p h f fl fd g M s -> 0 <= fd ->
  yields (open_fail_close p fd) s (fun _ s' => holds p h f fl (-1) g M s').
Proof.
  intros Hh Hfd. unfold open_fail_close.
  eapply run_close_holds; [exact Hh|done|clear Hh; intros s' Hh]. pose proof Hh as [].
  apply yields_last. eapply (run_put_known _ _ _ h f fl (-1) g); [exact Hh|..]; try done.
  rewrite (proj2 (Z.leb_le 0 fd)) by done. cbn. lia.
Qed.
(** The buffer given back, the descriptor closed; the flags are those of the
    stream. *)
Lemma open_fail_run p h f fl fd g m M s :
  holds p h f fl fd g M s -> ledger snd_page_size m g M -> no_pages g -> 0 <= fd ->
  yields (open_fail p fd fl) s (fun _ s' => holds_some p h f fl (-1) m any_grip s').
Proof.
  intros Hh HM Hn Hfd. unfold open_fail.
  eapply run_the_holds; [exact Hh|intros v Ef El (_ & _ & _ & Eb & _ & El')].
  destruct (has_flag fl PCM_MMAP) eqn:Efl.
  - assert (Eu : unmap (p_mmap_buffer v) (frames_to_bytes (p_config v) (p_buffer_size v)) M = m).
    { rewrite Eb. eapply ledger_unmap_buffer; [exact HM|done|]. intros l' E. by apply El'. }
    eapply run_unmap; [exact Hh|]. rewrite Eu. clear dependent s v. intros s Hh.
    eapply yields_mono; [by eapply open_fail_close_run|]. cbn beta. intros _ s' Hh'.
    set (g' := Grip (g_sync g) (g_status g) (g_control g) (g_buffer g) None (g_size g)).
    exists g', m. split_and!; [|apply ledger_buffer_gone; [done| |done]|done].
    + destruct Hh' as [(v & Ho & F1 & F2 & (E1 & E2 & E3 & E4 & E5 & E6)) ? Hs ? ? ?]. split; try done.
      exists v. by split_and!.
    + intros l. destruct HM as [_ _ _ Hb]. cbn [g_buffer g']. destruct (g_len g); [|apply Hb].
      apply unmap_none. by destruct Hb as (_ & _ & ?).
  - lstep. eapply yields_mono; [by eapply open_fail_close_run|]. cbn beta. intros _ s' Hh'. by exists g, M.
Qed.

(** The stream is open on [fd], or closed; nothing else was kept. *)
Definition opened (p h f fl fd : Z) (m : gmap Z Z) (s : S) : Prop :=
  holds_some p h f fl fd m any_grip s \/ holds_some p h f fl (-1) m any_grip s.

Lemma sw_params_own config own fl b :
  let own' := (open_sw_params config own fl b).2 in
  channels own' = channels own /\ format own' = format own.
Proof. unfold open_sw_params. by repeat case_match; simplify_eq. Qed.

Lemma open_sw_run p h f fl fd b l z m M s config :
  holds p h f fl fd (Grip None MmNull MmNull b l z) M s ->
  ledger snd_page_size m (Grip None MmNull MmNull b l z) M -> 0 <= fd -> size_ok z ->
  yields (open_sw p fd fl config) s (fun _ s' => opened p h f fl fd m s').
Proof.
  intros Hh HM Hfd Hsz. unfold open_sw. set (g := Grip None MmNull MmNull b l z) in *.
  pose proof Hh as [(v & Ho & _ & _ & (_ & _ & _ & _ & Ez & _)) _ _ _ _ _]. apply (run_the_known _ _ _ _ _ Ho).
  pose proof (sw_params_own config (p_config v) fl (p_buffer_size v)) as Hown. cbv zeta in Hown.
  destruct (open_sw_params config (p_config v) fl (p_buffer_size v)) as [sw own]. cbn [snd] in Hown.
  cbn in Ez. rewrite Ez. destruct (grow_boundary_ends _ Hsz) as (bd & -> & _).
  eapply (run_put_known _ _ _ h f fl fd g); [exact Hh|..]; try done; try by destruct Hh.
  { intros v2 Ho2 F1 F2 (E1 & E2 & E3 & E4 & E5 & E6). assert (v2 = v) as -> by congruence.
    split_and!; try done. split_and!; try done. cbn. unfold frames_to_bytes in *. destruct Hown as [-> ->]. exact E6. }
  clear dependent s. intros s Hh. lstep. lstep. lstep. lstep.
  - eapply run_oops_errno; [eassumption|]. intros _ s2 H2.
    eapply yields_mono; [by eapply open_fail_run|]. intros ? s3 H3. by right.
  - eapply yields_bind; [by eapply hw_mmap_status_run|]. cbn beta. intros rc s2 (g2 & M2 & H2 & HM2 & Hn2).
    destruct (Z.ltb_spec rc 0) as [Hrc|_].
    + eapply run_oops; [eassumption|]. intros _ s3 H3.
      eapply yields_mono; [eapply open_fail_run; [exact H3|exact HM2|by apply Hn2|done]|]. intros ? s4 H4. by right.
    + apply yields_last. lstep. lstep. left. by eexists _, _.
Qed.

(** The buffer is mapped, if it is to be. *)
Lemma open_mmap_run p h f fl fd z m s :
  holds p h f fl fd (Grip None MmNull MmNull 0 None z) m s -> 0 <= fd ->
  yields (open_mmap p fd fl) s (fun failed s' =>
    if failed : bool then holds_some p h f fl (-1) m any_grip s'
    else exists b l M, holds p h f fl fd (Grip None MmNull MmNull b l z) M s' /\
      ledger snd_page_size m (Grip None MmNull MmNull b l z) M).
Proof.
  intros Hh Hfd. assert (HM : ledger snd_page_size m (Grip None MmNull MmNull 0 None z) m) by done.
  unfold open_mmap. destruct (has_flag fl PCM_MMAP) eqn:Efl; [|apply yields_ret; by eexists _, _, _].
  pose proof Hh as [(v & Ho & _) _ _ _ _ _]. apply (run_the_known _ _ _ _ _ Ho).
  set (len := frames_to_bytes (p_config v) (p_buffer_size v)).
  eapply (run_map _ _ _ _ _ _ _ _ (fun a => Grip None MmNull MmNull a (if a =? MAP_FAILED then None else Some len) z));
    [exact Hh|..]; try done.
  - intros a v2 Ho2 F1 F2 (E1 & E2 & E3 & E4 & E5 & E6). assert (v2 = v) as -> by congruence.
    split_and!; try done. split_and!; try done. cbn. intros l. by case_test; intros [= <-].
  - clear dependent s. intros s Hh. change (MAP_FAILED =? MAP_FAILED) with true in *. cbn iota in *. do 1 lstep.
    eapply run_oops; [exact Hh|]. clear dependent s. intros _ s Hh.
    eapply yields_bind; [by eapply open_fail_close_run|]. cbn beta. intros _ s5 Hh5. apply yields_ret.
    eexists _, _. split_and!; [exact Hh5|by eapply ledger_no_buffer|done].
  - clear dependent s. intros a s Ha Hh. pose proof Ha as (_ & Hn & _).
    rewrite (proj2 (Z.eqb_neq a MAP_FAILED) Hn) in *. apply yields_ret. eexists _, _, _. split; [exact Hh|].
    by apply (ledger_map_buffer _ _ _ _ _ 0).
Qed.

Lemma open_refined_run p h f fl fd z m s config params :
  size_ok (u32 (param_get_int params SNDRV_PCM_HW_PARAM_PERIODS *
                param_get_int params SNDRV_PCM_HW_PARAM_PERIOD_SIZE)) ->
  holds p h f fl fd (Grip None MmNull MmNull 0 None z) m s -> 0 <= fd ->
  yields (open_refined p fd fl config params) s (fun _ s' => opened p h f fl fd m s').
Proof.
  intros Hsz Hh Hfd. unfold open_refined. cbn [period_count period_size set_period].
  set (size := u32 _) in *.
  eapply (run_put_known _ _ _ h f fl fd (Grip None MmNull MmNull 0 None size)); [exact Hh|..]; try done;
    try by destruct Hh.
  { intros v _ F1 F2 (E1 & E2 & E3 & E4 & E5 & E6). by split_and!. }
  clear dependent s. intros s Hh. eapply yields_bind; [by eapply open_mmap_run|]. cbn beta.
  intros [] s2 H2; cbn iota.
  - apply yields_ret. by right.
  - destruct H2 as (b & l & M & H2 & HM). eapply yields_bind; [by eapply open_sw_run|]. cbn beta.
    intros _ s3 H3. by apply yields_ret.
Qed.

Lemma yields_hw_params {B} (k : Z * snd_pcm_hw_params -> M S B) Q p h f fl fd g M s c params :
  hw_params_refine W -> holds p h f fl fd g M s ->
  (forall r params' s', holds p h f fl fd g M s' ->
    (r = 0 -> size_ok (u32 (param_get_int params' SNDRV_PCM_HW_PARAM_PERIODS *
                  param_get_int params' SNDRV_PCM_HW_PARAM_PERIOD_SIZE))) ->
    yields (k (r, params')) s' Q) ->
  yields (bind (on_world (snd_hw_params c params)) k) s Q.
Proof.
  intros Hlaw Hh Hk. pose proof (maps_lift (snd_hw_params c params) (world s)) as Em.
  unfold yields, bind, on_world. cbn [snd_hw_params kernel_snd]. unfold lift in *.
  destruct (snd_hw_params c params (answers (world s))) as [[r params'] w] eqn:E.
  apply (Hk r params'); [by apply holds_world|]. intros ->. by eapply Hlaw.
Qed.
Lemma open_hw_run p h f fl fd m (s : S) config :
  hw_params_refine W -> holds p h f fl fd (Grip None MmNull MmNull 0 None 0) m s -> 0 <= fd ->
  yields (open_hw p fd fl config) s (fun _ s' => opened p h f fl fd m s').
Proof.
  intros Hlaw Hh Hfd. unfold open_hw. set (g := Grip None MmNull MmNull 0 None 0) in *.
  assert (HM : ledger snd_page_size m g m) by done.
  assert (Hc : forall s', holds p h f fl fd g m s' ->
    yields (open_fail_close p fd ;;; ret config) s' (fun _ s' => opened p h f fl fd m s')).
  { intros s' Hs'. eapply yields_bind; [by eapply open_fail_close_run|]. intros ? s3 H3. apply yields_ret.
    right. by exists g, m. }
  lstep. lstep; [eapply run_oops_errno; [eassumption|]; intros ? ? ?; by apply Hc|].
  lstep.
  { eapply run_oops; [eassumption|]. intros ? s2 H2.
    eapply yields_bind; [by eapply open_fail_run|]. intros ? s3 H3. by right. }
  apply yields_bind with (P := fun _ s' => holds p h f fl fd g m s').
  { lstep; apply yields_last; repeat lstep; done. }
  cbn beta. clear dependent s. intros _ s Hh.
  eapply yields_hw_params; [exact Hlaw|exact Hh|]. clear dependent s. intros r params s Hh Hsz.
  destruct (Z.eqb_spec r 0) as [->|Hr]; cbn [negb].
  - eapply open_refined_run; [by apply Hsz|exact Hh|done].
  - eapply run_oops_errno; [exact Hh|]. intros ? ? ?. by apply Hc.
Qed.

(** *** Closing *)

Lemma munmap_status_run p h f fl fd g m M (s : S) :
  holds p h f fl fd g M s -> ledger snd_page_size m g M ->
  yields (pcm_hw_munmap_status p) s (fun _ s' => exists M',
    holds p h f fl fd (Grip None MmNull MmNull (g_buffer g) (g_len g) (g_size g)) M' s' /\
    ledger snd_page_size m (Grip None MmNull MmNull (g_buffer g) (g_len g) (g_size g)) M').
Proof.
  intros Hh HM. unfold pcm_hw_munmap_status. eapply run_the_holds; [exact Hh|intros v F1 F2 (E1 & E2 & E3 & _)].
  pose proof (ledger_unmap_pages _ _ _ _ None HM) as HM'.
  set (M' := match page (g_control g) with Some a => unmap a snd_page_size | None => id end
    (match page (g_status g) with Some a => unmap a snd_page_size | None => id end M)) in *.
  set (g' := Grip None (g_status g) (g_control g) (g_buffer g) (g_len g) (g_size g)).
  eapply yields_bind with (P := fun _ s' => holds p h f fl fd g' M' s').
  - pose proof Hh as [_ _ Hs Hm _ _]. destruct (p_sync_ptr v) as [[a z]|]; cbn in E1.
    + destruct (Hs a (eq_sym E1)) as [Ha [Ns Nc]].
      assert (M' = M) as -> by (unfold M'; by rewrite Ns, Nc).
      eapply run_free_holds; [exact Hh|done|]. clear dependent s. intros s Hh. apply yields_last.
      eapply (run_put_known _ _ _ h f fl fd g'); [exact Hh|..]; try done.
      { intros v2 _ G1 G2 (D1 & D2 & D3 & D4 & D5 & D6). by split_and!. }
      { rewrite bool_decide_true by (rewrite <- E1; eauto). cbn. lia. }
    + assert (Eg : g = g') by (unfold g'; destruct g; cbn in *; by subst). rewrite <- Eg.
      unfold munmap_page, M' in *. rewrite E2, E3.
      assert (Hc : forall M1 s1, holds p h f fl fd g M1 s1 ->
        yields (match g_control g with MmPage a => step_world (snd_munmap a snd_page_size) | _ => ret tt end) s1
          (fun _ s' => holds p h f fl fd g
             (match page (g_control g) with Some a => unmap a snd_page_size | None => id end M1) s')).
      { intros M1 s1 H1'. destruct (g_control g); cbn [page]; try by apply yields_ret.
        apply yields_last. by eapply run_unmap. }
      destruct (g_status g); cbn [page id]; try (apply yields_ret_bind; by apply Hc).
      eapply run_unmap; [exact Hh|]. intros s1. apply Hc.
  - cbn beta. clear dependent s v. intros _ s Hh. apply yields_last. pose proof Hh as [_ _ _ Hm _ _].
    eapply (run_put_known _ _ _ h f fl fd (Grip None MmNull MmNull (g_buffer g) (g_len g) (g_size g)));
      [exact Hh|..]; try done.
    + intros v _ G1 G2 (D1 & D2 & D3 & D4 & D5 & D6). by split_and!.
    + intros s' Hs'. apply yields_ret. eauto.
Qed.

Lemma stop_keeps p : keeps p (pcm_stop p).
Proof.
  intros h f fl fd g M s Hh. unfold pcm_stop. do 3 lstep.
  - apply yields_last. eapply run_oops_errno; [eassumption|]. done.
  - by repeat lstep.
Qed.

Lemma pcm_close_run p h f fl fd m (s : S) :
  holds_some p h f fl fd m any_grip s -> p <> BAD_PCM -> p <> 0 ->
  yields (pcm_close p) s (fun r s' => r = 0 /\ heap_live s' = h /\ fds_live s' = f /\ maps (world s') = m).
Proof.
  intros (g0 & M & Hh & HM & _) Hbad Hp. unfold pcm_close. rewrite (proj2 (Z.eqb_neq p BAD_PCM) Hbad).
  eapply yields_bind; [by eapply munmap_status_run|]. cbn beta. clear dependent s M. intros _ s (M & Hh & HM).
  set (g := Grip _ _ _ _ _ _) in *.
  eapply run_the_holds; [exact Hh|intros v E1 E2 (_ & _ & _ & Eb & _ & El)].
  apply yields_bind with (P := fun _ s' => holds p h f fl fd g m s').
  { rewrite E2. destruct (has_flag fl PCM_MMAP) eqn:Efl.
    - eapply run_keeps; [apply stop_keeps|exact Hh|]. intros ? s1 Hh1. apply yields_last.
      eapply run_unmap; [exact Hh1|]. intros s2 Hh2. apply yields_ret.
      by rewrite Eb, (ledger_unmap_buffer _ _ _ _ _ HM) in Hh2 by (done || intros l' E; by apply El).
    - apply yields_ret. assert (g_len g = None).
      { pose proof Hh as [_ _ _ Hm _ _]. destruct (g_len g); [|done]. rewrite Hm in Efl by eauto. done. }
      by rewrite (ledger_none _ _ _ _ HM) in Hh. }
  cbn beta. clear dependent s v. intros _ s Hh.
  eapply run_the_holds; [exact Hh|intros v E1 E2 _]. rewrite E1.
  apply yields_bind with (P := fun _ s' => heap_live s' = h + 1 /\ fds_live s' = f /\ maps (world s') = m).
  { pose proof Hh as [_ Hheap _ _ Hfds Hmaps]. cbn in Hheap. unfold one in Hfds.
    destruct (Z.leb_spec 0 fd).
    - unfold yields, c_close. cbn [heap_live fds_live world]. split_and!; [lia|case_test; lia|done].
    - unfold yields, ret. split_and!; [lia..|done]. }
  cbn beta. intros _ s1 (Eh & Ef & Em). unfold yields, bind, c_free, set_glob, ret.
  rewrite (proj2 (Z.eqb_neq p 0) Hp). cbn [heap_live fds_live world]. split_and!; [done|lia|lia|done].
Qed.

(** *** The whole life *)

Lemma pcm_open_run card device flags config (s : S) :
  hw_params_refine W -> (forall n (w : W), 0 <= fst (os_malloc n w)) ->
  yields (pcm_open card device flags config) s (fun r s' =>
    let p := fst r in
    if p =? BAD_PCM then heap_live s' = heap_live s /\ fds_live s' = fds_live s /\ maps (world s') = maps (world s)
    else p <> 0 /\ exists fd, holds_some p (heap_live s) (fds_live s) flags fd (maps (world s)) any_grip s').
Proof.
  intros Hlaw Hmalloc. unfold pcm_open. apply yields_malloc. intros p k E.
  specialize (Hmalloc SIZEOF_pcm (answers (world s))). pose proof (maps_lift (os_malloc SIZEOF_pcm) (world s)) as Em.
  cbn [os_malloc kernel_os] in E. rewrite E in Em. unfold lift in E. cbn in Em.
  destruct (os_malloc SIZEOF_pcm (answers (world s))) as [p0 w]. injection E as -> <-. cbn [fst] in Hmalloc.
  destruct config as [config|].
  - destruct (Z.eqb_spec p 0) as [->|Hp]; [done|]. apply yields_set_glob.
    cbn [world heap_live fds_live glob].
    set (s1 := Mach _ _ _ _). set (g := Grip None MmNull MmNull 0 None 0).
    assert (holds p (heap_live s) (fds_live s - 1) 0 0 g (maps (world s)) s1) as Hh.
    { split; cbn [glob heap_live fds_live world s1]; try done.
      - exists (with_config config pcm_zero). by rewrite lookup_insert_eq.
      - rewrite bool_decide_false by (by intros [? ?]). cbn. lia.
      - by intros [].
      - change (one (0 <=? 0)) with 1. lia. }
    clearbody s1. apply yields_mono with (P := fun r s' => fst r = p /\ exists fd,
      holds_some p (heap_live s) (fds_live s) flags fd (maps (world s)) any_grip s').
    2:{ intros [p' c'] s' [Ep Hs]. cbn [fst] in *. subst p'. cbv zeta.
        rewrite (proj2 (Z.eqb_neq p BAD_PCM)) by (unfold BAD_PCM; lia). done. }
    eapply (run_put_known _ _ _ (heap_live s) (fds_live s - 1) flags 0 g);
      [exact Hh|try done..]; [by intros []|]. clear Hh. intros s2 Hh.
    eapply run_open_holds; [exact Hh|]. clear Hh. intros fd s3 Hh.
    eapply (run_put_known _ _ _ (heap_live s) (fds_live s) flags fd g);
      [exact Hh|done|done|done|by intros []|change (one (0 <=? 0)) with 1; lia|]. clear Hh. intros s4 Hh.
    destruct (Z.ltb_spec fd 0).
    + eapply run_oops_errno; [exact Hh|]. intros ? s5 Hh5. apply yields_ret.
      split; [done|]. by exists fd, g, (maps (world s)).
    + eapply yields_bind; [by eapply open_hw_run|]. cbn beta. intros c' s5 Hop.
      apply yields_ret. split; [done|]. destruct Hop; eauto.
  - unfold yields, bind, c_free, ret. cbn [fst heap_live fds_live world maps].
    destruct (Z.eqb_spec p 0); change (BAD_PCM =? BAD_PCM) with true; cbn iota; split_and!; lia || done.
Qed.
End Life.
