(* ===== verification/SndSim.v ===== *)
(** * A sound device to run the audio code on

    A concrete kernel: memory, files by name, and a PCM device that plays one
    committed frame at each synchronisation and answers transfers from a script.
    It has the laws the theorems assume; it models no code of the repository. *)

From S2P Require Import Prelude CLib Os Snd Pcm PcmRing PcmLife.

Record snd_world := SndWorld {
  sw_next : Z;                 (* the next free address *)
  sw_played : Z;               (* frames played *)
  sw_rate : Z;                 (* is a frame played at a synchronisation? *)
  sw_script : list Z;          (* the answers of the next transfers *)
  sw_default : Z;              (* and of those after them *)
  sw_errno : Z;
  sw_files : list (string * bytes);
}.

Definition sim_boundary : Z := 8.

Definition sim_pop (w : snd_world) : Z * snd_world :=
  match sw_script w with
  | [] => (sw_default w, w)
  | r :: l => (r, SndWorld (sw_next w) (sw_played w) (sw_rate w) l (sw_default w) (sw_errno w) (sw_files w))
  end.
Definition sim_malloc (w : snd_world) : Z * snd_world :=
  (Z.max 1 (sw_next w),
   SndWorld (Z.max 1 (sw_next w) + 1) (sw_played w) (sw_rate w) (sw_script w) (sw_default w)
     (sw_errno w) (sw_files w)).

(** The descriptor of the [n]-th file is [n + 3]. *)
Fixpoint sim_find (path : string) (l : list (string * bytes)) (n : Z) : Z :=
  match l with
  | [] => -1
  | (p, _) :: l => if String.eqb p path then n + 3 else sim_find path l (n + 1)
  end.
Definition sim_data (w : snd_world) (fd : Z) : bytes :=
  match sw_files w !! Z.to_nat (fd - 3) with Some (_, b) => b | None => [] end.

#[export] Instance snd_os : OsOps snd_world := {
  os_malloc := fun _ w => sim_malloc w;
  os_open := fun path w => (sim_find path (sw_files w) 0, w);
  os_close := fun _ w => w;
  os_lseek := fun _ off w => (off, w);
  os_read := fun fd n w => let b := take (Z.to_nat n) (sim_data w fd) in (lenZ b, b, w);
  os_write := fun _ b w => (lenZ b, w);
  os_fsync := fun _ w => w;
  os_ioctl := fun _ _ _ b w => (0, b, w);
  os_access := fun path w => if sim_find path (sw_files w) 0 =? -1 then -1 else 0;
}.

(** HW_PARAMS fixes every interval at its lower bound. *)
Definition sim_refine (p : snd_pcm_hw_params) : snd_pcm_hw_params :=
  HwParams (hw_masks p) (map (fun i => Interval (i_min i) (i_min i) 1) (hw_intervals p)) (hw_flags p).
Definition sim_size (p : snd_pcm_hw_params) : Z :=
  u32 (param_get_int p SNDRV_PCM_HW_PARAM_PERIODS * param_get_int p SNDRV_PCM_HW_PARAM_PERIOD_SIZE).

(** One frame is played when one is committed. *)
Definition sim_play (appl : Z) (w : snd_world) : snd_world :=
  SndWorld (sw_next w)
    (sw_played w + (if (sw_rate w =? 0) || ((appl - sw_played w) mod sim_boundary =? 0) then 0 else 1))
    (sw_rate w) (sw_script w) (sw_default w) (sw_errno w) (sw_files w).

#[export] Instance snd_ops : SndOps snd_world := {
  snd_errno := sw_errno;
  snd_strerror := fun _ => str "error";
  snd_page_size := 4096;
  snd_info := fun _ w => (0, w);
  snd_hw_params := fun _ p w =>
    let p := sim_refine p in
    if (0 <? sim_size p) && (sim_size p <=? LONG_MAX) then (0, p, w) else (-22, p, w);
  snd_sw_params := fun _ _ w => (0, w);
  snd_prepare := fun _ w => (0, w);
  snd_start := fun _ w => (0, w);
  snd_drop := fun _ w => (0, w);
  snd_writei := fun _ _ _ w => sim_pop w;
  snd_readi := fun _ b _ w => let '(r, w) := sim_pop w in (r, b, w);
  snd_status := fun _ w => (0, PCM_STATE_RUNNING, w);
  snd_sync_ptr := fun _ y w =>
    let w := sim_play (ct_appl_ptr (sy_control y)) w in
    (0, SyncPtr (sy_flags y)
          (MmapStatus PCM_STATE_RUNNING (sw_played w mod sim_boundary) (1, 0)) (sy_control y), w);
  snd_mmap := fun _ _ _ w => (MAP_FAILED, w);
  snd_munmap := fun _ _ w => w;
  snd_map_status := fun _ _ => MmapStatus 0 0 (0, 0);
  snd_map_control := fun _ _ => MmapControl 0 0;
  snd_put_control := fun _ _ w => w;
  snd_poll := fun _ _ w => (1, POLLOUT, w);
}.

#[export] Program Instance snd_playback : PlaybackDev snd_world := {
  played := fun _ w => sw_played w;
  dev_boundary := sim_boundary;
}.
Next Obligation.
  intros fd y w _. eexists _, _. split_and!; [reflexivity|done| | |]; cbn [sy_status st_hw_ptr].
  - by apply hw_at_mod.
  - cbn [sw_played sim_play]. case_test; lia.
  - intros c [Ha [q ->]] Hle. cbn [sw_played sim_play].
    destruct (sw_rate w =? 0); cbn [orb]; [lia|].
    destruct (Z.eqb_spec ((ct_appl_ptr (sy_control y) - sw_played w) mod sim_boundary) 0) as [E|E]; [lia|].
    assert (ct_appl_ptr (sy_control y) + sim_boundary * q <> sw_played w); [|lia].
    intros Eq. apply E. rewrite <- Eq.
    replace (_ - _) with ((- q) * sim_boundary) by lia. by apply Z.mod_mul.
Qed.

Lemma sim_hw_params_refine : hw_params_refine snd_world.
Proof.
  intros fd p w p' w' E. cbn [snd_hw_params snd_ops] in E. cbv zeta in E.
  destruct (_ && _) eqn:Eb; [|done]. injection E as <- _. bool_to_prop.
  unfold size_ok. fold (sim_size (sim_refine p)). lia.
Qed.
Lemma sim_malloc_nonneg n (w : snd_world) : 0 <= fst (os_malloc n w).
Proof. cbn. lia. Qed.

Definition snd_start_world : snd_world := SndWorld 100 0 1 [] 0 0 [("/dev/snd/pcmC0D0p"%string, [])].
