(* ===== verification/PcmTheorems.v ===== *)
(** * libcodec_audio: properties of PCM streams

    The ring of a playback stream, the loops of [pcm.c] and the life of a
    stream, whatever the kernel answers. *)

From S2P Require Import Prelude CLib Os Snd Pcm PcmRing PcmLife SndSim.

Section Theorems.
Context {W : Type} `{OsOps W, SndOps W}.
Abbreviation S := (mach W (gmap Z pcm)).

(** ** The ring *)

(** C30: One round of a program that writes into the mapped buffer of a playback
    stream whose pointers are in a [sync_ptr], not in mapped pages, on a driver
    whose SYNC_PTR call succeeds. From a stream that has committed [A] frames,
    [pcm_mmap_begin] returns the buffer, the offset of frame [A] and a number of
    frames, and the driver has then played [H] frames. When the ring is not full
    the number is the least of the frames asked for, the frames free and the
    frames up to the end of the buffer, so that no frame that is still to be
    played is offered and no offset leaves the buffer; committing them leaves a
    stream that has committed that many more and is still at most a buffer ahead
    of the driver, across the wrap of both pointers at the boundary. *)
Theorem mmap_round_sound `{!PlaybackDev W} p A v y (s : S) frames :
  streaming p A v y s -> 0 <= frames ->
  exists Hp v1 y1 s1,
    streaming p A v1 y1 s1 /\ Hp = played (p_fd v1) (world s1) /\
    let off := A mod p_buffer_size v in
    let n := Z.min frames (Z.min (Hp + p_buffer_size v - A) (p_buffer_size v - off)) in
    (A < Hp + p_buffer_size v ->
       pcm_mmap_begin p frames s = Done (p_mmap_buffer v, off, n) s1 /\
       0 <= n /\ off + n <= p_buffer_size v /\
       exists v2 y2 s2, pcm_mmap_commit p off n s1 = Done n s2 /\ streaming p (A + n) v2 y2 s2).
Proof.
  intros Hst Hf.
  destruct (mmap_begin_run p A v y s frames Hst Hf)
    as (v1 & y1 & s1 & Hst1 & Hle & [z Hz] & Hap & Hhw & Hrun).
  exists (played (p_fd v1) (world s1)), v1, y1, s1. split_and!; [done|done|].
  intros off n Hroom.
  pose proof (sm_ring _ _ _ _ _ Hst) as Hr. destruct Hr as (Hbs & H2 & Hfit).
  pose proof (Z.mod_pos_bound A _ Hbs) as Hoff. fold off in Hoff.
  pose proof (sm_ahead _ _ _ _ _ Hst1) as Hah.
  assert (p_fd v1 = p_fd v /\ p_buffer_size v1 = p_buffer_size v) as [Efd Esz] by (by rewrite Hz).
  rewrite Efd in *. rewrite Esz in Hah.
  assert (playback_avail (st_hw_ptr (sy_status y1)) (ct_appl_ptr (sy_control y)) (p_buffer_size v)
            (p_boundary v) = played (p_fd v) (world s1) + p_buffer_size v - A) as Efree.
  { eapply playback_avail_free; [done|exact Hhw|by destruct Hst|lia]. }
  rewrite Efree in Hrun. specialize (Hrun ltac:(lia)).
  rewrite Z.min_l with (m := p_buffer_size v) in Hrun by lia. fold off in Hrun.
  assert (n = Z.min frames (Z.min (played (p_fd v) (world s1) + p_buffer_size v - A)
            (p_buffer_size v - off))) as En by (unfold n; by rewrite Efd).
  rewrite <- En in Hrun. clearbody n.
  assert (0 <= n /\ off + n <= p_buffer_size v /\
          A + n <= played (p_fd v) (world s1) + p_buffer_size v) as (Hn & Hend & Hnew) by lia.
  split_and!; [exact Hrun|done|done|].
  destruct (mmap_commit_run p A v1 y1 s1 off n Hst1) as (v2 & y2 & s2 & E & Hst2 & _);
    [done|by rewrite Efd, Esz|]. eauto.
Qed.

(** The full ring, once its wrapped pointers have crossed the boundary.  The
    test [avail > boundary] of [pcm_mmap_playback_avail] misses the distance
    that is the boundary itself: with no frame free, [pcm_mmap_begin] offers the
    program the frames up to the end of the buffer, all of them still to be
    played. *)
Theorem mmap_full_offers_frames `{!PlaybackDev W} p A v y (s : S) frames :
  streaming p A v y s -> 0 <= frames -> ct_appl_ptr (sy_control y) < p_buffer_size v ->
  exists v1 y1 s1, streaming p A v1 y1 s1 /\
    (A = played (p_fd v) (world s1) + p_buffer_size v ->
     pcm_mmap_begin p frames s =
       Done (p_mmap_buffer v, A mod p_buffer_size v,
             Z.min frames (p_buffer_size v - A mod p_buffer_size v)) s1).
Proof.
  intros Hst Hf Hlow.
  destruct (mmap_begin_run p A v y s frames Hst Hf)
    as (v1 & y1 & s1 & Hst1 & Hle & [z Hz] & Hap & Hhw & Hrun).
  exists v1, y1, s1. split; [done|]. intros Hfull.
  pose proof (sm_ring _ _ _ _ _ Hst) as Hr. pose proof Hr as (Hbs & H2 & Hfit).
  pose proof (Z.mod_pos_bound A _ Hbs) as Hoff.
  assert (playback_avail (st_hw_ptr (sy_status y1)) (ct_appl_ptr (sy_control y)) (p_buffer_size v)
            (p_boundary v) = p_boundary v) as Efree.
  { erewrite playback_avail_full; [|done|exact Hhw|rewrite <- Hfull; by destruct Hst].
    by rewrite (proj2 (Z.ltb_lt _ _) Hlow). }
  rewrite Efree in Hrun. rewrite Hrun by lia. f_equal. f_equal. lia.
Qed.

(** ** The loops *)

(** C32: The loop of [pcm_open] that doubles the boundary ends within the 32
    rounds of the model for every buffer of 1 to LONG_MAX frames; what it leaves
    is the buffer times a power of two, the last one that still fits.  For a
    buffer of no frames it never ends. *)
Theorem boundary_loop_ends bs :
  (0 < bs <= LONG_MAX ->
   exists k, 0 <= k /\ grow_boundary 32 bs bs = Some (bs * 2 ^ k) /\
     LONG_MAX - bs < bs * 2 ^ k * 2 /\ (k = 0 \/ bs * 2 ^ k + bs <= LONG_MAX)) /\
  forall fuel, grow_boundary fuel 0 0 = None.
Proof.
  split; [|apply grow_boundary_zero]. intros Hbs.
  destruct (grow_boundary_ends bs Hbs) as (b & E & [(k & Hk & ->) Hlast Hfit]).
  exists k. split_and!; [done|done|done|]. destruct Hfit as [Hfit|Hfit]; [|by right].
  left. assert (2 ^ k = 1) as E1 by nia. destruct (Z.eq_dec k 0); [done|].
  assert (2 ^ 1 <= 2 ^ k) by (apply Z.pow_le_mono_r; lia). lia.
Qed.

Lemma put_pcm_Done p g v (s : S) :
  glob s !! p = Some v ->
  put_pcm p g s = Done tt (Mach (world s) (heap_live s) (fds_live s) (<[p := g v]> (glob s))).
Proof. intros E. rewrite <- (bind_ret_r (put_pcm p g)). by rewrite (run_put_pcm _ _ _ _ _ E). Qed.

(** [oops] returns -1 and changes the message only. *)
Lemma oops_run p e msg v (s : S) :
  glob s !! p = Some v ->
  exists er, oops p e msg s =
    Done (-1) (Mach (world s) (heap_live s) (fds_live s) (<[p := with_error er v]> (glob s))).
Proof.
  intros E. unfold oops. rewrite (run_put_pcm _ _ _ _ _ E). mrun.
  destruct (snd_errno (world s) =? 0); mrun; [eauto|].
  erewrite run_put_pcm by (cbn [glob]; apply lookup_insert_eq). mrun.
  rewrite insert_insert_eq. eauto.
Qed.
Lemma oops_errno_run p msg v (s : S) :
  glob s !! p = Some v ->
  exists er, oops_errno p msg s =
    Done (-1) (Mach (world s) (heap_live s) (fds_live s) (<[p := with_error er v]> (glob s))).
Proof. intros E. unfold oops_errno. mrun. by apply oops_run. Qed.

Ltac run_oops_errno :=
  match goal with
  | |- context [bind (oops_errno ?p ?msg) _ ?st] =>
      let Eo := fresh "Eo" in let Hl := fresh "Hl" in
      eassert (glob st !! p = Some _) as Hl
        by (first [eassumption | cbn [glob]; apply lookup_insert_eq]);
      destruct (oops_errno_run p msg _ st Hl) as [? Eo]; mstep Eo
  end.

(** One round of [pcm_write]: it gives a result, or the device was running and
    reported an underrun, and it is not running any more. *)
Lemma write_round_run p data n v (s : S) :
  glob s !! p = Some v ->
  exists r v' s', pcm_write_round p data n s = Done r s' /\ glob s' !! p = Some v' /\
    p_flags v' = p_flags v /\
    match r with
    | Some 0 => p_running v' = true /\ p_underruns v' = p_underruns v
    | Some r => r = -1 /\ p_running v' = false /\ p_underruns v' = p_underruns v
    | None => p_running v = true /\ p_running v' = false /\ p_underruns v' = s32 (p_underruns v + 1)
    end.
Proof.
  intros E. unfold pcm_write_round. rewrite (run_the_pcm _ _ _ _ E).
  destruct (p_running v) eqn:Erun.
  - destruct (snd_writei (p_fd v) data n (world s)) as [r w] eqn:Ew.
    erewrite bind_on_world by exact Ew. destruct (Z.eqb_spec r 0) as [->|Hr]; cbn beta iota.
    { eexists (Some 0), v, _. split_and!; try done. }
    erewrite run_put_pcm by exact E. mrun. destruct (_ =? EPIPE).
    + erewrite run_put_pcm by (cbn [glob]; apply lookup_insert_eq). mrun. rewrite insert_insert_eq.
      eexists None, _, _. split_and!; [reflexivity|cbn [glob]; apply lookup_insert_eq|done..].
    + run_oops_errno.
      eexists (Some (-1)), _, _. split_and!; [reflexivity|cbn [glob]; apply lookup_insert_eq|done..].
  - destruct (snd_prepare (p_fd v) (world s)) as [r w] eqn:Ew.
    erewrite bind_on_world by exact Ew. destruct (Z.eqb_spec r 0) as [->|Hr]; cbn [negb].
    2:{ run_oops_errno.
        eexists (Some (-1)), _, _. split_and!; [reflexivity|cbn [glob]; apply lookup_insert_eq|done..]. }
    destruct (snd_writei (p_fd v) data n w) as [r w'] eqn:Ew'.
    erewrite bind_on_world by exact Ew'. destruct (Z.eqb_spec r 0) as [->|Hr]; cbn [negb].
    2:{ run_oops_errno.
        eexists (Some (-1)), _, _. split_and!; [reflexivity|cbn [glob]; apply lookup_insert_eq|done..]. }
    erewrite run_put_pcm by exact E. mrun.
    eexists (Some 0), _, _. split_and!; [reflexivity|cbn [glob]; apply lookup_insert_eq|done..].
Qed.

(** [pcm_write] returns, whatever the driver answers: an underrun stops the
    stream, and a stopped stream is prepared and written without another turn,
    so two turns of [for (;;)] are enough.  It returns 0 with the stream running
    or -1 with it stopped, and counts at most one underrun. *)
Theorem pcm_write_two_rounds p data count n v (s : S) fuel :
  glob s !! p = Some v -> has_flag (p_flags v) PCM_IN = false ->
  xfer_frames (p_config v) count = Some n ->
  exists r v' s', pcm_write (2 + fuel) p data count s = Done r s' /\ glob s' !! p = Some v' /\
    (r = 0 /\ p_running v' = true \/ r = -1 /\ p_running v' = false) /\
    (p_underruns v' = p_underruns v \/ p_running v = true /\ p_underruns v' = s32 (p_underruns v + 1)).
Proof.
  intros E Hfl Hn. unfold pcm_write. rewrite (run_the_pcm _ _ _ _ E), Hfl, Hn. mrun.
  destruct (write_round_run p data n v s E) as (r & v' & s' & Er & E' & Hfl' & Hcase).
  change (2 + fuel)%nat with (Datatypes.S (Datatypes.S fuel)). cbn [rounds]. mstep Er. destruct r as [r|].
  - exists r, v', s'. split_and!; [done|done|destruct r; intuition lia|destruct r; intuition lia].
  - destruct Hcase as (Hrun & Hstop & Hund).
    destruct (write_round_run p data n v' s' E') as (r2 & v2 & s2 & Er2 & E2 & _ & Hcase2).
    cbn [rounds]. mstep Er2. destruct r2 as [r2|]; [|by destruct Hcase2; congruence].
    exists r2, v2, s2. split_and!; [done|done|destruct r2; intuition lia|].
    right. split; [done|]. destruct r2; intuition congruence.
Qed.

(** [pcm_read] starts the stream again before it reads again, so on a driver
    that reports an overrun at every read it goes round for ever. *)
Theorem pcm_read_spins p buf count n v (s : S) fuel :
  (forall fd b k w, exists r b' w', snd_readi fd b k w = (r, b', w') /\ r <> 0 /\ snd_errno w' = EPIPE) ->
  (forall fd w, exists w', snd_prepare fd w = (0, w')) ->
  (forall fd w, exists w', snd_start fd w = (0, w')) ->
  glob s !! p = Some v -> has_flag (p_flags v) PCM_IN = true ->
  xfer_frames (p_config v) count = Some n ->
  pcm_read fuel p buf count s = Blocked.
Proof.
  intros Hread Hprep Hstart E Hfl Hn. unfold pcm_read.
  rewrite (run_the_pcm _ _ _ _ E), Hfl, Hn. mrun. clear Hfl Hn.
  revert v s buf E. induction fuel as [|fuel IH]; intros v s buf E; [done|].
  cbn [pcm_read_loop].
  assert (exists v' s' buf', pcm_read_round p buf n s = Done (None, buf') s' /\ glob s' !! p = Some v')
    as (v' & s' & buf' & Er & E').
  { unfold pcm_read_round. rewrite (run_the_pcm _ _ _ _ E). cbv zeta.
    destruct (p_running v).
    - destruct (Hread (p_fd v) buf n (world s)) as (r & b' & w' & Ew & Hr & He).
      erewrite bind_on_world by exact Ew. mrun. rewrite (proj2 (Z.eqb_neq r 0) Hr).
      erewrite run_put_pcm by exact E. mrun. rewrite He. mrun.
      erewrite run_put_pcm by (cbn [glob]; apply lookup_insert_eq). mrun.
      eexists _, _, _. split; [reflexivity|cbn [glob]; apply lookup_insert_eq].
    - destruct (Hprep (p_fd v) (world s)) as [w1 Ew1]. erewrite bind_on_world by exact Ew1. mrun.
      destruct (Hstart (p_fd v) w1) as [w2 Ew2]. erewrite bind_on_world by exact Ew2. mrun.
      erewrite run_put_pcm by exact E. mrun. cbn [negb].
      destruct (Hread (p_fd v) buf n w2) as (r & b' & w' & Ew & Hr & He).
      erewrite bind_on_world by exact Ew. mrun. rewrite (proj2 (Z.eqb_neq r 0) Hr).
      erewrite run_put_pcm by (cbn [glob]; apply lookup_insert_eq). mrun. rewrite He. mrun.
      erewrite run_put_pcm by (cbn [glob]; apply lookup_insert_eq). mrun.
      eexists _, _, _. split; [reflexivity|cbn [glob]; apply lookup_insert_eq]. }
  mstep Er. eapply IH. exact E'.
Qed.

(** ** The life of a stream *)

End Theorems.

(** ** Witnesses *)

Definition ring_sync (hw appl : Z) : snd_pcm_sync_ptr :=
  SyncPtr 0 (MmapStatus PCM_STATE_RUNNING hw (1, 0)) (MmapControl appl 1).
Definition ring_config : pcm_config := PcmConfig 2 44100 2 2 PCM_FORMAT_S16_LE 0 0 0 0 0 0.
Definition ring_pcm (hw appl : Z) : pcm :=
  Pcm 3 0 true 0 4 sim_boundary [] ring_config MmSync MmSync (Some (50, ring_sync hw appl)) 9000 0.
(** The driver has played [h] frames at [rate] a call, the program has committed
    [a]. *)
Definition ring_state (rate h a : Z) : mach snd_world (gmap Z pcm) :=
  Mach (SndWorld 100 h rate [] 0 0 []) 2 1 {[1 := ring_pcm (h mod sim_boundary) (a mod sim_boundary)]}.

Lemma ring_streaming rate h a :
  h <= a <= h + 4 ->
  streaming 1 a (ring_pcm (h mod sim_boundary) (a mod sim_boundary))
    (ring_sync (h mod sim_boundary) (a mod sim_boundary)) (ring_state rate h a).
Proof.
  intros Hah. split; try done.
  - by exists 50.
  - by exists 1.
  - cbn [ring_sync sy_control ct_appl_ptr p_boundary ring_pcm]. split.
    + pose proof (Z.mod_pos_bound a sim_boundary). unfold sim_boundary in *. lia.
    + exists (a / sim_boundary). pose proof (Z.div_mod a sim_boundary). unfold sim_boundary in *. lia.
Qed.

Lemma mmap_round_sound_witness :
  (exists s1, pcm_mmap_begin 1 3 (ring_state 1 7 10) = Done (9000, 2, 2) s1) /\
  exists Hp v1 y1 s1,
    streaming 1 10 v1 y1 s1 /\ Hp = played (p_fd v1) (world s1) /\
    (10 < Hp + 4 ->
       pcm_mmap_begin 1 3 (ring_state 1 7 10) = Done (9000, 2, Z.min 3 (Z.min (Hp + 4 - 10) 2)) s1 /\
       0 <= Z.min 3 (Z.min (Hp + 4 - 10) 2) /\ 2 + Z.min 3 (Z.min (Hp + 4 - 10) 2) <= 4 /\
       exists v2 y2 s2,
         pcm_mmap_commit 1 2 (Z.min 3 (Z.min (Hp + 4 - 10) 2)) s1 =
           Done (Z.min 3 (Z.min (Hp + 4 - 10) 2)) s2 /\
         streaming 1 (10 + Z.min 3 (Z.min (Hp + 4 - 10) 2)) v2 y2 s2).
Proof.
  split.
  - eexists. vm_compute. reflexivity.
  - exact (mmap_round_sound 1 10 (ring_pcm 7 2) (ring_sync 7 2) (ring_state 1 7 10) 3
             (ring_streaming 1 7 10 ltac:(lia)) ltac:(lia)).
Defined.

Lemma mmap_full_offers_frames_witness :
  (exists s1, pcm_mmap_begin 1 9 (ring_state 0 6 10) = Done (9000, 2, 2) s1 /\
     played 3 (world s1) = 6) /\
  exists v1 y1 s1, streaming 1 10 v1 y1 s1 /\
    (10 = played 3 (world s1) + 4 ->
     pcm_mmap_begin 1 9 (ring_state 0 6 10) = Done (9000, 2, Z.min 9 2) s1).
Proof.
  split.
  - eexists. vm_compute. split; reflexivity.
  - exact (mmap_full_offers_frames 1 10 (ring_pcm 6 2) (ring_sync 6 2) (ring_state 0 6 10) 9
             (ring_streaming 0 6 10 ltac:(lia)) ltac:(lia) eq_refl).
Defined.

Lemma boundary_loop_ends_witness :
  grow_boundary 32 4096 4096 = Some (4096 * 2 ^ 18) /\
  exists k, 0 <= k /\ grow_boundary 32 4096 4096 = Some (4096 * 2 ^ k) /\
    LONG_MAX - 4096 < 4096 * 2 ^ k * 2 /\ (k = 0 \/ 4096 * 2 ^ k + 4096 <= LONG_MAX).
Proof.
  split; [by vm_compute|]. apply (boundary_loop_ends 4096). split; vm_compute; congruence.
Defined.

(** A stream on a driver that reports an underrun at the first transfer. *)
Definition underrun_state (default : Z) (flags : Z) : mach snd_world (gmap Z pcm) :=
  Mach (SndWorld 100 0 1 [-1] default EPIPE []) 2 1 {[1 := with_flags flags (ring_pcm 0 0)]}.

Lemma pcm_write_two_rounds_witness :
  (exists s', pcm_write 2 1 (zeros 16) 16 (underrun_state 0 PCM_OUT) = Done 0 s') /\
  exists r v' s', pcm_write (2 + 0) 1 (zeros 16) 16 (underrun_state 0 PCM_OUT) = Done r s' /\
    glob s' !! 1 = Some v' /\
    (r = 0 /\ p_running v' = true \/ r = -1 /\ p_running v' = false) /\
    (p_underruns v' = 0 \/ true = true /\ p_underruns v' = s32 (0 + 1)).
Proof.
  split.
  - eexists. vm_compute. reflexivity.
  - exact (pcm_write_two_rounds 1 (zeros 16) 16 4 (with_flags PCM_OUT (ring_pcm 0 0))
             (underrun_state 0 PCM_OUT) 0 eq_refl eq_refl eq_refl).
Defined.

(** A driver that overruns at every read. *)
Definition overrun_ops : SndOps snd_world := {|
  snd_errno := fun _ => EPIPE;
  snd_strerror := snd_strerror;
  snd_page_size := snd_page_size;
  snd_info := snd_info;
  snd_hw_params := snd_hw_params;
  snd_sw_params := snd_sw_params;
  snd_prepare := snd_prepare;
  snd_start := snd_start;
  snd_drop := snd_drop;
  snd_writei := snd_writei;
  snd_readi := fun _ b _ w => (-1, b, w);
  snd_status := snd_status;
  snd_sync_ptr := snd_sync_ptr;
  snd_mmap := snd_mmap;
  snd_munmap := snd_munmap;
  snd_map_status := snd_map_status;
  snd_map_control := snd_map_control;
  snd_put_control := snd_put_control;
  snd_poll := snd_poll;
|}.

Lemma pcm_read_spins_witness :
  pcm_read (H0 := overrun_ops) 100 1 (zeros 16) 16 (underrun_state 0 PCM_IN) = Blocked.
Proof.
  apply (pcm_read_spins (H0 := overrun_ops) 1 (zeros 16) 16 4 (with_flags PCM_IN (ring_pcm 0 0))
           (underrun_state 0 PCM_IN) 100); try reflexivity.
  - intros fd b k w. exists (-1), b, w. split_and!; [reflexivity|lia|reflexivity].
  - intros fd w. by exists w.
  - intros fd w. by exists w.
Defined.

(** A driver that maps what it is asked to, and answers [sw] to SW_PARAMS. *)
Definition mapping_ops (sw : Z) : SndOps snd_world := {|
  snd_errno := snd_errno;
  snd_strerror := snd_strerror;
  snd_page_size := snd_page_size;
  snd_info := snd_info;
  snd_hw_params := snd_hw_params;
  snd_sw_params := fun _ _ w => (sw, w);
  snd_prepare := snd_prepare;
  snd_start := snd_start;
  snd_drop := snd_drop;
  snd_writei := snd_writei;
  snd_readi := snd_readi;
  snd_status := snd_status;
  snd_sync_ptr := snd_sync_ptr;
  snd_mmap := fun _ _ _ w => let '(a, w) := sim_malloc w in (4096 * a, w);
  snd_munmap := snd_munmap;
  snd_map_status := snd_map_status;
  snd_map_control := snd_map_control;
  snd_put_control := snd_put_control;
  snd_poll := snd_poll;
|}.
Definition kernel_start : mach (kernel snd_world) (gmap Z pcm) := Mach (Kernel snd_start_world ∅) 0 0 ∅.


(** A stream whose SW_PARAMS failed has unmapped its buffer; [pcm_close], which the
    caller must call for the rest, unmaps the same addresses again: what another
    thread has mapped there since is gone. *)
Theorem failed_open_unmaps_twice :
  match pcm_open (H0 := kernel_snd (H := mapping_ops (-1))) 0 0 PCM_MMAP (Some ring_config) kernel_start with
  | Done (p, _) s =>
      let others : gmap Z Z := {[413696 := 16]} in
      p_fd <$> glob s !! p = Some (-1) /\ maps (world s) = ∅ /\
      match pcm_close (H0 := kernel_snd (H := mapping_ops (-1))) p
              (Mach (Kernel (answers (world s)) others) (heap_live s) (fds_live s) (glob s)) with
      | Done _ s' => maps (world s') = ∅
      | _ => False
      end
  | _ => False
  end.
Proof. vm_compute. by split_and!. Qed.
