(* ===== verification/Mixer.v ===== *)
(** * libcodec_audio: mixer controls

    [mixer.c]: the list of a card's controls with their names and values.  A
    [struct mixer] is an object with an address, with its arrays of controls and
    of their descriptions; a control is the mixer and an index. *)

From stdpp Require Import pretty.
From S2P Require Import Prelude CLib Os Snd.

Definition SNDRV_CTL_ELEM_TYPE_BOOLEAN : Z := 1.
Definition SNDRV_CTL_ELEM_TYPE_INTEGER : Z := 2.
Definition SNDRV_CTL_ELEM_TYPE_ENUMERATED : Z := 3.
Definition SNDRV_CTL_ELEM_TYPE_BYTES : Z := 4.
Definition SNDRV_CTL_ELEM_TYPE_IEC958 : Z := 5.
Definition SNDRV_CTL_ELEM_TYPE_INTEGER64 : Z := 6.

(** [struct snd_ctl_elem_info], as far as it is read: the name is a C string,
    [ei_items] is of an enumeration, the bounds are of an integer. *)
Record snd_ctl_elem_info := ElemInfo {
  ei_numid : Z;
  ei_name : bytes;
  ei_type : Z;
  ei_count : Z;
  ei_min : Z;
  ei_max : Z;
  ei_items : Z;
}.
Definition info_zero : snd_ctl_elem_info := ElemInfo 0 [] 0 0 0 0 0.

(** The control device: the list ioctl fills at most [space] ids; the info ioctl
    also names one item of an enumeration; a value is an array. *)
Class MixOps (W : Type) := {
  mix_list : Z -> Z -> W -> Z * Z * list Z * W;              (* fd, space; result, count, ids *)
  mix_info : Z -> Z -> Z -> W -> Z * snd_ctl_elem_info * bytes * W;  (* fd, numid, item *)
  mix_read : Z -> Z -> W -> Z * list Z * W;                  (* fd, numid *)
  mix_write : Z -> Z -> list Z -> W -> Z * W;
}.

(** What the kernel documents of the values of a control: a read gives the array
    and changes nothing, a write that the driver accepts replaces it, and no
    other control's. *)
Class MixDev (W : Type) `{MixOps W} := {
  mix_val : W -> Z -> list Z;
  mix_accepts : Z -> list Z -> Prop;
  mix_read_law : forall fd n w, mix_read fd n w = (0, mix_val w n, w);
  mix_write_law : forall fd n v w, mix_accepts n v ->
    exists w', mix_write fd n v w = (0, w') /\ mix_val w' n = v /\
      forall m, m <> n -> mix_val w' m = mix_val w m;
}.

(** [ename]: the address of the array, and for each entry the address and the
    string it points to (address 0 while it is NULL). *)
Record mixer_ctl := MixerCtl {
  mc_has_info : bool;
  mc_ename : option (Z * list (Z * bytes));
}.

Record mixer := MkMixer {
  mx_fd : Z;
  mx_info_addr : Z;
  mx_ctl_addr : Z;
  mx_count : Z;
  mx_info : list snd_ctl_elem_info;
  mx_ctl : list mixer_ctl;
}.
Definition mixer_zero : mixer := MkMixer 0 0 0 0 [] [].
Definition with_arrays (ctl info n : Z) (m : mixer) : mixer :=
  MkMixer (mx_fd m) info ctl (mx_count m)
    (if info =? 0 then [] else replicate (Z.to_nat n) info_zero)
    (if ctl =? 0 then [] else replicate (Z.to_nat n) (MixerCtl false None)).
Definition with_count (fd n : Z) (m : mixer) : mixer :=
  MkMixer fd (mx_info_addr m) (mx_ctl_addr m) n (mx_info m) (mx_ctl m).
Definition with_info (n : nat) (i : snd_ctl_elem_info) (m : mixer) : mixer :=
  MkMixer (mx_fd m) (mx_info_addr m) (mx_ctl_addr m) (mx_count m) (<[n := i]> (mx_info m))
    (alter (fun c => MixerCtl true (mc_ename c)) n (mx_ctl m)).
Definition with_ename (n : nat) (e : Z * list (Z * bytes)) (m : mixer) : mixer :=
  MkMixer (mx_fd m) (mx_info_addr m) (mx_ctl_addr m) (mx_count m) (mx_info m)
    (alter (fun c => MixerCtl (mc_has_info c) (Some e)) n (mx_ctl m)).
Definition with_item (n m : nat) (e : Z * bytes) (x : mixer) : mixer :=
  MkMixer (mx_fd x) (mx_info_addr x) (mx_ctl_addr x) (mx_count x) (mx_info x)
    (alter (fun c => MixerCtl (mc_has_info c)
       (option_map (fun '(a, l) => (a, <[m := e]> l)) (mc_ename c))) n (mx_ctl x)).

Definition SIZEOF_mixer : Z := 16.
Definition SIZEOF_mixer_ctl : Z := 12.
Definition SIZEOF_elem_info : Z := 272.
Definition SIZEOF_elem_id : Z := 64.
Definition control_path (card : Z) : string := "/dev/snd/controlC" +:+ pretty card.

(** A [struct mixer_ctl *]: NULL, or an entry of a mixer. *)
Abbreviation ctl_ptr := (option (Z * Z)).

Section Mixer.
Context {W : Type} `{OsOps W, MixOps W}.
Abbreviation S := (mach W (gmap Z mixer)).

Definition the_mixer (p : Z) : M S mixer := let* m := get_glob id in checked (m !! p).
Definition put_mixer (p : Z) (f : mixer -> mixer) : M S unit :=
  let* v := the_mixer p in set_glob (<[p := f v]>).

(** *** Closing *)

Fixpoint free_names (n : nat) (l : list (Z * bytes)) : M S unit :=
  match n, l with
  | O, _ => ret tt
  | Datatypes.S n, (a, _) :: l => c_free a ;;; free_names n l
  | Datatypes.S _, [] => undef
  end.

(** [for (n = 0; n < count; n++)] over the controls and their descriptions. *)
Fixpoint free_ctls (n : nat) (ctl : list mixer_ctl) (info : list snd_ctl_elem_info) : M S unit :=
  match n, ctl, info with
  | O, _, _ => ret tt
  | Datatypes.S n, c :: ctl, i :: info =>
      match mc_ename c with
      | Some (a, l) =>
          if mc_has_info c then free_names (Z.to_nat (ei_items i)) l ;;; c_free a else undef
      | None => ret tt
      end ;;;
      free_ctls n ctl info
  | _, _, _ => undef
  end.

Definition mixer_close (p : Z) : M S unit :=
  if p =? 0 then ret tt else
  let* m := the_mixer p in
  (if 0 <=? mx_fd m then c_close (mx_fd m) else ret tt) ;;;
  (if mx_ctl_addr m =? 0 then ret tt
   else free_ctls (Z.to_nat (mx_count m)) (mx_ctl m) (mx_info m) ;;; c_free (mx_ctl_addr m)) ;;;
  (if mx_info_addr m =? 0 then ret tt else c_free (mx_info_addr m)) ;;;
  c_free p ;;;
  set_glob (delete p).

(** *** Opening *)

(** The names of the items [m] and up of control [n]; [false] at a failure. *)
Fixpoint read_names (k : nat) (p fd : Z) (n m : nat) (numid : Z) : M S bool :=
  match k with
  | O => ret true
  | Datatypes.S k =>
      let* '(r, _, name) := on_world (mix_info fd numid (Z.of_nat m)) in
      if r <? 0 then ret false else
      let* a := c_malloc (lenZ name + 1) in           (* strdup *)
      put_mixer p (with_item n m (a, name)) ;;;
      if a =? 0 then ret false else read_names k p fd n (Datatypes.S m) numid
  end.

Fixpoint read_ctls (ids : list Z) (p fd : Z) (n : nat) : M S bool :=
  match ids with
  | [] => ret true
  | numid :: ids =>
      let* '(r, ei, _) := on_world (mix_info fd numid 0) in
      if r <? 0 then ret false else
      put_mixer p (with_info n ei) ;;;
      let* ok :=
        (if ei_type ei =? SNDRV_CTL_ELEM_TYPE_ENUMERATED then
           let* a := c_malloc (ei_items ei * 4) in
           if a =? 0 then ret false else
           put_mixer p (with_ename n (a, replicate (Z.to_nat (ei_items ei)) (0, []))) ;;;
           read_names (Z.to_nat (ei_items ei)) p fd n 0 (ei_numid ei)
         else ret true) in
      if ok : bool then read_ctls ids p fd (Datatypes.S n) else ret false
  end.

(** The label [fail], with a mixer. *)
Definition open_fail (p eid : Z) : M S Z :=
  (if eid =? 0 then ret tt else c_free eid) ;;; mixer_close p ;;; ret 0.

(** From the second list on, the mixer knows its descriptor. *)
Definition open_ctls (p fd count eid : Z) : M S Z :=
  put_mixer p (with_count fd count) ;;;
  let* '(r, _, ids) := on_world (mix_list fd count) in
  if r <? 0 then open_fail p eid else
  let* ok := read_ctls (take (Z.to_nat count) (ids ++ zeros count)) p fd 0 in
  if ok : bool then c_free eid ;;; ret p else open_fail p eid.

Definition mixer_open (card : Z) : M S Z :=
  let* fd := c_open (control_path card) in
  if fd <? 0 then ret 0 else
  let* '(r, count, _) := on_world (mix_list fd 0) in
  if r <? 0 then c_close fd ;;; ret 0 else
  let* p := c_malloc SIZEOF_mixer in
  if p =? 0 then c_close fd ;;; ret 0 else
  set_glob (<[p := mixer_zero]>) ;;;
  let* ctl := c_malloc (count * SIZEOF_mixer_ctl) in
  let* info := c_malloc (count * SIZEOF_elem_info) in
  put_mixer p (with_arrays ctl info count) ;;;
  if (ctl =? 0) || (info =? 0) then open_fail p 0 else
  let* eid := c_malloc (count * SIZEOF_elem_id) in
  if eid =? 0 then open_fail p 0 else
  open_ctls p fd count eid.

(** *** Controls *)

Definition mixer_get_num_ctls (p : Z) : M S Z :=
  if p =? 0 then ret 0 else let* m := the_mixer p in ret (mx_count m).

Definition mixer_get_ctl (p id : Z) : M S ctl_ptr :=
  if p =? 0 then ret None else
  let* m := the_mixer p in ret (if id <? mx_count m then Some (p, id) else None).

Fixpoint find_ctl (n : nat) (i : Z) (info : list snd_ctl_elem_info) (name : bytes) : option (option Z) :=
  match n, info with
  | O, _ => Some None
  | Datatypes.S n, e :: info =>
      if bool_decide (name = ei_name e) then Some (Some i) else find_ctl n (i + 1) info name
  | Datatypes.S _, [] => None
  end.

Definition mixer_get_ctl_by_name (p : Z) (name : bytes) : M S ctl_ptr :=
  if p =? 0 then ret None else
  let* m := the_mixer p in
  let* i := checked (find_ctl (Z.to_nat (mx_count m)) 0 (mx_info m) name) in
  ret (option_map (pair p) i).

(** [ctl->mixer->fd] and [*ctl->info]. *)
Definition ctl_info (c : Z * Z) : M S (Z * snd_ctl_elem_info) :=
  let* m := the_mixer (fst c) in
  let* i := checked (mx_info m !! Z.to_nat (snd c)) in ret (mx_fd m, i).

Definition mixer_ctl_get_name (c : ctl_ptr) : M S (option bytes) :=
  match c with
  | None => ret None
  | Some c => let* '(_, i) := ctl_info c in ret (Some (ei_name i))
  end.

Inductive mixer_ctl_type :=
| MIXER_CTL_TYPE_BOOL | MIXER_CTL_TYPE_INT | MIXER_CTL_TYPE_ENUM | MIXER_CTL_TYPE_BYTE
| MIXER_CTL_TYPE_IEC958 | MIXER_CTL_TYPE_INT64 | MIXER_CTL_TYPE_UNKNOWN.

Definition ctl_type_of (t : Z) : mixer_ctl_type :=
  if t =? SNDRV_CTL_ELEM_TYPE_BOOLEAN then MIXER_CTL_TYPE_BOOL
  else if t =? SNDRV_CTL_ELEM_TYPE_INTEGER then MIXER_CTL_TYPE_INT
  else if t =? SNDRV_CTL_ELEM_TYPE_ENUMERATED then MIXER_CTL_TYPE_ENUM
  else if t =? SNDRV_CTL_ELEM_TYPE_BYTES then MIXER_CTL_TYPE_BYTE
  else if t =? SNDRV_CTL_ELEM_TYPE_IEC958 then MIXER_CTL_TYPE_IEC958
  else if t =? SNDRV_CTL_ELEM_TYPE_INTEGER64 then MIXER_CTL_TYPE_INT64
  else MIXER_CTL_TYPE_UNKNOWN.

Definition mixer_ctl_get_type (c : ctl_ptr) : M S mixer_ctl_type :=
  match c with
  | None => ret MIXER_CTL_TYPE_UNKNOWN
  | Some c => let* '(_, i) := ctl_info c in ret (ctl_type_of (ei_type i))
  end.

Definition mixer_ctl_get_type_string (c : ctl_ptr) : M S string :=
  match c with
  | None => ret ""%string
  | Some c =>
      let* '(_, i) := ctl_info c in
      ret (match ctl_type_of (ei_type i) with
           | MIXER_CTL_TYPE_BOOL => "BOOL" | MIXER_CTL_TYPE_INT => "INT"
           | MIXER_CTL_TYPE_ENUM => "ENUM" | MIXER_CTL_TYPE_BYTE => "BYTE"
           | MIXER_CTL_TYPE_IEC958 => "IEC958" | MIXER_CTL_TYPE_INT64 => "INT64"
           | MIXER_CTL_TYPE_UNKNOWN => "Unknown"
           end%string)
  end.

Definition mixer_ctl_get_num_values (c : ctl_ptr) : M S Z :=
  match c with None => ret 0 | Some c => let* '(_, i) := ctl_info c in ret (ei_count i) end.
Definition mixer_ctl_get_num_enums (c : ctl_ptr) : M S Z :=
  match c with None => ret 0 | Some c => let* '(_, i) := ctl_info c in ret (ei_items i) end.

(** *** Values *)

(** The bounds are [long], 32 bits wide as [int]. *)
Definition percent_to_int (ei : snd_ctl_elem_info) (percent : Z) : Z :=
  let percent := if 100 <? percent then 100 else if percent <? 0 then 0 else percent in
  let range := s32 (ei_max ei - ei_min ei) in
  s32 (ei_min ei + s32 (range * percent) ÷ 100).

Definition int_to_percent (ei : snd_ctl_elem_info) (value : Z) : Z :=
  let range := s32 (ei_max ei - ei_min ei) in
  if range =? 0 then 0 else s32 (s32 (value - ei_min ei) ÷ range * 100).

Definition mixer_ctl_get_value (c : ctl_ptr) (id : Z) : M S Z :=
  match c with
  | None => ret (- EINVAL)
  | Some c =>
      let* '(fd, i) := ctl_info c in
      if ei_count i <=? id then ret (- EINVAL) else
      let* '(r, v) := on_world (mix_read fd (ei_numid i)) in
      if r <? 0 then ret r else
      let* x := checked (v !! Z.to_nat id) in
      ret (if ei_type i =? SNDRV_CTL_ELEM_TYPE_BOOLEAN then (if x =? 0 then 0 else 1)
           else if (ei_type i =? SNDRV_CTL_ELEM_TYPE_INTEGER) ||
                   (ei_type i =? SNDRV_CTL_ELEM_TYPE_ENUMERATED) ||
                   (ei_type i =? SNDRV_CTL_ELEM_TYPE_BYTES) then s32 x
           else - EINVAL)
  end.

Definition mixer_ctl_set_value (c : ctl_ptr) (id value : Z) : M S Z :=
  match c with
  | None => ret (- EINVAL)
  | Some c =>
      let* '(fd, i) := ctl_info c in
      if ei_count i <=? id then ret (- EINVAL) else
      let* '(r, v) := on_world (mix_read fd (ei_numid i)) in
      if r <? 0 then ret r else
      let x := if ei_type i =? SNDRV_CTL_ELEM_TYPE_BOOLEAN
               then Some (if value =? 0 then 0 else 1)
               else if ei_type i =? SNDRV_CTL_ELEM_TYPE_INTEGER then Some value
               else if ei_type i =? SNDRV_CTL_ELEM_TYPE_ENUMERATED then Some (u32 value)
               else None in
      match x with
      | None => ret (- EINVAL)
      | Some x =>
          let* _ := checked (v !! Z.to_nat id) in
          on_world (mix_write fd (ei_numid i) (<[Z.to_nat id := x]> v))
      end
  end.

Definition mixer_ctl_get_percent (c : ctl_ptr) (id : Z) : M S Z :=
  match c with
  | None => ret (- EINVAL)
  | Some p =>
      let* '(_, i) := ctl_info p in
      if negb (ei_type i =? SNDRV_CTL_ELEM_TYPE_INTEGER) then ret (- EINVAL) else
      let* v := mixer_ctl_get_value c id in ret (int_to_percent i v)
  end.
Definition mixer_ctl_set_percent (c : ctl_ptr) (id percent : Z) : M S Z :=
  match c with
  | None => ret (- EINVAL)
  | Some p =>
      let* '(_, i) := ctl_info p in
      if negb (ei_type i =? SNDRV_CTL_ELEM_TYPE_INTEGER) then ret (- EINVAL) else
      mixer_ctl_set_value c id (percent_to_int i percent)
  end.

Definition mixer_ctl_get_range_min (c : ctl_ptr) : M S Z :=
  match c with
  | None => ret (- EINVAL)
  | Some p =>
      let* '(_, i) := ctl_info p in
      ret (if ei_type i =? SNDRV_CTL_ELEM_TYPE_INTEGER then ei_min i else - EINVAL)
  end.
Definition mixer_ctl_get_range_max (c : ctl_ptr) : M S Z :=
  match c with
  | None => ret (- EINVAL)
  | Some p =>
      let* '(_, i) := ctl_info p in
      ret (if ei_type i =? SNDRV_CTL_ELEM_TYPE_INTEGER then ei_max i else - EINVAL)
  end.

(** The entries of [ename]; a NULL array or entry is [Undef] to use. *)
Definition ctl_names (c : Z * Z) : M S (list (Z * bytes)) :=
  let* m := the_mixer (fst c) in
  let* k := checked (mx_ctl m !! Z.to_nat (snd c)) in
  let* e := checked (mc_ename k) in ret (snd e).

Definition mixer_ctl_get_enum_string (c : ctl_ptr) (enum_id : Z) : M S (option bytes) :=
  match c with
  | None => ret None
  | Some p =>
      let* '(_, i) := ctl_info p in
      if negb (ei_type i =? SNDRV_CTL_ELEM_TYPE_ENUMERATED) || (ei_items i <=? enum_id)
      then ret None else
      let* l := ctl_names p in
      let* '(a, s) := checked (l !! Z.to_nat enum_id) in
      ret (if a =? 0 then None else Some s)
  end.

(** [for (i = 0; i < num_enums; i++)]: the first item with the name. *)
Fixpoint find_enum (n : nat) (i : Z) (l : list (Z * bytes)) (s : bytes) : option (option Z) :=
  match n, l with
  | O, _ => Some None
  | Datatypes.S n, (a, e) :: l =>
      if a =? 0 then None
      else if bool_decide (s = e) then Some (Some i) else find_enum n (i + 1) l s
  | Datatypes.S _, [] => None
  end.

Definition mixer_ctl_set_enum_by_string (c : ctl_ptr) (s : bytes) : M S Z :=
  match c with
  | None => ret (- EINVAL)
  | Some p =>
      let* '(fd, i) := ctl_info p in
      if negb (ei_type i =? SNDRV_CTL_ELEM_TYPE_ENUMERATED) then ret (- EINVAL) else
      if ei_items i <=? 0 then ret (- EINVAL) else
      let* l := ctl_names p in
      let* k := checked (find_enum (Z.to_nat (ei_items i)) 0 l s) in
      match k with
      | None => ret (- EINVAL)
      | Some k =>
          let* r := on_world (mix_write fd (ei_numid i) (<[0%nat := k]> (zeros 128))) in
          ret (if r <? 0 then r else 0)
      end
  end.
End Mixer.
