(* ===== verification/MixerLife.v ===== *)
(** * libcodec_audio: what a mixer owns

    A mixer owns its structure, its two arrays, an array for each enumeration
    and a string for each of its items.  Whatever the kernel and the allocator
    answer while it is built, closing it gives all of that back. *)

From S2P Require Import Prelude CLib Os Snd Mixer.

(** ** Blocks *)

Definition block (a : Z) : Z := if a =? 0 then 0 else 1.
Definition name_blocks (l : list (Z * bytes)) : Z := foldr (fun e n => block (fst e) + n) 0 l.
Definition ctl_blocks (c : mixer_ctl) : Z :=
  match mc_ename c with Some (a, l) => 1 + name_blocks l | None => 0 end.
Definition all_blocks (cs : list mixer_ctl) : Z := foldr (fun c n => ctl_blocks c + n) 0 cs.

Lemma name_blocks_app l k : name_blocks (l ++ k) = name_blocks l + name_blocks k.
Proof. induction l; cbn [app name_blocks foldr]; [done|]. unfold name_blocks in *. lia. Qed.
Lemma all_blocks_app l k : all_blocks (l ++ k) = all_blocks l + all_blocks k.
Proof. induction l; cbn [app all_blocks foldr]; [done|]. unfold all_blocks in *. lia. Qed.
Lemma name_blocks_empty n : name_blocks (replicate n (0, [])) = 0.
Proof. induction n; [done|]. cbn [replicate name_blocks foldr]. unfold name_blocks in *. by rewrite IHn. Qed.
Lemma all_blocks_empty n b : all_blocks (replicate n (MixerCtl b None)) = 0.
Proof. induction n; [done|]. cbn [replicate all_blocks foldr]. unfold all_blocks in *. by rewrite IHn. Qed.

(** A control and its description agree: its names are those of its items. *)
Definition ctl_ok (c : mixer_ctl) (i : snd_ctl_elem_info) : Prop :=
  match mc_ename c with
  | Some (a, l) => mc_has_info c = true /\ a <> 0 /\ length l = Z.to_nat (ei_items i)
  | None => True
  end.

Section Life.
Context {W : Type} `{OsOps W, MixOps W}.
Abbreviation S := (mach W (gmap Z mixer)).

(** The state after a call that only gave back [n] blocks. *)
Definition freed (n : Z) (s s' : S) : Prop :=
  world s' = world s /\ glob s' = glob s /\ fds_live s' = fds_live s /\ heap_live s' = heap_live s - n.

Lemma c_free_freed a (s : S) : yields (c_free a) s (fun _ s' => freed (block a) s s').
Proof. unfold yields, c_free, freed, block. cbn [world glob fds_live heap_live]. case_test; split_and!; lia || done. Qed.
Lemma freed_trans n m (s1 s2 s3 : S) : freed n s1 s2 -> freed m s2 s3 -> freed (n + m) s1 s3.
Proof. intros (A1 & A2 & A3 & A4) (B1 & B2 & B3 & B4). split_and!; [congruence..|lia]. Qed.
Lemma freed_zero (s : S) : freed 0 s s.
Proof. split_and!; [done..|lia]. Qed.

(** Two calls that free, one after the other. *)
Lemma yields_freed {B} (m : M S unit) (k : unit -> M S B) n s Q :
  yields m s (fun _ s' => freed n s s') ->
  (forall s', freed n s s' -> yields (k tt) s' Q) -> yields (bind m k) s Q.
Proof. intros Hm Hk. eapply yields_bind; [exact Hm|]. intros [] s' Hs. by apply Hk. Qed.

Lemma free_names_run l (s : S) :
  yields (free_names (length l) l) s (fun _ s' => freed (name_blocks l) s s').
Proof.
  revert s; induction l as [|[a x] l IH]; intros s; [apply yields_ret, freed_zero|].
  cbn [length free_names]. eapply yields_freed; [apply c_free_freed|]. intros s1 H1.
  eapply yields_mono; [apply IH|]. intros ? s2 H2. by eapply freed_trans.
Qed.

Lemma free_ctls_run cs infos (s : S) :
  Forall2 ctl_ok cs infos ->
  yields (free_ctls (length cs) cs infos) s (fun _ s' => freed (all_blocks cs) s s').
Proof.
  intros Hok; revert s. induction Hok as [|c i cs infos Hc _ IH]; intros s;
    [apply yields_ret, freed_zero|].
  cbn [length free_ctls]. change (all_blocks (c :: cs)) with (ctl_blocks c + all_blocks cs).
  apply (yields_freed _ _ (ctl_blocks c)).
  - unfold ctl_ok, ctl_blocks in *. destruct (mc_ename c) as [[a l]|]; [|apply yields_ret, freed_zero].
    destruct Hc as (-> & Ha & <-).
    eapply yields_freed; [apply free_names_run|]. intros s1 H1.
    eapply yields_mono; [apply c_free_freed|]. intros ? s2 H2.
    replace (1 + name_blocks l) with (name_blocks l + block a); [by eapply freed_trans|].
    unfold block. rewrite (proj2 (Z.eqb_neq a 0) Ha). lia.
  - intros s1 H1. eapply yields_mono; [apply IH|]. intros ? s2 H2. by eapply freed_trans.
Qed.

(** *** What a mixer owns *)

(** The mixer at [p] over [h] blocks and [f] descriptors of others, with [e]
    blocks more that its builder holds. *)
Record owns (p h f e : Z) (m : mixer) (s : S) : Prop := {
  ow_object : glob s !! p = Some m;
  ow_addr : p <> 0;
  ow_heap : heap_live s = h + e + 1 + block (mx_ctl_addr m) + block (mx_info_addr m) + all_blocks (mx_ctl m);
  ow_ctls : mx_ctl_addr m <> 0 ->
    mx_count m = 0 /\ all_blocks (mx_ctl m) = 0 \/
    length (mx_ctl m) = Z.to_nat (mx_count m) /\ Forall2 ctl_ok (mx_ctl m) (mx_info m);
  ow_none : mx_ctl_addr m = 0 -> all_blocks (mx_ctl m) = 0;
  ow_fds : fds_live s = f + 1;
  ow_fd : 0 <= mx_fd m;
}.

Lemma yields_the_mixer {B} (k : mixer -> M S B) p m s Q :
  glob s !! p = Some m -> yields (k m) s Q -> yields (bind (the_mixer p) k) s Q.
Proof. intros E Hk. unfold yields, the_mixer. mrun. unfold id. rewrite E. mrun. exact Hk. Qed.

Lemma mixer_close_run p h f e m s :
  owns p h f e m s ->
  yields (mixer_close p) s (fun _ s' => heap_live s' = h + e /\ fds_live s' = f /\ glob s' !! p = None).
Proof.
  intros [Ho Hp Hh Hc Hn Hf Hfd]. unfold mixer_close. rewrite (proj2 (Z.eqb_neq p 0) Hp).
  apply (yields_the_mixer _ _ _ _ _ Ho). rewrite (proj2 (Z.leb_le 0 (mx_fd m)) Hfd).
  apply yields_bind with (P := fun _ s' => heap_live s' = heap_live s /\ fds_live s' = f).
  { unfold yields, c_close. cbn [heap_live fds_live]. rewrite (proj2 (Z.ltb_ge _ 0) Hfd). lia. }
  intros _ s1 [Hh1 Hf1].
  apply yields_bind with (P := fun _ s' => freed (block (mx_ctl_addr m) + all_blocks (mx_ctl m)) s1 s').
  { unfold block. destruct (Z.eqb_spec (mx_ctl_addr m) 0) as [E|E].
    - rewrite (Hn E). apply yields_ret, freed_zero.
    - replace (1 + all_blocks (mx_ctl m)) with (all_blocks (mx_ctl m) + block (mx_ctl_addr m))
        by (unfold block; rewrite (proj2 (Z.eqb_neq _ 0) E); lia).
      eapply (yields_freed _ _ (all_blocks (mx_ctl m))).
      + destruct (Hc E) as [[-> ->]|[<- Hok]]; [apply yields_ret, freed_zero|by apply free_ctls_run].
      + intros s2 H2. eapply yields_mono; [apply c_free_freed|]. intros ? s3 H3. by eapply freed_trans. }
  intros _ s2 H2. cbn beta in H2.
  apply (yields_freed _ _ (block (mx_info_addr m))).
  { destruct (mx_info_addr m =? 0) eqn:E; [apply Z.eqb_eq in E; rewrite E; apply yields_ret, freed_zero|
      apply c_free_freed]. }
  intros s3 H3. apply (yields_freed _ _ 1).
  { replace 1 with (block p) by (unfold block; by rewrite (proj2 (Z.eqb_neq p 0) Hp)).
    apply c_free_freed. }
  intros s4 H4. pose proof (freed_trans _ _ _ _ _ (freed_trans _ _ _ _ _ H2 H3) H4) as (Ew & Eg & Ef & Eh).
  unfold yields, set_glob. cbn [heap_live fds_live glob]. split_and!; [lia|lia|apply lookup_delete_eq].
Qed.

(** *** Building *)

Lemma yields_put_mixer {B} (k : unit -> M S B) p m g s Q :
  glob s !! p = Some m ->
  yields (k tt) (Mach (world s) (heap_live s) (fds_live s) (<[p := g m]> (glob s))) Q ->
  yields (bind (put_mixer p g) k) s Q.
Proof. intros E Hk. unfold put_mixer. apply yields_assoc. by apply (yields_the_mixer _ _ m). Qed.

Lemma yields_block {B} (k : Z -> M S B) n s Q :
  (forall a w, yields (k a) (Mach w (heap_live s + block a) (fds_live s) (glob s)) Q) ->
  yields (bind (c_malloc n) k) s Q.
Proof.
  intros Hk. apply yields_malloc. intros a w _. specialize (Hk a w). unfold block in Hk.
  destruct (a =? 0); [|done]. by rewrite Z.add_0_r in Hk.
Qed.

(** The mixer while control number [length cs] is filled in: the controls before
    it are done, the [rest] after it are untouched. *)
Definition mid (fd info ctl : Z) (cs : list mixer_ctl) (infos : list snd_ctl_elem_info)
    (c : mixer_ctl) (i : snd_ctl_elem_info) (rest : nat) : mixer :=
  MkMixer fd info ctl (Z.of_nat (length cs + Datatypes.S rest))
    (infos ++ i :: replicate rest info_zero) (cs ++ c :: replicate rest (MixerCtl false None)).

Record mid_owned (p h f e : Z) (m : mixer) (fd : Z) (s : S) : Prop := {
  mi_object : glob s !! p = Some m;
  mi_addr : p <> 0;
  mi_arrays : mx_ctl_addr m <> 0;
  mi_heap : heap_live s = h + e + 2 + block (mx_info_addr m) + all_blocks (mx_ctl m);
  mi_length : length (mx_ctl m) = Z.to_nat (mx_count m);
  mi_ok : Forall2 ctl_ok (mx_ctl m) (mx_info m);
  mi_fds : fds_live s = f + 1;
  mi_fd : 0 <= fd;
  mi_fd_eq : mx_fd m = fd;
}.

Lemma mid_owns p h f e m fd s : mid_owned p h f e m fd s -> owns p h f e m s.
Proof.
  intros [Ho Hp Ha Hh Hl Hok Hf Hfd Efd]. split; try done.
  - unfold block at 1. rewrite (proj2 (Z.eqb_neq _ 0) Ha). lia.
  - intros _. by right.
  - by rewrite Efd.
Qed.

(** A step of the builder: the world moves, [n] blocks are taken, the mixer is
    changed into one that owns them. *)
Lemma mid_step p h f e m m' fd s w n :
  mid_owned p h f e m fd s ->
  mx_fd m' = mx_fd m -> mx_ctl_addr m' = mx_ctl_addr m -> mx_info_addr m' = mx_info_addr m ->
  mx_count m' = mx_count m ->
  all_blocks (mx_ctl m') = all_blocks (mx_ctl m) + n ->
  length (mx_ctl m') = length (mx_ctl m) -> Forall2 ctl_ok (mx_ctl m') (mx_info m') ->
  mid_owned p h f e m' fd (Mach w (heap_live s + n) (fds_live s) (<[p := m']> (glob s))).
Proof.
  intros [] E1 E2 E3 E4 E5 E6 E7. split; cbn [glob heap_live fds_live]; try done; try lia; try congruence.
  - apply lookup_insert_eq.
  - rewrite E3, E5. lia.
Qed.
Lemma mid_world p h f e m fd s w :
  mid_owned p h f e m fd s -> mid_owned p h f e m fd (Mach w (heap_live s) (fds_live s) (glob s)).
Proof. intros []. by split. Qed.

Lemma insert_mid {A} (l : list A) x y k : <[length l := x]> (l ++ y :: k) = l ++ x :: k.
Proof. induction l as [|z l IH]; [done|]. cbn [app length]. by rewrite <- IH. Qed.
Lemma alter_mid {A} (g : A -> A) (l : list A) x k : alter g (length l) (l ++ x :: k) = l ++ g x :: k.
Proof. induction l as [|y l IH]; [done|]. cbn [app length]. by rewrite <- IH. Qed.

Lemma read_names_run k : forall p h f e fd info ctl cs infos a ls i rest numid s,
  mid_owned p h f e (mid fd info ctl cs infos (MixerCtl true (Some (a, ls ++ replicate k (0, [])))) i rest) fd s ->
  a <> 0 -> (length ls + k)%nat = Z.to_nat (ei_items i) -> Forall2 ctl_ok cs infos ->
  yields (read_names k p fd (length cs) (length ls) numid) s (fun _ s' =>
    exists l, length l = Z.to_nat (ei_items i) /\
      mid_owned p h f e (mid fd info ctl cs infos (MixerCtl true (Some (a, l))) i rest) fd s').
Proof.
  induction k as [|k IH]; intros p h f e fd info ctl cs infos a ls i rest numid s Hm Ha Hlen Hok;
    cbn [read_names].
  { rewrite app_nil_r in Hm. apply yields_ret. exists ls. split; [lia|done]. }
  apply yields_world. intros [[r ei] name] w _. apply (mid_world _ _ _ _ _ _ _ w) in Hm.
  destruct (r <? 0).
  { apply yields_ret. eexists. split; [|exact Hm]. rewrite length_app, length_replicate. lia. }
  apply yields_block. intros a' w'.
  eapply yields_put_mixer; [by destruct Hm|].
  set (m' := with_item _ _ _ _).
  assert (m' = mid fd info ctl cs infos
    (MixerCtl true (Some (a, (ls ++ [(a', name)]) ++ replicate k (0, [])))) i rest) as Em'.
  { unfold m', with_item, mid. cbn [mx_fd mx_info_addr mx_ctl_addr mx_count mx_info mx_ctl].
    rewrite alter_mid. cbn [mc_has_info mc_ename option_map replicate].
    by rewrite insert_mid, <- app_assoc. }
  clearbody m'. subst m'. cbn [world heap_live fds_live glob].
  eapply (mid_step _ _ _ _ _ (mid fd info ctl cs infos
    (MixerCtl true (Some (a, (ls ++ [(a', name)]) ++ replicate k (0, [])))) i rest) _ _ w' (block a'))
    in Hm; cbn [mid mx_fd mx_ctl_addr mx_info_addr mx_count mx_ctl mx_info]; try done.
  2:{ rewrite !all_blocks_app. cbn [all_blocks foldr ctl_blocks mc_ename].
      rewrite !name_blocks_app. cbn [replicate name_blocks foldr fst]. 
      change (foldr (fun (e : Z * bytes) n => block e.1 + n) 0) with name_blocks. 
      rewrite name_blocks_empty. change (block 0) with 0. lia. }
  2:{ rewrite !length_app. done. }
  2:{ apply Forall2_app; [done|]. constructor.
      - unfold ctl_ok. cbn [mc_ename mc_has_info]. split_and!; [done..|].
        rewrite !length_app, length_replicate. cbn [length]. lia.
      - apply Forall2_replicate. done. }
  cbn [world heap_live fds_live glob] in Hm.
  destruct (a' =? 0).
  - apply yields_ret. eexists. split; [|exact Hm]. rewrite !length_app, length_replicate. cbn [length]. lia.
  - replace (Datatypes.S (length ls)) with (length (ls ++ [(a', name)])) by (rewrite length_app; cbn; lia).
    eapply IH; [exact Hm|done|rewrite length_app; cbn [length]; lia|done].
Qed.

(** [rest] controls to go. *)
Definition so_far (fd info ctl : Z) (cs : list mixer_ctl) (infos : list snd_ctl_elem_info) (rest : nat) : mixer :=
  MkMixer fd info ctl (Z.of_nat (length cs + rest))
    (infos ++ replicate rest info_zero) (cs ++ replicate rest (MixerCtl false None)).

Lemma so_far_snoc fd info ctl cs infos c i rest :
  mid fd info ctl cs infos c i rest = so_far fd info ctl (cs ++ [c]) (infos ++ [i]) rest.
Proof.
  unfold mid, so_far. rewrite <- !app_assoc. cbn [app]. f_equal. rewrite length_app. cbn [length]. lia.
Qed.

(** A change of the control being filled in. *)
Lemma mid_change p h f e fd info ctl cs infos c i c' i' rest s w n :
  mid_owned p h f e (mid fd info ctl cs infos c i rest) fd s ->
  Forall2 ctl_ok cs infos -> ctl_ok c' i' -> ctl_blocks c' = ctl_blocks c + n ->
  mid_owned p h f e (mid fd info ctl cs infos c' i' rest) fd
    (Mach w (heap_live s + n) (fds_live s) (<[p := mid fd info ctl cs infos c' i' rest]> (glob s))).
Proof.
  intros Hm Hok Hc Hn. eapply mid_step; [exact Hm|done..| | |]; cbn [mid mx_ctl mx_info].
  - rewrite !all_blocks_app. cbn [all_blocks foldr]. lia.
  - by rewrite !length_app.
  - apply Forall2_app; [done|]. constructor; [done|]. by apply Forall2_replicate.
Qed.

Lemma read_ctls_run ids : forall p h f e fd info ctl cs infos s,
  mid_owned p h f e (so_far fd info ctl cs infos (length ids)) fd s -> Forall2 ctl_ok cs infos ->
  yields (read_ctls ids p fd (length cs)) s (fun _ s' => exists m, mid_owned p h f e m fd s').
Proof.
  induction ids as [|numid ids IH]; intros p h f e fd info ctl cs infos s Hm Hok; cbn [read_ctls].
  { apply yields_ret. eauto. }
  apply yields_world. intros [[r ei] name] w _. apply (mid_world _ _ _ _ _ _ _ w) in Hm.
  destruct (r <? 0); [apply yields_ret; eauto|].
  eapply yields_put_mixer; [by destruct Hm|].
  change (so_far fd info ctl cs infos (length (numid :: ids)))
    with (mid fd info ctl cs infos (MixerCtl false None) info_zero (length ids)) in *.
  set (m' := with_info _ _ _).
  assert (length cs = length infos) as El by (by eapply Forall2_length).
  assert (m' = mid fd info ctl cs infos (MixerCtl true None) ei (length ids)) as Em'.
  { unfold m', with_info, mid. cbn [mx_fd mx_info_addr mx_ctl_addr mx_count mx_info mx_ctl].
    rewrite alter_mid, El, insert_mid. done. }
  clearbody m'. subst m'. cbn [world heap_live fds_live glob].
  apply (mid_change _ _ _ _ _ _ _ _ _ _ _ (MixerCtl true None) ei _ _ w 0) in Hm; [|done..].
  cbn [heap_live fds_live glob] in Hm. rewrite Z.add_0_r in Hm.
  set (s1 := Mach w _ _ _) in *. clearbody s1.
  apply yields_bind with (P := fun ok s' => exists c,
    mid_owned p h f e (mid fd info ctl cs infos c ei (length ids)) fd s' /\ ctl_ok c ei).
  - destruct (ei_type ei =? _); [|apply yields_ret; eexists; by split; [exact Hm|]].
    apply yields_block. intros a w1. destruct (Z.eqb_spec a 0) as [->|Ha].
    { apply yields_ret. eexists. change (block 0) with 0. rewrite Z.add_0_r.
      split; [by apply mid_world|done]. }
    eapply yields_put_mixer; [by destruct Hm|].
    set (m' := with_ename _ _ _).
    assert (m' = mid fd info ctl cs infos
      (MixerCtl true (Some (a, replicate (Z.to_nat (ei_items ei)) (0, [])))) ei (length ids)) as Em'.
    { unfold m', with_ename, mid. cbn [mx_fd mx_info_addr mx_ctl_addr mx_count mx_info mx_ctl].
      by rewrite alter_mid. }
    clearbody m'. subst m'. cbn [world heap_live fds_live glob].
    apply (mid_change _ _ _ _ _ _ _ _ _ _ _
      (MixerCtl true (Some (a, replicate (Z.to_nat (ei_items ei)) (0, [])))) ei _ _ w1 (block a)) in Hm;
      [|done|..].
    2:{ unfold ctl_ok. cbn. split_and!; [done..|by rewrite length_replicate]. }
    2:{ unfold ctl_blocks. cbn [mc_ename]. rewrite name_blocks_empty. unfold block.
        rewrite (proj2 (Z.eqb_neq a 0) Ha). lia. }
    eapply yields_mono; [eapply (read_names_run _ _ _ _ _ _ _ _ _ _ _ []); [exact Hm|done|done|done]|].
    intros ok s2 (l & Hl & Hm2). eexists. split; [exact Hm2|]. by split_and!.
  - intros ok s2 (c & Hm2 & Hc). destruct ok.
    + replace (Datatypes.S (length cs)) with (length (cs ++ [c])) by (rewrite length_app; cbn; lia).
      rewrite so_far_snoc in Hm2. eapply IH; [exact Hm2|]. by apply Forall2_app; repeat constructor.
    + apply yields_ret. eauto.
Qed.

(** *** The whole life *)

Lemma mixer_open_fail_run p h f e m eid s :
  owns p h f e m s -> e = block eid ->
  yields (open_fail p eid) s (fun r s' => r = 0 /\ heap_live s' = h /\ fds_live s' = f).
Proof.
  intros Ho ->. unfold open_fail.
  apply (yields_freed _ _ (block eid)).
  { destruct (eid =? 0) eqn:E; [apply Z.eqb_eq in E; rewrite E; apply yields_ret, freed_zero|
      apply c_free_freed]. }
  intros s1 (Ew & Eg & Ef & Eh).
  assert (owns p h f 0 m s1) as Ho1.
  { destruct Ho. split; try done; rewrite ?Eg, ?Ef; try done. lia. }
  eapply yields_bind; [by eapply mixer_close_run|]. intros ? s2 (Hh & Hf & _). apply yields_ret.
  split_and!; [done|lia|done].
Qed.

(** From the second list on. *)
Lemma open_ctls_run p h f fd count eid info ctl s :
  glob s !! p = Some (with_arrays ctl info count mixer_zero) -> p <> 0 -> ctl <> 0 -> info <> 0 ->
  eid <> 0 -> 0 <= count -> 0 <= fd -> heap_live s = h + 4 -> fds_live s = f + 1 ->
  yields (open_ctls p fd count eid) s (fun r s' =>
    r = 0 /\ heap_live s' = h /\ fds_live s' = f \/ r = p /\ exists m, mid_owned p h f 0 m fd s').
Proof.
  intros Ho Hp Hc Hi He Hn Hfd Hh Hf. unfold open_ctls.
  eapply yields_put_mixer; [exact Ho|].
  set (m1 := with_count _ _ _).
  assert (m1 = so_far fd info ctl [] [] (Z.to_nat count)) as Em.
  { unfold m1, with_count, with_arrays, so_far. cbn [mx_fd mx_info_addr mx_ctl_addr mx_info mx_ctl mixer_zero].
    rewrite (proj2 (Z.eqb_neq ctl 0) Hc), (proj2 (Z.eqb_neq info 0) Hi). cbn [length app].
    f_equal. lia. }
  clearbody m1. subst m1. set (s1 := Mach _ _ _ _).
  assert (mid_owned p h f 1 (so_far fd info ctl [] [] (Z.to_nat count)) fd s1) as Hm.
  { split; cbn [s1 so_far mx_fd mx_ctl_addr mx_info_addr mx_ctl mx_info mx_count glob heap_live fds_live
      length app]; try done.
    - apply lookup_insert_eq.
    - rewrite all_blocks_empty. unfold block. rewrite (proj2 (Z.eqb_neq info 0) Hi). lia.
    - rewrite length_replicate. lia.
    - by apply Forall2_replicate. }
  clearbody s1. apply yields_world. intros [[r n] ids] w _. apply (mid_world _ _ _ _ _ _ _ w) in Hm.
  set (s2 := Mach w _ _ _) in *. clearbody s2.
  assert (forall m s3, mid_owned p h f 1 m fd s3 -> yields (open_fail p eid) s3 (fun r s' =>
    r = 0 /\ heap_live s' = h /\ fds_live s' = f \/ r = p /\ exists m, mid_owned p h f 0 m fd s')) as Hfail.
  { intros m s3 H3. eapply yields_mono; [eapply mixer_open_fail_run; [by eapply mid_owns|]|].
    - unfold block. by rewrite (proj2 (Z.eqb_neq eid 0) He).
    - intros ? ? ?. by left. }
  destruct (r <? 0); [by eapply Hfail|].
  set (l := take (Z.to_nat count) (ids ++ zeros count)).
  assert (length l = Z.to_nat count) as El.
  { unfold l, zeros. rewrite length_take, length_app, length_replicate. lia. }
  rewrite <- El in Hm.
  eapply yields_bind; [eapply (read_ctls_run _ _ _ _ _ _ _ _ [] []); [exact Hm|done]|].
  intros ok s3 (m & H3). destruct ok; [|by eapply Hfail].
  eapply yields_freed; [apply c_free_freed|]. intros s4 (Ew & Eg & Ef & Eh).
  apply yields_ret. right. split; [done|]. exists m. unfold block in Eh.
  rewrite (proj2 (Z.eqb_neq eid 0) He) in Eh.
  destruct H3. split; rewrite ?Eg, ?Ef; try done. lia.
Qed.

Lemma mixer_open_run card s :
  (forall fd space w, 0 <= snd (fst (fst (mix_list fd space w)))) ->
  yields (mixer_open card) s (fun p s' =>
    p = 0 /\ heap_live s' = heap_live s /\ fds_live s' = fds_live s \/
    exists m fd, mid_owned p (heap_live s) (fds_live s) 0 m fd s').
Proof.
  intros Hlist. unfold mixer_open.
  apply yields_open. intros fd w.
  destruct (Z.ltb_spec fd 0) as [Hfd|Hfd]; [by left|].
  set (h := heap_live s). set (f := fds_live s).
  assert (forall s1, heap_live s1 = h -> fds_live s1 = f + 1 ->
    yields (c_close fd ;;; ret 0) s1 (fun p s' => p = 0 /\ heap_live s' = h /\ fds_live s' = f \/
      exists m fd', mid_owned p h f 0 m fd' s')) as Hclose.
  { intros s1 Eh Ef. unfold yields, bind, c_close, ret. left. cbn [heap_live fds_live].
    rewrite (proj2 (Z.ltb_ge fd 0) Hfd). split_and!; [done|done|lia]. }
  apply yields_world. intros [[r count] ids] w1 El.
  pose proof (Hlist fd 0 (world (Mach w h (f + 1) (glob s)))) as Hcount.
  cbn [world] in El, Hcount. rewrite El in Hcount. cbn [fst snd] in Hcount.
  destruct (r <? 0); [by apply Hclose|].
  apply yields_block. intros p w2. cbn [world heap_live fds_live glob].
  destruct (Z.eqb_spec p 0) as [->|Hp]; [apply Hclose; [apply Z.add_0_r|done]|].
  unfold block at 1. rewrite (proj2 (Z.eqb_neq p 0) Hp).
  apply yields_set_glob. cbn [world heap_live fds_live glob].
  apply yields_block. intros ctl w3. apply yields_block. intros info w4.
  cbn [world heap_live fds_live glob].
  eapply yields_put_mixer; [apply lookup_insert_eq|]. cbn [world heap_live fds_live glob].
  rewrite insert_insert_eq. set (m0 := with_arrays ctl info count mixer_zero).
  set (s4 := Mach _ _ _ _).
  assert (owns p h f 0 m0 s4) as Ho.
  { split; cbn [s4 m0 with_arrays mx_fd mx_ctl_addr mx_info_addr mx_ctl mx_count mixer_zero glob
      heap_live fds_live]; try done; try lia.
    - apply lookup_insert_eq.
    - assert (all_blocks (if ctl =? 0 then [] else replicate (Z.to_nat count) (MixerCtl false None)) = 0) as ->
        by (destruct (ctl =? 0); [done|apply all_blocks_empty]). lia.
    - intros Hc. left. split; [done|]. rewrite (proj2 (Z.eqb_neq ctl 0) Hc). apply all_blocks_empty.
    - intros ->. done. }
  assert (forall eid s5, eid = 0 -> owns p h f 0 m0 s5 -> yields (open_fail p eid) s5
    (fun p s' => p = 0 /\ heap_live s' = h /\ fds_live s' = f \/
      exists m fd', mid_owned p h f 0 m fd' s')) as Hfail.
  { intros eid s5 -> H5. eapply yields_mono; [by eapply mixer_open_fail_run|]. intros ? ? ?. by left. }
  destruct ((ctl =? 0) || (info =? 0)) eqn:Eb; [by apply Hfail|]. apply orb_false_iff in Eb as [Ec Ei].
  apply yields_block. intros eid w5.
  destruct (Z.eqb_spec eid 0) as [->|He].
  { apply Hfail; [done|]. change (block 0) with 0. rewrite Z.add_0_r. by destruct Ho; split. }
  apply Z.eqb_neq in Ec, Ei.
  eapply yields_mono; [eapply (open_ctls_run p h f fd count eid info ctl); try done|].
  - apply lookup_insert_eq.
  - cbn [s4 heap_live]. unfold block.
    rewrite (proj2 (Z.eqb_neq ctl 0) Ec), (proj2 (Z.eqb_neq info 0) Ei), (proj2 (Z.eqb_neq eid 0) He). lia.
  - intros q s5 [?|[-> (m & Hm)]]; [by left|]. right. eauto.
Qed.
End Life.
