(* ===== verification/MixerTheorems.v ===== *)
(** * libcodec_audio: properties of the mixer

    Building and closing a mixer under every answer of the kernel and of the
    allocator; controls over a device that keeps what is written to it
    ([MixDev]); percentages. *)

From S2P Require Import Prelude CLib Os Snd Mixer MixerLife.

(** ** A card with three controls

    A concrete control device, with the laws of [MixDev]: a switch, a volume and
    an enumeration whose values are kept as they are written.  Allocations fail
    from a chosen one on.  It models no code of the repository. *)

Record mix_world := MixWorld {
  mw_next : Z;                       (* the next address *)
  mw_allocs : Z;                     (* how many more allocations succeed *)
  mw_vals : gmap Z (list Z);
  mw_card : list (snd_ctl_elem_info * list bytes);
  mw_closed : list Z;                (* the descriptors closed *)
}.

#[export] Instance mix_os : OsOps mix_world := {
  os_malloc := fun _ w =>
    if mw_allocs w =? 0 then (0, w)
    else (mw_next w, MixWorld (mw_next w + 1) (mw_allocs w - 1) (mw_vals w) (mw_card w) (mw_closed w));
  os_open := fun _ w => (3, w);
  os_close := fun fd w => MixWorld (mw_next w) (mw_allocs w) (mw_vals w) (mw_card w) (fd :: mw_closed w);
  os_lseek := fun _ off w => (off, w);
  os_read := fun _ _ w => (0, [], w);
  os_write := fun _ b w => (lenZ b, w);
  os_fsync := fun _ w => w;
  os_ioctl := fun _ _ _ b w => (0, b, w);
  os_access := fun _ _ => 0;
}.

Definition values (w : mix_world) (n : Z) : list Z := default [] (mw_vals w !! n).

#[export] Instance mix_ops : MixOps mix_world := {
  mix_list := fun _ space w =>
    let n := lenZ (mw_card w) in
    (0, n, take (Z.to_nat space) (map (fun e => ei_numid (fst e)) (mw_card w)), w);
  mix_info := fun _ numid item w =>
    match mw_card w !! Z.to_nat (numid - 1) with
    | Some (i, names) => (0, i, default [] (names !! Z.to_nat item), w)
    | None => (-22, info_zero, [], w)
    end;
  mix_read := fun _ n w => (0, values w n, w);
  mix_write := fun _ n v w =>
    (0, MixWorld (mw_next w) (mw_allocs w) (<[n := v]> (mw_vals w)) (mw_card w) (mw_closed w));
}.

#[export] Program Instance mix_dev : MixDev mix_world := {
  mix_val := values;
  mix_accepts := fun _ _ => True;
}.
Next Obligation. done. Qed.
Next Obligation.
  intros fd n v w _. eexists. split; [reflexivity|]. unfold values. cbn [mw_vals]. split.
  - by rewrite lookup_insert_eq.
  - intros m Hm. by rewrite lookup_insert_ne by congruence.
Qed.

Definition card_ctls : list (snd_ctl_elem_info * list bytes) :=
  [(ElemInfo 1 (str "sw") SNDRV_CTL_ELEM_TYPE_BOOLEAN 1 0 1 0, []);
   (ElemInfo 2 (str "vol") SNDRV_CTL_ELEM_TYPE_INTEGER 1 0 62 0, []);
   (ElemInfo 3 (str "out") SNDRV_CTL_ELEM_TYPE_ENUMERATED 1 0 0 2, [str "spk"; str "hp"])].
Definition card_vals : gmap Z (list Z) := {[1 := [0]; 2 := [0]; 3 := [0]]}.
Definition card_short (n : Z) : mix_world := MixWorld 100 n card_vals card_ctls [].
Definition card_world : mix_world := card_short 1000.

(** The card's mixer, built at address 7. *)
Definition card_mixer : mixer :=
  MkMixer 3 8 9 3 (map fst card_ctls)
    [MixerCtl true None; MixerCtl true None;
     MixerCtl true (Some (10, [(11, str "spk"); (12, str "hp")]))].
Definition card_state (w : mix_world) : mach mix_world (gmap Z mixer) := Mach w 6 1 {[7 := card_mixer]}.

Section Theorems.
Context {W : Type} `{OsOps W, MixOps W}.
Abbreviation S := (mach W (gmap Z mixer)).

(** C33: Building a mixer and closing it, whatever the kernel answers at each
    ioctl and whichever allocation fails, of the arrays, of the names of an
    enumeration or of one of their strings: [mixer_open] returns; when it
    returns NULL all the memory it took is free again, and when it returns a
    mixer, [mixer_close] gives back all its memory and its descriptor. *)
Theorem mixer_leaves_nothing card (s : S) :
  (forall fd space w, 0 <= snd (fst (fst (mix_list fd space w)))) ->
  exists p s1, mixer_open card s = Done p s1 /\
    (p = 0 /\ heap_live s1 = heap_live s \/
     p <> 0 /\ exists s2, mixer_close p s1 = Done tt s2 /\
       heap_live s2 = heap_live s /\ fds_live s2 = fds_live s /\ glob s2 !! p = None).
Proof.
  intros Hlist. destruct (yields_Done _ _ _ (mixer_open_run card s Hlist)) as (p & s1 & E & Hp).
  exists p, s1. split; [done|]. destruct Hp as [(-> & Hh & _)|(m & fd & Hm)]; [by left|right].
  apply mid_owns in Hm. split; [by destruct Hm|].
  destruct (yields_Done _ _ _ (mixer_close_run _ _ _ _ _ _ Hm)) as ([] & s2 & E2 & Hh & Hf & Hg).
  exists s2. split_and!; [done|lia|done|done].
Qed.

(** When an array of the mixer cannot be had, the mixer does not know its
    descriptor yet and still holds the zero of [calloc]: [mixer_close] closes
    descriptor 0 of the process, and the one that was opened stays open. *)
Theorem mixer_open_closes_stdin card fd r count ids p info w1 w2 w3 w4 w5 (s : S) :
  os_open (control_path card) (world s) = (fd, w1) -> 0 <= fd ->
  mix_list fd 0 w1 = (r, count, ids, w2) -> 0 <= r ->
  os_malloc SIZEOF_mixer w2 = (p, w3) -> p <> 0 ->
  os_malloc (count * SIZEOF_mixer_ctl) w3 = (0, w4) ->
  os_malloc (count * SIZEOF_elem_info) w4 = (info, w5) ->
  exists s', mixer_open card s = Done 0 s' /\ world s' = os_close 0 w5.
Proof.
  intros E1 Hfd E2 Hr E3 Hp E4 E5. unfold mixer_open.
  unfold bind at 1, c_open. rewrite E1. cbn beta iota. rewrite (proj2 (Z.ltb_ge fd 0) Hfd).
  erewrite bind_on_world by exact E2. cbn beta iota. rewrite (proj2 (Z.ltb_ge r 0) Hr).
  unfold bind at 1, c_malloc at 1. cbn [world]. rewrite E3. cbn beta iota.
  rewrite (proj2 (Z.eqb_neq p 0) Hp). mrun.
  unfold bind at 1, c_malloc at 1. cbn [world]. rewrite E4. cbn beta iota.
  unfold bind at 1, c_malloc at 1. cbn [world]. rewrite E5. cbn beta iota.
  unfold put_mixer, the_mixer, id. mrun. rewrite lookup_insert_eq. mrun.
  unfold open_fail, mixer_close. mrun. rewrite (proj2 (Z.eqb_neq p 0) Hp).
  unfold the_mixer, id. mrun. rewrite lookup_insert_eq. mrun.
  cbn [with_arrays mx_fd mx_ctl_addr mx_info_addr mixer_zero Z.leb Z.compare].
  unfold bind at 1, c_close at 1. cbn [world Z.ltb Z.compare]. mrun.
  destruct (info =? 0) eqn:Ei; mrun; (eexists; split; [reflexivity|]; cbn [world]; done).
Qed.

(** ** Values *)

(** The control [c] is described by [i], on a mixer open on [fd]. *)
Definition ctl_live (c : Z * Z) (fd : Z) (i : snd_ctl_elem_info) (s : S) : Prop :=
  exists m, glob s !! fst c = Some m /\ mx_fd m = fd /\ mx_info m !! Z.to_nat (snd c) = Some i.

Lemma run_ctl_info {B} (k : Z * snd_ctl_elem_info -> M S B) c fd i s :
  ctl_live c fd i s -> bind (ctl_info c) k s = k (fd, i) s.
Proof.
  intros (m & Eg & <- & Ei). unfold ctl_info, the_mixer, id. mrun. rewrite Eg. mrun. rewrite Ei. by mrun.
Qed.

(** What a control of each type keeps of a value, when it has one. *)
Definition kept (t value : Z) : option Z :=
  if t =? SNDRV_CTL_ELEM_TYPE_BOOLEAN then Some (if value =? 0 then 0 else 1)
  else if t =? SNDRV_CTL_ELEM_TYPE_INTEGER then Some value
  else if t =? SNDRV_CTL_ELEM_TYPE_ENUMERATED then Some (u32 value)
  else None.

Section Device.
Context `{!MixDev W}.

(** A write: the device keeps the value, and nothing else of the machine moves. *)
Lemma set_value_run c fd i id v x s :
  ctl_live c fd i s -> 0 <= id < ei_count i -> id < lenZ (mix_val (world s) (ei_numid i)) ->
  kept (ei_type i) v = Some x ->
  mix_accepts (ei_numid i) (<[Z.to_nat id := x]> (mix_val (world s) (ei_numid i))) ->
  exists w, mixer_ctl_set_value (Some c) id v s = Done 0 (Mach w (heap_live s) (fds_live s) (glob s)) /\
    mix_val w (ei_numid i) = <[Z.to_nat id := x]> (mix_val (world s) (ei_numid i)) /\
    forall n, n <> ei_numid i -> mix_val w n = mix_val (world s) n.
Proof.
  intros Hl Hid Hlen Hk Hacc. unfold mixer_ctl_set_value. rewrite (run_ctl_info _ _ _ _ _ Hl).
  rewrite (proj2 (Z.leb_gt (ei_count i) id)) by lia.
  erewrite bind_on_world by apply mix_read_law. cbn [Z.ltb Z.compare]. fold (kept (ei_type i) v).
  rewrite Hk. destruct (mix_write_law fd _ _ (world s) Hacc) as (w & Ew & Hv & Ho).
  exists w. split; [|done].
  destruct (lookup_lt_is_Some_2 (mix_val (world s) (ei_numid i)) (Z.to_nat id)) as [y Ey];
    [unfold lenZ in Hlen; lia|].
  rewrite Ey. mrun. unfold on_world. cbn [world heap_live fds_live glob]. by rewrite Ew.
Qed.

Lemma get_value_run c fd i id x s :
  ctl_live c fd i s -> 0 <= id < ei_count i ->
  mix_val (world s) (ei_numid i) !! Z.to_nat id = Some x ->
  mixer_ctl_get_value (Some c) id s =
  Done (if ei_type i =? SNDRV_CTL_ELEM_TYPE_BOOLEAN then (if x =? 0 then 0 else 1)
        else if (ei_type i =? SNDRV_CTL_ELEM_TYPE_INTEGER) ||
                (ei_type i =? SNDRV_CTL_ELEM_TYPE_ENUMERATED) ||
                (ei_type i =? SNDRV_CTL_ELEM_TYPE_BYTES) then s32 x else - EINVAL) s.
Proof.
  intros Hl Hid Hx. unfold mixer_ctl_get_value. rewrite (run_ctl_info _ _ _ _ _ Hl).
  rewrite (proj2 (Z.leb_gt (ei_count i) id)) by lia.
  erewrite bind_on_world by apply mix_read_law. cbn [Z.ltb Z.compare]. rewrite Hx. mrun.
  by destruct s.
Qed.

(** C34: A value written to a control is read back: 0 or 1 of a boolean, the
    value itself of an integer, the item's number of an enumeration.  Every
    other control of the device, and every other value of this one, is as it
    was. *)
Theorem ctl_set_get c fd i id v x (s : S) :
  ctl_live c fd i s -> 0 <= id < ei_count i -> id < lenZ (mix_val (world s) (ei_numid i)) ->
  kept (ei_type i) v = Some x ->
  mix_accepts (ei_numid i) (<[Z.to_nat id := x]> (mix_val (world s) (ei_numid i))) ->
  exists s', mixer_ctl_set_value (Some c) id v s = Done 0 s' /\
    mixer_ctl_get_value (Some c) id s' = Done (s32 x) s' /\
    (forall j, j <> Z.to_nat id ->
       mix_val (world s') (ei_numid i) !! j = mix_val (world s) (ei_numid i) !! j) /\
    (forall n, n <> ei_numid i -> mix_val (world s') n = mix_val (world s) n).
Proof.
  intros Hl Hid Hlen Hk Hacc.
  destruct (set_value_run c fd i id v x s Hl Hid Hlen Hk Hacc) as (w & E & Hv & Ho).
  eexists. split; [exact E|]. cbn [world]. split_and!; [|by intros j Hj; rewrite Hv, list_lookup_insert_ne|done].
  erewrite (get_value_run c fd i id x); [|exact Hl|done|].
  2:{ cbn [world]. rewrite Hv. apply list_lookup_insert_eq. unfold lenZ in Hlen. lia. }
  f_equal. unfold kept in Hk.
  destruct (ei_type i =? SNDRV_CTL_ELEM_TYPE_BOOLEAN); [destruct (v =? 0); by injection Hk as <-|].
  destruct (ei_type i =? SNDRV_CTL_ELEM_TYPE_INTEGER); [done|].
  by destruct (ei_type i =? SNDRV_CTL_ELEM_TYPE_ENUMERATED).
Qed.
End Device.

(** ** Percentages *)

(** A range whose hundredfold an [int] holds. *)
Definition range_ok (i : snd_ctl_elem_info) : Prop :=
  -2147483648 <= ei_min i <= ei_max i /\ ei_max i < 2147483648 /\
  (ei_max i - ei_min i) * 100 < 2147483648.

Lemma percent_to_int_eq i p :
  range_ok i -> 0 <= p <= 100 ->
  percent_to_int i p = ei_min i + (ei_max i - ei_min i) * p / 100.
Proof.
  intros (Hr & Hmax & H100) Hp. unfold percent_to_int.
  rewrite (proj2 (Z.ltb_ge 100 p)), (proj2 (Z.ltb_ge p 0)) by lia.
  rewrite (s32_small (ei_max i - ei_min i)) by lia.
  assert (0 <= (ei_max i - ei_min i) * p <= (ei_max i - ei_min i) * 100) as Hm by nia.
  rewrite (s32_small (_ * p)) by lia. rewrite Z.quot_div_nonneg by lia.
  assert (0 <= (ei_max i - ei_min i) * p / 100 <= ei_max i - ei_min i).
  { split; [apply Z.div_pos; lia|]. apply Z.div_le_upper_bound; lia. }
  apply s32_small. lia.
Qed.

(** A percentage sets a value between the bounds of the control, 0 the lower
    and 100 the upper one, and a larger percentage no smaller value; what is
    outside 0 to 100 counts as the nearer end. *)
Theorem percent_in_range i p q :
  range_ok i ->
  ei_min i <= percent_to_int i p <= ei_max i /\
  (p <= 0 -> percent_to_int i p = ei_min i) /\ (100 <= p -> percent_to_int i p = ei_max i) /\
  (p <= q -> percent_to_int i p <= percent_to_int i q).
Proof.
  intros Hr. assert (forall p, percent_to_int i p = percent_to_int i (Z.max 0 (Z.min 100 p))) as Hclamp.
  { assert (forall z, (if 100 <? z then 100 else if z <? 0 then 0 else z) = Z.max 0 (Z.min 100 z)) as Hc
      by (intros z; destruct (Z.ltb_spec 100 z), (Z.ltb_spec z 0); lia).
    intros r. unfold percent_to_int. rewrite !Hc. by replace (Z.max 0 (Z.min 100 (Z.max 0 (Z.min 100 r)))) with (Z.max 0 (Z.min 100 r)) by lia. }
  rewrite (Hclamp p), (Hclamp q), !percent_to_int_eq by (done || lia).
  destruct Hr as (Hr & Hmax & H100). set (r := ei_max i - ei_min i) in *.
  assert (forall a, 0 <= a <= 100 -> 0 <= r * a / 100 <= r) as Hb.
  { intros a Ha. split; [apply Z.div_pos; nia|]. apply Z.div_le_upper_bound; nia. }
  split_and!.
  - specialize (Hb (Z.max 0 (Z.min 100 p))). lia.
  - specialize (Hb (Z.max 0 (Z.min 100 p))). lia.
  - intros Hp. replace (Z.max 0 (Z.min 100 p)) with 0 by lia. rewrite Z.mul_0_r. change (0 / 100) with 0. lia.
  - intros Hp. replace (Z.max 0 (Z.min 100 p)) with 100 by lia. rewrite Z.div_mul by lia. lia.
  - intros Hpq. apply Z.add_le_mono_l, Z.div_le_mono; [lia|]. nia.
Qed.

(** The percentage of a control is not read back: [int_to_percent] divides
    by the range before it multiplies, so every value below the maximum reads as
    0 percent. *)
Theorem percent_reads_zero i p :
  range_ok i -> ei_min i < ei_max i -> 0 <= p < 100 ->
  int_to_percent i (percent_to_int i p) = 0.
Proof.
  intros Hr Hlt Hp. rewrite percent_to_int_eq by (done || lia).
  destruct Hr as (Hr & Hmax & H100). unfold int_to_percent.
  rewrite (s32_small (ei_max i - ei_min i)) by lia.
  rewrite (proj2 (Z.eqb_neq _ 0)) by lia.
  assert (0 <= (ei_max i - ei_min i) * p / 100 < ei_max i - ei_min i).
  { split; [apply Z.div_pos; nia|]. apply Z.div_lt_upper_bound; nia. }
  set (q := (ei_max i - ei_min i) * p / 100) in *.
  replace (ei_min i + q - ei_min i) with q by lia.
  rewrite (s32_small q) by lia. by rewrite Z.quot_small by lia.
Qed.
End Theorems.

(** ** Witnesses *)

Lemma mixer_leaves_nothing_witness :
  (exists p s1, mixer_open 0 (Mach card_world 0 0 ∅) = Done p s1 /\ heap_live s1 = 6) /\
  (exists s1, mixer_open 0 (Mach (card_short 6) 0 0 ∅) = Done 0 s1) /\
  exists p s1, mixer_open 0 (Mach card_world 0 0 ∅) = Done p s1 /\
    (p = 0 /\ heap_live s1 = 0 \/
     p <> 0 /\ exists s2, mixer_close p s1 = Done tt s2 /\
       heap_live s2 = 0 /\ fds_live s2 = 0 /\ glob s2 !! p = None).
Proof.
  split_and!.
  - eexists _, _. vm_compute. split; reflexivity.
  - eexists. vm_compute. reflexivity.
  - apply (mixer_leaves_nothing 0 (Mach card_world 0 0 ∅)). intros fd space w. apply lenZ_nonneg.
Defined.

Lemma mixer_open_closes_stdin_witness :
  exists s', mixer_open 0 (Mach (card_short 1) 0 0 ∅) = Done 0 s' /\ mw_closed (world s') = [0].
Proof.
  destruct (mixer_open_closes_stdin 0 3 0 3 [] 100 0 (card_short 1)
              (card_short 1) (snd (os_malloc 16 (card_short 1)))
              (snd (os_malloc 36 (snd (os_malloc 16 (card_short 1)))))
              (snd (os_malloc 816 (snd (os_malloc 36 (snd (os_malloc 16 (card_short 1)))))))
              (Mach (card_short 1) 0 0 ∅)) as (s' & E & Ew);
    [vm_compute; reflexivity|lia|vm_compute; reflexivity|lia|vm_compute; reflexivity|lia|
     vm_compute; reflexivity|vm_compute; reflexivity|].
  exists s'. split; [exact E|]. by rewrite Ew.
Defined.

Lemma ctl_set_get_witness :
  exists s', mixer_ctl_set_value (Some (7, 0)) 0 5 (card_state card_world) = Done 0 s' /\
    mixer_ctl_get_value (Some (7, 0)) 0 s' = Done 1 s' /\
    (forall j, j <> 0%nat -> mix_val (world s') 1 !! j = mix_val card_world 1 !! j) /\
    (forall n, n <> 1 -> mix_val (world s') n = mix_val card_world n).
Proof.
  apply (ctl_set_get (7, 0) 3 (ElemInfo 1 (str "sw") SNDRV_CTL_ELEM_TYPE_BOOLEAN 1 0 1 0) 0 5 1
           (card_state card_world)); try done.
  eexists. split_and!; [vm_compute; reflexivity|reflexivity|reflexivity].
Defined.

Definition vol_info : snd_ctl_elem_info := ElemInfo 2 (str "vol") SNDRV_CTL_ELEM_TYPE_INTEGER 1 0 62 0.

Lemma percent_in_range_witness :
  range_ok vol_info /\ ei_min vol_info <= percent_to_int vol_info 50 <= ei_max vol_info /\
  (50 <= 0 -> percent_to_int vol_info 50 = ei_min vol_info) /\
  (100 <= 50 -> percent_to_int vol_info 50 = ei_max vol_info) /\
  (50 <= 70 -> percent_to_int vol_info 50 <= percent_to_int vol_info 70).
Proof.
  assert (range_ok vol_info) as Hr by (unfold range_ok, vol_info; cbn; lia).
  split; [exact Hr|]. exact (percent_in_range vol_info 50 70 Hr).
Defined.

Lemma percent_reads_zero_witness :
  percent_to_int vol_info 99 = 61 /\ int_to_percent vol_info (percent_to_int vol_info 99) = 0.
Proof.
  split; [reflexivity|]. apply (percent_reads_zero vol_info 99); unfold range_ok, vol_info; cbn; lia.
Defined.
