(* ===== verification/Codec.v ===== *)
(** * libcodec_audio: the client and its controls

    [codec_utils.c] ([get_mixer]), [codec_utils.h] and [hal_codec.h]: the table of
    the sound card's controls, the volume tables, the client object the audio
    HAL holds, and the small steps the routing plans are made of. *)

From stdpp Require Import strings.
From S2P Require Import Prelude CLib Os Snd Mixer.

(** ** Data *)

(** [struct mixer_ctls], by its fields. *)
Inductive ctl_field :=
| adc_left_chan_vol | adc_right_chan_vol | adc_left_chan_input_gain_ctrl
| adc_right_chan_input_gain_ctrl | dac_left_chan_vol | dac_right_chan_vol
| dac_left_chan_mixer_gain_ctrl | dac_right_chan_mixer_gain_ctrl | mic1_boost_amp_gain_ctrl
| mic2_boost_amp_gain_ctrl | linein_l_r_boost_amp_gain_ctrl | auxi_boost_amp_gain_ctrl
| axin_to_l_r_output_mixer_gain_ctrl | mic1_to_l_r_output_mixer_gain_ctrl
| mic2_to_l_r_output_mixer_gain_ctrl | linein_to_l_r_output_mixer_gain_ctrl
| headphone_vol_ctrl | earpiece_vol_ctrl | speaker_vol_ctrl | lineout_gain_ctrl
| audio_phone_out | audio_phone_in | audio_phone_in_left | audio_earpiece_out
| audio_headphone_out | audio_speaker_out | audio_speaker_out_left
| audio_headphone_out_left | audio_phone_main_mic | audio_phone_headset_mic
| audio_phone_voice_record | audio_phone_end_call | audio_linein_record | audio_linein_in
| audio_noise_adcin_reduced | audio_spk_headset_switch | audio_analog_bt_mic
| audio_analog_bt_phonein | audio_bt_out | audio_bt_clk_fmt | audio_digital_main_mic
| audio_digital_headset_mic | audio_digital_phone_out | audio_digital_dac_out
| audio_digital_phonein | audio_digital_clk_fmt_status | audio_digital_noise_reduced
| audio_digital_bt_mic | audio_digital_bt_phonein | audio_bb_bt_clk_fmt | audio_i2s_pcm_sel
| audio_digital_bb_capture_mic | audio_digital_bb_capture_bt
| Audio_analog_bb_capture_mainmic | audio_analog_bb_capture_headsetmic
| audio_analog_bb_capture_bt.
#[global] Instance ctl_field_eq : EqDecision ctl_field.
Proof. solve_decision. Defined.

(** *** The controls [get_mixer] looks up, in its order *)

(** The volumes and gains. *)
Definition volume_ctls : list (ctl_field * string) := [
  (adc_left_chan_vol, "ADC left channel volume");
  (adc_right_chan_vol, "ADC right channel volume");
  (adc_left_chan_input_gain_ctrl, "ADC left channel input gain control");
  (adc_right_chan_input_gain_ctrl, "ADC right channel input gain control");
  (dac_left_chan_vol, "DAC left channel volume");
  (dac_right_chan_vol, "DAC right channel volume");
  (dac_left_chan_mixer_gain_ctrl, "DAC left channel mixer gain control");
  (dac_right_chan_mixer_gain_ctrl, "DAC right channel mixer gain control");
  (mic1_boost_amp_gain_ctrl, "MIC1 boost amplifier gain control");
  (mic2_boost_amp_gain_ctrl, "MIC2 boost amplifier gain control");
  (linein_l_r_boost_amp_gain_ctrl, "LINEINL-LINEINR pre-amplifier gain control");
  (auxi_boost_amp_gain_ctrl, "AUXI pre-amplifier gain control");
  (axin_to_l_r_output_mixer_gain_ctrl, "AXin to L_R output mixer gain ctr");
  (mic1_to_l_r_output_mixer_gain_ctrl, "MIC1 BST stage to L_R outp mixer gain ctr");
  (mic2_to_l_r_output_mixer_gain_ctrl, "MIC2 BST stage to L_R outp mixer gain ctr");
  (linein_to_l_r_output_mixer_gain_ctrl, "LINEINL/R to L_R output mixer gain ctr");
  (headphone_vol_ctrl, "headphone volume control");
  (earpiece_vol_ctrl, "earpiece volume control");
  (speaker_vol_ctrl, "speaker volume control");
  (lineout_gain_ctrl, "line out gain control");
  (lineout_gain_ctrl, "line out gain control")
]%string.
(** The outputs, microphones and switches. *)
Definition phone_ctls : list (ctl_field * string) := [
  (audio_phone_out, "Audio phone out");
  (audio_phone_in, "Audio phone in");
  (audio_phone_in_left, "Audio phone in left");
  (audio_earpiece_out, "Audio earpiece out");
  (audio_headphone_out, "Audio headphone out");
  (audio_speaker_out, "Audio speaker out");
  (audio_speaker_out_left, "Audio speaker out left");
  (audio_phone_main_mic, "Audio analog main mic");
  (audio_phone_headset_mic, "Audio analog headsetmic");
  (audio_phone_voice_record, "Audio phone voicerecord");
  (audio_phone_end_call, "Audio phone endcall");
  (audio_linein_record, "Audio linein record");
  (audio_linein_in, "Audio linein in");
  (audio_noise_adcin_reduced, "Audio noise adcin reduced");
  (audio_spk_headset_switch, "Speaker Function")
]%string.
(** The analog Bluetooth lines. *)
Definition bt_ctls : list (ctl_field * string) := [
  (audio_analog_bt_mic, "Audio analog bt mic");
  (audio_analog_bt_phonein, "Audio analog bt phonein");
  (audio_bt_out, "Audio bt out");
  (audio_bt_clk_fmt, "Audio bt clk format status")
]%string.
(** The digital base band lines. *)
Definition digital_ctls : list (ctl_field * string) := [
  (audio_digital_main_mic, "Audio digital main mic");
  (audio_digital_headset_mic, "Audio digital headset mic");
  (audio_digital_phone_out, "Audio digital phone out");
  (audio_digital_dac_out, "Audio digital dac out");
  (audio_digital_phonein, "Audio digital phonein");
  (audio_digital_clk_fmt_status, "Audio digital clk format status");
  (audio_bb_bt_clk_fmt, "Audio digital bb bt clk format");
  (audio_digital_bt_mic, "Audio digital bt mic");
  (audio_digital_bt_phonein, "Audio digital bt phonein");
  (audio_i2s_pcm_sel, "I2s Or Pcm Audio Mode Select format")
]%string.
(** The lines captured during a call. *)
Definition capture_ctls : list (ctl_field * string) := [
  (audio_digital_bb_capture_mic, "Audio digital bb capture mic");
  (audio_digital_bb_capture_bt, "Audio digital bb capture bt");
  (Audio_analog_bb_capture_mainmic, "Audio analog bb capture mainmic");
  (audio_analog_bb_capture_headsetmic, "Audio analog bb capture headsetmic");
  (audio_analog_bb_capture_bt, "Audio analog bb capture bt")
]%string.
Definition ctl_table : list (ctl_field * string) :=
  volume_ctls ++ phone_ctls ++ bt_ctls ++ digital_ctls ++ capture_ctls.

(** [struct volume_array]: a gain for each of six levels. *)
Record volume_array := VolumeArray {
  earpiece_phonepn_gain : list Z;
  earpiece_mixer_gain : list Z;
  earpiece_hp_gain : list Z;
  headset_phonepn_gain : list Z;
  headset_mixer_gain : list Z;
  headset_hp_gain : list Z;
  speaker_phonepn_gain : list Z;
  speaker_mixer_gain : list Z;
  speaker_spk_gain : list Z;
  fm_headset_line_gain : list Z;
  fm_headset_hp_gain : list Z;
  fm_speaker_line_gain : list Z;
  fm_speaker_spk_gain : list Z;
  up_pcm_gain : Z;
}.
Definition six_zeros : list Z := replicate 6 0.
Definition volume_zero : volume_array :=
  VolumeArray six_zeros six_zeros six_zeros six_zeros six_zeros six_zeros six_zeros six_zeros
    six_zeros six_zeros six_zeros six_zeros six_zeros 0.

(** The entries of [codec_devices[]]. *)
Inductive codec_plan := PAD | PLAN_ONE | PLAN_TWO.
#[global] Instance codec_plan_eq : EqDecision codec_plan.
Proof. solve_decision. Defined.

(** [struct codec_client]: the tables of operations are those of a plan or NULL,
    [mixer_ctls] and [vol_array] point to the static objects of [codec.c] or are
    NULL.  [record_ops] is never assigned: it keeps the NULL of [memset]. *)
Record codec_client := CodecClient {
  cc_mixer_ctls : bool;
  cc_normal_ops : option codec_plan;
  cc_fm_ops : option codec_plan;
  cc_factory_ops : option codec_plan;
  cc_phone_ops : option codec_plan;
  cc_vol_array : bool;
}.
Definition client_zero : codec_client := CodecClient false None None None None false.

(** The static variables of [plan_one.c] and of [plan_two.c], a record each
    ([fm_last_dev] is [plan_one.c]'s, [last_path_is_bt] is only assigned in
    [plan_two.c]). *)
Record plan_g := PlanG {
  no_earpiece : Z;
  end_call : bool;
  is_in_record : bool;
  bluetooth_in_record : bool;
  last_path_is_bt : bool;
  fm_last_dev : Z;
}.
Definition plan_initial : plan_g := PlanG 0 false false false false 0.
Definition set_no_earpiece v g :=
  PlanG v (end_call g) (is_in_record g) (bluetooth_in_record g) (last_path_is_bt g) (fm_last_dev g).
Definition set_end_call v g :=
  PlanG (no_earpiece g) v (is_in_record g) (bluetooth_in_record g) (last_path_is_bt g) (fm_last_dev g).
Definition set_in_record v g :=
  PlanG (no_earpiece g) (end_call g) v (bluetooth_in_record g) (last_path_is_bt g) (fm_last_dev g).
Definition set_bt_record v g :=
  PlanG (no_earpiece g) (end_call g) (is_in_record g) v (last_path_is_bt g) (fm_last_dev g).
Definition set_last_bt v g :=
  PlanG (no_earpiece g) (end_call g) (is_in_record g) (bluetooth_in_record g) v (fm_last_dev g).
Definition set_fm_last v g :=
  PlanG (no_earpiece g) (end_call g) (is_in_record g) (bluetooth_in_record g) (last_path_is_bt g) v.

(** The state of the library. *)
Record codec_g := CodecG {
  cg_mixers : gmap Z mixer;
  cg_ctls : ctl_field -> option (Z * Z);
  cg_vol : volume_array;
  cg_one : plan_g;
  cg_two : plan_g;
  cg_clients : gmap Z codec_client;
}.
Definition codec_initial : codec_g :=
  CodecG ∅ (fun _ => None) volume_zero plan_initial plan_initial ∅.
Definition with_mixers v g := CodecG v (cg_ctls g) (cg_vol g) (cg_one g) (cg_two g) (cg_clients g).
Definition with_ctl f v g :=
  CodecG (cg_mixers g) (fun x => if decide (x = f) then v else cg_ctls g x)
    (cg_vol g) (cg_one g) (cg_two g) (cg_clients g).
Definition with_vol v g := CodecG (cg_mixers g) (cg_ctls g) v (cg_one g) (cg_two g) (cg_clients g).
Definition with_one v g := CodecG (cg_mixers g) (cg_ctls g) (cg_vol g) v (cg_two g) (cg_clients g).
Definition with_two v g := CodecG (cg_mixers g) (cg_ctls g) (cg_vol g) (cg_one g) v (cg_clients g).
Definition with_clients v g := CodecG (cg_mixers g) (cg_ctls g) (cg_vol g) (cg_one g) (cg_two g) v.

(** The output devices of [system/audio.h]. *)
Definition AUDIO_DEVICE_OUT_EARPIECE : Z := 1.
Definition AUDIO_DEVICE_OUT_SPEAKER : Z := 2.
Definition AUDIO_DEVICE_OUT_WIRED_HEADSET : Z := 4.
Definition AUDIO_DEVICE_OUT_WIRED_HEADPHONE : Z := 8.
Definition AUDIO_DEVICE_OUT_BLUETOOTH_SCO_HEADSET : Z := 0x20.
Definition AUDIO_DEVICE_OUT_ALL_SCO : Z := 0x70.

(** A test [path & bit]. *)
Definition dev_on (path bit : Z) : bool := negb (Z.land path bit =? 0).

(** [property_get (key, value, default)]: its result and the string it stores. *)
Class PropOps (W : Type) := {
  prop_get : string -> string -> W -> Z * bytes;
}.

(** ** [atoi] on an array that may hold no NUL *)

Fixpoint digits_end (b : bytes) : bool :=
  match b with [] => false | c :: b => if is_digit c then digits_end b else true end.
Definition atoi_ends (b : bytes) : bool :=
  match skip_spaces b with
  | [] => false
  | c :: b => if (c =? 45) || (c =? 43) then digits_end b else digits_end (c :: b)
  end.
Definition atoi_in (b : bytes) : option Z := if atoi_ends b then Some (atol b) else None.

(** ** Operations *)

Section Codec.
Context {W : Type} `{OsOps W, MixOps W}.
Abbreviation S := (mach W codec_g).

Definition in_mixer {A} (m : M (mach W (gmap Z mixer)) A) : M S A := zoom cg_mixers with_mixers m.

(** *** [get_mixer] *)

(** One lookup after the other; the label [error_out] at the first miss. *)
Fixpoint get_ctls (l : list (ctl_field * string)) (mixer : Z) : M S Z :=
  match l with
  | [] => ret 0
  | (f, name) :: l =>
      let* c := in_mixer (mixer_get_ctl_by_name mixer (str name)) in
      set_glob (with_ctl f c) ;;;
      match c with
      | None => in_mixer (mixer_close mixer) ;;; ret (-1)
      | Some _ => get_ctls l mixer
      end
  end.

Definition get_mixer : M S Z :=
  let* mixer := in_mixer (mixer_open 0) in
  if mixer =? 0 then ret (-1) else get_ctls ctl_table mixer.

(** *** The steps of the plans *)

Definition the_client (client : Z) : M S codec_client :=
  let* m := get_glob cg_clients in checked (m !! client).

(** [client->mixer_ctls->f]. *)
Definition client_ctl (client : Z) (f : ctl_field) : M S (option (Z * Z)) :=
  let* c := the_client client in
  if cc_mixer_ctls c then get_glob (fun g => cg_ctls g f) else undef.
Definition set_ctl (client : Z) (f : ctl_field) (v : Z) : M S Z :=
  let* c := client_ctl client f in in_mixer (mixer_ctl_set_value c 0 v).
Definition get_ctl (client : Z) (f : ctl_field) : M S Z :=
  let* c := client_ctl client f in in_mixer (mixer_ctl_get_value c 0).
Definition set_switch (client : Z) (s : string) : M S Z :=
  let* c := client_ctl client audio_spk_headset_switch in
  in_mixer (mixer_ctl_set_enum_by_string c (str s)).

(** [client->vol_array->gains[level]]. *)
Definition client_gain (client : Z) (gains : volume_array -> list Z) (level : Z) : M S Z :=
  let* c := the_client client in
  if cc_vol_array c then
    let* v := get_glob (fun g => gains (cg_vol g)) in checked (v !! Z.to_nat level)
  else undef.

(** [client->record_ops->...]: the pointer is NULL. *)
Definition record_op (client : Z) : M S Z := the_client client ;;; undef.

Definition volume_level (volume : Z) : Z :=
  if 10 <=? volume then 5 else if 8 <=? volume then 4 else if 6 <=? volume then 3
  else if 4 <=? volume then 2 else if 2 <=? volume then 1 else 0.

(** Whether the headset switch reads 1 or 2. *)
Definition h2w_path : string := "/sys/class/switch/h2w/state".
Definition switch_to_headset : M S bool :=
  let* fd := c_open h2w_path in
  if 0 <? fd then
    let* '(_, h2w_state) := c_read fd (zeros 2) 0 2 in
    c_close fd ;;;
    let* n := checked (atoi_in h2w_state) in
    ret ((n =? 2) || (n =? 1))
  else ret false.
End Codec.
