(* ===== verification/CodecPad.v ===== *)
(** * libcodec_audio: the routing of a tablet

    [codec_devices/pad/pad.c]: no modem.  The operations work on the controls of
    the client; this plan keeps no state. *)

From S2P Require Import Prelude CLib Os Snd Mixer Codec.

Definition mixer_vol : list Z := [0; 1; 2; 3; 4; 5; 6; 7].
Definition spk_vol : list Z := [16; 18; 21; 23; 25; 26; 28; 30].
Definition hp_vol : list Z := [40; 44; 48; 50; 52; 56; 58; 61].

Definition fm_val (volume : Z) : Z :=
  if 10 <=? volume then 7 else if 8 <=? volume then 6 else if 6 <=? volume then 5
  else if 4 <=? volume then 4 else if 2 <=? volume then 3 else 2.

Section Pad.
Context {W : Type} `{OsOps W, MixOps W}.
Abbreviation S := (mach W codec_g).

Definition set_normal_volume (client path vol : Z) : M S Z :=
  (if dev_on path AUDIO_DEVICE_OUT_SPEAKER then set_ctl client speaker_vol_ctrl vol
   else if dev_on path AUDIO_DEVICE_OUT_WIRED_HEADSET || dev_on path AUDIO_DEVICE_OUT_WIRED_HEADPHONE
   then set_ctl client headphone_vol_ctrl vol
   else ret 0) ;;;
  ret 0.

Definition set_normal_path (client path : Z) : M S Z :=
  let headset_on := dev_on path AUDIO_DEVICE_OUT_WIRED_HEADSET in
  let headphone_on := dev_on path AUDIO_DEVICE_OUT_WIRED_HEADPHONE in
  let speaker_on := dev_on path AUDIO_DEVICE_OUT_SPEAKER in
  let earpiece_on := dev_on path AUDIO_DEVICE_OUT_EARPIECE in
  let* plugged := switch_to_headset in
  set_ctl client audio_linein_in 0 ;;;
  (if (headset_on || headphone_on) && speaker_on then set_switch client "spk_headset"
   else if earpiece_on then set_switch client "earpiece"
   else if plugged : bool then set_switch client "headset"
   else set_switch client "spk") ;;;
  ret 0.

Definition set_normal_record_enable (client : Z) (enable : bool) : M S Z :=
  set_ctl client audio_linein_record 0 ;;; set_ctl client audio_phone_voice_record 0 ;;; ret 0.
Definition set_normal_record (client path : Z) : M S Z := ret 0.

Definition set_fm_volume (client path volume : Z) : M S Z :=
  let speaker_on := dev_on path AUDIO_DEVICE_OUT_SPEAKER in
  let val := Z.to_nat (fm_val volume) in
  let* m := checked (mixer_vol !! val) in
  set_ctl client linein_to_l_r_output_mixer_gain_ctrl m ;;;
  (if speaker_on then let* v := checked (spk_vol !! val) in set_ctl client speaker_vol_ctrl v
   else let* v := checked (hp_vol !! val) in set_ctl client headphone_vol_ctrl v) ;;;
  ret 0.

Definition set_fm_path (client path : Z) : M S Z :=
  set_ctl client audio_linein_in 1 ;;;
  (if dev_on path AUDIO_DEVICE_OUT_SPEAKER then
     set_ctl client audio_headphone_out 0 ;;; set_ctl client audio_speaker_out 1
   else
     set_ctl client audio_speaker_out 0 ;;; set_ctl client audio_headphone_out 1) ;;;
  ret 0.

Definition set_fm_record_enable (client : Z) (enable : bool) : M S Z :=
  set_ctl client audio_phone_voice_record 0 ;;;
  (if enable then set_ctl client audio_linein_record 1 else set_ctl client audio_linein_record 0) ;;;
  ret 0.
Definition set_fm_record (client path : Z) : M S Z := ret 0.

Definition pad_init : M S Z := ret 0.
Definition pad_exit : M S unit := ret tt.
End Pad.
