(* ===== verification/CodecPlanOne.v ===== *)
(** * libcodec_audio: the routing of plan one

    [codec_devices/planOne/plan_one.c]: modem and FM on analog lines, Bluetooth
    on PCM.  The statements under [#if 0] and in comments are not compiled. *)

From S2P Require Import Prelude CLib Os Snd Mixer Codec.

Section PlanOne.
Context {W : Type} `{OsOps W, MixOps W, PropOps W}.
Abbreviation S := (mach W codec_g).

Definition own {A} (f : plan_g -> A) : M S A := get_glob (fun g => f (cg_one g)).
Definition set_own (f : plan_g -> plan_g) : M S unit := set_glob (fun g => with_one (f (cg_one g)) g).

Definition set_normal_volume (client path vol : Z) : M S Z := ret 0.

Definition set_normal_path (client path : Z) : M S Z :=
  let headset_on := dev_on path AUDIO_DEVICE_OUT_WIRED_HEADSET in
  let headphone_on := dev_on path AUDIO_DEVICE_OUT_WIRED_HEADPHONE in
  let speaker_on := dev_on path AUDIO_DEVICE_OUT_SPEAKER in
  let earpiece_on := dev_on path AUDIO_DEVICE_OUT_EARPIECE in
  let* plugged := switch_to_headset in
  let* ended := own end_call in
  (if ended : bool then set_own (set_end_call false) ;;; set_ctl client audio_phone_end_call 1
   else ret 0) ;;;
  set_ctl client audio_linein_in 0 ;;;
  (if (headset_on || headphone_on) && speaker_on then set_switch client "spk_headset"
   else if earpiece_on then set_switch client "earpiece"
   else if plugged : bool then set_switch client "headset"
   else set_switch client "spk") ;;;
  ret 0.

Definition set_normal_record_enable (client : Z) (enable : bool) : M S Z :=
  set_ctl client audio_linein_record 0 ;;; set_ctl client audio_phone_voice_record 0 ;;; ret 0.
Definition set_normal_record (client path : Z) : M S Z := ret 0.

(** The level is computed and not used. *)
Definition set_fm_volume (client path volume : Z) : M S Z := ret 0.

(** The switch at the end of [set_fm_path]. *)
Definition fm_switch (client : Z) (speaker_on : bool) : M S Z :=
  (if speaker_on then
     set_ctl client audio_headphone_out 0 ;;; set_ctl client audio_speaker_out 1 ;;;
     set_own (set_fm_last 1)
   else
     set_ctl client audio_speaker_out 0 ;;; set_ctl client audio_headphone_out 1 ;;;
     set_own (set_fm_last 2)) ;;;
  ret 0.
Definition set_fm_path (client path : Z) : M S Z :=
  let headset_on := dev_on path AUDIO_DEVICE_OUT_WIRED_HEADSET in
  let headphone_on := dev_on path AUDIO_DEVICE_OUT_WIRED_HEADPHONE in
  let speaker_on := dev_on path AUDIO_DEVICE_OUT_SPEAKER in
  set_ctl client audio_phone_end_call 1 ;;;
  set_ctl client audio_linein_in 1 ;;;
  if speaker_on && (headphone_on || headset_on) then
    let* last := own fm_last_dev in
    if last =? 0 then ret 0 else fm_switch client (last =? 1)
  else fm_switch client speaker_on.

Definition set_fm_record_enable (client : Z) (enable : bool) : M S Z :=
  set_ctl client audio_phone_voice_record 0 ;;;
  (if enable then set_ctl client audio_linein_record 1 else set_ctl client audio_linein_record 0) ;;;
  ret 0.
Definition set_fm_record (client path : Z) : M S Z := ret 0.

Definition set_factory_volume (client path vol : Z) : M S Z := ret 0.
Definition set_factory_path (client path : Z) : M S Z :=
  set_ctl client audio_phone_end_call 1 ;;;
  set_ctl client audio_phone_out 1 ;;;
  set_ctl client audio_phone_in 1 ;;;
  let* ne := own no_earpiece in
  (if ne =? 0 then
     set_ctl client audio_speaker_out 0 ;;;
     set_ctl client audio_headphone_out 0 ;;;
     set_ctl client audio_earpiece_out 1 ;;;
     set_ctl client audio_phone_headset_mic 0 ;;;
     set_ctl client audio_phone_main_mic 1
   else if ne =? 1 then
     set_ctl client audio_earpiece_out 0 ;;;
     set_ctl client audio_headphone_out 0 ;;;
     set_ctl client audio_speaker_out 1 ;;;
     set_ctl client audio_phone_headset_mic 0 ;;;
     set_ctl client audio_phone_main_mic 1
   else ret 0) ;;;
  set_ctl client linein_l_r_boost_amp_gain_ctrl 7 ;;;
  set_ctl client lineout_gain_ctrl 7 ;;;
  set_ctl client headphone_vol_ctrl 60 ;;;
  set_ctl client speaker_vol_ctrl 30 ;;;
  ret 0.

Definition set_phone_volume (client path volume : Z) : M S Z :=
  let speaker_on := dev_on path AUDIO_DEVICE_OUT_SPEAKER in
  let headset_on := dev_on path AUDIO_DEVICE_OUT_WIRED_HEADSET in
  let headphone_on := dev_on path AUDIO_DEVICE_OUT_WIRED_HEADPHONE in
  let earpiece_on := dev_on path AUDIO_DEVICE_OUT_EARPIECE in
  let level := volume_level volume in
  let* ne := own no_earpiece in
  (if speaker_on || (earpiece_on && (ne =? 1)) then
     let* v := client_gain client speaker_spk_gain level in set_ctl client speaker_vol_ctrl v
   else if earpiece_on && (ne =? 0) then
     let* v := client_gain client earpiece_hp_gain level in set_ctl client earpiece_vol_ctrl v
   else if headset_on || headphone_on then
     let* v := client_gain client headset_hp_gain level in set_ctl client headphone_vol_ctrl v
   else ret 0) ;;;
  ret 0.

(** The outputs and microphones of [set_phone_path]. *)
Definition phone_outputs (client path ne : Z) : M S Z :=
  let headset_on := dev_on path AUDIO_DEVICE_OUT_WIRED_HEADSET in
  let headphone_on := dev_on path AUDIO_DEVICE_OUT_WIRED_HEADPHONE in
  let speaker_on := dev_on path AUDIO_DEVICE_OUT_SPEAKER in
  let earpiece_on := dev_on path AUDIO_DEVICE_OUT_EARPIECE in
  let bt_on := dev_on path AUDIO_DEVICE_OUT_ALL_SCO in
  if earpiece_on && (ne =? 0) then
    set_ctl client audio_speaker_out 0 ;;;
    set_ctl client audio_headphone_out 0 ;;;
    set_ctl client audio_earpiece_out 1 ;;;
    set_ctl client audio_phone_headset_mic 0 ;;;
    set_ctl client audio_phone_main_mic 1
  else if speaker_on || (earpiece_on && (ne =? 1)) then
    set_ctl client audio_earpiece_out 0 ;;;
    set_ctl client audio_headphone_out 0 ;;;
    set_ctl client audio_speaker_out 1 ;;;
    set_ctl client audio_phone_headset_mic 0 ;;;
    set_ctl client audio_phone_main_mic 1
  else if headphone_on then
    set_ctl client audio_earpiece_out 0 ;;;
    set_ctl client audio_speaker_out 0 ;;;
    set_ctl client audio_headphone_out 1 ;;;
    set_ctl client audio_phone_headset_mic 0 ;;;
    set_ctl client audio_phone_main_mic 1
  else if headset_on then
    set_ctl client audio_earpiece_out 0 ;;;
    set_ctl client audio_speaker_out 0 ;;;
    set_ctl client audio_headphone_out 1 ;;;
    set_ctl client audio_phone_main_mic 0 ;;;
    set_ctl client audio_phone_headset_mic 1
  else if bt_on then
    set_ctl client audio_earpiece_out 0 ;;;
    set_ctl client audio_headphone_out 0 ;;;
    set_ctl client audio_speaker_out 0 ;;;
    set_ctl client audio_phone_main_mic 0 ;;;
    set_ctl client audio_phone_headset_mic 0 ;;;
    set_ctl client audio_bt_clk_fmt 1 ;;;
    set_ctl client audio_analog_bt_mic 1 ;;;
    set_ctl client audio_analog_bt_phonein 1 ;;;
    set_ctl client audio_bt_out 1
  else ret 0.

Definition set_phone_path (client path : Z) : M S Z :=
  let bt_on := dev_on path AUDIO_DEVICE_OUT_ALL_SCO in
  let* recording := own is_in_record in
  (if recording : bool then record_op client else ret 0) ;;;     (* set_record_source *)
  let* fm := get_ctl client audio_linein_in in
  (if fm =? 0 then ret 0 else set_ctl client audio_linein_in 0) ;;;
  (if bt_on then set_ctl client audio_phone_in 0
   else
     set_ctl client audio_bt_clk_fmt 0 ;;;
     set_ctl client audio_analog_bt_mic 0 ;;;
     set_ctl client audio_analog_bt_phonein 0 ;;;
     set_ctl client audio_bt_out 0 ;;;
     set_ctl client audio_phone_in 1) ;;;
  set_ctl client audio_phone_out 1 ;;;
  let* ne := own no_earpiece in
  phone_outputs client path ne ;;;
  ret 0.

Definition set_phone_record_enable (client : Z) (enable : bool) : M S Z :=
  set_ctl client audio_linein_record 0 ;;;
  (if enable then
     set_ctl client audio_phone_voice_record 1 ;;; set_own (set_in_record true)
   else
     let* recording := own is_in_record in
     if recording : bool then
       set_ctl client audio_phone_voice_record 0 ;;;
       let* bt := own bluetooth_in_record in
       (if bt : bool then set_own (set_bt_record false) else ret tt) ;;;
       record_op client ;;;                                        (* stop_record *)
       set_own (set_in_record false) ;;;
       set_own (set_bt_record false)
     else ret tt) ;;;
  ret 0.

Definition set_phone_record (client path : Z) : M S Z :=
  let bt_on := dev_on path AUDIO_DEVICE_OUT_ALL_SCO in
  (if bt_on then set_own (set_bt_record true)
   else
     let* bt := own bluetooth_in_record in
     if bt : bool then set_own (set_bt_record false) else ret tt) ;;;
  set_ctl client audio_i2s_pcm_sel 0 ;;;
  record_op client ;;;                                             (* set_record_source *)
  let* r := record_op client in                                    (* start_record *)
  ret (if r <? 0 then -1 else 0).

Definition plan_one_init : M S Z :=
  let* '(r, prop_value) := ask (prop_get "audio.without.earpiece" "0") in
  (if 0 <? r then
     let* n := checked (atoi_in (prop_value ++ [0])) in
     if n =? 1 then set_own (set_no_earpiece 1) else ret tt
   else ret tt) ;;;
  ret r.
Definition plan_one_exit : M S unit := ret tt.

Definition clean_phone_path (client : Z) : M S Z := set_own (set_end_call true) ;;; ret 0.
End PlanOne.
