(* ===== verification/VolumeConf.v ===== *)
(** * libcodec_audio: the volume file

    [volume_conf.c]: [/system/etc/phone_volume.conf] read with [fgets] and cut
    with [strtok].  A section is a line [[KEY]] and, right after it, a line
    [name=v1,...,v6] for each of its tables.  The stream is the rest of the
    file; [linebuf] is a stack array whose old bytes stay where a shorter line
    does not reach. *)

From stdpp Require Import strings.
From S2P Require Import Prelude CLib Os Snd Mixer Codec.

Definition config_file : string := "/system/etc/phone_volume.conf".
Definition MAX_LINE_SZ : Z := 100.
Definition CONF_SPACE : Z := 32.
Definition CONF_COMMENT : Z := 35.
Definition CONF_COMMA : Z := 44.
Definition CONF_EQUALS : Z := 61.
Definition CONF_BRACKET : Z := 93.

(** What the C library and the machine give: the file's bytes when it opens,
    what a stack array and a fresh block hold before they are assigned. *)
Class FileOps (W : Type) := {
  conf_bytes : string -> W -> option bytes;
  stack_line : W -> bytes;
  fresh_word : Z -> nat -> W -> Z;
}.

(** ** The C library on lines *)

(** [fgets (buf, n + 1, fp)]: up to [n] bytes, through the end of the line. *)
Fixpoint take_line (n : nat) (f : bytes) : bytes * bytes :=
  match n, f with
  | O, _ => ([], f)
  | _, [] => ([], [])
  | S n, c :: f => if c =? 10 then ([c], f) else let '(l, r) := take_line n f in (c :: l, r)
  end.
Definition fgets (f : bytes) : option (bytes * bytes) :=
  match f with [] => None | _ => Some (take_line (Z.to_nat (MAX_LINE_SZ - 1)) f) end.

(** The bytes up to the first [c], and from it on. *)
Fixpoint span (c : Z) (s : bytes) : bytes * bytes :=
  match s with
  | [] => ([], [])
  | x :: s' => if x =? c then ([], s) else let '(t, r) := span c s' in (x :: t, r)
  end.
Fixpoint skip_chr (c : Z) (s : bytes) : bytes :=
  match s with [] => [] | x :: s' => if x =? c then skip_chr c s' else s end.

(** The tokens of [strtok (s, c)], [strtok (NULL, c)], ... *)
Fixpoint tokens (fuel : nat) (c : Z) (s : bytes) : list bytes :=
  match fuel with
  | O => []
  | S n =>
      match skip_chr c s with
      | [] => []
      | s => let '(t, r) := span c s in t :: tokens n c (drop 1 r)
      end
  end.
Definition strtok_all (c : Z) (s : bytes) : list bytes := tokens (Datatypes.S (length s)) c s.

(** [strstr (s, c) + 1] for a character [c] that is there. *)
Definition after_chr (c : Z) (s : bytes) : option bytes :=
  match snd (span c s) with [] => None | _ :: r => Some r end.

Definition count_chr (c : Z) (s : bytes) : Z := lenZ (filter (fun x => x = c) s).

(** The number of spaces a scan skips; [None] when it leaves the array. *)
Fixpoint lead_spaces (b : bytes) : option Z :=
  match b with
  | [] => None
  | c :: b => if c =? CONF_SPACE then option_map (Z.add 1) (lead_spaces b) else Some 0
  end.

(** ** The sections *)

(** [memcpy (vol_array->table, val_array, n * sizeof(int))]. *)
Record conf_table := ConfTable {
  ct_ints : nat;
  ct_put : list Z -> volume_array -> volume_array;
}.

Definition set_gain (n : nat) (l : list Z) (v : volume_array) : volume_array :=
  let p (k : nat) (x : list Z) := if Nat.eqb n k then l else x in
  VolumeArray (p 0%nat (earpiece_phonepn_gain v)) (p 1%nat (earpiece_mixer_gain v))
    (p 2%nat (earpiece_hp_gain v)) (p 3%nat (headset_phonepn_gain v))
    (p 4%nat (headset_mixer_gain v)) (p 5%nat (headset_hp_gain v))
    (p 6%nat (speaker_phonepn_gain v)) (p 7%nat (speaker_mixer_gain v))
    (p 8%nat (speaker_spk_gain v)) (p 9%nat (fm_headset_line_gain v))
    (p 10%nat (fm_headset_hp_gain v)) (p 11%nat (fm_speaker_line_gain v))
    (p 12%nat (fm_speaker_spk_gain v)) (up_pcm_gain v).
Definition set_pcm_gain (l : list Z) (v : volume_array) : volume_array :=
  VolumeArray (earpiece_phonepn_gain v) (earpiece_mixer_gain v) (earpiece_hp_gain v)
    (headset_phonepn_gain v) (headset_mixer_gain v) (headset_hp_gain v)
    (speaker_phonepn_gain v) (speaker_mixer_gain v) (speaker_spk_gain v)
    (fm_headset_line_gain v) (fm_headset_hp_gain v) (fm_speaker_line_gain v)
    (fm_speaker_spk_gain v) (default (up_pcm_gain v) (head l)).
Definition gain_table (n : nat) : conf_table := ConfTable 6 (set_gain n).

(** The tables a section fills, in the order of its lines; [None] of a key that
    is none of the six. *)
Definition conf_section (key : bytes) : option (list conf_table) :=
  if bool_decide (key = str "PHONE_EARPIECE") then Some [gain_table 0; gain_table 1; gain_table 2]
  else if bool_decide (key = str "PHONE_HEADSET") then Some [gain_table 3; gain_table 4; gain_table 5]
  else if bool_decide (key = str "PHONE_SPEAKER") then Some [gain_table 6; gain_table 7; gain_table 8]
  else if bool_decide (key = str "BLUETOOTH_UP") then Some [ConfTable 1 set_pcm_gain]
  else if bool_decide (key = str "FM_HEADSET") then Some [gain_table 9; gain_table 10]
  else if bool_decide (key = str "FM_SPEAKER") then Some [gain_table 11; gain_table 12]
  else None.

Section VolumeConf.
Context {W : Type} `{OsOps W, FileOps W}.
Abbreviation S := (mach W codec_g).

(** [process_line]: the address of the array (0 for the NULL at the end of the
    file), its ints, and the rest of the file. *)
Definition process_line (f : bytes) : M S (Z * list Z * bytes) :=
  match fgets f with
  | None => ret (0, [], f)
  | Some (l, f) =>
      let* s := checked (cstr (l ++ [0])) in
      let* line := checked (after_chr CONF_EQUALS s) in
      let array_size := count_chr CONF_COMMA line + 1 in
      let* val_array := c_malloc (array_size * 4) in
      let vals := map atol (strtok_all CONF_COMMA line) in
      if (val_array =? 0) && negb (bool_decide (vals = [])) then undef else
      let* old := ask (fun w => map (fun j => fresh_word val_array j w)
                                    (seq (length vals) (Z.to_nat array_size - length vals))) in
      if array_size <? lenZ vals then undef else
      ret (val_array, vals ++ old, f)
  end.

(** The lines of one section; [false] at the [break]. *)
Fixpoint read_tables (l : list conf_table) (f : bytes) : M S (bool * bytes) :=
  match l with
  | [] => ret (true, f)
  | t :: l =>
      let* '(p, vals, f) := process_line f in
      if p =? 0 then ret (false, f) else
      (if (length vals <? ct_ints t)%nat then undef
       else set_glob (fun g => with_vol (ct_put t (take (ct_ints t) vals) (cg_vol g)) g)) ;;;
      c_free p ;;;
      read_tables l f
  end.

(** One turn of the loop of [get_volume_config]: [i], [linebuf], whether
    [val_array] is set, the file; [inr] is what is returned after the loop. *)
Definition conf_round (i : Z) (linebuf : bytes) (set : bool) (f : bytes)
  : M S (Z * bytes * bool * bytes + Z) :=
  let leave (set : bool) : M S (Z * bytes * bool * bytes + Z) := ret (inr (if set then 0 else -1)) in
  match fgets f with
  | None => leave set
  | Some (l, f) =>
      let linebuf := bblit 0 (l ++ [0]) linebuf in
      let* k := checked (lead_spaces (drop (Z.to_nat i) linebuf)) in
      let i := i + k in
      let* c := checked (bget linebuf i) in
      if c =? CONF_COMMENT then ret (inl (i, linebuf, set, f)) else
      let* line := checked (cstr (drop (Z.to_nat i) linebuf)) in
      let s := skip_chr CONF_BRACKET line in
      let '(key_name, r) := span CONF_BRACKET s in
      (* the token ends in a NUL over the bracket *)
      let linebuf := match r with
                     | [] => linebuf
                     | _ => bblit (i + (lenZ line - lenZ r)) [0] linebuf
                     end in
      match key_name with
      | [] => ret (inl (i, linebuf, set, f))
      | _ :: key =>
          match conf_section key with
          | None => ret (inl (i, linebuf, set, f))
          | Some tables =>
              let* '(ok, f) := read_tables tables f in
              if ok : bool then ret (inl (i, linebuf, true, f)) else leave false
          end
      end
  end.

(** Each turn reads a byte of the file: its length and one more are enough
    turns. *)
Fixpoint conf_loop (fuel : nat) (i : Z) (linebuf : bytes) (set : bool) (f : bytes) : M S Z :=
  match fuel with
  | O => blocked
  | Datatypes.S n =>
      let* r := conf_round i linebuf set f in
      match r with
      | inl (i, linebuf, set, f) => conf_loop n i linebuf set f
      | inr v => ret v
      end
  end.

Definition get_volume_config : M S Z :=
  set_glob (with_vol volume_zero) ;;;
  let* fp := ask (conf_bytes config_file) in
  match fp with
  | None => ret (-1)
  | Some f =>
      let* linebuf := ask stack_line in
      conf_loop (Datatypes.S (length f)) 0 (take 100 (linebuf ++ zeros 100)) false f
  end.
End VolumeConf.
