(* ===== verification/CodecClient.v ===== *)
(** * libcodec_audio: the client object

    [codec.c] and the table of [codec_devices.c]: the plan is chosen by a
    property, its operations go into a client with the controls and the volume
    tables. *)

From stdpp Require Import strings.
From S2P Require Import Prelude CLib Os Snd Mixer Codec CodecPad CodecPlanOne CodecPlanTwo VolumeConf.

(** ** The table of plans *)

Record codec_device_desc := DeviceDesc {
  cd_name : string;
  cd_plan_name : string;
  cd_normal_ops : option codec_plan;
  cd_fm_ops : option codec_plan;
  cd_factory_ops : option codec_plan;
  cd_phone_ops : option codec_plan;
  cd_plan : codec_plan;                (* whose [device_init] and [device_exit] *)
}.
Definition codec_devices : list codec_device_desc := [
  DeviceDesc "pad" "PAD" (Some PAD) (Some PAD) None None PAD;
  DeviceDesc "bp_fm_Analog_bt_Pcm" "PLAN_ONE"
    (Some PLAN_ONE) (Some PLAN_ONE) (Some PLAN_ONE) (Some PLAN_ONE) PLAN_ONE;
  DeviceDesc "bp_pcm_fm_Analog_bt_Pcm" "PLAN_TWO"
    (Some PLAN_TWO) (Some PLAN_TWO) (Some PLAN_TWO) (Some PLAN_TWO) PLAN_TWO
].
Definition codec_devices_count : Z := lenZ codec_devices.

(** The loop of [codec_device_detect]: the first plan named in the property. *)
Fixpoint find_device (l : list codec_device_desc) (i : Z) (device : bytes) : Z :=
  match l with
  | [] => -1
  | d :: l => if has_sub (str (cd_plan_name d)) device then i else find_device l (i + 1) device
  end.

Definition SIZEOF_client : Z := 28.

Section Client.
Context {W : Type} `{OsOps W, MixOps W, PropOps W, FileOps W}.
Abbreviation S := (mach W codec_g).

Definition codec_device_detect : M S Z :=
  let* '(r, device) := ask (prop_get "ro.sw.audio.codec_plan_name" "0") in
  if r <=? 0 then ret (-1) else
  let index := find_device codec_devices 0 device in
  ret (if index =? -1 then 0 else index).

Definition device_init (p : codec_plan) : M S Z :=
  match p with
  | PAD => pad_init
  | PLAN_ONE => plan_one_init
  | PLAN_TWO => plan_two_init
  end.

Definition put_client (client : Z) (f : codec_client -> codec_client) : M S unit :=
  let* c := the_client client in
  set_glob (fun g => with_clients (<[client := f c]> (cg_clients g)) g).
Definition free_client (client : Z) : M S unit :=
  c_free client ;;; set_glob (fun g => with_clients (delete client (cg_clients g)) g).

(** From [get_mixer] on. *)
Definition client_resources (client : Z) : M S Z :=
  let* r := get_mixer in
  if r <? 0 then free_client client ;;; ret 0 else
  put_client client (fun c => CodecClient true (cc_normal_ops c) (cc_fm_ops c)
                                (cc_factory_ops c) (cc_phone_ops c) (cc_vol_array c)) ;;;
  let* r := get_volume_config in
  if r <? 0 then free_client client ;;; ret 0 else
  put_client client (fun c => CodecClient (cc_mixer_ctls c) (cc_normal_ops c) (cc_fm_ops c)
                                (cc_factory_ops c) (cc_phone_ops c) true) ;;;
  ret client.

Definition codec_client_new : M S Z :=
  let* device_index := codec_device_detect in
  if (device_index <? 0) || (codec_devices_count <? device_index) then ret 0 else
  let* client := c_malloc SIZEOF_client in
  if client =? 0 then ret 0 else
  set_glob (fun g => with_clients (<[client := client_zero]> (cg_clients g)) g) ;;;
  let* d := checked (codec_devices !! Z.to_nat device_index) in
  let* r := device_init (cd_plan d) in
  if r =? -1 then free_client client ;;; ret 0 else
  put_client client (fun c => CodecClient (cc_mixer_ctls c) (cd_normal_ops d) (cd_fm_ops d)
                                (cd_factory_ops d) (cd_phone_ops d) (cc_vol_array c)) ;;;
  client_resources client.

Definition codec_client_free (client : Z) : M S unit := free_client client.
End Client.
