(* ===== verification/CodecRoute.v ===== *)
(** * libcodec_audio: routing as assignments

    What a client's controls hold, and the writes of a plan as a list of
    assignments over them.  The card is any control device ([MixCard]): a read or
    a write may fail, and then leaves every control as it was; what does not fail
    is kept.  Its switches are booleans, its gains integers. *)

From stdpp Require Import strings.
From S2P Require Import Prelude CLib Os Snd Mixer MixerTheorems Codec.

(** ** Fields *)

Definition is_gain (f : ctl_field) : bool := bool_decide (f ∈ map fst volume_ctls).
(** The fields that hold a switch or a gain after [get_mixer]. *)
Definition wired_field (f : ctl_field) : bool :=
  match f with
  | audio_spk_headset_switch | audio_headphone_out_left | audio_digital_noise_reduced => false
  | _ => true
  end.
Definition settable (f : ctl_field) (v : Z) : bool :=
  wired_field f && (is_gain f || (v =? 0) || (v =? 1)).

(** ** Assignments *)

Abbreviation writes := (list (ctl_field * Z)).

Definition assign (ws : writes) (f : ctl_field) (x : Z) : Z :=
  foldl (fun y '(g, v) => if decide (g = f) then v else y) x ws.
Lemma assign_app ws ws' f x : assign (ws ++ ws') f x = assign ws' f (assign ws f x).
Proof. apply foldl_app. Qed.

(** ** The card *)

(** A control device that may fail.  A read changes no control; a write that
    succeeds replaces the values of its control, one that fails leaves them, and
    no other control is touched.  [card_sure n l]: the device never refuses to
    read the control [n] or to write the values [l] to it. *)
Class MixCard (W : Type) `{MixOps W} := {
  card_val : W -> Z -> list Z;
  card_sure : Z -> list Z -> Prop;
  card_read_law : forall fd n w, exists r l w', mix_read fd n w = (r, l, w') /\
    (forall m, card_val w' m = card_val w m) /\ (0 <= r -> l = card_val w n);
  card_write_law : forall fd n l w, exists r w', mix_write fd n l w = (r, w') /\
    (forall m, m <> n -> card_val w' m = card_val w m) /\
    card_val w' n = if r <? 0 then card_val w n else l;
  card_sure_law : forall fd n l w, card_sure n l ->
    0 <= fst (fst (mix_read fd n w)) /\ 0 <= fst (mix_write fd n l w);
}.

Record card_ok (info : ctl_field -> snd_ctl_elem_info) : Prop := {
  ca_count : forall f, wired_field f = true -> 0 < ei_count (info f);
  ca_type : forall f, wired_field f = true ->
    ei_type (info f) = if is_gain f then SNDRV_CTL_ELEM_TYPE_INTEGER else SNDRV_CTL_ELEM_TYPE_BOOLEAN;
  ca_numid : forall f g, wired_field f = true -> wired_field g = true ->
    ei_numid (info f) = ei_numid (info g) -> f = g;
}.

Section Values.
Context {W : Type} `{OsOps W, MixOps W, !MixCard W}.
Abbreviation MS := (mach W (gmap Z mixer)).

(** One call of [mixer_ctl_set_value]: the value is in its place or the control
    is as it was, and it is in its place on a card that refuses nothing of it. *)
Lemma set_value_lands c fd i v x (s : MS) :
  ctl_live c fd i s -> 0 < ei_count i -> 0 < lenZ (card_val (world s) (ei_numid i)) ->
  kept (ei_type i) v = Some x ->
  exists r w, mixer_ctl_set_value (Some c) 0 v s = Done r (Mach w (heap_live s) (fds_live s) (glob s)) /\
    (forall n, n <> ei_numid i -> card_val w n = card_val (world s) n) /\
    let old := card_val (world s) (ei_numid i) in
    (card_val w (ei_numid i) = old \/ card_val w (ei_numid i) = <[0%nat := x]> old) /\
    (card_sure (ei_numid i) (<[0%nat := x]> old) -> card_val w (ei_numid i) = <[0%nat := x]> old).
Proof.
  intros Hl Hid Hlen Hk. unfold mixer_ctl_set_value. rewrite (run_ctl_info _ _ _ _ _ Hl).
  rewrite (proj2 (Z.leb_gt (ei_count i) 0)) by lia.
  destruct (card_read_law fd (ei_numid i) (world s)) as (r & l & w1 & Er & Hw1 & Hv).
  erewrite bind_on_world by exact Er. fold (kept (ei_type i) v). rewrite Hk.
  destruct (Z.ltb_spec r 0) as [Hr|Hr].
  { exists r, w1. split; [done|]. split; [by intros n _|]. split; [by left|].
    intros Hsure. destruct (card_sure_law fd _ _ (world s) Hsure) as [Hread _]. rewrite Er in Hread.
    cbn in Hread. lia. }
  rewrite (Hv Hr). destruct (lookup_lt_is_Some_2 (card_val (world s) (ei_numid i)) 0%nat) as [y Ey];
    [unfold lenZ in Hlen; lia|].
  change (Z.to_nat 0) with 0%nat. rewrite Ey. mrun.
  set (l' := <[0%nat := x]> _).
  destruct (card_write_law fd (ei_numid i) l' w1) as (r2 & w2 & Ew & Ho & Hn).
  exists r2, w2. unfold on_world. cbn [world heap_live fds_live glob]. rewrite Ew. split; [done|].
  split; [intros n Hne; by rewrite Ho, Hw1|]. rewrite Hn, Hw1.
  split; [destruct (r2 <? 0); tauto|].
  intros Hsure. destruct (card_sure_law fd _ _ w1 Hsure) as [_ Hwrite]. rewrite Ew in Hwrite. cbn in Hwrite.
  by rewrite (proj2 (Z.ltb_ge r2 0)).
Qed.

Lemma get_value_lands c fd i x (s : MS) :
  ctl_live c fd i s -> 0 < ei_count i -> card_val (world s) (ei_numid i) !! 0%nat = Some x ->
  ei_type i = SNDRV_CTL_ELEM_TYPE_BOOLEAN ->
  exists r w, mixer_ctl_get_value (Some c) 0 s = Done r (Mach w (heap_live s) (fds_live s) (glob s)) /\
    (forall n, card_val w n = card_val (world s) n) /\
    forall l, card_sure (ei_numid i) l -> r = if x =? 0 then 0 else 1.
Proof.
  intros Hl Hid Hx Ht. unfold mixer_ctl_get_value. rewrite (run_ctl_info _ _ _ _ _ Hl).
  rewrite (proj2 (Z.leb_gt (ei_count i) 0)) by lia.
  destruct (card_read_law fd (ei_numid i) (world s)) as (r & l & w1 & Er & Hw1 & Hv).
  erewrite bind_on_world by exact Er. cbn beta iota. destruct (Z.ltb_spec r 0) as [Hr|Hr].
  { exists r, w1. (split; [reflexivity|]); (split; [done|]). intros l' Hsure.
    destruct (card_sure_law fd _ _ (world s) Hsure) as [Hread _]. rewrite Er in Hread. cbn in Hread. lia. }
  rewrite (Hv Hr). change (Z.to_nat 0) with 0%nat. rewrite Hx. mrun. rewrite Ht. eexists _, w1. (split; [reflexivity|]). by split.
Qed.
End Values.

Section Route.
Context {W : Type} `{OsOps W, MixOps W, !MixCard W}.
Abbreviation S := (mach W codec_g).

(** The part of the state the mixer functions see. *)
Definition mix_part (s : S) : mach W (gmap Z mixer) :=
  Mach (world s) (heap_live s) (fds_live s) (cg_mixers (glob s)).

Context (info : ctl_field -> snd_ctl_elem_info).

(** The client at [client] is built, over a mixer with these controls. *)
Record wired (client : Z) (s : S) : Prop := {
  wi_client : exists c, cg_clients (glob s) !! client = Some c /\
    cc_mixer_ctls c = true /\ cc_vol_array c = true;
  wi_ctl : forall f, wired_field f = true ->
    exists c fd, cg_ctls (glob s) f = Some c /\ ctl_live c fd (info f) (mix_part s);
  wi_val : forall f, wired_field f = true -> 0 < lenZ (card_val (world s) (ei_numid (info f)));
}.

(** What the control of a field holds. *)
Definition holds_now (s : S) (f : ctl_field) : Z :=
  default 0 (card_val (world s) (ei_numid (info f)) !! 0%nat).

(** The card reads the control of [f] and takes [v] for it whenever it is asked. *)
Definition takes (f : ctl_field) (v : Z) : Prop := forall l, card_sure (ei_numid (info f)) (v :: l).

(** What the writes may leave in [f], which held [x]: the last value written to
    it if the card takes them all; what it held, or one of the values, else. *)
Definition lands (ws : writes) (f : ctl_field) (x y : Z) : Prop :=
  ((forall v, (f, v) ∈ ws -> takes f v) -> y = assign ws f x) /\ (y = x \/ (f, y) ∈ ws).

(** The controls after the assignments; nothing else moved. *)
Definition written (client : Z) (ws : writes) (s s' : S) : Prop :=
  wired client s' /\ glob s' = glob s /\ heap_live s' = heap_live s /\ fds_live s' = fds_live s /\
  forall f, wired_field f = true -> lands ws f (holds_now s f) (holds_now s' f).

Lemma written_assign client ws s s' f :
  written client ws s s' -> wired_field f = true -> (forall v, (f, v) ∈ ws -> takes f v) ->
  holds_now s' f = assign ws f (holds_now s f).
Proof. intros (_ & _ & _ & _ & Hv) Hf. by apply Hv. Qed.

Fixpoint run_writes (client : Z) (ws : writes) : M S Z :=
  match ws with
  | [] => ret 0
  | (f, v) :: ws => set_ctl client f v ;;; run_writes client ws
  end.

Hypothesis card : card_ok info.

Lemma client_ctl_run {B} (k : option (Z * Z) -> M S B) client f s :
  wired client s -> bind (client_ctl client f) k s = k (cg_ctls (glob s) f) s.
Proof.
  intros [(c & Ec & Em & _) _ _]. unfold client_ctl, the_client. mrun. rewrite Ec. mrun. by rewrite Em.
Qed.

Lemma set_ctl_run client f v s :
  wired client s -> settable f v = true ->
  yields (set_ctl client f v) s (fun r s' => written client [(f, v)] s s').
Proof.
  intros Hw Hset. unfold settable in Hset. apply andb_prop in Hset as [Hf Hv].
  unfold yields, set_ctl. rewrite (client_ctl_run _ _ _ _ Hw).
  destruct Hw as [Hc Hctl Hval]. destruct (Hctl f Hf) as (c & fd & -> & Hlive).
  assert (kept (ei_type (info f)) v = Some v) as Hk.
  { rewrite (ca_type _ card f Hf). unfold kept. destruct (is_gain f); [done|].
    cbn [orb] in Hv. cbn. destruct (Z.eqb_spec v 0) as [->|]; [done|].
    by apply Z.eqb_eq in Hv as ->. }
  destruct (set_value_lands c fd (info f) v v (mix_part s) Hlive (ca_count _ card f Hf) (Hval f Hf) Hk)
    as (r & w & E & Ho & Hvw & Hsure).
  unfold in_mixer. cbn [mix_part world] in E, Hvw, Ho, Hsure.
  erewrite zoom_Done by exact E.
  assert (with_mixers (cg_mixers (glob s)) (glob s) = glob s) as Eg by (by destruct (glob s)).
  cbn [world heap_live fds_live glob mix_part]. rewrite Eg.
  assert (forall g, wired_field g = true -> g <> f ->
    card_val w (ei_numid (info g)) = card_val (world s) (ei_numid (info g))) as Hother.
  { intros g Hg Hne. apply Ho. intros E'. apply Hne. by eapply (ca_numid _ card). }
  pose proof (Hval f Hf) as Hlen.
  destruct (card_val (world s) (ei_numid (info f))) as [|x0 l0] eqn:El; [done|]. cbn in Hvw, Hsure.
  split; [|split_and!; [done..|]].
  - split; cbn [glob world mix_part]; [done|exact Hctl|].
    intros g Hg. destruct (decide (g = f)) as [->|Hne]; [|by rewrite Hother by done; apply Hval].
    by destruct Hvw as [-> | ->].
  - intros g Hg. unfold holds_now, lands. cbn [world]. destruct (decide (g = f)) as [->|Hne].
    + rewrite El. cbn [lookup list_lookup default]. split.
      * intros Ht. rewrite Hsure by (apply Ht; by left). cbn. by rewrite decide_True.
      * destruct Hvw as [-> | ->]; cbn; [by left|right; by left].
    + rewrite Hother by done. split; [|by left]. intros _. cbn [assign foldl].
      by rewrite decide_False by congruence.
Qed.

(** An entry of a volume table. *)
Lemma client_gain_run {B} (k : Z -> M S B) client gains level v s :
  wired client s -> gains (cg_vol (glob s)) !! Z.to_nat level = Some v ->
  bind (client_gain client gains level) k s = k v s.
Proof.
  intros [(c & Ec & _ & Ev) _ _] Eg. unfold client_gain, the_client. mrun. rewrite Ec. mrun. rewrite Ev. mrun.
  rewrite Eg. by mrun.
Qed.

Lemma written_nil client s s' :
  wired client s' -> glob s' = glob s -> heap_live s' = heap_live s -> fds_live s' = fds_live s ->
  (forall f, wired_field f = true -> holds_now s' f = holds_now s f) -> written client [] s s'.
Proof. intros ???? Hv. split_and!; [done..|]. intros f Hf. rewrite Hv by done. split; [done|by left]. Qed.
Lemma written_app client ws1 ws2 s1 s2 s3 :
  written client ws1 s1 s2 -> written client ws2 s2 s3 -> written client (ws1 ++ ws2) s1 s3.
Proof.
  intros (A1 & A2 & A3 & A4 & A5) (B1 & B2 & B3 & B4 & B5). split_and!; [done|congruence..|].
  intros f Hf. destruct (A5 f Hf) as [Ha Ha'], (B5 f Hf) as [Hb Hb']. unfold lands.
  setoid_rewrite elem_of_app. rewrite assign_app. split.
  - intros Ht. rewrite Hb, Ha by eauto. done.
  - destruct Hb' as [-> |]; [|tauto]. destruct Ha' as [-> |]; tauto.
Qed.

Lemma run_writes_run client ws : forall s,
  wired client s -> forallb (fun '(f, v) => settable f v) ws = true ->
  yields (run_writes client ws) s (fun r s' => r = 0 /\ written client ws s s').
Proof.
  induction ws as [|[f v] ws IH]; intros s Hw Hs; cbn [run_writes forallb] in *.
  { apply yields_ret. split; [done|]. by apply written_nil. }
  apply andb_prop in Hs as [Hf Hs]. eapply yields_bind; [by apply set_ctl_run|].
  intros r s1 H1. eapply yields_mono; [apply IH; [by destruct H1|done]|].
  intros r' s2 (-> & H2). split; [done|]. by apply (written_app _ [(f, v)] _ _ s1).
Qed.

(** A read: what the switch holds, on a card that does not refuse to read it. *)
Lemma get_ctl_run client f s :
  wired client s -> wired_field f = true -> is_gain f = false ->
  yields (get_ctl client f) s (fun r s' => written client [] s s' /\
    forall v, takes f v -> r = if holds_now s f =? 0 then 0 else 1).
Proof.
  intros Hw Hf Hg. unfold yields, get_ctl. rewrite (client_ctl_run _ _ _ _ Hw).
  pose proof Hw as [Hc Hctl Hval]. destruct (Hctl f Hf) as (c & fd & -> & Hlive).
  pose proof (Hval f Hf) as Hlen.
  destruct (lookup_lt_is_Some_2 (card_val (world s) (ei_numid (info f))) 0%nat) as [x Ex];
    [unfold lenZ in Hlen; lia|].
  assert (ei_type (info f) = SNDRV_CTL_ELEM_TYPE_BOOLEAN) as Ht by (rewrite (ca_type _ card f Hf); by rewrite Hg).
  destruct (get_value_lands c fd (info f) x (mix_part s) Hlive (ca_count _ card f Hf) Ex Ht)
    as (r & w & E & Hv & Hr).
  unfold in_mixer. cbn [mix_part world] in E, Hv. erewrite zoom_Done by exact E.
  assert (with_mixers (cg_mixers (glob s)) (glob s) = glob s) as Eg by (by destruct (glob s)).
  cbn [world heap_live fds_live glob mix_part]. rewrite Eg. split.
  - apply written_nil; [|done..|].
    + split; [done|exact Hctl|]. cbn [world]. intros g Hgw. rewrite Hv. by apply Hval.
    + intros g Hgw. unfold holds_now. cbn [world]. by rewrite Hv.
  - intros v Ht'. unfold holds_now. rewrite Ex. cbn [default]. apply (Hr (v :: [])), Ht'.
Qed.

(** *** Programs that are writes *)

(** [m] makes the writes [ws], in that order, and nothing else. *)
Definition makes {A} (client : Z) (m : M S A) (ws : writes) : Prop :=
  forall B (k : M S B) s, bind m (fun _ => k) s = bind (run_writes client ws) (fun _ => k) s.

Lemma run_writes_app client ws1 ws2 B (k : M S B) s :
  bind (run_writes client (ws1 ++ ws2)) (fun _ => k) s =
  bind (run_writes client ws1) (fun _ => bind (run_writes client ws2) (fun _ => k)) s.
Proof.
  revert s; induction ws1 as [|[f v] ws1 IH]; intros s; [done|]. cbn [app run_writes].
  rewrite !bind_assoc. unfold bind at 1. symmetry. unfold bind at 1.
  destruct (set_ctl client f v s); [symmetry; apply IH|done..].
Qed.

Lemma run_writes_end client ws s : bind (run_writes client ws) (fun _ => ret 0) s = run_writes client ws s.
Proof.
  revert s; induction ws as [|[f v] ws IH]; intros s; [done|]. cbn [run_writes]. rewrite bind_assoc.
  unfold bind at 1. symmetry. unfold bind at 1. destruct (set_ctl client f v s); [symmetry; apply IH|done..].
Qed.

Lemma makes_ret {A} client (a : A) : makes client (ret a) [].
Proof. intros B k s. done. Qed.
Lemma makes_set client f v : makes client (set_ctl client f v) [(f, v)].
Proof.
  intros B k s. cbn [run_writes]. rewrite bind_assoc. unfold bind at 1 2.
  by destruct (set_ctl client f v s).
Qed.
Lemma makes_seq {A B} client (m : M S A) (m' : M S B) ws ws' :
  makes client m ws -> makes client m' ws' -> makes client (m ;;; m') (ws ++ ws').
Proof.
  intros Hm Hm' C k s. rewrite bind_assoc, run_writes_app, <- Hm.
  unfold bind at 1 3. destruct (m s); [apply Hm'|done..].
Qed.
Lemma makes_if {A} client (b : bool) (m m' : M S A) ws ws' :
  makes client m ws -> makes client m' ws' ->
  makes client (if b then m else m') (if b then ws else ws').
Proof. by destruct b. Qed.

(** The same of a program that ends with an assignment to the globals. *)
Definition makes_then {A} (client : Z) (m : M S A) (ws : writes) (g : codec_g -> codec_g) : Prop :=
  forall B (k : M S B) s,
    bind m (fun _ => k) s = bind (run_writes client ws) (fun _ => set_glob g ;;; k) s.
Lemma makes_then_set client g : makes_then client (set_glob g : M S unit) [] g.
Proof. intros B k s. done. Qed.
Lemma makes_then_seq {A B} client (m : M S A) (m' : M S B) ws ws' g :
  makes client m ws -> makes_then client m' ws' g -> makes_then client (m ;;; m') (ws ++ ws') g.
Proof.
  intros Hm Hm' C k s. rewrite bind_assoc, run_writes_app, <- Hm. unfold bind at 1. symmetry. unfold bind at 1.
  destruct (m s); [symmetry; apply Hm'|done..].
Qed.
Lemma makes_then_id {A} client (m : M S A) ws : makes client m ws -> makes_then client m ws id.
Proof.
  intros Hm B k s. rewrite Hm. unfold bind at 1. symmetry. unfold bind at 1.
  destruct (run_writes client ws s) as [a s1| |]; [|done..]. by destruct s1.
Qed.

Lemma seq3 {A B C D} (a : M S A) (b : M S B) (c : M S C) (k : M S D) s :
  (a ;;; b ;;; c ;;; k) s = ((a ;;; b ;;; c) ;;; k) s.
Proof. unfold bind. destruct (a s) as [? s1| |]; [|done..]. by destruct (b s1). Qed.

(** Where such a program stands at the front of another one. *)
Lemma makes_run {A B} client (m : M S A) ws (k : M S B) s Q :
  makes client m ws -> wired client s -> forallb (fun '(f, v) => settable f v) ws = true ->
  (forall s', written client ws s s' -> yields k s' Q) -> yields (m ;;; k) s Q.
Proof.
  intros Hm Hw Hs Hk. unfold yields. rewrite Hm. eapply yields_bind; [by apply run_writes_run|].
  intros r s1 [_ H1]. by apply Hk.
Qed.

(** The same, with the state between the two. *)
Lemma makes_step {A B} client (m : M S A) ws (k : M S B) s :
  makes client m ws -> wired client s -> forallb (fun '(f, v) => settable f v) ws = true ->
  exists s1, written client ws s s1 /\ (m ;;; k) s = k s1 /\
    (forall ws', run_writes client (ws ++ ws') s = run_writes client ws' s1) /\
    forall C (k' : M S C) ws', bind (run_writes client (ws ++ ws')) (fun _ => k') s =
      bind (run_writes client ws') (fun _ => k') s1.
Proof.
  intros Hm Hw Hs. destruct (yields_Done _ _ _ (run_writes_run client ws s Hw Hs)) as (r & s1 & E & _ & H1).
  exists s1. split_and!; [done| | |].
  - rewrite Hm. by rewrite (bind_Done _ _ _ _ _ E).
  - intros ws'. pose proof (run_writes_app client ws ws' _ (ret 0) s) as Ha.
    rewrite (bind_Done _ _ _ _ _ E) in Ha. by rewrite !run_writes_end in Ha.
  - intros C k' ws'. rewrite run_writes_app. by rewrite (bind_Done _ _ _ _ _ E).
Qed.
End Route.

(** [makes_all] follows the text of a program. *)
Ltac makes_all :=
  repeat first [apply makes_seq | apply makes_if | apply makes_set | apply makes_ret].
