(* ===== verification/CodecSim.v ===== *)
(** * The board's card, to run the codec library on

    A concrete kernel whose control device has a control for every name of the
    table and keeps what is written to it, the writes to chosen controls refused
    ([stuck_mix]), and whose memory never ends; the volume
    file and the properties are chosen.  It models no code of the repository. *)

From stdpp Require Import strings.
From S2P Require Import Prelude CLib Os Snd Mixer MixerTheorems Codec VolumeConf CodecRoute.

Record codec_world := CodecWorld {
  kw_next : Z;
  kw_vals : gmap Z (list Z);
}.

#[export] Instance codec_os : OsOps codec_world := {
  os_malloc := fun _ w => (Z.max 1 (kw_next w), CodecWorld (Z.max 1 (kw_next w) + 1) (kw_vals w));
  os_open := fun _ w => (3, w);
  os_close := fun _ w => w;
  os_lseek := fun _ off w => (off, w);
  os_read := fun _ _ w => (0, [], w);
  os_write := fun _ b w => (lenZ b, w);
  os_fsync := fun _ w => w;
  os_ioctl := fun _ _ _ b w => (0, b, w);
  os_access := fun _ _ => 0;
}.

(** The controls, numbered from 1 in the order of the table. *)
Definition board_fields : list (ctl_field * string) :=
  filter (fun x => fst x <> lineout_gain_ctrl) ctl_table ++ [(lineout_gain_ctrl, "line out gain control"%string)].
Definition switch_items : list bytes :=
  [str "headset"; str "spk"; str "spk_headset"; str "earpiece"; str "bt_button_voice"].
Definition board_ctl (k : nat) (x : ctl_field * string) : snd_ctl_elem_info * list bytes :=
  let n := Z.of_nat k + 1 in
  if decide (fst x = audio_spk_headset_switch)
  then (ElemInfo n (str (snd x)) SNDRV_CTL_ELEM_TYPE_ENUMERATED 1 0 0 5, switch_items)
  else if is_gain (fst x) then (ElemInfo n (str (snd x)) SNDRV_CTL_ELEM_TYPE_INTEGER 1 0 63 0, [])
  else (ElemInfo n (str (snd x)) SNDRV_CTL_ELEM_TYPE_BOOLEAN 1 0 1 0, []).
Definition board : list (snd_ctl_elem_info * list bytes) := imap board_ctl board_fields.

Definition board_val (w : codec_world) (n : Z) : list Z := default [0] (kw_vals w !! n).

(** The card refuses, with an error, every write to the controls of [stuck]. *)
Definition stuck_mix (stuck : list Z) : MixOps codec_world := {|
  mix_list := fun _ space w =>
    (0, lenZ board, take (Z.to_nat space) (map (fun e => ei_numid (fst e)) board), w);
  mix_info := fun _ numid item w =>
    match board !! Z.to_nat (numid - 1) with
    | Some (i, names) => (0, i, default [] (names !! Z.to_nat item), w)
    | None => (-22, info_zero, [], w)
    end;
  mix_read := fun _ n w => (0, board_val w n, w);
  mix_write := fun _ n v w =>
    if decide (n ∈ stuck) then (-5, w) else (0, CodecWorld (kw_next w) (<[n := v]> (kw_vals w)));
|}.
#[export] Instance codec_mix : MixOps codec_world := stuck_mix [].

Lemma stuck_read_law stuck fd n (w : codec_world) :
  exists r l w', @mix_read _ (stuck_mix stuck) fd n w = (r, l, w') /\
    (forall m, board_val w' m = board_val w m) /\ (0 <= r -> l = board_val w n).
Proof. eexists 0, _, w. split; [reflexivity|done]. Qed.
Lemma stuck_write_law stuck fd n l (w : codec_world) :
  exists r w', @mix_write _ (stuck_mix stuck) fd n l w = (r, w') /\
    (forall m, m <> n -> board_val w' m = board_val w m) /\
    board_val w' n = if r <? 0 then board_val w n else l.
Proof.
  cbn. case_decide; [by eexists _, w|]. eexists _, _. split; [reflexivity|]. unfold board_val. cbn. split.
  - intros m Hm. by rewrite lookup_insert_ne by congruence.
  - by rewrite lookup_insert_eq.
Qed.
Lemma stuck_sure_law stuck fd n l (w : codec_world) :
  n ∉ stuck ->
  0 <= fst (fst (@mix_read _ (stuck_mix stuck) fd n w)) /\ 0 <= fst (@mix_write _ (stuck_mix stuck) fd n l w).
Proof. intros Hn. cbn. by rewrite decide_False. Qed.
Definition stuck_card (stuck : list Z) : @MixCard codec_world (stuck_mix stuck) :=
  @Build_MixCard _ (stuck_mix stuck) board_val (fun n _ => n ∉ stuck)
    (stuck_read_law stuck) (stuck_write_law stuck) (stuck_sure_law stuck).
#[export] Instance codec_card : MixCard codec_world := stuck_card [].

(** The properties of a board with plan [plan]. *)
Definition sim_prop (plan : string) : PropOps codec_world := {|
  prop_get := fun key _ _ =>
    if String.eqb key "ro.sw.audio.codec_plan_name" then (lenZ (str plan), str plan) else (1, str "0")
|}.
#[export] Instance one_prop : PropOps codec_world := sim_prop "PLAN_ONE".
Definition sim_file (f : option bytes) : FileOps codec_world := {|
  conf_bytes := fun _ _ => f;
  stack_line := fun _ => [];
  fresh_word := fun _ _ _ => 0
|}.

(** The number of a field's control. *)
Definition board_index (f : ctl_field) : option nat :=
  option_map fst (list_find (fun x => fst x = f) board_fields).
Definition board_info (f : ctl_field) : snd_ctl_elem_info :=
  match board_index f with
  | Some k => match board !! k with Some (i, _) => i | None => info_zero end
  | None => info_zero
  end.

Lemma board_ok : card_ok board_info.
Proof.
  split.
  - by intros f; destruct f.
  - by intros f; destruct f.
  - assert (forall f, wired_field f = true ->
      option_map fst (board_fields !! Z.to_nat (ei_numid (board_info f) - 1)) = Some f) as Hinv
      by (by intros f; destruct f).
    intros f g Hf Hg E. pose proof (Hinv f Hf) as Ef. rewrite E, (Hinv g Hg) in Ef. congruence.
Qed.

(** A client over the board's mixer, the switches as in the list. *)
Definition board_mixer : mixer := MkMixer 3 8 9 (lenZ board) (map fst board) [].
Definition six (n : Z) : list Z := replicate 6 n.
Definition board_volumes : volume_array :=
  VolumeArray (six 1) (six 2) (six 3) (six 4) (six 5) (six 6) (six 7) (six 8) [21; 23; 25; 26; 28; 30]
    (six 9) (six 10) (six 11) (six 12) 8.
Definition board_g : codec_g :=
  CodecG {[7 := board_mixer]} (fun f => option_map (fun k => (7, Z.of_nat k)) (board_index f)) board_volumes
    plan_initial plan_initial
    {[5 := CodecClient true (Some PLAN_ONE) (Some PLAN_ONE) (Some PLAN_ONE) (Some PLAN_ONE) true]}.
Definition board_state (on : list ctl_field) : mach codec_world codec_g :=
  Mach (CodecWorld 100 (list_to_map (map (fun f => (ei_numid (board_info f), [1])) on))) 4 1 board_g.

Lemma stuck_wired stuck on :
  on = [] \/ on = [audio_earpiece_out] ->
  @wired _ (stuck_mix stuck) (stuck_card stuck) board_info 5 (board_state on).
Proof.
  intros Hon. split.
  - eexists. split; [reflexivity|done].
  - intros f Hf. destruct f; try done; eexists _, 3; (split; [reflexivity|]); eexists; split_and!; reflexivity.
  - intros f Hf. destruct Hon as [-> | ->]; by destruct f.
Qed.
Lemma board_wired on : on = [] \/ on = [audio_earpiece_out] -> wired board_info 5 (board_state on).
Proof. apply (stuck_wired []). Qed.
