(* ===== verification/VolumeTheorems.v ===== *)
(** * libcodec_audio: what the volume file means

    A reference meaning of the file - a list of notes and sections, the later
    ones over the earlier - and the theorem that [get_volume_config] reads a
    printed file to it; the indentation that is never forgotten. *)

From stdpp Require Import strings.
From S2P Require Import Prelude CLib Os Snd Mixer Codec VolumeConf CodecRoute CodecSim.

(** ** The file as text *)

Fixpoint commas (l : list Z) : bytes :=
  match l with
  | [] => []
  | [v] => sprintf_d v
  | v :: l => sprintf_d v ++ CONF_COMMA :: commas l
  end.

Inductive conf_item :=
| Blank
| Note (text : bytes)
| Sect (key : bytes) (rows : list (bytes * list Z)).

Definition print_row (row : bytes * list Z) : bytes := fst row ++ CONF_EQUALS :: commas (snd row) ++ [10].
Definition print_item (i : conf_item) : bytes :=
  match i with
  | Blank => [10]
  | Note text => CONF_COMMENT :: text ++ [10]
  | Sect key rows => (91 :: key ++ [CONF_BRACKET]) ++ 10 :: concat (map print_row rows)
  end.

(** What a section puts into the tables. *)
Definition put_row (v : volume_array) (tr : conf_table * (bytes * list Z)) : volume_array :=
  ct_put (fst tr) (take (ct_ints (fst tr)) (snd (snd tr))) v.
Definition apply_item (v : volume_array) (i : conf_item) : volume_array :=
  match i with
  | Blank | Note _ => v
  | Sect key rows =>
      match conf_section key with
      | Some tables => foldl put_row v (zip tables rows)
      | None => v
      end
  end.
Definition is_sect (i : conf_item) : bool := match i with Sect _ _ => true | _ => false end.

(** Text of a line: no NUL and no end of line. *)
Definition line_text (l : bytes) : Prop := Forall (fun c => c <> 0 /\ c <> 10) l.
Definition row_ok (t : conf_table) (row : bytes * list Z) : Prop :=
  line_text (fst row) /\ Forall (fun c => c <> CONF_EQUALS) (fst row) /\
  snd row <> [] /\ (ct_ints t <= length (snd row))%nat /\
  Forall (fun v => 0 <= v < 2147483648) (snd row) /\ lenZ (print_row row) < MAX_LINE_SZ.
Definition item_ok (i : conf_item) : Prop :=
  match i with
  | Blank => True
  | Note text => line_text text /\ lenZ text + 2 < MAX_LINE_SZ
  | Sect key rows =>
      exists tables, conf_section key = Some tables /\ Forall2 row_ok tables rows
  end.

(** ** Lines and tokens *)

Lemma take_line_app n l rest :
  Forall (fun c => c <> 10) l -> (length l < n)%nat -> take_line n (l ++ 10 :: rest) = (l ++ [10], rest).
Proof.
  intros Hl; revert n. induction Hl as [|c l Hc _ IH]; intros [|n] Hn; cbn [length] in Hn; try lia; [done|].
  cbn [app take_line]. rewrite (proj2 (Z.eqb_neq c 10) Hc), IH by lia. done.
Qed.
Lemma fgets_line l rest :
  Forall (fun c => c <> 10) l -> lenZ l + 1 < MAX_LINE_SZ -> fgets (l ++ 10 :: rest) = Some (l ++ [10], rest).
Proof.
  intros Hl Hn. unfold fgets. destruct (l ++ 10 :: rest) eqn:E; [by destruct l|].
  rewrite <- E, take_line_app; [done..|]. unfold lenZ, MAX_LINE_SZ in *. lia.
Qed.
Lemma span_app c l rest :
  Forall (fun x => x <> c) l -> span c (l ++ c :: rest) = (l, c :: rest).
Proof.
  induction 1 as [|x l Hx _ IH]; cbn [app span]; [by rewrite Z.eqb_refl|].
  by rewrite (proj2 (Z.eqb_neq x c) Hx), IH.
Qed.
Lemma span_all c l : Forall (fun x => x <> c) l -> span c l = (l, []).
Proof. induction 1 as [|x l Hx _ IH]; cbn [span]; [done|]. by rewrite (proj2 (Z.eqb_neq x c) Hx), IH. Qed.

Lemma digits_not c n : 0 <= n -> is_digit c = false -> Forall (fun x => x <> c) (sprintf_d n).
Proof.
  intros Hn Hc. unfold sprintf_d. rewrite (proj2 (Z.ltb_ge n 0) Hn).
  eapply Forall_impl; [by apply dec_digits_ok|]. intros x Hx ->. cbn in Hx. congruence.
Qed.
Lemma sprintf_d_head n : 0 <= n -> exists d l, sprintf_d n = d :: l /\ is_digit d = true.
Proof.
  intros Hn. unfold sprintf_d. rewrite (proj2 (Z.ltb_ge n 0) Hn). by apply dec_digits_cons.
Qed.
Lemma skip_digits c n rest :
  0 <= n -> is_digit c = false -> skip_chr c (sprintf_d n ++ rest) = sprintf_d n ++ rest.
Proof.
  intros Hn Hc. destruct (sprintf_d_head n Hn) as (d & l & E & Hd). rewrite E. cbn [app skip_chr].
  rewrite (proj2 (Z.eqb_neq d c)); [done|]. intros ->. congruence.
Qed.

(** The tokens of a printed row, read as numbers. *)
Lemma tokens_commas vals : forall fuel,
  vals <> [] -> Forall (fun v => 0 <= v < 2147483648) vals -> (length vals < fuel)%nat ->
  map atol (tokens fuel CONF_COMMA (commas vals ++ [10])) = vals.
Proof.
  induction vals as [|v vals IH]; intros fuel Hne Hr Hf; [done|]. inv Hr.
  destruct fuel as [|fuel]; [lia|]. cbn [length] in Hf. cbn [tokens].
  destruct vals as [|v' vals].
  - cbn [commas]. rewrite skip_digits by (done || lia).
    destruct (sprintf_d v ++ [10]) eqn:E; [by destruct (sprintf_d v)|]. rewrite <- E.
    rewrite span_all by (apply Forall_app; split; [apply digits_not; [lia|done]|by repeat constructor]).
    cbn [drop map]. rewrite atol_sprintf_d by done. f_equal. destruct fuel; done.
  - change (commas (v :: v' :: vals)) with (sprintf_d v ++ CONF_COMMA :: commas (v' :: vals)).
    rewrite <- app_assoc, skip_digits by (done || lia).
    destruct (sprintf_d v ++ _) eqn:E; [by destruct (sprintf_d v)|]. rewrite <- E. cbn [app].
    rewrite span_app by (apply digits_not; [lia|done]). cbn [drop map].
    rewrite IH by (done || (cbn [length] in *; lia)).
    rewrite <- (app_nil_r (sprintf_d v)), atol_sprintf_d by done. done.
Qed.
Lemma commas_long vals : (length vals <= length (commas vals) + 1)%nat.
Proof.
  induction vals as [|v vals IH]; [cbn; lia|]. destruct vals as [|v' vals]; [cbn [length]; lia|].
  change (commas (v :: v' :: vals)) with (sprintf_d v ++ CONF_COMMA :: commas (v' :: vals)).
  rewrite length_app. cbn [length] in *. lia.
Qed.
Lemma count_app c l k : count_chr c (l ++ k) = count_chr c l + count_chr c k.
Proof. unfold count_chr, lenZ. rewrite filter_app, length_app. lia. Qed.
Lemma count_none c l : Forall (fun x => x <> c) l -> count_chr c l = 0.
Proof.
  intros Hl. unfold count_chr, lenZ. induction Hl as [|x l Hx _ IH]; [done|].
  rewrite filter_cons_False by done. done.
Qed.
Lemma count_commas vals :
  vals <> [] -> Forall (fun v => 0 <= v < 2147483648) vals ->
  count_chr CONF_COMMA (commas vals ++ [10]) + 1 = lenZ vals.
Proof.
  intros Hne Hr. rewrite count_app. change (count_chr CONF_COMMA [10]) with 0.
  induction Hr as [|v vals Hv Hr IH]; [done|].
  destruct vals as [|v' vals]; [cbn [commas]; by rewrite count_none by (apply digits_not; [lia|done])|].
  change (commas (v :: v' :: vals)) with (sprintf_d v ++ CONF_COMMA :: commas (v' :: vals)).
  rewrite count_app, count_none by (apply digits_not; [lia|done]).
  change (count_chr CONF_COMMA (CONF_COMMA :: commas (v' :: vals))) with
    (count_chr CONF_COMMA ([CONF_COMMA] ++ commas (v' :: vals))).
  rewrite count_app. change (count_chr CONF_COMMA [CONF_COMMA]) with 1.
  rewrite !lenZ_cons in *. specialize (IH ltac:(done)). lia.
Qed.

(** ** Reading a printed file *)

Section Volume.
Context {W : Type} `{OsOps W, FileOps W}.
Abbreviation S := (mach W codec_g).

(** A state with the same ledgers, and the same globals but for the tables. *)
Definition only_vol (v : volume_array) (s s' : S) : Prop :=
  heap_live s' = heap_live s /\ fds_live s' = fds_live s /\ glob s' = with_vol v (glob s).
Lemma only_vol_self s : only_vol (cg_vol (glob s)) s s.
Proof. split_and!; [done..|]. by destruct (glob s). Qed.
Lemma only_vol_trans v1 v2 s1 s2 s3 : only_vol v1 s1 s2 -> only_vol v2 s2 s3 -> only_vol v2 s1 s3.
Proof. intros (A1 & A2 & A3) (B1 & B2 & B3). split_and!; [congruence..|]. by rewrite B3, A3. Qed.
Lemma only_vol_cg v s s' : only_vol v s s' -> cg_vol (glob s') = v.
Proof. intros (_ & _ & ->). done. Qed.

Hypothesis malloc_works : forall n w, 0 < fst (os_malloc n w).

Lemma malloc_step {B} (k : Z -> M S B) n s Q :
  (forall p w, 0 < p -> yields (k p) (Mach w (heap_live s + 1) (fds_live s) (glob s)) Q) ->
  yields (bind (c_malloc n) k) s Q.
Proof.
  intros Hk. apply yields_malloc. intros p w E. pose proof (malloc_works n (world s)) as Hp.
  rewrite E in Hp. cbn [fst] in Hp. rewrite (proj2 (Z.eqb_neq p 0)) by lia. by apply Hk.
Qed.

Lemma process_line_run t row rest s :
  row_ok t row ->
  yields (process_line (print_row row ++ rest)) s (fun '(p, vals, f) s' =>
    0 < p /\ vals = snd row /\ f = rest /\ heap_live s' = heap_live s + 1 /\
    fds_live s' = fds_live s /\ glob s' = glob s).
Proof.
  destruct row as [name vals]. intros (Hn & Heq & Hne & _ & Hr & Hlen). cbn [fst snd] in *.
  assert (Forall (fun c => c <> 0 /\ c <> 10) (commas vals)) as Hc.
  { clear Hlen Hne. induction Hr as [|v l Hv Hr IH]; [constructor|].
    assert (Forall (fun c => c <> 0 /\ c <> 10) (sprintf_d v)) as Hd
      by (apply Forall_and; split; apply digits_not; lia || done).
    destruct l; [done|]. apply Forall_app. split; [done|]. by constructor. }
  assert (Forall (fun c => c <> 0 /\ c <> 10) (name ++ CONF_EQUALS :: commas vals)) as Hl
    by (apply Forall_app; split; [done|by constructor]).
  unfold process_line, print_row. cbn [fst snd].
  replace ((name ++ CONF_EQUALS :: commas vals ++ [10]) ++ rest)
    with ((name ++ CONF_EQUALS :: commas vals) ++ 10 :: rest) by (by rewrite <- !app_assoc; cbn [app]; rewrite <- app_assoc).
  assert (Forall (fun c => c <> 10) (name ++ CONF_EQUALS :: commas vals)) as Hl10
    by (eapply Forall_impl; [exact Hl|by intros c []]).
  assert (Forall (fun c => c <> 0) ((name ++ CONF_EQUALS :: commas vals) ++ [10])) as Hl0
    by (apply Forall_app; split; [eapply Forall_impl; [exact Hl|by intros c []]|by repeat constructor]).
  rewrite fgets_line; [|done|].
  2:{ unfold print_row in Hlen. cbn [fst snd] in Hlen. unfold lenZ in *.
      rewrite !length_app in *. cbn [length] in *. rewrite length_app in Hlen. cbn [length] in Hlen. lia. }
  eapply yields_checked; [by apply cstr_app|].
  eapply yields_checked; [unfold after_chr; by rewrite <- app_assoc; cbn [app]; rewrite span_app|].
  cbv zeta. rewrite count_commas by done.
  apply malloc_step. intros p w Hp. unfold strtok_all.
  rewrite tokens_commas; [|done..|rewrite length_app; pose proof (commas_long vals); cbn [length]; lia].
  rewrite (proj2 (Z.eqb_neq p 0)) by lia. apply yields_ask. rewrite Z.ltb_irrefl. apply yields_ret.
  unfold lenZ. rewrite Nat2Z.id, Nat.sub_diag. cbn [seq map]. by rewrite app_nil_r.
Qed.

Lemma read_tables_run tables rows : Forall2 row_ok tables rows -> forall rest s,
  yields (read_tables tables (concat (map print_row rows) ++ rest)) s (fun '(ok, f) s' =>
    ok = true /\ f = rest /\ only_vol (foldl put_row (cg_vol (glob s)) (zip tables rows)) s s').
Proof.
  induction 1 as [|t row tables rows Hrow _ IH]; intros rest s; cbn [map concat read_tables app].
  { apply yields_ret. split_and!; [done..|]. apply only_vol_self. }
  rewrite <- app_assoc. eapply yields_bind; [by eapply process_line_run|].
  intros [[p vals] f] s1 (Hp & -> & -> & Hh & Hf & Hg). rewrite (proj2 (Z.eqb_neq p 0)) by lia.
  destruct Hrow as (_ & _ & _ & Hlen & _ & _). rewrite (proj2 (Nat.ltb_ge _ _) Hlen).
  apply yields_set_glob. apply yields_free; [done|]. cbn [world heap_live fds_live glob].
  eapply yields_mono; [apply IH|]. intros [ok f] s2 (-> & -> & Hs). cbn [glob] in Hs.
  split_and!; [done..|]. cbn [zip_with foldl].
  destruct Hs as (A1 & A2 & A3). cbn [heap_live fds_live glob] in *. rewrite Hg in *. cbn in A3 |- *.
  split_and!; [lia|lia|]. rewrite A3. done.
Qed.

(** *** A turn of the loop *)

Lemma section_key key tables :
  conf_section key = Some tables ->
  Forall (fun c => c <> 0 /\ c <> 10) key /\ Forall (fun c => c <> CONF_BRACKET) key /\ lenZ key < 20.
Proof.
  unfold conf_section. intros E.
  repeat (case_bool_decide; [subst; split_and!; [repeat constructor..|done]; done|]). done.
Qed.

(** The array holds the line, a NUL, and old bytes. *)
Lemma linebuf_line l linebuf :
  lenZ linebuf = 100 -> lenZ l < MAX_LINE_SZ ->
  bblit 0 (l ++ [0]) linebuf = l ++ 0 :: drop (length l + 1) linebuf /\
  lenZ (bblit 0 (l ++ [0]) linebuf) = 100.
Proof.
  intros Hb Hl. unfold MAX_LINE_SZ in *. split.
  - unfold bblit. cbn [Z.to_nat take app Nat.add]. rewrite <- app_assoc, length_app. done.
  - rewrite lenZ_bblit; [done|lia|]. rewrite lenZ_app, Hb. change (lenZ [0]) with 1. lia.
Qed.

Lemma conf_round_run i linebuf set rest s :
  item_ok i -> lenZ linebuf = 100 ->
  yields (conf_round 0 linebuf set (print_item i ++ rest)) s (fun r s' =>
    exists linebuf', r = inl (0, linebuf', is_sect i || set, rest) /\ lenZ linebuf' = 100 /\
      only_vol (apply_item (cg_vol (glob s)) i) s s').
Proof.
  intros Hi Hb.
  set (l := match i with Blank => [] | Note text => CONF_COMMENT :: text
            | Sect key _ => 91 :: key ++ [CONF_BRACKET] end).
  set (tl := match i with Sect _ rows => concat (map print_row rows) | _ => [] end).
  assert (print_item i ++ rest = l ++ 10 :: tl ++ rest) as ->.
  { unfold l, tl. destruct i; cbn [print_item app]; [done|..]; rewrite <- !app_assoc; done. }
  assert (Forall (fun c => c <> 0 /\ c <> 10) l /\ lenZ l + 1 < MAX_LINE_SZ) as [Hl Hlen].
  { unfold l, MAX_LINE_SZ. destruct i as [|text|key rows]; cbn [item_ok] in Hi.
    - by split; [constructor|].
    - destruct Hi as [Ht Hn]. unfold MAX_LINE_SZ in Hn. rewrite lenZ_cons. split; [by constructor|lia].
    - destruct Hi as (tables & E & _). destruct (section_key _ _ E) as (Hk & _ & Hn).
      rewrite lenZ_cons, lenZ_app. change (lenZ [CONF_BRACKET]) with 1. split; [|lia].
      constructor; [done|]. apply Forall_app. split; [done|by repeat constructor]. }
  unfold conf_round. rewrite fgets_line; [|eapply Forall_impl; [exact Hl|by intros c []]|done].
  assert (lenZ (l ++ [10]) < MAX_LINE_SZ) as Hlen' by (rewrite lenZ_app; change (lenZ [10]) with 1; lia).
  destruct (linebuf_line (l ++ [10]) linebuf Hb Hlen') as [Eb Hb'].
  assert (Forall (fun c => c <> 0) (l ++ [10])) as Hl0
    by (apply Forall_app; split; [eapply Forall_impl; [exact Hl|by intros c []]|by repeat constructor]).
  set (lb := bblit 0 ((l ++ [10]) ++ [0]) linebuf) in *. clearbody lb. cbv zeta.
  change (Z.to_nat 0) with 0%nat. rewrite drop_0.
  eapply yields_checked with (a := 0); [rewrite Eb; unfold l; by destruct i|]. change (0 + 0) with 0.
  assert (bget lb 0 = Some (match i with Blank => 10 | Note _ => CONF_COMMENT | _ => 91 end)) as E1
    by (rewrite Eb; unfold l; by destruct i).
  eapply yields_checked; [exact E1|].
  assert (cstr lb = Some (l ++ [10])) as E2 by (rewrite Eb; by apply cstr_app).
  destruct i as [|text|key rows]; subst l tl; cbn [is_sect orb app apply_item].
  - change (10 =? CONF_COMMENT) with false. cbn iota. change (Z.to_nat 0) with 0%nat. rewrite drop_0.
    eapply yields_checked; [exact E2|]. cbn. apply yields_ret.
    eexists. split_and!; [done..|]. apply only_vol_self.
  - rewrite Z.eqb_refl. apply yields_ret. eexists. split_and!; [done..|]. apply only_vol_self.
  - change (91 =? CONF_COMMENT) with false. cbn iota. change (Z.to_nat 0) with 0%nat. rewrite drop_0.
    eapply yields_checked; [exact E2|]. destruct Hi as (tables & E & Hrows). rewrite E.
    destruct (section_key _ _ E) as (_ & Hk & _).
    change (skip_chr CONF_BRACKET ((91 :: key ++ [CONF_BRACKET]) ++ [10]))
      with ((91 :: key ++ [CONF_BRACKET]) ++ [10]).
    replace ((91 :: key ++ [CONF_BRACKET]) ++ [10]) with ((91 :: key) ++ CONF_BRACKET :: [10])
      by (cbn [app]; by rewrite <- app_assoc).
    rewrite span_app by (by constructor). cbn iota beta. rewrite E.
    eapply yields_bind; [by apply read_tables_run|]. intros [ok f] s1 (-> & -> & Hs).
    apply yields_ret. eexists. split_and!; [done| |done]. rewrite lenZ_bblit; [done|..].
    + unfold lenZ. rewrite length_app. cbn [length]. lia.
    + unfold lenZ in *. rewrite length_app. cbn [length] in *. rewrite length_app in Hlen. cbn [length] in *.
      unfold MAX_LINE_SZ in *. lia.
Qed.

Lemma conf_loop_run items : Forall item_ok items -> forall fuel linebuf set s,
  lenZ linebuf = 100 -> (length items < fuel)%nat ->
  yields (conf_loop fuel 0 linebuf set (concat (map print_item items))) s (fun r s' =>
    r = (if existsb is_sect items || set then 0 else -1) /\
    only_vol (foldl apply_item (cg_vol (glob s)) items) s s').
Proof.
  induction 1 as [|i items Hi _ IH]; intros fuel linebuf set s Hb Hf;
    (destruct fuel as [|fuel]; [lia|]); cbn [map concat conf_loop length existsb foldl] in *.
  - apply yields_ret_bind, yields_ret. split; [done|]. apply only_vol_self.
  - eapply yields_bind; [by apply conf_round_run|]. cbn beta.
    intros r s1 (lb & -> & Hlb & Hs). eapply yields_mono; [apply IH; [done|lia]|].
    intros v s2 [-> Hs2]. split; [by rewrite orb_assoc, (orb_comm _ (is_sect i))|].
    rewrite (only_vol_cg _ _ _ Hs) in Hs2. by eapply only_vol_trans.
Qed.

Lemma volume_file_run items s :
  conf_bytes config_file (world s) = Some (concat (map print_item items)) ->
  Forall item_ok items ->
  exists s', get_volume_config s = Done (if existsb is_sect items then 0 else -1) s' /\
    only_vol (foldl apply_item volume_zero items) s s'.
Proof.
  intros Ef Hok. 
  assert (length items <= length (concat (map print_item items)))%nat as Hlen.
  { clear Ef Hok. induction items as [|i items IH]; [done|]. cbn [map concat length].
    rewrite length_app. destruct i; cbn [print_item length app]; lia. }
  destruct (yields_Done get_volume_config s (fun r s' =>
    r = (if existsb is_sect items || false then 0 else -1) /\
    only_vol (foldl apply_item volume_zero items) s s')) as (r & s' & E & -> & Hs).
  - unfold get_volume_config. apply yields_set_glob. apply yields_ask. cbn [world]. rewrite Ef.
    apply yields_ask. eapply yields_mono; [apply conf_loop_run; [done| |lia]|].
    + unfold lenZ, zeros. rewrite length_take, length_app, length_replicate. lia.
    + intros r s' [-> Hs]. split; [done|]. done.
  - exists s'. by rewrite orb_false_r in E.
Qed.

(** C39: The volume file means what it says.  Take any sequence of blank lines,
    comments and sections - of a known key, with the rows it needs, of numbers
    in range, on lines shorter than the buffer - and the file that prints it:
    with memory to be had, [get_volume_config] returns 0 when a section is there
    and -1 otherwise, the tables are those of the sections in order over tables
    of zeros, and all the memory it took is free again. *)
Theorem volume_file_means items s :
  conf_bytes config_file (world s) = Some (concat (map print_item items)) ->
  Forall item_ok items ->
  exists s', get_volume_config s = Done (if existsb is_sect items then 0 else -1) s' /\
    only_vol (foldl apply_item volume_zero items) s s'.
Proof. apply volume_file_run. Qed.
End Volume.

(** ** Any file at all *)

Section AnyFile.
Context {W : Type} `{OsOps W, FileOps W}.
Abbreviation S := (mach W codec_g).

(** The call does not block, and [Q] holds of what it returns. *)
Definition ends {A} (m : M S A) (s : S) (Q : A -> Prop) : Prop :=
  match m s with Done a _ => Q a | Blocked => False | Undef => True end.
Lemma ends_bind {A B} (m : M S A) (k : A -> M S B) s P Q :
  ends m s P -> (forall a s', P a -> ends (k a) s' Q) -> ends (bind m k) s Q.
Proof. unfold ends, bind. destruct (m s); [|done..]. intros HP Hk. by apply Hk. Qed.
Lemma ends_checked {A B} (o : option A) (k : A -> M S B) s Q :
  (forall a, o = Some a -> ends (k a) s Q) -> ends (bind (checked o) k) s Q.
Proof. unfold ends. destruct o; mrun; [|done]. intros Hk. by apply Hk. Qed.
Lemma ends_ret {A} (a : A) s (Q : A -> Prop) : Q a -> ends (ret a : M S A) s Q.
Proof. done. Qed.

Lemma take_line_length n : forall f l r, take_line n f = (l, r) -> length f = (length l + length r)%nat.
Proof.
  induction n as [|n IH]; intros f l r E; cbn [take_line] in E; [by inv E|].
  destruct f as [|c f]; [by inv E|]. destruct (c =? 10); [by inv E|].
  destruct (take_line n f) as [l' r'] eqn:E'. inv E. cbn [length]. apply IH in E'. lia.
Qed.
Lemma fgets_shorter f l r : fgets f = Some (l, r) -> (length r < length f)%nat.
Proof.
  destruct f as [|c f]; [done|]. intros E. unfold fgets in E.
  change (Z.to_nat (MAX_LINE_SZ - 1)) with (Datatypes.S 98) in E.
  set (n := 98%nat) in E. clearbody n. cbn [take_line] in E.
  destruct (c =? 10); [inv E; cbn [length]; lia|].
  destruct (take_line n f) as [l' r'] eqn:E'. inv E. apply take_line_length in E'. cbn [length]. lia.
Qed.

Lemma process_line_ends f s :
  ends (process_line f) s (fun '(p, _, r) => (length r <= length f)%nat).
Proof.
  unfold process_line. destruct (fgets f) as [[l r]|] eqn:E; [|by apply ends_ret].
  apply fgets_shorter in E.
  apply ends_checked; intros t _. apply ends_checked; intros line _. cbv zeta.
  apply ends_bind with (P := fun _ => True); [unfold ends, c_malloc; by destruct (os_malloc _ _)|].
  intros p s1 _. destruct (_ && _); [done|].
  unfold ends. mrun.
  case_test; [done|]. unfold ret. lia.
Qed.
Lemma read_tables_ends tables : forall f s,
  ends (read_tables tables f) s (fun '(_, r) => (length r <= length f)%nat).
Proof.
  induction tables as [|t tables IH]; intros f s; cbn [read_tables]; [by apply ends_ret|].
  eapply ends_bind; [apply process_line_ends|]. intros [[p vals] r] s1 Hr. cbn beta in Hr.
  destruct (p =? 0); [by apply ends_ret|].
  apply ends_bind with (P := fun _ => True); [by case_test|]. intros _ s2 _.
  apply ends_bind with (P := fun _ => True); [done|]. intros _ s3 _.
  specialize (IH r s3). unfold ends in *. destruct (read_tables tables r s3) as [[ok r'] ?| |]; [|done..].
  cbn beta iota in IH |- *. lia.
Qed.

Definition shorter {A} (f : bytes) (r : A * bytes + Z) : Prop :=
  match r with inl (_, f') => (length f' < length f)%nat | inr v => v = 0 \/ v = -1 end.
Lemma conf_round_ends i linebuf set f s : ends (conf_round i linebuf set f) s (shorter f).
Proof.
  unfold conf_round. destruct (fgets f) as [[l r]|] eqn:E;
    [|apply ends_ret; destruct set; cbn; auto].
  apply fgets_shorter in E. cbv zeta.
  apply ends_checked; intros k _. apply ends_checked; intros c _. case_test; [done|].
  apply ends_checked; intros line _. destruct (span _ _) as [key_name r'].
  destruct key_name as [|c' key]; [done|]. destruct (conf_section key) as [tables|]; [|done].
  eapply ends_bind; [apply read_tables_ends|]. intros [ok f'] s1 Hf. destruct ok; apply ends_ret; cbn; [lia|auto].
Qed.

Lemma conf_loop_ends fuel : forall i linebuf set f s,
  (length f < fuel)%nat -> ends (conf_loop fuel i linebuf set f) s (fun r => r = 0 \/ r = -1).
Proof.
  induction fuel as [|fuel IH]; intros i linebuf set f s Hf; [lia|]. cbn [conf_loop].
  eapply ends_bind; [apply conf_round_ends|]. intros [[[[i' lb] set'] f']|v] s1 Hr; cbn [shorter] in Hr.
  - apply IH. lia.
  - by apply ends_ret.
Qed.

End AnyFile.

(** ** Witnesses *)

(** A file as the board's: notes, blank lines, a section over an earlier one. *)
Definition demo_items : list conf_item := [
  Note (str "Configuration file for the audio volume "); Blank;
  Sect (str "PHONE_SPEAKER") [(str "phonepn_gain 	", [1; 4; 4; 4; 4; 7]); (str "mixer_gain   	", [3; 3; 3; 4; 5; 7]);
    (str "spk_gain  	", [25; 26; 28; 29; 31; 31])];
  Blank; Note []; Sect (str "BLUETOOTH_UP") [(str "pcm_vol		", [9])];
  Sect (str "FM_SPEAKER") [(str "line_gain", [2; 3; 4; 5; 6; 7]); (str "spk_gain", [21; 23; 25; 26; 28; 30])];
  Sect (str "BLUETOOTH_UP") [(str "pcm_vol", [8])]
].
Definition demo_file : bytes := concat (map print_item demo_items).
Lemma demo_items_ok : Forall item_ok demo_items.
Proof.
  repeat apply List.Forall_cons; try apply List.Forall_nil; cbn [item_ok].
  all: try done.
  all: try (eexists; split; [reflexivity|]).
  all: unfold row_ok, line_text; repeat constructor; cbn; done || lia.
Qed.

Lemma volume_file_means_witness :
  exists s', @get_volume_config _ codec_os (sim_file (Some demo_file)) (board_state []) = Done 0 s' /\
    only_vol (foldl apply_item volume_zero demo_items) (board_state []) s' /\
    speaker_spk_gain (foldl apply_item volume_zero demo_items) = [25; 26; 28; 29; 31; 31] /\
    up_pcm_gain (foldl apply_item volume_zero demo_items) = 8.
Proof.
  destruct (@volume_file_means _ codec_os (sim_file (Some demo_file))) with (items := demo_items)
    (s := board_state []) as (s' & E & Ho).
  - intros n w. cbn. lia.
  - reflexivity.
  - apply demo_items_ok.
  - exists s'. split_and!; [exact E|exact Ho|reflexivity|reflexivity].
Defined.

(** A note that is indented by one space shifts every later line: the section
    after it is not found, and the call fails. *)
Definition indented (text : bytes) : bytes := 32 :: CONF_COMMENT :: text ++ [10].
Lemma volume_indent_sticks :
  let file := print_item (Sect (str "BLUETOOTH_UP") [(str "pcm_vol", [8])]) in
  (match @get_volume_config _ codec_os (sim_file (Some file)) (board_state []) with
   | Done r s => (r, up_pcm_gain (cg_vol (glob s))) | _ => (1, 0) end) = (0, 8) /\
  (match @get_volume_config _ codec_os (sim_file (Some (indented [] ++ file))) (board_state []) with
   | Done r s => (r, up_pcm_gain (cg_vol (glob s))) | _ => (1, 0) end) = (-1, 0).
Proof. vm_compute. by split. Qed.
