(* ===== verification/CodecSetup.v ===== *)
(** * libcodec_audio: building a client

    [get_mixer] under every answer of the kernel; the client that
    [codec_client_new] returns, and what it leaves behind when it fails. *)

From stdpp Require Import strings.
From S2P Require Import Prelude CLib Os Snd Mixer MixerLife Codec CodecPad CodecPlanOne CodecPlanTwo VolumeConf CodecRoute CodecSim VolumeTheorems CodecClient.

Section Setup.
Context {W : Type} `{OsOps W, MixOps W}.
Abbreviation S := (mach W codec_g).

Definition mixer_part (s : S) : mach W (gmap Z mixer) :=
  Mach (world s) (heap_live s) (fds_live s) (cg_mixers (glob s)).

Lemma in_mixer_yields {A} (m : M (mach W (gmap Z mixer)) A) s Q :
  yields m (mixer_part s) Q ->
  yields (in_mixer m) s (fun a s' => Q a (mixer_part s') /\
    glob s' = with_mixers (cg_mixers (glob s')) (glob s)).
Proof.
  unfold yields, in_mixer, zoom, mixer_part. destruct (m _) as [a s1| |]; [|done..].
  intros HQ. cbn. split; [by destruct s1|done].
Qed.

Lemma mixer_part_eq (s s1 : S) :
  mixer_part s1 = mixer_part s -> glob s1 = with_mixers (cg_mixers (glob s1)) (glob s) -> s1 = s.
Proof.
  destruct s as [w h f g], s1 as [w1 h1 f1 g1]. cbn. intros [= -> -> -> Eg] Eg1. rewrite Eg1, Eg. by destruct g.
Qed.

(** [find_ctl] finds an entry of that name, when there is one. *)
Lemma find_ctl_found info name : forall i,
  find_ctl (length info) i info name = Some None \/
  exists k e, find_ctl (length info) i info name = Some (Some (i + Z.of_nat k)) /\
    info !! k = Some e /\ ei_name e = name.
Proof.
  induction info as [|e info IH]; intros i; cbn [length find_ctl]; [by left|].
  case_bool_decide as E.
  - right. exists 0%nat, e. split_and!; [f_equal; f_equal; lia|done|done].
  - destruct (IH (i + 1)) as [->|(k & e' & -> & ? & ?)]; [by left|].
    right. exists (Datatypes.S k), e'. split_and!; [f_equal; f_equal; lia|done|done].
Qed.

(** The field points to the control of that name. *)
Definition points (p : Z) (m : mixer) (s : S) (fn : ctl_field * string) : Prop :=
  exists k e, cg_ctls (glob s) (fst fn) = Some (p, k) /\ 0 <= k /\
    mx_info m !! Z.to_nat k = Some e /\ ei_name e = str (snd fn).

(** No field is given two names. *)
Definition one_name (l : list (ctl_field * string)) : Prop :=
  forall f n n', (f, n) ∈ l -> (f, n') ∈ l -> n = n'.
Lemma ctl_table_names : one_name ctl_table.
Proof.
  assert (Forall (fun a => Forall (fun b => fst a = fst b -> snd a = snd b) ctl_table) ctl_table) as Hf.
  { refine (bool_decide_unpack _ _). by vm_compute. }
  intros f n n' Hn Hn'. rewrite Forall_forall in Hf. specialize (Hf _ Hn). rewrite Forall_forall in Hf.
  by apply (Hf _ Hn').
Qed.

(** Only the mixers and the fields changed. *)
Definition others (s s' : S) : Prop :=
  cg_vol (glob s') = cg_vol (glob s) /\ cg_one (glob s') = cg_one (glob s) /\
  cg_two (glob s') = cg_two (glob s) /\ cg_clients (glob s') = cg_clients (glob s).
Lemma others_trans s1 s2 s3 : others s1 s2 -> others s2 s3 -> others s1 s3.
Proof. unfold others. intuition congruence. Qed.
Lemma others_part s s' : glob s' = with_mixers (cg_mixers (glob s')) (glob s) -> others s s'.
Proof. unfold others. by intros ->. Qed.

Lemma get_ctls_run p m fd h f l : forall prev s,
  mid_owned p h f 0 m fd (mixer_part s) -> one_name (prev ++ l) ->
  (forall x, x ∈ prev -> points p m s x) ->
  yields (get_ctls l p) s (fun r s' =>
    others s s' /\
    (r = -1 /\ heap_live s' = h /\ fds_live s' = f \/
     r = 0 /\ mid_owned p h f 0 m fd (mixer_part s') /\ forall x, x ∈ prev ++ l -> points p m s' x)).
Proof.
  induction l as [|[g name] l IH]; intros prev s Hm Hone Hprev; cbn [get_ctls].
  { apply yields_ret. split; [done|]. right. rewrite app_nil_r. done. }
  assert (yields (mixer_get_ctl_by_name p (str name)) (mixer_part s) (fun c s' => s' = mixer_part s /\
    (c = None \/ exists k e, c = Some (p, k) /\ 0 <= k /\ mx_info m !! Z.to_nat k = Some e /\
       ei_name e = str name))) as Hget.
  { destruct Hm as [Ho Hp _ _ Hlen Hok _ _ _]. unfold mixer_get_ctl_by_name.
    rewrite (proj2 (Z.eqb_neq p 0) Hp). apply (yields_the_mixer _ _ _ _ _ Ho).
    rewrite <- Hlen, (Forall2_length _ _ _ Hok).
    destruct (find_ctl_found (mx_info m) (str name) 0) as [->|(k & e & -> & Ek & En)];
      (eapply yields_checked; [reflexivity|]); apply yields_ret; (split; [done|]); [by left|right].
    exists (Z.of_nat k), e. cbn [option_map Z.add]. rewrite Nat2Z.id. split_and!; [done|lia|done|done]. }
  eapply yields_bind; [apply in_mixer_yields, Hget|]. intros c s1 [[E1 Hc] Hg1].
  apply yields_set_glob.
  assert (s1 = s) as -> by (by apply mixer_part_eq). clear E1 Hg1 Hget.
  set (s2 := Mach _ _ _ _).
  assert (mid_owned p h f 0 m fd (mixer_part s2)) as Hm2 by (destruct Hm; by split).
  destruct Hc as [->|(k & e & -> & Hk & Ek & En)].
  - eapply yields_bind.
    { apply in_mixer_yields. eapply mixer_close_run, mid_owns, Hm2. }
    intros [] s3 [(Eh & Ef & _) Hg3]. apply yields_ret. split; [by apply (others_part s2)|]. left. cbn [mixer_part heap_live fds_live] in *.
    split_and!; [done|lia|done].
  - replace (prev ++ (g, name) :: l) with ((prev ++ [(g, name)]) ++ l) in * by (by rewrite <- app_assoc).
    eapply yields_mono; [apply IH; [done|done|]|].
    2:{ intros r s3 [Ho Hr]. split; [exact Ho|exact Hr]. }
    intros [g' n'] Hx.
    destruct (decide (g' = g)) as [->|Hne].
    + assert (n' = name) as ->.
      { apply (Hone g); apply elem_of_app; left; [done|]. apply elem_of_app. right. by left. }
      exists k, e. split_and!; [|done..]. cbn [fst s2 glob with_ctl cg_ctls]. by rewrite decide_True.
    + apply elem_of_app in Hx as [Hx|Hx]; [|by apply list_elem_of_singleton in Hx; injection Hx as -> ->].
      destruct (Hprev _ Hx) as (k' & e' & E1 & E2 & E3 & E4). exists k', e'. split_and!; [|done..].
      cbn [fst s2 glob with_ctl cg_ctls] in *. by rewrite decide_False.
Qed.

Hypothesis list_law : forall fd space w, 0 <= snd (fst (fst (mix_list (W := W) fd space w))).

(** What [get_mixer] leaves, and what it returns. *)
Definition connected (r : Z) (s s' : S) : Prop :=
  r = -1 /\ heap_live s' = heap_live s /\ fds_live s' = fds_live s \/
  r = 0 /\ fds_live s' = fds_live s + 1 /\ exists p m, cg_mixers (glob s') !! p = Some m /\
    forall x, x ∈ ctl_table -> points p m s' x.

Lemma get_mixer_run (s : S) :
  yields get_mixer s (fun r s' => others s s' /\ connected r s s').
Proof.
  unfold get_mixer.
  eapply yields_bind; [apply in_mixer_yields, (mixer_open_run 0 _ list_law)|].
  intros p s1 [[(-> & Hh & Hf)|(m & fd & Hm)] Hg].
  - apply yields_ret. split; [by apply others_part|]. by left.
  - rewrite (proj2 (Z.eqb_neq p 0) (mi_addr _ _ _ _ _ _ _ Hm)).
    eapply yields_mono; [apply (get_ctls_run _ _ _ _ _ _ [] _ Hm); [apply ctl_table_names|]|].
    + intros x Hx. by apply elem_of_nil in Hx.
    + intros r s2 [Ho Hr]. split; [by eapply others_trans; [apply others_part|]|].
      destruct Hr as [(-> & Hh & Hf)|(-> & Hm2 & Hp)]; [by left|right]. split; [done|].
      split; [apply (mi_fds _ _ _ _ _ _ _ Hm2)|]. exists p, m. split; [apply (mi_object _ _ _ _ _ _ _ Hm2)|done].
Qed.

(** Connecting to the card, whatever the kernel answers and whichever
    allocation fails: [get_mixer] returns, and either it returns -1 and holds no
    memory and no descriptor more than before, or it returns 0 with a mixer in
    which every field of the table points to a control of the field's own
    name. *)
Theorem get_mixer_connects (s : S) :
  exists r s', get_mixer s = Done r s' /\ others s s' /\ connected r s s'.
Proof. by apply yields_Done, get_mixer_run. Qed.
End Setup.

(** ** The client *)

Section Client.
Context {W : Type} `{OsOps W, MixOps W, PropOps W, FileOps W}.
Abbreviation S := (mach W codec_g).

Hypothesis list_law : forall fd space w, 0 <= snd (fst (fst (mix_list (W := W) fd space w))).
Hypothesis malloc_works : forall n w, 0 < fst (os_malloc (W := W) n w).

(** What the two properties say: a plan, and a number. *)
Context (device ear : bytes) (n_dev n_ear v_ear : Z).
Hypothesis prop_device : forall w, prop_get (W := W) "ro.sw.audio.codec_plan_name" "0" w = (n_dev, device).
Hypothesis prop_ear : forall w, prop_get (W := W) "audio.without.earpiece" "0" w = (n_ear, ear).
Hypothesis dev_read : 0 < n_dev.
Hypothesis ear_read : 0 < n_ear.
Hypothesis ear_number : atoi_in (ear ++ [0]) = Some v_ear.

(** The plan the property names; a tablet when it names none. *)
Definition chosen : codec_device_desc :=
  let i := find_device codec_devices 0 device in
  default (DeviceDesc "" "" None None None None PAD)
    (codec_devices !! Z.to_nat (if i =? -1 then 0 else i)).

Lemma find_device_range : find_device codec_devices 0 device = -1 \/ 0 <= find_device codec_devices 0 device < 3.
Proof. cbn [codec_devices find_device]. repeat case_test; lia. Qed.

(** The client holds the operations of the plan and all its resources. *)
Definition ready (client : Z) (v : volume_array) (s : S) : Prop :=
  cg_clients (glob s) !! client =
    Some (CodecClient true (cd_normal_ops chosen) (cd_fm_ops chosen) (cd_factory_ops chosen)
                      (cd_phone_ops chosen) true) /\
  cg_vol (glob s) = v /\
  exists p m, cg_mixers (glob s) !! p = Some m /\ forall x, x ∈ ctl_table -> points p m s x.

Lemma put_client_run {B} (k : unit -> M S B) client f c s Q :
  cg_clients (glob s) !! client = Some c ->
  yields (k tt) (Mach (world s) (heap_live s) (fds_live s)
    (with_clients (<[client := f c]> (cg_clients (glob s))) (glob s))) Q ->
  yields (bind (put_client client f) k) s Q.
Proof.
  intros Ec Hk. unfold put_client, the_client. apply yields_assoc, yields_assoc, yields_get_glob.
  rewrite Ec. done.
Qed.

Lemma free_client_run {B} (k : unit -> M S B) client s Q :
  0 < client ->
  (forall s', heap_live s' = heap_live s - 1 -> fds_live s' = fds_live s -> yields (k tt) s' Q) ->
  yields (bind (free_client client) k) s Q.
Proof.
  intros Hp Hk. unfold free_client. apply yields_assoc, yields_free; [done|]. apply yields_set_glob.
  by apply Hk.
Qed.

Lemma device_init_run {B} (k : Z -> M S B) p s Q :
  (forall r s', r <> -1 -> heap_live s' = heap_live s -> fds_live s' = fds_live s ->
     cg_clients (glob s') = cg_clients (glob s) -> cg_mixers (glob s') = cg_mixers (glob s) ->
     yields (k r) s' Q) ->
  yields (bind (device_init p) k) s Q.
Proof.
  intros Hk. destruct p; cbn [device_init].
  - by apply (Hk 0).
  - unfold plan_one_init. apply yields_assoc, yields_ask. rewrite prop_ear, (proj2 (Z.ltb_lt 0 n_ear)) by done.
    apply yields_assoc, yields_assoc. rewrite ear_number. apply yields_checked with (a := v_ear); [done|].
    case_test; apply Hk; done || lia.
  - unfold plan_two_init. apply yields_assoc, yields_ask. rewrite prop_ear, (proj2 (Z.ltb_lt 0 n_ear)) by done.
    apply yields_assoc, yields_assoc. rewrite ear_number. apply yields_checked with (a := v_ear); [done|].
    case_test; apply Hk; done || lia.
Qed.

(** *** The resources *)

Lemma volume_step {B} (k : Z -> M S B) items s Q :
  conf_bytes config_file (world s) = Some (concat (map print_item items)) ->
  Forall item_ok items -> existsb is_sect items = true ->
  (forall s', only_vol (foldl apply_item volume_zero items) s s' -> yields (k 0) s' Q) ->
  yields (bind get_volume_config k) s Q.
Proof.
  intros Ef Hok Hs Hk. destruct (volume_file_run malloc_works items s Ef Hok) as (s' & E & Ho).
  rewrite Hs in E. unfold yields. rewrite (bind_Done _ _ _ _ _ E). by apply Hk.
Qed.

Lemma client_resources_run items client c s :
  (forall w, conf_bytes (W := W) config_file w = Some (concat (map print_item items))) ->
  Forall item_ok items -> existsb is_sect items = true -> 0 < client ->
  cg_clients (glob s) !! client = Some c ->
  cc_normal_ops c = cd_normal_ops chosen -> cc_fm_ops c = cd_fm_ops chosen ->
  cc_factory_ops c = cd_factory_ops chosen -> cc_phone_ops c = cd_phone_ops chosen ->
  yields (client_resources client) s (fun r s' =>
    r = 0 /\ heap_live s' = heap_live s - 1 /\ fds_live s' = fds_live s \/
    r = client /\ ready client (foldl apply_item volume_zero items) s').
Proof.
  intros Hfile Hok Hsect Hp Ec E1 E2 E3 E4. unfold client_resources.
  eapply yields_bind; [by apply get_mixer_run|].
  intros r s1 [(Ov & O1 & O2 & Oc) [(-> & Hh & Hf)|(-> & Hf & p & m & Em & Hpts)]].
  - change (-1 <? 0) with true. cbn iota. apply free_client_run; [done|]. intros s2 Eh Ef.
    apply yields_ret. left. split_and!; [done|lia|lia].
  - change (0 <? 0) with false. cbn iota. eapply put_client_run; [by rewrite Oc|].
    eapply volume_step; [apply Hfile|done|done|]. intros s2 (Hh2 & Hf2 & Hg2).
    change (0 <? 0) with false. cbn iota. cbn [glob] in Hg2.
    eapply put_client_run; [rewrite Hg2; apply lookup_insert_eq|].
    apply yields_ret. right. split; [done|]. rewrite Hg2. unfold ready.
    cbn [glob with_clients with_vol cg_clients cg_vol cg_mixers cc_mixer_ctls cc_normal_ops cc_fm_ops
         cc_factory_ops cc_phone_ops]. rewrite insert_insert_eq, lookup_insert_eq, E1, E2, E3, E4.
    split_and!; [done|done|]. exists p, m. split; [done|]. exact Hpts.
Qed.

(** C35: A client is all there or not there at all. Take the properties of the
    board as they are documented, a volume file made of sections, and memory;
    whatever the control device answers, [codec_client_new] returns: either NULL,
    with no memory and no descriptor more in use than before; or a client with
    the operations of the plan the property names - a tablet's when it names none
    -, the tables of the volume file, and every control field that get_mixer
    looks up on a control of its name (two fields it never assigns). *)
Theorem client_new_outcome items s :
  (forall w, conf_bytes (W := W) config_file w = Some (concat (map print_item items))) ->
  Forall item_ok items -> existsb is_sect items = true ->
  exists r s', codec_client_new s = Done r s' /\
    (r = 0 /\ heap_live s' = heap_live s /\ fds_live s' = fds_live s \/
     0 < r /\ ready r (foldl apply_item volume_zero items) s').
Proof.
  intros Hfile Hok Hsect. apply yields_Done. unfold codec_client_new, codec_device_detect.
  apply yields_assoc, yields_ask. rewrite prop_device, (proj2 (Z.leb_gt n_dev 0)) by done.
  apply yields_ret_bind. set (i := if _ =? -1 then 0 else _).
  assert (0 <= i < 3) as Hi by (unfold i; pose proof find_device_range; case_test; lia).
  change codec_devices_count with 3. rewrite (proj2 (Z.ltb_ge i 0)), (proj2 (Z.ltb_ge 3 i)) by lia. cbn [orb].
  apply yields_malloc. intros client w E. pose proof (malloc_works SIZEOF_client (world s)) as Hp.
  rewrite E in Hp. cbn [fst] in Hp. rewrite (proj2 (Z.eqb_neq client 0)) by lia.
  apply yields_set_glob.
  destruct (lookup_lt_is_Some_2 codec_devices (Z.to_nat i)) as [d Ed]; [cbn; lia|].
  eapply yields_checked; [exact Ed|].
  assert (d = chosen) as -> by (unfold chosen; fold i; by rewrite Ed).
  apply device_init_run. intros r s1 Hr Hh Hf Hc Hmx. cbn [heap_live fds_live glob] in *.
  rewrite (proj2 (Z.eqb_neq r (-1)) Hr).
  eapply put_client_run; [rewrite Hc; apply lookup_insert_eq|].
  eapply yields_mono; [eapply client_resources_run; [exact Hfile|done|done|lia|apply lookup_insert_eq|done..]|].
  cbn [heap_live fds_live]. intros r' s' [(-> & Eh & Ef)|[-> Hrdy]]; [left|right; split; [lia|done]].
  split_and!; [done|lia|lia].
Qed.

(** Without a volume file the client is given up but not the mixer: after
    [get_mixer] the failure path frees the client alone, so the descriptor of the
    control device stays open with nothing that refers to it. *)
Theorem client_failure_keeps_mixer client c s :
  (forall w, conf_bytes (W := W) config_file w = None) -> 0 < client ->
  cg_clients (glob s) !! client = Some c ->
  exists r s1, get_mixer s = Done r s1 /\ (r = 0 ->
    exists s', client_resources client s = Done 0 s' /\ cg_clients (glob s') !! client = None /\
      fds_live s' = fds_live s + 1 /\ exists p m, cg_mixers (glob s') !! p = Some m).
Proof.
  intros Hfile Hp Ec.
  destruct (yields_Done _ _ _ (get_mixer_run list_law s)) as (r & s1 & E & (Ov & O1 & O2 & Oc) & Hcon).
  exists r, s1. split; [done|]. intros ->. unfold client_resources.
  destruct Hcon as [(? & _)|(_ & Hf & p & m & Em & _)]; [done|].
  rewrite (bind_Done _ _ _ _ _ E). change (0 <? 0) with false. cbn iota.
  unfold put_client, the_client. mrun. rewrite Oc, Ec. mrun.
  unfold get_volume_config. mrun. rewrite Hfile. mrun. change (-1 <? 0) with true. cbn iota.
  unfold free_client. mrun. unfold bind at 1, c_free. rewrite (proj2 (Z.eqb_neq client 0)) by lia.
  eexists. split; [reflexivity|]. split_and!; [apply lookup_delete_eq|done|]. by exists p, m.
Qed.
End Client.

(** ** Witnesses *)

Lemma board_list_law fd space (w : codec_world) : 0 <= snd (fst (fst (mix_list fd space w))).
Proof. apply lenZ_nonneg. Qed.
Lemma board_malloc_works n (w : codec_world) : 0 < fst (os_malloc n w).
Proof. cbn. lia. Qed.

Definition new_world : mach codec_world codec_g := Mach (CodecWorld 1 ∅) 0 0 codec_initial.

Lemma get_mixer_connects_witness :
  exists r s', get_mixer new_world = Done r s' /\ others new_world s' /\ connected r new_world s'.
Proof. exact (get_mixer_connects board_list_law new_world). Defined.

Lemma client_new_outcome_witness :
  exists r s', @codec_client_new _ codec_os codec_mix one_prop (sim_file (Some demo_file)) new_world = Done r s' /\
    (r = 0 /\ heap_live s' = 0 /\ fds_live s' = 0 \/
     0 < r /\ ready (str "PLAN_ONE") r (foldl apply_item volume_zero demo_items) s') /\
    cd_phone_ops (chosen (str "PLAN_ONE")) = Some PLAN_ONE.
Proof.
  destruct (@client_new_outcome _ codec_os codec_mix one_prop (sim_file (Some demo_file))
    board_list_law board_malloc_works (str "PLAN_ONE") (str "0") 8 1 0
    (fun _ => eq_refl) (fun _ => eq_refl) ltac:(lia) ltac:(lia) eq_refl demo_items new_world
    (fun _ => eq_refl) demo_items_ok eq_refl) as (r & s' & E & Hr).
  exists r, s'. split_and!; [exact E|exact Hr|reflexivity].
Defined.

(** The client the board gives is there. *)
Example board_client_new :
  match @codec_client_new _ codec_os codec_mix one_prop (sim_file (Some demo_file)) new_world with
  | Done r s => (r, fds_live s) | _ => (0, 0) end = (1, 1).
Proof. by vm_compute. Qed.

Definition half_built : mach codec_world codec_g :=
  Mach (CodecWorld 6 ∅) 1 0 (with_clients {[5 := client_zero]} codec_initial).
Lemma client_failure_keeps_mixer_witness :
  exists r s1, get_mixer half_built = Done r s1 /\ (r = 0 ->
    exists s', @client_resources _ codec_os codec_mix (sim_file None) 5 half_built = Done 0 s' /\
      cg_clients (glob s') !! 5 = None /\ fds_live s' = 0 + 1 /\
      exists p m, cg_mixers (glob s') !! p = Some m).
Proof.
  apply (@client_failure_keeps_mixer _ codec_os codec_mix (sim_file None) board_list_law 5 client_zero);
    [done|lia|reflexivity].
Defined.
