(* ===== verification/CodecTheorems.v ===== *)
(** * libcodec_audio: the routing plans

    Where a call goes, on the card of [CodecRoute]: the tables of the plans as
    functions of the path, and that the operations implement them; the outputs
    one at a time; the end of a call; recording. *)

From stdpp Require Import strings.
From S2P Require Import Prelude CLib Os Snd Mixer MixerTheorems Codec CodecPad CodecPlanOne CodecPlanTwo CodecRoute CodecSim.

(** ** Where a call goes *)

Inductive phone_dest := ToEarpiece | ToSpeaker | ToHeadphone | ToHeadset | ToBluetooth | Nowhere.
#[global] Instance phone_dest_eq : EqDecision phone_dest.
Proof. solve_decision. Defined.

(** The priority of the devices of a path; [ne] is 1 on a board with no
    earpiece. *)
Definition dest (path ne : Z) : phone_dest :=
  let earpiece := dev_on path AUDIO_DEVICE_OUT_EARPIECE in
  if earpiece && (ne =? 0) then ToEarpiece
  else if dev_on path AUDIO_DEVICE_OUT_SPEAKER || (earpiece && (ne =? 1)) then ToSpeaker
  else if dev_on path AUDIO_DEVICE_OUT_WIRED_HEADPHONE then ToHeadphone
  else if dev_on path AUDIO_DEVICE_OUT_WIRED_HEADSET then ToHeadset
  else if dev_on path AUDIO_DEVICE_OUT_ALL_SCO then ToBluetooth
  else Nowhere.

Lemma dest_speaker path ne :
  dest path ne = ToSpeaker ->
  dev_on path AUDIO_DEVICE_OUT_SPEAKER || dev_on path AUDIO_DEVICE_OUT_EARPIECE && (ne =? 1) = true.
Proof. unfold dest. by repeat case_test. Qed.

(** A switch that is on for some destinations, untouched when there is none. *)
Definition on_for (d : phone_dest) (l : list phone_dest) (old : Z) : Z :=
  match d with Nowhere => old | _ => if bool_decide (d ∈ l) then 1 else 0 end.
(** A Bluetooth line: off without Bluetooth in the path, on when the call goes
    there, untouched when the call goes elsewhere. *)
Definition bt_line (d : phone_dest) (bt : bool) (old : Z) : Z :=
  if bt then match d with ToBluetooth => 1 | _ => old end else 0.

(** Plan one: what a switch holds after [set_phone_path]. *)
Definition one_route (path ne : Z) (f : ctl_field) (old : Z) : Z :=
  let d := dest path ne in
  let bt := dev_on path AUDIO_DEVICE_OUT_ALL_SCO in
  match f with
  | audio_earpiece_out => on_for d [ToEarpiece] old
  | audio_speaker_out => on_for d [ToSpeaker] old
  | audio_headphone_out => on_for d [ToHeadphone; ToHeadset] old
  | audio_phone_main_mic => on_for d [ToEarpiece; ToSpeaker; ToHeadphone] old
  | audio_phone_headset_mic => on_for d [ToHeadset] old
  | audio_bt_clk_fmt | audio_analog_bt_mic | audio_analog_bt_phonein | audio_bt_out => bt_line d bt old
  | audio_phone_in => if bt then 0 else 1
  | audio_phone_out => 1
  | audio_linein_in => 0
  | _ => old
  end.

(** The writes of plan one, in order. *)
Definition one_line_writes (path : Z) (fm : bool) : writes :=
  (if fm then [] else [(audio_linein_in, 0)]) ++
  (if dev_on path AUDIO_DEVICE_OUT_ALL_SCO then [(audio_phone_in, 0)]
   else [(audio_bt_clk_fmt, 0)] ++ [(audio_analog_bt_mic, 0)] ++ [(audio_analog_bt_phonein, 0)] ++
        [(audio_bt_out, 0)] ++ [(audio_phone_in, 1)]) ++
  [(audio_phone_out, 1)].
Definition one_output_writes (path ne : Z) : writes :=
  match dest path ne with
  | ToEarpiece => [(audio_speaker_out, 0); (audio_headphone_out, 0); (audio_earpiece_out, 1);
                   (audio_phone_headset_mic, 0); (audio_phone_main_mic, 1)]
  | ToSpeaker => [(audio_earpiece_out, 0); (audio_headphone_out, 0); (audio_speaker_out, 1);
                  (audio_phone_headset_mic, 0); (audio_phone_main_mic, 1)]
  | ToHeadphone => [(audio_earpiece_out, 0); (audio_speaker_out, 0); (audio_headphone_out, 1);
                    (audio_phone_headset_mic, 0); (audio_phone_main_mic, 1)]
  | ToHeadset => [(audio_earpiece_out, 0); (audio_speaker_out, 0); (audio_headphone_out, 1);
                  (audio_phone_main_mic, 0); (audio_phone_headset_mic, 1)]
  | ToBluetooth => [(audio_earpiece_out, 0); (audio_headphone_out, 0); (audio_speaker_out, 0);
                    (audio_phone_main_mic, 0); (audio_phone_headset_mic, 0); (audio_bt_clk_fmt, 1);
                    (audio_analog_bt_mic, 1); (audio_analog_bt_phonein, 1); (audio_bt_out, 1)]
  | Nowhere => []
  end.

(** Plan two: the same of its switches; [recording] is set between
    [set_phone_record_enable] on and off.  The speaker is left to
    [set_phone_volume]. *)
Definition two_route (path ne : Z) (recording : bool) (f : ctl_field) (old : Z) : Z :=
  let d := dest path ne in
  let bt := dev_on path AUDIO_DEVICE_OUT_ALL_SCO in
  match f with
  | audio_speaker_out => 0
  | audio_earpiece_out => on_for d [ToEarpiece] old
  | audio_headphone_out => on_for d [ToHeadphone; ToHeadset] old
  | audio_digital_main_mic => on_for d [ToEarpiece; ToSpeaker; ToHeadphone] old
  | audio_digital_headset_mic => on_for d [ToHeadset] old
  | audio_digital_bt_mic | audio_digital_bt_phonein | audio_bt_out => bt_line d bt old
  | audio_bb_bt_clk_fmt => if decide (d = ToBluetooth) then 1 else 0
  | audio_digital_phonein => if decide (d = ToBluetooth) then 0 else 1
  | audio_digital_clk_fmt_status | audio_digital_phone_out => 1
  | audio_linein_in => 0
  | audio_digital_bb_capture_mic =>
      if recording then on_for d [ToEarpiece; ToSpeaker; ToHeadphone; ToHeadset] old else old
  | audio_digital_bb_capture_bt => if recording then on_for d [ToBluetooth] old else old
  | _ => old
  end.

(** The writes of plan two, in order. *)
Definition two_line_writes (path : Z) (fm : bool) : writes :=
  (if fm then [] else [(audio_linein_in, 0)]) ++
  (if dev_on path AUDIO_DEVICE_OUT_ALL_SCO then []
   else [(audio_bb_bt_clk_fmt, 0)] ++ [(audio_digital_bt_mic, 0)] ++ [(audio_digital_bt_phonein, 0)] ++
        [(audio_bt_out, 0)]) ++
  ([(audio_bb_bt_clk_fmt, 0)] ++ [(audio_digital_clk_fmt_status, 1)] ++
   [(audio_digital_phonein, 1)] ++ [(audio_digital_phone_out, 1)]).
Definition capture_mic_writes (recording : bool) : writes :=
  if recording then [(audio_digital_bb_capture_bt, 0)] ++ [(audio_digital_bb_capture_mic, 1)] else [].
Definition two_output_writes (path ne : Z) (recording : bool) : writes :=
  match dest path ne with
  | ToEarpiece =>
      [(audio_headphone_out, 0)] ++ [(audio_earpiece_out, 1)] ++
      [(audio_digital_headset_mic, 0)] ++ [(audio_digital_main_mic, 1)] ++ capture_mic_writes recording ++ []
  | ToSpeaker =>
      [(audio_earpiece_out, 0)] ++ [(audio_headphone_out, 0)] ++
      [(audio_digital_headset_mic, 0)] ++ [(audio_digital_main_mic, 1)] ++ capture_mic_writes recording ++ []
  | ToHeadphone =>
      [(audio_earpiece_out, 0)] ++ [(audio_headphone_out, 1)] ++
      [(audio_digital_headset_mic, 0)] ++ [(audio_digital_main_mic, 1)] ++ capture_mic_writes recording ++ []
  | ToHeadset =>
      [(audio_speaker_out, 0)] ++ [(audio_earpiece_out, 0)] ++ [(audio_headphone_out, 1)] ++
      [(audio_digital_main_mic, 0)] ++ [(audio_digital_headset_mic, 1)] ++ capture_mic_writes recording ++ []
  | ToBluetooth =>
      [(audio_speaker_out, 0)] ++ [(audio_bb_bt_clk_fmt, 1)] ++ [(audio_earpiece_out, 0)] ++
      [(audio_headphone_out, 0)] ++ [(audio_digital_headset_mic, 0)] ++ [(audio_digital_main_mic, 0)] ++
      [(audio_digital_phonein, 0)] ++ [(audio_digital_bt_mic, 1)] ++ [(audio_digital_bt_phonein, 1)] ++
      [(audio_bt_out, 1)] ++
      (if recording then [(audio_digital_bb_capture_mic, 0)] ++ [(audio_digital_bb_capture_bt, 1)] else []) ++ []
  | Nowhere => []
  end.
(** [last_path_is_bt], set at the end of a Bluetooth path. *)
Definition two_note (path ne : Z) (g : codec_g) : codec_g :=
  match dest path ne with
  | ToBluetooth => with_two (set_last_bt true (cg_two g)) g
  | _ => g
  end.

(** At most one of the three outputs is on. *)
Definition one_output (h : ctl_field -> Z) : Prop :=
  (h audio_earpiece_out <> 0 -> h audio_speaker_out = 0 /\ h audio_headphone_out = 0) /\
  (h audio_speaker_out <> 0 -> h audio_headphone_out = 0).

(** Which of earpiece, speaker and headphone may be on, along a list of writes
    to a card that takes every 0: a 1 may have been refused. *)
Definition outputs : Type := bool * bool * bool.
Definition step_outputs (m : outputs) (w : ctl_field * Z) : outputs :=
  let '(e, sp, hp) := m in let on := negb (snd w =? 0) in
  match fst w with
  | audio_earpiece_out => (on, sp, hp)
  | audio_speaker_out => (e, on, hp)
  | audio_headphone_out => (e, sp, on)
  | _ => m
  end.
Definition may_be (m : outputs) (h : ctl_field -> Z) : Prop :=
  let '(e, sp, hp) := m in
  (h audio_earpiece_out <> 0 -> e = true) /\ (h audio_speaker_out <> 0 -> sp = true) /\
  (h audio_headphone_out <> 0 -> hp = true).
Definition at_most_one (m : outputs) : bool :=
  let '(e, sp, hp) := m in negb (e && sp || e && hp || sp && hp).
Definition one_of : list outputs := [(true, false, false); (false, true, false); (false, false, true)].

Lemma one_output_may h : one_output h -> exists m, m ∈ one_of /\ may_be m h.
Proof.
  intros [He Hs]. destruct (decide (h audio_earpiece_out = 0)) as [E0|E0].
  - destruct (decide (h audio_speaker_out = 0)) as [S0|S0].
    + exists (false, false, true). split; [by right; right; left|done].
    + exists (false, true, false). split; [by right; left|]. specialize (Hs S0). done.
  - exists (true, false, false). split; [by left|]. destruct (He E0). done.
Qed.
Lemma may_be_one m h : may_be m h -> at_most_one m = true -> one_output h.
Proof.
  destruct m as [[e sp] hp]. cbn. intros (He & Hs & Hh) Hm.
  assert (forall x (b : bool), (x <> 0 -> b = true) -> b = false -> x = 0) as Hz.
  { intros x b Hb ->. destruct (decide (x = 0)); [done|by specialize (Hb ltac:(done))]. }
  split.
  - intros E0. rewrite (He E0) in Hm. destruct sp, hp; try done. eauto.
  - intros S0. rewrite (Hs S0) in Hm. destruct e, hp; try done; eauto.
Qed.

(** The writes of plan one never have two outputs that may be on. *)
Lemma one_writes_break path fm ne m k :
  m ∈ one_of ->
  at_most_one (foldl step_outputs m (take k (one_line_writes path fm ++ one_output_writes path ne))) = true.
Proof.
  intros Hm. unfold one_of in Hm. rewrite !elem_of_cons in Hm.
  unfold one_line_writes, one_output_writes.
  destruct fm, (dev_on path AUDIO_DEVICE_OUT_ALL_SCO), (dest path ne); cbn [app];
    (destruct Hm as [-> |[-> |[-> |Hm]]]; [..|by apply elem_of_nil in Hm]);
    do 17 (destruct k as [|k]; [reflexivity|]); reflexivity.
Qed.

(** The switches of plan one's routing. *)
Definition one_routed (f : ctl_field) : bool :=
  match f with
  | audio_earpiece_out | audio_speaker_out | audio_headphone_out | audio_phone_main_mic
  | audio_phone_headset_mic | audio_bt_clk_fmt | audio_analog_bt_mic | audio_analog_bt_phonein
  | audio_bt_out | audio_phone_in | audio_phone_out | audio_linein_in => true
  | _ => false
  end.
Lemma one_writes_routed path fm ne f v :
  (f, v) ∈ one_line_writes path fm ++ one_output_writes path ne -> one_routed f = true /\ (v = 0 \/ v = 1).
Proof.
  assert (Forall (fun '(f, v) => one_routed f = true /\ (v = 0 \/ v = 1))
    (one_line_writes path fm ++ one_output_writes path ne)) as Hall.
  { unfold one_line_writes, one_output_writes.
    destruct fm, (dev_on path AUDIO_DEVICE_OUT_ALL_SCO), (dest path ne); repeat apply Forall_cons_2; try apply Forall_nil_2; auto. }
  intros Hin. by apply (proj1 (Forall_forall _ _) Hall (f, v)).
Qed.

Section Theorems.
Context {W : Type} `{OsOps W, MixOps W, PropOps W, !MixCard W}.
Abbreviation S := (mach W codec_g).
Context (info : ctl_field -> snd_ctl_elem_info).
Hypothesis card : card_ok info.

Lemma one_outputs_make client path ne :
  makes client (CodecPlanOne.phone_outputs client path ne : M S Z) (one_output_writes path ne).
Proof.
  unfold CodecPlanOne.phone_outputs, one_output_writes, dest. cbv zeta.
  repeat case_test; repeat first [apply (makes_seq _ _ _ [_]) | apply makes_set | apply makes_ret].
Qed.

(** The read of the FM line, then the writes. *)
Lemma one_phone_path_writes client path s :
  wired info client s -> is_in_record (cg_one (glob s)) = false ->
  exists fm s0, CodecPlanOne.set_phone_path client path s =
      run_writes client (one_line_writes path fm ++ one_output_writes path (no_earpiece (cg_one (glob s)))) s0 /\
    written info client [] s s0 /\
    forall v, takes info audio_linein_in v -> fm = (holds_now info s audio_linein_in =? 0).
Proof.
  intros Hw Hrec. unfold CodecPlanOne.set_phone_path, CodecPlanOne.own. cbv zeta. mrun. rewrite Hrec. mrun.
  destruct (yields_Done _ _ _ (get_ctl_run info card client audio_linein_in s Hw eq_refl eq_refl))
    as (r & s0 & E0 & H0w & Hr). rewrite (bind_Done _ _ _ _ _ E0). exists (r =? 0), s0.
  pose proof H0w as (Hw0 & Hg0 & _). split; [|split; [done|]].
  2:{ intros v Hv. rewrite (Hr v Hv). by destruct (holds_now info s audio_linein_in =? 0). }
  rewrite seq3.
  lazymatch goal with |- bind ?m (fun _ => ?k) _ = _ =>
    destruct (makes_step info card client m (one_line_writes path (r =? 0)) k s0)
      as (s1 & (Hw1 & Hg1 & _) & E1 & Ews & _) end.
  { unfold one_line_writes. makes_all. }
  { done. }
  { unfold one_line_writes. destruct (r =? 0); by destruct (dev_on path AUDIO_DEVICE_OUT_ALL_SCO). }
  rewrite E1, Ews. unfold CodecPlanOne.own. mrun. rewrite Hg1, Hg0.
  rewrite (one_outputs_make client path _ _ _ s1).
  apply run_writes_end.
Qed.

(** The whole list of writes only touches switches, with 0 and 1. *)
Lemma one_writes_settable path fm ne :
  forallb (fun '(f, v) => settable f v) (one_line_writes path fm ++ one_output_writes path ne) = true.
Proof.
  unfold one_line_writes, one_output_writes.
  by destruct fm, (dev_on path _), (dest path ne).
Qed.


(** *** One output at a time *)

(** The card takes every 0 for the three outputs. *)
Definition off_sure : Prop :=
  takes info audio_earpiece_out 0 /\ takes info audio_speaker_out 0 /\ takes info audio_headphone_out 0.

Lemma lands_step m f v h h' :
  off_sure -> may_be m h -> (forall g, wired_field g = true -> lands info [(f, v)] g (h g) (h' g)) ->
  may_be (step_outputs m (f, v)) h'.
Proof.
  destruct m as [[e sp] hp]. intros (He & Hs & Hh) (Me & Ms & Mh) Hl.
  assert (forall g, wired_field g = true -> g <> f -> h' g = h g) as Hne.
  { intros g Hg Hgf. destruct (Hl g Hg) as [_ [? |Hin]]; [done|]. apply list_elem_of_singleton in Hin. congruence. }
  assert (wired_field f = true -> takes info f 0 -> h' f <> 0 -> negb (v =? 0) = true) as Hon.
  { intros Hf Ht Hy. apply Bool.negb_true_iff, Z.eqb_neq. intros ->. destruct (Hl f Hf) as [Ha _].
    apply Hy. rewrite Ha; [cbn; by rewrite decide_True|]. intros v Hin. apply list_elem_of_singleton in Hin.
    by injection Hin as ->. }
  unfold may_be, step_outputs. cbn [fst snd].
  destruct f; rewrite ?(Hne audio_earpiece_out), ?(Hne audio_speaker_out), ?(Hne audio_headphone_out) by done;
    split_and!; auto.
Qed.

Lemma run_writes_may client ws : forall m s,
  off_sure -> wired info client s -> forallb (fun '(f, v) => settable f v) ws = true ->
  may_be m (holds_now info s) ->
  yields (run_writes client ws) s (fun r s' => r = 0 /\ may_be (foldl step_outputs m ws) (holds_now info s')).
Proof.
  induction ws as [|[f v] ws IH]; intros m s Hoff Hw Hs Hm; cbn [run_writes forallb] in *.
  { by apply yields_ret. }
  apply andb_prop in Hs as [Hf Hs]. eapply yields_bind; [by apply (set_ctl_run info card)|].
  intros r s1 (Hw1 & _ & _ & _ & Hv). cbn [foldl]. apply IH; [done..|]. by eapply lands_step.
Qed.


(** *** Plan two, and the rest of plan one

    On a card that refuses nothing. *)

Hypothesis accepts : forall f v, takes info f v.

Lemma written_holds client ws s s' f :
  written info client ws s s' -> wired_field f = true -> holds_now info s' f = assign ws f (holds_now info s f).
Proof. intros Hw Hf. eapply written_assign; [done..|]. intros v _. apply accepts. Qed.

(** FM on the speaker leaves the earpiece on: [set_fm_path] switches off the
    headphone only. *)
Theorem fm_path_second_output client path s :
  wired info client s -> holds_now info s audio_earpiece_out = 1 ->
  dev_on path AUDIO_DEVICE_OUT_SPEAKER = true ->
  dev_on path AUDIO_DEVICE_OUT_WIRED_HEADPHONE = false -> dev_on path AUDIO_DEVICE_OUT_WIRED_HEADSET = false ->
  exists s', CodecPlanOne.set_fm_path client path s = Done 0 s' /\
    holds_now info s' audio_earpiece_out = 1 /\ holds_now info s' audio_speaker_out = 1.
Proof.
  intros Hw He Hs Hhp Hhs.
  enough (yields (CodecPlanOne.set_fm_path client path) s (fun r s' => r = 0 /\
    holds_now info s' audio_earpiece_out = 1 /\ holds_now info s' audio_speaker_out = 1)) as HX.
  { apply yields_Done in HX as (r & s' & E & -> & HX). by exists s'. }
  unfold CodecPlanOne.set_fm_path, CodecPlanOne.fm_switch. cbv zeta. rewrite Hs, Hhp, Hhs. cbn [orb andb].
  eapply (makes_run info card client _ _ _ _ _ (makes_set client _ _)); [done..|]. intros s1 H1w.
  eapply (makes_run info card client _ _ _ _ _ (makes_set client _ _)); [by destruct H1w|done|]. intros s2 H2w.
  apply yields_assoc. eapply (makes_run info card client _ _ _ _ _ (makes_set client _ _)); [by destruct H2w|done|].
  intros s3 H3w. apply yields_assoc.
  eapply (makes_run info card client _ _ _ _ _ (makes_set client _ _)); [by destruct H3w|done|]. intros s4 H4w.
  pose proof (written_app info client _ _ _ _ _ H1w H2w) as Ha.
  pose proof (written_app info client _ _ _ _ _ Ha H3w) as Hb.
  pose proof (written_app info client _ _ _ _ _ Hb H4w) as Hc. clear Ha Hb.
  split; [done|].
  split; [by rewrite <- He; apply (written_holds _ _ _ _ audio_earpiece_out Hc)
         |by apply (written_holds _ _ _ _ audio_speaker_out Hc)].
Qed.

Lemma two_outputs_make client path ne recording :
  makes_then client (CodecPlanTwo.phone_outputs client path ne recording : M S unit)
    (two_output_writes path ne recording) (two_note path ne).
Proof.
  unfold CodecPlanTwo.phone_outputs, two_output_writes, two_note, dest, capture_mic, capture_bt,
    capture_mic_writes, CodecPlanTwo.set_own. cbv zeta.
  destruct (dev_on path AUDIO_DEVICE_OUT_EARPIECE && (ne =? 0)); [apply makes_then_id; makes_all|].
  destruct (dev_on path AUDIO_DEVICE_OUT_SPEAKER || _); [apply makes_then_id; makes_all|].
  destruct (dev_on path AUDIO_DEVICE_OUT_WIRED_HEADPHONE); [apply makes_then_id; makes_all|].
  destruct (dev_on path AUDIO_DEVICE_OUT_WIRED_HEADSET); [apply makes_then_id; makes_all|].
  destruct (dev_on path AUDIO_DEVICE_OUT_ALL_SCO); [|apply makes_then_id; makes_all].
  repeat (apply makes_then_seq; [makes_all|]). apply makes_then_set.
Qed.

Definition two_writes (path ne : Z) (fm recording : bool) : writes :=
  [(audio_speaker_out, 0)] ++ two_line_writes path fm ++ two_output_writes path ne recording.
Lemma two_writes_settable path ne fm recording :
  forallb (fun '(f, v) => settable f v) (two_writes path ne fm recording) = true.
Proof.
  unfold two_writes, two_line_writes, two_output_writes, capture_mic_writes.
  by destruct fm, recording, (dev_on path _), (dest path ne).
Qed.

(** Where a program stands that makes writes and goes on with [k]. *)
Ltac take_writes client ws s' H :=
  lazymatch goal with |- yields (bind ?m (fun _ => ?k)) ?s ?Q =>
    apply (makes_run info card client m ws k s Q); [| | |intros s' H] end.

Lemma two_phone_path_writes client path s :
  wired info client s ->
  yields (CodecPlanTwo.set_phone_path client path) s (fun r s' => r = 0 /\
    exists s1, written info client (two_writes path (no_earpiece (cg_two (glob s)))
        (holds_now info s audio_linein_in =? 0) (is_in_record (cg_two (glob s)))) s s1 /\
      s' = Mach (world s1) (heap_live s1) (fds_live s1) (two_note path (no_earpiece (cg_two (glob s))) (glob s1))).
Proof.
  intros Hw. unfold CodecPlanTwo.set_phone_path, CodecPlanTwo.own. cbv zeta.
  take_writes client [(audio_speaker_out, 0)] s1 Hs1; [apply makes_set|done|done|].
  pose proof Hs1 as (Hw1 & Hg1 & _).
  eapply yields_bind; [by apply (get_ctl_run info card)|]. intros r s2 [Hs2 Hr].
  specialize (Hr 0 (accepts _ _)). rewrite (written_holds _ _ _ _ audio_linein_in Hs1 eq_refl) in Hr.
  change (assign [(audio_speaker_out, 0)] audio_linein_in (holds_now info s audio_linein_in))
    with (holds_now info s audio_linein_in) in Hr.
  set (fm := holds_now info s audio_linein_in =? 0) in *.
  assert ((r =? 0) = fm) as -> by (rewrite Hr; by destruct fm). clear Hr.
  pose proof Hs2 as (Hw2 & Hg2 & _).
  take_writes client (if fm then [] else [(audio_linein_in, 0)]) s3 Hs3;
    [destruct fm; makes_all|done|by destruct fm|].
  pose proof (written_app info client _ _ _ _ _ Hs1 (written_app info client _ _ _ _ _ Hs2 Hs3)) as Ha.
  take_writes client (if dev_on path AUDIO_DEVICE_OUT_ALL_SCO then []
    else [(audio_bb_bt_clk_fmt, 0)] ++ [(audio_digital_bt_mic, 0)] ++ [(audio_digital_bt_phonein, 0)] ++
         [(audio_bt_out, 0)]) s4 Hs4; [makes_all|by destruct Hs3|by case_test|].
  take_writes client [(audio_bb_bt_clk_fmt, 0)] s5 Hs5; [apply makes_set|by destruct Hs4|done|].
  take_writes client [(audio_digital_clk_fmt_status, 1)] s6 Hs6; [apply makes_set|by destruct Hs5|done|].
  take_writes client [(audio_digital_phonein, 1)] s7 Hs7; [apply makes_set|by destruct Hs6|done|].
  take_writes client [(audio_digital_phone_out, 1)] s8 Hs8; [apply makes_set|by destruct Hs7|done|].
  pose proof (written_app info client _ _ _ _ _ Ha (written_app info client _ _ _ _ _ Hs4
    (written_app info client _ _ _ _ _ Hs5 (written_app info client _ _ _ _ _ Hs6
    (written_app info client _ _ _ _ _ Hs7 Hs8))))) as Hb.
  clear Ha Hs1 Hs2 Hs3 Hs4 Hs5 Hs6 Hs7 Hs8. unfold yields. mrun. pose proof Hb as (Hw8 & -> & _).
  rewrite two_outputs_make.
  set (ne := no_earpiece _) in *. set (rec := is_in_record _) in *.
  assert (forallb (fun '(f, v) => settable f v) (two_output_writes path ne rec) = true) as Hset.
  { unfold two_output_writes, capture_mic_writes. by destruct rec, (dest path ne). }
  eapply yields_bind; [by apply (run_writes_run info card)|]. intros r' s9 [_ Hs9]. split; [done|].
  exists s9. split; [|done]. unfold two_writes, two_line_writes.
  pose proof (written_app info client _ _ _ _ _ Hb Hs9) as Hall. cbn [app] in Hall |- *.
  by rewrite <- !app_assoc in *.
Qed.

(** Plan two routes a call by its table.  From any state of a wired client,
    [set_phone_path] returns 0, and afterwards every switch and gain of the card
    holds what [two_route] says, the capture lines of a recorded call included;
    of the library only the note of a Bluetooth path changed. *)
Theorem two_phone_path_routes client path s :
  wired info client s ->
  exists s', CodecPlanTwo.set_phone_path client path s = Done 0 s' /\
    wired info client s' /\ glob s' = two_note path (no_earpiece (cg_two (glob s))) (glob s) /\
    heap_live s' = heap_live s /\ fds_live s' = fds_live s /\
    forall f, wired_field f = true ->
      holds_now info s' f =
      two_route path (no_earpiece (cg_two (glob s))) (is_in_record (cg_two (glob s))) f (holds_now info s f).
Proof.
  intros Hw. destruct (yields_Done _ _ _ (two_phone_path_writes client path s Hw)) as (r & s' & E & -> & s1 & Hs1 & ->).
  set (ne := no_earpiece _) in *. set (rec := is_in_record _) in *.
  eexists. split; [exact E|]. cbn [glob heap_live fds_live world]. pose proof Hs1 as (Hw1 & Hg & Hh & Hf & _).
  assert (wired info client (Mach (world s1) (heap_live s1) (fds_live s1) (two_note path ne (glob s1)))) as Hw2.
  { destruct Hw1 as [A B C]. unfold two_note. by destruct (dest path ne). }
  split_and!; [done|by rewrite Hg|done..|].
  intros f Hwf. change (holds_now info s1 f =
    two_route path ne rec f (holds_now info s f)). rewrite (written_holds _ _ _ _ f Hs1) by done.
  unfold two_route, two_writes, two_line_writes, two_output_writes, capture_mic_writes.
  assert (f = audio_linein_in -> holds_now info s audio_linein_in = 0 -> holds_now info s f = 0) as Hfm
    by by intros ->.
  assert (dest path ne = ToBluetooth -> dev_on path AUDIO_DEVICE_OUT_ALL_SCO = true) as Hbt.
  { unfold dest. by repeat case_test. }
  clear Hs1 Hw Hw1 Hw2 E. clearbody ne rec.
  destruct (dest path ne); destruct (dev_on path _); try (by specialize (Hbt eq_refl));
    destruct (Z.eqb_spec (holds_now info s audio_linein_in) 0); destruct rec, f; try reflexivity; by apply Hfm.
Qed.

(** *** The volume of a call *)

Lemma volume_level_range volume : 0 <= volume_level volume <= 5.
Proof. unfold volume_level. repeat case_test; lia. Qed.

(** The speaker's branch of plan two's [set_phone_volume]. *)
Lemma two_volume_speaker client path volume s :
  wired info client s ->
  dev_on path AUDIO_DEVICE_OUT_SPEAKER ||
    dev_on path AUDIO_DEVICE_OUT_EARPIECE && (no_earpiece (cg_two (glob s)) =? 1) = true ->
  length (speaker_spk_gain (cg_vol (glob s))) = 6%nat ->
  exists v s', speaker_spk_gain (cg_vol (glob s)) !! Z.to_nat (volume_level volume) = Some v /\
    CodecPlanTwo.set_phone_volume client path volume s = Done 0 s' /\
    written info client [(audio_speaker_out, 1); (speaker_vol_ctrl, v)] s s'.
Proof.
  intros Hw Hspk Hlen. pose proof (volume_level_range volume) as Hl.
  destruct (lookup_lt_is_Some_2 (speaker_spk_gain (cg_vol (glob s))) (Z.to_nat (volume_level volume)))
    as [v Ev]; [lia|].
  unfold CodecPlanTwo.set_phone_volume, CodecPlanTwo.own. cbv zeta. mrun. rewrite Hspk. mrun.
  destruct (yields_Done _ _ _ (set_ctl_run info card client audio_speaker_out 1 s Hw eq_refl))
    as (r1 & s1 & E1 & H1'). rewrite (bind_Done _ _ _ _ _ E1). mrun.
  pose proof H1' as (Hw1 & Hg1 & _).
  rewrite (client_gain_run info _ _ _ _ v _ Hw1) by (by rewrite Hg1).
  destruct (yields_Done _ _ _ (set_ctl_run info card client speaker_vol_ctrl v s1 Hw1 eq_refl))
    as (r2 & s2 & E2 & H2'). rewrite (bind_Done _ _ _ _ _ E2).
  exists v, s2. split_and!; [done|done|]. by apply (written_app info _ [_] _ _ s1).
Qed.

(** On plan two a call on the speaker is silent until its volume is set.
    [set_phone_path] with a path that goes to the speaker leaves all three
    outputs off; [set_phone_volume] for the same path then turns the speaker on,
    and only it, at the gain of the level. *)
Theorem two_speaker_waits_for_volume client path volume s :
  wired info client s -> dest path (no_earpiece (cg_two (glob s))) = ToSpeaker ->
  length (speaker_spk_gain (cg_vol (glob s))) = 6%nat ->
  exists s1, CodecPlanTwo.set_phone_path client path s = Done 0 s1 /\
    holds_now info s1 audio_earpiece_out = 0 /\ holds_now info s1 audio_speaker_out = 0 /\
    holds_now info s1 audio_headphone_out = 0 /\
    exists s2, CodecPlanTwo.set_phone_volume client path volume s1 = Done 0 s2 /\
      holds_now info s2 audio_earpiece_out = 0 /\ holds_now info s2 audio_speaker_out = 1 /\
      holds_now info s2 audio_headphone_out = 0 /\
      Some (holds_now info s2 speaker_vol_ctrl) =
        speaker_spk_gain (cg_vol (glob s)) !! Z.to_nat (volume_level volume).
Proof.
  intros Hw Hd Hlen.
  destruct (two_phone_path_routes client path s Hw) as (s1 & E1 & Hw1 & Hg1 & _ & _ & Hv1).
  assert (glob s1 = glob s) as Eg by (rewrite Hg1; unfold two_note; by rewrite Hd).
  exists s1. split; [done|].
  assert (holds_now info s1 audio_earpiece_out = 0 /\ holds_now info s1 audio_speaker_out = 0 /\
    holds_now info s1 audio_headphone_out = 0) as (He & Hs & Hh).
  { rewrite !Hv1 by done. unfold two_route. by rewrite Hd. }
  split_and!; [done..|].
  destruct (two_volume_speaker client path volume s1 Hw1) as (v & s2 & Ev & E2 & Hs2w).
  { rewrite Eg. by apply dest_speaker. }
  { by rewrite Eg. }
  rewrite Eg in Ev. exists s2. split; [done|]. rewrite !(written_holds _ _ _ _ _ Hs2w) by done. rewrite Ev. split_and!; try done.
Qed.

(** With earpiece and speaker both in the path, plan two ends with two outputs
    on: [set_phone_path] takes the earpiece, [set_phone_volume] the speaker. *)
Theorem two_volume_second_output client path volume s :
  wired info client s -> no_earpiece (cg_two (glob s)) = 0 ->
  dev_on path AUDIO_DEVICE_OUT_EARPIECE = true -> dev_on path AUDIO_DEVICE_OUT_SPEAKER = true ->
  length (speaker_spk_gain (cg_vol (glob s))) = 6%nat ->
  exists s1 s2, CodecPlanTwo.set_phone_path client path s = Done 0 s1 /\
    one_output (holds_now info s1) /\
    CodecPlanTwo.set_phone_volume client path volume s1 = Done 0 s2 /\
    holds_now info s2 audio_earpiece_out = 1 /\ holds_now info s2 audio_speaker_out = 1.
Proof.
  intros Hw Hne He Hs Hlen.
  assert (dest path (no_earpiece (cg_two (glob s))) = ToEarpiece) as Hd by (unfold dest; by rewrite Hne, He).
  destruct (two_phone_path_routes client path s Hw) as (s1 & E1 & Hw1 & Hg1 & _ & _ & Hv1).
  assert (glob s1 = glob s) as Eg by (rewrite Hg1; unfold two_note; by rewrite Hd).
  destruct (two_volume_speaker client path volume s1 Hw1) as (v & s2 & _ & E2 & Hs2w);
    [by rewrite Hs|by rewrite Eg|].
  assert (holds_now info s1 audio_earpiece_out = 1 /\ holds_now info s1 audio_speaker_out = 0 /\
    holds_now info s1 audio_headphone_out = 0) as (He1 & Hs1 & Hh1).
  { rewrite !Hv1 by done. unfold two_route. by rewrite Hd. }
  exists s1, s2. split_and!; [done| |done|..].
  - split; lia.
  - rewrite (written_holds _ _ _ _ _ Hs2w) by done. by rewrite He1.
  - by rewrite (written_holds _ _ _ _ _ Hs2w) by done.
Qed.

(** *** Recording a call *)

Lemma record_op_null {B} (k : Z -> M S B) client s :
  wired info client s -> bind (record_op client) k s = Undef.
Proof. intros [(c & Ec & _) _ _]. unfold record_op, the_client. mrun. rewrite Ec. by mrun. Qed.

(** One write at the front of a program. *)
Lemma set_ctl_bind client f v s :
  wired info client s -> settable f v = true ->
  exists s1, wired info client s1 /\ glob s1 = glob s /\
    forall B (k : M S B), (set_ctl client f v ;;; k) s = k s1.
Proof.
  intros Hw Hs. destruct (yields_Done _ _ _ (set_ctl_run info card client f v s Hw Hs))
    as (r & s1 & E & (Hw1 & Hg1 & _)).
  exists s1. split_and!; [done..|]. intros B k. by rewrite (bind_Done _ _ _ _ _ E).
Qed.
Ltac set_one s1 Hw1 Hg1 :=
  let E := fresh "E" in
  lazymatch goal with |- context [bind (set_ctl ?c ?f ?v) _ ?s] =>
    destruct (set_ctl_bind c f v s) as (s1 & Hw1 & Hg1 & E); [done|done|rewrite E; clear E] end.

(** Recording a call on plan one dereferences NULL: no code assigns
    [record_ops].  [set_phone_record_enable] accepts the request; from then on
    routing the call and switching the recording off do, as [set_phone_record]
    does at once. *)
Theorem one_record_dereferences_null client path s :
  wired info client s ->
  CodecPlanOne.set_phone_record client path s = Undef /\
  exists s1, CodecPlanOne.set_phone_record_enable client true s = Done 0 s1 /\
    CodecPlanOne.set_phone_path client path s1 = Undef /\
    CodecPlanOne.set_phone_record_enable client false s1 = Undef.
Proof.
  intros Hw. split.
  - unfold CodecPlanOne.set_phone_record, CodecPlanOne.own, CodecPlanOne.set_own. cbv zeta.
    lazymatch goal with |- bind ?m (fun _ => ?k) s = _ =>
      assert (exists s0, m s = Done tt s0 /\ wired info client s0) as (s0 & E0 & Hw0) end.
    { destruct Hw as [A B C]. case_test; [|mrun; case_test]; eexists; (split; [reflexivity|]); by split. }
    rewrite (bind_Done _ _ _ _ _ E0). set_one s1 Hw1 Hg1. by apply record_op_null.
  - unfold CodecPlanOne.set_phone_record_enable.
    set_one s1 Hw1 Hg1. mrun. set_one s2 Hw2 Hg2. unfold CodecPlanOne.set_own. mrun.
    set (s3 := Mach _ _ _ _). assert (wired info client s3) as Hw3 by (destruct Hw2; by split).
    assert (is_in_record (cg_one (glob s3)) = true) as Hr by done. clearbody s3.
    exists s3. split_and!; [done|..].
    + unfold CodecPlanOne.set_phone_path, CodecPlanOne.own. cbv zeta. mrun. rewrite Hr.
      by apply record_op_null.
    + set_one s4 Hw4 Hg4. unfold CodecPlanOne.own. mrun. rewrite Hg4, Hr. mrun. set_one s5 Hw5 Hg5.
      unfold CodecPlanOne.set_own. mrun. case_test; mrun; [|by apply record_op_null].
      apply record_op_null. destruct Hw5. by split.
Qed.
End Theorems.

(** ** Witnesses *)

Lemma stuck_takes stuck f v :
  ei_numid (board_info f) ∉ stuck -> @takes _ (stuck_mix stuck) (stuck_card stuck) board_info f v.
Proof. by intros Hf l. Qed.
Lemma board_takes f v : takes (W := codec_world) board_info f v.
Proof. apply stuck_takes, not_elem_of_nil. Qed.
Lemma board_wired_off : wired board_info 5 (board_state []).
Proof. apply board_wired. by left. Qed.
Lemma board_wired_ear : wired board_info 5 (board_state [audio_earpiece_out]).
Proof. apply board_wired. by right. Qed.

(** A card that refuses every write to the headphone's switch. *)
Definition stuck_phones : list Z := [ei_numid (board_info audio_headphone_out)].
(** One that refuses every write to the earpiece's. *)
Definition stuck_ear : list Z := [ei_numid (board_info audio_earpiece_out)].



(** A refused write: from the earpiece to the speaker on a card that does not
    switch the earpiece off.  The refusal is ignored, the speaker is turned on,
    and the result is 0. *)
Theorem refused_off_two_outputs :
  exists s', @CodecPlanOne.set_phone_path _ (stuck_mix stuck_ear) 5 AUDIO_DEVICE_OUT_SPEAKER
      (board_state [audio_earpiece_out]) = Done 0 s' /\
    @holds_now _ (stuck_mix stuck_ear) (stuck_card stuck_ear) board_info s' audio_earpiece_out = 1 /\
    @holds_now _ (stuck_mix stuck_ear) (stuck_card stuck_ear) board_info s' audio_speaker_out = 1.
Proof. eexists. split; [vm_compute; reflexivity|]. by vm_compute. Qed.

Lemma fm_path_second_output_witness :
  exists s', CodecPlanOne.set_fm_path 5 AUDIO_DEVICE_OUT_SPEAKER (board_state [audio_earpiece_out]) = Done 0 s' /\
    holds_now board_info s' audio_earpiece_out = 1 /\ holds_now board_info s' audio_speaker_out = 1.
Proof. by apply (fm_path_second_output board_info board_ok board_takes); [exact board_wired_ear|..]. Defined.

Lemma two_phone_path_routes_witness :
  exists s', CodecPlanTwo.set_phone_path 5 AUDIO_DEVICE_OUT_BLUETOOTH_SCO_HEADSET (board_state [audio_earpiece_out]) = Done 0 s' /\
    holds_now board_info s' audio_earpiece_out = 0 /\ holds_now board_info s' audio_digital_bt_mic = 1 /\
    last_path_is_bt (cg_two (glob s')) = true.
Proof.
  destruct (two_phone_path_routes board_info board_ok board_takes 5 AUDIO_DEVICE_OUT_BLUETOOTH_SCO_HEADSET
    (board_state [audio_earpiece_out]) board_wired_ear) as (s' & E & _ & Hg & _ & _ & Hv).
  exists s'. rewrite !Hv, Hg by done. split_and!; [exact E|reflexivity..].
Defined.

Lemma two_speaker_waits_for_volume_witness :
  exists s1, CodecPlanTwo.set_phone_path 5 AUDIO_DEVICE_OUT_SPEAKER (board_state []) = Done 0 s1 /\
    holds_now board_info s1 audio_speaker_out = 0 /\
    exists s2, CodecPlanTwo.set_phone_volume 5 AUDIO_DEVICE_OUT_SPEAKER 7 s1 = Done 0 s2 /\
      holds_now board_info s2 audio_speaker_out = 1 /\ Some (holds_now board_info s2 speaker_vol_ctrl) = Some 26.
Proof.
  destruct (two_speaker_waits_for_volume board_info board_ok board_takes 5 AUDIO_DEVICE_OUT_SPEAKER 7
    (board_state []) board_wired_off eq_refl eq_refl) as (s1 & E1 & _ & Hs & _ & s2 & E2 & _ & Hs2 & _ & Hv).
  exists s1. split_and!; [exact E1|exact Hs|]. exists s2. split_and!; [exact E2|exact Hs2|exact Hv].
Defined.

Lemma two_volume_second_output_witness :
  exists s1 s2, CodecPlanTwo.set_phone_path 5 3 (board_state []) = Done 0 s1 /\
    one_output (holds_now board_info s1) /\
    CodecPlanTwo.set_phone_volume 5 3 7 s1 = Done 0 s2 /\
    holds_now board_info s2 audio_earpiece_out = 1 /\ holds_now board_info s2 audio_speaker_out = 1.
Proof.
  apply (two_volume_second_output board_info board_ok board_takes); [exact board_wired_off|done..].
Defined.

Lemma one_record_dereferences_null_witness :
  CodecPlanOne.set_phone_record 5 1 (board_state []) = Undef /\
  exists s1, CodecPlanOne.set_phone_record_enable 5 true (board_state []) = Done 0 s1 /\
    CodecPlanOne.set_phone_path 5 1 s1 = Undef /\
    CodecPlanOne.set_phone_record_enable 5 false s1 = Undef.
Proof. exact (one_record_dereferences_null board_info board_ok 5 1 (board_state []) board_wired_off). Defined.
