(* ===== verification/Live.v ===== *)
(** * Calls that do not block

    The weakest precondition of a call on the globals it starts from ([wpg]): it
    does not block, and what it returns has the postcondition, unless it does
    something C gives no meaning to.  The rules execute a call step by step; a
    loop or a call of another component comes in through [wpg_mono].  [live] is
    the part of it that says nothing of the globals. *)

From S2P Require Import Prelude CLib Os.

Section Wpg.
Context {W G : Type}.
Abbreviation S := (mach W G).

Definition wpg {A} (g : G) (m : M S A) (Q : A -> G -> Prop) : Prop :=
  forall s, glob s = g ->
    match m s with Done a s' => Q a (glob s') | Blocked => False | Undef => True end.
Definition live {A} (m : M S A) : Prop := forall s, m s <> Blocked.

Lemma wpg_mono {A} g (m : M S A) (Q R : A -> G -> Prop) :
  wpg g m Q -> (forall a g', Q a g' -> R a g') -> wpg g m R.
Proof. intros Hm HQ s E. specialize (Hm s E). destruct (m s); [|done..]. by apply HQ. Qed.
Lemma wpg_bind {A B} g (m : M S A) (k : A -> M S B) Q :
  wpg g m (fun a g' => wpg g' (k a) Q) -> wpg g (bind m k) Q.
Proof. intros Hm s E. specialize (Hm s E). unfold bind. destruct (m s); [|done..]. by apply Hm. Qed.
Lemma wpg_call {A B} g (m : M S A) (k : A -> M S B) (P : A -> G -> Prop) Q :
  wpg g m P -> (forall a g', P a g' -> wpg g' (k a) Q) -> wpg g (bind m k) Q.
Proof. intros Hm Hk. apply wpg_bind. by eapply wpg_mono. Qed.
Lemma wpg_assoc {A B C} g (m : M S A) (k : A -> M S B) (h : B -> M S C) Q :
  wpg g (bind m (fun a => bind (k a) h)) Q -> wpg g (bind (bind m k) h) Q.
Proof. intros Hm s E. rewrite bind_assoc. by apply Hm. Qed.
Lemma wpg_end {A} g (m : M S A) Q : wpg g (bind m ret) Q -> wpg g m Q.
Proof. intros Hm s E. specialize (Hm s E). by rewrite bind_ret_r in Hm. Qed.
Lemma wpg_ret {A} g (a : A) (Q : A -> G -> Prop) : Q a g -> wpg g (ret a) Q.
Proof. by intros HQ s <-. Qed.
Lemma wpg_ret_bind {A B} g (a : A) (k : A -> M S B) Q : wpg g (k a) Q -> wpg g (bind (ret a) k) Q.
Proof. done. Qed.
Lemma wpg_undef {A} g (Q : A -> G -> Prop) : wpg g (undef (S := S)) Q.
Proof. done. Qed.
Lemma wpg_get {A B} g (f : G -> A) (k : A -> M S B) Q : wpg g (k (f g)) Q -> wpg g (bind (get_glob f) k) Q.
Proof. intros Hk s E. unfold bind, get_glob. rewrite E. by apply Hk. Qed.
Lemma wpg_set {B} g (f : G -> G) (k : unit -> M S B) Q : wpg (f g) (k tt) Q -> wpg g (bind (set_glob f) k) Q.
Proof. intros Hk s E. apply Hk. cbn. by rewrite E. Qed.
Lemma wpg_checked {A B} g (o : option A) (k : A -> M S B) Q :
  (forall a, o = Some a -> wpg g (k a) Q) -> wpg g (bind (checked o) k) Q.
Proof. intros Hk. destruct o; [|done]. apply wpg_ret_bind. by apply Hk. Qed.
Lemma wpg_on_world {A B} g (f : W -> A * W) (k : A -> M S B) Q :
  (forall a, wpg g (k a) Q) -> wpg g (bind (on_world f) k) Q.
Proof. intros Hk s E. unfold bind, on_world. destruct (f _). by apply Hk. Qed.
Lemma wpg_step_world {B} g (f : W -> W) (k : unit -> M S B) Q :
  wpg g (k tt) Q -> wpg g (bind (step_world f) k) Q.
Proof. intros Hk s E. by apply Hk. Qed.
Lemma wpg_ask {A B} g (f : W -> A) (k : A -> M S B) Q :
  (forall a, wpg g (k a) Q) -> wpg g (bind (ask f) k) Q.
Proof. intros Hk s E. by apply Hk. Qed.
(** A call whose answer, and not the world, matters. *)
Lemma wpg_world {A} g (f : W -> A * W) (Q : A -> G -> Prop) : (forall a, Q a g) -> wpg g (on_world f) Q.
Proof. intros HQ s <-. unfold on_world. destruct (f _). apply HQ. Qed.

Lemma live_wpg {A} g (m : M S A) : live m -> wpg g m (fun _ _ => True).
Proof. intros Hm s _. specialize (Hm s). by destruct (m s). Qed.
Lemma wpg_live {A} (m : M S A) (Q : G -> A -> G -> Prop) : (forall g, wpg g m (Q g)) -> live m.
Proof. intros Hm s E. specialize (Hm _ s eq_refl). by rewrite E in Hm. Qed.
Lemma wpg_pc {A} (P : G -> Prop) (m : M S A) (Q : A -> G -> Prop) : (forall g, P g -> wpg g m Q) -> pc P m Q.
Proof. intros Hm s a s' HP E. specialize (Hm _ HP s eq_refl). by rewrite E in Hm. Qed.
Lemma pc_wpg {A} (P : G -> Prop) (m : M S A) (Q : A -> G -> Prop) g : live m -> pc P m Q -> P g -> wpg g m Q.
Proof.
  intros Hl Hm HP s <-. specialize (Hl s). destruct (m s) eqn:E; [|done..]. by eapply Hm.
Qed.

Lemma live_bind {A B} (m : M S A) (k : A -> M S B) : live m -> (forall a, live (k a)) -> live (bind m k).
Proof. intros Hm Hk s. unfold bind. specialize (Hm s). destruct (m s); [apply Hk|done..]. Qed.
Lemma live_ret {A} (a : A) : live (ret a).
Proof. done. Qed.
Lemma live_undef {A} : live (undef (A := A)).
Proof. done. Qed.
Lemma live_checked {A} (o : option A) : live (checked o).
Proof. by destruct o. Qed.
Lemma live_get {A} (f : G -> A) : live (get_glob f).
Proof. done. Qed.
Lemma live_set (f : G -> G) : live (set_glob f).
Proof. done. Qed.
Lemma live_ask {A} (f : W -> A) : live (ask f).
Proof. done. Qed.
Lemma live_on_world {A} (f : W -> A * W) : live (on_world f).
Proof. intros s. unfold on_world. by destruct (f _). Qed.
Lemma live_step_world (f : W -> W) : live (step_world f).
Proof. done. Qed.
End Wpg.

Lemma live_zoom {W G G' A} (get : G -> G') put (m : M (mach W G') A) :
  live m -> live (zoom (W := W) get put m).
Proof. intros Hm s. unfold zoom. specialize (Hm (Mach (world s) (heap_live s) (fds_live s) (get (glob s)))). by destruct (m _). Qed.
(** A call of a component from the globals of the program. *)
Lemma wpg_zoom {W G G' A} (get : G -> G') put (m : M (mach W G') A) g (Q : A -> G -> Prop) :
  wpg (get g) m (fun a v => Q a (put v g)) -> wpg (W := W) g (zoom get put m) Q.
Proof.
  intros Hm s <-. specialize (Hm (Mach (world s) (heap_live s) (fds_live s) (get (glob s))) eq_refl).
  unfold zoom. by destruct (m _).
Qed.

Section LiveCalls.
Context {W G : Type} `{OsOps W}.
Abbreviation S := (mach W G).

Lemma live_malloc n : live (W := W) (G := G) (c_malloc n).
Proof. intros s. unfold c_malloc. by destruct (os_malloc _ _). Qed.
Lemma live_free p : live (W := W) (G := G) (c_free p).
Proof. done. Qed.
Lemma live_open path : live (W := W) (G := G) (c_open path).
Proof. intros s. unfold c_open. by destruct (os_open _ _). Qed.
Lemma live_close fd : live (W := W) (G := G) (c_close fd).
Proof. done. Qed.
Lemma live_access path : live (W := W) (G := G) (c_access path).
Proof. done. Qed.
Lemma live_read fd buf off n : live (W := W) (G := G) (c_read fd buf off n).
Proof. intros s. unfold c_read. destruct (in_bounds _ _ _); [|done]. by destruct (os_read _ _ _) as [[??]?]. Qed.
Lemma live_write fd buf off n : live (W := W) (G := G) (c_write fd buf off n).
Proof. intros s. unfold c_write. destruct (in_bounds _ _ _); [|done]. by destruct (os_write _ _ _). Qed.

(** A call that leaves the globals alone and does not block. *)
Lemma wpg_quiet {A B} g (m : M S A) (k : A -> M S B) Q :
  live m -> quiet m -> (forall a, wpg g (k a) Q) -> wpg g (bind m k) Q.
Proof.
  intros Hl Hq Hk s E. unfold bind. specialize (Hl s). destruct (m s) as [a s'| |] eqn:Em; [|done..].
  apply Hk. by rewrite (Hq _ _ _ Em).
Qed.
Lemma quiet_write fd buf off n : quiet (W := W) (G := G) (c_write fd buf off n).
Proof.
  intros s a s'. unfold c_write. destruct (in_bounds _ _ _); [|done].
  destruct (os_write _ _ _). by intros [= _ <-].
Qed.
End LiveCalls.
#[export] Hint Resolve quiet_write : quiet.

Create HintDb live discriminated.
#[export] Hint Resolve live_ret live_undef live_checked live_get live_set live_ask live_on_world
  live_step_world live_malloc live_free live_open live_close live_access live_read live_write : live.

(** [live_run]: a call does not block when no step of it does.  It opens the
    definitions it meets; the loops are in the database. *)
Ltac live_open_head m :=
  lazymatch m with
  | ?f _ => live_open_head f
  | _ => unfold m
  end.
Ltac live_step :=
  lazymatch goal with
  | |- live (bind _ _) => apply live_bind; [|intros]
  | |- live (zoom _ _ _) => apply live_zoom
  | |- live (if ?b then _ else _) => destruct b
  | |- live (match ?x with _ => _ end) => destruct x
  | |- live (let _ := _ in _) => cbv zeta
  | |- live ?m => first [solve [auto with live] | live_open_head m; cbv zeta; cbn beta]
  end.
Ltac live_run := repeat live_step.
