(* ===== verification/AudRing.v ===== *)
(** * audio HAL: the buffer between playback and capture

    [WritePcmData] and [ReadPcmData] of [audio_hw.c]: a ring of bytes that
    [out_write] fills and [in_read] drains, each on a thread of its own.  The
    steps of both calls are pure functions; [ring_step] is one step of one of the
    two threads, so that every interleaving is a list of moves.  A step is what
    runs between two accesses to a field the other thread writes, and one
    [memcpy]; the reader copies without the mutex, as the code does. *)

From S2P Require Import Prelude CLib Os.

(** ** The buffer *)

Record pcm_buf_manager := PcmBuf {
  BufExist : bool;
  BufStart : Z;            (* the address of the block, 0 for NULL *)
  BufMem : bytes;          (* what the block holds *)
  BufTotalLen : Z;
  BufReadPtr : Z;          (* offset from BufStart *)
  DataLen : Z;
  BufWritPtr : Z;          (* offset from BufStart *)
  BufValideLen : Z;
  SampleRate : Z;
  Channel : Z;
}.
Definition set_mem v r :=
  PcmBuf (BufExist r) (BufStart r) v (BufTotalLen r) (BufReadPtr r) (DataLen r) (BufWritPtr r)
    (BufValideLen r) (SampleRate r) (Channel r).
Definition set_read v r :=
  PcmBuf (BufExist r) (BufStart r) (BufMem r) (BufTotalLen r) v (DataLen r) (BufWritPtr r)
    (BufValideLen r) (SampleRate r) (Channel r).
Definition set_writ v r :=
  PcmBuf (BufExist r) (BufStart r) (BufMem r) (BufTotalLen r) (BufReadPtr r) (DataLen r) v
    (BufValideLen r) (SampleRate r) (Channel r).
Definition set_lens d v r :=
  PcmBuf (BufExist r) (BufStart r) (BufMem r) (BufTotalLen r) (BufReadPtr r) d (BufWritPtr r)
    v (SampleRate r) (Channel r).

(** ** The steps of [WritePcmData (data, lenZ data)] *)

Definition wr_wraps (r : pcm_buf_manager) (n : Z) : bool := BufTotalLen r <? BufWritPtr r + n.
Definition wr_end (r : pcm_buf_manager) : Z := BufTotalLen r - BufWritPtr r.
(** The only copy, or the first of two. *)
Definition wr_copy (r : pcm_buf_manager) (data : bytes) : option pcm_buf_manager :=
  let n := if wr_wraps r (lenZ data) then wr_end r else lenZ data in
  option_map (fun m => set_mem m r) (memcpy (BufMem r) (BufWritPtr r) data n).
(** The second copy, to the start of the block. *)
Definition wr_rest (r : pcm_buf_manager) (data : bytes) : option pcm_buf_manager :=
  let n := lenZ data - wr_end r in
  option_map (fun m => set_mem m r) (memcpy (BufMem r) 0 (bslice (wr_end r) n data) n).
Definition wr_move (r : pcm_buf_manager) (n : Z) : pcm_buf_manager :=
  set_writ (if wr_wraps r n then BufWritPtr r + n - BufTotalLen r else BufWritPtr r + n) r.
Definition wr_count (r : pcm_buf_manager) (n : Z) : pcm_buf_manager :=
  set_lens (DataLen r + n) (BufValideLen r - n) r.

(** ** The steps of [ReadPcmData (buf, lenZ buf)] *)

Definition INT_MAX : Z := 2147483647.

(** [uGetLen * 100 / (SampleRate * Channel * 2) + 1], doubled. *)
Definition rd_wait (r : pcm_buf_manager) (n : Z) : option Z :=
  if (n * 100 <=? INT_MAX) && negb (SampleRate r * Channel r * 2 =? 0)
  then Some ((n * 100 / (SampleRate r * Channel r * 2) + 1) * 2) else None.

(** How long to sleep, in microseconds, for the [n] missing bytes when nothing
    plays: [n * 1000000] is an [int], which 2148 bytes overflow. *)
Definition rd_sleep (r : pcm_buf_manager) (n : Z) : option Z :=
  if (n * 1000000 <=? INT_MAX) && negb (SampleRate r =? 0)
  then Some (Z.quot (n * 1000000 / 4) (SampleRate r)) else None.

Definition rd_wraps (r : pcm_buf_manager) (n : Z) : bool := BufTotalLen r <? BufReadPtr r + n.
Definition rd_end (r : pcm_buf_manager) : Z := BufTotalLen r - BufReadPtr r.
(** The only copy, or the first of two, into the caller's [buf]. *)
Definition rd_copy (r : pcm_buf_manager) (buf : bytes) (size : Z) : option bytes :=
  let n := if rd_wraps r size then rd_end r else size in
  memcpy buf 0 (bslice (BufReadPtr r) n (BufMem r)) n.
(** The second copy, from the start of the block. *)
Definition rd_rest (r : pcm_buf_manager) (buf : bytes) (size : Z) : option bytes :=
  memcpy buf (rd_end r) (BufMem r) (size - rd_end r).
(** The section under the mutex. *)
Definition rd_move (r : pcm_buf_manager) (size : Z) : pcm_buf_manager :=
  let p := BufReadPtr r + size in
  set_read (if BufTotalLen r <=? p then p - BufTotalLen r else p) r.
Definition rd_count (r : pcm_buf_manager) (size : Z) : pcm_buf_manager :=
  set_lens (DataLen r - size) (BufValideLen r + size) r.
(** [if (underflow)]: the rest of [buf] repeats the last byte that was read. *)
Definition rd_pad (buf : bytes) (size : Z) (fill_dc : option Z) : option bytes :=
  match fill_dc with
  | None => Some buf
  | Some n =>
      match bget buf (size - 1) with
      | Some c => memset buf size c n
      | None => None
      end
  end.

(** ** The two calls on one thread *)

Section OneThread.
Context {S : Type}.

(** [WritePcmData]: its result and the buffer. *)
Definition WritePcmData (data : bytes) (r : pcm_buf_manager) : M S (Z * pcm_buf_manager) :=
  let n := lenZ data in
  if BufValideLen r <? n then ret (-1, r) else
  let* r' := checked (wr_copy r data) in
  let* r' := checked (if wr_wraps r n then wr_rest r' data else Some r') in
  ret (0, wr_count (wr_move r' n) n).

(** From the copy on. *)
Definition rd_take (buf : bytes) (size : Z) (fill_dc : option Z) (r : pcm_buf_manager)
  : M S (Z * bytes * pcm_buf_manager) :=
  let* buf := checked (rd_copy r buf size) in
  let* buf := checked (if rd_wraps r size then rd_rest r buf size else Some buf) in
  let r := rd_count (rd_move r size) size in
  let* buf := checked (rd_pad buf size fill_dc) in
  ret (lenZ buf, buf, r).

(** [ReadPcmData] when no other thread writes: the wait cannot bring data, so a
    short buffer is filled up once [max_wait_count] is passed. *)
Definition ReadPcmData (sleep : Z -> M S unit) (active_output : bool) (buf : bytes)
    (r : pcm_buf_manager) : M S (Z * bytes * pcm_buf_manager) :=
  let n := lenZ buf in
  let* max_wait_count := checked (rd_wait r n) in
  if DataLen r <? n then
    let size_read := DataLen r in
    let fill_dc_size := n - DataLen r in
    (if active_output
     then Nat.iter (Z.to_nat (max_wait_count + 1)) (fun m => sleep (10 * 1000) ;;; m) (ret tt)
     else let* us := checked (rd_sleep r fill_dc_size) in sleep us) ;;;
    rd_take buf size_read (Some fill_dc_size) r
  else rd_take buf n None r.
End OneThread.

(** ** The two threads

    How long a step takes is not part of the ring, so the length of the sleep of a
    read when nothing plays ([rd_sleep]), and its overflow, is in [ReadPcmData]
    only. *)

(** Where the writer is, with the data of its call. *)
Inductive wpc :=
| WIdle
| WLock (data : bytes)      (* there is room; before pthread_mutex_lock *)
| WCopy (data : bytes)      (* holds the mutex *)
| WRest (data : bytes)      (* the first part is copied *)
| WCount (data : bytes).    (* BufWritPtr is moved *)

(** Where the reader is, with the caller's buffer. *)
Inductive rpc :=
| RIdle
| RTest (buf : bytes) (timeout max_wait : Z)     (* the test of the while *)
| RSlept (buf : bytes) (timeout max_wait : Z)    (* usleep has returned *)
| RSize (buf : bytes)                            (* size_read = DataLen *)
| RFill (buf : bytes) (size : Z)                 (* fill_dc_size = uGetLen - DataLen *)
| RCopy (buf : bytes) (size : Z) (fill_dc : option Z)
| RRest (buf : bytes) (size : Z) (fill_dc : option Z)
| RLock (buf : bytes) (size : Z) (fill_dc : option Z)
| RMove (buf : bytes) (size : Z) (fill_dc : option Z)   (* holds the mutex *)
| RPad (buf : bytes) (size : Z) (fill_dc : option Z).

Inductive holder := Free | Writer | Reader.

Record ring_sys := RingSys {
  the_ring : pcm_buf_manager;
  mutex : holder;
  writer : wpc;
  reader : rpc;
}.

(** What a thread does next: a call, or the next step of the call it is in. *)
Inductive move :=
| WriteCall (data : bytes)
| WriteStep
| ReadCall (active_output : bool) (buf : bytes)
| ReadStep.

(** What a call returns. *)
Inductive ring_obs :=
| Wrote (data : bytes)                     (* 0 *)
| Refused (data : bytes)                   (* -1 *)
| Got (size : Z) (buf : bytes).            (* size bytes of it are from the ring *)

Definition w_state (r : pcm_buf_manager) (h : holder) (w : wpc) (s : ring_sys) := RingSys r h w (reader s).
Definition r_state (r : pcm_buf_manager) (h : holder) (p : rpc) (s : ring_sys) := RingSys r h (writer s) p.

Definition sys := ring_sys.

Definition write_call (data : bytes) : M sys (list ring_obs) := fun s =>
  let r := the_ring s in
  match writer s with
  | WIdle =>
      if BufValideLen r <? lenZ data then Done [Refused data] s
      else Done [] (w_state r (mutex s) (WLock data) s)
  | _ => Blocked
  end.

Definition write_step : M sys (list ring_obs) := fun s =>
  let r := the_ring s in
  match writer s with
  | WIdle => Blocked
  | WLock data =>
      match mutex s with
      | Free => Done [] (w_state r Writer (WCopy data) s)
      | _ => Blocked
      end
  | WCopy data =>
      match wr_copy r data with
      | None => Undef
      | Some r' =>
          if wr_wraps r (lenZ data) then Done [] (w_state r' (mutex s) (WRest data) s)
          else Done [] (w_state (wr_move r' (lenZ data)) (mutex s) (WCount data) s)
      end
  | WRest data =>
      match wr_rest r data with
      | None => Undef
      | Some r' => Done [] (w_state (wr_move r' (lenZ data)) (mutex s) (WCount data) s)
      end
  | WCount data => Done [Wrote data] (w_state (wr_count r (lenZ data)) Free WIdle s)
  end.

Definition read_call (active_output : bool) (buf : bytes) : M sys (list ring_obs) := fun s =>
  let r := the_ring s in
  match reader s with
  | RIdle =>
      match rd_wait r (lenZ buf) with
      | None => Undef
      | Some max_wait =>
          if active_output then Done [] (r_state r (mutex s) (RTest buf 0 max_wait) s)
          else if DataLen r <? lenZ buf then Done [] (r_state r (mutex s) (RSize buf) s)
          else Done [] (r_state r (mutex s) (RCopy buf (lenZ buf) None) s)
      end
  | _ => Blocked
  end.

Definition read_step : M sys (list ring_obs) := fun s =>
  let r := the_ring s in
  let go p := Done [] (r_state r (mutex s) p s) in
  match reader s with
  | RIdle => Blocked
  | RTest buf timeout max_wait =>
      go (if DataLen r <? lenZ buf then RSlept buf timeout max_wait
          else RCopy buf (lenZ buf) None)
  | RSlept buf timeout max_wait =>
      let timeout := timeout + 1 in
      go (if max_wait <? timeout
          then if DataLen r <? lenZ buf then RSize buf else RCopy buf (lenZ buf) None
          else RTest buf timeout max_wait)
  | RSize buf => go (RFill buf (DataLen r))
  | RFill buf size => go (RCopy buf size (Some (lenZ buf - DataLen r)))
  | RCopy buf size f =>
      match rd_copy r buf size with
      | None => Undef
      | Some buf => go (if rd_wraps r size then RRest buf size f else RLock buf size f)
      end
  | RRest buf size f =>
      match rd_rest r buf size with
      | None => Undef
      | Some buf => go (RLock buf size f)
      end
  | RLock buf size f =>
      match mutex s with
      | Free => Done [] (r_state r Reader (RMove buf size f) s)
      | _ => Blocked
      end
  | RMove buf size f => Done [] (r_state (rd_count (rd_move r size) size) Free (RPad buf size f) s)
  | RPad buf size f =>
      match rd_pad buf size f with
      | None => Undef
      | Some buf => Done [Got size buf] (r_state r (mutex s) RIdle s)
      end
  end.

Definition ring_step (m : move) : M sys (list ring_obs) :=
  match m with
  | WriteCall data => write_call data
  | WriteStep => write_step
  | ReadCall active buf => read_call active buf
  | ReadStep => read_step
  end.

Fixpoint ring_run (l : list move) : M sys (list ring_obs) :=
  match l with
  | [] => ret []
  | m :: l => let* o := ring_step m in let* o' := ring_run l in ret (o ++ o')
  end.

(** What the writes put in, and what the reads took out. *)
Definition written_by (o : ring_obs) : bytes := match o with Wrote d => d | _ => [] end.
Definition taken_by (o : ring_obs) : bytes :=
  match o with Got size buf => bslice 0 size buf | _ => [] end.
Definition written (l : list ring_obs) : bytes := concat (map written_by l).
Definition taken (l : list ring_obs) : bytes := concat (map taken_by l).

(** The buffer [adev_open_input_stream] makes of a block of [total] bytes, [mem]
    being what [malloc] left in it; the code's [total] is [AF_BUFFER_SIZE]. *)
Definition AF_BUFFER_SIZE : Z := 1024 * 80.
Definition ring_new (total addr : Z) (mem : bytes) (sample_rate : Z) : pcm_buf_manager :=
  PcmBuf true addr mem total 0 0 0 total sample_rate 2.
Definition sys_open (r : pcm_buf_manager) : ring_sys := RingSys r Free WIdle RIdle.
