(* ===== verification/AudRingTheorems.v ===== *)
(** * audio HAL: what the buffer between playback and capture promises

    The invariant of the two threads of [AudRing.v] and what follows from it:
    the bytes read are the bytes written, in order, under every interleaving;
    the writer and the reader keep to the block; and the window in which a
    reader that gave up waiting leaves its own buffer. *)

From S2P Require Import Prelude CLib Os AudRing.

(** ** Lists by offsets *)

Lemma bslice_lookup off n b i :
  0 <= off -> 0 <= i < n -> bslice off n b !! Z.to_nat i = b !! Z.to_nat (off + i).
Proof.
  intros. unfold bslice. rewrite lookup_take_lt by lia. rewrite lookup_drop. f_equal. lia.
Qed.
Lemma bblit_lookup off src dst i :
  0 <= off -> off + lenZ src <= lenZ dst -> 0 <= i ->
  bblit off src dst !! Z.to_nat i =
  if (off <=? i) && (i <? off + lenZ src) then src !! Z.to_nat (i - off) else dst !! Z.to_nat i.
Proof.
  unfold bblit, lenZ. intros Ho Hl Hi.
  assert (Ht : length (take (Z.to_nat off) dst) = Z.to_nat off) by (rewrite length_take; lia).
  destruct (off <=? i) eqn:E1; bool_to_prop; cbn [andb].
  - destruct (i <? off + Z.of_nat (length src)) eqn:E2; bool_to_prop.
    + rewrite lookup_app_r by lia. rewrite lookup_app_l by lia. rewrite Ht. f_equal. lia.
    + rewrite lookup_app_r by lia. rewrite lookup_app_r by lia. rewrite lookup_drop, Ht. f_equal. lia.
  - rewrite lookup_app_l by lia. rewrite lookup_take_lt by lia. done.
Qed.
Lemma bslice_ext off off' n b b' :
  0 <= off -> 0 <= off' -> 0 <= n -> off + n <= lenZ b -> off' + n <= lenZ b' ->
  (forall i, 0 <= i < n -> b !! Z.to_nat (off + i) = b' !! Z.to_nat (off' + i)) ->
  bslice off n b = bslice off' n b'.
Proof.
  intros H1 H2 H3 H4 H5 He. apply list_eq. intros i.
  destruct (decide (Z.of_nat i < n)).
  - rewrite <- (Nat2Z.id i), !bslice_lookup by lia. apply He. lia.
  - rewrite !lookup_ge_None_2; [done| |].
    + pose proof (lenZ_bslice off' n b'). unfold lenZ in *. lia.
    + pose proof (lenZ_bslice off n b). unfold lenZ in *. lia.
Qed.
Lemma bslice_split off n m b :
  0 <= off -> 0 <= n -> 0 <= m -> bslice off (n + m) b = bslice off n b ++ bslice (off + n) m b.
Proof.
  intros. unfold bslice. rewrite !Z2Nat.inj_add by lia. rewrite <- drop_drop, take_take_drop. done.
Qed.

Lemma lenZ_drop h (w : bytes) : 0 <= h <= lenZ w -> lenZ (drop (Z.to_nat h) w) = lenZ w - h.
Proof. unfold lenZ. rewrite length_drop. lia. Qed.

(** ** What the block holds *)

(** The byte number [k] of all that was ever written, in its place. *)
Definition cell (mem : bytes) (T k : Z) : option Z := mem !! Z.to_nat (k mod T).
Definition holds (mem : bytes) (T k : Z) (d : bytes) : Prop :=
  forall i, 0 <= i < lenZ d -> cell mem T (k + i) = d !! Z.to_nat i.

Lemma mod_place off pos T i : 0 < T -> off mod T = pos mod T -> 0 <= off -> 0 <= i ->
  off + i < T -> (pos + i) mod T = off + i.
Proof.
  intros HT Hm Ho Hi Hl. rewrite Z.add_mod, <- Hm, <- Z.add_mod by lia. apply Z.mod_small. lia.
Qed.
Lemma mod_apart k j T : 0 < T -> 0 < j - k < T -> k mod T <> j mod T.
Proof.
  intros HT Hd E. apply (f_equal (fun x => x - j mod T)) in E.
  assert (Hz : (j - k) mod T = 0) by (rewrite Zminus_mod; replace (j mod T - k mod T) with 0 by lia; done).
  rewrite Z.mod_small in Hz; lia.
Qed.

(** A copy of [d] to the place of byte [pos]. *)
Lemma holds_put mem T off pos d :
  lenZ mem = T -> 0 < T -> off mod T = pos mod T -> 0 <= off -> off + lenZ d <= T ->
  holds (bblit off d mem) T pos d.
Proof.
  intros Hl HT Hm Ho Hd i Hi. unfold cell. rewrite (mod_place off) by lia.
  rewrite bblit_lookup by lia.
  rewrite (proj2 (Z.leb_le _ _)), (proj2 (Z.ltb_lt _ _)) by lia. cbn [andb]. f_equal. lia.
Qed.
Lemma holds_put_other mem T off pos d k d' :
  lenZ mem = T -> 0 < T -> off mod T = pos mod T -> 0 <= off -> off + lenZ d <= T ->
  k + lenZ d' <= pos -> pos + lenZ d - k <= T ->
  holds mem T k d' -> holds (bblit off d mem) T k d'.
Proof.
  intros Hl HT Hm Ho Hd Hk Hr Hh i Hi. rewrite <- Hh by done. unfold cell.
  pose proof (Z.mod_pos_bound (k + i) T HT).
  rewrite bblit_lookup by lia.
  destruct (off <=? (k + i) mod T) eqn:E1; [|done].
  destruct ((k + i) mod T <? off + lenZ d) eqn:E2; [|done]. bool_to_prop. exfalso.
  assert (exists j, (k + i) mod T = off + j /\ 0 <= j < lenZ d) as (j & Ej & Hj)
    by (exists ((k + i) mod T - off); lia).
  apply (mod_apart (k + i) (pos + j) T); [lia..|].
  rewrite Ej, (mod_place off) by lia. done.
Qed.
Lemma holds_app mem T k d d' :
  holds mem T k d -> holds mem T (k + lenZ d) d' -> holds mem T k (d ++ d').
Proof.
  intros H1 H2 i Hi. rewrite lenZ_app in Hi. destruct (decide (i < lenZ d)).
  - rewrite H1 by lia. unfold lenZ in *. by rewrite lookup_app_l by lia.
  - replace (k + i) with (k + lenZ d + (i - lenZ d)) by lia. rewrite H2 by lia.
    unfold lenZ in *. rewrite lookup_app_r by lia. f_equal. lia.
Qed.
Lemma holds_drop mem T k n d : 0 <= n -> holds mem T k d -> holds mem T (k + n) (drop (Z.to_nat n) d).
Proof.
  intros Hn Hh i Hi. unfold lenZ in *. rewrite length_drop in Hi. rewrite lookup_drop.
  replace (k + n + i) with (k + (n + i)) by lia. rewrite Hh by (unfold lenZ; lia). f_equal. lia.
Qed.
(** Reading back from the place of byte [p]. *)
Lemma holds_slice mem T h w p off n :
  lenZ mem = T -> 0 < T -> 0 <= h -> holds mem T h (drop (Z.to_nat h) w) ->
  h <= p -> off mod T = p mod T -> 0 <= off -> 0 <= n -> off + n <= T -> p + n <= lenZ w ->
  bslice off n mem = bslice p n w.
Proof.
  intros Hl HT Hh0 Hh Hp Hm Ho Hn Ht Hw. apply bslice_ext; [lia..|].
  intros i Hi. specialize (Hh (p + i - h)).
  unfold cell, lenZ in *. rewrite length_drop in Hh. rewrite lookup_drop in Hh.
  replace (h + (p + i - h)) with (p + i) in Hh by lia.
  rewrite (mod_place off) in Hh by lia. rewrite Hh by lia. f_equal. lia.
Qed.

(** ** The invariant *)

(** [w] was written, of it the first [h] bytes are read. *)
Record ring_ok (r : pcm_buf_manager) (w : bytes) (h : Z) : Prop := {
  ro_mem : lenZ (BufMem r) = BufTotalLen r;
  ro_total : 0 < BufTotalLen r;
  ro_read : BufReadPtr r = h mod BufTotalLen r;
  ro_h : 0 <= h <= lenZ w;
  ro_data : DataLen r = lenZ w - h;
  ro_room : BufValideLen r = BufTotalLen r - DataLen r;
  ro_fit : DataLen r <= BufTotalLen r;
  ro_holds : holds (BufMem r) (BufTotalLen r) h (drop (Z.to_nat h) w);
}.
Definition writ_at (r : pcm_buf_manager) (pos : Z) : Prop :=
  0 <= BufWritPtr r <= BufTotalLen r /\ BufWritPtr r mod BufTotalLen r = pos mod BufTotalLen r.

Definition writer_ok (r : pcm_buf_manager) (w : bytes) (h : holder) (p : wpc) : Prop :=
  match p with
  | WIdle => writ_at r (lenZ w) /\ h <> Writer
  | WLock d => writ_at r (lenZ w) /\ lenZ d <= BufValideLen r /\ h <> Writer
  | WCopy d => writ_at r (lenZ w) /\ lenZ d <= BufValideLen r /\ h = Writer
  | WRest d => writ_at r (lenZ w) /\ lenZ d <= BufValideLen r /\ h = Writer /\
      wr_wraps r (lenZ d) = true /\
      holds (BufMem r) (BufTotalLen r) (lenZ w) (bslice 0 (wr_end r) d)
  | WCount d => writ_at r (lenZ w + lenZ d) /\ lenZ d <= BufValideLen r /\ h = Writer /\
      holds (BufMem r) (BufTotalLen r) (lenZ w) d
  end.

(** How far the reader is: a call that has moved the pointer but not returned. *)
Definition pending (p : rpc) : Z := match p with RPad _ size _ => size | _ => 0 end.

Definition reader_ok (r : pcm_buf_manager) (w : bytes) (n : Z) (h : holder) (p : rpc) : Prop :=
  match p with
  | RIdle | RTest _ _ _ | RSlept _ _ _ | RSize _ => h <> Reader
  | RFill buf size | RCopy buf size _ => 0 <= size <= DataLen r /\ h <> Reader
  | RRest buf size _ => 0 <= size <= DataLen r /\ h <> Reader /\
      rd_wraps r size = true /\ bslice 0 (rd_end r) buf = bslice n (rd_end r) w
  | RLock buf size _ => 0 <= size <= DataLen r /\ size <= lenZ buf /\ h <> Reader /\
      bslice 0 size buf = bslice n size w
  | RMove buf size _ => 0 <= size <= DataLen r /\ size <= lenZ buf /\ h = Reader /\
      bslice 0 size buf = bslice n size w
  | RPad buf size _ => 0 <= size <= lenZ buf /\ n + size <= lenZ w /\ h <> Reader /\
      bslice 0 size buf = bslice n size w
  end.

(** [g] bytes were given back to callers. *)
Record sys_ok (s : ring_sys) (w g : bytes) : Prop := {
  so_ring : ring_ok (the_ring s) w (lenZ g + pending (reader s));
  so_writer : writer_ok (the_ring s) w (mutex s) (writer s);
  so_reader : reader_ok (the_ring s) w (lenZ g) (mutex s) (reader s);
  so_prefix : g = bslice 0 (lenZ g) w;
}.

(** *** The writer's changes of the buffer *)

Lemma wr_copy_run r w h d :
  ring_ok r w h -> writ_at r (lenZ w) -> lenZ d <= BufValideLen r ->
  let n := if wr_wraps r (lenZ d) then wr_end r else lenZ d in
  exists m, wr_copy r d = Some (set_mem m r) /\ ring_ok (set_mem m r) w h /\
    holds m (BufTotalLen r) (lenZ w) (bslice 0 n d).
Proof.
  intros [Hm HT Hr Hh Hd Hv Hf Hh'] [Hw Hwm] Hn n. unfold wr_copy. fold n.
  assert (0 <= n <= lenZ d /\ BufWritPtr r + n <= BufTotalLen r) as [Hn1 Hn2].
  { unfold n, wr_wraps, wr_end. pose proof (lenZ_nonneg d).
    destruct (_ <? _) eqn:E; bool_to_prop; lia. }
  rewrite memcpy_Some by lia. cbn [option_map].
  pose proof (lenZ_bslice 0 n d ltac:(lia) ltac:(lia) ltac:(lia)) as Hl.
  eexists. split; [done|]. split.
  - constructor; cbn [set_mem BufMem BufTotalLen BufReadPtr DataLen BufValideLen]; try done.
    + rewrite lenZ_bblit; lia.
    + apply (holds_put_other _ _ _ (lenZ w)); rewrite ?lenZ_drop by lia; [lia..|done].
  - apply holds_put; lia.
Qed.

Lemma wr_rest_run r w h d :
  ring_ok r w h -> writ_at r (lenZ w) -> lenZ d <= BufValideLen r ->
  wr_wraps r (lenZ d) = true -> holds (BufMem r) (BufTotalLen r) (lenZ w) (bslice 0 (wr_end r) d) ->
  exists m, wr_rest r d = Some (set_mem m r) /\ ring_ok (set_mem m r) w h /\
    holds m (BufTotalLen r) (lenZ w) d.
Proof.
  intros [Hm HT Hr Hh Hd Hv Hf Hh'] [Hw Hwm] Hn Hwr H1. unfold wr_rest, wr_wraps, wr_end in *.
  bool_to_prop. set (e := BufTotalLen r - BufWritPtr r) in *.
  assert (He : 0 <= e < lenZ d) by lia.
  pose proof (lenZ_bslice e (lenZ d - e) d ltac:(lia) ltac:(lia) ltac:(lia)) as Hl.
  assert (Hp : 0 mod BufTotalLen r = (lenZ w + e) mod BufTotalLen r).
  { rewrite Z.add_mod, <- Hwm, <- Z.add_mod by lia. unfold e.
    replace (BufWritPtr r + (BufTotalLen r - BufWritPtr r)) with (1 * BufTotalLen r) by lia.
    by rewrite Z.mod_mul, Z.mod_0_l by lia. }
  rewrite memcpy_Some by lia. cbn [option_map]. rewrite (bslice_all (lenZ d - e)) by done.
  eexists. split; [done|]. split.
  - constructor; cbn [set_mem BufMem BufTotalLen BufReadPtr DataLen BufValideLen]; try done.
    + rewrite lenZ_bblit; lia.
    + apply (holds_put_other _ _ _ (lenZ w + e)); rewrite ?lenZ_drop by lia; [lia..|done].
  - assert (Ed : d = bslice 0 e d ++ bslice e (lenZ d - e) d).
    { rewrite <- (bslice_split 0 e) by lia. symmetry. apply bslice_all. lia. }
    refine (eq_ind_r (holds _ _ _) _ Ed). apply holds_app; rewrite ?(lenZ_bslice 0 e d) by lia.
    + apply (holds_put_other _ _ _ (lenZ w + e)); rewrite ?(lenZ_bslice 0 e d) by lia; [lia..|done].
    + apply holds_put; lia.
Qed.

Lemma wr_move_at r (w d : bytes) :
  writ_at r (lenZ w) -> 0 < BufTotalLen r -> lenZ d <= BufTotalLen r ->
  writ_at (wr_move r (lenZ d)) (lenZ w + lenZ d).
Proof.
  intros [Hw Hm] HT Hd. unfold writ_at, wr_move, wr_wraps. pose proof (lenZ_nonneg d).
  cbn [set_writ BufWritPtr BufTotalLen].
  destruct (_ <? _) eqn:E; bool_to_prop; (split; [lia|]).
  - replace (BufWritPtr r + lenZ d - BufTotalLen r) with (BufWritPtr r + lenZ d + (-1) * BufTotalLen r) by lia.
    rewrite Z.mod_add, Z.add_mod, Hm, <- Z.add_mod by lia. done.
  - rewrite Z.add_mod, Hm, <- Z.add_mod by lia. done.
Qed.

Lemma wr_count_ok r w h d :
  ring_ok r w h -> lenZ d <= BufValideLen r -> holds (BufMem r) (BufTotalLen r) (lenZ w) d ->
  ring_ok (wr_count r (lenZ d)) (w ++ d) h.
Proof.
  intros [Hm HT Hr Hh Hd Hv Hf Hh'] Hn H1. pose proof (lenZ_nonneg d).
  constructor; cbn [wr_count set_lens BufMem BufTotalLen BufReadPtr DataLen BufValideLen];
    rewrite ?lenZ_app; try done; try lia.
  assert (Hle : (Z.to_nat h <= length w)%nat) by (unfold lenZ in *; lia).
  rewrite drop_app_le by done. apply holds_app; [done|].
  rewrite lenZ_drop by lia. by replace (h + (lenZ w - h)) with (lenZ w) by lia.
Qed.

(** *** The reader's copies *)

Lemma rd_part r w h p off n :
  ring_ok r w h -> h <= p -> off mod BufTotalLen r = p mod BufTotalLen r ->
  0 <= off -> 0 <= n -> off + n <= BufTotalLen r -> p + n <= lenZ w ->
  bslice off n (BufMem r) = bslice p n w.
Proof.
  intros [Hm HT Hr Hh Hd Hv Hf Hh'] Hp Ho H1 H2 H3 H4.
  apply (holds_slice _ (BufTotalLen r) h); auto; lia.
Qed.

Lemma rd_copy_run r w h buf size buf' :
  ring_ok r w h -> 0 <= size <= DataLen r -> rd_copy r buf size = Some buf' ->
  let n := if rd_wraps r size then rd_end r else size in
  n <= lenZ buf /\ lenZ buf' = lenZ buf /\ bslice 0 n buf' = bslice h n w.
Proof.
  intros Hr Hs Hb n. unfold rd_copy in Hb. fold n in Hb. destruct (Hr) as [Hm HT Hp Hh Hd Hv Hf _].
  pose proof (Z.mod_pos_bound h (BufTotalLen r) HT).
  assert (0 <= n <= size /\ BufReadPtr r + n <= BufTotalLen r) as [Hn1 Hn2].
  { unfold n, rd_wraps, rd_end. destruct (_ <? _) eqn:E; bool_to_prop; lia. }
  rewrite (rd_part r w h h) in Hb by (auto; rewrite ?Hp, ?Z.mod_mod by lia; lia).
  pose proof (lenZ_bslice h n w ltac:(lia) ltac:(lia) ltac:(lia)) as Hl.
  destruct (memcpy_inv _ _ _ _ _ Hb) as (_ & _ & Hbn & _).
  rewrite memcpy_Some in Hb by lia. injection Hb as <-. rewrite (bslice_all n (bslice h n w)) by done.
  split_and!; [lia|rewrite lenZ_bblit; lia|apply bslice_bblit_same; lia].
Qed.

Lemma rd_rest_run r w h buf size buf' :
  ring_ok r w h -> 0 <= size <= DataLen r -> rd_wraps r size = true ->
  bslice 0 (rd_end r) buf = bslice h (rd_end r) w -> rd_rest r buf size = Some buf' ->
  size <= lenZ buf /\ lenZ buf' = lenZ buf /\ bslice 0 size buf' = bslice h size w.
Proof.
  intros Hr Hs Hw H1 Hb. unfold rd_rest, rd_wraps, rd_end in *. bool_to_prop.
  destruct (Hr) as [Hm HT Hp Hh Hd Hv Hf _]. set (e := BufTotalLen r - BufReadPtr r) in *.
  pose proof (Z.mod_pos_bound h (BufTotalLen r) HT).
  assert (He : 0 < e < size) by lia.
  assert (Hz : 0 mod BufTotalLen r = (h + e) mod BufTotalLen r).
  { rewrite Z.add_mod, <- Hp by lia. unfold e. rewrite Zplus_mod_idemp_r.
    replace (BufReadPtr r + (BufTotalLen r - BufReadPtr r)) with (1 * BufTotalLen r) by lia.
    by rewrite Z.mod_mul, Z.mod_0_l by lia. }
  pose proof (rd_part r w h (h + e) 0 (size - e) Hr ltac:(lia) Hz ltac:(lia) ltac:(lia) ltac:(lia) ltac:(lia)) as E.
  pose proof (lenZ_bslice (h + e) (size - e) w ltac:(lia) ltac:(lia) ltac:(lia)) as Hl.
  destruct (memcpy_inv _ _ _ _ _ Hb) as (_ & _ & Hbn & _).
  rewrite memcpy_Some in Hb by lia. injection Hb as <-. rewrite E.
  split_and!; [lia|rewrite lenZ_bblit; lia|].
  replace size with (e + (size - e)) at 1 3 by lia. rewrite !bslice_split by lia. cbn [Z.add]. f_equal.
  - rewrite bslice_bblit_before by lia. done.
  - apply bslice_bblit_same; lia.
Qed.

Lemma rd_move_ok r w h size :
  ring_ok r w h -> 0 <= size <= DataLen r -> ring_ok (rd_count (rd_move r size) size) w (h + size).
Proof.
  intros [Hm HT Hr Hh Hd Hv Hf Hh'] Hs.
  pose proof (Z.mod_pos_bound h (BufTotalLen r) HT).
  constructor; cbn [rd_count rd_move set_lens set_read BufMem BufTotalLen BufReadPtr DataLen BufValideLen];
    try done; try lia.
  - rewrite Z.add_mod, <- Hr by lia. rewrite Zplus_mod_idemp_r.
    destruct (_ <=? _) eqn:E; bool_to_prop; [|symmetry; apply Z.mod_small; lia].
    replace (BufReadPtr r + size) with (BufReadPtr r + size - BufTotalLen r + 1 * BufTotalLen r) at 2 by lia.
    rewrite Z.mod_add by lia. symmetry. apply Z.mod_small. lia.
  - rewrite Z2Nat.inj_add, <- drop_drop by lia. apply holds_drop; [lia|done].
Qed.

Lemma rd_pad_run buf size f buf' :
  0 <= size -> rd_pad buf size f = Some buf' -> bslice 0 size buf' = bslice 0 size buf.
Proof.
  intros Hs. unfold rd_pad. destruct f as [n|]; [|by intros [= <-]].
  destruct (bget _ _); [|done]. unfold memset. destruct (in_bounds size n buf) eqn:E; [|done].
  intros [= <-]. apply in_bounds_spec in E. apply bslice_bblit_before; lia.
Qed.

(** ** Every step keeps it *)

Lemma bslice_app off n (w d : bytes) :
  0 <= off -> 0 <= n -> off + n <= lenZ w -> bslice off n (w ++ d) = bslice off n w.
Proof.
  unfold bslice, lenZ. intros. rewrite drop_app_le by lia. apply take_app_le. rewrite length_drop. lia.
Qed.

(** The reader's part when the writer changes the buffer and the mutex. *)
Lemma reader_keeps r r' w d n h h' p :
  reader_ok r w n h p -> ring_ok r w (n + pending p) -> 0 <= n ->
  BufTotalLen r' = BufTotalLen r -> BufReadPtr r' = BufReadPtr r -> DataLen r <= DataLen r' ->
  (h' = Reader <-> h = Reader) -> reader_ok r' (w ++ d) n h' p.
Proof.
  intros Hp [_ Ht Hr Hh Hd _ _ _] Hn HT HR HD Hl. pose proof (lenZ_nonneg w).
  pose proof (Z.mod_pos_bound (n + pending p) (BufTotalLen r) Ht).
  destruct p; cbn [reader_ok pending] in *; unfold rd_wraps, rd_end in *; rewrite ?HT, ?HR in *;
    try tauto; destruct_and?; bool_to_prop; split_and?; try tauto; try lia;
    rewrite ?bslice_app, ?lenZ_app; try done; pose proof (lenZ_nonneg d); lia.
Qed.

(** The writer's part when the reader changes the buffer and the mutex. *)
Lemma writer_keeps r r' w h h' p :
  writer_ok r w h p -> BufTotalLen r' = BufTotalLen r -> BufWritPtr r' = BufWritPtr r ->
  BufMem r' = BufMem r -> BufValideLen r <= BufValideLen r' ->
  (h' = Writer <-> h = Writer) -> writer_ok r' w h' p.
Proof.
  intros Hp HT HW HM HV Hl.
  destruct p; cbn [writer_ok] in *; unfold writ_at, wr_wraps, wr_end in *; rewrite ?HT, ?HW, ?HM in *;
    try tauto; destruct_and?; split_and?; try tauto; lia.
Qed.

(** What one step does to the ghost histories. *)
Definition keeps (s : ring_sys) (w g : bytes) (out : outcome ring_sys (list ring_obs)) : Prop :=
  match out with
  | Done o s' => sys_ok s' (w ++ written o) (g ++ taken o)
  | _ => True
  end.

(** A step of the writer that finishes no call. *)
Lemma writer_quiet s w g r' h' p' :
  sys_ok s w g -> ring_ok r' w (lenZ g + pending (reader s)) -> writer_ok r' w h' p' ->
  BufTotalLen r' = BufTotalLen (the_ring s) -> BufReadPtr r' = BufReadPtr (the_ring s) ->
  DataLen r' = DataLen (the_ring s) -> (h' = Reader <-> mutex s = Reader) ->
  sys_ok (w_state r' h' p' s) (w ++ []) (g ++ []).
Proof.
  intros [Hr Hw Hp Hg] Hr' Hw' HT HR HD Hl. rewrite !app_nil_r.
  constructor; cbn [w_state the_ring mutex writer reader]; try done.
  rewrite <- (app_nil_r w). apply (reader_keeps (the_ring s) r' w [] _ (mutex s)); try done.
  - apply lenZ_nonneg.
  - lia.
Qed.

Lemma write_call_keeps s w g data : sys_ok s w g -> keeps s w g (write_call data s).
Proof.
  intros Hs. pose proof Hs as [Hr Hw Hp Hg]. unfold write_call, keeps.
  destruct (writer s) eqn:E; try done. destruct (_ <? _) eqn:El; bool_to_prop.
  - by rewrite !app_nil_r.
  - apply writer_quiet; try done. cbn [writer_ok] in *. tauto.
Qed.

Lemma write_step_keeps s w g : sys_ok s w g -> keeps s w g (write_step s).
Proof.
  intros Hs. pose proof Hs as [Hr Hw Hp Hg]. unfold write_step, keeps.
  destruct (writer s) as [|d|d|d|d] eqn:E; cbn [writer_ok] in Hw; try done.
  - destruct (mutex s) eqn:Em; try done. apply writer_quiet; try done.
    + cbn [writer_ok]. tauto.
    + by rewrite Em.
  - destruct Hw as (Ha & Hn & Hm).
    destruct (wr_copy_run _ _ _ _ Hr Ha Hn) as (m & -> & Hr' & Hh).
    destruct (wr_wraps (the_ring s) (lenZ d)) eqn:Ew.
    + by apply writer_quiet.
    + rewrite bslice_all in Hh by done. apply writer_quiet; try done.
      * by destruct Hr'; constructor.
      * cbn [writer_ok]. split_and!; try done.
        apply (wr_move_at (set_mem m (the_ring s))); [done|apply Hr|].
        pose proof (ro_room _ _ _ Hr). pose proof (ro_data _ _ _ Hr). pose proof (ro_h _ _ _ Hr). 
        cbn [set_mem BufTotalLen]. lia.
  - destruct Hw as (Ha & Hn & Hm & Hwr & Hh).
    destruct (wr_rest_run _ _ _ _ Hr Ha Hn Hwr Hh) as (m & -> & Hr' & Hh').
    apply writer_quiet; try done.
    + by destruct Hr'; constructor.
    + cbn [writer_ok]. split_and!; try done.
      apply (wr_move_at (set_mem m (the_ring s))); [done|apply Hr|].
      pose proof (ro_room _ _ _ Hr). pose proof (ro_data _ _ _ Hr). pose proof (ro_h _ _ _ Hr). 
      cbn [set_mem BufTotalLen]. lia.
  - destruct Hw as (Ha & Hn & Hm & Hh). cbn [written taken map written_by taken_by concat].
    rewrite !app_nil_r. constructor; cbn [w_state the_ring mutex writer reader].
    + by apply wr_count_ok.
    + cbn [writer_ok]. rewrite lenZ_app. by split.
    + apply (reader_keeps (the_ring s) _ w d _ (mutex s)); try done.
      * apply lenZ_nonneg.
      * cbn [wr_count set_lens DataLen]. pose proof (lenZ_nonneg d). lia.
      * by rewrite Hm.
    + rewrite bslice_app; [done|lia|apply lenZ_nonneg|].
      destruct Hr. destruct (reader s); cbn [pending reader_ok] in *; destruct_and?; lia.
Qed.

(** A step of the reader that finishes no call. *)
Lemma reader_quiet s w g r' h' p' :
  sys_ok s w g -> ring_ok r' w (lenZ g + pending p') -> reader_ok r' w (lenZ g) h' p' ->
  BufTotalLen r' = BufTotalLen (the_ring s) -> BufWritPtr r' = BufWritPtr (the_ring s) ->
  BufMem r' = BufMem (the_ring s) -> BufValideLen (the_ring s) <= BufValideLen r' ->
  (h' = Writer <-> mutex s = Writer) ->
  sys_ok (r_state r' h' p' s) (w ++ []) (g ++ []).
Proof.
  intros [Hr Hw Hp Hg] Hr' Hp' HT HW HM HV Hl. rewrite !app_nil_r.
  constructor; cbn [r_state the_ring mutex writer reader]; try done.
  by apply (writer_keeps (the_ring s) r' w (mutex s)).
Qed.

Lemma read_call_keeps s w g active buf : sys_ok s w g -> keeps s w g (read_call active buf s).
Proof.
  intros Hs. pose proof Hs as [Hr Hw Hp Hg]. unfold read_call, keeps.
  destruct (reader s) eqn:E; try done. cbn [pending reader_ok] in *.
  destruct (rd_wait _ _); [|done]. pose proof (lenZ_nonneg buf).
  repeat case_test; apply reader_quiet; try done; try lia; cbn [reader_ok]; split_and?; try done; lia.
Qed.

Lemma read_step_keeps s w g : sys_ok s w g -> keeps s w g (read_step s).
Proof.
  intros Hs. pose proof Hs as [Hr Hw Hp Hg]. unfold read_step, keeps.
  destruct (reader s) as [|b t m|b t m|b|b sz|b sz f|b sz f|b sz f|b sz f|b sz f] eqn:E;
    cbn [pending reader_ok] in *; try done; try pose proof (lenZ_nonneg b);
    try (repeat case_test; apply reader_quiet; try done; try lia; cbn [reader_ok]; split_and?; try done; lia).
  - apply reader_quiet; try done; cbn [reader_ok]; split_and?; try done; destruct Hr; lia.
  - destruct Hp as [Hsz Hl]. destruct (rd_copy _ _ _) as [b'|] eqn:Ec; [|done].
    rewrite Z.add_0_r in Hr.
    destruct (rd_copy_run _ _ _ _ _ _ Hr Hsz Ec) as (Hn & Hb & Hc).
    destruct (rd_wraps _ _) eqn:Ew; apply reader_quiet; cbn [reader_ok pending]; rewrite ?Z.add_0_r;
      try done; try lia; split_and!; try done; lia.
  - destruct Hp as (Hsz & Hl & Hwr & Hc). destruct (rd_rest _ _ _) as [b'|] eqn:Ec; [|done].
    rewrite Z.add_0_r in Hr.
    destruct (rd_rest_run _ _ _ _ _ _ Hr Hsz Hwr Hc Ec) as (Hn & Hb & Hc').
    apply reader_quiet; cbn [reader_ok pending]; rewrite ?Z.add_0_r;
      try done; try lia; split_and!; try done; lia.
  - destruct (mutex s) eqn:Em; try done.
    apply reader_quiet; cbn [reader_ok pending]; try done; rewrite ?Em; try done; try lia.
    split_and!; try tauto; lia.
  - destruct Hp as (Hsz & Hb & Hl & Hc). rewrite Z.add_0_r in Hr.
    apply reader_quiet; cbn [reader_ok pending]; try done; rewrite ?Hl; try done.
    + by apply rd_move_ok.
    + split_and!; try done; try lia. destruct Hr. lia.
    + cbn [rd_count rd_move set_lens set_read BufValideLen]. lia.
  - destruct Hp as (Hsz & Hn & Hl & Hc). destruct (rd_pad _ _ _) as [b'|] eqn:Ec; [|done].
    apply rd_pad_run in Ec; [|lia]. cbn [written taken map written_by taken_by concat].
    rewrite !app_nil_r, Ec, Hc. pose proof (lenZ_nonneg g).
    assert (Hlen : lenZ (bslice (lenZ g) sz w) = sz) by (apply lenZ_bslice; lia).
    constructor; cbn [r_state the_ring mutex writer reader pending]; rewrite ?lenZ_app, ?Hlen, ?Z.add_0_r; try done.
    rewrite bslice_split, <- Hg by lia. done.
Qed.

Lemma ring_step_keeps m s w g : sys_ok s w g -> keeps s w g (ring_step m s).
Proof.
  destruct m; cbn [ring_step];
    [apply write_call_keeps|apply write_step_keeps|apply read_call_keeps|apply read_step_keeps].
Qed.

Lemma obs_written_app a b : written (a ++ b) = written a ++ written b.
Proof. unfold written. by rewrite map_app, concat_app. Qed.
Lemma taken_app a b : taken (a ++ b) = taken a ++ taken b.
Proof. unfold taken. by rewrite map_app, concat_app. Qed.

Lemma ring_run_keeps l : forall s w g o s',
  sys_ok s w g -> ring_run l s = Done o s' -> sys_ok s' (w ++ written o) (g ++ taken o).
Proof.
  induction l as [|m l IH]; intros s w g o s' Hs.
  - intros [= <- <-]. by rewrite !app_nil_r.
  - cbn [ring_run]. intros (o1 & s1 & E1 & H1)%bind_inv.
    apply bind_inv in H1 as (o2 & s2 & E2 & [= <- <-]).
    pose proof (ring_step_keeps m s w g Hs) as Hk. unfold keeps in Hk. rewrite E1 in Hk.
    specialize (IH _ _ _ _ _ Hk E2). by rewrite obs_written_app, taken_app, !app_assoc.
Qed.

Lemma sys_open_ok total addr mem rate :
  0 < total -> lenZ mem = total -> sys_ok (sys_open (ring_new total addr mem rate)) [] [].
Proof.
  intros Ht Hm. constructor; cbn [sys_open the_ring mutex writer reader pending writer_ok reader_ok]; try done.
  - constructor; cbn [ring_new BufMem BufTotalLen BufReadPtr DataLen BufValideLen]; try done; try lia.
    intros i Hi. change (0 <= i < 0) in Hi. lia.
  - split; [|done]. split; cbn [ring_new BufTotalLen BufWritPtr]; [lia|done].
Qed.

(** A read that found enough bytes fills the whole buffer of its caller. *)
Definition whole (p : rpc) : Prop :=
  match p with
  | RCopy buf size None | RRest buf size None | RLock buf size None | RMove buf size None
  | RPad buf size None => size = lenZ buf
  | _ => True
  end.

Lemma ring_step_whole m s o s' :
  whole (reader s) -> ring_step m s = Done o s' -> whole (reader s').
Proof.
  intros Hs. destruct m as [d| |a b|]; cbn [ring_step].
  - unfold write_call. repeat (case_match; try done); by intros [= <- <-].
  - unfold write_step. repeat (case_match; try done); by intros [= <- <-].
  - unfold read_call. repeat (case_match; try done); by intros [= <- <-].
  - unfold read_step. destruct (reader s) as [|b t x|b t x|b|b z|b z f|b z f|b z f|b z f|b z f];
      cbn [whole] in Hs; repeat (case_match; try done); intros [= <- <-]; cbn [r_state reader whole];
      repeat case_match; try done.
    all: match goal with
         | H : rd_copy _ _ _ = Some _ |- _ => apply memcpy_lenZ in H
         | H : rd_rest _ _ _ = Some _ |- _ => apply memcpy_lenZ in H
         end; congruence.
Qed.

Lemma ring_run_whole l : forall s o s',
  whole (reader s) -> ring_run l s = Done o s' -> whole (reader s').
Proof.
  induction l as [|m l IH]; intros s o s' Hs.
  - by intros [= <- <-].
  - cbn [ring_run]. intros (o1 & s1 & E1 & H1)%bind_inv.
    apply bind_inv in H1 as (o2 & s2 & E2 & [= <- <-]).
    eapply IH, E2. eapply ring_step_whole, E1. done.
Qed.

(** ** The properties *)

(** The thread that would run next is not stuck for ever: a thread inside a call
    is only held up by the other one in its section under the mutex, and that
    one can go on. *)
Definition never_stuck (s : ring_sys) : Prop :=
  (writer s <> WIdle -> write_step s <> Blocked \/
     (write_step s = Blocked /\ exists buf size f, reader s = RMove buf size f /\ read_step s <> Blocked)) /\
  (reader s <> RIdle -> read_step s <> Blocked \/
     (read_step s = Blocked /\ writer s <> WIdle /\ write_step s <> Blocked)).

Lemma ok_never_stuck s w g : sys_ok s w g -> never_stuck s.
Proof.
  intros [Hr Hw Hp _]. unfold never_stuck, write_step, read_step.
  split; intros Hi.
  - destruct (writer s) eqn:E; cbn [writer_ok] in *; try done; try (left; repeat case_match; done).
    destruct (mutex s) eqn:Em; [by left| |]; [tauto|right; split; [done|]].
    destruct (reader s); cbn [reader_ok] in *; try tauto.
    eexists _, _, _. split; [done|]. done.
  - destruct (reader s) eqn:E; cbn [reader_ok] in *; try done; try (left; repeat case_match; done).
    destruct (mutex s) eqn:Em; [by left| |tauto]. right. split; [done|].
    destruct (writer s) eqn:Ew; cbn [writer_ok] in *; try tauto; split; try done; repeat case_match; done.
Qed.

(** C9: Whatever the order in which the two threads run, the bytes the reader's
    callers got are the first bytes that were written, in order, none lost and
    none twice; what is not read yet is counted by [DataLen] and fits the
    buffer; and no thread waits for ever on the mutex. *)
Theorem ring_delivers total addr mem rate l o s :
  0 < total -> lenZ mem = total ->
  ring_run l (sys_open (ring_new total addr mem rate)) = Done o s ->
  taken o = bslice 0 (lenZ (taken o)) (written o) /\
  (reader s = RIdle -> DataLen (the_ring s) = lenZ (written o) - lenZ (taken o)) /\
  0 <= DataLen (the_ring s) /\ DataLen (the_ring s) + BufValideLen (the_ring s) = BufTotalLen (the_ring s) /\
  never_stuck s.
Proof.
  intros Ht Hm Hrun.
  pose proof (ring_run_keeps l _ _ _ _ _ (sys_open_ok total addr mem rate Ht Hm) Hrun) as Hs.
  pose proof (ok_never_stuck _ _ _ Hs) as Hn.
  destruct Hs as [[Hm' HT Hr Hh Hd Hv Hf _] Hw Hp Hg]. cbn [app] in *.
  split_and!; try done; try lia.
  - intros E. rewrite E in *. cbn [pending] in *. lia.
Qed.

(** The reader was told that too few bytes are there, and goes on with those. *)
Definition short_read (s : ring_sys) : Prop :=
  match reader s with
  | RCopy _ _ (Some _) | RRest _ _ (Some _) | RPad _ _ (Some _) => True
  | _ => False
  end.

Lemma writer_never_undef s w g :
  sys_ok s w g -> ((exists d, write_call d s = Undef) \/ write_step s = Undef) -> False.
Proof.
  intros [Hr Hw _ _]. unfold write_call, write_step. intros [(d & Hu)|Hu]; revert Hu.
  { repeat case_match; done. }
  destruct (writer s) eqn:E; cbn [writer_ok] in Hw; try (repeat case_match; done).
  - destruct Hw as (Ha & Hn & _). destruct (wr_copy_run _ _ _ _ Hr Ha Hn) as (m & -> & _).
    case_match; done.
  - destruct Hw as (Ha & Hn & _ & Hwr & Hh).
    by destruct (wr_rest_run _ _ _ _ Hr Ha Hn Hwr Hh) as (m & -> & _).
Qed.

Lemma reader_undef s w g :
  sys_ok s w g -> whole (reader s) -> read_step s = Undef -> short_read s.
Proof.
  intros [Hr _ Hp _] Hw. unfold read_step, short_read.
  destruct (Hr) as [Hm HT Hrd Hh Hd Hv Hf _].
  pose proof (Z.mod_pos_bound (lenZ g + pending (reader s)) _ HT).
  destruct (reader s) as [|b t x|b t x|b|b z|b z [f|]|b z [f|]|b z f|b z f|b z [f|]];
    cbn [reader_ok whole] in *; try done; try (repeat case_match; done).
  - unfold rd_copy, rd_wraps, rd_end. destruct Hp as [Hz _].
    destruct (_ <? _) eqn:E; bool_to_prop;
      rewrite memcpy_Some by (rewrite ?lenZ_bslice; lia); done.
  - unfold rd_rest, rd_wraps, rd_end in *. destruct Hp as (Hz & _ & E & _). bool_to_prop.
    by rewrite memcpy_Some by lia.
Qed.

(** C38: No interleaving lets a copy leave the block, and the writer is never undefined:
    the only undefined steps are the call of a read whose wait cannot be computed
    and those of a read that ran short. *)
Theorem ring_stays_inside total addr mem rate l o s m :
  0 < total -> lenZ mem = total ->
  ring_run l (sys_open (ring_new total addr mem rate)) = Done o s ->
  ring_step m s = Undef ->
  (m = ReadStep /\ short_read s) \/
  exists active buf, m = ReadCall active buf /\ rd_wait (the_ring s) (lenZ buf) = None.
Proof.
  intros Ht Hm Hrun Hu.
  pose proof (ring_run_keeps l _ _ _ _ _ (sys_open_ok total addr mem rate Ht Hm) Hrun) as Hs.
  assert (Hw : whole (reader s)) by (eapply ring_run_whole, Hrun; done).
  destruct m; cbn [ring_step] in Hu.
  - exfalso. eapply writer_never_undef; [exact Hs|]. left. eauto.
  - exfalso. eapply writer_never_undef; [exact Hs|]. by right.
  - right. exists active_output, buf. split; [done|]. revert Hu. unfold read_call.
    repeat case_match; done.
  - left. split; [done|]. by eapply reader_undef.
Qed.

Definition W (data : bytes) : list move := [WriteCall data; WriteStep; WriteStep; WriteStep].

(** Four bytes are asked for while two are there.  Between the test and the
    reading of [size_read] the writer ends a call: [size_read] is eight, twice the
    caller's buffer. *)
Theorem short_read_races addr :
  let calls := W [1; 2] ++ [ReadCall false (zeros 4)] ++ W [3; 4; 5; 6; 7; 8] ++ [ReadStep; ReadStep] in
  exists s, ring_run calls (sys_open (ring_new 8 addr (zeros 8) 8000)) =
              Done [Wrote [1; 2]; Wrote [3; 4; 5; 6; 7; 8]] s /\
    reader s = RCopy (zeros 4) 8 (Some (-4)) /\ ring_step ReadStep s = Undef.
Proof.
  intros calls.
  eexists. split; [vm_compute; reflexivity|]. split; reflexivity.
Qed.

(** Nothing was written and no output is active: the padding copies the byte
    before the caller's buffer. *)
Theorem empty_read_underruns addr mem sample_rate (buf : bytes) :
  lenZ mem = AF_BUFFER_SIZE -> 0 < sample_rate -> 0 < lenZ buf <= 1000000 ->
  exists s, ring_run [ReadCall false buf; ReadStep; ReadStep; ReadStep; ReadStep; ReadStep]
              (sys_open (ring_new AF_BUFFER_SIZE addr mem sample_rate)) = Done [] s /\
    reader s = RPad buf 0 (Some (lenZ buf)) /\ ring_step ReadStep s = Undef.
Proof.
  intros Hm Hr Hb.
  assert (Hw : exists k, rd_wait (ring_new AF_BUFFER_SIZE addr mem sample_rate) (lenZ buf) = Some k).
  { unfold rd_wait, INT_MAX. cbn [ring_new SampleRate Channel].
    rewrite (proj2 (Z.leb_le _ _)), (proj2 (Z.eqb_neq _ _)) by lia. eauto. }
  destruct Hw as (k & Hw).
  assert (Hc : rd_copy (ring_new AF_BUFFER_SIZE addr mem sample_rate) buf 0 = Some buf).
  { unfold rd_copy. change (rd_wraps _ 0) with false. cbn iota.
    rewrite memcpy_Some by (pose proof (lenZ_nonneg (bslice (BufReadPtr (ring_new AF_BUFFER_SIZE addr mem sample_rate)) 0 mem)); cbn [ring_new BufMem]; lia || lia).
    done. }
  assert (Hd : DataLen (ring_new AF_BUFFER_SIZE addr mem sample_rate) = 0) by done.
  assert (Hn : rd_wraps (ring_new AF_BUFFER_SIZE addr mem sample_rate) 0 = false) by done.
  set (r := ring_new AF_BUFFER_SIZE addr mem sample_rate) in *.
  exists (RingSys (rd_count (rd_move r 0) 0) Free WIdle (RPad buf 0 (Some (lenZ buf)))). split; [|by split].
  unfold ring_run, ring_step, read_call, read_step, bind, ret, r_state.
  cbn [sys_open the_ring reader mutex writer].
  rewrite Hw. rewrite Hd, (proj2 (Z.ltb_lt 0 (lenZ buf))) by lia. 
  cbn [the_ring reader mutex writer]. rewrite Hd, Z.sub_0_r, Hc, Hn. reflexivity.
Qed.

(** A read that is more than 2147 bytes short while nothing plays overflows the
    [int] of its sleep. *)
Theorem long_gap_overflows {S} (sleep : Z -> M S unit) buf r s mw :
  rd_wait r (lenZ buf) = Some mw -> 2147 < lenZ buf - DataLen r ->
  ReadPcmData sleep false buf r s = Undef.
Proof.
  intros Hw Hn. unfold ReadPcmData, bind. rewrite Hw. cbn [checked].
  replace (DataLen r <? lenZ buf) with true by lia. unfold rd_sleep, INT_MAX.
  by replace ((lenZ buf - DataLen r) * 1000000 <=? 2147483647) with false by lia.
Qed.

(** *** The properties on a buffer of eight bytes

    Both calls of the second half wrap round, and their steps alternate. *)

Definition demo_moves : list move :=
  W [1; 2; 3; 4; 5; 6] ++ ReadCall true (zeros 4) :: replicate 5 ReadStep ++
  [WriteCall [7; 8; 9; 10; 11]; WriteStep; ReadCall true (zeros 7); ReadStep; WriteStep; ReadStep;
   WriteStep; WriteStep; ReadStep; ReadStep; ReadStep; ReadStep; ReadStep; ReadStep].
Definition demo_sys : ring_sys := sys_open (ring_new 8 1 (zeros 8) 8000).

Lemma ring_delivers_witness :
  match ring_run demo_moves demo_sys with
  | Done o s => taken o = [1; 2; 3; 4; 5; 6; 7; 8; 9; 10; 11] /\
      taken o = bslice 0 (lenZ (taken o)) (written o) /\ never_stuck s
  | _ => False
  end.
Proof.
  destruct (ring_run demo_moves demo_sys) as [o s| |] eqn:E; [|vm_compute in E; done..].
  pose proof (ring_delivers 8 1 (zeros 8) 8000 demo_moves o s ltac:(lia) ltac:(done) E) as (H1 & _ & _ & _ & H2).
  vm_compute in E. injection E as <- <-. by split_and!.
Defined.
Lemma ring_stays_inside_witness :
  exists s, reader s = RCopy (zeros 4) 8 (Some (-4)) /\ ring_step ReadStep s = Undef /\ short_read s.
Proof.
  destruct (short_read_races 1) as (s & E & Er & Hu). exists s. split_and!; [done|done|].
  destruct (ring_stays_inside 8 1 (zeros 8) 8000 _ _ s ReadStep ltac:(lia) ltac:(done) E Hu)
    as [[_ H]|(a & b & H & _)]; [done|done].
Defined.
