(* ===== verification/CodecVoice.v ===== *)
(** * libcodec_audio: the voices of a call and their recording

    [ReduceVolume] of codec_utils.c, wav.c, and the recording of a call in
    codec_devices/planOne/manage.c (planTwo/manage.c has the same functions under
    other names): the two threads that carry the voices of a call mix them into one
    buffer, which a reader drains.  Nothing locks the buffer: [rec_turn] is the
    threads' steps on it, one for every access of the shared counters. *)

From S2P Require Import Prelude CLib Os AudRingTheorems.

(** ** Samples *)

(** A [short] at two bytes, and its bytes. *)
Definition sample (lo hi : Z) : Z := s16 (lo + 256 * hi).
Definition sample_bytes (v : Z) : bytes := le_put 2 v.

(** One round of [data = data / 1.25], a conversion to [double] and back: the
    quotient by 5 of four times the sample, towards zero; it is in range, so the
    two tests that follow never clamp. *)
Definition softer (data : Z) : Z :=
  let data := s16 (Z.quot (4 * data) 5) in
  if data <? -32768 then -32768 else if 32767 <? data then 32767 else data.
Fixpoint reduce_samples (repeat : nat) (buf : bytes) : bytes :=
  match buf with
  | lo :: hi :: buf => sample_bytes (Nat.iter repeat softer (sample lo hi)) ++ reduce_samples repeat buf
  | _ => buf
  end.
(** The first [size] bytes, but for the last one of an odd number. *)
Definition ReduceVolume (buf : bytes) (size repeat : Z) : option bytes :=
  let zhen_shu := size - Z.rem size 2 in
  if in_bounds 0 zhen_shu buf
  then Some (reduce_samples (Z.to_nat repeat) (bslice 0 zhen_shu buf) ++ drop (Z.to_nat zhen_shu) buf)
  else None.

(** ** wav.c *)

Record wav_header := WavHeader {
  riff_id : Z; riff_sz : Z; riff_fmt : Z; fmt_id : Z; fmt_sz : Z; audio_format : Z; num_channels : Z;
  sample_rate : Z; byte_rate : Z; block_align : Z; bits_per_sample : Z; data_id : Z; data_sz : Z;
}.
Definition SIZEOF_wav_header : Z := 44.
Definition wav_bytes (h : wav_header) : bytes :=
  le_put 4 (riff_id h) ++ le_put 4 (riff_sz h) ++ le_put 4 (riff_fmt h) ++ le_put 4 (fmt_id h) ++
  le_put 4 (fmt_sz h) ++ le_put 2 (audio_format h) ++ le_put 2 (num_channels h) ++
  le_put 4 (sample_rate h) ++ le_put 4 (byte_rate h) ++ le_put 2 (block_align h) ++
  le_put 2 (bits_per_sample h) ++ le_put 4 (data_id h) ++ le_put 4 (data_sz h).
(** The header of [wav_start], with the sizes of [wav_end]. *)
Definition wav_of (riff data : Z) : wav_header :=
  WavHeader 0x46464952 riff 0x45564157 0x20746d66 16 1 1 44100 (u32 (16 / 8 * 1 * 44100)) (u16 (1 * (16 / 8))) 16
    0x61746164 data.
(** [header] and [file]: the bytes up to the place it writes at, if it is open. *)
Record wav := Wav { wav_head : wav_header; wav_file : option bytes }.
Definition wav_start (opened : bool) : wav :=
  let h := wav_of 0 0 in
  if opened then Wav (WavHeader (riff_id h) (riff_sz h) (riff_fmt h) (fmt_id h) (fmt_sz h) (audio_format h)
    (num_channels h) (sample_rate h) (byte_rate h) (block_align h) (bits_per_sample h) (data_id h) (1 * block_align h))
    (Some (zeros SIZEOF_wav_header))
  else Wav h None.
(** [fwrite] to NULL is undefined. *)
Definition wav_save (w : wav) (buf : bytes) : option wav :=
  f ← wav_file w; Some (Wav (wav_head w) (Some (f ++ buf))).
Definition wav_end (w : wav) (data : Z) : option bytes :=
  let h := wav_head w in
  let frames := Z.quot data (bits_per_sample h / 8 * num_channels h) in
  let data_sz := u32 (frames * block_align h) in
  let h := WavHeader (riff_id h) (u32 (data_sz + SIZEOF_wav_header - 8)) (riff_fmt h) (fmt_id h) (fmt_sz h)
    (audio_format h) (num_channels h) (sample_rate h) (byte_rate h) (block_align h) (bits_per_sample h) (data_id h)
    data_sz in
  f ← wav_file w; Some (bblit 0 (wav_bytes h) f).

(** ** manage.c: the buffer of a recording *)

Record record_data := RecordData {
  record_buf : option bytes;
  record_lenth : Z;
  lenwrite : Z;
  lenwritedown : Z;
  lenwriteup : Z;
  lenread : Z;
}.
Definition set_record_buf v r := RecordData v (record_lenth r) (lenwrite r) (lenwritedown r) (lenwriteup r) (lenread r).
Definition set_lenwrite v r := RecordData (record_buf r) (record_lenth r) v (lenwritedown r) (lenwriteup r) (lenread r).
Definition set_lenwritedown v r := RecordData (record_buf r) (record_lenth r) (lenwrite r) v (lenwriteup r) (lenread r).
Definition set_lenwriteup v r := RecordData (record_buf r) (record_lenth r) (lenwrite r) (lenwritedown r) v (lenread r).
Definition set_lenread v r := RecordData (record_buf r) (record_lenth r) (lenwrite r) (lenwritedown r) (lenwriteup r) v.
Definition record_zero : record_data := RecordData None 0 0 0 0 0.

Inductive voice_direction := DOWNSTREAM | UPSTREAM.

(** The globals of manage.c that the recording uses. *)
Record voice_g := VoiceG {
  vg_record : record_data;
  g_sem_record : Z;
  g_enable_record : bool;
  g_exit_mixer_buf : bool;
  up_record_flag : bool;        (* g_upload_voice.record_flag *)
  down_record_flag : bool;      (* g_download_voice.record_flag *)
  bluetooth_up_vol : Z;
}.
Definition set_vg_record v g := VoiceG v (g_sem_record g) (g_enable_record g) (g_exit_mixer_buf g) (up_record_flag g) (down_record_flag g) (bluetooth_up_vol g).
Definition set_g_sem_record v g := VoiceG (vg_record g) v (g_enable_record g) (g_exit_mixer_buf g) (up_record_flag g) (down_record_flag g) (bluetooth_up_vol g).
Definition set_g_enable_record v g := VoiceG (vg_record g) (g_sem_record g) v (g_exit_mixer_buf g) (up_record_flag g) (down_record_flag g) (bluetooth_up_vol g).
Definition set_g_exit_mixer_buf v g := VoiceG (vg_record g) (g_sem_record g) (g_enable_record g) v (up_record_flag g) (down_record_flag g) (bluetooth_up_vol g).
Definition set_record_flags v g := VoiceG (vg_record g) (g_sem_record g) (g_enable_record g) (g_exit_mixer_buf g) v v (bluetooth_up_vol g).

Class VoiceOps (W : Type) := {
  vo_malloc : Z -> W -> option bytes * W;    (* a new block, with what it holds *)
  vo_sem_init : W -> Z * W;
}.

(** Where a thread of a voice stands in the part of its round that records. *)
Inductive rec_pc :=
| RcIdle
| RcTest (src : bytes)     (* before the comparison of the two counters *)
| RcCopy (src : bytes)
| RcMix (src : bytes)
| RcCount (size : Z)
| RcAdd (size : Z)
| RcPost.
(** Where the reader stands in [plan_one_mixer_buf]. *)
Inductive mix_pc := MixIdle | MixTest (n : Z) | MixWait (n : Z).

Definition C_INT_MAX : Z := 2147483647.

Section Voice.
Context {W : Type} `{VoiceOps W}.
Abbreviation S := (mach W voice_g).

Definition get_record {A} (f : record_data -> A) : M S A := get_glob (fun g => f (vg_record g)).
Definition put_record (f : record_data -> record_data) : M S unit :=
  set_glob (fun g => set_vg_record (f (vg_record g)) g).
Definition add_int (a b : Z) : M S Z := if a + b <=? C_INT_MAX then ret (a + b) else undef.

Definition mine (d : voice_direction) (r : record_data) : Z :=
  match d with UPSTREAM => lenwriteup r | DOWNSTREAM => lenwritedown r end.
Definition other (d : voice_direction) (r : record_data) : Z :=
  match d with UPSTREAM => lenwritedown r | DOWNSTREAM => lenwriteup r end.
Definition set_mine (d : voice_direction) (v : Z) : record_data -> record_data :=
  match d with UPSTREAM => set_lenwriteup v | DOWNSTREAM => set_lenwritedown v end.
Definition record_flag (d : voice_direction) (g : voice_g) : bool :=
  match d with UPSTREAM => up_record_flag g | DOWNSTREAM => down_record_flag g end.

(** [record_buf + (n % record_lenth)], as the buffer and the offset. *)
Definition record_at (n : Z) : M S (bytes * Z) :=
  let* r := get_record id in
  if record_lenth r =? 0 then undef else
  let* b := checked (record_buf r) in ret (b, Z.rem n (record_lenth r)).

(** Half the sum of two samples, towards zero, for the samples both blocks have. *)
Fixpoint mixed (dst src : bytes) : bytes :=
  match dst, src with
  | lo :: hi :: dst, lo' :: hi' :: src =>
      sample_bytes (Z.quot (sample lo hi + sample lo' hi') 2) ++ mixed dst src
  | _, _ => []
  end.

(** One step of a thread.  The code takes the place in the buffer before it compares
    the counters; it depends on the thread's own counter, which nobody else moves. *)
Definition rec_turn (d : voice_direction) (pc : rec_pc) : M S rec_pc :=
  match pc with
  | RcIdle => blocked
  | RcTest src =>
      let* ahead := get_record (fun r => other d r <=? mine d r) in
      ret (if ahead : bool then RcCopy src else RcMix src)
  | RcCopy src =>
      let* n := get_record (mine d) in
      let* '(b, off) := record_at n in
      let* b := checked (memcpy b off src (lenZ src)) in
      put_record (set_record_buf (Some b)) ;;; ret (RcAdd (lenZ src))
  | RcMix src =>
      let* n := get_record (mine d) in
      let* '(b, off) := record_at n in
      let size := 2 * (lenZ src / 2) in
      if negb (in_bounds off size b) then undef else
      put_record (set_record_buf (Some (bblit off (mixed (bslice off size b) src) b))) ;;; ret (RcCount (lenZ src))
  | RcCount size =>
      let* n := get_record lenwrite in
      let* n := add_int n size in
      put_record (set_lenwrite n) ;;; ret (RcAdd size)
  | RcAdd size =>
      let* n := get_record (mine d) in
      let* n := add_int n size in
      put_record (set_mine d n) ;;; ret RcPost
  | RcPost => set_glob (fun g => set_g_sem_record (g_sem_record g + 1) g) ;;; ret RcIdle
  end.

(** What a thread does with the block it read and passed on: the voice that goes
    up is made softer first. *)
Definition said_block (d : voice_direction) (g : voice_g) (raw : bytes) : option bytes :=
  match d with
  | UPSTREAM => ReduceVolume raw (lenZ raw) (bluetooth_up_vol g)
  | DOWNSTREAM => Some raw
  end.
Definition rec_enter (d : voice_direction) (raw : bytes) : M S rec_pc :=
  let* g := get_glob id in
  let* src := checked (said_block d g raw) in
  ret (if record_flag d g then RcTest src else RcIdle).
(** A whole round, the other thread waiting. *)
Fixpoint rec_run (fuel : nat) (d : voice_direction) (pc : rec_pc) : M S unit :=
  match pc, fuel with
  | RcIdle, _ => ret tt
  | _, O => blocked
  | _, Datatypes.S f => let* pc := rec_turn d pc in rec_run f d pc
  end.
Definition record_block (d : voice_direction) (raw : bytes) : M S unit :=
  let* pc := rec_enter d raw in rec_run 5 d pc.

(** ** The reader *)

Definition mixer_enter (n : Z) : M S mix_pc :=
  let* on := get_glob g_enable_record in ret (if on : bool then MixTest n else MixIdle).
Definition mixer_copy (n : Z) : M S bytes :=
  let* r := get_record lenread in
  let* '(b, off) := record_at r in
  let* len := get_record record_lenth in
  if len <? off + n then
    let len1 := len - off in
    if in_bounds off len1 b && in_bounds 0 (n - len1) b
    then ret (bslice off len1 b ++ bslice 0 (n - len1) b) else undef
  else if in_bounds off n b then ret (bslice off n b) else undef.
(** To the next wait, or the end of the call: what it copied, and [Retlen]. *)
Definition mixer_turn (pc : mix_pc) : M S (mix_pc * option (bytes * Z)) :=
  match pc with
  | MixIdle => blocked
  | MixTest n =>
      let* r := get_record id in
      if n <=? lenwrite r - lenread r then
        let* data := mixer_copy n in
        let* k := add_int (lenread r) n in
        put_record (set_lenread k) ;;;
        set_glob (set_g_exit_mixer_buf true) ;;; ret (MixIdle, Some (data, n))
      else set_glob (set_g_exit_mixer_buf false) ;;; ret (MixWait n, None)
  | MixWait n =>
      let* g := get_glob id in
      if g_sem_record g <=? 0 then blocked else
      set_glob (set_g_sem_record (g_sem_record g - 1)) ;;;
      if g_enable_record g then ret (MixTest n, None)
      else set_glob (set_g_exit_mixer_buf true) ;;; ret (MixIdle, Some ([], n))
  end.

(** ** Starting and stopping *)

Definition start_bt_record (buf_size : Z) : M S Z :=
  put_record (fun _ => record_zero) ;;;
  let* b := on_world (vo_malloc (buf_size * 10)) in
  match b with
  | None => ret (-1)
  | Some b =>
      (fun s => Done tt (Mach (world s) (heap_live s + 1) (fds_live s) (glob s))) ;;;
      put_record (set_record_buf (Some b)) ;;;
      put_record (fun r => RecordData (record_buf r) (buf_size * 10) 0 0 0 0) ;;;
      let* b := checked (memset b 0 0 4) in
      put_record (set_record_buf (Some b)) ;;;
      let* r := on_world vo_sem_init in
      if negb (r =? 0) then ret (-1) else
      set_glob (set_g_sem_record 0) ;;;
      set_glob (set_record_flags true) ;;;
      set_glob (set_g_exit_mixer_buf false) ;;;
      set_glob (set_g_enable_record true) ;;; ret 0
  end.
Definition stop_record_enter : M S unit :=
  set_glob (set_record_flags false) ;;;
  set_glob (set_g_enable_record false) ;;;
  put_record (fun _ => record_zero).
(** One round of the loop; [true] at its end, with what follows it. *)
Definition stop_record_turn : M S bool :=
  let* out := get_glob g_exit_mixer_buf in
  if out : bool then
    let* b := get_record record_buf in
    match b with
    | Some _ => (fun s => Done true (Mach (world s) (heap_live s - 1) (fds_live s) (glob s)))
    | None => ret true
    end
  else set_glob (fun g => set_g_sem_record (g_sem_record g + 1) g) ;;; ret false.
End Voice.

(** ** A call that is recorded *)

(** The threads of the two voices, each with a block at a time, and the reader;
    [said_up] and [said_down] are the voices, [heard] is what was read. *)
Record voices (W : Type) := Voices {
  vs : mach W voice_g;
  reader : mix_pc;
  said_up : bytes;
  said_down : bytes;
  heard : bytes;
}.
Arguments Voices {W} vs reader said_up said_down heard.
Arguments vs {W} v.
Arguments reader {W} v.
Arguments said_up {W} v.
Arguments said_down {W} v.
Arguments heard {W} v.

Inductive voice_act :=
| VBlock (d : voice_direction) (raw : bytes)
| VRead (n : Z)        (* the reader calls, when it has returned *)
| VTurn.               (* its next turn; it may have to wait *)

Section Call.
Context {W : Type} `{VoiceOps W}.
Abbreviation S := (mach W voice_g).

Definition voice_turn (a : voice_act) (y : voices W) : option (voices W) :=
  match a with
  | VBlock d raw =>
      src ← said_block d (glob (vs y)) raw;
      match record_block d raw (vs y) with
      | Done _ s =>
          Some (match d with
                | UPSTREAM => Voices s (reader y) (said_up y ++ src) (said_down y) (heard y)
                | DOWNSTREAM => Voices s (reader y) (said_up y) (said_down y ++ src) (heard y)
                end)
      | _ => None
      end
  | VRead n =>
      match reader y with
      | MixIdle =>
          match mixer_enter n (vs y) with
          | Done pc s => Some (Voices s pc (said_up y) (said_down y) (heard y))
          | _ => None
          end
      | _ => Some y
      end
  | VTurn =>
      match mixer_turn (reader y) (vs y) with
      | Done (pc, out) s =>
          Some (Voices s pc (said_up y) (said_down y) (heard y ++ default [] (option_map fst out)))
      | Blocked => Some y
      | Undef => None
      end
  end.
Fixpoint voice_turns (l : list voice_act) (y : voices W) : option (voices W) :=
  match l with
  | [] => Some y
  | a :: l => y ← voice_turn a y; voice_turns l y
  end.
Definition call_of (s : S) : voices W := Voices s MixIdle [] [] [].

(** A block that neither overtakes the reader by more than the buffer nor takes the
    counter of its thread out of an [int]; nothing in the code sees to it. *)
Definition keeps_up (a : voice_act) (y : voices W) : bool :=
  match a with
  | VBlock d raw =>
      let r := vg_record (glob (vs y)) in
      (mine d r + lenZ raw - lenread r <=? record_lenth r) && (mine d r + lenZ raw <=? C_INT_MAX)
  | _ => true
  end.
Fixpoint kept_up (l : list voice_act) (y : voices W) : bool :=
  match l with
  | [] => true
  | a :: l => keeps_up a y && match voice_turn a y with Some y => kept_up l y | None => true end
  end.
Definition act_ok (size : Z) (a : voice_act) : Prop :=
  match a with VBlock _ raw => lenZ raw = size | VRead n => 0 <= n | VTurn => True end.
End Call.

(** ** Lists of samples *)

Lemma pair_ind {A} (P : list A -> Prop) :
  P [] -> (forall x, P [x]) -> (forall x y l, P l -> P (x :: y :: l)) -> forall l, P l.
Proof. intros H0 H1 H2. fix IH 1. intros [|x [|y l]]; [done..|]. apply H2, IH. Qed.

Lemma mixed_comm a b : mixed a b = mixed b a.
Proof.
  revert b. induction a as [|x|x x' a IH] using pair_ind; intros [|y [|y' b]]; try done.
  cbn. by rewrite (Z.add_comm (sample x x')), IH.
Qed.
Lemma mixed_nil_r a : mixed a [] = [].
Proof. by destruct a as [|x [|x' a]]. Qed.
Lemma mixed_more a x b : (length b <= length a)%nat -> mixed (a ++ x) b = mixed a b.
Proof.
  revert b. induction a as [|y|y y' a IH] using pair_ind; intros [|z [|z' b]]; cbn; intros Hl; try lia;
    rewrite ?mixed_nil_r; try done.
  - by destruct x as [|u [|u' x]].
  - by destruct x as [|u x].
  - by rewrite IH by lia.
Qed.
Lemma mixed_app a x b y : length a = length b -> Nat.Even (length a) -> mixed (a ++ x) (b ++ y) = mixed a b ++ mixed x y.
Proof.
  revert b. induction a as [|u|u u' a IH] using pair_ind; intros [|v [|v' b]]; cbn; intros Hl He; try lia; [done| |].
  - by destruct He as [k ?]; lia.
  - rewrite IH; [done|lia|]. destruct He as [k ?]. exists (k - 1)%nat. lia.
Qed.
Lemma length_mixed a b : Nat.Even (length a) -> length a = length b -> length (mixed a b) = length a.
Proof.
  revert b. induction a as [|u|u u' a IH] using pair_ind; intros [|v [|v' b]] He; cbn; intros Hl; try lia.
  { destruct He as [k Hk]. cbn in Hk. lia. }
  rewrite IH; [done| |lia]. destruct He as [k ?]. exists (k - 1)%nat. cbn in *. lia.
Qed.
Lemma length_mixed_min a b :
  Nat.Even (length a) -> Nat.Even (length b) -> length (mixed a b) = Nat.min (length a) (length b).
Proof.
  revert b. induction a as [|u|u u' a IH] using pair_ind; intros [|v [|v' b]] Ha Hb; cbn; try lia.
  1, 2: destruct Ha as [k Hk]; cbn in Hk; lia.
  - destruct Hb as [k Hk]. cbn in Hk. lia.
  - rewrite IH; [lia|destruct Ha as [k Hk]; exists (k - 1)%nat; cbn in Hk; lia|
      destruct Hb as [k Hk]; exists (k - 1)%nat; cbn in Hk; lia].
Qed.

(** ** The buffer between the voices and the reader *)

(** From [r] on it holds the mixture, where both have spoken, and then the voice that
    is ahead. *)
Definition ring_mixed (buf : bytes) (L r : Z) (a b : bytes) : Prop :=
  holds buf L r (drop (Z.to_nat r) (mixed a b)) /\
  holds buf L (lenZ a) (drop (length a) b) /\ holds buf L (lenZ b) (drop (length b) a).
Lemma ring_mixed_sym buf L r a b : ring_mixed buf L r a b -> ring_mixed buf L r b a.
Proof. unfold ring_mixed. rewrite (mixed_comm b a). tauto. Qed.

Definition whole (size : Z) (a : bytes) : Prop := exists k, 0 <= k /\ lenZ a = size * k.
Lemma whole_even size a : Z.Even size -> whole size a -> Nat.Even (length a).
Proof.
  intros [h Hh] (k & Hk & Hl). exists (Z.to_nat (h * k)). unfold lenZ in Hl. subst size.
  assert (Z.of_nat (length a) = 2 * (h * k)) by lia. lia.
Qed.
Lemma whole_app size a x : 0 < size -> whole size a -> lenZ x = size -> whole size (a ++ x).
Proof. intros Hs (k & Hk & Hl) Hx. exists (k + 1). rewrite lenZ_app. lia. Qed.
Lemma whole_lag size a b : 0 < size -> whole size a -> whole size b -> lenZ a < lenZ b -> lenZ a + size <= lenZ b.
Proof.
  intros Hs (k & Hk & Hl) (j & Hj & Hm) Hlt.
  assert (k < j) by (apply (Z.mul_lt_mono_pos_l size); lia).
  assert (size * (k + 1) <= size * j) by (apply Z.mul_le_mono_nonneg_l; lia). lia.
Qed.
(** The place of a whole number of blocks leaves room for one. *)
Lemma whole_place size a : 0 < size -> whole size a ->
  0 <= Z.rem (lenZ a) (10 * size) /\ Z.rem (lenZ a) (10 * size) = lenZ a mod (10 * size) /\
  Z.rem (lenZ a) (10 * size) + size <= 10 * size.
Proof.
  intros Hs (k & Hk & Hl). pose proof (lenZ_nonneg a).
  rewrite Z.rem_mod_nonneg by lia. rewrite Hl, (Z.mul_comm 10), Z.mul_mod_distr_l by lia.
  pose proof (Z.mod_pos_bound k 10). nia.
Qed.

Section Ring.
Context (size : Z) (Hsize : 0 < size) (Heven : Z.Even size).
Abbreviation L := (10 * size).

(** The voice that is level or ahead puts its block down. *)
Lemma ring_lead buf r a b x :
  lenZ buf = L -> whole size a -> lenZ x = size -> lenZ b <= lenZ a ->
  0 <= r -> r <= lenZ (mixed a b) -> lenZ (mixed a b) = lenZ b -> lenZ a + size - r <= L ->
  ring_mixed buf L r a b ->
  ring_mixed (bblit (Z.rem (lenZ a) L) x buf) L r (a ++ x) b.
Proof.
  intros Hl Ha Hx Hlead Hr0 Hr Hm Hfit (H1 & H2 & H3).
  destruct (whole_place size a Hsize Ha) as (Ho & Hmod & Hroom).
  assert (Hpos : Z.rem (lenZ a) L mod L = lenZ a mod L) by (rewrite Hmod; apply Z.mod_mod; lia).
  unfold ring_mixed. rewrite mixed_more by (unfold lenZ in *; lia). split_and!.
  - eapply (holds_put_other buf L _ (lenZ a)); try done; try lia; rewrite lenZ_drop by lia; lia.
  - rewrite drop_ge by (rewrite length_app; unfold lenZ in *; lia). intros i Hi. change (0 <= i < 0) in Hi. lia.
  - rewrite drop_app_le by (unfold lenZ in *; lia).
    assert (Hd : lenZ (drop (length b) a) = lenZ a - lenZ b) by (unfold lenZ; rewrite length_drop; unfold lenZ in *; lia).
    apply holds_app.
    + eapply (holds_put_other buf L _ (lenZ a)); try done; lia.
    + rewrite Hd. replace (lenZ b + (lenZ a - lenZ b)) with (lenZ a) by lia.
      apply holds_put; lia.
Qed.

(** The voice that is behind finds the block of the other and adds its own. *)
Lemma ring_lag buf r a b x :
  lenZ buf = L -> whole size a -> whole size b -> lenZ x = size -> lenZ a < lenZ b ->
  0 <= r -> r <= lenZ a -> lenZ b - r <= L ->
  ring_mixed buf L r a b ->
  ring_mixed (bblit (Z.rem (lenZ a) L) (mixed (bslice (Z.rem (lenZ a) L) size buf) x) buf) L r (a ++ x) b.
Proof.
  intros Hl Ha Hb Hx Hlag Hr0 Hr Hfit (H1 & H2 & H3).
  destruct (whole_place size a Hsize Ha) as (Ho & Hmod & Hroom).
  assert (Hpos : Z.rem (lenZ a) L mod L = lenZ a mod L) by (rewrite Hmod; apply Z.mod_mod; lia).
  pose proof (whole_lag size a b Hsize Ha Hb Hlag) as Hnext.
  assert (Es : bslice (Z.rem (lenZ a) L) size buf = bslice (lenZ a) size b).
  { apply (holds_slice buf L (lenZ a) b); try lia. unfold lenZ at 2. by rewrite Nat2Z.id. }
  rewrite Es. set (y := bslice (lenZ a) size b).
  assert (Hy : lenZ y = size) by (apply lenZ_bslice; lia).
  assert (He : Nat.Even (length a)) by (by eapply whole_even).
  assert (Hey : Nat.Even (length y)).
  { eapply whole_even; [done|]. exists 1. lia. }
  assert (Hz : lenZ (mixed y x) = size).
  { unfold lenZ. rewrite length_mixed; [exact Hy|done|]. unfold lenZ in *. lia. }
  set (b0 := take (length a) b). set (b1 := drop (length (a ++ x)) b).
  assert (Eb : b = b0 ++ y ++ b1).
  { unfold b0, y, b1, bslice. rewrite <- (take_drop (length a) b) at 1. f_equal.
    unfold lenZ at 1. rewrite Nat2Z.id. rewrite <- (take_drop (Z.to_nat size) (drop (length a) b)) at 1. f_equal.
    rewrite drop_drop, length_app. f_equal. unfold lenZ in *. lia. }
  assert (Hb0 : length b0 = length a) by (unfold b0; rewrite length_take; unfold lenZ in *; lia).
  assert (Em0 : mixed a b = mixed a b0).
  { rewrite Eb, mixed_comm, mixed_more by lia. apply mixed_comm. }
  assert (Em : mixed (a ++ x) b = mixed a b ++ mixed y x).
  { rewrite Em0, Eb, mixed_app by done. f_equal.
    rewrite (mixed_comm x), mixed_more by (unfold lenZ in *; lia). done. }
  assert (Hm : lenZ (mixed a b) = lenZ a) by (rewrite Em0; unfold lenZ; rewrite length_mixed; done).
  unfold ring_mixed. rewrite Em. split_and!.
  - rewrite drop_app_le by (unfold lenZ in *; lia). apply holds_app.
    + eapply (holds_put_other buf L _ (lenZ a)); try done; try lia; rewrite lenZ_drop by lia; lia.
    + rewrite lenZ_drop by lia. replace (r + (lenZ (mixed a b) - r)) with (lenZ a) by lia.
      apply holds_put; lia.
  - fold b1. rewrite lenZ_app, Hx. assert (Hb1 : lenZ b1 = lenZ b - lenZ a - size).
    { unfold b1, lenZ. rewrite length_drop, length_app. unfold lenZ in *. lia. }
    eapply (holds_put_other buf L _ (lenZ a + L)); try done; try lia.
    + rewrite Hpos, <- (Z.mod_add (lenZ a) 1 L) by lia. f_equal. lia.
    + intros i Hi. replace (lenZ a + size + i) with (lenZ a + (size + i)) by lia. rewrite H2.
      * rewrite lookup_drop. unfold b1. rewrite lookup_drop, length_app. f_equal. unfold lenZ in *. lia.
      * unfold lenZ in *. rewrite length_drop. lia.
  - rewrite drop_ge by (rewrite length_app; unfold lenZ in *; lia). intros i Hi. change (0 <= i < 0) in Hi. lia.
Qed.
End Ring.

(** ** The steps of the recording *)

Lemma length_reduce n b : length (reduce_samples n b) = length b.
Proof. induction b as [| |lo hi b IH] using pair_ind; [done..|]. cbn. by rewrite IH. Qed.
Lemma reduce_total b n : exists b', ReduceVolume b (lenZ b) n = Some b' /\ lenZ b' = lenZ b.
Proof.
  pose proof (lenZ_nonneg b). pose proof (Z.rem_bound_pos (lenZ b) 2 ltac:(lia) ltac:(lia)).
  pose proof (Z.rem_le (lenZ b) 2 ltac:(lia) ltac:(lia)).
  unfold ReduceVolume. rewrite (proj2 (in_bounds_spec _ _ _)) by lia. eexists. split; [done|].
  rewrite lenZ_app. unfold lenZ at 1. rewrite length_reduce. fold (lenZ (bslice 0 (lenZ b - Z.rem (lenZ b) 2) b)).
  rewrite lenZ_bslice, lenZ_drop by lia. lia.
Qed.
Lemma said_total d g raw : exists src, said_block d g raw = Some src /\ lenZ src = lenZ raw.
Proof. destruct d; cbn; [by exists raw|apply reduce_total]. Qed.

(** [vrun] runs the accesses of the shared record. *)
Ltac vrun :=
  repeat (progress (unfold bind, get_record, get_glob, ret, record_at, checked, put_record, set_glob, id; cbn)).

Section Steps.
Context {W : Type} `{VoiceOps W}.
Context (size : Z) (Hsize : 0 < size) (Heven : Z.Even size).
Abbreviation S := (mach W voice_g).
Abbreviation L := (10 * size).
Implicit Types (s : S) (y : voices W).

Definition recorded (d : voice_direction) (src : bytes) (b : bytes) (r : record_data) : record_data :=
  let off := Z.rem (mine d r) L in
  set_mine d (mine d r + size)
    (if other d r <=? mine d r then set_record_buf (Some (bblit off src b)) r
     else set_lenwrite (lenwrite r + size)
            (set_record_buf (Some (bblit off (mixed (bslice off size b) src) b)) r)).

Lemma rec_enter_run d raw src s :
  said_block d (glob s) raw = Some src ->
  rec_enter d raw s = Done (if record_flag d (glob s) then RcTest src else RcIdle) s.
Proof. intros Hd. unfold rec_enter, bind, get_glob, checked, id. by rewrite Hd. Qed.
Lemma record_block_run d raw src b (w : W) h f g :
  let r := vg_record g in
  record_buf r = Some b -> lenZ b = L -> record_lenth r = L -> record_flag d g = true ->
  said_block d g raw = Some src -> lenZ src = size ->
  0 <= mine d r -> Z.rem (mine d r) L + size <= L -> mine d r + size <= C_INT_MAX -> lenwrite r + size <= C_INT_MAX ->
  record_block d raw (Mach w h f g) =
  Done tt (Mach w h f (set_g_sem_record (g_sem_record g + 1) (set_vg_record (recorded d src b r) g))).
Proof.
  intros r Hb Hl HL Hf Hd Hs H0 Hroom Hmax Hmax2. subst r.
  destruct g as [[rb len lw ld lu lr] sem en ex uf df vol]. cbn [vg_record] in *.
  cbn in Hb, HL. subst rb len.
  unfold record_block. mcall (apply rec_enter_run, Hd). cbn [glob]. rewrite Hf.
  assert (Hr0 : 0 <= Z.rem (mine d (RecordData (Some b) L lw ld lu lr)) L) by (apply Z.rem_nonneg; lia).
  assert (Hh : 2 * (size / 2) = size) by (destruct Heven as [k ->]; rewrite (Z.mul_comm 2 k), Z.div_mul; lia).
  assert (Hz : (L =? 0) = false) by (apply Z.eqb_neq; lia).
  unfold recorded. destruct (other d _ <=? mine d _) eqn:Et.
  - destruct d; cbn in *; vrun; rewrite Et; vrun; rewrite Hz; vrun; rewrite Hs, memcpy_Some by lia; vrun;
      rewrite bslice_all by done; unfold add_int; rewrite (proj2 (Z.leb_le _ _)) by lia; done.
  - destruct d; cbn in *; vrun; rewrite Et; vrun; rewrite Hz; vrun; rewrite Hs, Hh;
      rewrite (proj2 (in_bounds_spec _ _ _)) by lia; vrun; unfold add_int;
      rewrite (proj2 (Z.leb_le _ _)) by lia; vrun; unfold add_int; rewrite (proj2 (Z.leb_le _ _)) by lia; done.
Qed.

(** What the counters mean: [a] is the voice of [d], [b] the other one, [h] what was
    read. *)
Record rec_ok (d : voice_direction) (r : record_data) (buf a b h : bytes) : Prop := {
  ok_buf : record_buf r = Some buf;
  ok_buflen : lenZ buf = L;
  ok_len : record_lenth r = L;
  ok_mine : mine d r = lenZ a;
  ok_other : other d r = lenZ b;
  ok_a : whole size a /\ lenZ a - lenread r <= L /\ lenZ a <= C_INT_MAX;
  ok_b : whole size b /\ lenZ b - lenread r <= L /\ lenZ b <= C_INT_MAX;
  ok_write : lenwrite r = Z.min (lenZ a) (lenZ b);
  ok_read : 0 <= lenread r <= lenwrite r;
  ok_heard : h = take (Z.to_nat (lenread r)) (mixed a b);
  ok_ring : ring_mixed buf L (lenread r) a b;
}.
Definition flip (d : voice_direction) : voice_direction :=
  match d with UPSTREAM => DOWNSTREAM | DOWNSTREAM => UPSTREAM end.
Lemma rec_ok_flip d r buf a b h : rec_ok d r buf a b h -> rec_ok (flip d) r buf b a h.
Proof.
  intros [H1 H2 H3 H4 H5 H6 H7 H8 H9 H10 H11]. split; try done.
  - by destruct d.
  - by destruct d.
  - by rewrite Z.min_comm.
  - by rewrite mixed_comm.
  - by apply ring_mixed_sym.
Qed.

Lemma lenZ_mixed a b : whole size a -> whole size b -> lenZ (mixed a b) = Z.min (lenZ a) (lenZ b).
Proof. intros Ha Hb. unfold lenZ. rewrite length_mixed_min; [lia|by eapply whole_even..]. Qed.
Lemma mixed_prefix a b x r : whole size a -> whole size b -> lenZ x = size -> 0 <= r <= Z.min (lenZ a) (lenZ b) ->
  take (Z.to_nat r) (mixed (a ++ x) b) = take (Z.to_nat r) (mixed a b).
Proof.
  intros Ha Hb Hx Hr. pose proof (lenZ_mixed a b Ha Hb) as Hm.
  destruct (Z.le_gt_cases (lenZ b) (lenZ a)).
  { rewrite mixed_more; [done|unfold lenZ in *; lia]. }
  rewrite <- (take_drop (length a) b), mixed_app; [|rewrite length_take; unfold lenZ in *; lia|by eapply whole_even].
  assert (Em : mixed a b = mixed a (take (length a) b)).
  { rewrite <- (take_drop (length a) b) at 1. rewrite mixed_comm, mixed_more, mixed_comm; [done|].
    rewrite length_take. unfold lenZ in *. lia. }
  rewrite take_drop, Em, take_app_le; [done|]. rewrite <- Em. unfold lenZ in *. lia.
Qed.

Lemma rec_ok_block d r buf a b h x :
  rec_ok d r buf a b h -> lenZ x = size -> lenZ a + size - lenread r <= L -> lenZ a + size <= C_INT_MAX ->
  exists buf', rec_ok d (recorded d x buf r) buf' (a ++ x) b h.
Proof.
  intros [H1 H2 H3 H4 H5 (Ha & Ha2 & Ha3) (Hb & Hb2 & Hb3) H8 H9 H10 H11] Hx Hfit Hmax.
  pose proof (lenZ_mixed a b Ha Hb) as Hm. pose proof (whole_place size a Hsize Ha) as (Ho & Hmod & Hroom).
  pose proof (whole_app size a x Hsize Ha Hx) as Hax. pose proof (mixed_prefix a b x (lenread r) Ha Hb Hx ltac:(lia)) as Hp.
  unfold recorded. rewrite H4, H5. destruct (Z.leb_spec (lenZ b) (lenZ a)) as [Hle|Hgt].
  - exists (bblit (Z.rem (lenZ a) L) x buf).
    assert (Hr : ring_mixed (bblit (Z.rem (lenZ a) L) x buf) L (lenread r) (a ++ x) b) by (apply ring_lead; (done || lia)).
    destruct d; split; cbn; rewrite ?lenZ_app, ?Hp; try done; try lia; try (rewrite lenZ_bblit; lia);
      try (split_and!; (done || lia)).
  - pose proof (whole_lag size a b Hsize Ha Hb Hgt).
    set (z := mixed (bslice (Z.rem (lenZ a) L) size buf) x). exists (bblit (Z.rem (lenZ a) L) z buf).
    assert (Hs : lenZ (bslice (Z.rem (lenZ a) L) size buf) = size) by (apply lenZ_bslice; lia).
    assert (Hw : whole size x) by (exists 1; lia).
    assert (Hw2 : whole size (bslice (Z.rem (lenZ a) L) size buf)) by (exists 1; lia).
    assert (Hz : lenZ z = size) by (unfold z; rewrite lenZ_mixed by done; lia).
    assert (Hr : ring_mixed (bblit (Z.rem (lenZ a) L) z buf) L (lenread r) (a ++ x) b) by (apply ring_lag; (done || lia)).
    destruct d; split; cbn; rewrite ?lenZ_app, ?Hp; try done; try lia; try (rewrite lenZ_bblit; lia);
      try (split_and!; (done || lia)).
Qed.

Lemma rec_ok_copy d r buf a b h n (w : W) hl f g :
  rec_ok d r buf a b h -> vg_record g = r -> 0 <= n <= lenwrite r - lenread r ->
  mixer_copy n (Mach w hl f g) = Done (bslice (lenread r) n (mixed a b)) (Mach w hl f g).
Proof.
  intros [H1 H2 H3 H4 H5 (Ha & Ha2 & Ha3) (Hb & Hb2 & Hb3) H8 H9 H10 (Hr & _)] <- Hn.
  pose proof (lenZ_mixed a b Ha Hb) as Hm. set (r := vg_record g) in *.
  pose proof (Z.mod_pos_bound (lenread r) L ltac:(lia)) as Hb0.
  assert (Er : Z.rem (lenread r) L = lenread r mod L) by (apply Z.rem_mod_nonneg; lia).
  unfold mixer_copy, record_at, bind, get_record, get_glob, id. cbn. fold r. rewrite H3, (proj2 (Z.eqb_neq L 0)) by lia.
  rewrite H1. cbn. fold r. rewrite H3, Er. set (off := lenread r mod L) in *.
  assert (Hslice : forall p o k, lenread r <= p -> o mod L = p mod L -> 0 <= o -> 0 <= k -> o + k <= L ->
    p + k <= lenZ (mixed a b) -> bslice o k buf = bslice p k (mixed a b)).
  { intros. apply (holds_slice buf L (lenread r)); (done || lia). }
  assert (Hoff : off mod L = lenread r mod L) by (apply Z.mod_mod; lia).
  destruct (Z.ltb_spec L (off + n)) as [Hwrap|Hin].
  - rewrite !(proj2 (in_bounds_spec _ _ _)) by lia. cbn. unfold ret. f_equal.
    rewrite (Hslice (lenread r) off) by lia. rewrite (Hslice (lenread r + (L - off)) 0); [| |rewrite Z.mod_0_l by lia|lia..].
    + rewrite <- bslice_split by lia. f_equal. lia.
    + lia.
    + pose proof (Z.div_mod (lenread r) L ltac:(lia)) as Hd. fold off in Hd.
      replace (lenread r + (L - off)) with ((lenread r / L + 1) * L) by lia. rewrite Z.mod_mul by lia. done.
  - rewrite (proj2 (in_bounds_spec _ _ _)) by lia. unfold ret. f_equal. apply Hslice; lia.
Qed.
Lemma rec_ok_read d r buf a b h n :
  rec_ok d r buf a b h -> 0 <= n <= lenwrite r - lenread r ->
  rec_ok d (set_lenread (lenread r + n) r) buf a b (h ++ bslice (lenread r) n (mixed a b)).
Proof.
  intros [H1 H2 H3 H4 H5 (Ha & Ha2 & Ha3) (Hb & Hb2 & Hb3) H8 H9 -> (Hr & Hr2 & Hr3)] Hn.
  pose proof (lenZ_mixed a b Ha Hb) as Hm.
  destruct d; split; cbn in *; try done; try lia; try (split_and!; (done || lia)).
  1, 3: unfold bslice; rewrite take_take_drop; f_equal; lia.
  all: unfold ring_mixed; split_and!; [|done..];
    replace (Z.to_nat (lenread r + n)) with (Z.to_nat (lenread r) + Z.to_nat n)%nat by lia;
    rewrite <- drop_drop; apply holds_drop; (done || lia).
Qed.

(** ** Between two acts *)

Definition reader_ok (pc : mix_pc) (g : voice_g) : Prop :=
  let avail := lenwrite (vg_record g) - lenread (vg_record g) in
  match pc with
  | MixIdle => True
  | MixTest n => 0 <= n
  | MixWait n => 0 <= n /\ (n <= avail -> 0 < g_sem_record g)
  end.
Record call_ok y : Prop := {
  cl_rec : exists buf, rec_ok UPSTREAM (vg_record (glob (vs y))) buf (said_up y) (said_down y) (heard y);
  cl_flags : forall d, record_flag d (glob (vs y)) = true;
  cl_enable : g_enable_record (glob (vs y)) = true;
  cl_sem : 0 <= g_sem_record (glob (vs y));
  cl_reader : reader_ok (reader y) (glob (vs y));
}.

Definition said (d : voice_direction) y : bytes := match d with UPSTREAM => said_up y | DOWNSTREAM => said_down y end.
Definition say (d : voice_direction) (src : bytes) (s : S) y : voices W :=
  match d with
  | UPSTREAM => Voices s (reader y) (said_up y ++ src) (said_down y) (heard y)
  | DOWNSTREAM => Voices s (reader y) (said_up y) (said_down y ++ src) (heard y)
  end.
Lemma rec_ok_side d y buf :
  rec_ok UPSTREAM (vg_record (glob (vs y))) buf (said_up y) (said_down y) (heard y) <->
  rec_ok d (vg_record (glob (vs y))) buf (said d y) (said (flip d) y) (heard y).
Proof. destruct d; [|done]. split; apply rec_ok_flip. Qed.

Lemma block_ok d raw y :
  call_ok y -> lenZ raw = size -> keeps_up (VBlock d raw) y = true ->
  exists y', voice_turn (VBlock d raw) y = Some y' /\ call_ok y'.
Proof.
  intros [[buf Hr] Hf He Hs Hrd] Hl Hk. destruct (said_total d (glob (vs y)) raw) as (src & Esrc & Hsrc).
  cbn in Hk. apply andb_true_iff in Hk as [Hk1 Hk2]. bool_to_prop.
  pose proof (proj1 (rec_ok_side d y buf) Hr) as Hd. pose proof Hd as [H1 H2 H3 H4 H5 (Ha & Ha2 & Ha3) (Hb & Hb2 & Hb3) H8 H9 _ _].
  pose proof (whole_place size _ Hsize Ha) as (Ho & _ & Hroom).
  assert (Hw : lenwrite (vg_record (glob (vs y))) + size <= C_INT_MAX) by lia.
  destruct (rec_ok_block _ _ _ _ _ _ src Hd) as [buf' Hd']; [lia..|].
  destruct (vs y) as [w hl f g] eqn:Ey. cbn [glob] in *.
  pose proof (record_block_run d raw src buf w hl f g H1 H2 H3 (Hf d) Esrc) as Erun.
  rewrite H4 in Erun. specialize (Erun ltac:(lia) ltac:(lia) ltac:(lia) ltac:(lia) Hw).
  set (s' := Mach w hl f (set_g_sem_record _ _)) in Erun. exists (say d src s' y). split.
  { unfold voice_turn. rewrite Ey. cbn [glob]. rewrite Esrc. cbn [mbind option_bind]. rewrite Erun. by destruct d. }
  split.
  - exists buf'. apply (rec_ok_side d). by destruct d.
  - intros e. specialize (Hf e). by destruct d, e.
  - by destruct d.
  - destruct d; cbn; lia.
  - destruct d; unfold say, reader_ok in *; cbn; destruct (reader y); cbn in *; (done || lia).
Qed.

Lemma reader_turn_ok a y :
  call_ok y -> match a with VBlock _ _ => False | VRead n => 0 <= n | VTurn => True end ->
  exists y', voice_turn a y = Some y' /\ call_ok y'.
Proof.
  intros [[buf Hr] Hf He Hs Hrd] Ha. destruct y as [[w hl f g] pc up down hd]. cbn in *. destruct a as [|n|]; [done| |].
  - destruct pc; [|eexists; split; [done|]; by split; [exists buf|..]..].
    unfold mixer_enter, bind, get_glob, ret. cbn. rewrite He. eexists. split; [done|]. by split; [exists buf|..].
  - destruct pc as [|n|n].
    + eexists. split; [done|]. by split; [exists buf|..].
    + cbn [voice_turn mixer_turn reader vs said_up said_down heard]. unfold bind, get_record, get_glob, id.
      cbn [glob]. destruct (Z.leb_spec n (lenwrite (vg_record g) - lenread (vg_record g))) as [Hn|Hn].
      * rewrite (rec_ok_copy _ _ _ _ _ _ _ w hl f g Hr eq_refl) by (cbn in Hrd; lia).
        pose proof Hr as [_ _ _ _ _ _ (_ & _ & Hmax) H8 _ _ _].
        unfold add_int. cbn [glob]. rewrite (proj2 (Z.leb_le _ _)) by lia. eexists. split; [done|].
        split; cbn; [|done..]. exists buf. apply rec_ok_read; [done|cbn in Hrd; lia].
      * eexists. split; [done|]. cbn. rewrite app_nil_r. split; cbn; [by exists buf|done..|].
        split; [exact Hrd|]. cbn. lia.
    + cbn. unfold bind, get_glob, id. cbn. destruct (Z.leb_spec (g_sem_record g) 0).
      * eexists. split; [done|]. by split; [exists buf|..].
      * unfold set_glob, ret. cbn. rewrite He. eexists. split; [done|]. cbn. rewrite app_nil_r.
        split; cbn; [by exists buf|done..|lia|exact (proj1 Hrd)].
Qed.

Lemma voice_turns_ok l y :
  call_ok y -> Forall (act_ok size) l -> kept_up l y = true ->
  exists y', voice_turns l y = Some y' /\ call_ok y'.
Proof.
  revert y. induction l as [|a l IH]; intros y Hy Hl Hk; cbn in *; [by exists y|].
  apply Forall_cons in Hl as [Ha Hl]. apply andb_true_iff in Hk as [Hk1 Hk2].
  assert (Hturn : exists y', voice_turn a y = Some y' /\ call_ok y').
  { destruct a as [d raw|n|]; [by apply block_ok|by apply reader_turn_ok..]. }
  destruct Hturn as (y1 & E1 & Hy1). rewrite E1 in *. cbn. by apply IH.
Qed.

Lemma start_record_ok s s1 :
  (forall n (w : W) b w', 0 <= n -> vo_malloc n w = (Some b, w') -> lenZ b = n) ->
  start_bt_record size s = Done 0 s1 -> call_ok (call_of s1).
Proof.
  intros Hm. destruct s as [w hl f g]. unfold start_bt_record. vrun.
  unfold on_world. cbn. destruct (vo_malloc (size * 10) w) as [[b|] w1] eqn:Eb; [|done].
  assert (Hb : lenZ b = size * 10) by (eapply Hm; [|exact Eb]; lia). vrun. rewrite memset_Some by lia. vrun.
  destruct (vo_sem_init w1) as [r w2]. destruct (negb (r =? 0)); [done|]. intros [= <-].
  pose proof (lenZ_fill 0 4 ltac:(lia)) as Hf.
  split; cbn; [|by intros []|done|done|done].
  exists (bblit 0 (fill 0 4) b). split; cbn; try done; try (rewrite lenZ_bblit; lia); try lia;
    try (change (lenZ []) with 0; unfold C_INT_MAX; split_and!; [exists 0; change (lenZ []) with 0|..]; lia).
  unfold ring_mixed. split_and!; intros i Hi; change (0 <= i < 0) in Hi; lia.
Qed.
End Steps.

Section Theorems.
Context {W : Type} `{VoiceOps W}.
Abbreviation S := (mach W voice_g).

(** C10: A recording of a call: whatever the two voices say in blocks of one size
    and however their threads take turns with the reader, a block at a time, if
    no voice gets further ahead of the reader than the buffer is long, and none
    says 2 GiB or more, where the int counters end, then no step leaves the
    buffer, what the reader hears is, byte for byte, the beginning of the mixture
    of the two voices, each sample half the sum of theirs, and a reader that
    waits for bytes that are there will be woken. *)
Theorem call_recorded_mixed size (s s1 : S) l :
  0 < size -> Z.Even size ->
  (forall n (w : W) b w', 0 <= n -> vo_malloc n w = (Some b, w') -> lenZ b = n) ->
  start_bt_record size s = Done 0 s1 ->
  Forall (act_ok size) l -> kept_up l (call_of s1) = true ->
  exists y, voice_turns l (call_of s1) = Some y /\
    let r := vg_record (glob (vs y)) in
    heard y = take (Z.to_nat (lenread r)) (mixed (said_up y) (said_down y)) /\
    0 <= lenread r <= lenwrite r /\ lenwrite r = lenZ (mixed (said_up y) (said_down y)) /\
    (forall n, reader y = MixWait n -> n <= lenwrite r - lenread r -> 0 < g_sem_record (glob (vs y))).
Proof.
  intros Hs He Hm Hstart Hl Hk.
  destruct (voice_turns_ok size Hs He l _ (start_record_ok size Hs s s1 Hm Hstart) Hl Hk) as (y & Ey & Hy).
  exists y. split; [done|]. intros r. destruct Hy as [[buf Hr] _ _ _ Hrd].
  destruct Hr as [_ _ _ _ _ (Ha & _) (Hb & _) Hw Hread Hheard _]. split; [done|]. split; [done|]. split.
  - etrans; [exact Hw|]. symmetry. by apply (lenZ_mixed size).
  - intros n En. rewrite En in Hrd. apply Hrd.
Qed.

(** Two threads that compare the counters while they are level both take themselves
    for the one ahead: one block of the two replaces the other, and nothing is added
    to what the reader may read. *)
Theorem level_voices_lose_a_block (s s2 s3 : S) x y :
  lenwriteup (vg_record (glob s)) = lenwritedown (vg_record (glob s)) ->
  rec_turn UPSTREAM (RcTest x) s = Done (RcCopy x) s /\ rec_turn DOWNSTREAM (RcTest y) s = Done (RcCopy y) s /\
  (rec_run 4 UPSTREAM (RcCopy x) s = Done tt s2 -> rec_run 4 DOWNSTREAM (RcCopy y) s2 = Done tt s3 ->
   lenwrite (vg_record (glob s3)) = lenwrite (vg_record (glob s)) /\
   lenwriteup (vg_record (glob s3)) = lenwriteup (vg_record (glob s)) + lenZ x /\
   lenwritedown (vg_record (glob s3)) = lenwritedown (vg_record (glob s)) + lenZ y).
Proof.
  destruct s as [w h f [[rb len lw ld lu lr] sem en ex uf df vol]]. cbn. intros ->. split_and!.
  1, 2: vrun; by rewrite Z.leb_refl.
  vrun. destruct (len =? 0) eqn:El; [done|]. destruct rb as [b|]; [|done]. vrun.
  destruct (memcpy b (Z.rem ld len) x (lenZ x)) as [b2|]; [|done]. vrun. unfold add_int.
  destruct (ld + lenZ x <=? C_INT_MAX); [|done]. vrun. intros [= <-]. cbn. rewrite El.
  destruct (memcpy b2 (Z.rem ld len) y (lenZ y)) as [b3|]; [|done]. vrun. unfold add_int.
  destruct (ld + lenZ y <=? C_INT_MAX); [|done]. vrun. by intros [= <-].
Qed.

Fixpoint stop_rounds (n : nat) : M S bool :=
  match n with
  | O => ret false
  | Datatypes.S n => let* out := stop_record_turn in if out : bool then ret true else stop_rounds n
  end.
(** Nobody but a reader ends the loop of [plan_one_stop_bt_record]. *)
Theorem stop_without_reader_spins n (s : S) :
  g_exit_mixer_buf (glob s) = false -> exists s', stop_rounds n s = Done false s'.
Proof.
  revert s. induction n as [|n IH]; intros [w h f g] He; [by eexists|]. cbn [stop_rounds].
  unfold stop_record_turn at 1. vrun. cbn in He. rewrite He. vrun. by apply IH.
Qed.
(** The pointer to the buffer is cleared before it is freed. *)
Theorem stop_leaks_the_buffer (s : S) :
  g_exit_mixer_buf (glob s) = true ->
  exists s1, stop_record_enter s = Done tt s1 /\ stop_record_turn s1 = Done true s1 /\ heap_live s1 = heap_live s.
Proof.
  destruct s as [w h f g]. cbn. intros He. eexists. split; [done|]. split; [|done].
  unfold stop_record_turn. vrun. by rewrite He.
Qed.
End Theorems.

(** ** The volume *)

Fixpoint samples (b : bytes) : list Z :=
  match b with lo :: hi :: b => sample lo hi :: samples b | _ => [] end.
(** [n] times four fifths, towards zero: less than five steps below. *)
Definition quieter (n : nat) (x x' : Z) : Prop :=
  0 <= x * x' /\ 5 ^ Z.of_nat n * Z.abs x' <= 4 ^ Z.of_nat n * Z.abs x <= 5 ^ Z.of_nat n * (Z.abs x' + 4).

Lemma sample_range lo hi : -32768 <= sample lo hi < 32768.
Proof. apply s16_range. Qed.
Lemma sample_back v : -32768 <= v < 32768 -> sample_bytes v = [v mod 256; v / 256 mod 256] /\ sample (v mod 256) (v / 256 mod 256) = v.
Proof.
  intros Hv. split; [done|]. unfold sample.
  assert (E : v mod 256 + 256 * (v / 256 mod 256) = v mod 65536).
  { change 65536 with (256 * 256). rewrite Z.rem_mul_r by lia. lia. }
  rewrite E. unfold s16. rewrite Zplus_mod_idemp_l. fold (s16 v). by apply s16_small.
Qed.
Lemma softer_step v : -32768 <= v < 32768 ->
  -32768 <= softer v < 32768 /\ 0 <= v * softer v /\ 5 * Z.abs (softer v) <= 4 * Z.abs v <= 5 * (Z.abs (softer v)) + 4.
Proof.
  intros Hv. pose proof (Z.quot_rem (4 * v) 5 ltac:(lia)) as Hq. set (q := Z.quot (4 * v) 5) in *.
  assert (Hr : 0 <= v /\ 0 <= Z.rem (4 * v) 5 < 5 \/ v < 0 /\ -5 < Z.rem (4 * v) 5 <= 0).
  { destruct (Z.le_gt_cases 0 v); [left; split; [done|]; apply Z.rem_bound_pos; lia|right; split; [lia|]].
    pose proof (Z.rem_bound_pos_neg (4 * v) 5); lia. }
  assert (Es : softer v = q).
  { unfold softer. fold q. rewrite s16_small by lia. destruct (Z.ltb_spec q (-32768)); [lia|].
    destruct (Z.ltb_spec 32767 q); lia. }
  rewrite Es. split_and!; try lia; nia.
Qed.
Lemma softer_iter n v : -32768 <= v < 32768 ->
  -32768 <= Nat.iter n softer v < 32768 /\ quieter n v (Nat.iter n softer v).
Proof.
  intros Hv. induction n as [|n [IHr [IHs IHq]]]; [split; [done|unfold quieter; cbn; nia]|].
  set (x := Nat.iter n softer v) in *. change (Nat.iter (S n) softer v) with (softer x). destruct (softer_step x IHr) as (Hr & Hs & Hq).
  split; [done|]. unfold quieter. rewrite Nat2Z.inj_succ, !Z.pow_succ_r by lia.
  pose proof (Z.pow_pos_nonneg 5 (Z.of_nat n) ltac:(lia) ltac:(lia)) as H5.
  set (p := 5 ^ Z.of_nat n) in *. set (q := 4 ^ Z.of_nat n) in *. split; [|split].
  - destruct (Z.eq_dec x 0) as [E0|E0]; [|nia]. replace (softer x) with 0 by lia. lia.
  - nia.
  - nia.
Qed.

Lemma samples_reduce n b rest :
  Nat.Even (length b) -> (length rest <= 1)%nat ->
  Forall2 (quieter n) (samples (b ++ rest)) (samples (reduce_samples n b ++ rest)).
Proof.
  intros He Hr. induction b as [|x|lo hi b IH] using pair_ind.
  - destruct rest as [|x [|y rest]]; cbn in *; [constructor..|lia].
  - destruct He as [k Hk]. cbn in Hk. lia.
  - cbn [reduce_samples app samples].
    destruct (softer_iter n (sample lo hi) (sample_range lo hi)) as [Hv Hq].
    destruct (sample_back _ Hv) as [-> Hs]. cbn [app samples]. rewrite Hs. constructor; [exact Hq|].
    apply IH. destruct He as [k Hk]. cbn in Hk. exists (k - 1)%nat. lia.
Qed.

(** C20: [ReduceVolume] keeps the length of a buffer and makes each of its samples
    quieter: its sign stays, and its size is multiplied [repeat] times by four fifths,
    to within less than five steps. *)
Theorem reduce_volume_attenuates buf repeat :
  exists buf', ReduceVolume buf (lenZ buf) repeat = Some buf' /\ lenZ buf' = lenZ buf /\
    Forall2 (quieter (Z.to_nat repeat)) (samples buf) (samples buf').
Proof.
  destruct (reduce_total buf repeat) as (buf' & E & Hl). exists buf'. split_and!; [done..|].
  pose proof (lenZ_nonneg buf) as H0. unfold ReduceVolume in E. destruct (in_bounds _ _ _); [|done]. injection E as <-.
  pose proof (Z.rem_bound_pos (lenZ buf) 2 ltac:(lia) ltac:(lia)). pose proof (Z.rem_le (lenZ buf) 2 ltac:(lia) ltac:(lia)).
  pose proof (Z.quot_rem (lenZ buf) 2 ltac:(lia)) as Hq.
  set (z := lenZ buf - Z.rem (lenZ buf) 2) in *.
  rewrite <- (take_drop (Z.to_nat z) buf) at 1. unfold bslice. rewrite drop_0. apply samples_reduce.
  - rewrite length_take. exists (Z.to_nat (Z.quot (lenZ buf) 2)). unfold lenZ in *. lia.
  - rewrite length_drop. unfold lenZ in *. lia.
Qed.

(** ** The file of a recording *)

Fixpoint wav_saves (w : wav) (l : list bytes) : option wav :=
  match l with [] => Some w | b :: l => w ← wav_save w b; wav_saves w l end.
Lemma wav_saves_file h f l : wav_saves (Wav h (Some f)) l = Some (Wav h (Some (f ++ concat l))).
Proof.
  revert f. induction l as [|b l IH]; intros f; cbn; [by rewrite app_nil_r|]. unfold wav_save. cbn.
  by rewrite IH, <- app_assoc.
Qed.
(** What [record_manage_thread] writes: the header with the two sizes, and the data. *)
Theorem wav_file_written l :
  let n := lenZ (concat l) in
  Z.Even n -> n < 4294967296 - 36 ->
  (w ← wav_saves (wav_start true) l; wav_end w n) = Some (wav_bytes (wav_of (n + 36) n) ++ concat l).
Proof.
  intros n [k Hk] Hn. pose proof (lenZ_nonneg (concat l)) as H0. fold n in H0.
  unfold wav_start. cbn [wav_file]. rewrite wav_saves_file. cbn [mbind option_bind].
  unfold wav_end. cbn [wav_head wav_file bits_per_sample num_channels block_align mbind option_bind].
  change (bits_per_sample _ / 8 * num_channels _) with 2. f_equal.
  assert (Eq : u32 (Z.quot n 2 * 2) = n).
  { rewrite Hk, (Z.mul_comm 2 k), Z.quot_mul by lia. rewrite u32_small; lia. }
  change (block_align (wav_of 0 0)) with 2. rewrite Eq. unfold SIZEOF_wav_header. rewrite u32_small by lia.
  unfold bblit. replace (n + 44 - 8) with (n + 36) by lia. cbn [take app Z.to_nat]. f_equal.
Qed.

(** ** A call *)

(** Memory is always there, and zero. *)
#[export] Instance plain_memory : VoiceOps unit := {|
  vo_malloc := fun n w => (Some (zeros n), w);
  vo_sem_init := fun w => (0, w);
|}.
Definition voice_idle : mach unit voice_g :=
  Mach tt 0 0 (VoiceG record_zero 0 false false false false 1).
(** The call after [plan_one_start_bt_record] with blocks of [size] bytes. *)
Definition call_started (size : Z) : mach unit voice_g :=
  match start_bt_record size voice_idle with Done _ s => s | _ => voice_idle end.

(** Samples of one byte each: 100 and then -50 on one side, made a fifth softer, 20 and
    then 40 on the other; the reader asks for three bytes before there are any. *)
Definition small_call : list voice_act :=
  [VRead 3; VTurn; VTurn; VBlock UPSTREAM [100; 0]; VTurn; VTurn; VBlock DOWNSTREAM [20; 0]; VTurn; VTurn;
   VBlock DOWNSTREAM [40; 0]; VBlock UPSTREAM [206; 255]; VTurn; VTurn; VTurn; VTurn].
Definition heard_in (l : list voice_act) (size : Z) : option (bytes * bytes) :=
  y ← voice_turns l (call_of (call_started size)); Some (heard y, mixed (said_up y) (said_down y)).

Lemma call_recorded_mixed_witness : exists y,
  voice_turns small_call (call_of (call_started 2)) = Some y /\
  heard_in small_call 2 = Some ([50; 0; 0], [50; 0; 0; 0]) /\
  heard y = take (Z.to_nat (lenread (vg_record (glob (vs y))))) (mixed (said_up y) (said_down y)).
Proof.
  destruct (call_recorded_mixed 2 voice_idle (call_started 2) small_call) as (y & Ey & Hh & _).
  - lia.
  - exists 1. lia.
  - intros n w b w' Hn E. injection E as <- _. by apply lenZ_zeros.
  - vm_compute. reflexivity.
  - repeat constructor; cbn; lia.
  - vm_compute. reflexivity.
  - exists y. split; [exact Ey|]. split; [vm_compute; reflexivity|exact Hh].
Defined.

(** Nothing holds a voice back: when the other side is silent for eleven blocks, the
    reader hears its first sample mixed with the eleventh. *)
Theorem silent_side_overruns :
  let l := map (fun i => VBlock UPSTREAM [i; 0]) [10; 20; 30; 40; 50; 60; 70; 80; 90; 100; 110] ++
    [VBlock DOWNSTREAM [2; 0]; VRead 2; VTurn] in
  heard_in l 2 = Some ([45; 0], [5; 0]) /\ kept_up l (call_of (call_started 2)) = false.
Proof. vm_compute. split; reflexivity. Qed.
