(* ===== verification/AudDevices.v ===== *)
(** * audio HAL: the table of sound cards

    [audio_hw.c], from [find_name_map] to [get_audio_devices_active]: the cards
    under [/sys/class/sound], the Android name of each, and which of them play
    and capture.  A [char] array is kept as the C string in it; copying a string
    that does not fit its array is [Undef]. *)

From stdpp Require Import strings pretty.
From S2P Require Import Prelude CLib Os Snd Codec.

Definition AUDIO_IN : Z := 1.
Definition AUDIO_OUT : Z := 2.
Definition MAX_AUDIO_DEVICES : Z := 16.
Definition AUDIO_MAP_CNT : Z := 16.
Definition AUDIO_NAME_CODEC : string := "AUDIO_CODEC".
Definition AUDIO_NAME_HDMI : string := "AUDIO_HDMI".
Definition AUDIO_NAME_SPDIF : string := "AUDIO_SPDIF".
Definition PRO_AUDIO_OUTPUT_ACTIVE : string := "audio.output.active".
Definition PRO_AUDIO_INPUT_ACTIVE : string := "audio.input.active".

(** The devices of [system/audio.h] that are not in [Codec.v]. *)
Definition AUDIO_DEVICE_OUT_AUX_DIGITAL : Z := 0x400.
Definition AUDIO_DEVICE_OUT_DGTL_DOCK_HEADSET : Z := 0x1000.
Definition AUDIO_DEVICE_BIT_IN : Z := 0x80000000.
Definition AUDIO_DEVICE_IN_BUILTIN_MIC : Z := Z.lor AUDIO_DEVICE_BIT_IN 4.

(** ** Data *)

Record sunxi_audio_device_manager := DevManager {
  dm_name : bytes;
  dm_card_id : bytes;
  dm_card : Z;
  dm_device : Z;
  flag_in : Z;
  flag_in_active : Z;
  flag_out : Z;
  flag_out_active : Z;
  flag_exist : bool;
}.
Definition dev_zero : sunxi_audio_device_manager := DevManager [] [] 0 0 0 0 0 0 false.
Definition with_in_active v d :=
  DevManager (dm_name d) (dm_card_id d) (dm_card d) (dm_device d) (flag_in d) v
    (flag_out d) (flag_out_active d) (flag_exist d).
Definition with_out_active v d :=
  DevManager (dm_name d) (dm_card_id d) (dm_card d) (dm_device d) (flag_in d) (flag_in_active d)
    (flag_out d) v (flag_exist d).
(** A card that was plugged in, before its nodes are looked for. *)
Definition plugged id name card d :=
  DevManager name id card 0 (flag_in d) (flag_in_active d) (flag_out d) (flag_out_active d) true.
Definition can_play d :=
  DevManager (dm_name d) (dm_card_id d) (dm_card d) (dm_device d) (flag_in d) (flag_in_active d)
    AUDIO_OUT 0 (flag_exist d).
Definition can_capture d :=
  DevManager (dm_name d) (dm_card_id d) (dm_card d) (dm_device d) AUDIO_IN 0
    (flag_out d) (flag_out_active d) (flag_exist d).
Definition unplugged d :=
  DevManager (dm_name d) (dm_card_id d) (dm_card d) (dm_device d) 0 (flag_in_active d)
    0 (flag_out_active d) false.

(** The part of [struct sunxi_audio_device] these functions work on, and the
    static [audio_name_map] (an unused entry has an empty [name_linux]). *)
Record dev_g := DevG {
  dev_manager : list sunxi_audio_device_manager;
  in_devices : bytes;
  out_devices : bytes;
  dv_out_device : Z;
  dv_in_device : Z;
  audio_name_map : list (bytes * bytes);
}.
Definition on_devs f g :=
  DevG (f (dev_manager g)) (in_devices g) (out_devices g) (dv_out_device g) (dv_in_device g) (audio_name_map g).
Definition on_dev (card : Z) f := on_devs (alter f (Z.to_nat card)).
Definition set_dev_lists i o g :=
  DevG (dev_manager g) i o (dv_out_device g) (dv_in_device g) (audio_name_map g).
Definition add_in_device v g :=
  DevG (dev_manager g) (in_devices g) (out_devices g) (dv_out_device g) (Z.lor (dv_in_device g) v) (audio_name_map g).
Definition add_out_device v g :=
  DevG (dev_manager g) (in_devices g) (out_devices g) (Z.lor (dv_out_device g) v) (dv_in_device g) (audio_name_map g).
Definition set_name_map v g :=
  DevG (dev_manager g) (in_devices g) (out_devices g) (dv_out_device g) (dv_in_device g) v.

Definition name_map_initial : list (bytes * bytes) :=
  map (fun x => (str (fst x), str (snd x)))
    [("snddaudio", AUDIO_NAME_CODEC); ("sndac100", AUDIO_NAME_CODEC); ("sndac200", AUDIO_NAME_CODEC);
     ("audiocodec", AUDIO_NAME_CODEC); ("sndhdmi", AUDIO_NAME_HDMI); ("sndhdmiraw", AUDIO_NAME_HDMI);
     ("sndspdif", AUDIO_NAME_SPDIF)]%string ++ replicate 9 ([], []).

(** A string that fits an array of [n] with its NUL. *)
Definition fits (n : Z) (s : bytes) : option bytes := if lenZ s <? n then Some s else None.

Fixpoint bytes_eq (a b : bytes) : bool :=
  match a, b with
  | [], [] => true
  | x :: a, y :: b => (x =? y) && bytes_eq a b
  | _, _ => false
  end.

(** The tokens of [strtok (s, " ,")], [strtok (NULL, " ,")], ... *)
Definition is_sep (c : Z) : bool := (c =? 32) || (c =? 44).
Fixpoint split_devices (cur : bytes) (s : bytes) : list bytes :=
  let flush l := match cur with [] => l | _ => cur :: l end in
  match s with
  | [] => flush []
  | c :: s => if is_sep c then flush (split_devices [] s) else split_devices (cur ++ [c]) s
  end.

(** [property_set]. *)
Class PropSetOps (W : Type) := { prop_set : string -> bytes -> W -> Z * W }.

(** ** Operations *)

Section Devices.
Context {W : Type} `{OsOps W, PropOps W, PropSetOps W}.
Abbreviation S := (mach W dev_g).

(** [find_name_map (adev, in, out)]: [out], an array of 32, comes back. *)
Fixpoint find_name (l : list (bytes * bytes)) (pre : list (bytes * bytes)) (name out : bytes)
  : option (bytes * list (bytes * bytes)) :=
  match l with
  | [] => Some (out, pre)
  | (linux, android) :: l =>
      if lenZ linux =? 0 then
        match fits 32 (str "AUDIO_USB_" ++ name), fits 32 name with
        | Some a, Some n => Some (a, pre ++ (n, a) :: l)
        | _, _ => None
        end
      else if bytes_eq name linux then Some (android, pre ++ (linux, android) :: l)
      else find_name l (pre ++ [(linux, android)]) name out
  end.
Definition find_name_map (name out : bytes) : M S bytes :=
  let* l := get_glob audio_name_map in
  let* '(out, l) := checked (find_name l [] name out) in
  set_glob (set_name_map l) ;;; ret out.

Definition snd_card (card : Z) : string := "/sys/class/sound/card" +:+ pretty card.
Definition snd_pcm_node (card : Z) (dir : string) : string :=
  snd_card card +:+ "/pcmC" +:+ pretty card +:+ "D0" +:+ dir.

Definition do_init_audio_card (card : Z) : M S Z :=
  let* r := c_access (snd_card card) in
  if negb (r =? 0) then ret (-1) else
  let* fd := c_open (snd_card card +:+ "/id") in
  if fd <=? 0 then ret (-1) else
  let* '(r, snd_id) := c_read fd (zeros 32) 0 32 in
  let* snd_id := (if 0 <? r then checked (memcpy snd_id (r - 1) [0] 1) else ret snd_id) in
  c_close fd ;;;
  let* id := checked (cstr snd_id) in
  let* name := find_name_map id [] in
  set_glob (on_dev card (plugged id name card)) ;;;
  let* r := c_access (snd_pcm_node card "p") in
  (if r =? 0 then set_glob (on_dev card can_play) else ret tt) ;;;
  let* r := c_access (snd_pcm_node card "c") in
  (if r =? 0 then set_glob (on_dev card can_capture) else ret tt) ;;;
  ret 0.

(** [for (card = 0; card < MAX_AUDIO_DEVICES; card++)]. *)
Definition cards : list Z := seqZ 0 MAX_AUDIO_DEVICES.
Fixpoint for_cards (l : list Z) (f : Z -> M S unit) : M S unit :=
  match l with [] => ret tt | c :: l => f c ;;; for_cards l f end.

Definition init_audio_devices : M S unit :=
  set_glob (on_devs (fun _ => replicate 16 dev_zero)) ;;;
  for_cards cards (fun card => do_init_audio_card card ;;; ret tt).

(** The first card that [f] is true of. *)
Fixpoint find_card (f : sunxi_audio_device_manager -> bool) (l : list sunxi_audio_device_manager)
  : option nat :=
  match l with
  | [] => None
  | d :: l => if f d then Some O else option_map Datatypes.S (find_card f l)
  end.

Definition in_named (in_out : Z) (name : bytes) d : bool :=
  (flag_in d =? in_out) && bytes_eq (dm_name d) name.
Definition out_named (in_out : Z) (name : bytes) d : bool :=
  (flag_out d =? in_out) && bytes_eq (dm_name d) name.

(** The last loop of [set_audio_devices_active] for AUDIO_IN: the first name
    decides. *)
Definition activate_in (in_out : Z) (names : list bytes) (l : list sunxi_audio_device_manager)
  : list sunxi_audio_device_manager :=
  match names with
  | [] => l
  | n :: _ => alter (with_in_active 1) (default O (find_card (in_named in_out n) l)) l
  end.
(** The same for AUDIO_OUT, with its result. *)
Fixpoint activate_out (in_out : Z) (names : list bytes) (l : list sunxi_audio_device_manager)
  : Z * list sunxi_audio_device_manager :=
  match names with
  | [] => (0, l)
  | n :: names =>
      match find_card (out_named in_out n) l with
      | Some k => activate_out in_out names (alter (with_out_active 1) k l)
      | None => (-1, alter (with_out_active 1) 1%nat (alter (with_out_active 1) 0%nat l))
      end
  end.

(** [name[8][32]] holds the names. *)
Definition names_fit (l : list bytes) : bool := (lenZ l <=? 8) && forallb (fun n => lenZ n <? 32) l.

Definition set_audio_devices_active (in_out : Z) (devices : bytes) : M S Z :=
  let* str := checked (fits 128 devices) in
  (if dev_on in_out AUDIO_IN
   then on_world (prop_set PRO_AUDIO_INPUT_ACTIVE devices) ;;; ret tt else ret tt) ;;;
  (if dev_on in_out AUDIO_OUT
   then on_world (prop_set PRO_AUDIO_OUTPUT_ACTIVE devices) ;;; ret tt else ret tt) ;;;
  let names := split_devices [] str in
  if names_fit names then
    if dev_on in_out AUDIO_IN then
      set_glob (on_devs (fun l => activate_in in_out names (map (with_in_active 0) l))) ;;; ret 0
    else
      let* l := get_glob dev_manager in
      let '(r, l) := activate_out in_out names (map (with_out_active 0) l) in
      set_glob (on_devs (fun _ => l)) ;;; ret r
  else undef.

(** One source of [init_audio_devices_active]: the property [key]. *)
Definition active_from_property (key : string) (in_out : Z) : M S (option bytes) :=
  let* '(r, value) := ask (prop_get key "") in
  if r <=? 0 then ret None else
  let* r := set_audio_devices_active in_out value in
  ret (if r =? 0 then Some value else None).

(** [active_name_in] and [active_name_out] once their flag is set. *)
Definition active_names : Type := option bytes * option bytes.
Definition both_active (a : active_names) : bool :=
  match a with (Some _, Some _) => true | _ => false end.

(** A card takes the capture, and the playback, that no name has yet. *)
Definition default_card (card : Z) (a : active_names) : M S active_names :=
  let* d := get_glob (fun g => default dev_zero (dev_manager g !! Z.to_nat card)) in
  let* i := (match fst a with
             | None => if flag_in d =? AUDIO_IN
                       then set_glob (on_dev card (with_in_active 1)) ;;; ret (Some (dm_name d))
                       else ret None
             | Some n => ret (Some n)
             end) in
  let* o := (match snd a with
             | None => if flag_out d =? AUDIO_OUT
                       then set_glob (on_dev card (with_out_active 1)) ;;; ret (Some (dm_name d))
                       else ret None
             | Some n => ret (Some n)
             end) in
  ret (i, o).

(** Middle priority: the codec. *)
Fixpoint use_codec (l : list Z) (a : active_names) : M S active_names :=
  match l with
  | [] => ret a
  | card :: l =>
      let* d := get_glob (fun g => default dev_zero (dev_manager g !! Z.to_nat card)) in
      if flag_exist d && bytes_eq (dm_name d) (str AUDIO_NAME_CODEC) then default_card card a
      else use_codec l a
  end.
(** Low priority: any card, up to the first number that is not there. *)
Fixpoint use_any (l : list Z) (a : active_names) : M S active_names :=
  match l with
  | [] => ret a
  | card :: l =>
      let* d := get_glob (fun g => default dev_zero (dev_manager g !! Z.to_nat card)) in
      if flag_exist d then let* a := default_card card a in use_any l a else ret a
  end.

(** The label [INIT_END]. *)
Definition init_end (a : active_names) : M S unit :=
  (match fst a with
   | Some _ => set_glob (add_in_device AUDIO_DEVICE_IN_BUILTIN_MIC)
   | None => ret tt
   end) ;;;
  match snd a with
  | Some n =>
      let add name bit := if has_sub (str name) n then set_glob (add_out_device bit) else ret tt in
      add AUDIO_NAME_CODEC AUDIO_DEVICE_OUT_SPEAKER ;;;
      add AUDIO_NAME_SPDIF AUDIO_DEVICE_OUT_DGTL_DOCK_HEADSET ;;;
      add AUDIO_NAME_HDMI AUDIO_DEVICE_OUT_AUX_DIGITAL
  | None => ret tt
  end.

Definition init_audio_devices_active : M S unit :=
  let* i := active_from_property PRO_AUDIO_INPUT_ACTIVE AUDIO_IN in
  let* o := active_from_property PRO_AUDIO_OUTPUT_ACTIVE AUDIO_OUT in
  if both_active (i, o) then init_end (i, o) else
  let* a := use_codec cards (i, o) in
  if both_active a then init_end a else
  let* a := use_any cards a in
  init_end a.

(** *** Hot plugging, and the lists the framework asks for *)

Definition updata_card (card : Z) : M S unit :=
  let* r := c_access (snd_card card) in
  let* there := get_glob (fun g => flag_exist (default dev_zero (dev_manager g !! Z.to_nat card))) in
  if r =? 0 then
    if there : bool then ret tt else do_init_audio_card card ;;; ret tt
  else
    if there : bool then set_glob (on_dev card unplugged) else ret tt.
Definition updata_audio_devices : M S Z := for_cards cards updata_card ;;; ret 0.

(** [strcat (buf, name); strcat (buf, ",")] into an array of 128. *)
Definition cat_name (buf name : bytes) : option bytes := fits 128 (buf ++ name ++ [44]).
Fixpoint cat_names (f : sunxi_audio_device_manager -> bool) (l : list sunxi_audio_device_manager)
    (buf : bytes) : option bytes :=
  match l with
  | [] => Some buf
  | d :: l => if f d then match cat_name buf (dm_name d) with
                          | Some buf => cat_names f l buf
                          | None => None
                          end
              else cat_names f l buf
  end.
(** [buf[strlen (buf) - 1] = 0]. *)
Definition cut_last (buf : bytes) : option bytes :=
  match buf with [] => None | _ => Some (removelast buf) end.

Definition get_audio_devices (in_out : Z) : M S (option bytes) :=
  updata_audio_devices ;;;
  let* l := get_glob dev_manager in
  let* i := checked (cat_names (fun d => flag_exist d && (flag_in d =? AUDIO_IN)) l []) in
  let* o := checked (cat_names (fun d => flag_exist d && (flag_out d =? AUDIO_OUT)) l []) in
  let* i := checked (cut_last i) in
  let* o := checked (cut_last o) in
  set_glob (set_dev_lists i o) ;;;
  ret (if dev_on in_out AUDIO_IN then Some i else if dev_on in_out AUDIO_OUT then Some o else None).

(** [devices] is the caller's array, and comes back. *)
Definition get_audio_devices_active (in_out : Z) (devices : bytes) : M S (Z * bytes) :=
  let* l := get_glob dev_manager in
  let f d := if dev_on in_out AUDIO_IN then (flag_in d =? in_out) && (flag_in_active d =? 1)
             else (flag_out d =? in_out) && (flag_out_active d =? 1) in
  let* devices := checked (cat_names f l devices) in
  let* devices := checked (cut_last devices) in
  ret (0, devices).
End Devices.
