(* ===== verification/AudDevTheorems.v ===== *)
(** * audio HAL: the table of sound cards stays well formed

    The type of the table ([dev_ok]) and that every call keeps it, whatever the
    file system, the properties and the order of the calls; at most one card
    captures; which card is chosen when the HAL is opened. *)

From S2P Require Import Prelude CLib Os Snd Codec AudDevices.

(** ** The type of the table *)

Record dev_typed (d : sunxi_audio_device_manager) : Prop := {
  dt_name : lenZ (dm_name d) < 32;
  dt_id : lenZ (dm_card_id d) < 32;
  dt_in : flag_in d = 0 \/ flag_in d = AUDIO_IN;
  dt_out : flag_out d = 0 \/ flag_out d = AUDIO_OUT;
  dt_in_active : flag_in_active d = 0 \/ flag_in_active d = 1;
  dt_out_active : flag_out_active d = 0 \/ flag_out_active d = 1;
  dt_gone : flag_exist d = false -> flag_in d = 0 /\ flag_out d = 0;
}.
Definition capture_once (l : list sunxi_audio_device_manager) : Prop :=
  forall j k dj dk, l !! j = Some dj -> l !! k = Some dk ->
    flag_in_active dj = 1 -> flag_in_active dk = 1 -> j = k.
Definition name_typed (x : bytes * bytes) : Prop := lenZ (fst x) < 32 /\ lenZ (snd x) < 32.

Record dev_ok (g : dev_g) : Prop := {
  do_length : length (dev_manager g) = 16%nat;
  do_typed : Forall dev_typed (dev_manager g);
  do_once : capture_once (dev_manager g);
  do_names : Forall name_typed (audio_name_map g);
  do_map : length (audio_name_map g) = 16%nat;
  do_lists : lenZ (in_devices g) < 128 /\ lenZ (out_devices g) < 128;
}.

(** No card captures yet. *)
Definition idle_in (g : dev_g) : Prop := Forall (fun d => flag_in_active d <> 1) (dev_manager g).

(** ** Changes of one card *)

(** On this card [f] keeps the type, and marks no capture that was not marked. *)
Definition dev_keeps (f : sunxi_audio_device_manager -> sunxi_audio_device_manager)
    (card : Z) (g : dev_g) : Prop :=
  forall d, dev_manager g !! Z.to_nat card = Some d -> dev_typed d ->
    dev_typed (f d) /\ (flag_in_active (f d) = 1 -> flag_in_active d = 1).
(** The card is there. *)
Definition exists_at (card : Z) (g : dev_g) : Prop :=
  forall d, dev_manager g !! Z.to_nat card = Some d -> flag_exist d = true.

Lemma on_dev_lookup card f g i d :
  dev_manager (on_dev card f g) !! i = Some d ->
  (i = Z.to_nat card /\ exists d', dev_manager g !! i = Some d' /\ d = f d') \/
  (i <> Z.to_nat card /\ dev_manager g !! i = Some d).
Proof.
  cbn [on_dev on_devs dev_manager]. destruct (decide (i = Z.to_nat card)) as [->|Hn]; intros Hi.
  - left. split; [done|]. rewrite list_lookup_alter_eq in Hi.
    destruct (dev_manager g !! _) as [d'|]; [|done]. injection Hi as <-. eauto.
  - right. by rewrite list_lookup_alter_ne in Hi.
Qed.

Lemma on_dev_active card f g i d :
  dev_ok g -> dev_keeps f card g -> dev_manager (on_dev card f g) !! i = Some d ->
  flag_in_active d = 1 -> exists d', dev_manager g !! i = Some d' /\ flag_in_active d' = 1.
Proof.
  intros Hg Hf [(-> & d' & E & ->)|[_ E]]%on_dev_lookup Ha; [|eauto].
  exists d'. split; [done|]. apply Hf; [done| |done]. eapply Forall_lookup_1; [apply Hg|done].
Qed.

Lemma on_dev_ok card f g : dev_ok g -> dev_keeps f card g -> dev_ok (on_dev card f g).
Proof.
  intros Hg Hf. pose proof Hg as [H1 H2 H3 H4 H5 H6].
  constructor; try done; [by cbn; rewrite length_alter| |].
  - apply Forall_lookup. intros i d [(-> & d' & E & ->)|[_ E]]%on_dev_lookup.
    + apply Hf; [done|]. eapply Forall_lookup_1; eauto.
    + eapply Forall_lookup_1; eauto.
  - intros j k dj dk Hj Hk Aj Ak.
    destruct (on_dev_active _ _ _ _ _ Hg Hf Hj Aj) as (dj' & Ej & Bj).
    destruct (on_dev_active _ _ _ _ _ Hg Hf Hk Ak) as (dk' & Ek & Bk). eauto.
Qed.
Lemma on_dev_idle card f g :
  dev_ok g -> dev_keeps f card g -> idle_in g -> idle_in (on_dev card f g).
Proof.
  intros Hg Hf Hi. apply Forall_lookup. intros i d Hl Ha.
  destruct (on_dev_active _ _ _ _ _ Hg Hf Hl Ha) as (d' & E & A).
  by eapply (Forall_lookup_1 _ _ _ _ Hi E).
Qed.

Lemma out_active_keeps v card g : v = 0 \/ v = 1 -> dev_keeps (with_out_active v) card g.
Proof. intros Hv d _ []. split; [by constructor|done]. Qed.
Lemma can_play_keeps card g : exists_at card g -> dev_keeps can_play card g.
Proof. intros He d Hd []. split; [|done]. constructor; cbn; auto. intros E. by rewrite (He d Hd) in E. Qed.
Lemma can_capture_keeps card g : exists_at card g -> dev_keeps can_capture card g.
Proof. intros He d Hd []. split; [|done]. constructor; cbn; auto. intros E. by rewrite (He d Hd) in E. Qed.
Lemma unplugged_keeps card g : dev_keeps unplugged card g.
Proof. intros d _ []. split; [|done]. by constructor; cbn; auto. Qed.
Lemma plugged_keeps id name n card g :
  lenZ id < 32 -> lenZ name < 32 -> dev_keeps (plugged id name n) card g.
Proof. intros Hi Hn d _ []. split; [|done]. by constructor. Qed.

(** ** One card is read *)

Lemma lenZ_cstr b : forall s, cstr b = Some s -> lenZ s < lenZ b.
Proof.
  induction b as [|c b IH]; intros s; [done|]. cbn [cstr].
  destruct (c =? 0); [intros [= <-]; rewrite lenZ_cons, lenZ_nil; pose proof (lenZ_nonneg b); lia|].
  destruct (cstr b) as [t|]; [|done]. intros [= <-]. specialize (IH t eq_refl). rewrite !lenZ_cons. lia.
Qed.

Lemma find_name_typed l : forall pre name out r m,
  Forall name_typed l -> Forall name_typed pre -> lenZ out < 32 ->
  find_name l pre name out = Some (r, m) ->
  lenZ r < 32 /\ Forall name_typed m /\ length m = (length pre + length l)%nat.
Proof.
  induction l as [|[linux android] l IH]; intros pre name out r m Hl Hp Ho; cbn [find_name].
  { intros [= <- <-]. split_and!; [done..|cbn; lia]. }
  apply Forall_cons in Hl as [[H1 H2] Hl]. cbn [fst snd] in *.
  destruct (lenZ linux =? 0).
  - unfold fits. destruct (_ <? 32) eqn:E1, (lenZ name <? 32) eqn:E2; try done. bool_to_prop.
    intros [= <- <-]. split_and!; [done| |rewrite length_app; cbn; lia].
    apply Forall_app. split; [done|]. by constructor.
  - destruct (bytes_eq name linux).
    + intros [= <- <-]. split_and!; [done| |rewrite length_app; cbn; lia].
      apply Forall_app. split; [done|]. by constructor.
    + intros E. apply IH in E as (? & ? & Hlen); try done.
      * split_and!; [done..|]. rewrite Hlen, length_app. cbn. lia.
      * apply Forall_app. split; [done|]. by repeat constructor.
Qed.

Section Calls.
Context {W : Type} `{OsOps W, PropOps W, PropSetOps W}.
Abbreviation S := (mach W dev_g).

(** What holds of the table at every point of a card's set-up: the type, and
    whatever else the changes of one card keep. *)
Definition kept (P : dev_g -> Prop) : Prop :=
  (forall g, P g -> dev_ok g) /\
  (forall card f g, P g -> dev_keeps f card g -> P (on_dev card f g)) /\
  (forall m g, P g -> Forall name_typed m -> length m = 16%nat -> P (set_name_map m g)).

Lemma find_name_map_pc (P : dev_g -> Prop) name :
  kept P -> pc P (find_name_map (W := W) name []) (fun out g => P g /\ lenZ out < 32).
Proof.
  intros (Hok & _ & Hm). unfold find_name_map. apply pc_get_bind. intros l.
  apply pc_checked_bind. intros [out l'] E.
  eapply pc_bind; [|intros a; apply pc_ret; intros g Hg; exact Hg].
  apply pc_set_glob. intros g [Hg El].
  pose proof (Hok g Hg) as Hg'. subst l.
  apply find_name_typed in E as (H1' & H2' & H3'); [|apply Hg'|done|done].
  split; [|done]. apply Hm; [done..|]. rewrite H3'. apply Hg'.
Qed.

Lemma memcpy_read (b : bytes) r b' : lenZ b = 32 -> memcpy b (r - 1) [0] 1 = Some b' -> lenZ b' = 32.
Proof. intros Hb E. by rewrite (memcpy_lenZ _ _ _ _ _ E). Qed.

Lemma c_read_lenZ G fd buf off n (s : mach W G) r b s' :
  c_read fd buf off n s = Done (r, b) s' -> lenZ b = lenZ buf.
Proof.
  unfold c_read. destruct (in_bounds off n buf) eqn:E; [|done]. apply in_bounds_spec in E.
  destruct (os_read _ _ _) as [[r' d] w]. intros [= _ <- _]. destruct (0 <? r'); [|done].
  apply lenZ_bblit; [lia|]. assert (lenZ (bslice 0 n d) <= n); [|lia].
  unfold lenZ, bslice. rewrite length_take. lia.
Qed.

Lemma plug_pc (P : dev_g -> Prop) card id name :
  kept P -> lenZ id < 32 -> lenZ name < 32 ->
  pc (W := W) P (set_glob (on_dev card (plugged id name card))) (fun _ g => P g /\ exists_at card g).
Proof.
  intros (Hok & Hd & Hm) Hi Hn. apply pc_set_glob. intros g Hg. split.
  - by apply Hd; [|apply plugged_keeps].
  - intros d [(_ & d' & _ & ->)|[Hne _]]%on_dev_lookup; done.
Qed.
(** A pcm node is looked for, and the card can do what it is for. *)
Lemma node_pc (P : dev_g -> Prop) card path f :
  kept P -> (forall g, exists_at card g -> dev_keeps f card g) -> (forall d, flag_exist (f d) = flag_exist d) ->
  pc (W := W) (fun g => P g /\ exists_at card g)
    (let* r := c_access path in if r =? 0 then set_glob (on_dev card f) else ret tt)
    (fun _ g => P g /\ exists_at card g).
Proof.
  intros (Hok & Hd & Hm) Hf He. apply pc_quiet_bind; [auto with quiet|]. intros r.
  destruct (r =? 0); [|by apply pc_ret]. apply pc_set_glob. intros g [Hg Hx]. split.
  - apply Hd; [done|by apply Hf].
  - intros d [(_ & d' & E & ->)|[Hne _]]%on_dev_lookup; [|done]. rewrite He. by apply Hx.
Qed.

Lemma do_init_audio_card_pc (P : dev_g -> Prop) card :
  kept P -> pc (W := W) P (do_init_audio_card card) (fun _ => P).
Proof.
  intros HP. unfold do_init_audio_card.
  apply pc_quiet_bind; [auto with quiet|]. intros r. case_test; [by apply pc_ret|].
  apply pc_quiet_bind; [auto with quiet|]. intros fd. case_test; [by apply pc_ret|].
  eapply (pc_bind _ _ _ (fun x g => P g /\ lenZ (snd x) = 32)).
  { intros s [r' b] s' Hs E. split; [by rewrite (quiet_read _ _ _ _ _ _ _ E)|]. by apply c_read_lenZ in E. }
  intros [n b]. cbn [snd].
  eapply (pc_bind _ _ _ (fun b g => P g /\ lenZ b = 32)).
  { destruct (0 <? n); [|by apply pc_ret].
    intros s b' s' [Hs Hb] E. destruct (memcpy b (n - 1) [0] 1) as [b1|] eqn:Em; [|done].
    injection E as <- <-. split; [done|]. by eapply memcpy_read. }
  intros b'. apply pc_quiet_bind; [auto with quiet|]. intros [].
  apply pc_checked_bind. intros id Hid.
  eapply (pc_bind _ _ _ (fun name g => (P g /\ lenZ name < 32) /\ lenZ id < 32)).
  { intros s name s' [Hs Hb] E. split; [by eapply (find_name_map_pc P id HP)|].
    apply lenZ_cstr in Hid. lia. }
  intros name. apply pc_pure. intros Hi. apply pc_pure. intros Hn.
  eapply pc_bind; [by apply plug_pc|]. intros [].
  apply pc_assoc. eapply pc_bind; [apply node_pc; [done|apply can_play_keeps|done]|]. intros [].
  apply pc_assoc. eapply pc_bind; [apply node_pc; [done|apply can_capture_keeps|done]|]. intros [].
  apply pc_ret. by intros g (Hg & _).
Qed.

Lemma for_cards_pc (P : dev_g -> Prop) l (f : Z -> M S unit) :
  (forall c, pc P (f c) (fun _ => P)) -> pc P (for_cards l f) (fun _ => P).
Proof.
  intros Hf. induction l as [|c l IH]; cbn [for_cards]; [by apply pc_ret|].
  eapply pc_bind; [apply Hf|]. by intros ?.
Qed.

Lemma updata_pc (P : dev_g -> Prop) : kept P -> pc (W := W) P updata_audio_devices (fun _ => P).
Proof.
  intros HP. unfold updata_audio_devices. eapply (pc_bind _ _ _ (fun _ => P)); [|intros a; by apply pc_ret].
  apply for_cards_pc. intros c. unfold updata_card.
  apply pc_quiet_bind; [auto with quiet|]. intros r. apply pc_get_bind. intros there.
  destruct (r =? 0), there; try (by apply pc_ret; intros g (Hg & _)).
  - eapply (pc_bind _ _ _ (fun _ => P)); [|intros a; by apply pc_ret].
    eapply pc_mono; [by apply (do_init_audio_card_pc P)|by intros g (Hg & _)|done].
  - apply pc_set_glob. intros g [Hg _]. apply HP; [done|apply unplugged_keeps].
Qed.
End Calls.

(** ** Which cards are active *)

Lemma active_same (l l' : list sunxi_audio_device_manager) i d :
  flag_in_active <$> l' = flag_in_active <$> l -> l' !! i = Some d -> flag_in_active d = 1 ->
  exists d', l !! i = Some d' /\ flag_in_active d' = 1.
Proof.
  intros E Hi Ha. assert (Hf : (flag_in_active <$> l') !! i = Some 1)
    by (by rewrite list_lookup_fmap, Hi; cbn; rewrite Ha).
  rewrite E, list_lookup_fmap in Hf. destruct (l !! i) as [d'|]; [|done]. injection Hf as Hf. eauto.
Qed.
Lemma capture_once_same (l l' : list sunxi_audio_device_manager) :
  flag_in_active <$> l' = flag_in_active <$> l -> capture_once l -> capture_once l'.
Proof.
  intros E Hl j k dj dk Hj Hk Aj Ak.
  destruct (active_same _ _ _ _ E Hj Aj) as (? & ? & ?), (active_same _ _ _ _ E Hk Ak) as (? & ? & ?). eauto.
Qed.
Lemma idle_same (l l' : list sunxi_audio_device_manager) :
  flag_in_active <$> l' = flag_in_active <$> l ->
  Forall (fun d => flag_in_active d <> 1) l -> Forall (fun d => flag_in_active d <> 1) l'.
Proof.
  intros E Hl. apply Forall_lookup. intros i d Hi Ha.
  destruct (active_same _ _ _ _ E Hi Ha) as (d' & Hd & A). by destruct (Forall_lookup_1 _ _ _ _ Hl Hd).
Qed.

Lemma map_in_off l : Forall dev_typed l -> Forall dev_typed (map (with_in_active 0) l).
Proof. intros Hl. apply Forall_fmap. eapply Forall_impl; [done|]. intros d []. constructor; cbn; auto. Qed.
Lemma map_out_off l : Forall dev_typed l -> Forall dev_typed (map (with_out_active 0) l).
Proof. intros Hl. apply Forall_fmap. eapply Forall_impl; [done|]. intros d []. constructor; cbn; auto. Qed.
Lemma map_out_off_same (l : list sunxi_audio_device_manager) : flag_in_active <$> map (with_out_active 0) l = flag_in_active <$> l.
Proof. unfold fmap. induction l as [|d l IH]; [done|]. cbn. by rewrite IH. Qed.

(** One card is marked in a table where none is. *)
Lemma mark_in_typed k l : Forall dev_typed l -> Forall dev_typed (alter (with_in_active 1) k l).
Proof. intros Hl. apply Forall_alter; [done|]. intros d _ []. constructor; cbn; auto. Qed.
Lemma mark_in_once k l :
  Forall (fun d => flag_in_active d <> 1) l -> capture_once (alter (with_in_active 1) k l).
Proof.
  intros Hl. assert (forall i d, alter (with_in_active 1) k l !! i = Some d -> flag_in_active d = 1 -> i = k) as Hx.
  { intros i d Hi Ha. destruct (decide (i = k)); [done|]. rewrite list_lookup_alter_ne in Hi by done.
    by destruct (Forall_lookup_1 _ _ _ _ Hl Hi). }
  intros i j di dj Hi Hj Ai Aj. by rewrite (Hx i di), (Hx j dj).
Qed.

Lemma off_idle l : Forall (fun d => flag_in_active d <> 1) (map (with_in_active 0) l).
Proof. apply Forall_fmap, Forall_true. intros d. cbn. lia. Qed.

Lemma activate_in_ok m names l :
  Forall dev_typed l ->
  Forall dev_typed (activate_in m names (map (with_in_active 0) l)) /\
  capture_once (activate_in m names (map (with_in_active 0) l)) /\
  length (activate_in m names (map (with_in_active 0) l)) = length l.
Proof.
  intros Hl. destruct names as [|n names]; cbn [activate_in].
  - split_and!; [by apply map_in_off| |apply length_map].
    intros i j di dj Hi Hj Ai. by destruct (Forall_lookup_1 _ _ _ _ (off_idle l) Hi).
  - split_and!; [by apply mark_in_typed, map_in_off|apply mark_in_once, off_idle|].
    by rewrite length_alter, length_map.
Qed.

Lemma out_on_same k (l : list sunxi_audio_device_manager) : flag_in_active <$> alter (with_out_active 1) k l = flag_in_active <$> l.
Proof.
  apply list_eq. intros i. rewrite !list_lookup_fmap. destruct (decide (i = k)) as [->|].
  - rewrite list_lookup_alter_eq. by destruct (l !! k).
  - by rewrite list_lookup_alter_ne.
Qed.
Lemma out_on_typed k l : Forall dev_typed l -> Forall dev_typed (alter (with_out_active 1) k l).
Proof. intros Hl. apply Forall_alter; [done|]. intros d _ []. constructor; cbn; auto. Qed.

Lemma activate_out_ok m names : forall l r (l' : list sunxi_audio_device_manager),
  activate_out m names l = (r, l') -> Forall dev_typed l ->
  Forall dev_typed l' /\ flag_in_active <$> l' = flag_in_active <$> l /\ length l' = length l.
Proof.
  induction names as [|n names IH]; intros l r l'; cbn [activate_out]; [by intros [= _ <-]|].
  destruct (find_card _ l) as [k|].
  - intros E Hl. apply IH in E as (H1 & H2 & H3); [|by apply out_on_typed].
    split_and!; [done|by rewrite H2, out_on_same|by rewrite H3, length_alter].
  - intros [= _ <-] Hl. split_and!; [by do 2 apply out_on_typed|by rewrite !out_on_same|by rewrite !length_alter].
Qed.

(** The type does not depend on the rest of the record. *)
Lemma on_devs_ok l g :
  dev_ok g -> length l = length (dev_manager g) -> Forall dev_typed l -> capture_once l ->
  dev_ok (on_devs (fun _ => l) g).
Proof. intros [] Hn Ht Ho. constructor; cbn; try done. congruence. Qed.

Section Active.
Context {W : Type} `{OsOps W, PropOps W, PropSetOps W}.
Abbreviation S := (mach W dev_g).

(** Setting the capture: afterwards one card at most captures, and the call
    does not fail. *)
Lemma set_active_in_pc devices :
  pc (W := W) dev_ok (set_audio_devices_active AUDIO_IN devices) (fun r g => dev_ok g /\ r = 0).
Proof.
  unfold set_audio_devices_active. apply pc_checked_bind. intros str _.
  change (dev_on AUDIO_IN AUDIO_IN) with true. change (dev_on AUDIO_IN AUDIO_OUT) with false. cbn iota.
  apply pc_quiet_bind; [auto with quiet|]. intros _. apply pc_quiet_bind; [auto with quiet|]. intros _.
  destruct (names_fit _); [|by apply pc_undef].
  eapply (pc_bind _ _ _ (fun _ => dev_ok)); [|intros []; by apply pc_ret].
  apply pc_set_glob. intros g Hg. pose proof (activate_in_ok AUDIO_IN (split_devices [] str) (dev_manager g) (do_typed g Hg)) as (? & ? & ?).
  by apply (on_devs_ok _ g).
Qed.

(** Setting the playback changes no capture. *)
Lemma set_active_out_pc (idle : bool) devices :
  let P g := dev_ok g /\ (if idle then idle_in g else True) in
  pc (W := W) P (set_audio_devices_active AUDIO_OUT devices) (fun _ => P).
Proof.
  intros P. unfold set_audio_devices_active. apply pc_checked_bind. intros str _.
  change (dev_on AUDIO_OUT AUDIO_IN) with false. change (dev_on AUDIO_OUT AUDIO_OUT) with true. cbn iota.
  apply pc_quiet_bind; [auto with quiet|]. intros _. apply pc_quiet_bind; [auto with quiet|]. intros _.
  destruct (names_fit _); [|by apply pc_undef].
  apply pc_get_bind. intros l. destruct (activate_out _ _ _) as [r l'] eqn:E.
  eapply (pc_bind _ _ _ (fun _ => P)); [|intros []; by apply pc_ret].
  apply pc_set_glob. intros g [[Hg Hi] El]. subst l.
  apply activate_out_ok in E as (H1' & H2' & H3'); [|by apply map_out_off, Hg].
  rewrite map_out_off_same in H2'. rewrite length_map in H3'. split.
  - apply (on_devs_ok _ g); [done..|]. eapply capture_once_same; [done|apply Hg].
  - destruct idle; [|done]. unfold idle_in in *. cbn. by eapply idle_same.
Qed.
End Active.

(** ** Opening the HAL *)

Section Open.
Context {W : Type} `{OsOps W, PropOps W, PropSetOps W}.
Abbreviation S := (mach W dev_g).

(** The globals before [init_audio_devices]. *)
Definition map_typed (g : dev_g) : Prop :=
  Forall name_typed (audio_name_map g) /\ length (audio_name_map g) = 16%nat /\
  lenZ (in_devices g) < 128 /\ lenZ (out_devices g) < 128.
Definition fresh (g : dev_g) : Prop := dev_ok g /\ idle_in g.

Lemma kept_dev_ok : kept dev_ok.
Proof.
  split_and!; [done|by intros; apply on_dev_ok|].
  intros m g [] Hm Hl. by constructor.
Qed.
Lemma kept_fresh : kept fresh.
Proof.
  split_and!; [by intros g []|intros c f g [] Hf; split; [by apply on_dev_ok|by apply on_dev_idle]|].
  intros m g [Hg Hi] Hm Hl. split; [|done]. destruct Hg. by constructor.
Qed.

Lemma init_audio_devices_pc : pc (W := W) map_typed init_audio_devices (fun _ => fresh).
Proof.
  unfold init_audio_devices. eapply (pc_bind _ _ _ (fun _ => fresh)).
  - apply pc_set_glob. intros g (H1' & H2' & H3' & H4'). split.
    + constructor; cbn [on_devs dev_manager audio_name_map in_devices out_devices]; try done.
      * apply Forall_replicate. by constructor; cbn; auto.
      * intros i j di dj [-> _]%lookup_replicate _ Ai. done.
    + apply Forall_replicate. cbn. lia.
  - intros []. apply for_cards_pc. intros c. eapply (pc_bind _ _ _ (fun _ => fresh)).
    + by apply do_init_audio_card_pc, kept_fresh.
    + intros a. by apply pc_ret.
Qed.

(** While no name is chosen for the capture, no card is marked. *)
Definition choosing (a : active_names) (g : dev_g) : Prop := dev_ok g /\ (fst a = None -> idle_in g).

Lemma mark_in_ok card g : fresh g -> dev_ok (on_dev card (with_in_active 1) g).
Proof.
  intros [Hg Hi]. apply (on_devs_ok (alter (with_in_active 1) (Z.to_nat card) (dev_manager g)) g); [done|..].
  - apply length_alter.
  - by apply mark_in_typed, Hg.
  - by apply mark_in_once.
Qed.

Lemma default_card_pc card a : pc (W := W) (choosing a) (default_card card a) choosing.
Proof.
  unfold default_card. apply pc_get_bind. intros d.
  eapply (pc_bind _ _ _ (fun i => choosing (i, snd a))).
  - destruct a as [[n|] o]; cbn [fst snd].
    + apply pc_ret. by intros g [Hg _].
    + destruct (flag_in d =? AUDIO_IN); [|apply pc_ret; by intros g [Hg _]].
      eapply (pc_bind _ _ _ (fun _ => dev_ok)); [|intros []; by apply pc_ret].
      apply pc_set_glob. intros g [[Hg Hi] _]. apply mark_in_ok. split; [done|by apply Hi].
  - intros i. eapply (pc_bind _ _ _ (fun o => choosing (i, o))); [|intros o; by apply pc_ret].
    destruct (snd a) as [n|]; [by apply pc_ret|].
    destruct (flag_out d =? AUDIO_OUT); [|by apply pc_ret].
    eapply (pc_bind _ _ _ (fun _ => choosing (i, None))); [|intros []; by apply pc_ret].
    apply pc_set_glob. intros g [Hg Hi]. pose proof (out_active_keeps 1 card g ltac:(by right)). split.
    + by apply on_dev_ok.
    + intros E. apply on_dev_idle; auto.
Qed.

Lemma use_codec_pc l : forall a, pc (W := W) (choosing a) (use_codec l a) choosing.
Proof.
  induction l as [|c l IH]; intros a; cbn [use_codec]; [by apply pc_ret|].
  apply pc_get_bind. intros d. destruct (_ && _).
  - eapply pc_mono; [apply default_card_pc|by intros g [Hg _]|done].
  - eapply pc_mono; [apply IH|by intros g [Hg _]|done].
Qed.
Lemma use_any_pc l : forall a, pc (W := W) (choosing a) (use_any l a) choosing.
Proof.
  induction l as [|c l IH]; intros a; cbn [use_any]; [by apply pc_ret|].
  apply pc_get_bind. intros d. destruct (flag_exist d); [|apply pc_ret; by intros g [Hg _]].
  eapply (pc_bind _ _ _ choosing); [|apply IH].
  eapply pc_mono; [apply default_card_pc|by intros g [Hg _]|done].
Qed.

Lemma add_in_ok v g : dev_ok g -> dev_ok (add_in_device v g).
Proof. intros []. by constructor. Qed.
Lemma add_out_ok v g : dev_ok g -> dev_ok (add_out_device v g).
Proof. intros []. by constructor. Qed.
Lemma init_end_pc a : pc (W := W) dev_ok (init_end a) (fun _ => dev_ok).
Proof.
  unfold init_end. eapply (pc_bind _ _ _ (fun _ => dev_ok)).
  - destruct (fst a); [apply pc_set_glob, add_in_ok|by apply pc_ret].
  - intros []. destruct (snd a) as [n|]; [|by apply pc_ret].
    do 2 (eapply (pc_bind _ _ _ (fun _ => dev_ok));
            [destruct (has_sub _ _); [apply pc_set_glob, add_out_ok|by apply pc_ret]|intros []]).
    destruct (has_sub _ _); [apply pc_set_glob, add_out_ok|by apply pc_ret].
Qed.

Lemma init_audio_devices_active_pc : pc (W := W) fresh init_audio_devices_active (fun _ => dev_ok).
Proof.
  unfold init_audio_devices_active.
  eapply (pc_bind _ _ _ (fun i g => dev_ok g /\ (i = None -> idle_in g))).
  { unfold active_from_property. apply pc_quiet_bind; [auto with quiet|]. intros [r v].
    case_test; [apply pc_ret; intros g []; by split|].
    eapply (pc_bind _ _ _ (fun r g => dev_ok g /\ r = 0)).
    - eapply pc_mono; [apply set_active_in_pc|by intros g []|done].
    - intros r'. apply pc_pure. intros ->. apply pc_ret. by intros g Hg; split. }
  intros i. eapply (pc_bind _ _ _ (fun o => choosing (i, o))).
  { unfold active_from_property. apply pc_quiet_bind; [auto with quiet|]. intros [r v].
    case_test; [by apply pc_ret|].
    eapply (pc_bind _ _ _ (fun _ => choosing (i, None))); [|intros r'; by apply pc_ret].
    eapply pc_mono; [apply (set_active_out_pc (match i with None => true | Some _ => false end))| |].
    - intros g [Hg Hi]. split; [done|]. destruct i; [done|by apply Hi].
    - intros _ g [Hg Hi]. split; [done|]. by destruct i. }
  intros o. destruct (both_active _).
  { eapply pc_mono; [apply init_end_pc|by intros g []|done]. }
  eapply (pc_bind _ _ _ choosing); [apply use_codec_pc|]. intros a. destruct (both_active a).
  { eapply pc_mono; [apply init_end_pc|by intros g []|done]. }
  eapply (pc_bind _ _ _ choosing); [apply use_any_pc|]. intros a'.
  eapply pc_mono; [apply init_end_pc|by intros g []|done].
Qed.

(** ** Sequences of calls *)

Inductive dev_call :=
| GetDevices (in_out : Z)
| SetIn (devices : bytes)
| SetOut (devices : bytes)
| GetActive (in_out : Z).
Definition dev_exec (c : dev_call) : M S unit :=
  match c with
  | GetDevices in_out => get_audio_devices in_out ;;; ret tt
  | SetIn devices => set_audio_devices_active AUDIO_IN devices ;;; ret tt
  | SetOut devices => set_audio_devices_active AUDIO_OUT devices ;;; ret tt
  | GetActive in_out => get_audio_devices_active in_out [] ;;; ret tt
  end.
Fixpoint dev_run (l : list dev_call) : M S unit :=
  match l with [] => ret tt | c :: l => dev_exec c ;;; dev_run l end.

Lemma cut_last_lenZ b b' : cut_last b = Some b' -> lenZ b' <= lenZ b.
Proof.
  destruct b as [|c b]; [done|]. intros E. change (Some (removelast (c :: b)) = Some b') in E.
  injection E as <-. unfold lenZ. rewrite removelast_firstn_len.
  destruct b as [|x b]; cbn [length]; [lia|]. rewrite length_take. cbn [length]. lia.
Qed.
Lemma cat_names_lenZ f l : forall b b', lenZ b < 128 -> cat_names f l b = Some b' -> lenZ b' < 128.
Proof.
  induction l as [|d l IH]; intros b b' Hb; cbn [cat_names]; [by intros [= <-]|].
  destruct (f d); [|by apply IH]. unfold cat_name, fits.
  destruct (lenZ _ <? 128) eqn:E; [|done]. bool_to_prop. by apply IH.
Qed.

Lemma get_audio_devices_pc in_out : pc (W := W) dev_ok (get_audio_devices in_out) (fun _ => dev_ok).
Proof.
  unfold get_audio_devices. eapply (pc_bind _ _ _ (fun _ => dev_ok)); [apply updata_pc, kept_dev_ok|].
  intros _. apply pc_get_bind. intros l.
  apply pc_checked_bind. intros i Ei. apply pc_checked_bind. intros o Eo.
  apply pc_checked_bind. intros i' Ei'. apply pc_checked_bind. intros o' Eo'.
  eapply (pc_bind _ _ _ (fun _ => dev_ok)); [|intros []; by apply pc_ret].
  apply pc_set_glob. intros g [[] _]. constructor; cbn; try done.
  apply cat_names_lenZ in Ei, Eo; [|done..]. apply cut_last_lenZ in Ei', Eo'. lia.
Qed.

Lemma dev_exec_pc c : pc (W := W) dev_ok (dev_exec c) (fun _ => dev_ok).
Proof.
  destruct c as [io|d|d|io]; cbn [dev_exec]; (eapply (pc_bind _ _ _ (fun _ => dev_ok)); [|intros a; by apply pc_ret]).
  - apply get_audio_devices_pc.
  - eapply pc_mono; [apply set_active_in_pc|done|by intros a g []].
  - eapply pc_mono; [apply (set_active_out_pc false)|done|by intros a g []].
  - apply pc_quiet. unfold get_audio_devices_active.
    repeat (apply quiet_bind; [auto with quiet|intros]). auto with quiet.
Qed.
Lemma dev_run_pc l : pc (W := W) dev_ok (dev_run l) (fun _ => dev_ok).
Proof.
  induction l as [|c l IH]; cbn [dev_run]; [by apply pc_ret|].
  eapply pc_bind; [apply dev_exec_pc|]. by intros [].
Qed.

End Open.

(** ** The calls come to an end

    Every copy into an array without a bound, where its string fits. *)

Definition devices_fit (v : bytes) : bool := (lenZ v <? 128) && names_fit (split_devices [] v).

(** The id file of a card holds at most fifteen characters and a newline, as ALSA
    documents ([char id[16]]); the two properties name at most eight devices of at
    most 31 characters, and stay so when such a list is stored. *)
Class ShortNames (W : Type) `{OsOps W, PropOps W, PropSetOps W} := {
  short : W -> Prop;
  short_open : forall path w, short w -> short (os_open path w).2;
  short_close : forall fd w, short w -> short (os_close fd w);
  short_read : forall fd w r d w', short w -> os_read fd 32 w = (r, d, w') -> r <= 16 /\ short w';
  short_prop : forall key w r v, short w -> key = PRO_AUDIO_INPUT_ACTIVE \/ key = PRO_AUDIO_OUTPUT_ACTIVE ->
    prop_get key "" w = (r, v) -> 0 < r -> devices_fit v = true;
  short_set : forall key v w, short w -> devices_fit v = true -> short (prop_set key v w).2;
}.

Lemma cstr_upto b : forall k, b !! k = Some 0 -> exists id, cstr b = Some id /\ (length id <= k)%nat.
Proof.
  induction b as [|c b IH]; intros k; [done|]. cbn [cstr]. destruct (Z.eqb_spec c 0) as [->|Hc].
  { intros _. exists []. cbn. split; [done|lia]. }
  destruct k as [|k]; cbn; [intros [= ->]; done|]. intros Hk. destruct (IH k Hk) as (id & -> & Hl).
  eexists. split; [done|]. cbn. lia.
Qed.
Lemma find_name_fits l : forall pre name out, lenZ name <= 15 -> is_Some (find_name l pre name out).
Proof.
  induction l as [|[linux android] l IH]; intros pre name out Hn; cbn [find_name]; [by eexists|].
  destruct (lenZ linux =? 0).
  - unfold fits. rewrite lenZ_app. change (lenZ (str "AUDIO_USB_")) with 10.
    rewrite (proj2 (Z.ltb_lt _ _)), (proj2 (Z.ltb_lt _ _)) by lia. by eexists.
  - destruct (bytes_eq name linux); [by eexists|by apply IH].
Qed.

Section Total.
Context {W : Type} `{ShortNames W}.
Abbreviation S := (mach W dev_g).

Definition total {A} (m : M S A) : Prop := forall s, short (world s) -> yields m s (fun _ s' => short (world s')).
Lemma total_bind {A B} (m : M S A) (k : A -> M S B) : total m -> (forall a, total (k a)) -> total (bind m k).
Proof. intros Hm Hk s Hs. eapply yields_bind; [by apply Hm|]. intros a s'. apply Hk. Qed.
Lemma total_ret {A} (a : A) : total (ret a).
Proof. by intros s Hs. Qed.
Lemma total_get {A} (f : dev_g -> A) : total (get_glob f).
Proof. by intros s Hs. Qed.
Lemma total_set f : total (set_glob f).
Proof. by intros s Hs. Qed.
Lemma total_ask {A} (f : W -> A) : total (ask f).
Proof. by intros s Hs. Qed.
Lemma total_access path : total (c_access path).
Proof. by intros s Hs. Qed.
Lemma total_close fd : total (c_close fd).
Proof. intros s Hs. by apply short_close. Qed.
Lemma total_open path : total (c_open path).
Proof.
  intros s Hs. pose proof (short_open path (world s) Hs) as Ho. unfold yields, c_open. by destruct (os_open path (world s)).
Qed.
Create HintDb total discriminated.
#[local] Hint Resolve total_ret total_get total_set total_ask total_access total_close total_open : total.
Ltac total_step := first
  [ solve [auto with total nocore]
  | apply total_bind; [|intros ?]
  | match goal with
    | |- total (if ?b then _ else _) => destruct b
    | |- total (match ?o with Some _ => _ | None => _ end) => destruct o
    end ].
Ltac total_tac := repeat total_step.

(** The name of a card that is read is short. *)
Lemma read_id {A} (k : bytes -> M S A) fd s (Q : A -> S -> Prop) :
  short (world s) ->
  (forall id s', short (world s') -> lenZ id <= 15 -> yields (k id) s' Q) ->
  yields (let* '(r, snd_id) := c_read fd (zeros 32) 0 32 in
          let* snd_id := (if 0 <? r then checked (memcpy snd_id (r - 1) [0] 1) else ret snd_id) in
          c_close fd ;;; let* id := checked (cstr snd_id) in k id) s Q.
Proof.
  intros Hs HQ. unfold yields, bind at 1. destruct (c_read fd (zeros 32) 0 32 s) as [[r b] s1| |] eqn:Er.
  2-3: unfold c_read in Er; change (in_bounds 0 32 (zeros 32)) with true in Er; cbn iota in Er;
       by destruct (os_read _ _ _) as [[? ?] ?].
  pose proof (c_read_lenZ _ _ _ _ _ _ _ _ _ Er) as Lb. change (lenZ (zeros 32)) with 32 in Lb.
  unfold c_read in Er. change (in_bounds 0 32 (zeros 32)) with true in Er. cbn iota in Er.
  destruct (os_read fd 32 (world s)) as [[r' d] w] eqn:Eo. injection Er as -> Eb <-.
  destruct (short_read _ _ _ _ _ Hs Eo) as [Hr Hw].
  assert (Hend : forall b, (exists id, cstr b = Some id /\ lenZ id <= 15) ->
    yields (c_close fd ;;; let* id := checked (cstr b) in k id) (Mach w (heap_live s) (fds_live s) (glob s)) Q).
  { intros b2 (id & Ec & Hl). unfold yields, bind, c_close. rewrite Ec. cbn. apply HQ; [|done]. by apply short_close. }
  destruct (Z.ltb_spec 0 r) as [Hr0|Hr0].
  - unfold memcpy. replace (in_bounds (r - 1) 1 b && in_bounds 0 1 [0]) with true
      by (symmetry; apply andb_true_intro; split; [apply in_bounds_spec; lia|done]).
    unfold bind at 1. cbn [checked]. apply Hend.
    destruct (cstr_upto (bblit (r - 1) (bslice 0 1 [0]) b) (Z.to_nat (r - 1))) as (id & Ec & Hl).
    + unfold bblit. rewrite lookup_app_r; rewrite length_take; unfold lenZ in *; [|lia].
      replace (_ - _)%nat with 0%nat by lia. done.
    + exists id. split; [done|]. unfold lenZ. lia.
  - unfold bind at 1. cbn [ret]. apply Hend. replace (0 <? r) with false in Eb by lia. subst b.
    by exists [].
Qed.

Lemma total_name_map name out : lenZ name <= 15 -> total (find_name_map name out).
Proof.
  intros Hn. unfold find_name_map. apply total_bind; [total_tac|]. intros l.
  destruct (find_name_fits l [] name out Hn) as [[r m] E]. rewrite E.
  apply total_bind; [by intros s|]. intros [r' m']. total_tac.
Qed.
Lemma total_init_card card : total (do_init_audio_card card).
Proof.
  unfold do_init_audio_card. apply total_bind; [total_tac|]. intros r. case_test; [total_tac|].
  apply total_bind; [total_tac|]. intros fd. case_test; [total_tac|]. intros s Hs.
  apply read_id; [done|]. intros id s' Hs' Hid. revert s' Hs'.
  apply total_bind; [by apply total_name_map|]. intros name. total_tac.
Qed.
Lemma total_cards l (f : Z -> M S unit) : (forall c, total (f c)) -> total (for_cards l f).
Proof. intros Hf. induction l as [|c l IH]; cbn [for_cards]; [total_tac|]. by apply total_bind. Qed.
Lemma total_init : total init_audio_devices.
Proof.
  unfold init_audio_devices. apply total_bind; [total_tac|]. intros _. apply total_cards. intros c.
  apply total_bind; [apply total_init_card|total_tac].
Qed.
Lemma total_updata : total updata_audio_devices.
Proof.
  unfold updata_audio_devices. apply total_bind; [|total_tac]. apply total_cards. intros c. unfold updata_card.
  apply total_bind; [total_tac|]. intros r. apply total_bind; [total_tac|]. intros there.
  destruct (r =? 0), there; [total_tac|apply total_bind; [apply total_init_card|total_tac]|total_tac..].
Qed.

Lemma total_some {A B} (v : A) (k : A -> M S B) : total (k v) -> total (bind (checked (Some v)) k).
Proof. done. Qed.
Lemma total_set_active m v : devices_fit v = true -> total (set_audio_devices_active m v).
Proof.
  intros Hv. unfold set_audio_devices_active. pose proof Hv as Hf.
  unfold devices_fit in Hf. apply andb_prop in Hf as [Hl Hn]. unfold fits. rewrite Hl. apply total_some.
  assert (Hp : forall key, total (on_world (prop_set key v) ;;; ret tt)).
  { intros key. apply total_bind; [|total_tac]. intros s Hs. pose proof (short_set key v _ Hs Hv) as Hw.
    unfold yields, on_world. by destruct (prop_set key v (world s)). }
  rewrite Hn. apply total_bind; [destruct (dev_on _ _); [apply Hp|total_tac]|]. intros _.
  apply total_bind; [destruct (dev_on _ _); [apply Hp|total_tac]|]. intros _.
  destruct (dev_on m AUDIO_IN); [total_tac|]. apply total_bind; [total_tac|]. intros l.
  destruct (activate_out _ _ _). total_tac.
Qed.

Lemma total_from_property key m :
  key = PRO_AUDIO_INPUT_ACTIVE \/ key = PRO_AUDIO_OUTPUT_ACTIVE -> total (active_from_property key m).
Proof.
  intros Hk s Hs. unfold active_from_property. apply yields_ask. destruct (prop_get key "" (world s)) as [r v] eqn:Ep.
  revert s Hs Ep. intros s Hs Ep. destruct (Z.leb_spec r 0) as [|Hr]; [done|].
  pose proof (short_prop _ _ _ _ Hs Hk Ep Hr) as Hv. revert s Hs Ep. intros s Hs _. revert s Hs.
  apply total_bind; [by apply total_set_active|]. intros r'. total_tac.
Qed.
Lemma total_default card a : total (default_card card a).
Proof. destruct a as [[n|] [m|]]; unfold default_card; cbn [fst snd]; total_tac. Qed.
Lemma total_codec l : forall a, total (use_codec l a).
Proof.
  induction l as [|c l IH]; intros a; cbn [use_codec]; [total_tac|]. apply total_bind; [total_tac|]. intros d.
  destruct (_ && _); [apply total_default|apply IH].
Qed.
Lemma total_any l : forall a, total (use_any l a).
Proof.
  induction l as [|c l IH]; intros a; cbn [use_any]; [total_tac|]. apply total_bind; [total_tac|]. intros d.
  destruct (flag_exist d); [|total_tac]. apply total_bind; [apply total_default|apply IH].
Qed.
Lemma total_end a : total (init_end a).
Proof. destruct a as [[n|] [m|]]; unfold init_end; cbn [fst snd]; total_tac. Qed.
Lemma total_active : total init_audio_devices_active.
Proof.
  unfold init_audio_devices_active. apply total_bind; [apply total_from_property; by left|]. intros i.
  apply total_bind; [apply total_from_property; by right|]. intros o.
  destruct (both_active _); [apply total_end|]. apply total_bind; [apply total_codec|]. intros a.
  destruct (both_active a); [apply total_end|]. apply total_bind; [apply total_any|]. intros a'. apply total_end.
Qed.

(** ** The calls that do not

    A list of names that does not fit its array of 128, or that is empty: its last
    comma is then cut off in front of the array. *)
Definition list_fits (f : sunxi_audio_device_manager -> bool) (l : list sunxi_audio_device_manager) : bool :=
  match cat_names f l [] with Some (_ :: _) => true | _ => false end.
Definition capturing d : bool := flag_exist d && (flag_in d =? AUDIO_IN).
Definition playing d : bool := flag_exist d && (flag_out d =? AUDIO_OUT).
Definition active_of (in_out : Z) d : bool :=
  if dev_on in_out AUDIO_IN then (flag_in d =? in_out) && (flag_in_active d =? 1)
  else (flag_out d =? in_out) && (flag_out_active d =? 1).

Definition overflows (c : dev_call) (s : S) : Prop :=
  match c with
  | SetIn v | SetOut v => devices_fit v = false
  | GetActive in_out => list_fits (active_of in_out) (dev_manager (glob s)) = false
  | GetDevices _ => exists s', updata_audio_devices s = Done 0 s' /\
      list_fits capturing (dev_manager (glob s')) && list_fits playing (dev_manager (glob s')) = false
  end.

Lemma set_too_long m v (s : S) : devices_fit v = false -> set_audio_devices_active m v s = Undef.
Proof.
  unfold devices_fit, set_audio_devices_active, fits. destruct (lenZ v <? 128); [|done]. cbn [andb]. intros Hn.
  cbn [checked]. rewrite bind_ret_l, Hn.
  destruct (dev_on m AUDIO_IN), (dev_on m AUDIO_OUT); unfold bind, on_world, ret, undef; cbn;
    repeat match goal with |- context [prop_set ?k v ?w] => destruct (prop_set k v w); cbn end; done.
Qed.

(** A call comes to an end, or is one of these. *)
Lemma exec_ends c (s : S) :
  short (world s) ->
  (exists s', dev_exec c s = Done tt s' /\ short (world s')) \/ (overflows c s /\ dev_exec c s = Undef).
Proof.
  intros Hs. assert (Hset : forall m v, devices_fit v = true ->
    exists s', (set_audio_devices_active m v ;;; ret tt) s = Done tt s' /\ short (world s')).
  { intros m v Hv. assert (Ht : total (set_audio_devices_active m v ;;; ret tt))
      by (apply total_bind; [by apply total_set_active|total_tac]).
    destruct (yields_Done _ _ _ (Ht s Hs)) as ([] & s' & E & Hs'). eauto. }
  destruct c as [io|v|v|io]; cbn [dev_exec overflows].
  - destruct (yields_Done _ _ _ (total_updata s Hs)) as (r & s1 & E & Hs1).
    assert (r = 0) as ->.
    { unfold updata_audio_devices, bind in E. destruct (for_cards cards updata_card s); [|done..]. by injection E. }
    unfold get_audio_devices, bind. rewrite E. unfold get_glob.
    change (fun d => flag_exist d && (flag_in d =? AUDIO_IN)) with capturing.
    change (fun d => flag_exist d && (flag_out d =? AUDIO_OUT)) with playing.
    destruct (list_fits capturing (dev_manager (glob s1)) && list_fits playing (dev_manager (glob s1))) eqn:El;
      [left|right; split; [by exists s1|]]; unfold list_fits in El;
      destruct (cat_names capturing _ []) as [[|i il]|], (cat_names playing _ []) as [[|o ol]|];
      try done; eexists; by split.
  - destruct (devices_fit v) eqn:Hv; [left; by apply Hset|right]. split; [done|].
    unfold bind. by rewrite set_too_long.
  - destruct (devices_fit v) eqn:Hv; [left; by apply Hset|right]. split; [done|].
    unfold bind. by rewrite set_too_long.
  - unfold get_audio_devices_active, bind, get_glob, list_fits. cbv zeta.
    change (cat_names _ (dev_manager (glob s)) []) with (cat_names (active_of io) (dev_manager (glob s)) []).
    destruct (cat_names (active_of io) _ []) as [[|c l]|]; cbn; eauto.
Qed.

End Total.

(** ** The default card *)

Definition is_codec d : bool := flag_exist d && bytes_eq (dm_name d) (str AUDIO_NAME_CODEC).

Lemma bytes_eq_true a : forall b, bytes_eq a b = true -> a = b.
Proof.
  induction a as [|x a IH]; intros [|y b]; cbn [bytes_eq]; try done.
  intros E. bool_to_prop. subst. f_equal. auto.
Qed.

Lemma find_card_lookup f l : forall k, find_card f l = Some k -> exists d, l !! k = Some d /\ f d = true.
Proof.
  induction l as [|d l IH]; intros k; cbn [find_card]; [done|].
  destruct (f d) eqn:E; [intros [= <-]; eauto|].
  destruct (find_card f l) as [j|]; [|done]. intros [= <-]. by apply IH.
Qed.

Section Default.
Context {W : Type} `{OsOps W, PropOps W, PropSetOps W}.
Abbreviation S := (mach W dev_g).

Lemma use_codec_run n : forall i a (s : S) k,
  length (dev_manager (glob s)) = (i + n)%nat ->
  find_card is_codec (drop i (dev_manager (glob s))) = Some k ->
  use_codec (map Z.of_nat (seq i n)) a s = default_card (Z.of_nat (i + k)) a s.
Proof.
  induction n as [|n IH]; intros i a s k Hl Hf.
  - by rewrite drop_ge in Hf by lia.
  - cbn [seq map use_codec]. rewrite bind_get_glob, Nat2Z.id.
    destruct (dev_manager (glob s) !! i) as [d|] eqn:Ed; [|apply lookup_ge_None_1 in Ed; lia].
    erewrite drop_S in Hf by done. cbn [find_card default] in Hf |- *.
    change (flag_exist (id d) && _) with (is_codec d).
    destruct (is_codec d).
    + injection Hf as <-. by rewrite Nat.add_0_r.
    + destruct (find_card is_codec (drop (Datatypes.S i) _)) as [j|] eqn:Ej; [|done]. injection Hf as <-.
      rewrite (IH (Datatypes.S i) a s j) by (done || lia). by rewrite Nat.add_succ_comm.
Qed.

(** Without the two properties the first codec card captures and plays:
    nothing else of the table changes, and the HAL adds the built-in microphone
    and the speaker to its devices. *)
Theorem codec_is_default (s : S) k d :
  length (dev_manager (glob s)) = 16%nat ->
  fst (prop_get PRO_AUDIO_INPUT_ACTIVE "" (world s)) <= 0 ->
  fst (prop_get PRO_AUDIO_OUTPUT_ACTIVE "" (world s)) <= 0 ->
  find_card is_codec (dev_manager (glob s)) = Some k ->
  dev_manager (glob s) !! k = Some d -> flag_in d = AUDIO_IN -> flag_out d = AUDIO_OUT ->
  let g := glob s in
  init_audio_devices_active s =
  Done tt (Mach (world s) (heap_live s) (fds_live s)
    (DevG (alter (with_out_active 1) k (alter (with_in_active 1) k (dev_manager g)))
       (in_devices g) (out_devices g) (Z.lor (dv_out_device g) AUDIO_DEVICE_OUT_SPEAKER)
       (Z.lor (dv_in_device g) AUDIO_DEVICE_IN_BUILTIN_MIC) (audio_name_map g))).
Proof.
  intros Hl Hi Ho Hf Hd Din Dout g. unfold init_audio_devices_active, active_from_property.
  rewrite bind_assoc, bind_ask. destruct (prop_get PRO_AUDIO_INPUT_ACTIVE _ _) as [r v]. cbn [fst] in Hi.
  rewrite (proj2 (Z.leb_le r 0)), bind_ret_l by done.
  rewrite bind_assoc, bind_ask. destruct (prop_get PRO_AUDIO_OUTPUT_ACTIVE _ _) as [r' v']. cbn [fst] in Ho.
  rewrite (proj2 (Z.leb_le r' 0)), bind_ret_l by done. cbn [both_active].
  assert (Hn : dm_name d = str AUDIO_NAME_CODEC).
  { apply find_card_lookup in Hf as (d' & E & Hc). rewrite Hd in E. injection E as <-.
    apply andb_true_iff in Hc as [_ Hc]. by apply bytes_eq_true. }
  change cards with (map Z.of_nat (seq 0 16)).
  unfold bind at 1. rewrite (use_codec_run 16 0 _ s k) by done. cbn [Nat.add].
  unfold default_card. rewrite bind_get_glob, Nat2Z.id, Hd. cbn [default fst snd]. change (id d) with d.
  rewrite Din, Dout, !Z.eqb_refl. rewrite bind_assoc, bind_set_glob, bind_ret_l. cbn [fst snd].
  rewrite bind_assoc, bind_set_glob, bind_ret_l. cbn [ret both_active]. rewrite Hn.
  unfold init_end. cbn [fst snd]. rewrite bind_set_glob.
  change (has_sub (str AUDIO_NAME_CODEC) (str AUDIO_NAME_CODEC)) with true.
  change (has_sub (str AUDIO_NAME_SPDIF) (str AUDIO_NAME_CODEC)) with false.
  change (has_sub (str AUDIO_NAME_HDMI) (str AUDIO_NAME_CODEC)) with false. cbn iota.
  rewrite bind_set_glob, bind_ret_l. cbn [world heap_live fds_live glob].
  unfold on_dev, on_devs, add_in_device, add_out_device. cbn. by rewrite !Nat2Z.id.
Qed.
End Default.

(** A board with one card, the codec. *)
#[local] Instance codec_os : OsOps unit := {|
  os_malloc := fun _ w => (1, w);
  os_open := fun _ w => (3, w);
  os_close := fun _ w => w;
  os_lseek := fun _ off w => (off, w);
  os_read := fun _ _ w => (11, str "audiocodec" ++ [10], w);
  os_write := fun _ b w => (lenZ b, w);
  os_fsync := fun _ w => w;
  os_ioctl := fun _ _ _ b w => (0, b, w);
  os_access := fun path _ => if has_sub (str "ard0") (str path) || has_sub (str "pcmC0") (str path) then 0 else -1
|}.
#[local] Instance no_prop : PropOps unit := {| prop_get := fun _ _ _ => (0, []) |}.
#[local] Instance no_propset : PropSetOps unit := {| prop_set := fun _ _ w => (0, w) |}.
Definition dev_start : mach unit dev_g := Mach tt 0 0 (DevG [] [] [] 0 0 name_map_initial).
#[local] Instance codec_short : ShortNames unit.
Proof.
  refine {| short := fun _ => True |}; try done.
  - by intros fd w r d w' _ [= <- _].
  - by intros key w r v _ _ [= <- _].
Defined.
Definition dev_calls : list dev_call := [GetDevices AUDIO_OUT; SetOut (str "AUDIO_CODEC"); GetActive AUDIO_OUT].
(** Five USB cards whose ids are as long as ALSA lets them do not fit the list. *)
Definition usb_card : sunxi_audio_device_manager :=
  DevManager (str "AUDIO_USB_" ++ repeat 65 15) (repeat 65 15) 0 0 0 0 AUDIO_OUT 0 true.
Theorem five_usb_cards_overflow :
  list_fits playing (repeat usb_card 4) = true /\ list_fits playing (repeat usb_card 5) = false.
Proof. by vm_compute. Qed.

Definition dev_found : mach unit dev_g :=
  match init_audio_devices dev_start with Done _ s => s | _ => dev_start end.
Lemma codec_is_default_witness :
  exists s', init_audio_devices_active dev_found = Done tt s' /\
    dv_out_device (glob s') = AUDIO_DEVICE_OUT_SPEAKER /\ flag_out_active <$> dev_manager (glob s') !! 0%nat = Some 1.
Proof.
  eexists. split.
  - eapply (codec_is_default dev_found 0); [vm_compute; first [reflexivity|discriminate]..].
  - split; vm_compute; reflexivity.
Defined.
