(* ===== verification/AudBp.v ===== *)
(** * libril_audio: the baseband side of a call

    [bp.c], [bp_devices.c], [bp_utils.c] and the four devices: a modem is chosen
    by a property and told the volume and the path of a call with AT commands,
    each an [echo] into the modem's terminal that [system] runs. *)

From stdpp Require Import strings pretty.
From S2P Require Import Prelude CLib Os Snd Codec.

(** ** Data *)

(** [ril_audio_path_type_t], as far as the HAL uses it. *)
Definition RIL_AUDIO_PATH_EARPIECE : Z := 0.
Definition RIL_AUDIO_PATH_HEADSET : Z := 1.
Definition RIL_AUDIO_PATH_SPK : Z := 2.
Definition RIL_AUDIO_PATH_BT : Z := 3.

(** The entries of [bp_devices[]]; each has a [struct bp_ops] of its own. *)
Inductive bp_device := DEMO | MU509 | EM55 | USI6276.
Record bp_device_desc := BpDeviceDesc {
  bd_name : string;
  bd_board_name : string;
  bd_ops : option bp_device;
}.
Definition bp_devices : list bp_device_desc := [
  BpDeviceDesc "demo" "demo_plan" (Some DEMO);
  BpDeviceDesc "mu509" "xxx1_plan" (Some MU509);
  BpDeviceDesc "em55" "xxx2_plan" (Some EM55);
  BpDeviceDesc "usi6276" "xxx3_plan" (Some USI6276)
].
Definition bp_devices_count : Z := lenZ bp_devices.

(** [struct bp_client], by address. *)
Definition bp_client : Type := option bp_device.
Definition bp_g : Type := gmap Z bp_client.

(** [system (command)]. *)
Class SystemOps (W : Type) := { sys_system : bytes -> W -> Z * W }.

Fixpoint find_bp (l : list bp_device_desc) (i : Z) (device : bytes) : Z :=
  match l with
  | [] => -1
  | d :: l => if has_sub (str (bd_name d)) device then i else find_bp l (i + 1) device
  end.

Definition SIZEOF_bp_client : Z := 4.

(** The command line of [exec_at]: busybox's echo, the text in double quotes. *)
Definition at_command (tty_dev cmd : bytes) : bytes :=
  str "/system/bin/busybox echo -e " ++ [34] ++ cmd ++ [13; 10] ++ [34] ++ str " > " ++ tty_dev.

(** [mu509_set_call_volume]'s levels. *)
Definition mu509_level (volume : Z) : Z :=
  if 10 <=? volume then 5 else if 8 <=? volume then 4 else if 6 <=? volume then 3
  else if 4 <=? volume then 2 else if 2 <=? volume then 1 else 1.

(** ** Operations *)

Section Bp.
Context {W : Type} `{OsOps W, PropOps W, SystemOps W}.
Abbreviation S := (mach W bp_g).

Definition bp_device_detect : M S Z :=
  let* '(r, device) := ask (prop_get "ro.sw.audio.bp_device_name" "0") in
  if r <=? 0 then ret (-1) else
  let index := find_bp bp_devices 0 device in
  ret (if index =? -1 then 0 else index).

Definition bp_client_new : M S Z :=
  let* device_index := bp_device_detect in
  if (device_index <? 0) || (bp_devices_count <? device_index) then ret 0 else
  let* client := c_malloc SIZEOF_bp_client in
  if client =? 0 then undef (* memset (NULL) *) else
  let* d := checked (bp_devices !! Z.to_nat device_index) in
  set_glob (<[client := bd_ops d]>) ;;; ret client.

Definition bp_client_free (client : Z) : M S unit := c_free client ;;; set_glob (delete client).

(** [cmdline] is an array of 100. *)
Definition exec_at (tty_dev cmd : bytes) : M S Z :=
  let cmdline := at_command tty_dev cmd in
  if lenZ cmdline <? 100 then on_world (sys_system cmdline) else undef.

(** *** The devices.  A [get_tty_dev] gives the name the array then holds. *)

Definition demo_get_tty_dev : M S bytes := ret (str "/dev/mux2").
Definition demo_set_call_volume (path volume : Z) : M S Z := demo_get_tty_dev ;;; ret 0.
Definition demo_set_call_path (path : Z) : M S Z := demo_get_tty_dev ;;; ret 0.
Definition demo_set_call_at (cmd : bytes) : M S Z := ret 0.

Definition usb_tty (i : Z) : string := "/dev/ttyUSB" +:+ pretty i.
(** The last of the twenty terminals that is there, [no] so far. *)
Fixpoint last_usb (l : list Z) (no : Z) : M S Z :=
  match l with
  | [] => ret no
  | i :: l =>
      let* r := c_access (usb_tty i) in
      last_usb l (if r =? 0 then i else no)
  end.
(** Its result is -1, and the array stays empty, when there is none. *)
Definition mu509_get_tty_dev : M S bytes :=
  let* no := last_usb (seqZ 0 20) (-1) in
  ret (if 0 <=? no then str (usb_tty no) else []).
Definition mu509_set_call_volume (path volume : Z) : M S Z :=
  let* tty_dev := mu509_get_tty_dev in
  exec_at tty_dev (str "AT+CLVL=" ++ sprintf_d (mu509_level volume)) ;;; ret 0.
(** Every path is channel 0. *)
Definition mu509_set_call_path (path : Z) : M S Z :=
  let* tty_dev := mu509_get_tty_dev in
  exec_at tty_dev (str "AT^SWSPATH=" ++ sprintf_d 0) ;;; ret 0.
Definition mu509_set_call_at (cmd : bytes) : M S Z :=
  let* tty_dev := mu509_get_tty_dev in exec_at tty_dev cmd ;;; ret 0.

Definition em55_set_call_volume (path volume : Z) : M S Z := ret 0.
Definition em55_set_call_path (path : Z) : M S Z := ret 0.
Definition em55_set_call_at (cmd : bytes) : M S Z := exec_at (str "/dev/mux2") cmd ;;; ret 0.

Definition usi6276_get_tty_dev : M S bytes := ret (str "/dev/ttyS3").
Definition usi6276_set_call_volume (path volume : Z) : M S Z := usi6276_get_tty_dev ;;; ret 0.
Definition usi6276_set_call_path (path : Z) : M S Z := usi6276_get_tty_dev ;;; ret 0.
Definition usi6276_set_call_at (cmd : bytes) : M S Z :=
  let* tty_dev := usi6276_get_tty_dev in exec_at tty_dev cmd ;;; ret 0.

(** *** The tables of operations *)

Definition set_call_volume (d : bp_device) (path volume : Z) : M S Z :=
  match d with
  | DEMO => demo_set_call_volume path volume
  | MU509 => mu509_set_call_volume path volume
  | EM55 => em55_set_call_volume path volume
  | USI6276 => usi6276_set_call_volume path volume
  end.
Definition set_call_path (d : bp_device) (path : Z) : M S Z :=
  match d with
  | DEMO => demo_set_call_path path
  | MU509 => mu509_set_call_path path
  | EM55 => em55_set_call_path path
  | USI6276 => usi6276_set_call_path path
  end.
Definition set_call_at (d : bp_device) (cmd : bytes) : M S Z :=
  match d with
  | DEMO => demo_set_call_at cmd
  | MU509 => mu509_set_call_at cmd
  | EM55 => em55_set_call_at cmd
  | USI6276 => usi6276_set_call_at cmd
  end.
End Bp.
