(* ===== verification/AudIface.v ===== *)
(** * audio HAL: the codec and the modem behind it

    [audio_iface.c]: the HAL's two static clients, [codec_client] and
    [bp_client], and the calls that pass a route, a volume or a recording on to
    the operations of the plan the client was made with.  A missing client or a
    missing table of operations makes a call do nothing. *)

From S2P Require Import Prelude CLib Os Snd Mixer Codec CodecPad CodecPlanOne CodecPlanTwo VolumeConf.
From S2P Require Import CodecClient AudBp.

Record iface_g := IfaceG {
  ig_codec : codec_g;
  ig_codec_client : Z;        (* static struct codec_client* codec_client *)
  ig_bp : bp_g;
  ig_bp_client : Z;           (* static struct bp_client* bp_client *)
}.
Definition with_codec v g := IfaceG v (ig_codec_client g) (ig_bp g) (ig_bp_client g).
Definition with_codec_client v g := IfaceG (ig_codec g) v (ig_bp g) (ig_bp_client g).
Definition with_bp v g := IfaceG (ig_codec g) (ig_codec_client g) v (ig_bp_client g).
Definition with_bp_client v g := IfaceG (ig_codec g) (ig_codec_client g) (ig_bp g) v.
Definition iface_initial : iface_g := IfaceG codec_initial 0 ∅ 0.

Section Iface.
Context {W : Type} `{OsOps W, MixOps W, PropOps W, FileOps W, SystemOps W}.
Abbreviation S := (mach W iface_g).

Definition in_codec {A} (m : M (mach W codec_g) A) : M S A := zoom ig_codec with_codec m.
Definition in_bp {A} (m : M (mach W bp_g) A) : M S A := zoom ig_bp with_bp m.

Definition codec_dev_init : M S Z :=
  let* client := in_codec codec_client_new in
  set_glob (with_codec_client client) ;;;
  ret (if client =? 0 then -1 else 0).
Definition codec_dev_exit : M S unit :=
  let* client := get_glob ig_codec_client in
  if client =? 0 then ret tt else in_codec (codec_client_free client).

(** [if (codec_client != NULL && codec_client->ops != NULL) codec_client->ops->f (...)]. *)
Definition with_ops (ops : codec_client -> option codec_plan)
    (f : codec_plan -> Z -> M (mach W codec_g) Z) : M S unit :=
  let* client := get_glob ig_codec_client in
  if client =? 0 then ret tt else
  let* c := in_codec (the_client client) in
  match ops c with
  | Some plan => in_codec (f plan client) ;;; ret tt
  | None => ret tt
  end.

Definition normal_play_route (path : Z) : M S unit :=
  with_ops cc_normal_ops (fun plan client =>
    match plan with
    | PAD => CodecPad.set_normal_path client path
    | PLAN_ONE => CodecPlanOne.set_normal_path client path
    | PLAN_TWO => CodecPlanTwo.set_normal_path client path
    end).
Definition normal_play_volume (path vol : Z) : M S unit :=
  with_ops cc_normal_ops (fun plan client =>
    match plan with
    | PAD => CodecPad.set_normal_volume client path vol
    | PLAN_ONE => CodecPlanOne.set_normal_volume client path vol
    | PLAN_TWO => CodecPlanTwo.set_normal_volume client path vol
    end).
Definition normal_record_enable (enable : bool) : M S unit :=
  with_ops cc_normal_ops (fun plan client =>
    match plan with
    | PAD => CodecPad.set_normal_record_enable client enable
    | PLAN_ONE => CodecPlanOne.set_normal_record_enable client enable
    | PLAN_TWO => CodecPlanTwo.set_normal_record_enable client enable
    end).
Definition normal_record_route (path : Z) : M S unit :=
  with_ops cc_normal_ops (fun plan client =>
    match plan with
    | PAD => CodecPad.set_normal_record client path
    | PLAN_ONE => CodecPlanOne.set_normal_record client path
    | PLAN_TWO => CodecPlanTwo.set_normal_record client path
    end).

Definition fm_play_route (path : Z) : M S unit :=
  with_ops cc_fm_ops (fun plan client =>
    match plan with
    | PAD => CodecPad.set_fm_path client path
    | PLAN_ONE => CodecPlanOne.set_fm_path client path
    | PLAN_TWO => CodecPlanTwo.set_fm_path client path
    end).
Definition fm_record_enable (enable : bool) : M S unit :=
  with_ops cc_fm_ops (fun plan client =>
    match plan with
    | PAD => CodecPad.set_fm_record_enable client enable
    | PLAN_ONE => CodecPlanOne.set_fm_record_enable client enable
    | PLAN_TWO => CodecPlanTwo.set_fm_record_enable client enable
    end).
Definition fm_record_route (path : Z) : M S unit :=
  with_ops cc_fm_ops (fun plan client =>
    match plan with
    | PAD => CodecPad.set_fm_record client path
    | PLAN_ONE => CodecPlanOne.set_fm_record client path
    | PLAN_TWO => CodecPlanTwo.set_fm_record client path
    end).
Definition fm_volume (path volume : Z) : M S unit :=
  with_ops cc_fm_ops (fun plan client =>
    match plan with
    | PAD => CodecPad.set_fm_volume client path volume
    | PLAN_ONE => CodecPlanOne.set_fm_volume client path volume
    | PLAN_TWO => CodecPlanTwo.set_fm_volume client path volume
    end).

(** The plan of a tablet has no factory and no phone operations. *)
Definition factory_route (path : Z) : M S unit :=
  with_ops cc_factory_ops (fun plan client =>
    match plan with
    | PAD => undef
    | PLAN_ONE => CodecPlanOne.set_factory_path client path
    | PLAN_TWO => CodecPlanTwo.set_factory_path client path
    end).
Definition clear_phone_route : M S unit :=
  with_ops cc_phone_ops (fun plan client =>
    match plan with
    | PAD => undef
    | PLAN_ONE => CodecPlanOne.clean_phone_path client
    | PLAN_TWO => CodecPlanTwo.clean_phone_path client
    end).
Definition phone_play_route (path : Z) : M S unit :=
  with_ops cc_phone_ops (fun plan client =>
    match plan with
    | PAD => undef
    | PLAN_ONE => CodecPlanOne.set_phone_path client path
    | PLAN_TWO => CodecPlanTwo.set_phone_path client path
    end).
Definition phone_record_enable (enable : bool) : M S unit :=
  with_ops cc_phone_ops (fun plan client =>
    match plan with
    | PAD => undef
    | PLAN_ONE => CodecPlanOne.set_phone_record_enable client enable
    | PLAN_TWO => CodecPlanTwo.set_phone_record_enable client enable
    end).
Definition phone_record_route (path : Z) : M S unit :=
  with_ops cc_phone_ops (fun plan client =>
    match plan with
    | PAD => undef
    | PLAN_ONE => CodecPlanOne.set_phone_record client path
    | PLAN_TWO => CodecPlanTwo.set_phone_record client path
    end).
Definition phone_volume (path volume : Z) : M S unit :=
  with_ops cc_phone_ops (fun plan client =>
    match plan with
    | PAD => undef
    | PLAN_ONE => CodecPlanOne.set_phone_volume client path volume
    | PLAN_TWO => CodecPlanTwo.set_phone_volume client path volume
    end).

(** *** The modem *)

Definition with_bp_ops (f : bp_device -> M (mach W bp_g) Z) : M S unit :=
  let* client := get_glob ig_bp_client in
  if client =? 0 then ret tt else
  let* m := get_glob ig_bp in
  let* ops := checked (m !! client) in
  match ops with
  | Some d => in_bp (f d) ;;; ret tt
  | None => ret tt
  end.
Definition ril_set_call_volume (path volume : Z) : M S unit :=
  with_bp_ops (fun d => set_call_volume d path volume).
Definition ril_set_call_audio_path (path : Z) : M S unit :=
  with_bp_ops (fun d => set_call_path d path).
Definition ril_set_call_at (cmd : bytes) : M S unit := with_bp_ops (fun d => set_call_at d cmd).

Definition ril_dev_init : M S Z :=
  let* client := in_bp bp_client_new in
  set_glob (with_bp_client client) ;;;
  ret (if client =? 0 then -1 else 0).
Definition ril_dev_exit : M S unit :=
  let* client := get_glob ig_bp_client in
  if client =? 0 then ret tt else in_bp (bp_client_free client).
End Iface.
