(* ===== verification/AudEnv.v ===== *)
(** * audio HAL: the data and the libraries around it

    [audio_hw.c] and [audio_raw.h]: the structures of the device and of its
    streams, and what the HAL calls that is not in the repository: the system's
    tinyalsa (not the copy in libcodec_audio), the resampler, the echo reference,
    the effects, audio_route and the parameter strings, as the class [HalLibs];
    the constants of their headers as [HalConsts].  The fields that only code
    that is never called uses ([proc_buf], [ref_buf], the modem streams, ...) are
    left out.  A volume is given as the level [(int) (volume * 100 / 10)] that the
    code computes of it. *)

From S2P Require Import Prelude CLib Os Snd Pcm Codec CodecClient AudBp AudIface AudRing AudDevices.

(** ** Constants *)

Definition SAMPLING_RATE_8K : Z := 8000.
Definition SAMPLING_RATE_11K : Z := 11025.
Definition SAMPLING_RATE_44K : Z := 44100.
Definition MM_SAMPLING_RATE : Z := SAMPLING_RATE_44K.
Definition DEFAULT_OUT_SAMPLING_RATE : Z := SAMPLING_RATE_44K.
Definition SHORT_PERIOD_SIZE : Z := 1360 * 2.
Definition LONG_PERIOD_SIZE : Z := SHORT_PERIOD_SIZE * 6.
Definition PLAYBACK_PERIOD_COUNT : Z := 2.
Definition RESAMPLER_BUFFER_SIZE : Z := 4 * (SHORT_PERIOD_SIZE * 2).
Definition CARD_A1X_HDMI : Z := 1.
Definition MAX_PREPROCESSORS : Z := 3.

Definition OUT_DEVICE_SPEAKER_AND_HEADSET : Z := 4.
Definition OUT_DEVICE_AC200_OUTPUT : Z := 9.
Definition IN_SOURCE_MAINMIC : Z := 0.
Definition normal_route_configs : list string := [
  "media-speaker"; "media-headphones"; "media-headphones"; "com-ap-bt"; "phone-ring-voice"; "null";
  "media-single-speaker"; "karaoke-ac100-speaker-output"; "karaoke-ac100-to-hdmi-output"; "ac200-output"]%string.
Definition cap_normal_route_configs : list string := [
  "media-main-mic"; "media-headset-mic"; "com-bt-ap"; "karaoke-ac100-mic1-input"]%string.

Definition TTY_MODE_OFF : Z := 0.
Definition TTY_MODE_VCO : Z := 1.
Definition TTY_MODE_HCO : Z := 2.
Definition TTY_MODE_FULL : Z := 3.
Definition RAW_PCM : Z := 1.

(** Of [system/audio.h]. *)
Definition AUDIO_MODE_NORMAL : Z := 0.
Definition AUDIO_MODE_RINGTONE : Z := 1.
Definition AUDIO_MODE_IN_CALL : Z := 2.
Definition AUDIO_MODE_IN_COMMUNICATION : Z := 3.
Definition AUDIO_SOURCE_VOICE_COMMUNICATION : Z := 7.
Definition AUDIO_DEVICE_OUT_BLUETOOTH_SCO : Z := 0x10.
Definition AUDIO_DEVICE_OUT_BLUETOOTH_SCO_CARKIT : Z := 0x40.
Definition AUDIO_DEVICE_NONE : Z := 0.
Definition AUDIO_FORMAT_PCM_16_BIT : Z := 1.
(** [AUDIO_DEVICE_IN_BUILTIN_MIC & ~AUDIO_DEVICE_BIT_IN]. *)
Definition BUILTIN_MIC : Z := 4.

(** The constants that only the vendor's headers have: the two added modes, the
    device of the audio-flinger capture, the keys of the parameter strings, and
    whether [SW_CHIP_PLATFORM == H8_CHIP_PLATFORM]. *)
Class HalConsts := {
  AUDIO_MODE_FM : Z;
  AUDIO_MODE_MODE_FACTORY_TEST : Z;
  AUDIO_DEVICE_IN_AF : Z;
  h8_platform : bool;
  AUDIO_PARAMETER_DEVICES_IN : string;
  AUDIO_PARAMETER_DEVICES_OUT : string;
  AUDIO_PARAMETER_DEVICES_IN_ACTIVE : string;
  AUDIO_PARAMETER_DEVICES_OUT_ACTIVE : string;
  AUDIO_PARAMETER_RAW_DATA_OUT : string;
}.
Definition AUDIO_PARAMETER_STREAM_ROUTING : string := "routing".
Definition AUDIO_PARAMETER_STREAM_INPUT_SOURCE : string := "input_source".
Definition AUDIO_PARAMETER_KEY_TTY_MODE : string := "tty_mode".
Definition AUDIO_PARAMETER_KEY_BT_NREC : string := "bt_headset_nrec".

(** ** Data *)

Definition pcm_config_mm_out : pcm_config :=
  PcmConfig 2 MM_SAMPLING_RATE SHORT_PERIOD_SIZE PLAYBACK_PERIOD_COUNT PCM_FORMAT_S16_LE 0 0 0 0 0 0.
Definition pcm_config_mm_in : pcm_config :=
  PcmConfig 2 MM_SAMPLING_RATE 1024 2 PCM_FORMAT_S16_LE 0 0 0 0 0 0.
Definition set_rate v c :=
  PcmConfig (channels c) v (period_size c) (period_count c) (format c) (start_threshold c)
    (stop_threshold c) (silence_threshold c) (avail_min c) (raw_flag c) (in_init_channels c).
Definition set_channels v c :=
  PcmConfig v (rate c) (period_size c) (period_count c) (format c) (start_threshold c)
    (stop_threshold c) (silence_threshold c) (avail_min c) (raw_flag c) (in_init_channels c).
Definition set_raw_flag v c :=
  PcmConfig (channels c) (rate c) (period_size c) (period_count c) (format c) (start_threshold c)
    (stop_threshold c) (silence_threshold c) (avail_min c) v (in_init_channels c).
Definition set_in_init_channels v c :=
  PcmConfig (channels c) (rate c) (period_size c) (period_count c) (format c) (start_threshold c)
    (stop_threshold c) (silence_threshold c) (avail_min c) (raw_flag c) v.

(** [RAW_INFO_t]. *)
Record RAW_INFO := RawInfo { raw_enable : Z; raw_mode : Z; sample_rate : Z }.

(** [struct sunxi_stream_out]. *)
Record sunxi_stream_out := StreamOut {
  so_lock : bool;  (* the mutex is held *)
  so_config : pcm_config;
  so_multi_config : list pcm_config;  (* [16] *)
  so_pcm : Z;
  so_multi_pcm : list Z;  (* [16], 0 for NULL *)
  so_resampler : Z;
  so_multi_resampler : list Z;  (* [16] *)
  so_buffer : Z;
  so_buffer_mem : bytes;  (* what the block holds *)
  so_standby : bool;
  so_echo_reference : Z;
  so_write_threshold : Z;
}.
Definition set_so_lock v r := StreamOut v (so_config r) (so_multi_config r) (so_pcm r) (so_multi_pcm r) (so_resampler r) (so_multi_resampler r) (so_buffer r) (so_buffer_mem r) (so_standby r) (so_echo_reference r) (so_write_threshold r).
Definition set_so_config v r := StreamOut (so_lock r) v (so_multi_config r) (so_pcm r) (so_multi_pcm r) (so_resampler r) (so_multi_resampler r) (so_buffer r) (so_buffer_mem r) (so_standby r) (so_echo_reference r) (so_write_threshold r).
Definition set_so_multi_config v r := StreamOut (so_lock r) (so_config r) v (so_pcm r) (so_multi_pcm r) (so_resampler r) (so_multi_resampler r) (so_buffer r) (so_buffer_mem r) (so_standby r) (so_echo_reference r) (so_write_threshold r).
Definition set_so_pcm v r := StreamOut (so_lock r) (so_config r) (so_multi_config r) v (so_multi_pcm r) (so_resampler r) (so_multi_resampler r) (so_buffer r) (so_buffer_mem r) (so_standby r) (so_echo_reference r) (so_write_threshold r).
Definition set_so_multi_pcm v r := StreamOut (so_lock r) (so_config r) (so_multi_config r) (so_pcm r) v (so_resampler r) (so_multi_resampler r) (so_buffer r) (so_buffer_mem r) (so_standby r) (so_echo_reference r) (so_write_threshold r).
Definition set_so_resampler v r := StreamOut (so_lock r) (so_config r) (so_multi_config r) (so_pcm r) (so_multi_pcm r) v (so_multi_resampler r) (so_buffer r) (so_buffer_mem r) (so_standby r) (so_echo_reference r) (so_write_threshold r).
Definition set_so_multi_resampler v r := StreamOut (so_lock r) (so_config r) (so_multi_config r) (so_pcm r) (so_multi_pcm r) (so_resampler r) v (so_buffer r) (so_buffer_mem r) (so_standby r) (so_echo_reference r) (so_write_threshold r).
Definition set_so_buffer v r := StreamOut (so_lock r) (so_config r) (so_multi_config r) (so_pcm r) (so_multi_pcm r) (so_resampler r) (so_multi_resampler r) v (so_buffer_mem r) (so_standby r) (so_echo_reference r) (so_write_threshold r).
Definition set_so_buffer_mem v r := StreamOut (so_lock r) (so_config r) (so_multi_config r) (so_pcm r) (so_multi_pcm r) (so_resampler r) (so_multi_resampler r) (so_buffer r) v (so_standby r) (so_echo_reference r) (so_write_threshold r).
Definition set_so_standby v r := StreamOut (so_lock r) (so_config r) (so_multi_config r) (so_pcm r) (so_multi_pcm r) (so_resampler r) (so_multi_resampler r) (so_buffer r) (so_buffer_mem r) v (so_echo_reference r) (so_write_threshold r).
Definition set_so_echo_reference v r := StreamOut (so_lock r) (so_config r) (so_multi_config r) (so_pcm r) (so_multi_pcm r) (so_resampler r) (so_multi_resampler r) (so_buffer r) (so_buffer_mem r) (so_standby r) v (so_write_threshold r).
Definition set_so_write_threshold v r := StreamOut (so_lock r) (so_config r) (so_multi_config r) (so_pcm r) (so_multi_pcm r) (so_resampler r) (so_multi_resampler r) (so_buffer r) (so_buffer_mem r) (so_standby r) (so_echo_reference r) v.

(** [struct sunxi_stream_in]. *)
Record sunxi_stream_in := StreamIn {
  si_lock : bool;
  si_config : pcm_config;
  si_pcm : Z;
  si_device : Z;
  si_resampler : Z;
  si_buffer : Z;
  si_buffer_mem : bytes;
  si_frames_in : Z;
  si_requested_rate : Z;
  si_standby : bool;
  si_source : Z;
  si_echo_reference : Z;
  si_need_echo_reference : bool;
  si_preprocessors : list Z;  (* the first num_preprocessors *)
  si_read_status : Z;
}.
Definition set_si_lock v r := StreamIn v (si_config r) (si_pcm r) (si_device r) (si_resampler r) (si_buffer r) (si_buffer_mem r) (si_frames_in r) (si_requested_rate r) (si_standby r) (si_source r) (si_echo_reference r) (si_need_echo_reference r) (si_preprocessors r) (si_read_status r).
Definition set_si_config v r := StreamIn (si_lock r) v (si_pcm r) (si_device r) (si_resampler r) (si_buffer r) (si_buffer_mem r) (si_frames_in r) (si_requested_rate r) (si_standby r) (si_source r) (si_echo_reference r) (si_need_echo_reference r) (si_preprocessors r) (si_read_status r).
Definition set_si_pcm v r := StreamIn (si_lock r) (si_config r) v (si_device r) (si_resampler r) (si_buffer r) (si_buffer_mem r) (si_frames_in r) (si_requested_rate r) (si_standby r) (si_source r) (si_echo_reference r) (si_need_echo_reference r) (si_preprocessors r) (si_read_status r).
Definition set_si_device v r := StreamIn (si_lock r) (si_config r) (si_pcm r) v (si_resampler r) (si_buffer r) (si_buffer_mem r) (si_frames_in r) (si_requested_rate r) (si_standby r) (si_source r) (si_echo_reference r) (si_need_echo_reference r) (si_preprocessors r) (si_read_status r).
Definition set_si_resampler v r := StreamIn (si_lock r) (si_config r) (si_pcm r) (si_device r) v (si_buffer r) (si_buffer_mem r) (si_frames_in r) (si_requested_rate r) (si_standby r) (si_source r) (si_echo_reference r) (si_need_echo_reference r) (si_preprocessors r) (si_read_status r).
Definition set_si_buffer v r := StreamIn (si_lock r) (si_config r) (si_pcm r) (si_device r) (si_resampler r) v (si_buffer_mem r) (si_frames_in r) (si_requested_rate r) (si_standby r) (si_source r) (si_echo_reference r) (si_need_echo_reference r) (si_preprocessors r) (si_read_status r).
Definition set_si_buffer_mem v r := StreamIn (si_lock r) (si_config r) (si_pcm r) (si_device r) (si_resampler r) (si_buffer r) v (si_frames_in r) (si_requested_rate r) (si_standby r) (si_source r) (si_echo_reference r) (si_need_echo_reference r) (si_preprocessors r) (si_read_status r).
Definition set_si_frames_in v r := StreamIn (si_lock r) (si_config r) (si_pcm r) (si_device r) (si_resampler r) (si_buffer r) (si_buffer_mem r) v (si_requested_rate r) (si_standby r) (si_source r) (si_echo_reference r) (si_need_echo_reference r) (si_preprocessors r) (si_read_status r).
Definition set_si_requested_rate v r := StreamIn (si_lock r) (si_config r) (si_pcm r) (si_device r) (si_resampler r) (si_buffer r) (si_buffer_mem r) (si_frames_in r) v (si_standby r) (si_source r) (si_echo_reference r) (si_need_echo_reference r) (si_preprocessors r) (si_read_status r).
Definition set_si_standby v r := StreamIn (si_lock r) (si_config r) (si_pcm r) (si_device r) (si_resampler r) (si_buffer r) (si_buffer_mem r) (si_frames_in r) (si_requested_rate r) v (si_source r) (si_echo_reference r) (si_need_echo_reference r) (si_preprocessors r) (si_read_status r).
Definition set_si_source v r := StreamIn (si_lock r) (si_config r) (si_pcm r) (si_device r) (si_resampler r) (si_buffer r) (si_buffer_mem r) (si_frames_in r) (si_requested_rate r) (si_standby r) v (si_echo_reference r) (si_need_echo_reference r) (si_preprocessors r) (si_read_status r).
Definition set_si_echo_reference v r := StreamIn (si_lock r) (si_config r) (si_pcm r) (si_device r) (si_resampler r) (si_buffer r) (si_buffer_mem r) (si_frames_in r) (si_requested_rate r) (si_standby r) (si_source r) v (si_need_echo_reference r) (si_preprocessors r) (si_read_status r).
Definition set_si_need_echo_reference v r := StreamIn (si_lock r) (si_config r) (si_pcm r) (si_device r) (si_resampler r) (si_buffer r) (si_buffer_mem r) (si_frames_in r) (si_requested_rate r) (si_standby r) (si_source r) (si_echo_reference r) v (si_preprocessors r) (si_read_status r).
Definition set_si_preprocessors v r := StreamIn (si_lock r) (si_config r) (si_pcm r) (si_device r) (si_resampler r) (si_buffer r) (si_buffer_mem r) (si_frames_in r) (si_requested_rate r) (si_standby r) (si_source r) (si_echo_reference r) (si_need_echo_reference r) v (si_read_status r).
Definition set_si_read_status v r := StreamIn (si_lock r) (si_config r) (si_pcm r) (si_device r) (si_resampler r) (si_buffer r) (si_buffer_mem r) (si_frames_in r) (si_requested_rate r) (si_standby r) (si_source r) (si_echo_reference r) (si_need_echo_reference r) (si_preprocessors r) v.

(** [struct sunxi_audio_device]. *)
Record sunxi_audio_device := AudioDevice {
  ad_lock : bool;
  ad_mixer : Z;
  ad_mode : Z;
  ad_out_device : Z;
  ad_in_device : Z;
  ad_in_call : Z;
  ad_voice_volume : Z;  (* as the level it stands for *)
  ad_active_input : Z;
  ad_active_output : Z;
  ad_mic_mute : bool;
  ad_tty_mode : Z;
  ad_echo_reference : Z;
  ad_bluetooth_nrec : bool;
  ad_raw_enable : Z;
  ad_raw_samplerate : Z;
  ad_raw_mode : Z;
  ad_raw_flag : bool;
  ad_bluetooth_voice : bool;
  ad_af_capture_flag : bool;
  ad_PcmManager : pcm_buf_manager;
  ad_dev_manager : list sunxi_audio_device_manager;  (* [16] *)
  ad_in_devices : bytes;
  ad_out_devices : bytes;
  ad_first_set_audio_routing : bool;
  ad_ar : Z;
}.
Definition set_ad_lock v r := AudioDevice v (ad_mixer r) (ad_mode r) (ad_out_device r) (ad_in_device r) (ad_in_call r) (ad_voice_volume r) (ad_active_input r) (ad_active_output r) (ad_mic_mute r) (ad_tty_mode r) (ad_echo_reference r) (ad_bluetooth_nrec r) (ad_raw_enable r) (ad_raw_samplerate r) (ad_raw_mode r) (ad_raw_flag r) (ad_bluetooth_voice r) (ad_af_capture_flag r) (ad_PcmManager r) (ad_dev_manager r) (ad_in_devices r) (ad_out_devices r) (ad_first_set_audio_routing r) (ad_ar r).
Definition set_ad_mixer v r := AudioDevice (ad_lock r) v (ad_mode r) (ad_out_device r) (ad_in_device r) (ad_in_call r) (ad_voice_volume r) (ad_active_input r) (ad_active_output r) (ad_mic_mute r) (ad_tty_mode r) (ad_echo_reference r) (ad_bluetooth_nrec r) (ad_raw_enable r) (ad_raw_samplerate r) (ad_raw_mode r) (ad_raw_flag r) (ad_bluetooth_voice r) (ad_af_capture_flag r) (ad_PcmManager r) (ad_dev_manager r) (ad_in_devices r) (ad_out_devices r) (ad_first_set_audio_routing r) (ad_ar r).
Definition set_ad_mode v r := AudioDevice (ad_lock r) (ad_mixer r) v (ad_out_device r) (ad_in_device r) (ad_in_call r) (ad_voice_volume r) (ad_active_input r) (ad_active_output r) (ad_mic_mute r) (ad_tty_mode r) (ad_echo_reference r) (ad_bluetooth_nrec r) (ad_raw_enable r) (ad_raw_samplerate r) (ad_raw_mode r) (ad_raw_flag r) (ad_bluetooth_voice r) (ad_af_capture_flag r) (ad_PcmManager r) (ad_dev_manager r) (ad_in_devices r) (ad_out_devices r) (ad_first_set_audio_routing r) (ad_ar r).
Definition set_ad_out_device v r := AudioDevice (ad_lock r) (ad_mixer r) (ad_mode r) v (ad_in_device r) (ad_in_call r) (ad_voice_volume r) (ad_active_input r) (ad_active_output r) (ad_mic_mute r) (ad_tty_mode r) (ad_echo_reference r) (ad_bluetooth_nrec r) (ad_raw_enable r) (ad_raw_samplerate r) (ad_raw_mode r) (ad_raw_flag r) (ad_bluetooth_voice r) (ad_af_capture_flag r) (ad_PcmManager r) (ad_dev_manager r) (ad_in_devices r) (ad_out_devices r) (ad_first_set_audio_routing r) (ad_ar r).
Definition set_ad_in_device v r := AudioDevice (ad_lock r) (ad_mixer r) (ad_mode r) (ad_out_device r) v (ad_in_call r) (ad_voice_volume r) (ad_active_input r) (ad_active_output r) (ad_mic_mute r) (ad_tty_mode r) (ad_echo_reference r) (ad_bluetooth_nrec r) (ad_raw_enable r) (ad_raw_samplerate r) (ad_raw_mode r) (ad_raw_flag r) (ad_bluetooth_voice r) (ad_af_capture_flag r) (ad_PcmManager r) (ad_dev_manager r) (ad_in_devices r) (ad_out_devices r) (ad_first_set_audio_routing r) (ad_ar r).
Definition set_ad_in_call v r := AudioDevice (ad_lock r) (ad_mixer r) (ad_mode r) (ad_out_device r) (ad_in_device r) v (ad_voice_volume r) (ad_active_input r) (ad_active_output r) (ad_mic_mute r) (ad_tty_mode r) (ad_echo_reference r) (ad_bluetooth_nrec r) (ad_raw_enable r) (ad_raw_samplerate r) (ad_raw_mode r) (ad_raw_flag r) (ad_bluetooth_voice r) (ad_af_capture_flag r) (ad_PcmManager r) (ad_dev_manager r) (ad_in_devices r) (ad_out_devices r) (ad_first_set_audio_routing r) (ad_ar r).
Definition set_ad_voice_volume v r := AudioDevice (ad_lock r) (ad_mixer r) (ad_mode r) (ad_out_device r) (ad_in_device r) (ad_in_call r) v (ad_active_input r) (ad_active_output r) (ad_mic_mute r) (ad_tty_mode r) (ad_echo_reference r) (ad_bluetooth_nrec r) (ad_raw_enable r) (ad_raw_samplerate r) (ad_raw_mode r) (ad_raw_flag r) (ad_bluetooth_voice r) (ad_af_capture_flag r) (ad_PcmManager r) (ad_dev_manager r) (ad_in_devices r) (ad_out_devices r) (ad_first_set_audio_routing r) (ad_ar r).
Definition set_ad_active_input v r := AudioDevice (ad_lock r) (ad_mixer r) (ad_mode r) (ad_out_device r) (ad_in_device r) (ad_in_call r) (ad_voice_volume r) v (ad_active_output r) (ad_mic_mute r) (ad_tty_mode r) (ad_echo_reference r) (ad_bluetooth_nrec r) (ad_raw_enable r) (ad_raw_samplerate r) (ad_raw_mode r) (ad_raw_flag r) (ad_bluetooth_voice r) (ad_af_capture_flag r) (ad_PcmManager r) (ad_dev_manager r) (ad_in_devices r) (ad_out_devices r) (ad_first_set_audio_routing r) (ad_ar r).
Definition set_ad_active_output v r := AudioDevice (ad_lock r) (ad_mixer r) (ad_mode r) (ad_out_device r) (ad_in_device r) (ad_in_call r) (ad_voice_volume r) (ad_active_input r) v (ad_mic_mute r) (ad_tty_mode r) (ad_echo_reference r) (ad_bluetooth_nrec r) (ad_raw_enable r) (ad_raw_samplerate r) (ad_raw_mode r) (ad_raw_flag r) (ad_bluetooth_voice r) (ad_af_capture_flag r) (ad_PcmManager r) (ad_dev_manager r) (ad_in_devices r) (ad_out_devices r) (ad_first_set_audio_routing r) (ad_ar r).
Definition set_ad_mic_mute v r := AudioDevice (ad_lock r) (ad_mixer r) (ad_mode r) (ad_out_device r) (ad_in_device r) (ad_in_call r) (ad_voice_volume r) (ad_active_input r) (ad_active_output r) v (ad_tty_mode r) (ad_echo_reference r) (ad_bluetooth_nrec r) (ad_raw_enable r) (ad_raw_samplerate r) (ad_raw_mode r) (ad_raw_flag r) (ad_bluetooth_voice r) (ad_af_capture_flag r) (ad_PcmManager r) (ad_dev_manager r) (ad_in_devices r) (ad_out_devices r) (ad_first_set_audio_routing r) (ad_ar r).
Definition set_ad_tty_mode v r := AudioDevice (ad_lock r) (ad_mixer r) (ad_mode r) (ad_out_device r) (ad_in_device r) (ad_in_call r) (ad_voice_volume r) (ad_active_input r) (ad_active_output r) (ad_mic_mute r) v (ad_echo_reference r) (ad_bluetooth_nrec r) (ad_raw_enable r) (ad_raw_samplerate r) (ad_raw_mode r) (ad_raw_flag r) (ad_bluetooth_voice r) (ad_af_capture_flag r) (ad_PcmManager r) (ad_dev_manager r) (ad_in_devices r) (ad_out_devices r) (ad_first_set_audio_routing r) (ad_ar r).
Definition set_ad_echo_reference v r := AudioDevice (ad_lock r) (ad_mixer r) (ad_mode r) (ad_out_device r) (ad_in_device r) (ad_in_call r) (ad_voice_volume r) (ad_active_input r) (ad_active_output r) (ad_mic_mute r) (ad_tty_mode r) v (ad_bluetooth_nrec r) (ad_raw_enable r) (ad_raw_samplerate r) (ad_raw_mode r) (ad_raw_flag r) (ad_bluetooth_voice r) (ad_af_capture_flag r) (ad_PcmManager r) (ad_dev_manager r) (ad_in_devices r) (ad_out_devices r) (ad_first_set_audio_routing r) (ad_ar r).
Definition set_ad_bluetooth_nrec v r := AudioDevice (ad_lock r) (ad_mixer r) (ad_mode r) (ad_out_device r) (ad_in_device r) (ad_in_call r) (ad_voice_volume r) (ad_active_input r) (ad_active_output r) (ad_mic_mute r) (ad_tty_mode r) (ad_echo_reference r) v (ad_raw_enable r) (ad_raw_samplerate r) (ad_raw_mode r) (ad_raw_flag r) (ad_bluetooth_voice r) (ad_af_capture_flag r) (ad_PcmManager r) (ad_dev_manager r) (ad_in_devices r) (ad_out_devices r) (ad_first_set_audio_routing r) (ad_ar r).
Definition set_ad_raw_enable v r := AudioDevice (ad_lock r) (ad_mixer r) (ad_mode r) (ad_out_device r) (ad_in_device r) (ad_in_call r) (ad_voice_volume r) (ad_active_input r) (ad_active_output r) (ad_mic_mute r) (ad_tty_mode r) (ad_echo_reference r) (ad_bluetooth_nrec r) v (ad_raw_samplerate r) (ad_raw_mode r) (ad_raw_flag r) (ad_bluetooth_voice r) (ad_af_capture_flag r) (ad_PcmManager r) (ad_dev_manager r) (ad_in_devices r) (ad_out_devices r) (ad_first_set_audio_routing r) (ad_ar r).
Definition set_ad_raw_samplerate v r := AudioDevice (ad_lock r) (ad_mixer r) (ad_mode r) (ad_out_device r) (ad_in_device r) (ad_in_call r) (ad_voice_volume r) (ad_active_input r) (ad_active_output r) (ad_mic_mute r) (ad_tty_mode r) (ad_echo_reference r) (ad_bluetooth_nrec r) (ad_raw_enable r) v (ad_raw_mode r) (ad_raw_flag r) (ad_bluetooth_voice r) (ad_af_capture_flag r) (ad_PcmManager r) (ad_dev_manager r) (ad_in_devices r) (ad_out_devices r) (ad_first_set_audio_routing r) (ad_ar r).
Definition set_ad_raw_mode v r := AudioDevice (ad_lock r) (ad_mixer r) (ad_mode r) (ad_out_device r) (ad_in_device r) (ad_in_call r) (ad_voice_volume r) (ad_active_input r) (ad_active_output r) (ad_mic_mute r) (ad_tty_mode r) (ad_echo_reference r) (ad_bluetooth_nrec r) (ad_raw_enable r) (ad_raw_samplerate r) v (ad_raw_flag r) (ad_bluetooth_voice r) (ad_af_capture_flag r) (ad_PcmManager r) (ad_dev_manager r) (ad_in_devices r) (ad_out_devices r) (ad_first_set_audio_routing r) (ad_ar r).
Definition set_ad_raw_flag v r := AudioDevice (ad_lock r) (ad_mixer r) (ad_mode r) (ad_out_device r) (ad_in_device r) (ad_in_call r) (ad_voice_volume r) (ad_active_input r) (ad_active_output r) (ad_mic_mute r) (ad_tty_mode r) (ad_echo_reference r) (ad_bluetooth_nrec r) (ad_raw_enable r) (ad_raw_samplerate r) (ad_raw_mode r) v (ad_bluetooth_voice r) (ad_af_capture_flag r) (ad_PcmManager r) (ad_dev_manager r) (ad_in_devices r) (ad_out_devices r) (ad_first_set_audio_routing r) (ad_ar r).
Definition set_ad_bluetooth_voice v r := AudioDevice (ad_lock r) (ad_mixer r) (ad_mode r) (ad_out_device r) (ad_in_device r) (ad_in_call r) (ad_voice_volume r) (ad_active_input r) (ad_active_output r) (ad_mic_mute r) (ad_tty_mode r) (ad_echo_reference r) (ad_bluetooth_nrec r) (ad_raw_enable r) (ad_raw_samplerate r) (ad_raw_mode r) (ad_raw_flag r) v (ad_af_capture_flag r) (ad_PcmManager r) (ad_dev_manager r) (ad_in_devices r) (ad_out_devices r) (ad_first_set_audio_routing r) (ad_ar r).
Definition set_ad_af_capture_flag v r := AudioDevice (ad_lock r) (ad_mixer r) (ad_mode r) (ad_out_device r) (ad_in_device r) (ad_in_call r) (ad_voice_volume r) (ad_active_input r) (ad_active_output r) (ad_mic_mute r) (ad_tty_mode r) (ad_echo_reference r) (ad_bluetooth_nrec r) (ad_raw_enable r) (ad_raw_samplerate r) (ad_raw_mode r) (ad_raw_flag r) (ad_bluetooth_voice r) v (ad_PcmManager r) (ad_dev_manager r) (ad_in_devices r) (ad_out_devices r) (ad_first_set_audio_routing r) (ad_ar r).
Definition set_ad_PcmManager v r := AudioDevice (ad_lock r) (ad_mixer r) (ad_mode r) (ad_out_device r) (ad_in_device r) (ad_in_call r) (ad_voice_volume r) (ad_active_input r) (ad_active_output r) (ad_mic_mute r) (ad_tty_mode r) (ad_echo_reference r) (ad_bluetooth_nrec r) (ad_raw_enable r) (ad_raw_samplerate r) (ad_raw_mode r) (ad_raw_flag r) (ad_bluetooth_voice r) (ad_af_capture_flag r) v (ad_dev_manager r) (ad_in_devices r) (ad_out_devices r) (ad_first_set_audio_routing r) (ad_ar r).
Definition set_ad_dev_manager v r := AudioDevice (ad_lock r) (ad_mixer r) (ad_mode r) (ad_out_device r) (ad_in_device r) (ad_in_call r) (ad_voice_volume r) (ad_active_input r) (ad_active_output r) (ad_mic_mute r) (ad_tty_mode r) (ad_echo_reference r) (ad_bluetooth_nrec r) (ad_raw_enable r) (ad_raw_samplerate r) (ad_raw_mode r) (ad_raw_flag r) (ad_bluetooth_voice r) (ad_af_capture_flag r) (ad_PcmManager r) v (ad_in_devices r) (ad_out_devices r) (ad_first_set_audio_routing r) (ad_ar r).
Definition set_ad_in_devices v r := AudioDevice (ad_lock r) (ad_mixer r) (ad_mode r) (ad_out_device r) (ad_in_device r) (ad_in_call r) (ad_voice_volume r) (ad_active_input r) (ad_active_output r) (ad_mic_mute r) (ad_tty_mode r) (ad_echo_reference r) (ad_bluetooth_nrec r) (ad_raw_enable r) (ad_raw_samplerate r) (ad_raw_mode r) (ad_raw_flag r) (ad_bluetooth_voice r) (ad_af_capture_flag r) (ad_PcmManager r) (ad_dev_manager r) v (ad_out_devices r) (ad_first_set_audio_routing r) (ad_ar r).
Definition set_ad_out_devices v r := AudioDevice (ad_lock r) (ad_mixer r) (ad_mode r) (ad_out_device r) (ad_in_device r) (ad_in_call r) (ad_voice_volume r) (ad_active_input r) (ad_active_output r) (ad_mic_mute r) (ad_tty_mode r) (ad_echo_reference r) (ad_bluetooth_nrec r) (ad_raw_enable r) (ad_raw_samplerate r) (ad_raw_mode r) (ad_raw_flag r) (ad_bluetooth_voice r) (ad_af_capture_flag r) (ad_PcmManager r) (ad_dev_manager r) (ad_in_devices r) v (ad_first_set_audio_routing r) (ad_ar r).
Definition set_ad_first_set_audio_routing v r := AudioDevice (ad_lock r) (ad_mixer r) (ad_mode r) (ad_out_device r) (ad_in_device r) (ad_in_call r) (ad_voice_volume r) (ad_active_input r) (ad_active_output r) (ad_mic_mute r) (ad_tty_mode r) (ad_echo_reference r) (ad_bluetooth_nrec r) (ad_raw_enable r) (ad_raw_samplerate r) (ad_raw_mode r) (ad_raw_flag r) (ad_bluetooth_voice r) (ad_af_capture_flag r) (ad_PcmManager r) (ad_dev_manager r) (ad_in_devices r) (ad_out_devices r) v (ad_ar r).
Definition set_ad_ar v r := AudioDevice (ad_lock r) (ad_mixer r) (ad_mode r) (ad_out_device r) (ad_in_device r) (ad_in_call r) (ad_voice_volume r) (ad_active_input r) (ad_active_output r) (ad_mic_mute r) (ad_tty_mode r) (ad_echo_reference r) (ad_bluetooth_nrec r) (ad_raw_enable r) (ad_raw_samplerate r) (ad_raw_mode r) (ad_raw_flag r) (ad_bluetooth_voice r) (ad_af_capture_flag r) (ad_PcmManager r) (ad_dev_manager r) (ad_in_devices r) (ad_out_devices r) (ad_first_set_audio_routing r) v.

(** The state of the HAL: it opens one device. *)
Record hal_g := HalG {
  h_iface : iface_g;
  h_names : list (bytes * bytes);  (* static audio_name_map *)
  h_adev : Z;  (* the address of the device, 0 while none is open *)
  h_dev : sunxi_audio_device;
  h_outs : gmap Z sunxi_stream_out;
  h_ins : gmap Z sunxi_stream_in;
}.
Definition set_h_iface v r := HalG v (h_names r) (h_adev r) (h_dev r) (h_outs r) (h_ins r).
Definition set_h_names v r := HalG (h_iface r) v (h_adev r) (h_dev r) (h_outs r) (h_ins r).
Definition set_h_adev v r := HalG (h_iface r) (h_names r) v (h_dev r) (h_outs r) (h_ins r).
Definition set_h_dev v r := HalG (h_iface r) (h_names r) (h_adev r) v (h_outs r) (h_ins r).
Definition set_h_outs v r := HalG (h_iface r) (h_names r) (h_adev r) (h_dev r) v (h_ins r).
Definition set_h_ins v r := HalG (h_iface r) (h_names r) (h_adev r) (h_dev r) (h_outs r) v.

(** [calloc]. *)
Definition out_zero : sunxi_stream_out :=
  StreamOut false config_zero (replicate 16 config_zero) 0 (replicate 16 0) 0 (replicate 16 0) 0 [] false 0 0.
Definition in_zero : sunxi_stream_in :=
  StreamIn false config_zero 0 0 0 0 [] 0 0 false 0 0 false [] 0.
Definition ring_zero : pcm_buf_manager := PcmBuf false 0 [] 0 0 0 0 0 0 0.
Definition adev_zero : sunxi_audio_device :=
  AudioDevice false 0 0 0 0 0 0 0 0 false 0 0 false 0 0 0 false false false ring_zero
    (replicate 16 dev_zero) [] [] false 0.
Definition hal_initial : hal_g := HalG iface_initial name_map_initial 0 adev_zero ∅ ∅.

(** ** The libraries *)

(** [struct echo_reference_buffer]: the samples, or where they go, and the times. *)
Record echo_buffer := EchoBuffer { eb_raw : bytes; eb_frames : Z; eb_time : Z * Z; eb_delay_ns : Z }.

(** What a resampler does with the buffers of its provider, step by step: it
    asks for frames ([get_next_buffer]: status, frames and samples come back),
    gives them back ([release_buffer]), and ends with the samples and the number
    of frames it made. *)
Inductive rs_prog (W : Type) :=
| RsNext (frames : Z) (k : Z -> Z -> option bytes -> W -> rs_prog W)
| RsRelease (frames : Z) (k : rs_prog W)
| RsDone (out : bytes) (frames : Z) (w : W).
Arguments RsNext {W}.
Arguments RsRelease {W}.
Arguments RsDone {W}.

Class HalLibs (W : Type) := {
  (* tinyalsa *)
  ta_open : Z -> Z -> Z -> pcm_config -> W -> Z * W;                 (* card, device, flags *)
  ta_open_req : Z -> Z -> Z -> pcm_config -> Z -> W -> Z * pcm_config * W;   (* and a rate *)
  ta_is_ready : Z -> W -> bool;
  ta_close : Z -> W -> W;
  ta_write : Z -> bytes -> W -> Z * W;
  ta_read : Z -> bytes -> W -> Z * bytes * W;                        (* the buffer after *)
  ta_set_avail_min : Z -> Z -> W -> W;
  ta_htimestamp : Z -> W -> Z * Z * (Z * Z);                         (* status, frames, time *)
  ta_buffer_size : Z -> W -> Z;
  ta_params_get : Z -> W -> Z * W;                                   (* card; 0 for NULL *)
  ta_params_rate : Z -> W -> Z * Z;                                  (* minimum, maximum *)
  ta_params_channels : Z -> W -> Z * Z;
  ta_params_free : Z -> W -> W;
  ta_mixer_open : Z -> W -> Z * W;
  ta_mixer_close : Z -> W -> W;
  (* audio_utils *)
  rs_create : Z -> Z -> Z -> W -> Z * Z * W;             (* rates, channels; result, resampler *)
  rs_release : Z -> W -> W;
  rs_reset : Z -> W -> W;
  rs_from_input : Z -> bytes -> Z -> Z -> W -> bytes * Z * Z * W;   (* frames in, room; out, frames in, out *)
  rs_from_provider : Z -> Z -> W -> rs_prog W;
  er_create : Z -> Z -> Z -> Z -> W -> Z * Z * W;        (* read channels, rate; write channels, rate *)
  er_release : Z -> W -> W;
  er_write : Z -> option echo_buffer -> W -> W;
  er_read : Z -> option echo_buffer -> W -> W;
  (* effects: the result, and whether the effect cancels echo *)
  fx_descriptor : Z -> W -> Z * bool;
  (* audio_route *)
  ar_init : W -> Z * W;
  ar_free : Z -> W -> W;
  ar_reset : Z -> W -> W;
  ar_apply_path : Z -> string -> W -> W;
  ar_update_mixer : Z -> W -> W;
  (* libcutils: the result and the value, cut to its array *)
  parms_get : bytes -> string -> Z -> W -> Z * bytes;
  (* the system *)
  hal_usleep : Z -> W -> W;
  raw_create : string -> W -> Z * W;                     (* open (O_WRONLY | O_CREAT), and chmod *)
}.
