(* ===== verification/AudHw.v ===== *)
(** * audio HAL: routing, modes and the playback stream

    [audio_hw.c]: the device's modes and routes, the parameters, the playback
    stream from start to standby, [audio_raw.c], and the echo reference.  A
    mutex is a flag of its object: to lock one that is held never returns.  The
    calls run one after the other; the one place where two streams work on the
    same data without the device's mutex is in [AudRing.v]. *)

From stdpp Require Import strings.
From S2P Require Import Prelude CLib Os Snd Mixer Pcm Codec VolumeConf CodecClient AudBp AudIface.
From S2P Require Import AudRing AudDevices AudEnv.

Section Hw.
Context {W : Type} `{OsOps W, MixOps W, PropOps W, FileOps W, SystemOps W, PropSetOps W, HalLibs W}.
Context `{HalConsts}.
Abbreviation S := (mach W hal_g).

(** ** The parts of the state *)

Definition in_iface {A} (m : M (mach W iface_g) A) : M S A := zoom h_iface set_h_iface m.
Definition devs_of (g : hal_g) : dev_g :=
  let d := h_dev g in
  DevG (ad_dev_manager d) (ad_in_devices d) (ad_out_devices d) (ad_out_device d) (ad_in_device d) (h_names g).
Definition put_devs (v : dev_g) (g : hal_g) : hal_g :=
  let d := set_ad_dev_manager (dev_manager v) (h_dev g) in
  let d := set_ad_in_devices (in_devices v) (set_ad_out_devices (out_devices v) d) in
  let d := set_ad_out_device (dv_out_device v) (set_ad_in_device (dv_in_device v) d) in
  set_h_names (audio_name_map v) (set_h_dev d g).
Definition in_devs {A} (m : M (mach W dev_g) A) : M S A := zoom devs_of put_devs m.

Definition get_dev {A} (f : sunxi_audio_device -> A) : M S A := get_glob (fun g => f (h_dev g)).
Definition put_dev (f : sunxi_audio_device -> sunxi_audio_device) : M S unit :=
  set_glob (fun g => set_h_dev (f (h_dev g)) g).
Definition the_out (out : Z) : M S sunxi_stream_out := let* m := get_glob h_outs in checked (m !! out).
Definition put_out (out : Z) (f : sunxi_stream_out -> sunxi_stream_out) : M S unit :=
  let* v := the_out out in set_glob (fun g => set_h_outs (<[out := f v]> (h_outs g)) g).
Definition the_in (inn : Z) : M S sunxi_stream_in := let* m := get_glob h_ins in checked (m !! inn).
Definition put_in (inn : Z) (f : sunxi_stream_in -> sunxi_stream_in) : M S unit :=
  let* v := the_in inn in set_glob (fun g => set_h_ins (<[inn := f v]> (h_ins g)) g).

(** [pthread_mutex_lock] and [_unlock]. *)
Definition lock_dev : M S unit :=
  let* held := get_dev ad_lock in if held : bool then blocked else put_dev (set_ad_lock true).
Definition unlock_dev : M S unit := put_dev (set_ad_lock false).
Definition lock_out (out : Z) : M S unit :=
  let* o := the_out out in if so_lock o then blocked else put_out out (set_so_lock true).
Definition unlock_out (out : Z) : M S unit := put_out out (set_so_lock false).
Definition lock_in (inn : Z) : M S unit :=
  let* i := the_in inn in if si_lock i then blocked else put_in inn (set_si_lock true).
Definition unlock_in (inn : Z) : M S unit := put_in inn (set_si_lock false).

(** [malloc] gives no address of an object that is still there. *)
Definition new_address {A} (p : Z) (m : gmap Z A) : M S unit :=
  match m !! p with Some _ => undef | None => ret tt end.

(** A call of tinyalsa on a stream: NULL is none. *)
Definition ta_handle (p : Z) : M S unit := if p =? 0 then undef else ret tt.

(** [AUDIO_MODE_IN_CALL || AUDIO_MODE_MODE_FACTORY_TEST || AUDIO_MODE_FM]. *)
Definition call_mode (mode : Z) : bool :=
  (mode =? AUDIO_MODE_IN_CALL) || (mode =? AUDIO_MODE_MODE_FACTORY_TEST) || (mode =? AUDIO_MODE_FM).

(** ** audio_raw.c *)

Definition NODE_AUDIO_RAW : string := "/data/audio/audio_raw".
Definition SIZEOF_RAW_INFO : Z := 12.
Definition raw_bytes (i : RAW_INFO) : bytes :=
  le_put 4 (raw_enable i) ++ le_put 4 (raw_mode i) ++ le_put 4 (sample_rate i).
Definition raw_of_bytes (b : bytes) : RAW_INFO :=
  RawInfo (s32 (get_u32 b 0)) (s32 (get_u32 b 4)) (s32 (get_u32 b 8)).

(** [*raw_info] goes in and comes out. *)
Definition read_node_value (path : string) (raw_info : RAW_INFO) : M S (Z * RAW_INFO) :=
  let* fd := c_open path in
  if 0 <=? fd then
    let* '(_, b) := c_read fd (raw_bytes raw_info) 0 SIZEOF_RAW_INFO in
    c_close fd ;;; ret (0, raw_of_bytes b)
  else ret (-1, raw_info).
Definition create_node : M S Z := fun s =>
  let '(fd, w) := raw_create NODE_AUDIO_RAW (world s) in
  Done fd (Mach w (heap_live s) (if fd <? 0 then fds_live s else fds_live s + 1) (glob s)).
Definition write_node_value (raw_info : RAW_INFO) : M S Z :=
  let* fd := create_node in
  if 0 <=? fd then
    c_write fd (raw_bytes raw_info) 0 SIZEOF_RAW_INFO ;;; c_close fd ;;; ret 0
  else ret (-1).
Definition detectRaw : M S RAW_INFO :=
  let raw_info := RawInfo 0 RAW_PCM 44100 in
  let* '(r, raw_info) := read_node_value NODE_AUDIO_RAW raw_info in
  if r =? 0 then ret raw_info else write_node_value raw_info ;;; ret raw_info.

(** ** The echo reference *)

Definition remove_echo_reference (out reference : Z) : M S unit :=
  lock_out out ;;;
  let* o := the_out out in
  (if so_echo_reference o =? reference then
     step_world (er_write reference None) ;;; put_out out (set_so_echo_reference 0)
   else ret tt) ;;;
  unlock_out out.
Definition add_echo_reference (out reference : Z) : M S unit :=
  lock_out out ;;; put_out out (set_so_echo_reference reference) ;;; unlock_out out.

Definition put_echo_reference (reference : Z) : M S unit :=
  let* er := get_dev ad_echo_reference in
  if negb (er =? 0) && (reference =? er) then
    let* out := get_dev ad_active_output in
    (if out =? 0 then ret tt else remove_echo_reference out reference) ;;;
    step_world (er_release reference) ;;; put_dev (set_ad_echo_reference 0)
  else ret tt.

(** [AUDIO_CHANNEL_OUT_STEREO] has two channels, the output is 44.1 kHz. *)
Definition get_echo_reference (channel_count sampling_rate : Z) : M S Z :=
  let* er := get_dev ad_echo_reference in
  put_echo_reference er ;;;
  let* out := get_dev ad_active_output in
  (if out =? 0 then ret tt
   else
     let* '(status, er) := on_world (er_create channel_count sampling_rate 2 DEFAULT_OUT_SAMPLING_RATE) in
     put_dev (set_ad_echo_reference er) ;;;
     if status =? 0 then add_echo_reference out er else ret tt) ;;;
  get_dev ad_echo_reference.

(** ** Routes *)

(** The path of a call in [set_incall_device] and [set_bp_volume]. *)
Definition ril_path (out_device : Z) : Z :=
  if out_device =? AUDIO_DEVICE_OUT_EARPIECE then RIL_AUDIO_PATH_EARPIECE
  else if (out_device =? AUDIO_DEVICE_OUT_SPEAKER) || (out_device =? AUDIO_DEVICE_OUT_AUX_DIGITAL)
  then RIL_AUDIO_PATH_SPK
  else if (out_device =? AUDIO_DEVICE_OUT_WIRED_HEADSET) || (out_device =? AUDIO_DEVICE_OUT_WIRED_HEADPHONE)
  then RIL_AUDIO_PATH_HEADSET
  else if (out_device =? AUDIO_DEVICE_OUT_BLUETOOTH_SCO) ||
          (out_device =? AUDIO_DEVICE_OUT_BLUETOOTH_SCO_HEADSET) ||
          (out_device =? AUDIO_DEVICE_OUT_BLUETOOTH_SCO_CARKIT)
  then RIL_AUDIO_PATH_BT
  else RIL_AUDIO_PATH_EARPIECE.
Definition set_incall_device : M S unit :=
  let* out := get_dev ad_out_device in in_iface (ril_set_call_audio_path (ril_path out)).
Definition set_bp_volume (volume : Z) : M S unit :=
  let* out := get_dev ad_out_device in in_iface (ril_set_call_volume (ril_path out) volume).

Definition select_output_device : M S unit :=
  let* mode := get_dev ad_mode in
  let* out := get_dev ad_out_device in
  if mode =? AUDIO_MODE_NORMAL then in_iface (normal_play_route out)
  else if mode =? AUDIO_MODE_RINGTONE then
    in_iface (normal_play_route out) ;;;
    in_iface (normal_play_volume AUDIO_DEVICE_OUT_WIRED_HEADSET 60) ;;;
    in_iface (normal_play_volume AUDIO_DEVICE_OUT_SPEAKER 30)
  else if mode =? AUDIO_MODE_FM then in_iface (fm_play_route out)
  else if mode =? AUDIO_MODE_MODE_FACTORY_TEST then
    in_iface (ril_set_call_at (str "AT^ECHO1ON")) ;;; in_iface (factory_route out)
  else if mode =? AUDIO_MODE_IN_CALL then
    put_dev (set_ad_bluetooth_voice (dev_on out AUDIO_DEVICE_OUT_ALL_SCO)) ;;;
    in_iface (phone_play_route out) ;;; set_incall_device
  else in_iface (normal_play_route out).

(** The switches it computes first are not used. *)
Definition select_input_device : M S unit :=
  let* mode := get_dev ad_mode in
  let* inn := get_dev ad_in_device in
  if mode =? AUDIO_MODE_IN_CALL then
    in_iface (phone_record_enable true) ;;; in_iface (phone_record_route inn)
  else if mode =? AUDIO_MODE_FM then
    in_iface (fm_record_enable true) ;;; in_iface (fm_record_route inn)
  else if mode =? AUDIO_MODE_NORMAL then
    in_iface (normal_record_enable true) ;;; in_iface (normal_record_route inn)
  else ret tt.

Definition adev_set_voice_volume (volume : Z) : M S Z :=
  let* mode := get_dev ad_mode in
  let* out := get_dev ad_out_device in
  (if mode =? AUDIO_MODE_FM then in_iface (fm_volume out volume)
   else if mode =? AUDIO_MODE_IN_CALL then
     in_iface (phone_volume out volume) ;;; set_bp_volume volume
   else ret tt) ;;;
  ret 0.

(** The paths of the H8 board's codec. *)
Definition ar_paths (ac200 : bool) (output_device_path input_device_path : Z) : option string * option string :=
  if ac200 then
    (normal_route_configs !! Z.to_nat OUT_DEVICE_AC200_OUTPUT, cap_normal_route_configs !! Z.to_nat IN_SOURCE_MAINMIC)
  else
    (if output_device_path =? 0 then None else normal_route_configs !! Z.to_nat output_device_path,
     cap_normal_route_configs !! Z.to_nat input_device_path).
Definition apply_opt (ar : Z) (path : option string) : M S unit :=
  match path with Some p => step_world (ar_apply_path ar p) | None => ret tt end.
Definition init_ac100_input_output_path (output_device_path input_device_path : Z) : M S unit :=
  let* ar := get_dev ad_ar in
  if ar =? 0 then ret tt else
  step_world (ar_reset ar) ;;;
  let* d := get_dev (fun d => default dev_zero (ad_dev_manager d !! 0%nat)) in
  let '(output_route, input_route) :=
    ar_paths (bytes_eq (dm_card_id d) (str "sndac200")) output_device_path input_device_path in
  apply_opt ar output_route ;;; apply_opt ar input_route ;;;
  step_world (ar_update_mixer ar).

(** ** The playback stream *)

(** [if (p) { free (p); p = NULL; }] for a handle of one library. *)
Definition drop_handle (p : Z) (free : Z -> W -> W) : M S unit :=
  if p =? 0 then ret tt else step_world (free p).

Definition out_slot (l : list Z) (index : Z) : Z := default 0 (l !! Z.to_nat index).
Fixpoint standby_cards (l : list Z) (out : Z) : M S unit :=
  match l with
  | [] => ret tt
  | index :: l =>
      let* o := the_out out in
      drop_handle (out_slot (so_multi_pcm o) index) ta_close ;;;
      put_out out (fun o => set_so_multi_pcm (<[Z.to_nat index := 0]> (so_multi_pcm o)) o) ;;;
      drop_handle (out_slot (so_multi_resampler o) index) rs_release ;;;
      put_out out (fun o => set_so_multi_resampler (<[Z.to_nat index := 0]> (so_multi_resampler o)) o) ;;;
      standby_cards l out
  end.

Definition do_output_standby (out : Z) : M S Z :=
  let* o := the_out out in
  if so_standby o then ret 0 else
  drop_handle (so_pcm o) ta_close ;;; put_out out (set_so_pcm 0) ;;;
  drop_handle (so_resampler o) rs_release ;;; put_out out (set_so_resampler 0) ;;;
  standby_cards cards out ;;;
  put_dev (set_ad_active_output 0) ;;;
  (if so_echo_reference o =? 0 then ret tt
   else step_world (er_write (so_echo_reference o) None) ;;; put_out out (set_so_echo_reference 0)) ;;;
  put_out out (set_so_standby true) ;;; ret 0.

Definition out_standby (out : Z) : M S Z :=
  lock_out out ;;; let* status := do_output_standby out in unlock_out out ;;; ret status.

(** [get_output_device_params]: the rate and the channels a USB card has. *)
Definition usb_rates : list Z := [44100; 48000; 32000; 24000; 22050; 16000; 12000; 11025; 8000].
Definition pick_rate (min max old : Z) : Z :=
  default old (List.find (fun r => (min =? r) || (max =? r)) usb_rates).
Definition on_config (card : Z) (f : pcm_config -> pcm_config) (o : sunxi_stream_out) : sunxi_stream_out :=
  set_so_multi_config (alter f (Z.to_nat card) (so_multi_config o)) o.
Definition get_output_device_params (card out : Z) : M S Z :=
  let* params := on_world (ta_params_get card) in
  if params =? 0 then step_world (ta_params_free params) ;;; ret (-1) else
  let* '(rmin, rmax) := ask (ta_params_rate params) in
  put_out out (on_config card (fun c => set_rate (pick_rate rmin rmax (rate c)) c)) ;;;
  let* '(cmin, cmax) := ask (ta_params_channels params) in
  put_out out (on_config card (set_channels (if (cmin =? 2) || (cmax =? 2) then 2 else 1))) ;;;
  step_world (ta_params_free params) ;;; ret 0.

(** The property that overrides the output device. *)
Definition routed_device (device : Z) : M S Z :=
  let* '(r, value) := ask (prop_get "audio.routing" "") in
  ret (if r <=? 0 then device else
       let v := atol value in
       if (v =? AUDIO_DEVICE_OUT_SPEAKER) || (v =? AUDIO_DEVICE_OUT_AUX_DIGITAL) ||
          (v =? AUDIO_DEVICE_OUT_DGTL_DOCK_HEADSET) then v else device).

(** Entry [i] of [dev_manager] plays. *)
Definition plays (d : sunxi_audio_device_manager) : bool :=
  flag_exist d && (flag_out d =? AUDIO_OUT) && negb (flag_out_active d =? 0).

(** The configuration a card starts with. *)
Definition card_config (raw_info : RAW_INFO) (card : Z) : pcm_config :=
  let c := set_avail_min LONG_PERIOD_SIZE (set_start_threshold (SHORT_PERIOD_SIZE * 2) pcm_config_mm_out) in
  if (raw_enable raw_info =? 1) && (card =? CARD_A1X_HDMI)
  then set_rate (sample_rate raw_info) (set_raw_flag (raw_mode raw_info) c)
  else set_raw_flag 1 c.

Definition h8_paths (card : Z) : M S unit :=
  if h8_platform && (card =? 0) then
    let* ar := get_dev ad_ar in
    (if ar =? 0 then let* ar := on_world ar_init in put_dev (set_ad_ar ar) else ret tt) ;;;
    init_ac100_input_output_path OUT_DEVICE_SPEAKER_AND_HEADSET IN_SOURCE_MAINMIC
  else ret tt.

(** The resampler of a card whose rate is not the stream's. *)
Definition start_resampler (out card : Z) (raw_info : RAW_INFO) : M S Z :=
  let* o := the_out out in
  let* c := checked (so_multi_config o !! Z.to_nat card) in
  if negb (DEFAULT_OUT_SAMPLING_RATE =? rate c) && (raw_enable raw_info =? 0) then
    let* '(r, rs) := on_world (rs_create DEFAULT_OUT_SAMPLING_RATE (rate c) 2) in
    put_out out (fun o => set_so_multi_resampler (<[Z.to_nat card := rs]> (so_multi_resampler o)) o) ;;;
    ret r
  else ret 0.

(** One active card of [start_output_stream]: 0, or the error it returns with. *)
Definition start_card (out : Z) (raw_info : RAW_INFO) (card : Z) (name : bytes) : M S Z :=
  put_out out (on_config card (fun _ => card_config raw_info card)) ;;;
  (if bytes_eq (take 9 name) (str "AUDIO_USB") then get_output_device_params card out ;;; ret tt else ret tt) ;;;
  h8_paths card ;;;
  let* o := the_out out in
  let* c := checked (so_multi_config o !! Z.to_nat card) in
  let* p := on_world (ta_open card 0 PCM_OUT c) in
  put_out out (fun o => set_so_multi_pcm (<[Z.to_nat card := p]> (so_multi_pcm o)) o) ;;;
  let* ready := ask (ta_is_ready p) in
  if negb ready then
    step_world (ta_close p) ;;;
    put_out out (fun o => set_so_multi_pcm (<[Z.to_nat card := 0]> (so_multi_pcm o)) o) ;;;
    put_dev (set_ad_active_output 0) ;;; ret (- ENOMEM)
  else
  let* er := get_dev ad_echo_reference in
  (if er =? 0 then ret tt else put_out out (set_so_echo_reference er)) ;;;
  let* r := start_resampler out card raw_info in
  if negb (r =? 0) then ret r else
  let* o := the_out out in
  let rs := out_slot (so_multi_resampler o) card in
  (if rs =? 0 then ret tt else step_world (rs_reset rs)) ;;;
  ret 0.

Fixpoint start_cards (l : list Z) (out : Z) (raw_info : RAW_INFO) : M S Z :=
  match l with
  | [] => ret 0
  | index :: l =>
      let* d := get_dev (fun d => default dev_zero (ad_dev_manager d !! Z.to_nat index)) in
      if plays d then
        let* r := start_card out raw_info index (dm_name d) in
        if negb (r =? 0) then ret r else start_cards l out raw_info
      else start_cards l out raw_info
  end.

Definition start_output_stream (out : Z) (raw_info : RAW_INFO) : M S Z :=
  let* mode := get_dev ad_mode in
  if call_mode mode then ret 0 else
  let* raw := get_dev ad_raw_flag in
  if raw : bool then ret 0 else
  let* device := get_dev ad_out_device in
  let* device := routed_device device in
  put_dev (set_ad_out_device device) ;;;
  put_dev (set_ad_active_output out) ;;;
  select_output_device ;;;
  put_out out (fun o => set_so_config
    (set_avail_min SHORT_PERIOD_SIZE (set_start_threshold (SHORT_PERIOD_SIZE * 2)
       (set_rate MM_SAMPLING_RATE (so_config o)))) o) ;;;
  put_out out (set_so_write_threshold 0) ;;;
  start_cards cards out raw_info.
End Hw.
