(* ===== verification/AudOut.v ===== *)
(** * audio HAL: writing and the life of a playback stream

    [audio_hw.c]: [out_write], the parameters of a playback stream, and the
    calls of the device that open and close one.  [out_write] runs its index down
    from [MAX_AUDIO_DEVICES]: entry 16 of the array of cards is what the
    structure has there, the end of [in_devices]. *)

From S2P Require Import Prelude CLib Os Snd Mixer Pcm Codec VolumeConf CodecClient AudBp AudIface.
From S2P Require Import AudRing AudDevices AudEnv AudHw.

Section Out.
Context {W : Type} `{OsOps W, MixOps W, PropOps W, FileOps W, SystemOps W, PropSetOps W, HalLibs W}.
Context `{HalConsts}.
Abbreviation S := (mach W hal_g).

(** [audio_stream_frame_size]: two channels of 16 bits. *)
Definition OUT_FRAME_SIZE : Z := 4.

Definition out_get_sample_rate : Z := DEFAULT_OUT_SAMPLING_RATE.
Definition out_get_buffer_size (out : Z) : M S Z :=
  let* o := the_out out in
  let* size := checked (udiv (SHORT_PERIOD_SIZE * DEFAULT_OUT_SAMPLING_RATE) (rate (so_config o))) in
  ret ((size + 15) / 16 * 16 * OUT_FRAME_SIZE).
Definition out_get_latency (out : Z) : M S Z :=
  let* o := the_out out in
  checked (udiv (SHORT_PERIOD_SIZE * PLAYBACK_PERIOD_COUNT * 1000) (rate (so_config o))).

(** ** out_write *)

(** The flags of [dev_manager[16]]: bytes 72 to 84 of an entry, of 92, that
    starts four bytes (usb_audio_cnt) before [in_devices]. *)
Definition past_end (in_devices : bytes) : sunxi_audio_device_manager :=
  let a := in_devices ++ zeros (128 - lenZ in_devices) in
  DevManager [] [] 0 0 (s32 (get_u32 a 68)) (s32 (get_u32 a 72)) (s32 (get_u32 a 76))
    (s32 (get_u32 a 80)) (negb (default 0 (bget a 84) =? 0)).
Definition card_entry (index : Z) (d : sunxi_audio_device) : sunxi_audio_device_manager :=
  default (past_end (ad_in_devices d)) (ad_dev_manager d !! Z.to_nat index).

(** The first card that plays. *)
Definition playing_card (d : sunxi_audio_device) : option nat := find_card plays (ad_dev_manager d).

Definition get_playback_delay (out frames : Z) (b : echo_buffer) : M S echo_buffer :=
  let* k := get_dev playing_card in
  let* k := checked k in
  let* o := the_out out in
  let p := out_slot (so_multi_pcm o) (Z.of_nat k) in
  ta_handle p ;;;
  let* '(status, kernel_frames, t) := ask (ta_htimestamp p) in
  if status <? 0 then ret (EchoBuffer (eb_raw b) (eb_frames b) (0, 0) 0) else
  let* size := ask (ta_buffer_size p) in
  let kernel_frames := u32 (size - kernel_frames) in
  ret (EchoBuffer (eb_raw b) (eb_frames b) t
         (s32 (u32 (kernel_frames + frames) * 1000000000 / MM_SAMPLING_RATE))).

(** [pcm_buf[2 * i + 2] = pcm_buf[4 * i + 4]; pcm_buf[2 * i + 3] = ...] from [i] on,
    [n] times. *)
Fixpoint to_mono (n : nat) (i : Z) (buf : bytes) : option bytes :=
  match n with
  | O => Some buf
  | Datatypes.S n =>
      match bget buf (4 * i + 4), bget buf (4 * i + 5) with
      | Some a, Some b => to_mono n (i + 1) (bblit (2 * i + 2) [a; b] buf)
      | _, _ => None
      end
  end.

Definition write_pcm (p : Z) (buf : bytes) (n : Z) : M S Z :=
  ta_handle p ;;;
  if in_bounds 0 n buf then on_world (ta_write p (bslice 0 n buf)) else undef.

(** The frames through the resampler of [card], or as they are: the buffer that
    is written, and whether it is the caller's. *)
Definition resample (out card : Z) (buffer : bytes) (in_frames out_frames : Z)
  : M S (bool * bytes * Z * Z) :=
  let* o := the_out out in
  let rs := out_slot (so_multi_resampler o) card in
  if rs =? 0 then ret (true, buffer, in_frames, in_frames) else
  let* '(data, i, n) := on_world (rs_from_input rs buffer in_frames out_frames) in
  let mem := bblit 0 data (so_buffer_mem o) in
  put_out out (set_so_buffer_mem mem) ;;;
  ret (false, mem, i, n).

(** One playing card: [pcm_write]'s result, the caller's buffer, and the frames
    the next card starts from. *)
Definition write_card (out index : Z) (buffer : bytes) (in_frames out_frames : Z)
  : M S (Z * bytes * Z * Z) :=
  let* o := the_out out in
  (* multi_config[card] *)
  let* _ := checked (so_multi_config o !! Z.to_nat index) in
  put_out out (on_config index (set_avail_min SHORT_PERIOD_SIZE)) ;;;
  let p := out_slot (so_multi_pcm o) index in
  ta_handle p ;;; step_world (ta_set_avail_min p SHORT_PERIOD_SIZE) ;;;
  let* '(own, buf, in_frames, out_frames) := resample out index buffer in_frames out_frames in
  let* o := the_out out in
  (if so_echo_reference o =? 0 then ret tt
   else
     let* b := get_playback_delay out out_frames (EchoBuffer buffer in_frames (0, 0) 0) in
     step_world (er_write (so_echo_reference o) (Some b))) ;;;
  let* c := checked (so_multi_config o !! Z.to_nat index) in
  if channels c =? 2 then
    let* r := write_pcm p buf (out_frames * OUT_FRAME_SIZE) in
    ret (r, buffer, in_frames, out_frames)
  else
    let* buf := checked (to_mono (Z.to_nat out_frames) 0 buf) in
    (if own : bool then ret tt else put_out out (set_so_buffer_mem buf)) ;;;
    let* r := write_pcm p buf (out_frames * OUT_FRAME_SIZE / 2) in
    ret (r, if own then buf else buffer, in_frames, out_frames).

(** The loop over the cards, down from 16: the last result, if any card plays,
    and the caller's buffer. *)
Fixpoint write_cards (l : list Z) (out : Z) (r : option Z) (buffer : bytes) (in_frames out_frames : Z)
  : M S (option Z * bytes) :=
  match l with
  | [] => ret (r, buffer)
  | index :: l =>
      let* d := get_dev (card_entry index) in
      if plays d then
        let* '(r, buffer, in_frames, out_frames) := write_card out index buffer in_frames out_frames in
        if negb (r =? 0) then
          do_output_standby out ;;; step_world (hal_usleep 30000) ;;; ret (Some r, buffer)
        else write_cards l out (Some r) buffer in_frames out_frames
      else write_cards l out r buffer in_frames out_frames
  end.
Definition cards_down : list Z := rev (seqZ 0 (MAX_AUDIO_DEVICES + 1)).

(** The copy for a capture of the playback: as many bytes as the resampler's
    buffer has, whatever the caller's has. *)
Definition capture_copy (buffer : bytes) : M S bytes :=
  let* af := get_dev ad_af_capture_flag in
  let* ring := get_dev ad_PcmManager in
  if af && BufExist ring then
    let n := RESAMPLER_BUFFER_SIZE / OUT_FRAME_SIZE * OUT_FRAME_SIZE in
    (if BufValideLen ring <? n then ret tt
     else
       if in_bounds 0 n buffer then
         let* '(_, ring) := WritePcmData (bslice 0 n buffer) ring in put_dev (set_ad_PcmManager ring)
       else undef) ;;;
    checked (memset buffer 0 0 n)
  else ret buffer.

(** The input stream goes to standby when the microphone may change. *)
Definition voice_input : M S bool :=
  let* inn := get_dev ad_active_input in
  if inn =? 0 then ret false else
  let* i := the_in inn in ret (si_source i =? AUDIO_SOURCE_VOICE_COMMUNICATION).

(** What follows the writing, [ret] being 0 or an error. *)
Definition write_exit (out bytes_ : Z) (r : Z) (force_input_standby : bool)
    (input_standby : Z -> M S Z) : M S unit :=
  unlock_out out ;;;
  (if r =? 0 then ret tt
   else step_world (hal_usleep (u32 (bytes_ * 1000000) / OUT_FRAME_SIZE / out_get_sample_rate))) ;;;
  if force_input_standby then
    lock_dev ;;;
    let* inn := get_dev ad_active_input in
    (if inn =? 0 then ret tt
     else lock_in inn ;;; input_standby inn ;;; unlock_in inn) ;;;
    unlock_dev
  else ret tt.

(** The raw mode follows the node. *)
Definition raw_changed (raw_info : RAW_INFO) (d : sunxi_audio_device) : bool :=
  negb (raw_enable raw_info =? ad_raw_enable d) ||
  ((raw_enable raw_info =? 1) &&
   (negb (sample_rate raw_info =? ad_raw_samplerate d) || negb (raw_mode raw_info =? ad_raw_mode d))).
Definition raw_change (out : Z) (raw_info : RAW_INFO) : M S unit :=
  let* d := get_dev (fun d => d) in
  if raw_changed raw_info d then
    out_standby out ;;;
    put_dev (set_ad_raw_enable (raw_enable raw_info)) ;;;
    put_dev (set_ad_raw_mode (raw_mode raw_info)) ;;;
    put_dev (set_ad_raw_samplerate (sample_rate raw_info))
  else ret tt.

(** [input_standby] is [do_input_standby].  The result is [bytes], and the
    caller's buffer comes back.  [ret] has no value when nothing was started and
    no card plays. *)
Definition out_write (input_standby : Z -> M S Z) (out : Z) (buffer : bytes) : M S (Z * bytes) :=
  let n := lenZ buffer in
  let* mode := get_dev ad_mode in
  if call_mode mode then ret (n, buffer) else
  let* raw_info := detectRaw in
  raw_change out raw_info ;;;
  let* raw := get_dev ad_raw_flag in
  if raw : bool then ret (n, buffer) else
  lock_dev ;;; lock_out out ;;;
  let* o := the_out out in
  let* '(started, force) := (if so_standby o then
      let* r := start_output_stream out raw_info in
      if r =? 0 then
        put_out out (set_so_standby false) ;;; let* f := voice_input in ret (Some 0, f)
      else ret (Some r, false)
    else ret (None, false)) in
  unlock_dev ;;;
  let failed := match started with Some r => negb (r =? 0) | None => false end in
  if failed then
    write_exit out n (default 0 started) false input_standby ;;; ret (n, buffer)
  else
  put_out out (set_so_write_threshold (SHORT_PERIOD_SIZE * PLAYBACK_PERIOD_COUNT)) ;;;
  put_out out (fun o => set_so_config (set_avail_min SHORT_PERIOD_SIZE (so_config o)) o) ;;;
  let* buffer := capture_copy buffer in
  let* '(r, buffer) :=
    write_cards cards_down out started buffer (n / OUT_FRAME_SIZE) (RESAMPLER_BUFFER_SIZE / OUT_FRAME_SIZE) in
  let* r := checked r in
  write_exit out n r force input_standby ;;; ret (n, buffer).

(** ** Parameters *)

(** The key of the route. *)
Definition out_route (input_standby : Z -> M S Z) (out val : Z) : M S unit :=
  lock_dev ;;; lock_out out ;;;
  let* d := get_dev (fun d => d) in
  let* force := (if negb (ad_out_device d =? val) && negb (val =? 0) then
      let* force := (if out =? ad_active_output d then
          let* force := voice_input in
          (if xorb (dev_on val AUDIO_DEVICE_OUT_AUX_DIGITAL) (dev_on (ad_out_device d) AUDIO_DEVICE_OUT_AUX_DIGITAL) ||
              xorb (dev_on val AUDIO_DEVICE_OUT_DGTL_DOCK_HEADSET)
                   (dev_on (ad_out_device d) AUDIO_DEVICE_OUT_DGTL_DOCK_HEADSET)
           then do_output_standby out ;;; ret tt else ret tt) ;;;
          ret force
        else ret false) in
      put_dev (set_ad_out_device val) ;;;
      select_output_device ;;;
      let* mode := get_dev ad_mode in
      let* volume := get_dev ad_voice_volume in
      (if call_mode mode then adev_set_voice_volume volume ;;; ret tt else ret tt) ;;;
      ret force
    else ret false) in
  unlock_out out ;;;
  (if force : bool then
     let* inn := get_dev ad_active_input in
     lock_in inn ;;; input_standby inn ;;; unlock_in inn
   else ret tt) ;;;
  unlock_dev.

(** The key of the active cards: [true] when the call returns at once. *)
Definition out_activate (out : Z) (value : bytes) : M S bool :=
  lock_dev ;;; lock_out out ;;;
  let* raw := get_dev ad_raw_flag in
  if raw : bool then unlock_out out ;;; unlock_dev ;;; ret true else
  in_devs (set_audio_devices_active AUDIO_OUT value) ;;;
  do_output_standby out ;;;
  select_output_device ;;;
  unlock_out out ;;; unlock_dev ;;; ret false.

(** The key of the raw data. *)
Definition out_raw (out : Z) (bval : bool) : M S unit :=
  lock_dev ;;; lock_out out ;;;
  let* raw := get_dev ad_raw_flag in
  (if Bool.eqb raw bval then ret tt
   else put_dev (set_ad_raw_flag bval) ;;; do_output_standby out ;;; ret tt) ;;;
  unlock_out out ;;; unlock_dev.

(** [str_parms_create_str] gives a block that [str_parms_destroy] frees: the
    early returns leave it. *)
Definition out_set_parameters (input_standby : Z -> M S Z) (out : Z) (kvpairs : bytes) : M S Z :=
  let* parms := c_malloc 1 in
  let* '(r, value) := ask (parms_get kvpairs AUDIO_PARAMETER_STREAM_ROUTING 128) in
  let* first := get_dev ad_first_set_audio_routing in
  if (0 <=? r) && first then put_dev (set_ad_first_set_audio_routing false) ;;; ret r else
  (if 0 <=? r then out_route input_standby out (atol value) else ret tt) ;;;
  let* '(r, value) := ask (parms_get kvpairs AUDIO_PARAMETER_DEVICES_OUT_ACTIVE 128) in
  let* stop := (if 0 <=? r then out_activate out value else ret false) in
  if stop : bool then ret (-1) else
  let* '(r, value) := ask (parms_get kvpairs AUDIO_PARAMETER_RAW_DATA_OUT 128) in
  (if 0 <=? r then out_raw out (atol value =? 1) else ret tt) ;;;
  c_free parms ;;; ret r.

(** [strdup]: the string's address. *)
Definition strdup (s : bytes) : M S Z := c_malloc (lenZ s + 1).
Definition out_get_parameters : M S Z := strdup [].

(** ** Opening and closing *)

Definition SIZEOF_out : Z := 2048.

(** The result and the stream. *)
Definition adev_open_output_stream : M S (Z * Z) :=
  let* out := c_malloc SIZEOF_out in
  if out =? 0 then ret (- ENOMEM, 0) else
  let* outs := get_glob h_outs in
  new_address out outs ;;;
  let* buffer := c_malloc RESAMPLER_BUFFER_SIZE in
  let o := set_so_buffer buffer (set_so_buffer_mem (zeros RESAMPLER_BUFFER_SIZE) out_zero) in
  let o := set_so_standby true (set_so_config pcm_config_mm_out o) in
  set_glob (fun g => set_h_outs (<[out := o]> (h_outs g)) g) ;;;
  ret (0, out).

Fixpoint release_cards (l : list Z) : M S unit :=
  match l with
  | [] => ret tt
  | r :: l => drop_handle r rs_release ;;; release_cards l
  end.
Definition adev_close_output_stream (out : Z) : M S unit :=
  let* mode := get_dev ad_mode in
  if call_mode mode then ret tt else
  out_standby out ;;;
  let* o := the_out out in
  c_free (so_buffer o) ;;;
  drop_handle (so_resampler o) rs_release ;;;
  release_cards (so_multi_resampler o) ;;;
  c_free out ;;;
  set_glob (fun g => set_h_outs (delete out (h_outs g)) g).
End Out.
