(* ===== verification/AudIn.v ===== *)
(** * audio HAL: the capture stream

    [audio_hw.c]: starting, reading and standby of a capture stream, the frames
    that go through the resampler, its parameters and effects, and the calls of
    the device that open and close one.  The pre-processing ([process_frames] and
    what only it calls) is never called. *)

From S2P Require Import Prelude CLib Os Snd Mixer Pcm Codec VolumeConf CodecClient AudBp AudIface.
From S2P Require Import AudRing AudDevices AudEnv AudHw AudOut.

(** The rates [check_input_parameters] accepts. *)
Definition input_rates : list Z := [8000; 11025; 16000; 22050; 24000; 32000; 44100; 48000].
Definition check_input_parameters (rate fmt channel_count : Z) : Z :=
  if negb (fmt =? AUDIO_FORMAT_PCM_16_BIT) then - EINVAL
  else if (channel_count <? 1) || (2 <? channel_count) then - EINVAL
  else if existsb (Z.eqb rate) input_rates then 0 else - EINVAL.

Definition get_input_buffer_size (rate0 fmt channel_count : Z) : Z :=
  if negb (check_input_parameters rate0 fmt channel_count =? 0) then 0 else
  let size := period_size pcm_config_mm_in * rate0 / rate pcm_config_mm_in in
  let size := (size + 15) / 16 * 16 in
  size * channel_count * 2.

(** [audio_stream_frame_size]: mono or stereo, 16 bits. *)
Definition in_frame_size (c : pcm_config) : Z := if channels c =? 1 then 2 else 4.

(** The rate [start_input_stream] asks the card for. *)
Definition ajust_rate (requested : Z) : Z :=
  if requested mod SAMPLING_RATE_11K =? 0 then requested
  else Z.min SAMPLING_RATE_44K (SAMPLING_RATE_11K * requested / SAMPLING_RATE_8K).

Section In.
Context {W : Type} `{OsOps W, MixOps W, PropOps W, FileOps W, SystemOps W, PropSetOps W, HalLibs W}.
Context `{HalConsts}.
Abbreviation S := (mach W hal_g).

Definition in_get_sample_rate (inn : Z) : M S Z := let* i := the_in inn in ret (si_requested_rate i).
Definition in_get_buffer_size (inn : Z) : M S Z :=
  let* i := the_in inn in
  ret (get_input_buffer_size (si_requested_rate i) AUDIO_FORMAT_PCM_16_BIT (channels (si_config i))).

(** ** Start and standby *)

(** Entry [i] of [dev_manager] captures. *)
Definition captures (d : sunxi_audio_device_manager) : bool :=
  flag_exist d && (flag_in d =? AUDIO_IN) && negb (flag_in_active d =? 0).
Definition capturing_card (d : sunxi_audio_device) : Z :=
  match find_card captures (ad_dev_manager d) with
  | Some k => Z.of_nat k
  | None => MAX_AUDIO_DEVICES
  end.

(** From the open stream on: the resampler, if the rates differ. *)
Definition start_in_resampler (inn : Z) : M S Z :=
  let* i := the_in inn in
  let* r := (if si_requested_rate i =? rate (si_config i) then ret 0
             else
               let* '(r, rs) := on_world
                 (rs_create (rate (si_config i)) (si_requested_rate i) (channels (si_config i))) in
               put_in inn (set_si_resampler rs) ;;; ret r) in
  let* i := the_in inn in
  if negb (r =? 0) then drop_handle (si_resampler i) rs_release ;;; ret (-1) else
  (if si_resampler i =? 0 then ret tt
   else step_world (rs_reset (si_resampler i)) ;;; put_in inn (set_si_frames_in 0)) ;;;
  ret 0.

Definition start_input_stream (inn : Z) : M S Z :=
  put_dev (set_ad_active_input inn) ;;;
  let* mode := get_dev ad_mode in
  if mode =? AUDIO_MODE_IN_CALL then ret 0 else
  let* i := the_in inn in
  put_dev (set_ad_in_device (si_device i)) ;;;
  select_input_device ;;;
  (if si_need_echo_reference i && (si_echo_reference i =? 0) then
     let* er := get_echo_reference (channels (si_config i)) (si_requested_rate i) in
     put_in inn (set_si_echo_reference er)
   else ret tt) ;;;
  let* card := get_dev capturing_card in
  let* '(p, c) := on_world (fun w => 
    let '(p, c, w) := ta_open_req card 0 PCM_IN (si_config i) (ajust_rate (si_requested_rate i)) w in
    ((p, c), w)) in
  put_in inn (fun i => set_si_config c (set_si_pcm p i)) ;;;
  let* ready := ask (ta_is_ready p) in
  if negb ready then
    step_world (ta_close p) ;;; put_dev (set_ad_active_input 0) ;;; ret (- ENOMEM)
  else start_in_resampler inn.

Definition do_input_standby (inn : Z) : M S Z :=
  let* i := the_in inn in
  if si_standby i then ret 0 else
  ta_handle (si_pcm i) ;;; step_world (ta_close (si_pcm i)) ;;; put_in inn (set_si_pcm 0) ;;;
  put_dev (set_ad_active_input 0) ;;;
  let* mode := get_dev ad_mode in
  (if mode =? AUDIO_MODE_IN_CALL then ret tt
   else put_dev (set_ad_in_device AUDIO_DEVICE_NONE) ;;; select_input_device) ;;;
  (if si_echo_reference i =? 0 then ret tt
   else
     step_world (er_read (si_echo_reference i) None) ;;;
     put_echo_reference (si_echo_reference i) ;;;
     put_in inn (set_si_echo_reference 0)) ;;;
  drop_handle (si_resampler i) rs_release ;;; put_in inn (set_si_resampler 0) ;;;
  put_in inn (set_si_standby true) ;;; ret 0.

Definition in_standby (inn : Z) : M S Z :=
  lock_dev ;;; lock_in inn ;;;
  let* status := do_input_standby inn in
  unlock_in inn ;;; unlock_dev ;;; ret status.

(** ** Frames *)

(** [pcm_read] into a buffer of [n] bytes. *)
Definition read_pcm (p : Z) (buf : bytes) (n : Z) : M S (Z * bytes) :=
  ta_handle p ;;;
  if in_bounds 0 n buf then
    let* '(r, data) := on_world (fun w => let '(r, d, w) := ta_read p (bslice 0 n buf) w in ((r, d), w)) in
    ret (r, bblit 0 (bslice 0 n data) buf)
  else undef.

(** The status, the frames, and the samples ([NULL] on an error): they lie in
    the stream's own buffer. *)
Definition get_next_buffer (inn frame_count : Z) : M S (Z * Z * option bytes) :=
  let* i := the_in inn in
  if si_pcm i =? 0 then put_in inn (set_si_read_status (- ENODEV)) ;;; ret (- ENODEV, 0, None) else
  let period := period_size (si_config i) in
  let fs := in_frame_size (si_config i) in
  let* r := (if si_frames_in i =? 0 then
      let* '(r, mem) := read_pcm (si_pcm i) (si_buffer_mem i) (period * fs) in
      put_in inn (fun i => set_si_read_status r (set_si_buffer_mem mem i)) ;;;
      (if r =? 0 then put_in inn (set_si_frames_in period) else ret tt) ;;; ret r
    else ret 0) in
  if negb (r =? 0) then ret (r, 0, None) else
  let* i := the_in inn in
  let n := if si_frames_in i <? frame_count then si_frames_in i else frame_count in
  let off := (period - si_frames_in i) * channels (si_config i) * 2 in
  let* data := checked (if in_bounds off (n * fs) (si_buffer_mem i)
                        then Some (bslice off (n * fs) (si_buffer_mem i)) else None) in
  ret (si_read_status i, n, Some data).

(** [in->frames_in -= buffer->frame_count]: a [size_t]. *)
Definition release_buffer (inn frame_count : Z) : M S unit :=
  put_in inn (fun i => set_si_frames_in (u32 (si_frames_in i - frame_count)) i).

(** The resampler's run over its provider. *)
Fixpoint run_provider (inn : Z) (p : rs_prog W) : M S (bytes * Z) :=
  match p with
  | RsNext frames k => fun s =>
      match get_next_buffer inn frames s with
      | Done (r, n, data) s' => run_provider inn (k r n data (world s')) s'
      | Blocked => Blocked
      | Undef => Undef
      end
  | RsRelease frames k => release_buffer inn frames ;;; run_provider inn k
  | RsDone out frames w => step_world (fun _ => w) ;;; ret (out, frames)
  end.

(** One turn of [read_frames]: what it wrote at [off], and the frames. *)
Definition read_some (inn : Z) (buffer : bytes) (off frames_rd : Z) : M S (Z * bytes) :=
  let* i := the_in inn in
  if si_resampler i =? 0 then
    let* '(_, n, data) := get_next_buffer inn frames_rd in
    match data with
    | Some d =>
        let* buffer := checked (memcpy buffer off d (n * in_frame_size (si_config i))) in
        release_buffer inn n ;;; ret (n, buffer)
    | None => release_buffer inn n ;;; ret (frames_rd, buffer)
    end
  else
    let* p := ask (rs_from_provider (si_resampler i) frames_rd) in
    let* '(d, n) := run_provider inn p in
    let* buffer := checked (memcpy buffer off d (lenZ d)) in
    ret (n, buffer).

(** The loop stops when [frames] are there or a read failed. *)
Fixpoint read_loop (fuel : nat) (inn : Z) (buffer : bytes) (frames_wr frames : Z) : M S (Z * bytes) :=
  if frames_wr <? frames then
    match fuel with
    | O => blocked
    | Datatypes.S fuel =>
        let* i := the_in inn in
        let* '(n, buffer) := read_some inn buffer (frames_wr * in_frame_size (si_config i)) (frames - frames_wr) in
        let* i := the_in inn in
        if negb (si_read_status i =? 0) then ret (si_read_status i, buffer)
        else read_loop fuel inn buffer (frames_wr + n) frames
    end
  else ret (frames_wr, buffer).
(** Each turn brings a frame or more from a resampler that works. *)
Definition read_frames (inn : Z) (buffer : bytes) (frames : Z) : M S (Z * bytes) :=
  read_loop (Z.to_nat frames) inn buffer 0 frames.

(** ** in_read *)

Definition sleep (us : Z) : M S unit := step_world (hal_usleep us).

(** The capture of the playback. *)
Definition read_playback (inn : Z) (buffer : bytes) : M S bytes :=
  lock_dev ;;; lock_in inn ;;;
  put_in inn (set_si_standby false) ;;;
  unlock_dev ;;;
  let* ring := get_dev ad_PcmManager in
  let* active := get_dev (fun d => negb (ad_active_output d =? 0)) in
  let* '(_, buffer, ring) := ReadPcmData sleep active buffer ring in
  put_dev (set_ad_PcmManager ring) ;;;
  let* mute := get_dev ad_mic_mute in
  unlock_in inn ;;;
  ret (if mute : bool then zeros (lenZ buffer) else buffer).

(** The result is [bytes], and the caller's buffer. *)
Definition in_read (inn : Z) (buffer : bytes) : M S (Z * bytes) :=
  let n := lenZ buffer in
  let* mode := get_dev ad_mode in
  if mode =? AUDIO_MODE_IN_CALL then sleep 10000 ;;; ret (1, buffer) else
  let* af := get_dev (fun d => ad_af_capture_flag d && BufExist (ad_PcmManager d)) in
  if af : bool then let* buffer := read_playback inn buffer in ret (n, buffer) else
  lock_dev ;;; lock_in inn ;;;
  let* i := the_in inn in
  let* r := (if si_standby i then
      let* r := start_input_stream inn in
      (if r =? 0 then put_in inn (set_si_standby false) else ret tt) ;;; ret r
    else ret 0) in
  unlock_dev ;;;
  let* i := the_in inn in
  let* '(r, buffer) := (if r <? 0 then ret (r, buffer)
    else
      let* '(r, buffer) := (if negb (lenZ (si_preprocessors i) =? 0) || negb (si_resampler i =? 0)
        then read_frames inn buffer (n / in_frame_size (si_config i))
        else read_pcm (si_pcm i) buffer n) in
      let r := if 0 <? r then 0 else r in
      let* mute := get_dev ad_mic_mute in
      ret (r, if (r =? 0) && mute then zeros n else buffer)) in
  (if r <? 0 then
     let* us := checked (udiv (u32 (n * 1000000) / in_frame_size (si_config i)) (si_requested_rate i)) in
     sleep us
   else ret tt) ;;;
  unlock_in inn ;;; ret (n, buffer).

(** ** Parameters and effects *)

Definition in_set_parameters (inn : Z) (kvpairs : bytes) : M S Z :=
  let* parms := c_malloc 1 in
  let* '(r, value) := ask (parms_get kvpairs AUDIO_PARAMETER_STREAM_INPUT_SOURCE 128) in
  lock_dev ;;; lock_in inn ;;;
  let* i := the_in inn in
  let* standby := (if (0 <=? r) && negb (si_source i =? atol value) && negb (atol value =? 0)
    then put_in inn (set_si_source (atol value)) ;;; ret true else ret false) in
  let* '(r, value) := ask (parms_get kvpairs AUDIO_PARAMETER_STREAM_ROUTING 128) in
  let val := Z.land (atol value) (Z.lnot AUDIO_DEVICE_BIT_IN) in
  let* mode := get_dev ad_mode in
  let* i := the_in inn in
  let* standby := (if 0 <=? r then
      if negb (mode =? AUDIO_MODE_IN_CALL) && negb (si_device i =? val) && negb (val =? 0)
      then put_in inn (set_si_device val) ;;; ret true
      else if (mode =? AUDIO_MODE_IN_CALL) && negb (si_source i =? val) && negb (val =? 0)
      then put_in inn (set_si_device val) ;;; select_input_device ;;; ret standby
      else ret standby
    else ret standby) in
  let* '(r, value) := ask (parms_get kvpairs AUDIO_PARAMETER_DEVICES_IN_ACTIVE 128) in
  (if standby || (0 <=? r) then do_input_standby inn ;;; ret tt else ret tt) ;;;
  unlock_in inn ;;; unlock_dev ;;; c_free parms ;;; ret r.

Definition in_get_parameters : M S Z := strdup [].

(** [true]: the effect cancels echo, and the reference is wanted or not. *)
Definition effect_reference (inn effect : Z) (need : bool) : M S Z :=
  let* '(status, aec) := ask (fx_descriptor effect) in
  (if (status =? 0) && aec then
     put_in inn (set_si_need_echo_reference need) ;;; do_input_standby inn ;;; ret tt
   else ret tt) ;;;
  ret status.

Definition in_add_audio_effect (inn effect : Z) : M S Z :=
  lock_dev ;;; lock_in inn ;;;
  let* i := the_in inn in
  let* status := (if MAX_PREPROCESSORS <=? lenZ (si_preprocessors i) then ret (- ENOSYS)
    else
      let* '(status, aec) := ask (fx_descriptor effect) in
      if negb (status =? 0) then ret status else
      put_in inn (set_si_preprocessors (si_preprocessors i ++ [effect])) ;;;
      (if aec : bool then
         put_in inn (set_si_need_echo_reference true) ;;; do_input_standby inn ;;; ret tt
       else ret tt) ;;; ret 0) in
  unlock_in inn ;;; unlock_dev ;;; ret status.

(** The first entry that is the effect goes, the ones behind it move up. *)
Fixpoint remove_effect (effect : Z) (l : list Z) : option (list Z) :=
  match l with
  | [] => None
  | e :: l => if e =? effect then Some l else option_map (cons e) (remove_effect effect l)
  end.
Definition in_remove_audio_effect (inn effect : Z) : M S Z :=
  lock_dev ;;; lock_in inn ;;;
  let* i := the_in inn in
  let* status := (if lenZ (si_preprocessors i) <=? 0 then ret (- ENOSYS)
    else match remove_effect effect (si_preprocessors i) with
    | None => ret (- EINVAL)
    | Some l =>
        put_in inn (set_si_preprocessors l) ;;;
        let* '(status, aec) := ask (fx_descriptor effect) in
        (if (status =? 0) && aec then
           put_in inn (set_si_need_echo_reference false) ;;; do_input_standby inn ;;; ret tt
         else ret tt) ;;; ret status
    end) in
  unlock_in inn ;;; unlock_dev ;;; ret status.

(** ** Opening and closing *)

Definition SIZEOF_in : Z := 256.

Definition adev_get_input_buffer_size (rate0 fmt channel_count : Z) : Z :=
  if negb (check_input_parameters rate0 fmt channel_count =? 0) then 0
  else get_input_buffer_size rate0 fmt channel_count.

(** The buffer between playback and capture, for the device of that capture. *)
Definition open_af_buffer (rate0 : Z) : M S bool :=
  let* p := c_malloc AF_BUFFER_SIZE in
  put_dev (fun d => set_ad_PcmManager
    (let r := ad_PcmManager d in
     PcmBuf (BufExist r) p (BufMem r) (BufTotalLen r) (BufReadPtr r) (DataLen r) (BufWritPtr r)
       (BufValideLen r) (SampleRate r) (Channel r)) d) ;;;
  if p =? 0 then ret false else
  put_dev (set_ad_PcmManager (ring_new AF_BUFFER_SIZE p (zeros AF_BUFFER_SIZE) rate0)) ;;;
  put_dev (set_ad_af_capture_flag true) ;;; ret true.

(** The label [err], where the stream has no resampler yet. *)
Definition open_in_err (inn : Z) : M S (Z * Z) :=
  c_free inn ;;; set_glob (fun g => set_h_ins (delete inn (h_ins g)) g) ;;; ret (- ENOMEM, 0).

Definition adev_open_input_stream (devices rate0 fmt channel_count : Z) : M S (Z * Z) :=
  if negb (check_input_parameters rate0 fmt channel_count =? 0) then ret (- EINVAL, 0) else
  let* inn := c_malloc SIZEOF_in in
  if inn =? 0 then ret (- ENOMEM, 0) else
  let* ins := get_glob h_ins in
  new_address inn ins ;;;
  let c := set_in_init_channels channel_count (set_channels channel_count pcm_config_mm_in) in
  set_glob (fun g => set_h_ins
    (<[inn := set_si_requested_rate rate0 (set_si_config c in_zero)]> (h_ins g)) g) ;;;
  let size := period_size c * in_frame_size c * 8 in
  let* buffer := c_malloc size in
  put_in inn (fun i => set_si_buffer buffer (set_si_buffer_mem (zeros size) i)) ;;;
  if buffer =? 0 then open_in_err inn else
  put_dev (set_ad_af_capture_flag false) ;;;
  let* ok := (if devices =? AUDIO_DEVICE_IN_AF then open_af_buffer rate0 else ret true) in
  if negb ok then open_in_err inn else
  put_in inn (fun i => set_si_standby true
    (set_si_device (Z.land devices (Z.lnot AUDIO_DEVICE_BIT_IN)) i)) ;;;
  ret (0, inn).

Definition adev_close_input_stream (inn : Z) : M S unit :=
  in_standby inn ;;;
  let* i := the_in inn in
  c_free (si_buffer i) ;;;
  drop_handle (si_resampler i) rs_release ;;;
  put_dev (set_ad_af_capture_flag false) ;;;
  let* ring := get_dev ad_PcmManager in
  (if BufStart ring =? 0 then ret tt
   else
     c_free (BufStart ring) ;;;
     put_dev (set_ad_PcmManager
       (PcmBuf false 0 [] (BufTotalLen ring) (BufReadPtr ring) (DataLen ring) (BufWritPtr ring)
          (BufValideLen ring) (SampleRate ring) (Channel ring)))) ;;;
  c_free inn ;;; set_glob (fun g => set_h_ins (delete inn (h_ins g)) g) ;;;
  in_iface (normal_record_enable false) ;;;
  in_iface (fm_record_enable false) ;;;
  in_iface (phone_record_enable false).
End In.
