(* ===== verification/AudAdev.v ===== *)
(** * audio HAL: the device

    [audio_hw.c]: the mode of the device and what a change of it does to the
    streams and the routes, the parameters and lists of the device, and its
    opening and closing.  [audio_module] and [struct audio_hw_device] are the
    table of these calls. *)

From S2P Require Import Prelude CLib Os Snd Mixer Pcm Codec VolumeConf CodecClient AudBp AudIface.
From S2P Require Import AudRing AudDevices AudEnv AudHw AudOut AudIn.

Definition AUDIO_HARDWARE_INTERFACE : bytes := str "audio_hw_if".
Definition AUDIO_PARAMETER_VALUE_ON : bytes := str "on".

(** The [strcmp]s of [adev_set_parameters]. *)
Definition tty_of_value (value : bytes) : option Z :=
  if bytes_eq value (str "tty_off") then Some TTY_MODE_OFF
  else if bytes_eq value (str "tty_vco") then Some TTY_MODE_VCO
  else if bytes_eq value (str "tty_hco") then Some TTY_MODE_HCO
  else if bytes_eq value (str "tty_full") then Some TTY_MODE_FULL
  else None.

Section Adev.
Context {W : Type} `{OsOps W, MixOps W, PropOps W, FileOps W, SystemOps W, PropSetOps W, HalLibs W}.
Context `{HalConsts}.
Abbreviation S := (mach W hal_g).

(** ** Modes *)

Definition start_call : M S Z := ret 0.
Definition end_call : M S unit := in_iface clear_phone_route.

Definition force_all_standby : M S unit :=
  let* out := get_dev ad_active_output in
  (if out =? 0 then ret tt
   else lock_out out ;;; do_output_standby out ;;; unlock_out out) ;;;
  let* inn := get_dev ad_active_input in
  if inn =? 0 then ret tt
  else lock_in inn ;;; do_input_standby inn ;;; unlock_in inn.

(** The two modes that [in_call] stands for. *)
Definition calling (mode : Z) : bool :=
  (mode =? AUDIO_MODE_IN_CALL) || (mode =? AUDIO_MODE_MODE_FACTORY_TEST).

(** The earpiece takes the place of a speaker that plays alone. *)
Definition call_devices (d : sunxi_audio_device) : sunxi_audio_device :=
  if ad_out_device d =? AUDIO_DEVICE_OUT_SPEAKER
  then set_ad_in_device BUILTIN_MIC (set_ad_out_device AUDIO_DEVICE_OUT_EARPIECE d)
  else set_ad_out_device (Z.land (ad_out_device d) (Z.lnot AUDIO_DEVICE_OUT_SPEAKER)) d.

Definition select_mode : M S unit :=
  let* d := get_dev (fun d => d) in
  let mode := ad_mode d in
  (if calling mode then
     if ad_in_call d =? 0 then
       force_all_standby ;;;
       put_dev call_devices ;;;
       start_call ;;;
       select_output_device ;;;
       adev_set_voice_volume (ad_voice_volume d) ;;;
       put_dev (set_ad_in_call 1)
     else ret tt
   else
     if ad_in_call d =? 0 then ret tt
     else
       put_dev (set_ad_in_call 0) ;;;
       end_call ;;;
       force_all_standby ;;;
       select_output_device ;;;
       select_input_device) ;;;
  (if mode =? AUDIO_MODE_IN_COMMUNICATION then select_output_device else ret tt) ;;;
  (if mode =? AUDIO_MODE_FM then
     force_all_standby ;;; select_output_device ;;;
     adev_set_voice_volume (ad_voice_volume d) ;;; ret tt
   else ret tt).

Definition adev_set_mode (mode : Z) : M S Z :=
  lock_dev ;;;
  let* old := get_dev ad_mode in
  (if old =? mode then ret tt else put_dev (set_ad_mode mode) ;;; select_mode) ;;;
  unlock_dev ;;; ret 0.

(** ** Parameters *)

Definition adev_init_check : M S Z := ret 0.
Definition adev_set_master_volume (volume : Z) : M S Z := ret (- ENOSYS).
Definition adev_get_master_volume : M S Z := ret (- ENOSYS).
Definition adev_set_mic_mute (state : bool) : M S Z := put_dev (set_ad_mic_mute state) ;;; ret 0.
Definition adev_get_mic_mute : M S (Z * bool) := let* v := get_dev ad_mic_mute in ret (0, v).

Definition set_tty (tty_mode : Z) : M S unit :=
  lock_dev ;;;
  let* d := get_dev (fun d => d) in
  (if tty_mode =? ad_tty_mode d then ret tt
   else
     put_dev (set_ad_tty_mode tty_mode) ;;;
     if call_mode (ad_mode d) then
       select_output_device ;;; adev_set_voice_volume (ad_voice_volume d) ;;; ret tt
     else ret tt) ;;;
  unlock_dev.

(** A value the call does not know returns at once, without
    [str_parms_destroy].  [value] is an array of 32. *)
Definition adev_set_parameters (kvpairs : bytes) : M S Z :=
  let* parms := c_malloc 1 in
  let* '(r, value) := ask (parms_get kvpairs AUDIO_PARAMETER_KEY_TTY_MODE 32) in
  let tty := if 0 <=? r then tty_of_value value else Some 0 in
  match tty with
  | None => ret (- EINVAL)
  | Some tty_mode =>
      (if 0 <=? r then set_tty tty_mode else ret tt) ;;;
      let* '(r, value) := ask (parms_get kvpairs AUDIO_PARAMETER_KEY_BT_NREC 32) in
      (if 0 <=? r then put_dev (set_ad_bluetooth_nrec (bytes_eq value AUDIO_PARAMETER_VALUE_ON))
       else ret tt) ;;;
      let* '(r, value) := ask (parms_get kvpairs AUDIO_PARAMETER_DEVICES_IN_ACTIVE 32) in
      (if 0 <=? r then in_devs (set_audio_devices_active AUDIO_IN value) ;;; ret tt else ret tt) ;;;
      c_free parms ;;; ret r
  end.

(** The string the copy holds, and its address. *)
Definition dup (s : bytes) : M S (Z * bytes) := let* p := strdup s in ret (p, s).

(** The list of the active devices, which ends in a comma that is cut off. *)
Definition dup_active (in_out : Z) : M S (Z * bytes) :=
  let* '(_, devices) := in_devs (get_audio_devices_active in_out []) in dup devices.

Definition dup_devices (in_out : Z) : M S (Z * bytes) :=
  let* l := in_devs (get_audio_devices in_out) in let* l := checked l in dup l.

Definition key_is (keys : bytes) (key : string) : bool := bytes_eq keys (str key).

(** The keys after the route. *)
Definition device_lists (keys : bytes) : M S (Z * bytes) :=
  if key_is keys AUDIO_PARAMETER_DEVICES_IN then dup_devices AUDIO_IN
  else if key_is keys AUDIO_PARAMETER_DEVICES_OUT then dup_devices AUDIO_OUT
  else if key_is keys AUDIO_PARAMETER_DEVICES_IN_ACTIVE then dup_active AUDIO_IN
  else if key_is keys AUDIO_PARAMETER_DEVICES_OUT_ACTIVE then dup_active AUDIO_OUT
  else dup [].

Definition adev_get_parameters (keys : bytes) : M S (Z * bytes) :=
  if key_is keys AUDIO_PARAMETER_STREAM_ROUTING then
    let* '(r, value) := ask (prop_get "audio.routing" "") in
    if 0 <? r then dup value else device_lists keys
  else device_lists keys.

(** ** Opening and closing *)

Definition SIZEOF_adev : Z := 4096.

(** What [adev_open] sets before it looks for the cards. *)
Definition adev_new : sunxi_audio_device :=
  set_ad_first_set_audio_routing true (set_ad_raw_mode RAW_PCM (set_ad_raw_samplerate 44100 adev_zero)).

(** The codec card that captures: its mixer is the device's. *)
Definition codec_captures (d : sunxi_audio_device_manager) : bool :=
  flag_exist d && (flag_in d =? AUDIO_IN) && bytes_eq (dm_name d) (str AUDIO_NAME_CODEC).
Definition mixer_card (d : sunxi_audio_device) : Z :=
  match find_card codec_captures (ad_dev_manager d) with
  | Some k => Z.of_nat k
  | None => MAX_AUDIO_DEVICES
  end.

(** The default route, before the clients that set it are there. *)
Definition default_route : M S unit :=
  lock_dev ;;;
  put_dev (set_ad_mode AUDIO_MODE_NORMAL) ;;;
  put_dev (set_ad_out_device AUDIO_DEVICE_OUT_SPEAKER) ;;;
  put_dev (set_ad_in_device BUILTIN_MIC) ;;;
  (if h8_platform then
     let* ar := on_world ar_init in
     put_dev (set_ad_ar ar) ;;;
     init_ac100_input_output_path OUT_DEVICE_SPEAKER_AND_HEADSET IN_SOURCE_MAINMIC
   else ret tt) ;;;
  select_output_device ;;;
  put_dev (fun d => set_ad_bluetooth_nrec false
    (set_ad_tty_mode TTY_MODE_OFF (set_ad_voice_volume 10 d))) ;;;
  unlock_dev.

Definition adev_open (name : bytes) : M S Z :=
  if negb (bytes_eq name AUDIO_HARDWARE_INTERFACE) then ret (- EINVAL) else
  let* adev := c_malloc SIZEOF_adev in
  if adev =? 0 then ret (- ENOMEM) else
  set_glob (fun g => set_h_adev adev (set_h_dev adev_new g)) ;;;
  in_devs init_audio_devices ;;;
  in_devs init_audio_devices_active ;;;
  let* card := get_dev mixer_card in
  let* mixer := on_world (ta_mixer_open card) in
  put_dev (set_ad_mixer mixer) ;;;
  if mixer =? 0 then c_free adev ;;; set_glob (set_h_adev 0) ;;; ret (- EINVAL) else
  default_route ;;;
  in_iface codec_dev_init ;;;
  in_iface ril_dev_init ;;;
  ret 0.

(** The clients of the codec and of the modem stay. *)
Definition adev_close : M S Z :=
  let* d := get_dev (fun d => d) in
  (if h8_platform && negb (ad_ar d =? 0)
   then step_world (ar_free (ad_ar d)) ;;; put_dev (set_ad_ar 0) else ret tt) ;;;
  step_world (ta_mixer_close (ad_mixer d)) ;;;
  let* adev := get_glob h_adev in
  c_free adev ;;; set_glob (set_h_adev 0) ;;; ret 0.
End Adev.
