(* ===== verification/AudLive.v ===== *)
(** * audio HAL: the libraries do not block

    Every call of the codec and baseband libraries, and of the table of cards,
    that the HAL makes after it is open comes back or does something C gives no
    meaning to. *)

From S2P Require Import Prelude CLib Os Live Snd Mixer Codec CodecPad CodecPlanOne CodecPlanTwo VolumeConf.
From S2P Require Import CodecClient AudBp AudIface AudDevices.

Section Iface.
Context {W : Type} `{OsOps W, MixOps W, PropOps W, FileOps W, SystemOps W}.
Abbreviation S := (mach W iface_g).

Lemma normal_play_route_live path : live (W := W) (normal_play_route path).
Proof. live_run. Qed.
Lemma normal_play_volume_live path vol : live (W := W) (normal_play_volume path vol).
Proof. live_run. Qed.
Lemma normal_record_enable_live b : live (W := W) (normal_record_enable b).
Proof. live_run. Qed.
Lemma normal_record_route_live path : live (W := W) (normal_record_route path).
Proof. live_run. Qed.
Lemma fm_play_route_live path : live (W := W) (fm_play_route path).
Proof. live_run. Qed.
Lemma fm_record_enable_live b : live (W := W) (fm_record_enable b).
Proof. live_run. Qed.
Lemma fm_record_route_live path : live (W := W) (fm_record_route path).
Proof. live_run. Qed.
Lemma fm_volume_live path v : live (W := W) (fm_volume path v).
Proof. live_run. Qed.
Lemma factory_route_live path : live (W := W) (factory_route path).
Proof. live_run. Qed.
Lemma clear_phone_route_live : live (W := W) clear_phone_route.
Proof. live_run. Qed.
Lemma phone_play_route_live path : live (W := W) (phone_play_route path).
Proof. live_run. Qed.
Lemma phone_record_enable_live b : live (W := W) (phone_record_enable b).
Proof. live_run. Qed.
Lemma phone_record_route_live path : live (W := W) (phone_record_route path).
Proof. live_run. Qed.
Lemma phone_volume_live path v : live (W := W) (phone_volume path v).
Proof. live_run. Qed.

Lemma last_usb_live l : forall no, live (W := W) (last_usb l no).
Proof. induction l as [|i l IH]; intros no; cbn [last_usb]; live_run. Qed.
#[local] Hint Resolve last_usb_live : live.
Lemma ril_set_call_volume_live path v : live (W := W) (ril_set_call_volume path v).
Proof. live_run. Qed.
Lemma ril_set_call_audio_path_live path : live (W := W) (ril_set_call_audio_path path).
Proof. live_run. Qed.
Lemma ril_set_call_at_live cmd : live (W := W) (ril_set_call_at cmd).
Proof. live_run. Qed.
End Iface.
#[export] Hint Resolve normal_play_route_live normal_play_volume_live normal_record_enable_live
  normal_record_route_live fm_play_route_live fm_record_enable_live fm_record_route_live fm_volume_live
  factory_route_live clear_phone_route_live phone_play_route_live phone_record_enable_live
  phone_record_route_live phone_volume_live ril_set_call_volume_live ril_set_call_audio_path_live
  ril_set_call_at_live : live.

Section Devices.
Context {W : Type} `{OsOps W, PropOps W, PropSetOps W}.
Abbreviation S := (mach W dev_g).

Lemma for_cards_live l (f : Z -> M S unit) : (forall c, live (f c)) -> live (for_cards l f).
Proof. intros Hf. induction l as [|c l IH]; cbn [for_cards]; live_run. Qed.
Lemma do_init_audio_card_live card : live (W := W) (do_init_audio_card card).
Proof. live_run. Qed.
#[local] Hint Resolve do_init_audio_card_live : live.
Lemma init_audio_devices_live : live (W := W) init_audio_devices.
Proof. unfold init_audio_devices. live_run. apply for_cards_live. intros c. live_run. Qed.
Lemma updata_audio_devices_live : live (W := W) updata_audio_devices.
Proof. unfold updata_audio_devices. live_run. apply for_cards_live. intros c. live_run. Qed.
#[local] Hint Resolve updata_audio_devices_live : live.
Lemma set_audio_devices_active_live in_out devices : live (W := W) (set_audio_devices_active in_out devices).
Proof. live_run. Qed.
#[local] Hint Resolve set_audio_devices_active_live : live.
Lemma default_card_live card a : live (W := W) (default_card card a).
Proof. live_run. Qed.
#[local] Hint Resolve default_card_live : live.
Lemma use_codec_live l : forall a, live (W := W) (use_codec l a).
Proof. induction l as [|c l IH]; intros a; cbn [use_codec]; live_run. Qed.
Lemma use_any_live l : forall a, live (W := W) (use_any l a).
Proof. induction l as [|c l IH]; intros a; cbn [use_any]; live_run. Qed.
#[local] Hint Resolve use_codec_live use_any_live : live.
Lemma init_audio_devices_active_live : live (W := W) init_audio_devices_active.
Proof. live_run. Qed.
Lemma get_audio_devices_live in_out : live (W := W) (get_audio_devices in_out).
Proof. live_run. Qed.
Lemma get_audio_devices_active_live in_out devices : live (W := W) (get_audio_devices_active in_out devices).
Proof. live_run. Qed.
End Devices.
#[export] Hint Resolve init_audio_devices_live init_audio_devices_active_live set_audio_devices_active_live
  get_audio_devices_live get_audio_devices_active_live : live.
