(* ===== verification/AudCore.v ===== *)
(** * audio HAL: the part of the state that the mutexes and the streams share

    [core]: who holds which mutex, the mode, whether a call is on, which streams
    there are, which of them are in standby, and which the device takes for
    active.  [at_core c] are the states of the HAL with core [c] and a well
    formed table of cards; [triple] states what a call makes of them, and
    [hstep] runs a call on the core alone. *)

From S2P Require Import Prelude CLib Os Live Snd Mixer Pcm Codec VolumeConf CodecClient AudBp AudIface.
From S2P Require Import AudRing AudDevices AudDevTheorems AudEnv AudHw.

(** ** The core *)

(** A stream: its mutex is held; it is in standby. *)
Abbreviation stream_core := (bool * bool)%type.
Record core := Core {
  co_lock : bool;
  co_mode : Z;
  co_in_call : Z;
  co_out : Z;                  (* active_output *)
  co_in : Z;                   (* active_input *)
  co_outs : gmap Z stream_core;
  co_ins : gmap Z stream_core;
}.
Definition co_set_lock v c := Core v (co_mode c) (co_in_call c) (co_out c) (co_in c) (co_outs c) (co_ins c).
Definition co_set_mode v c := Core (co_lock c) v (co_in_call c) (co_out c) (co_in c) (co_outs c) (co_ins c).
Definition co_set_in_call v c := Core (co_lock c) (co_mode c) v (co_out c) (co_in c) (co_outs c) (co_ins c).
Definition co_set_out v c := Core (co_lock c) (co_mode c) (co_in_call c) v (co_in c) (co_outs c) (co_ins c).
Definition co_set_in v c := Core (co_lock c) (co_mode c) (co_in_call c) (co_out c) v (co_outs c) (co_ins c).
Definition co_set_outs v c := Core (co_lock c) (co_mode c) (co_in_call c) (co_out c) (co_in c) v (co_ins c).
Definition co_set_ins v c := Core (co_lock c) (co_mode c) (co_in_call c) (co_out c) (co_in c) (co_outs c) v.
Definition co_put_out p v c := co_set_outs (<[p := v]> (co_outs c)) c.
Definition co_put_in p v c := co_set_ins (<[p := v]> (co_ins c)) c.

Definition out_core (o : sunxi_stream_out) : stream_core := (so_lock o, so_standby o).
Definition in_core (i : sunxi_stream_in) : stream_core := (si_lock i, si_standby i).
Definition core_of (g : hal_g) : core :=
  let d := h_dev g in
  Core (ad_lock d) (ad_mode d) (ad_in_call d) (ad_active_output d) (ad_active_input d)
    (out_core <$> h_outs g) (in_core <$> h_ins g).
(** The frames a capture stream has left, and the length of a period. *)
Definition in_typed (i : sunxi_stream_in) : Prop := 1 <= period_size (si_config i) /\ 0 <= si_frames_in i.
Definition typed (g : hal_g) : Prop := dev_ok (devs_of g) /\ map_Forall (fun _ => in_typed) (h_ins g).
Definition at_core (c : core) (g : hal_g) : Prop := core_of g = c /\ typed g.

(** The mutexes of the streams are free. *)
Definition free_locks (m : gmap Z stream_core) : Prop := map_Forall (fun _ v => fst v = false) m.

(** ** Triples *)

Section Triple.
Context {W : Type}.
Abbreviation S := (mach W hal_g).

Definition triple {A} (P : hal_g -> Prop) (m : M S A) (Q : A -> hal_g -> Prop) : Prop :=
  forall g, P g -> wpg g m Q.

Lemma t_bind {A B} P (m : M S A) (k : A -> M S B) R Q :
  triple P m R -> (forall a, triple (R a) (k a) Q) -> triple P (bind m k) Q.
Proof. intros Hm Hk g HP. eapply wpg_call; [by apply Hm|]. intros a g' HR. by apply Hk. Qed.
Lemma t_mono {A} P (m : M S A) (Q R : A -> hal_g -> Prop) :
  triple P m R -> (forall a g, R a g -> Q a g) -> triple P m Q.
Proof. intros Hm HQ g HP. eapply wpg_mono; [by apply Hm|done]. Qed.
Lemma t_pre {A} (P P' : hal_g -> Prop) (m : M S A) Q :
  triple P' m Q -> (forall g, P g -> P' g) -> triple P m Q.
Proof. intros Hm HP g H. by apply Hm, HP. Qed.
Lemma t_assoc {A B C} P (m : M S A) (k : A -> M S B) (h : B -> M S C) Q :
  triple P (bind m (fun a => bind (k a) h)) Q -> triple P (bind (bind m k) h) Q.
Proof. intros Hm g HP. by apply wpg_assoc, Hm. Qed.
Lemma t_ret {A} (P : hal_g -> Prop) (a : A) (Q : A -> hal_g -> Prop) : (forall g, P g -> Q a g) -> triple P (ret a) Q.
Proof. intros HQ g HP. apply wpg_ret. by apply HQ. Qed.
Lemma t_undef {A} P (Q : A -> hal_g -> Prop) : triple P (undef (S := S)) Q.
Proof. intros g _. apply wpg_undef. Qed.
Lemma t_ret_bind {A B} P (a : A) (k : A -> M S B) Q : triple P (k a) Q -> triple P (bind (ret a) k) Q.
Proof. intros Hk g HP. by apply wpg_ret_bind, Hk. Qed.
Lemma t_checked {A B} P (o : option A) (k : A -> M S B) Q :
  (forall a, o = Some a -> triple P (k a) Q) -> triple P (bind (checked o) k) Q.
Proof. intros Hk g HP. apply wpg_checked. intros a E. by apply Hk. Qed.
Lemma t_on_world {A B} P (f : W -> A * W) (k : A -> M S B) Q :
  (forall a, triple P (k a) Q) -> triple P (bind (on_world f) k) Q.
Proof. intros Hk g HP. apply wpg_on_world. intros a. by apply Hk. Qed.
Lemma t_on_world_law {A B} P (f : W -> A * W) (k : A -> M S B) (law : A -> Prop) Q :
  (forall w, law (fst (f w))) -> (forall a, law a -> triple P (k a) Q) -> triple P (bind (on_world f) k) Q.
Proof.
  intros Hl Hk g HP s E. specialize (Hl (world s)). unfold bind, on_world. destruct (f _) as [a w].
  by apply (Hk a Hl g).
Qed.
Lemma t_step_world {B} P (f : W -> W) (k : unit -> M S B) Q :
  triple P (k tt) Q -> triple P (bind (step_world f) k) Q.
Proof. intros Hk g HP. by apply wpg_step_world, Hk. Qed.
Lemma t_step_world_end P (f : W -> W) (Q : unit -> hal_g -> Prop) :
  (forall g, P g -> Q tt g) -> triple P (step_world f) Q.
Proof. intros HQ g HP s <-. by apply HQ. Qed.
Lemma t_ask {A B} P (f : W -> A) (k : A -> M S B) Q :
  (forall a, triple P (k a) Q) -> triple P (bind (ask f) k) Q.
Proof. intros Hk g HP. apply wpg_ask. intros a. by apply Hk. Qed.
Lemma t_quiet {A B} P (m : M S A) (k : A -> M S B) Q :
  live m -> quiet m -> (forall a, triple P (k a) Q) -> triple P (bind m k) Q.
Proof. intros Hl Hq Hk g HP. apply wpg_quiet; [done..|]. intros a. by apply Hk. Qed.
Lemma t_get {A B} (P : hal_g -> Prop) (f : hal_g -> A) (k : A -> M S B) Q :
  (forall g, P g -> triple (fun g' => g' = g) (k (f g)) Q) -> triple P (bind (get_glob f) k) Q.
Proof. intros Hk g HP. apply wpg_get. by apply (Hk g). Qed.
Lemma t_pure {A} (P : hal_g -> Prop) (phi : Prop) (m : M S A) Q :
  (phi -> triple P m Q) -> triple (fun g => P g /\ phi) m Q.
Proof. intros Hm g [HP Hp]. by apply Hm. Qed.
End Triple.

(** ** The steps on the core *)

Section Steps.
Context {W : Type} `{OsOps W, MixOps W, PropOps W, FileOps W, SystemOps W, PropSetOps W, HalLibs W}.
Context `{HalConsts}.
Abbreviation S := (mach W hal_g).
Context {B : Type} (Q : B -> hal_g -> Prop).

(** Reading a field of the device. *)
Lemma t_dev c (k : sunxi_audio_device -> M S B) :
  (forall d, ad_lock d = co_lock c -> ad_mode d = co_mode c -> ad_in_call d = co_in_call c ->
     ad_active_output d = co_out c -> ad_active_input d = co_in c -> triple (at_core c) (k d) Q) ->
  triple (at_core c) (bind (get_dev (fun d => d)) k) Q.
Proof. intros Hk g [<- Hd]. apply wpg_get. by apply (Hk (h_dev g)). Qed.
Lemma t_get_dev {A} c (f : sunxi_audio_device -> A) (k : A -> M S B) :
  (forall a, triple (at_core c) (k a) Q) -> triple (at_core c) (bind (get_dev f) k) Q.
Proof. intros Hk g Hg. apply wpg_get. by apply Hk. Qed.
Lemma t_get_mode c (k : Z -> M S B) :
  triple (at_core c) (k (co_mode c)) Q -> triple (at_core c) (bind (get_dev ad_mode) k) Q.
Proof. intros Hk g [<- Hd]. apply wpg_get. by apply Hk. Qed.
Lemma t_get_lock c (k : bool -> M S B) :
  triple (at_core c) (k (co_lock c)) Q -> triple (at_core c) (bind (get_dev ad_lock) k) Q.
Proof. intros Hk g [<- Hd]. apply wpg_get. by apply Hk. Qed.
Lemma t_get_out c (k : Z -> M S B) :
  triple (at_core c) (k (co_out c)) Q -> triple (at_core c) (bind (get_dev ad_active_output) k) Q.
Proof. intros Hk g [<- Hd]. apply wpg_get. by apply Hk. Qed.
Lemma t_get_in c (k : Z -> M S B) :
  triple (at_core c) (k (co_in c)) Q -> triple (at_core c) (bind (get_dev ad_active_input) k) Q.
Proof. intros Hk g [<- Hd]. apply wpg_get. by apply Hk. Qed.

(** Writing one: [u] is what it does to the core. *)
Lemma t_put_dev c u (f : sunxi_audio_device -> sunxi_audio_device) (k : unit -> M S B) :
  (forall g, core_of (set_h_dev (f (h_dev g)) g) = u (core_of g)) ->
  (forall g, dev_ok (devs_of g) -> dev_ok (devs_of (set_h_dev (f (h_dev g)) g))) ->
  triple (at_core (u c)) (k tt) Q -> triple (at_core c) (bind (put_dev f) k) Q.
Proof.
  intros Hu Hd Hk g [<- [Hg Hi]]. apply wpg_set. apply Hk. split; [apply Hu|]. split; [by apply Hd|done].
Qed.

Lemma t_the_out c out (k : sunxi_stream_out -> M S B) :
  (forall o, co_outs c !! out = Some (out_core o) -> triple (at_core c) (k o) Q) ->
  triple (at_core c) (bind (the_out out) k) Q.
Proof.
  intros Hk g [<- Hd]. apply wpg_assoc, wpg_get, wpg_checked. intros o E. apply Hk; [|done].
  cbn. by rewrite lookup_fmap, E.
Qed.
Lemma t_the_in c inn (k : sunxi_stream_in -> M S B) :
  (forall i, co_ins c !! inn = Some (in_core i) -> in_typed i -> triple (at_core c) (k i) Q) ->
  triple (at_core c) (bind (the_in inn) k) Q.
Proof.
  intros Hk g [<- [Hd Hi]]. apply wpg_assoc, wpg_get, wpg_checked. intros i E. apply Hk; [| |done].
  - cbn. by rewrite lookup_fmap, E.
  - by apply Hi in E.
Qed.

Lemma core_put_out g out o :
  core_of (set_h_outs (<[out := o]> (h_outs g)) g) = co_put_out out (out_core o) (core_of g).
Proof. unfold core_of, co_put_out, co_set_outs. cbn. by rewrite fmap_insert. Qed.
Lemma core_put_in g inn i :
  core_of (set_h_ins (<[inn := i]> (h_ins g)) g) = co_put_in inn (in_core i) (core_of g).
Proof. unfold core_of, co_put_in, co_set_ins. cbn. by rewrite fmap_insert. Qed.
Lemma co_put_out_same c out v : co_outs c !! out = Some v -> co_put_out out v c = c.
Proof. intros E. unfold co_put_out, co_set_outs. rewrite insert_id by done. by destruct c. Qed.
Lemma co_put_in_same c inn v : co_ins c !! inn = Some v -> co_put_in inn v c = c.
Proof. intros E. unfold co_put_in, co_set_ins. rewrite insert_id by done. by destruct c. Qed.

Lemma t_put_out c out f v (k : unit -> M S B) :
  (forall o, co_outs c !! out = Some (out_core o) -> out_core (f o) = v o) ->
  (forall o, co_outs c !! out = Some (out_core o) -> triple (at_core (co_put_out out (v o) c)) (k tt) Q) ->
  triple (at_core c) (bind (put_out out f) k) Q.
Proof.
  intros Hf Hk g [<- Hd]. apply wpg_assoc, wpg_assoc, wpg_get, wpg_checked. intros o E. apply wpg_set.
  assert (Ho : co_outs (core_of g) !! out = Some (out_core o)) by (cbn; by rewrite lookup_fmap, E).
  apply (Hk o Ho). split; [|done]. by rewrite core_put_out, Hf.
Qed.
(** A change that the core does not see. *)
Lemma t_keep_out c out f (k : unit -> M S B) :
  (forall o, out_core (f o) = out_core o) -> triple (at_core c) (k tt) Q ->
  triple (at_core c) (bind (put_out out f) k) Q.
Proof.
  intros Hf Hk. apply t_put_out with (v := out_core); [by intros o _|].
  intros o Ho. by rewrite co_put_out_same.
Qed.
Lemma t_put_in c inn f v (k : unit -> M S B) :
  (forall i, in_typed i -> in_typed (f i)) ->
  (forall i, co_ins c !! inn = Some (in_core i) -> in_core (f i) = v i) ->
  (forall i, co_ins c !! inn = Some (in_core i) -> triple (at_core (co_put_in inn (v i) c)) (k tt) Q) ->
  triple (at_core c) (bind (put_in inn f) k) Q.
Proof.
  intros Ht Hf Hk g [<- [Hd Hi']]. apply wpg_assoc, wpg_assoc, wpg_get, wpg_checked. intros i E. apply wpg_set.
  assert (Hi : co_ins (core_of g) !! inn = Some (in_core i)) by (cbn; by rewrite lookup_fmap, E).
  apply (Hk i Hi). split; [by rewrite core_put_in, Hf|]. split; [done|].
  apply map_Forall_insert_2; [|done]. apply Ht. by apply Hi' in E.
Qed.
Lemma t_keep_in c inn f (k : unit -> M S B) :
  (forall i, in_typed i -> in_typed (f i)) ->
  (forall i, in_core (f i) = in_core i) -> triple (at_core c) (k tt) Q ->
  triple (at_core c) (bind (put_in inn f) k) Q.
Proof.
  intros Ht Hf Hk. apply t_put_in with (v := in_core); [done|by intros i _|].
  intros i Hi. by rewrite co_put_in_same.
Qed.

(** The mutexes. *)
Lemma t_lock_dev c (k : unit -> M S B) :
  co_lock c = false -> triple (at_core (co_set_lock true c)) (k tt) Q ->
  triple (at_core c) (bind lock_dev k) Q.
Proof.
  intros Hc Hk. apply t_assoc, t_get_lock. rewrite Hc. apply (t_put_dev c (co_set_lock true)); done.
Qed.
Lemma t_unlock_dev c (k : unit -> M S B) :
  triple (at_core (co_set_lock false c)) (k tt) Q -> triple (at_core c) (bind unlock_dev k) Q.
Proof. intros Hk. apply (t_put_dev c (co_set_lock false)); done. Qed.
Lemma t_lock_out c out (k : unit -> M S B) :
  (forall sb, co_outs c !! out = Some (false, sb) ->
     triple (at_core (co_put_out out (true, sb) c)) (k tt) Q) ->
  (forall sb, co_outs c !! out <> Some (true, sb)) ->
  triple (at_core c) (bind (lock_out out) k) Q.
Proof.
  intros Hk Hf. apply t_assoc, t_the_out. intros o Ho. unfold out_core in Ho.
  destruct (so_lock o) eqn:El; [by destruct (Hf _ Ho)|].
  apply t_put_out with (v := fun o => (true, so_standby o)); [done|].
  intros o' Ho'. apply Hk. rewrite Ho in Ho' |- *. unfold out_core in Ho'. congruence.
Qed.
Lemma t_unlock_out c out (k : unit -> M S B) :
  (forall l sb, co_outs c !! out = Some (l, sb) -> triple (at_core (co_put_out out (false, sb) c)) (k tt) Q) ->
  triple (at_core c) (bind (unlock_out out) k) Q.
Proof.
  intros Hk. apply t_put_out with (v := fun o => (false, so_standby o)); [done|].
  intros o Ho. by apply (Hk (so_lock o)).
Qed.
Lemma t_lock_in c inn (k : unit -> M S B) :
  (forall sb, co_ins c !! inn = Some (false, sb) ->
     triple (at_core (co_put_in inn (true, sb) c)) (k tt) Q) ->
  (forall sb, co_ins c !! inn <> Some (true, sb)) ->
  triple (at_core c) (bind (lock_in inn) k) Q.
Proof.
  intros Hk Hf. apply t_assoc, t_the_in. intros i Hi _. unfold in_core in Hi.
  destruct (si_lock i) eqn:El; [by destruct (Hf _ Hi)|].
  apply t_put_in with (v := fun i => (true, si_standby i)); [done..|].
  intros i' Hi'. apply Hk. rewrite Hi in Hi' |- *. unfold in_core in Hi'. congruence.
Qed.
Lemma t_unlock_in c inn (k : unit -> M S B) :
  (forall l sb, co_ins c !! inn = Some (l, sb) -> triple (at_core (co_put_in inn (false, sb) c)) (k tt) Q) ->
  triple (at_core c) (bind (unlock_in inn) k) Q.
Proof.
  intros Hk. apply t_put_in with (v := fun i => (false, si_standby i)); [done..|].
  intros i Hi. by apply (Hk (si_lock i)).
Qed.

(** The other components. *)
Lemma t_iface {A} c (m : M (mach W iface_g) A) (k : A -> M S B) :
  live m -> (forall a, triple (at_core c) (k a) Q) -> triple (at_core c) (bind (in_iface m) k) Q.
Proof.
  intros Hm Hk g [<- Hd]. apply wpg_bind, wpg_zoom. eapply wpg_mono; [by apply live_wpg|].
  intros a v _. by apply Hk.
Qed.
Lemma t_devs {A} c (m : M (mach W dev_g) A) (k : A -> M S B) :
  live m -> pc dev_ok m (fun _ => dev_ok) -> (forall a, triple (at_core c) (k a) Q) ->
  triple (at_core c) (bind (in_devs m) k) Q.
Proof.
  intros Hm Hp Hk g [<- [Hd Hi]]. apply wpg_bind, wpg_zoom. eapply wpg_mono; [by eapply pc_wpg|].
  intros a v Hv. apply Hk. split; [done|]. split; [|done]. destruct v. exact Hv.
Qed.
End Steps.

Section Calls.
Context {W : Type}.
Abbreviation S := (mach W hal_g).

(** A step that leaves the core. *)
Lemma t_still {A B} c (m : M S A) (k : A -> M S B) Q :
  triple (at_core c) m (fun _ => at_core c) -> (forall a, triple (at_core c) (k a) Q) ->
  triple (at_core c) (bind m k) Q.
Proof. intros Hm Hk. by eapply t_bind; [apply Hm|]. Qed.
Lemma t_ret_core {A} c c' (a : A) : c = c' -> triple (W := W) (at_core c) (ret a) (fun _ => at_core c').
Proof. intros ->. by apply t_ret. Qed.
Lemma t_or {A} (P P' : hal_g -> Prop) (m : M S A) Q :
  triple P m Q -> triple P' m Q -> triple (fun g => P g \/ P' g) m Q.
Proof. intros H1' H2' g [HP|HP]; [by apply H1'|by apply H2']. Qed.
Lemma t_ex {A X} (P : X -> hal_g -> Prop) (m : M S A) Q :
  (forall x, triple (P x) m Q) -> triple (fun g => exists x, P x g) m Q.
Proof. intros Hm g [x HP]. by apply (Hm x). Qed.

End Calls.

(** A call at the end of another. *)
Lemma t_end {W A} (P : hal_g -> Prop) (m : M (mach W hal_g) A) Q : triple P (bind m ret) Q -> triple P m Q.
Proof. intros Hm g HP. by apply wpg_end, Hm. Qed.

(** [hstep] runs the next step of a call on the core; it stops at a call, a
    branch of the core, and a mutex. *)
Ltac hstep :=
  lazymatch goal with
  | |- triple _ (bind (bind _ _) _) _ => apply t_assoc
  | |- triple _ (bind (ret _) _) _ => apply t_ret_bind; cbn beta iota
  | |- triple _ (bind undef _) _ => intros ? ?; apply wpg_bind, wpg_undef
  | |- triple _ undef _ => apply t_undef
  | |- triple _ (bind (checked _) _) _ => apply t_checked; intros ? ?
  | |- triple _ (bind (on_world _) _) _ => apply t_on_world; intros ?
  | |- triple _ (bind (step_world _) _) _ => apply t_step_world
  | |- triple _ (bind (ask _) _) _ => apply t_ask; intros ?
  | |- triple _ (bind (ta_handle _) _) _ => apply t_quiet; [unfold ta_handle; live_run|unfold ta_handle; case_match; auto with quiet|intros _]
  | |- triple _ (bind (c_malloc _) _) _ => apply t_quiet; [auto with live|auto with quiet|intros ?]
  | |- triple _ (bind (c_free _) _) _ => apply t_quiet; [auto with live|auto with quiet|intros ?]
  | |- triple _ (bind (get_dev ad_mode) _) _ => apply t_get_mode
  | |- triple _ (bind (get_dev ad_lock) _) _ => apply t_get_lock
  | |- triple _ (bind (get_dev ad_active_output) _) _ => apply t_get_out
  | |- triple _ (bind (get_dev ad_active_input) _) _ => apply t_get_in
  | |- triple _ (bind (get_dev (fun d => d)) _) _ =>
      apply t_dev; let d := fresh "d" in intros d ?Hlock ?Hmode ?Hcall ?Hout ?Hin
  | |- triple _ (bind (get_dev _) _) _ => apply t_get_dev; intros ?
  | |- triple _ (bind (the_out _) _) _ => apply t_the_out; let o := fresh "o" in intros o ?Ho
  | |- triple _ (bind (the_in _) _) _ => apply t_the_in; let i := fresh "i" in intros i ?Hi ?Hty
  | |- triple _ (bind (in_iface _) _) _ => apply t_iface; [auto with live|intros ?]
  | |- triple _ (bind (if ?b then _ else _) _) _ => destruct b
  | |- triple _ (if ?b then _ else _) _ => destruct b
  | |- triple _ (bind (match ?x with _ => _ end) _) _ => destruct x
  | |- triple _ (match ?x with _ => _ end) _ => destruct x
  | |- triple _ (let _ := _ in _) _ => cbv zeta
  end.
Ltac hsteps := repeat hstep.
(** The change of a field that the core does not have. *)
Ltac hkeep :=
  lazymatch goal with
  | |- triple _ (bind (put_dev _) _) _ => apply (t_put_dev _ _ id); [done|solve [done|intros ? []; by constructor]|unfold id]
  | |- triple _ (bind (put_out _ _) _) _ => apply t_keep_out; [done|]
  | |- triple _ (bind (put_in _ _) _) _ => apply t_keep_in; [done|done|]
  end.
Ltac hrun := repeat first [hstep | hkeep].
Ltac hassoc :=
  repeat lazymatch goal with |- triple _ (bind (bind _ _) _) _ => apply t_assoc end.
(** A call that leaves the core, and one that moves it. *)
Tactic Notation "hcall" uconstr(lem) :=
  hassoc; apply t_still; [solve [apply lem; done]|intros ?].
Tactic Notation "hmove" uconstr(lem) :=
  hassoc; eapply t_bind; [solve [apply lem; done]|intros ?; cbn beta].
Ltac hdone := apply t_ret; by intros.
