(* ===== verification/AudSafe.v ===== *)
(** * audio HAL: the mutexes, the mode and the active streams

    Every call of the HAL, from any state the others can leave, comes back with
    the mutexes free, the call flag on the side of the mode, and the two active
    streams among the streams that are open and out of standby. *)

From S2P Require Import Prelude CLib Os Live Snd Mixer Pcm Codec VolumeConf CodecClient AudBp AudIface.
From S2P Require Import AudRing AudDevices AudDevTheorems AudEnv AudHw AudOut AudIn AudAdev AudLive AudCore.

(** ** What the calls make of the core *)

(** [lock; ...; unlock] leaves the core. *)
Lemma co_relock_out c out sb :
  co_outs c !! out = Some (false, sb) -> co_put_out out (false, sb) (co_put_out out (true, sb) c) = c.
Proof.
  intros E. unfold co_put_out, co_set_outs. cbn. rewrite insert_insert_eq, insert_id by done. by destruct c.
Qed.
Lemma co_relock_in c inn sb :
  co_ins c !! inn = Some (false, sb) -> co_put_in inn (false, sb) (co_put_in inn (true, sb) c) = c.
Proof.
  intros E. unfold co_put_in, co_set_ins. cbn. rewrite insert_insert_eq, insert_id by done. by destruct c.
Qed.

(** Nobody holds the mutex of the stream. *)
Definition open_out (c : core) (out : Z) : Prop := forall sb, co_outs c !! out <> Some (true, sb).
Definition open_in (c : core) (inn : Z) : Prop := forall sb, co_ins c !! inn <> Some (true, sb).

Definition co_standby_out (out : Z) (c : core) : core :=
  match co_outs c !! out with
  | Some (l, false) => co_put_out out (l, true) (co_set_out 0 c)
  | _ => c
  end.
Definition co_standby_in (inn : Z) (c : core) : core :=
  match co_ins c !! inn with
  | Some (l, false) => co_put_in inn (l, true) (co_set_in 0 c)
  | _ => c
  end.

Lemma co_lock_id c v : co_lock c = false -> co_set_lock false (co_set_lock v c) = c.
Proof. destruct c; cbn. by intros ->. Qed.
Lemma co_standby_in_lock inn v c : co_standby_in inn (co_set_lock v c) = co_set_lock v (co_standby_in inn c).
Proof. unfold co_standby_in. cbn. by destruct (co_ins c !! inn) as [[l []]|]. Qed.
Lemma co_standby_out_lock out v c : co_standby_out out (co_set_lock v c) = co_set_lock v (co_standby_out out c).
Proof. unfold co_standby_out. cbn. by destruct (co_outs c !! out) as [[l []]|]. Qed.
Lemma standby_in_lock_eq inn c : co_lock (co_standby_in inn c) = co_lock c.
Proof. unfold co_standby_in. by destruct (co_ins c !! inn) as [[l []]|]. Qed.
Lemma standby_out_lock_eq out c : co_lock (co_standby_out out c) = co_lock c.
Proof. unfold co_standby_out. by destruct (co_outs c !! out) as [[l []]|]. Qed.

(** A resampler is made when it is asked for. *)
Class ResamplerMade (W : Type) `{HalLibs W} := {
  rs_made : forall a b n (w : W), fst (fst (rs_create a b n w)) = 0;
}.

Section Safe.
Context {W : Type} `{OsOps W, MixOps W, PropOps W, FileOps W, SystemOps W, PropSetOps W, HalLibs W}.
Context `{HalConsts}.
Abbreviation S := (mach W hal_g).
Abbreviation still m := (forall c, triple (W := W) (at_core c) m (fun _ => at_core c)).

(** *** The mutex of a stream around a call *)

Lemma t_release_out {B} c out sb (k : unit -> M S B) Q :
  co_outs c !! out = Some (false, sb) -> triple (at_core c) (k tt) Q ->
  triple (at_core (co_put_out out (true, sb) c)) (bind (unlock_out out) k) Q.
Proof.
  intros E Hk. apply t_unlock_out. intros l sb' E'. cbn in E'. rewrite lookup_insert_eq in E'.
  injection E' as <- <-. by rewrite co_relock_out.
Qed.
Lemma t_release_in {B} c inn sb (k : unit -> M S B) Q :
  co_ins c !! inn = Some (false, sb) -> triple (at_core c) (k tt) Q ->
  triple (at_core (co_put_in inn (true, sb) c)) (bind (unlock_in inn) k) Q.
Proof.
  intros E Hk. apply t_unlock_in. intros l sb' E'. cbn in E'. rewrite lookup_insert_eq in E'.
  injection E' as <- <-. by rewrite co_relock_in.
Qed.
(** ... when the stream went to standby under it. *)
Lemma t_release_standby_out {B} c out sb (k : unit -> M S B) Q :
  co_outs c !! out = Some (false, sb) -> triple (at_core (co_standby_out out c)) (k tt) Q ->
  triple (at_core (co_standby_out out (co_put_out out (true, sb) c))) (bind (unlock_out out) k) Q.
Proof.
  intros E Hk. unfold co_standby_out in *. cbn. rewrite lookup_insert_eq. rewrite E in Hk.
  destruct sb; [by apply t_release_out|].
  apply t_unlock_out. intros l sb' E'. cbn in E'. rewrite !insert_insert_eq, lookup_insert_eq in E'.
  injection E' as <- <-. unfold co_put_out, co_set_outs, co_set_out in *. cbn in *.
  by rewrite !insert_insert_eq.
Qed.
Lemma t_release_standby_in {B} c inn sb (k : unit -> M S B) Q :
  co_ins c !! inn = Some (false, sb) -> triple (at_core (co_standby_in inn c)) (k tt) Q ->
  triple (at_core (co_standby_in inn (co_put_in inn (true, sb) c))) (bind (unlock_in inn) k) Q.
Proof.
  intros E Hk. unfold co_standby_in in *. cbn. rewrite lookup_insert_eq. rewrite E in Hk.
  destruct sb; [by apply t_release_in|].
  apply t_unlock_in. intros l sb' E'. cbn in E'. rewrite !insert_insert_eq, lookup_insert_eq in E'.
  injection E' as <- <-. unfold co_put_in, co_set_ins, co_set_in in *. cbn in *.
  by rewrite !insert_insert_eq.
Qed.

(** *** The echo reference *)

Lemma remove_echo_reference_t c out r :
  open_out c out -> triple (at_core c) (remove_echo_reference (W := W) out r) (fun _ => at_core c).
Proof.
  intros Ho. unfold remove_echo_reference. apply t_end, t_assoc, t_lock_out; [intros sb E|done].
  hrun; apply t_release_out; try done; hdone.
Qed.
Lemma add_echo_reference_t c out r :
  open_out c out -> triple (at_core c) (add_echo_reference (W := W) out r) (fun _ => at_core c).
Proof.
  intros Ho. unfold add_echo_reference. apply t_end, t_assoc, t_lock_out; [intros sb E|done].
  hrun; apply t_release_out; try done; hdone.
Qed.
Lemma put_echo_reference_t c r :
  open_out c (co_out c) -> triple (at_core c) (put_echo_reference (W := W) r) (fun _ => at_core c).
Proof.
  intros Ho. unfold put_echo_reference. apply t_end. hrun; try hdone.
  hcall remove_echo_reference_t. hrun. hdone.
Qed.
Lemma get_echo_reference_t c n rate :
  open_out c (co_out c) -> triple (at_core c) (get_echo_reference (W := W) n rate) (fun _ => at_core c).
Proof.
  intros Ho. unfold get_echo_reference. apply t_end. hrun.
  hcall put_echo_reference_t. hrun; try hdone.
  hcall add_echo_reference_t. hrun; hdone.
Qed.

(** *** Routes *)

Lemma select_output_device_t c : triple (at_core c) (select_output_device (W := W)) (fun _ => at_core c).
Proof.
  unfold select_output_device, set_incall_device. apply t_end. hrun; hdone.
Qed.
Lemma select_input_device_t c : triple (at_core c) (select_input_device (W := W)) (fun _ => at_core c).
Proof. unfold select_input_device. apply t_end. hrun; hdone. Qed.
Lemma adev_set_voice_volume_t c v : triple (at_core c) (adev_set_voice_volume (W := W) v) (fun _ => at_core c).
Proof. unfold adev_set_voice_volume, set_bp_volume. apply t_end. hrun; hdone. Qed.
Lemma init_ac100_t c a b : triple (at_core c) (init_ac100_input_output_path (W := W) a b) (fun _ => at_core c).
Proof. unfold init_ac100_input_output_path, apply_opt. apply t_end. hrun; hdone. Qed.

(** *** Standby *)

Lemma drop_handle_t c p free : triple (at_core c) (drop_handle (W := W) p free) (fun _ => at_core c).
Proof. unfold drop_handle. apply t_end. hrun; hdone. Qed.
Lemma standby_cards_t l : forall c out, triple (at_core c) (standby_cards (W := W) l out) (fun _ => at_core c).
Proof.
  induction l as [|i l IH]; intros c out; cbn [standby_cards]; [hdone|].
  hstep. do 2 (hcall drop_handle_t; hassoc; hkeep). apply IH.
Qed.
Lemma do_output_standby_t c out :
  triple (at_core c) (do_output_standby (W := W) out) (fun _ => at_core (co_standby_out out c)).
Proof.
  unfold do_output_standby. hstep. unfold co_standby_out. rewrite Ho. unfold out_core.
  destruct (so_standby o) eqn:Es; [hdone|]. apply t_end.
  do 2 (hcall drop_handle_t; hassoc; hkeep).
  hcall standby_cards_t. hsteps.
  apply (t_put_dev _ _ (co_set_out 0)); [done|solve [intros ? []; by constructor]|].
  hrun.
  all: apply (t_put_out _ _ _ _ (fun o => (so_lock o, true))); [done|intros o' Ho'; cbn in Ho'].
  all: rewrite Ho in Ho'; unfold out_core in Ho'; injection Ho' as El _; rewrite <- El; hrun; hdone.
Qed.
Lemma out_standby_t c out :
  open_out c out -> triple (at_core c) (out_standby (W := W) out) (fun _ => at_core (co_standby_out out c)).
Proof.
  intros Ho. unfold out_standby. apply t_end, t_assoc, t_lock_out; [intros sb E|done].
  hmove do_output_standby_t.
  apply t_assoc, t_release_standby_out; [done|]. hrun; hdone.
Qed.

Lemma input_standby_tail_t c inn (i : sunxi_stream_in) l :
  open_out c (co_out c) -> co_ins c !! inn = Some (l, false) ->
  triple (at_core c)
    ((if si_echo_reference i =? 0 then ret tt
      else
        step_world (er_read (si_echo_reference i) None) ;;;
        put_echo_reference (si_echo_reference i) ;;;
        put_in inn (set_si_echo_reference 0)) ;;;
     drop_handle (si_resampler i) rs_release ;;; put_in inn (set_si_resampler 0) ;;;
     put_in inn (set_si_standby true) ;;; ret 0)
    (fun _ => at_core (co_put_in inn (l, true) c)).
Proof.
  intros Hf Hi. eapply (t_bind _ _ _ (fun _ => at_core c)).
  { hrun; [hdone|]. hcall put_echo_reference_t. apply t_end. hrun. hdone. }
  intros []. hcall drop_handle_t. hkeep.
  apply (t_put_in _ _ _ _ (fun i => (si_lock i, true))); [done|done|intros i' Hi'].
  rewrite Hi in Hi'. unfold in_core in Hi'. injection Hi' as <- _. hdone.
Qed.
Lemma do_input_standby_t c inn :
  open_out c (co_out c) ->
  triple (at_core c) (do_input_standby (W := W) inn) (fun _ => at_core (co_standby_in inn c)).
Proof.
  intros Hf. unfold do_input_standby. hstep. unfold co_standby_in. rewrite Hi. unfold in_core in *.
  destruct (si_standby i) eqn:Es; [hdone|]. hrun.
  apply (t_put_dev _ _ (co_set_in 0)); [done|solve [intros ? []; by constructor]|].
  hstep. eapply (t_bind _ _ _ (fun _ => at_core (co_set_in 0 c))).
  { apply t_end. hrun; [hdone|]. hcall select_input_device_t. hdone. }
  intros []. by apply input_standby_tail_t.
Qed.
Lemma in_standby_t c inn :
  co_lock c = false -> open_in c inn -> open_out c (co_out c) ->
  triple (at_core c) (in_standby (W := W) inn) (fun _ => at_core (co_standby_in inn c)).
Proof.
  intros Hl Hi Ho. unfold in_standby. apply t_end, t_assoc, t_lock_dev; [done|].
  apply t_assoc, t_lock_in; [intros sb E|done].
  hmove do_input_standby_t. hassoc. apply t_release_standby_in; [done|].
  hassoc. apply t_unlock_dev. hassoc. apply t_ret_core. rewrite co_standby_in_lock, co_lock_id; [done|by rewrite standby_in_lock_eq].
Qed.

(** *** Starting the playback *)

(** A call that stops the playback when it fails. *)
Definition or_inactive (c : core) (r : Z) (g : hal_g) : Prop :=
  (r = 0 /\ at_core c g) \/ (r <> 0 /\ at_core (co_set_out 0 c) g).

Lemma get_output_device_params_t c card out :
  triple (at_core c) (get_output_device_params (W := W) card out) (fun _ => at_core c).
Proof. unfold get_output_device_params. apply t_end. hrun; hdone. Qed.
Lemma h8_paths_t c card : triple (at_core c) (h8_paths (W := W) card) (fun _ => at_core c).
Proof. unfold h8_paths. apply t_end. hrun; try hdone; hcall init_ac100_t; hdone. Qed.
Lemma start_resampler_t `{!ResamplerMade W} c out card raw_info :
  triple (at_core c) (start_resampler (W := W) out card raw_info) (fun r g => r = 0 /\ at_core c g).
Proof.
  unfold start_resampler. do 2 hstep. hstep; [|by apply t_ret].
  eapply (t_on_world_law _ _ _ (fun a => fst a = 0)); [intros w; apply rs_made|].
  intros [r rs] Hr. cbn in Hr. subst r. hkeep. by apply t_ret.
Qed.

Lemma routed_device_t c device : triple (at_core c) (routed_device (W := W) device) (fun _ => at_core c).
Proof. unfold routed_device. hrun; hdone. Qed.

Lemma start_card_t `{!ResamplerMade W} c out raw_info card name :
  triple (at_core c) (start_card (W := W) out raw_info card name) (or_inactive c).
Proof.
  unfold start_card. hkeep.
  eapply t_bind with (R := fun _ => at_core c).
  { case_match; [|hdone]. hcall get_output_device_params_t. hdone. }
  intros []. hcall h8_paths_t. do 2 hstep. hstep. hkeep. hstep. hstep.
  - hstep. hkeep. apply (t_put_dev _ _ (co_set_out 0)); [done|solve [intros ? []; by constructor]|].
    apply t_ret. intros g Hg. right. by split.
  - hstep. eapply t_bind with (R := fun _ => at_core c).
    { apply t_end. hrun; hdone. }
    intros []. eapply t_bind; [apply start_resampler_t|]. intros r. cbn beta.
    intros g [-> Hg]. revert g Hg. change (triple (at_core c) (let* o := the_out out in
      (if out_slot (so_multi_resampler o) card =? 0 then ret tt
       else step_world (rs_reset (out_slot (so_multi_resampler o) card))) ;;; ret 0) (or_inactive c)).
    hrun; apply t_ret; intros g Hg; by left.
Qed.
Lemma start_cards_t `{!ResamplerMade W} l : forall c out raw_info,
  triple (at_core c) (start_cards (W := W) l out raw_info) (or_inactive c).
Proof.
  induction l as [|i l IH]; intros c out raw_info; cbn [start_cards].
  { apply t_ret. intros g Hg. by left. }
  hstep. destruct (plays _); [|apply IH]. eapply t_bind; [apply start_card_t|]. intros r. cbn beta.
  apply t_or; intros g [Hr Hg]; revert g Hg.
  - rewrite Hr. apply IH.
  - rewrite (proj2 (Z.eqb_neq r 0)) by done. apply t_ret. intros g Hg. by right.
Qed.
(** When the playback starts, it is the active one, unless nothing is to be
    played. *)
Lemma start_output_stream_t `{!ResamplerMade W} c out raw_info :
  triple (at_core c) (start_output_stream (W := W) out raw_info)
    (fun r g => (r = 0 /\ (at_core c g \/ at_core (co_set_out out c) g)) \/
                (r <> 0 /\ at_core (co_set_out 0 c) g)).
Proof.
  unfold start_output_stream. hstep. hstep; [apply t_ret; intros g Hg; left; eauto|].
  hstep. hstep; [apply t_ret; intros g Hg; left; eauto|].
  hstep. hcall routed_device_t. hkeep.
  apply (t_put_dev _ _ (co_set_out out)); [done|solve [intros ? []; by constructor]|].
  hcall select_output_device_t. hkeep. hkeep.
  eapply t_mono; [apply start_cards_t|]. intros r g [[-> Hg]|[Hr Hg]]; [left; eauto|right].
  split; [done|]. by destruct c.
Qed.
End Safe.
