(* ===== verification/AudSafeOut.v ===== *)
(** * audio HAL: the core through the calls of a playback stream *)

From S2P Require Import Prelude CLib Os Live Snd Mixer Pcm Codec VolumeConf CodecClient AudBp AudIface.
From S2P Require Import AudRing AudDevices AudDevTheorems AudEnv AudHw AudOut AudIn AudAdev AudLive AudCore.
From S2P Require Import AudSafe.

(** What holds between two calls. *)
Record core_ok `{HalConsts} (c : core) : Prop := {
  ck_lock : co_lock c = false;
  ck_outs : free_locks (co_outs c);
  ck_ins : free_locks (co_ins c);
  ck_call : co_in_call c = if calling (co_mode c) then 1 else 0;
  ck_out : co_out c = 0 \/ co_outs c !! co_out c = Some (false, false);
  ck_in : co_in c = 0 \/ co_ins c !! co_in c = Some (false, false);
}.

Section Core.
Context `{HalConsts}.

Lemma ok_open_out c out : core_ok c -> open_out c out.
Proof. intros [] sb E. by apply ck_outs0 in E. Qed.
Lemma ok_open_in c inn : core_ok c -> open_in c inn.
Proof. intros [] sb E. by apply ck_ins0 in E. Qed.
Lemma free_insert m p sb : free_locks m -> free_locks (<[p := (false, sb)]> m).
Proof. intros Hm. by apply map_Forall_insert_2. Qed.
Lemma free_lock m p l sb : free_locks m -> m !! p = Some (l, sb) -> l = false.
Proof. intros Hm E. by apply Hm in E. Qed.

Lemma ok_standby_out c out : core_ok c -> core_ok (co_standby_out out c).
Proof.
  intros [Hl Ho Hi Hc Ho' Hi']. unfold co_standby_out. destruct (co_outs c !! out) as [[l []]|] eqn:E; try by constructor.
  rewrite (free_lock _ _ _ _ Ho E). constructor; cbn; auto using free_insert.
Qed.
Lemma ok_standby_in c inn : core_ok c -> core_ok (co_standby_in inn c).
Proof.
  intros [Hl Ho Hi Hc Ho' Hi']. unfold co_standby_in. destruct (co_ins c !! inn) as [[l []]|] eqn:E; try by constructor.
  rewrite (free_lock _ _ _ _ Hi E). constructor; cbn; auto using free_insert.
Qed.
Lemma ok_out_off c : core_ok c -> core_ok (co_set_out 0 c).
Proof. intros []. constructor; cbn; auto. Qed.
Lemma ok_in_off c : core_ok c -> core_ok (co_set_in 0 c).
Proof. intros []. constructor; cbn; auto. Qed.
(** A stream that leaves standby. *)
Lemma ok_start_out c out sb :
  core_ok c -> co_outs c !! out = Some (false, sb) -> core_ok (co_put_out out (false, false) c).
Proof.
  intros [Hl Ho Hi Hc Ho' Hi'] E. constructor; cbn; auto using free_insert.
  destruct (decide (co_out c = out)) as [<-|Hn]; [right; by rewrite lookup_insert_eq|].
  rewrite lookup_insert_ne by done. done.
Qed.
Lemma ok_active_out c out : core_ok c -> core_ok (co_put_out out (false, false) (co_set_out out c)).
Proof.
  intros []. constructor; cbn; auto using free_insert. right. by rewrite lookup_insert_eq.
Qed.
Lemma ok_start_in c inn sb :
  core_ok c -> co_ins c !! inn = Some (false, sb) -> core_ok (co_put_in inn (false, false) c).
Proof.
  intros [Hl Ho Hi Hc Ho' Hi'] E. constructor; cbn; auto using free_insert.
  destruct (decide (co_in c = inn)) as [<-|Hn]; [right; by rewrite lookup_insert_eq|].
  rewrite lookup_insert_ne by done. done.
Qed.
Lemma ok_active_in c inn : core_ok c -> core_ok (co_put_in inn (false, false) (co_set_in inn c)).
Proof.
  intros []. constructor; cbn; auto using free_insert. right. by rewrite lookup_insert_eq.
Qed.
End Core.

Section SafeOut.
Context {W : Type} `{OsOps W, MixOps W, PropOps W, FileOps W, SystemOps W, PropSetOps W, HalLibs W}.
Context `{HalConsts}.
Abbreviation S := (mach W hal_g).

(** The states between two calls. *)
Definition at_ok (g : hal_g) : Prop := exists c, at_core c g /\ core_ok c.
Lemma at_ok_core c g : at_core c g -> core_ok c -> at_ok g.
Proof. by exists c. Qed.
Lemma t_ok {A} (m : M S A) Q :
  (forall c, core_ok c -> triple (at_core c) m Q) -> triple at_ok m Q.
Proof. intros Hm g (c & Hg & Hc). by apply (Hm c Hc). Qed.
Ltac hok := apply t_ret; intros ? ?; eapply at_ok_core; [eassumption|eauto using ok_standby_out, ok_standby_in].

(** *** Writing *)

Lemma WritePcmData_quiet d r : quiet (W := W) (G := hal_g) (WritePcmData d r).
Proof.
  unfold WritePcmData. case_match; [auto with quiet|]. repeat (apply quiet_bind; [auto with quiet|intros]).
  auto with quiet.
Qed.
Lemma capture_copy_t c buf : triple (at_core c) (capture_copy (W := W) buf) (fun _ => at_core c).
Proof.
  unfold capture_copy. do 3 hstep; [|hdone]. cbv zeta.
  eapply t_bind with (R := fun _ => at_core c); [|intros []; apply t_end; hrun; hdone].
  hstep; [hdone|]. hstep; [|apply t_undef].
  apply t_quiet; [live_run|apply WritePcmData_quiet|intros [r r']]. apply t_end. hkeep. hdone.
Qed.
Lemma voice_input_t c : triple (at_core c) (voice_input (W := W)) (fun _ => at_core c).
Proof. unfold voice_input. hrun; hdone. Qed.
Lemma create_node_live : live (W := W) create_node.
Proof. intros s. unfold create_node. by destruct (raw_create _ _). Qed.
Lemma create_node_quiet : quiet (W := W) create_node.
Proof. intros s a s'. unfold create_node. destruct (raw_create _ _). by intros [= _ <-]. Qed.
#[local] Hint Resolve create_node_live : live.
#[local] Hint Resolve create_node_quiet : quiet.
Lemma detectRaw_live : live (W := W) detectRaw.
Proof. live_run. Qed.
Lemma detectRaw_quiet : quiet (W := W) detectRaw.
Proof.
  unfold detectRaw, read_node_value, write_node_value.
  repeat first [case_match | apply quiet_bind; [solve [auto with quiet]|intros] | solve [auto with quiet] | apply quiet_bind; [|intros]].
Qed.

Lemma get_playback_delay_t c out frames b :
  triple (at_core c) (get_playback_delay (W := W) out frames b) (fun _ => at_core c).
Proof. unfold get_playback_delay. apply t_end. hrun; hdone. Qed.
Lemma write_pcm_t c p buf n : triple (at_core c) (write_pcm (W := W) p buf n) (fun _ => at_core c).
Proof. unfold write_pcm. apply t_end. hrun; hdone. Qed.
Lemma resample_t c out card buf i o :
  triple (at_core c) (resample (W := W) out card buf i o) (fun _ => at_core c).
Proof. unfold resample. apply t_end. hrun; hdone. Qed.
Lemma write_card_t c out index buf i o :
  triple (at_core c) (write_card (W := W) out index buf i o) (fun _ => at_core c).
Proof.
  unfold write_card. apply t_end. hrun. hcall resample_t.
  match goal with x : (bool * _ * _ * _)%type |- _ => destruct x as [[[??]?]?] end.
  hassoc. hstep. hassoc. eapply t_bind with (R := fun _ => at_core c).
  { hrun; [hdone|]. hcall get_playback_delay_t. apply t_end. hrun. hdone. }
  intros []. hrun; hcall write_pcm_t; hrun; hdone.
Qed.
Lemma write_cards_t l : forall c out r buf i o,
  triple (at_core c) (write_cards (W := W) l out r buf i o)
    (fun _ g => at_core c g \/ at_core (co_standby_out out c) g).
Proof.
  induction l as [|index l IH]; intros c out r buf i o; cbn [write_cards].
  { apply t_ret. by left. }
  hstep. destruct (plays _); [|apply IH]. hcall write_card_t. do 3 hstep. hstep; [|apply IH].
  hmove do_output_standby_t. hstep. apply t_ret. by right.
Qed.

(** The capture stream goes to standby after the writing. *)
Lemma force_in_standby_t c inn : open_in c inn -> open_out c (co_out c) ->
  triple (at_core (co_set_lock true c)) (lock_in inn ;;; do_input_standby inn ;;; unlock_in (W := W) inn)
    (fun _ => at_core (co_set_lock true (co_standby_in inn c))).
Proof.
  intros Hi Ho. apply t_lock_in; [intros sb E|done].
  eapply t_bind; [by apply do_input_standby_t|]. intros a. cbn beta.
  apply t_end, t_release_standby_in; [done|]. apply t_ret_core. apply co_standby_in_lock.
Qed.
Lemma force_standby_t c inn : core_ok c ->
  triple (at_core (co_set_lock true c)) (lock_in inn ;;; do_input_standby inn ;;; unlock_in (W := W) inn)
    (fun _ => at_core (co_set_lock true (co_standby_in inn c))).
Proof. intros Hc. apply force_in_standby_t; [by apply ok_open_in|by apply ok_open_out]. Qed.

Lemma write_exit_t c out n r force sb :
  core_ok c -> co_outs c !! out = Some (false, sb) ->
  triple (at_core (co_put_out out (true, sb) c)) (write_exit (W := W) out n r force do_input_standby)
    (fun _ => at_ok).
Proof.
  intros Hc E. unfold write_exit. apply t_release_out; [done|].
  eapply t_bind with (R := fun _ => at_core c).
  { hrun; [hdone|]. apply t_end. hrun. hdone. }
  intros []. destruct force; [|apply t_ret; intros g Hg; by eapply at_ok_core].
  apply t_end, t_assoc, t_lock_dev; [apply Hc|]. hassoc. hstep. cbn [co_in co_set_lock]. hassoc.
  eapply t_bind with (R := fun _ => at_core (co_set_lock true (if co_in c =? 0 then c else co_standby_in (co_in c) c))).
  { case_match; [hdone|by apply force_standby_t]. }
  intros []. hassoc. apply t_unlock_dev. apply t_ret. intros g Hg. eapply at_ok_core; [done|].
  case_match; rewrite co_lock_id; auto using ok_standby_in; [apply Hc|]. rewrite standby_in_lock_eq. apply Hc.
Qed.

Lemma raw_change_t c out raw_info :
  core_ok c -> triple (at_core c) (raw_change (W := W) out raw_info) (fun _ => at_ok).
Proof.
  intros Hc. unfold raw_change. hstep. hstep; [|hok].
  pose proof (ok_open_out c out Hc) as Ho. hmove out_standby_t. apply t_end. hrun. hok.
Qed.

(** The stream's mutex is held; the device's as [l] says. *)
Definition writing (out : Z) (l : bool) (g : hal_g) : Prop :=
  exists c sb, core_ok c /\ co_outs c !! out = Some (false, sb) /\
    at_core (co_put_out out (true, sb) (if l then co_set_lock true c else c)) g.

Lemma start_writing_t `{!ResamplerMade W} c out raw_info sb (o : sunxi_stream_out) :
  core_ok c -> co_outs c !! out = Some (false, sb) ->
  triple (at_core (co_put_out out (true, sb) (co_set_lock true c)))
    (if so_standby o then
       let* r := start_output_stream (W := W) out raw_info in
       if r =? 0 then
         put_out out (set_so_standby false) ;;; let* f := voice_input in ret (Some 0, f)
       else ret (Some r, false)
     else ret (None, false)) (fun _ => writing out true).
Proof.
  intros Hc E. hstep; [|apply t_ret; intros g Hg; by exists c, sb].
  eapply t_bind; [apply start_output_stream_t|]. intros r. cbn beta.
  assert (Hput : forall c' c1, co_outs c1 !! out = Some (true, sb) ->
    co_put_out out (true, false) c1 = co_put_out out (true, false) (co_set_lock true (co_put_out out (false, false) c')) ->
    core_ok (co_put_out out (false, false) c') ->
    triple (W := W) (at_core c1) (put_out out (set_so_standby false) ;;; let* f := voice_input in ret (Some 0, f))
      (fun _ => writing out true)).
  { intros c' c1 E1 Ec Hok. apply (t_put_out _ _ _ _ (fun _ => (true, false))).
    - intros o' Ho'. rewrite E1 in Ho'. unfold out_core in *. cbn. congruence.
    - intros _ _. hcall voice_input_t. apply t_ret. intros g Hg. rewrite Ec in Hg.
      exists (co_put_out out (false, false) c'), false. split; [done|]. split; [|done]. cbn. by rewrite lookup_insert_eq. }
  apply t_or; intros g [Hr Hg].
  - rewrite Hr. cbn [Z.eqb]. destruct Hg as [Hg|Hg]; revert g Hg.
    + apply (Hput c); [cbn; by rewrite lookup_insert_eq| |by eapply ok_start_out].
      unfold co_put_out, co_set_outs, co_set_lock. cbn. by rewrite !insert_insert_eq.
    + apply (Hput (co_set_out out c)); [cbn; by rewrite lookup_insert_eq| |by apply ok_active_out].
      unfold co_put_out, co_set_outs, co_set_lock; cbn; by rewrite !insert_insert_eq.
  - rewrite (proj2 (Z.eqb_neq r 0)) by done. revert g Hg. apply t_ret. intros g Hg.
    exists (co_set_out 0 c), sb. auto using ok_out_off.
Qed.

Lemma standby_locked c out sb : co_outs c !! out = Some (false, sb) ->
  exists sb', co_standby_out out (co_put_out out (true, sb) c) = co_put_out out (true, sb') (co_standby_out out c) /\
    co_outs (co_standby_out out c) !! out = Some (false, sb').
Proof.
  intros E. unfold co_standby_out at 1 2 3. cbn. rewrite lookup_insert_eq, E. exists true.
  destruct sb; [done|]. unfold co_put_out, co_set_outs, co_set_out. cbn. by rewrite !insert_insert_eq, lookup_insert_eq.
Qed.
Lemma t_writing {A} out (l : bool) (m : M S A) Q :
  (forall c sb, core_ok c -> co_outs c !! out = Some (false, sb) ->
     triple (at_core (co_put_out out (true, sb) (if l then co_set_lock true c else c))) m Q) ->
  triple (writing out l) m Q.
Proof. intros Hm g (c & sb & Hc & E & Hg). by apply (Hm c sb Hc E). Qed.

(** From the start of the stream on. *)
Lemma write_rest_t c out sb started force buf n :
  core_ok c -> co_outs c !! out = Some (false, sb) ->
  triple (at_core (co_put_out out (true, sb) c))
    (let failed := match started with Some r => negb (r =? 0) | None => false end in
     if failed : bool then
       write_exit (W := W) out n (default 0 started) false do_input_standby ;;; ret (n, buf)
     else
     put_out out (set_so_write_threshold (SHORT_PERIOD_SIZE * PLAYBACK_PERIOD_COUNT)) ;;;
     put_out out (fun o => set_so_config (set_avail_min SHORT_PERIOD_SIZE (so_config o)) o) ;;;
     let* buffer := capture_copy buf in
     let* '(r, buffer) :=
       write_cards cards_down out started buffer (n / OUT_FRAME_SIZE) (RESAMPLER_BUFFER_SIZE / OUT_FRAME_SIZE) in
     let* r := checked r in
     write_exit out n r force do_input_standby ;;; ret (n, buffer)) (fun _ => at_ok).
Proof.
  intros Hc E. cbv zeta. hstep.
  { eapply t_bind; [by apply write_exit_t|]. intros a. by apply t_ret. }
  do 2 hkeep. hcall capture_copy_t. eapply t_bind; [apply write_cards_t|]. intros [r b]. cbn beta iota.
  apply t_or; hstep; (eapply t_bind with (R := fun _ => at_ok); [|intros ?; by apply t_ret]).
  - by apply write_exit_t.
  - destruct (standby_locked c out sb E) as (sb' & -> & E'). apply write_exit_t; auto using ok_standby_out.
Qed.

Lemma out_write_t `{!ResamplerMade W} c out buf :
  core_ok c -> triple (at_core c) (out_write (W := W) do_input_standby out buf) (fun _ => at_ok).
Proof.
  intros Hc. unfold out_write. hstep. hstep; [hok|].
  apply t_quiet; [apply detectRaw_live|apply detectRaw_quiet|]. intros raw_info.
  eapply t_bind; [by apply raw_change_t|]. intros []. clear c Hc. apply t_ok. intros c Hc.
  hstep. hstep; [hok|]. apply t_lock_dev; [apply Hc|].
  apply t_lock_out; [intros sb E|by apply (ok_open_out c)]. hstep.
  eapply t_bind; [by apply (start_writing_t c)|]. intros [started force]. cbn beta iota. clear.
  apply t_writing. intros c sb Hc E. apply t_unlock_dev.
  replace (co_set_lock false _) with (co_put_out out (true, sb) c); [by apply write_rest_t|].
  destruct c, Hc. cbn in *. by subst.
Qed.

(** *** Parameters *)

(** The device's mutex is held. *)
Definition at_locked (g : hal_g) : Prop := exists c, core_ok c /\ at_core (co_set_lock true c) g.
Lemma t_locked {A} (m : M S A) Q :
  (forall c, core_ok c -> triple (at_core (co_set_lock true c)) m Q) -> triple at_locked m Q.
Proof. intros Hm g (c & Hc & Hg). by apply (Hm c). Qed.
Lemma t_writing_keep out c sb (l : bool) g :
  core_ok c -> co_outs c !! out = Some (false, sb) ->
  at_core (co_put_out out (true, sb) (if l then co_set_lock true c else c)) g -> writing out l g.
Proof. by exists c, sb. Qed.
(** A call that leaves the core, in these states. *)
Lemma t_writing_still {A B} out l (m : M S A) (k : A -> M S B) Q :
  (forall c, triple (at_core c) m (fun _ => at_core c)) ->
  (forall a, triple (writing out l) (k a) Q) -> triple (writing out l) (bind m k) Q.
Proof.
  intros Hm Hk. apply t_writing. intros c sb Hc E. apply t_still; [done|]. intros a.
  eapply t_pre; [apply Hk|]. intros g. by apply t_writing_keep.
Qed.
Lemma t_writing_standby {A} out (m : M S A) Q :
  triple (writing out true) m Q -> triple (writing out true) (do_output_standby (W := W) out ;;; m) Q.
Proof.
  intros Hm. apply t_writing. intros c sb Hc E. hmove do_output_standby_t.
  destruct (standby_locked (co_set_lock true c) out sb) as (sb' & -> & E'); [done|].
  rewrite co_standby_out_lock in E' |- *. eapply t_pre; [apply Hm|]. intros g.
  apply (t_writing_keep out (co_standby_out out c) sb' true); auto using ok_standby_out.
Qed.
Lemma t_writing_put {B} out l f (k : unit -> M S B) Q :
  (forall g, core_of (set_h_dev (f (h_dev g)) g) = core_of g) ->
  (forall g, dev_ok (devs_of g) -> dev_ok (devs_of (set_h_dev (f (h_dev g)) g))) ->
  triple (writing out l) (k tt) Q -> triple (writing out l) (bind (put_dev f) k) Q.
Proof.
  intros Hf Hd Hk. apply t_writing. intros c sb Hc E. apply (t_put_dev _ _ id); [done..|].
  eapply t_pre; [apply Hk|]. intros g. by apply t_writing_keep.
Qed.
(** Both mutexes are given back. *)
Lemma t_writing_release {A} out (k : M S A) Q :
  triple at_locked k Q -> triple (writing out true) (unlock_out (W := W) out ;;; k) Q.
Proof.
  intros Hk. apply t_writing. intros c sb Hc E. apply t_release_out; [done|].
  eapply t_pre; [apply Hk|]. intros g Hg. by exists c.
Qed.
Lemma t_locked_release {A} (k : M S A) Q :
  triple at_ok k Q -> triple at_locked (unlock_dev (W := W) ;;; k) Q.
Proof.
  intros Hk. apply t_locked. intros c Hc. apply t_unlock_dev. rewrite co_lock_id by apply Hc.
  eapply t_pre; [apply Hk|]. intros g Hg. by exists c.
Qed.
(** ... and taken. *)
Lemma t_take_both {A} c out (k : M S A) Q :
  core_ok c -> triple (writing out true) k Q ->
  triple (at_core c) (lock_dev (W := W) ;;; lock_out out ;;; k) Q.
Proof.
  intros Hc Hk. apply t_lock_dev; [apply Hc|]. apply t_lock_out; [intros sb E|by apply (ok_open_out c)].
  eapply t_pre; [apply Hk|]. intros g. by apply (t_writing_keep out c sb true).
Qed.

Lemma force_in_t (force : bool) :
  triple at_locked
    (if force then
       let* inn := get_dev ad_active_input in
       lock_in inn ;;; do_input_standby (W := W) inn ;;; unlock_in inn
     else ret tt) (fun _ => at_locked).
Proof.
  destruct force; [|by apply t_ret]. apply t_locked. intros c Hc. hstep. cbn [co_in co_set_lock].
  eapply t_mono; [by apply force_standby_t|]. intros a g Hg. exists (co_standby_in (co_in c) c).
  auto using ok_standby_in.
Qed.

Lemma t_writing_get {A B} out l (f : sunxi_audio_device -> A) (k : A -> M S B) Q :
  (forall a, triple (writing out l) (k a) Q) -> triple (writing out l) (bind (get_dev f) k) Q.
Proof. intros Hk g Hg. apply wpg_get. by apply Hk. Qed.

Lemma out_route_t c out val :
  core_ok c -> triple (at_core c) (out_route (W := W) do_input_standby out val) (fun _ => at_ok).
Proof.
  intros Hc. unfold out_route. apply t_take_both; [done|]. apply t_writing_get. intros d.
  eapply t_bind with (R := fun _ => writing out true).
  { hstep; [|by apply t_ret]. eapply t_bind with (R := fun _ => writing out true).
    { hstep; [|by apply t_ret]. apply t_writing_still; [intros; apply voice_input_t|intros f].
      apply t_bind with (R := fun _ => writing out true); [|intros []; by apply t_ret].
      hstep; [|by apply t_ret]. apply t_writing_standby. by apply t_ret. }
    intros f. apply t_writing_put; [done|intros ? []; by constructor|].
    apply t_writing_still; [apply select_output_device_t|intros _].
    do 2 (apply t_writing_get; intros ?). apply t_bind with (R := fun _ => writing out true); [|intros []; by apply t_ret].
    hstep; [|by apply t_ret]. apply t_writing_still; [intros; apply adev_set_voice_volume_t|intros _; by apply t_ret]. }
  intros f. apply t_writing_release. eapply t_bind; [apply force_in_t|]. intros [].
  apply t_end, t_locked_release. by apply t_ret.
Qed.

Lemma set_active_pc io value :
  io = AUDIO_IN \/ io = AUDIO_OUT -> pc (W := W) dev_ok (set_audio_devices_active io value) (fun _ => dev_ok).
Proof.
  intros [->| ->].
  - eapply pc_mono; [apply set_active_in_pc|done|by intros a g []].
  - eapply pc_mono; [apply (set_active_out_pc false)|done|by intros a g []].
Qed.
Lemma devs_active_t {B} out l io value (k : Z -> M S B) Q :
  io = AUDIO_IN \/ io = AUDIO_OUT ->
  (forall a, triple (writing out l) (k a) Q) ->
  triple (writing out l) (bind (in_devs (set_audio_devices_active (W := W) io value)) k) Q.
Proof.
  intros Hio Hk. apply t_writing. intros c sb Hc E. apply t_devs; [apply set_audio_devices_active_live| |].
  - by apply set_active_pc.
  - intros a. eapply t_pre; [apply Hk|]. intros g. by apply t_writing_keep.
Qed.

Lemma out_activate_t c out value :
  core_ok c -> triple (at_core c) (out_activate (W := W) out value) (fun _ => at_ok).
Proof.
  intros Hc. unfold out_activate. apply t_take_both; [done|]. apply t_writing_get. intros raw.
  hstep; [apply t_writing_release, t_locked_release; by apply t_ret|].
  apply devs_active_t; [by right|intros r]. apply t_writing_standby.
  apply t_writing_still; [apply select_output_device_t|intros _].
  apply t_writing_release, t_locked_release. by apply t_ret.
Qed.
Lemma out_raw_t c out b : core_ok c -> triple (at_core c) (out_raw (W := W) out b) (fun _ => at_ok).
Proof.
  intros Hc. unfold out_raw. apply t_take_both; [done|]. apply t_writing_get. intros raw.
  eapply t_bind with (R := fun _ => writing out true).
  { hstep; [by apply t_ret|]. apply t_writing_put; [done|intros ? []; by constructor|].
    apply t_writing_standby. by apply t_ret. }
  intros []. apply t_writing_release, t_end, t_locked_release. by apply t_ret.
Qed.

Lemma t_ok_malloc {B} n (k : Z -> M S B) Q :
  (forall a, triple at_ok (k a) Q) -> triple at_ok (bind (c_malloc n) k) Q.
Proof. intros Hk. apply t_quiet; auto with live quiet. Qed.
Lemma out_set_parameters_t c out kvpairs :
  core_ok c -> triple (at_core c) (out_set_parameters (W := W) do_input_standby out kvpairs) (fun _ => at_ok).
Proof.
  intros Hc. unfold out_set_parameters. hstep. hstep. hstep. hstep. hstep.
  { hkeep. hok. }
  eapply t_bind with (R := fun _ => at_ok); [hstep; [by apply out_route_t|hok]|]. intros [].
  clear c Hc. apply t_ok. intros c Hc. hstep. hstep.
  eapply t_bind with (R := fun _ => at_ok); [hstep; [by apply out_activate_t|hok]|]. intros stop.
  clear c Hc. apply t_ok. intros c Hc. hstep; [hok|]. hstep. hstep.
  eapply t_bind with (R := fun _ => at_ok); [hstep; [by apply out_raw_t|hok]|]. intros [].
  clear c Hc. apply t_ok. intros c Hc. hstep. hok.
Qed.

(** *** Opening and closing *)

Lemma ok_new_out c out : core_ok c -> co_outs c !! out = None -> core_ok (co_put_out out (false, true) c).
Proof.
  intros [Hl Ho Hi Hc Ho' Hi'] E. constructor; cbn; auto using free_insert.
  destruct Ho' as [Ho'|Ho']; [by left|right]. rewrite lookup_insert_ne; [done|]. by intros ->; rewrite E in Ho'.
Qed.
Lemma adev_open_output_stream_t c :
  core_ok c -> triple (at_core c) (adev_open_output_stream (W := W)) (fun _ => at_ok).
Proof.
  intros Hc. unfold adev_open_output_stream. hstep. hstep; [hok|].
  intros g [<- Hd]. apply wpg_get. unfold new_address. destruct (h_outs g !! _) eqn:E; [by intros ? _|].
  apply wpg_ret_bind. apply wpg_quiet; [auto with live|auto with quiet|]. intros b. apply wpg_set, wpg_ret.
  eapply at_ok_core; [|apply (ok_new_out _ a Hc)].
  - split; [|done]. by rewrite core_put_out.
  - cbn. by rewrite lookup_fmap, E.
Qed.
Lemma release_cards_t l : forall c, triple (at_core c) (release_cards (W := W) l) (fun _ => at_core c).
Proof. induction l as [|r l IH]; intros c; cbn [release_cards]; [hdone|]. hcall drop_handle_t. apply IH. Qed.
(** A stream in standby is not the active one. *)
Lemma ok_drop_out c out l : core_ok c -> co_outs c !! out = Some (l, true) -> core_ok (co_set_outs (delete out (co_outs c)) c).
Proof.
  intros [Hl Ho Hi Hc Ho' Hi'] E. constructor; cbn; auto; [by apply map_Forall_delete|].
  destruct Ho' as [Ho'|Ho']; [by left|right]. rewrite lookup_delete_ne; [done|]. intros ->. by rewrite Ho' in E.
Qed.
Lemma standby_out_is c out : core_ok c -> co_outs (co_standby_out out c) !! out = Some (false, true) \/
  co_outs (co_standby_out out c) !! out = None.
Proof.
  intros [_ Ho _ _ _ _]. unfold co_standby_out. destruct (co_outs c !! out) as [[l []]|] eqn:E; [|cbn|by right].
  - left. by rewrite E, (free_lock _ _ _ _ Ho E).
  - left. by rewrite lookup_insert_eq, (free_lock _ _ _ _ Ho E).
Qed.
Lemma adev_close_output_stream_t c out :
  core_ok c -> triple (at_core c) (adev_close_output_stream (W := W) out) (fun _ => at_ok).
Proof.
  intros Hc. unfold adev_close_output_stream. hstep. hstep; [hok|].
  pose proof (ok_open_out c out Hc) as Ho. hmove out_standby_t. hstep. hstep. hcall drop_handle_t.
  hcall release_cards_t. hstep. intros g [E Hd] s Hs. cbn. rewrite Hs.
  pose proof (ok_standby_out c out Hc) as Hk. destruct (standby_out_is c out Hc) as [Eo|Eo]; [|congruence].
  rewrite <- E in Hk, Eo. eapply at_ok_core; [|by apply (ok_drop_out _ out false Hk Eo)].
  split; [|done]. unfold core_of, co_set_outs. cbn. by rewrite fmap_delete.
Qed.
End SafeOut.
