(* ===== verification/AudSafeIn.v ===== *)
(** * audio HAL: the core through the calls of a capture stream *)

From S2P Require Import Prelude CLib Os Live Snd Mixer Pcm Codec VolumeConf CodecClient AudBp AudIface.
From S2P Require Import AudRing AudDevices AudDevTheorems AudEnv AudHw AudOut AudIn AudAdev AudLive AudCore.
From S2P Require Import AudSafe AudSafeOut.

(** What the capture relies on: a card is opened with a period of a frame or
    more, and a resampler whose provider does not fail makes a frame or more. *)
Fixpoint gives {W} (last : Z) (p : rs_prog W) : Prop :=
  match p with
  | RsNext _ k => forall r n d w, gives r (k r n d w)
  | RsRelease _ k => gives last k
  | RsDone _ frames _ => last = 0 -> 1 <= frames
  end.
Class CaptureWorks (W : Type) `{HalLibs W} := {
  cw_made :: ResamplerMade W;
  cw_period : forall card device flags c rate (w : W),
    1 <= period_size c -> 1 <= period_size (snd (fst (ta_open_req card device flags c rate w)));
  cw_gives : forall rs frames last (w : W), 1 <= frames -> gives last (rs_from_provider rs frames w);
}.

Section SafeIn.
Context {W : Type} `{OsOps W, MixOps W, PropOps W, FileOps W, SystemOps W, PropSetOps W, HalLibs W}.
Context `{HalConsts}.
Abbreviation S := (mach W hal_g).
Ltac hok := apply t_ret; intros ? ?; eapply at_ok_core; [eassumption|eauto using ok_standby_out, ok_standby_in].

(** *** One stream by its fields *)

Definition status (inn : Z) (g : hal_g) : option Z := si_read_status <$> h_ins g !! inn.
Definition put_ins (inn : Z) (i : sunxi_stream_in) (g : hal_g) : hal_g := set_h_ins (<[inn := i]> (h_ins g)) g.

Lemma wpg_the_in {B} g inn (k : sunxi_stream_in -> M S B) Q :
  (forall i, h_ins g !! inn = Some i -> wpg g (k i) Q) -> wpg g (bind (the_in inn) k) Q.
Proof. intros Hk. apply wpg_assoc, wpg_get, wpg_checked. done. Qed.
Lemma wpg_put_in {B} g inn f (k : unit -> M S B) Q :
  (forall i, h_ins g !! inn = Some i -> wpg (put_ins inn (f i) g) (k tt) Q) -> wpg g (bind (put_in inn f) k) Q.
Proof. intros Hk. apply wpg_assoc, wpg_the_in. intros i E. apply wpg_set. by apply Hk. Qed.
Lemma put_ins_lookup inn i g : h_ins (put_ins inn i g) !! inn = Some i.
Proof. apply lookup_insert_eq. Qed.
Lemma put_ins_twice inn i i' g : put_ins inn i' (put_ins inn i g) = put_ins inn i' g.
Proof. unfold put_ins. cbn. unfold set_h_ins. cbn. by rewrite insert_insert_eq. Qed.
Lemma put_ins_status inn i g : status inn (put_ins inn i g) = Some (si_read_status i).
Proof. unfold status. by rewrite put_ins_lookup. Qed.
Lemma put_ins_core c inn i i' g :
  at_core c g -> h_ins g !! inn = Some i -> in_core i' = in_core i -> in_typed i' -> at_core c (put_ins inn i' g).
Proof.
  intros [<- [Hd Hi]] E Ei Ht. split.
  - unfold put_ins. rewrite core_put_in, Ei. apply co_put_in_same. cbn. by rewrite lookup_fmap, E.
  - split; [done|]. by apply map_Forall_insert_2.
Qed.

(** *** Frames *)

Lemma read_pcm_live p buf n : live (W := W) (G := hal_g) (read_pcm p buf n).
Proof. live_run. Qed.
Lemma read_pcm_quiet p buf n : quiet (W := W) (G := hal_g) (read_pcm p buf n).
Proof.
  unfold read_pcm, ta_handle. apply quiet_bind; [case_match; auto with quiet|]. intros _. case_match; [|auto with quiet].
  apply quiet_bind; [auto with quiet|]. intros []. auto with quiet.
Qed.

(** What a buffer request answers: the status is the stream's; frames without
    an error are at least one. *)
Definition answered (c : core) (inn fc : Z) (x : Z * Z * option bytes) (g : hal_g) : Prop :=
  at_core c g /\ status inn g = Some (fst (fst x)) /\
  (snd x = None -> fst (fst x) <> 0) /\ (1 <= fc -> snd x <> None -> 1 <= snd (fst x)).

Lemma get_next_buffer_t c inn fc :
  triple (at_core c) (get_next_buffer (W := W) inn fc) (answered c inn fc).
Proof.
  intros g Hg. unfold get_next_buffer. apply wpg_the_in. intros i E.
  assert (Ht : in_typed i) by (destruct Hg as [_ [_ Hi]]; by apply Hi in E).
  destruct (si_pcm i =? 0).
  { apply wpg_put_in. intros i' E'. rewrite E in E'. injection E' as <-. apply wpg_ret. split; [by eapply put_ins_core|].
    split; [apply put_ins_status|]. by split. }
  cbv zeta.
  pose (refilled := fun r g' => exists i', h_ins g' !! inn = Some i' /\ at_core c g' /\
    (r <> 0 -> si_read_status i' = r) /\ (r = 0 -> 1 <= si_frames_in i')).
  eapply (wpg_call _ _ _ refilled).
  { destruct (si_frames_in i =? 0) eqn:Ef; bool_to_prop.
    - apply wpg_quiet; [apply read_pcm_live|apply read_pcm_quiet|]. intros [r mem].
      apply wpg_put_in. intros i' E'. rewrite E in E'. injection E' as <-.
      apply wpg_call with (P := fun _ => refilled r); [|intros ? g' Hg'; by apply wpg_ret].
      destruct (r =? 0) eqn:Er; bool_to_prop.
      + apply wpg_end, wpg_put_in. intros i' E'. rewrite put_ins_lookup in E'. injection E' as <-.
        apply wpg_ret. rewrite put_ins_twice. eexists. split; [apply put_ins_lookup|].
        destruct Ht. split; [eapply put_ins_core; [done..|split; cbn; lia]|]. split; [done|]. by intros _.
      + apply wpg_ret. eexists. split; [apply put_ins_lookup|]. split; [by eapply put_ins_core|]. by split.
    - apply wpg_ret. exists i. destruct Ht. split; [done|]. split; [done|]. split; [done|lia]. }
  intros r g1 (i' & E1 & Hg1 & Hr & Hf).
  destruct (r =? 0) eqn:Er; cbn [negb]; bool_to_prop.
  2: { apply wpg_ret. split; [done|]. unfold status. rewrite E1. cbn. rewrite Hr by done. by split. }
  apply wpg_the_in. intros i2 E2. rewrite E1 in E2. injection E2 as <-.
  apply wpg_checked. intros d _. apply wpg_ret. split; [done|]. unfold status. rewrite E1. cbn.
  split; [done|]. split; [done|]. intros Hfc _. specialize (Hf Er).
  destruct (si_frames_in i' <? fc) eqn:Eq; bool_to_prop; lia.
Qed.

Lemma release_buffer_t c inn n st :
  triple (fun g => at_core c g /\ status inn g = Some st) (release_buffer (W := W) inn n)
    (fun _ g => at_core c g /\ status inn g = Some st).
Proof.
  intros g [Hg Hs]. unfold release_buffer. apply wpg_end, wpg_put_in. intros i E. apply wpg_ret.
  assert (Ht : in_typed i) by (destruct Hg as [_ [_ Hi]]; by apply Hi in E).
  split; [eapply put_ins_core; [done..|]|].
  - split; [apply Ht|]. cbn. apply Z.mod_pos_bound. done.
  - rewrite put_ins_status. cbn. unfold status in Hs. by rewrite E in Hs.
Qed.
Lemma run_provider_t c inn (p : rs_prog W) : forall st, gives st p ->
  triple (fun g => at_core c g /\ status inn g = Some st) (run_provider inn p)
    (fun x g => at_core c g /\ exists st', status inn g = Some st' /\ (st' = 0 -> 1 <= snd x)).
Proof.
  induction p as [frames k IH|frames k IH|out frames w]; intros st Hp; cbn [gives] in Hp.
  - intros g [Hg _] s Hs. cbn [run_provider]. pose proof (get_next_buffer_t c inn frames g Hg s Hs) as Hn.
    destruct (get_next_buffer inn frames s) as [[[r n] d] s'| |]; [|done..].
    destruct Hn as (Hc' & Hst & _). eapply (IH r n d (world s') r (Hp _ _ _ _)); [|done]. by split.
  - cbn [run_provider]. eapply t_bind; [apply release_buffer_t|]. intros []. by apply IH.
  - cbn [run_provider]. apply t_step_world, t_ret. intros g [Hg Hs]. split; [done|]. by exists st.
Qed.

Context `{!CaptureWorks W}.

Definition progressed (c : core) (inn : Z) (x : Z * bytes) (g : hal_g) : Prop :=
  at_core c g /\ exists st, status inn g = Some st /\ (st = 0 -> 1 <= fst x).
Lemma wpg_ask_law {A B} g (f : W -> A) (k : A -> M S B) (law : A -> Prop) Q :
  (forall w, law (f w)) -> (forall a, law a -> wpg g (k a) Q) -> wpg g (bind (ask f) k) Q.
Proof. intros Hl Hk s E. apply (Hk _ (Hl _) _ E). Qed.
Lemma read_some_t c inn buf off frames :
  1 <= frames -> triple (at_core c) (read_some (W := W) inn buf off frames) (progressed c inn).
Proof.
  intros Hf g Hg. unfold read_some. apply wpg_the_in. intros i E. case_match.
  - eapply wpg_call; [by apply get_next_buffer_t|]. intros [[r n] d] g1 (Hg1 & Hst & Hn & Hd). cbn in *.
    destruct d as [d|].
    + apply wpg_checked. intros buf' _. eapply wpg_call; [apply (release_buffer_t c inn n r); by split|].
      intros [] g2 [Hg2 Hs2]. apply wpg_ret. split; [done|]. exists r. split; [done|]. intros _. by apply Hd.
    + eapply wpg_call; [apply (release_buffer_t c inn n r); by split|].
      intros [] g2 [Hg2 Hs2]. apply wpg_ret. split; [done|]. by exists r.
  - apply (wpg_ask_law _ _ _ (gives (si_read_status i))); [intros w; by apply cw_gives|]. intros p Hp.
    eapply wpg_call; [apply (run_provider_t c inn p _ Hp)|].
    + split; [done|]. unfold status. by rewrite E.
    + intros [d n] g1 (Hg1 & st & Hst & Hn). apply wpg_checked. intros buf' _. apply wpg_ret.
      split; [done|]. by exists st.
Qed.
(** A read of [frames] frames ends. *)
Lemma read_loop_t c inn fuel : forall buf wr frames,
  frames - wr <= Z.of_nat fuel ->
  triple (at_core c) (read_loop (W := W) fuel inn buf wr frames) (fun _ => at_core c).
Proof.
  induction fuel as [|fuel IH]; intros buf wr frames Hf; cbn [read_loop];
    (destruct (wr <? frames) eqn:El; bool_to_prop; [|by apply t_ret]).
  - exfalso. lia.
  - hstep. eapply t_bind; [apply read_some_t; lia|]. intros [n buf']. cbn [fst].
    intros g (Hg & st & Hst & Hn). apply wpg_the_in. intros i' E'. unfold status in Hst. rewrite E' in Hst.
    injection Hst as Est. rewrite Est.
    destruct (st =? 0) eqn:Ez; cbn [negb]; [|by apply wpg_ret]. bool_to_prop. specialize (Hn Ez). cbn in Hn.
    apply (IH buf' (wr + n) frames); [lia|done].
Qed.
Lemma read_frames_t c inn buf frames :
  triple (at_core c) (read_frames (W := W) inn buf frames) (fun _ => at_core c).
Proof. apply read_loop_t. lia. Qed.

(** *** Starting and reading *)

Definition reading (inn : Z) (l : bool) (g : hal_g) : Prop :=
  exists c sb, core_ok c /\ co_ins c !! inn = Some (false, sb) /\
    at_core (co_put_in inn (true, sb) (if l then co_set_lock true c else c)) g.
Lemma t_reading {A} inn (l : bool) (m : M S A) Q :
  (forall c sb, core_ok c -> co_ins c !! inn = Some (false, sb) ->
     triple (at_core (co_put_in inn (true, sb) (if l then co_set_lock true c else c))) m Q) ->
  triple (reading inn l) m Q.
Proof. intros Hm g (c & sb & Hc & E & Hg). by apply (Hm c sb Hc E). Qed.
Lemma reading_keep inn c sb (l : bool) g :
  core_ok c -> co_ins c !! inn = Some (false, sb) ->
  at_core (co_put_in inn (true, sb) (if l then co_set_lock true c else c)) g -> reading inn l g.
Proof. by exists c, sb. Qed.
Lemma t_reading_still {A B} inn l (m : M S A) (k : A -> M S B) Q :
  (forall c, core_ok c -> forall sb l, triple (at_core (co_put_in inn (true, sb) (if l : bool then co_set_lock true c else c))) m
     (fun _ => at_core (co_put_in inn (true, sb) (if l then co_set_lock true c else c)))) ->
  (forall a, triple (reading inn l) (k a) Q) -> triple (reading inn l) (bind m k) Q.
Proof.
  intros Hm Hk. apply t_reading. intros c sb Hc E. apply t_still; [by apply Hm|]. intros a.
  eapply t_pre; [apply Hk|]. intros g. by apply reading_keep.
Qed.
Lemma t_reading_get {A B} inn l (f : sunxi_audio_device -> A) (k : A -> M S B) Q :
  (forall a, triple (reading inn l) (k a) Q) -> triple (reading inn l) (bind (get_dev f) k) Q.
Proof. intros Hk g Hg. apply wpg_get. by apply Hk. Qed.
Lemma t_reading_the {B} inn l (k : sunxi_stream_in -> M S B) Q :
  (forall i, triple (reading inn l) (k i) Q) -> triple (reading inn l) (bind (the_in inn) k) Q.
Proof. intros Hk g Hg. apply wpg_the_in. intros i _. by apply Hk. Qed.
Lemma t_reading_keep {B} inn l f (k : unit -> M S B) Q :
  (forall i, in_typed i -> in_typed (f i)) -> (forall i, in_core (f i) = in_core i) ->
  triple (reading inn l) (k tt) Q -> triple (reading inn l) (bind (put_in inn f) k) Q.
Proof.
  intros Ht Hf Hk. apply t_reading. intros c sb Hc E. apply t_keep_in; [done..|].
  eapply t_pre; [apply Hk|]. intros g. by apply reading_keep.
Qed.
Lemma t_reading_release {A} inn (k : M S A) Q :
  triple at_ok k Q -> triple (reading inn false) (unlock_in (W := W) inn ;;; k) Q.
Proof.
  intros Hk. apply t_reading. intros c sb Hc E. apply t_release_in; [done|].
  eapply t_pre; [apply Hk|]. intros g Hg. by exists c.
Qed.
Lemma t_reading_locked {A} inn (k : M S A) Q :
  triple at_locked k Q -> triple (reading inn true) (unlock_in (W := W) inn ;;; k) Q.
Proof.
  intros Hk. apply t_reading. intros c sb Hc E. apply t_release_in; [done|].
  eapply t_pre; [apply Hk|]. intros g Hg. by exists c.
Qed.
Lemma t_reading_dev {A} inn (k : M S A) Q :
  triple (reading inn false) k Q -> triple (reading inn true) (unlock_dev (W := W) ;;; k) Q.
Proof.
  intros Hk. apply t_reading. intros c sb Hc E. apply t_unlock_dev.
  replace (co_set_lock false _) with (co_put_in inn (true, sb) c) by (destruct c, Hc; cbn in *; by subst).
  eapply t_pre; [apply Hk|]. intros g. by apply (reading_keep inn c sb false).
Qed.
Lemma t_take_in {A} c inn (k : M S A) Q :
  core_ok c -> triple (reading inn true) k Q ->
  triple (at_core c) (lock_dev (W := W) ;;; lock_in inn ;;; k) Q.
Proof.
  intros Hc Hk. apply t_lock_dev; [apply Hc|]. apply t_lock_in; [intros sb E|by apply (ok_open_in c)].
  eapply t_pre; [apply Hk|]. intros g. by apply (reading_keep inn c sb true).
Qed.
Lemma standby_locked_in c inn sb : co_ins c !! inn = Some (false, sb) ->
  exists sb', co_standby_in inn (co_put_in inn (true, sb) c) = co_put_in inn (true, sb') (co_standby_in inn c) /\
    co_ins (co_standby_in inn c) !! inn = Some (false, sb').
Proof.
  intros E. unfold co_standby_in at 1 2 3. cbn. rewrite lookup_insert_eq, E. exists true.
  destruct sb; [done|]. unfold co_put_in, co_set_ins, co_set_in. cbn. by rewrite !insert_insert_eq, lookup_insert_eq.
Qed.
Lemma t_reading_standby {A} inn (m : M S A) Q :
  triple (reading inn true) m Q -> triple (reading inn true) (do_input_standby (W := W) inn ;;; m) Q.
Proof.
  intros Hm. apply t_reading. intros c sb Hc E.
  eapply t_bind; [apply do_input_standby_t; by apply (ok_open_out c)|]. intros a. cbn beta.
  destruct (standby_locked_in (co_set_lock true c) inn sb) as (sb' & -> & E'); [done|].
  rewrite co_standby_in_lock in E' |- *. eapply t_pre; [apply Hm|]. intros g.
  apply (reading_keep inn (co_standby_in inn c) sb' true); auto using ok_standby_in.
Qed.

Lemma start_in_resampler_t c inn :
  triple (at_core c) (start_in_resampler (W := W) inn) (fun r g => r = 0 /\ at_core c g).
Proof.
  unfold start_in_resampler. hstep. eapply t_bind with (R := fun r g => r = 0 /\ at_core c g).
  { hstep; [by apply t_ret|].
    eapply (t_on_world_law _ _ _ (fun a => fst a = 0)); [intros w; apply rs_made|].
    intros [r rs] Hr. cbn in Hr. subst r. hkeep. by apply t_ret. }
  intros r. intros g [-> Hg]. revert g Hg.
  apply (t_end (at_core c)). hassoc. hstep. cbn [Z.eqb negb]. hassoc.
  eapply t_bind with (R := fun _ => at_core c); [|intros []; hrun; by apply t_ret].
  hstep; [hdone|]. hstep. apply t_end, t_keep_in; [|done|hdone].
  intros i2 [? ?]. split; cbn; [done|lia].
Qed.
Lemma start_input_stream_t c inn :
  open_out c (co_out c) ->
  triple (at_core c) (start_input_stream (W := W) inn)
    (fun r g => (r = 0 /\ at_core (co_set_in inn c) g) \/ (r <> 0 /\ at_core (co_set_in 0 c) g)).
Proof.
  intros Ho. unfold start_input_stream.
  apply (t_put_dev _ _ (co_set_in inn)); [done|intros ? []; by constructor|].
  hstep. hstep; [apply t_ret; intros g Hg; by left|]. hstep. hkeep. hcall select_input_device_t.
  eapply t_bind with (R := fun _ => at_core (co_set_in inn c)).
  { hstep; [|hdone]. hcall get_echo_reference_t. apply t_end. hrun. hdone. }
  intros []. apply t_get_dev. intros card.
  eapply (t_on_world_law _ _ _ (fun a : Z * pcm_config => 1 <= period_size (snd a))).
  { intros w. pose proof (cw_period card 0 PCM_IN (si_config i) (ajust_rate (si_requested_rate i)) w (proj1 Hty)) as Hp.
    by destruct (ta_open_req _ _ _ _ _ _) as [[p c'] w']. }
  intros [p c'] Hp. apply t_keep_in; [intros i2 [? ?]; by split|done|]. hstep. hstep.
  - hstep. apply (t_put_dev _ _ (co_set_in 0)); [done|intros ? []; by constructor|].
    apply t_ret. intros g Hg. right. split; [done|]. by destruct c.
  - eapply t_mono; [apply start_in_resampler_t|]. intros r g [-> Hg]. by left.
Qed.

Lemma start_reading_t c inn sb (i : sunxi_stream_in) :
  core_ok c -> co_ins c !! inn = Some (false, sb) ->
  triple (at_core (co_put_in inn (true, sb) (co_set_lock true c)))
    (if si_standby i then
       let* r := start_input_stream (W := W) inn in
       (if r =? 0 then put_in inn (set_si_standby false) else ret tt) ;;; ret r
     else ret 0) (fun _ => reading inn true).
Proof.
  intros Hc E. hstep; [|apply t_ret; intros g Hg; by exists c, sb].
  eapply t_bind; [apply start_input_stream_t; by apply (ok_open_out c)|]. intros r. cbn beta.
  apply t_or; intros g [Hr Hg]; revert g Hg.
  - rewrite Hr. cbn [Z.eqb]. apply (t_put_in _ _ _ _ (fun _ => (true, false))).
    + by intros i' [].
    + intros i' Hi'. cbn in Hi'. rewrite lookup_insert_eq in Hi'. unfold in_core in *. cbn. congruence.
    + intros _ _. apply t_ret. intros g Hg. exists (co_put_in inn (false, false) (co_set_in inn c)), false.
      split; [by apply ok_active_in|]. split; [cbn; by rewrite lookup_insert_eq|].
      revert Hg. unfold co_put_in, co_set_ins, co_set_lock, co_set_in. cbn. by rewrite !insert_insert_eq.
  - rewrite (proj2 (Z.eqb_neq r 0)) by done. apply t_ret_bind, t_ret. intros g Hg.
    exists (co_set_in 0 c), sb. auto using ok_in_off.
Qed.

Lemma sleep_t c us : triple (at_core c) (sleep (W := W) us) (fun _ => at_core c).
Proof. unfold sleep. apply t_end. hrun. hdone. Qed.
Lemma ReadPcmData_live active buf r : live (W := W) (G := hal_g) (ReadPcmData sleep active buf r).
Proof.
  unfold ReadPcmData. apply live_bind; [auto with live|]. intros mw. case_match; [|live_run].
  apply live_bind; [|intros; live_run]. case_match; [|live_run].
  generalize (Z.to_nat (mw + 1)). intros n. induction n as [|n IH]; cbn; live_run.
Qed.
Lemma ReadPcmData_quiet active buf r : quiet (W := W) (G := hal_g) (ReadPcmData sleep active buf r).
Proof.
  assert (Hs : forall us, quiet (W := W) (G := hal_g) (sleep us)) by (intros; unfold sleep; auto with quiet).
  assert (Ht : forall b n f r', quiet (W := W) (G := hal_g) (rd_take b n f r')).
  { intros. unfold rd_take. do 3 (apply quiet_bind; [auto with quiet|intros]). auto with quiet. }
  unfold ReadPcmData. apply quiet_bind; [auto with quiet|]. intros mw. case_match; [|apply Ht].
  apply quiet_bind; [|intros; apply Ht]. case_match; [|apply quiet_bind; [auto with quiet|intros; apply Hs]].
  generalize (Z.to_nat (mw + 1)). intros n. induction n as [|n IH]; cbn; [auto with quiet|]. by apply quiet_bind.
Qed.

Lemma read_playback_t c inn buf : core_ok c -> triple (at_core c) (read_playback (W := W) inn buf) (fun _ => at_ok).
Proof.
  intros Hc. unfold read_playback. apply t_take_in; [done|]. apply t_reading. intros c1 sb Hc1 E.
  apply (t_put_in _ _ _ _ (fun _ => (true, false))).
  - by intros i' [].
  - intros i' Hi'. cbn in Hi'. rewrite lookup_insert_eq in Hi'. unfold in_core in *. cbn. congruence.
  - intros _ _. apply t_pre with (P' := reading inn true).
    + apply t_reading_dev. do 2 (apply t_reading_get; intros ?).
      apply t_reading. intros c2 sb2 Hc2 E2.
      apply t_quiet; [apply ReadPcmData_live|apply ReadPcmData_quiet|]. intros [[r b] ring]. hkeep. hstep.
      apply t_release_in; [done|]. hok.
    + intros g Hg. exists (co_put_in inn (false, false) c1), false.
      split; [by eapply ok_start_in|]. split; [cbn; by rewrite lookup_insert_eq|].
      revert Hg. unfold co_put_in, co_set_ins, co_set_lock, co_set_in. cbn. by rewrite !insert_insert_eq.
Qed.

Lemma in_read_t c inn buf : core_ok c -> triple (at_core c) (in_read (W := W) inn buf) (fun _ => at_ok).
Proof.
  intros Hc. unfold in_read. hstep. hstep; [hcall sleep_t; hok|]. hstep. hstep.
  { eapply t_bind; [by apply read_playback_t|]. intros b. by apply t_ret. }
  apply t_take_in; [done|]. apply t_reading. clear c Hc. intros c sb Hc E. hstep.
  eapply t_bind; [by apply (start_reading_t c)|]. intros r. apply t_reading_dev.
  apply t_reading. clear c sb Hc E Hi i Hty. intros c sb Hc E. hstep.
  eapply t_bind with (R := fun _ => at_core (co_put_in inn (true, sb) c)).
  { hstep; [hdone|].
    eapply t_bind with (R := fun _ => at_core (co_put_in inn (true, sb) c)); [|intros []; hrun; hdone].
    hstep; [apply read_frames_t|]. apply t_end, t_quiet; [apply read_pcm_live|apply read_pcm_quiet|]. intros []. hdone. }
  intros [r' b']. eapply t_bind with (R := fun _ => at_core (co_put_in inn (true, sb) c)).
  { hstep; [|hdone]. hstep. apply sleep_t. }
  intros []. apply t_release_in; [done|]. hok.
Qed.

(** *** Parameters and effects *)

Lemma t_reading_ask {A B} inn l (f : W -> A) (k : A -> M S B) Q :
  (forall a, triple (reading inn l) (k a) Q) -> triple (reading inn l) (bind (ask f) k) Q.
Proof. apply t_ask. Qed.
Lemma reading_select inn l {B} (k : unit -> M S B) Q :
  triple (reading inn l) (k tt) Q -> triple (reading inn l) (bind select_input_device k) Q.
Proof.
  intros Hk. apply t_reading_still; [intros; apply select_input_device_t|]. by intros [].
Qed.
Lemma standby_if_t inn (b : bool) :
  triple (reading inn true) (if b then do_input_standby (W := W) inn ;;; ret tt else ret tt) (fun _ => reading inn true).
Proof. destruct b; [|by apply t_ret]. apply t_reading_standby. by apply t_ret. Qed.
Lemma reading_done {A} inn (a : A) :
  triple (reading inn true) (unlock_in (W := W) inn ;;; unlock_dev ;;; ret a) (fun _ => at_ok).
Proof. apply t_reading_locked, t_locked_release. by apply t_ret. Qed.

Lemma in_set_parameters_t c inn kvpairs :
  core_ok c -> triple (at_core c) (in_set_parameters (W := W) inn kvpairs) (fun _ => at_ok).
Proof.
  intros Hc. unfold in_set_parameters. hstep. hstep. destruct a0 as [r value]. apply t_take_in; [done|].
  apply t_reading_the. intros i. eapply t_bind with (R := fun _ => reading inn true).
  { hstep; [|by apply t_ret]. apply t_reading_keep; [by intros ? []|done|]. by apply t_ret. }
  intros standby. apply t_reading_ask. intros [r' value']. cbv zeta. apply t_reading_get. intros mode.
  apply t_reading_the. intros i'. eapply t_bind with (R := fun _ => reading inn true).
  { hstep; [|by apply t_ret]. hstep; [apply t_reading_keep; [by intros ? []|done|]; by apply t_ret|].
    hstep; [|by apply t_ret]. apply t_reading_keep; [by intros ? []|done|]. apply reading_select. by apply t_ret. }
  intros standby'. apply t_reading_ask. intros [r'' value''].
  eapply t_bind; [apply standby_if_t|]. intros []. apply t_reading_locked, t_locked_release.
  apply t_quiet; [auto with live|auto with quiet|]. intros []. by apply t_ret.
Qed.

Lemma in_add_audio_effect_t c inn effect :
  core_ok c -> triple (at_core c) (in_add_audio_effect (W := W) inn effect) (fun _ => at_ok).
Proof.
  intros Hc. unfold in_add_audio_effect. apply t_take_in; [done|].
  apply t_reading_the. intros i. eapply t_bind with (R := fun _ => reading inn true); [|intros st; apply reading_done].
  hstep; [by apply t_ret|]. apply t_reading_ask. intros [st aec]. hstep; [by apply t_ret|].
  apply t_reading_keep; [by intros ? []|done|]. eapply t_bind with (R := fun _ => reading inn true); [|intros []; by apply t_ret].
  hstep; [|by apply t_ret]. apply t_reading_keep; [by intros ? []|done|]. apply t_reading_standby. by apply t_ret.
Qed.
Lemma in_remove_audio_effect_t c inn effect :
  core_ok c -> triple (at_core c) (in_remove_audio_effect (W := W) inn effect) (fun _ => at_ok).
Proof.
  intros Hc. unfold in_remove_audio_effect. apply t_take_in; [done|].
  apply t_reading_the. intros i. eapply t_bind with (R := fun _ => reading inn true); [|intros st; apply reading_done].
  hstep; [by apply t_ret|]. hstep; [|by apply t_ret].
  apply t_reading_keep; [by intros ? []|done|]. apply t_reading_ask. intros [st aec].
  eapply t_bind with (R := fun _ => reading inn true); [|intros []; by apply t_ret].
  hstep; [|by apply t_ret]. apply t_reading_keep; [by intros ? []|done|]. apply t_reading_standby. by apply t_ret.
Qed.

(** *** Opening and closing *)

Lemma ok_new_in c inn sb : core_ok c -> co_ins c !! inn = None -> core_ok (co_put_in inn (false, sb) c).
Proof.
  intros [Hl Ho Hi Hc Ho' Hi'] E. constructor; cbn; auto using free_insert.
  destruct Hi' as [Hi'|Hi']; [by left|right]. rewrite lookup_insert_ne; [done|]. by intros ->; rewrite E in Hi'.
Qed.
Lemma open_in_err_t c inn : core_ok c -> co_ins c !! inn = None ->
  triple (at_core (co_put_in inn (false, false) c)) (open_in_err (W := W) inn) (fun _ => at_ok).
Proof.
  intros Hc E. unfold open_in_err. hstep. intros g [Eg [Hd Hi]]. apply wpg_set, wpg_ret.
  apply (at_ok_core c); [|done]. split.
  - assert (Em : in_core <$> delete inn (h_ins g) = co_ins c).
    { rewrite fmap_delete. apply (f_equal co_ins) in Eg. cbn in Eg. rewrite Eg. by rewrite delete_insert_id. }
    unfold core_of in *. cbn in *. rewrite Em. destruct c. unfold co_put_in, co_set_ins in Eg. cbn in *. congruence.
  - split; [done|]. by apply map_Forall_delete.
Qed.
Lemma open_af_buffer_t c rate : triple (at_core c) (open_af_buffer (W := W) rate) (fun _ => at_core c).
Proof. unfold open_af_buffer. hrun; hdone. Qed.
Lemma adev_open_input_stream_t c devices rate fmt ch :
  core_ok c -> triple (at_core c) (adev_open_input_stream (W := W) devices rate fmt ch) (fun _ => at_ok).
Proof.
  intros Hc. unfold adev_open_input_stream. hstep; [hok|]. hstep. hstep; [hok|].
  intros g Hg. apply wpg_get. unfold new_address. destruct (h_ins g !! a) eqn:E; [by intros ? _|].
  apply wpg_ret_bind, wpg_set.
  assert (En : co_ins c !! a = None) by (destruct Hg as [<- _]; cbn; by rewrite lookup_fmap, E).
  match goal with |- wpg ?g' _ _ => assert (Hg' : at_core (co_put_in a (false, false) c) g') end.
  { destruct Hg as [<- [Hd Hi]]. split; [by rewrite core_put_in|]. split; [done|].
    apply map_Forall_insert_2; [|done]. split; cbn; lia. }
  revert Hg'. generalize (set_h_ins (<[a := set_si_requested_rate rate (set_si_config
    (set_in_init_channels ch (set_channels ch pcm_config_mm_in)) in_zero)]> (h_ins g)) g). clear g Hg E.
  change (triple (at_core (co_put_in a (false, false) c))
    (let size := period_size (set_in_init_channels ch (set_channels ch pcm_config_mm_in)) *
       in_frame_size (set_in_init_channels ch (set_channels ch pcm_config_mm_in)) * 8 in
     let* buffer := c_malloc size in
     put_in a (fun i => set_si_buffer buffer (set_si_buffer_mem (zeros size) i)) ;;;
     if buffer =? 0 then open_in_err a else
     put_dev (set_ad_af_capture_flag false) ;;;
     let* ok := (if devices =? AUDIO_DEVICE_IN_AF then open_af_buffer rate else ret true) in
     if negb ok then open_in_err a else
     put_in a (fun i => set_si_standby true
       (set_si_device (Z.land devices (Z.lnot AUDIO_DEVICE_BIT_IN)) i)) ;;;
     ret (0, a)) (fun _ => at_ok)).
  cbv zeta. hstep. hkeep. hstep; [by apply open_in_err_t|]. hkeep.
  eapply t_bind with (R := fun _ => at_core (co_put_in a (false, false) c)).
  { hstep; [apply open_af_buffer_t|hdone]. }
  intros ok. destruct ok; cbn [negb]; [|by apply open_in_err_t].
  apply (t_put_in _ _ _ _ (fun _ => (false, true))).
  - by intros i [].
  - intros i Hi. cbn in Hi. rewrite lookup_insert_eq in Hi. unfold in_core in *. cbn. congruence.
  - intros _ _. apply t_ret. intros g Hg. apply (at_ok_core (co_put_in a (false, true) c)); [|by apply ok_new_in].
    revert Hg. unfold co_put_in, co_set_ins. cbn. by rewrite insert_insert_eq.
Qed.

Lemma ok_drop_in c inn l : core_ok c -> co_ins c !! inn = Some (l, true) -> core_ok (co_set_ins (delete inn (co_ins c)) c).
Proof.
  intros [Hl Ho Hi Hc Ho' Hi'] E. constructor; cbn; auto; [by apply map_Forall_delete|].
  destruct Hi' as [Hi'|Hi']; [by left|right]. rewrite lookup_delete_ne; [done|]. intros ->. by rewrite Hi' in E.
Qed.
Lemma standby_in_is c inn i : core_ok c -> co_ins (co_standby_in inn c) !! inn = Some i -> i = (false, true).
Proof.
  intros [_ _ Hi _ _ _]. unfold co_standby_in. destruct (co_ins c !! inn) as [[l []]|] eqn:E; cbn.
  - rewrite E. intros [= <-]. by rewrite (free_lock _ _ _ _ Hi E).
  - rewrite lookup_insert_eq. intros [= <-]. by rewrite (free_lock _ _ _ _ Hi E).
  - by rewrite E.
Qed.
Lemma t_drop_in {B} c inn i (k : unit -> M S B) Q : core_ok c -> co_ins c !! inn = Some i -> i = (false, true) ->
  (forall c', core_ok c' -> triple (at_core c') (k tt) Q) ->
  triple (at_core c) (bind (set_glob (fun g => set_h_ins (delete inn (h_ins g)) g)) k) Q.
Proof.
  intros Hc E -> Hk g [<- [Hd Hi]]. apply wpg_set. eapply Hk; [by eapply ok_drop_in|].
  split; [|split; [done|by apply map_Forall_delete]]. unfold core_of, co_set_ins. cbn. by rewrite fmap_delete.
Qed.
Lemma adev_close_input_stream_t c inn :
  core_ok c -> triple (at_core c) (adev_close_input_stream (W := W) inn) (fun _ => at_ok).
Proof.
  intros Hc. unfold adev_close_input_stream.
  eapply t_bind; [apply in_standby_t; [apply Hc|by apply ok_open_in|by apply ok_open_out]|]. intros st. cbn beta.
  pose proof (ok_standby_in c inn Hc) as Hk. hstep. pose proof (standby_in_is c inn _ Hc Hi) as Es.
  hstep. hcall drop_handle_t. hkeep. hstep.
  eapply t_bind with (R := fun _ => at_core (co_standby_in inn c)).
  { hstep; [hdone|]. hstep. apply t_end. hkeep. hdone. }
  intros []. hstep. apply (t_drop_in _ _ _ _ _ Hk Hi Es). intros c' Hc'. do 2 hstep.
  apply t_end. hstep. apply t_ret. intros g Hg. by exists c'.
Qed.
End SafeIn.
