(* ===== verification/AudSafeHal.v ===== *)
(** * audio HAL: every call keeps the mutexes, the mode and the streams together *)

From S2P Require Import Prelude CLib Os Live Snd Mixer Pcm Codec VolumeConf CodecClient AudBp AudIface.
From S2P Require Import AudRing AudDevices AudDevTheorems AudEnv AudHw AudOut AudIn AudAdev AudLive AudCore.
From S2P Require Import AudSafe AudSafeOut AudSafeIn.

Section SafeHal.
Context {W : Type} `{OsOps W, MixOps W, PropOps W, FileOps W, SystemOps W, PropSetOps W, HalLibs W}.
Context `{HalConsts}.
Abbreviation S := (mach W hal_g).
Ltac hok := apply t_ret; intros ? ?; eapply at_ok_core; [eassumption|eauto using ok_standby_out, ok_standby_in].

(** *** Modes *)

(** Inside [adev_set_mode]: the mode is [m], the call flag [k]. *)
Definition call_flag (m : Z) : Z := if calling m then 1 else 0.
Definition changing (m k : Z) (g : hal_g) : Prop :=
  exists c, core_ok (co_set_in_call (call_flag m) c) /\ co_mode c = m /\ co_in_call c = k /\
    at_core (co_set_lock true c) g.

Lemma t_changing {A} m k (x : M S A) Q :
  (forall c, core_ok (co_set_in_call (call_flag m) c) -> co_mode c = m -> co_in_call c = k ->
     triple (at_core (co_set_lock true c)) x Q) -> triple (changing m k) x Q.
Proof. intros Hx g (c & H1' & H2' & H3' & Hg). by apply (Hx c). Qed.
Lemma t_changing_still {A B} m k (x : M S A) (y : A -> M S B) Q :
  (forall c, triple (at_core c) x (fun _ => at_core c)) ->
  (forall a, triple (changing m k) (y a) Q) -> triple (changing m k) (bind x y) Q.
Proof.
  intros Hx Hy. apply t_changing. intros c H1' H2' H3'. apply t_still; [done|]. intros a.
  eapply t_pre; [apply Hy|]. intros g Hg. by exists c.
Qed.
Lemma co_standby_out_call out v c : co_standby_out out (co_set_in_call v c) = co_set_in_call v (co_standby_out out c).
Proof. unfold co_standby_out. cbn. by destruct (co_outs c !! out) as [[l []]|]. Qed.
Lemma co_standby_in_call inn v c : co_standby_in inn (co_set_in_call v c) = co_set_in_call v (co_standby_in inn c).
Proof. unfold co_standby_in. cbn. by destruct (co_ins c !! inn) as [[l []]|]. Qed.
Lemma standby_out_kept out c : co_mode (co_standby_out out c) = co_mode c /\ co_in_call (co_standby_out out c) = co_in_call c.
Proof. unfold co_standby_out. by destruct (co_outs c !! out) as [[l []]|]. Qed.
Lemma standby_in_kept inn c : co_mode (co_standby_in inn c) = co_mode c /\ co_in_call (co_standby_in inn c) = co_in_call c.
Proof. unfold co_standby_in. by destruct (co_ins c !! inn) as [[l []]|]. Qed.

Lemma force_all_standby_t m k : triple (changing m k) (force_all_standby (W := W)) (fun _ => changing m k).
Proof.
  apply t_changing. intros c Hc Hm Hk. unfold force_all_standby. hstep. cbn [co_out co_set_lock].
  eapply t_bind with (R := fun _ => changing m k).
  { hstep; [apply t_ret; intros g Hg; by exists c|].
    apply t_lock_out; [intros sb E|exact (ok_open_out _ (co_out c) Hc)].
    hmove do_output_standby_t. apply t_end, t_release_standby_out; [done|]. apply t_ret. intros g Hg.
    rewrite co_standby_out_lock in Hg. exists (co_standby_out (co_out c) c).
    destruct (standby_out_kept (co_out c) c) as [-> ->]. split; [|done].
    rewrite <- co_standby_out_call. by apply ok_standby_out. }
  intros []. clear c Hc Hm Hk. apply t_changing. intros c Hc Hm Hk. hstep. cbn [co_in co_set_lock].
  hstep; [apply t_ret; intros g Hg; by exists c|].
  eapply t_mono; [apply force_in_standby_t; [exact (ok_open_in _ (co_in c) Hc)|exact (ok_open_out _ (co_out c) Hc)]|].
  intros a g Hg. exists (co_standby_in (co_in c) c). destruct (standby_in_kept (co_in c) c) as [-> ->].
  split; [|done]. rewrite <- co_standby_in_call. by apply ok_standby_in.
Qed.
Lemma set_in_call_t {B} m k k' (y : unit -> M S B) Q :
  triple (changing m k') (y tt) Q -> triple (changing m k) (bind (put_dev (set_ad_in_call k')) y) Q.
Proof.
  intros Hy. apply t_changing. intros c Hc Hm Hk. apply (t_put_dev _ _ (co_set_in_call k')); [done|intros ? []; by constructor|].
  eapply t_pre; [apply Hy|]. intros g Hg. by exists (co_set_in_call k' c).
Qed.
Lemma call_devices_core g : core_of (set_h_dev (call_devices (h_dev g)) g) = core_of g.
Proof. unfold call_devices. by case_match. Qed.
Lemma call_devices_ok g : dev_ok (devs_of g) -> dev_ok (devs_of (set_h_dev (call_devices (h_dev g)) g)).
Proof. intros []. unfold call_devices. case_match; by constructor. Qed.
Lemma end_call_t c : triple (at_core c) (end_call (W := W)) (fun _ => at_core c).
Proof. unfold end_call. apply t_end. hrun. hdone. Qed.

Lemma changing_volume m k v :
  triple (changing m k) (adev_set_voice_volume (W := W) v) (fun _ => changing m k).
Proof.
  apply t_end, t_changing_still; [intros; apply adev_set_voice_volume_t|]. intros a. by apply t_ret.
Qed.
Lemma changing_output m k : triple (changing m k) (select_output_device (W := W)) (fun _ => changing m k).
Proof. apply t_end, t_changing_still; [apply select_output_device_t|]. intros []. by apply t_ret. Qed.

(** Into a call and out of it. *)
Lemma select_call_t m k (d : sunxi_audio_device) :
  k = 0 \/ k = 1 ->
  triple (changing m k)
    (if calling m then
       if k =? 0 then
         force_all_standby ;;; put_dev call_devices ;;; start_call ;;; select_output_device ;;;
         adev_set_voice_volume (W := W) (ad_voice_volume d) ;;; put_dev (set_ad_in_call 1)
       else ret tt
     else
       if k =? 0 then ret tt
       else
         put_dev (set_ad_in_call 0) ;;; end_call ;;; force_all_standby ;;;
         select_output_device ;;; select_input_device) (fun _ => changing m (call_flag m)).
Proof.
  intros Hk. unfold call_flag. destruct (calling m) eqn:Ec.
  - destruct Hk as [-> | ->]; cbn [Z.eqb]; [|by apply t_ret].
    eapply t_bind; [apply force_all_standby_t|]. intros [].
    apply t_changing. intros c Hc Hm Hk'. apply (t_put_dev _ _ id); [apply call_devices_core|apply call_devices_ok|].
    apply t_pre with (P' := changing m 0); [|intros g Hg; by exists c]. apply t_ret_bind.
    eapply t_bind; [apply changing_output|]. intros []. eapply t_bind; [apply changing_volume|]. intros ?.
    apply t_end, set_in_call_t. by apply t_ret.
  - destruct Hk as [-> | ->]; cbn [Z.eqb]; [by apply t_ret|].
    apply set_in_call_t. apply t_changing_still; [apply end_call_t|]. intros [].
    eapply t_bind; [apply force_all_standby_t|]. intros [].
    eapply t_bind; [apply changing_output|]. intros [].
    apply t_end, t_changing_still; [apply select_input_device_t|]. intros []. by apply t_ret.
Qed.
Lemma select_mode_t m k :
  k = 0 \/ k = 1 -> triple (changing m k) (select_mode (W := W)) (fun _ => changing m (call_flag m)).
Proof.
  intros Hk. unfold select_mode. apply t_changing. intros c Hc Hm Hk'.
  apply t_dev. intros d _ Hmode Hcall _ _. cbn in Hmode, Hcall. cbv zeta. rewrite Hmode, Hcall, Hm, Hk'.
  apply t_pre with (P' := changing m k); [|intros g Hg; by exists c].
  eapply t_bind; [by apply select_call_t|]. intros [].
  eapply t_bind with (R := fun _ => changing m (call_flag m)).
  { hstep; [apply changing_output|by apply t_ret]. }
  intros []. hstep; [|by apply t_ret]. eapply t_bind; [apply force_all_standby_t|]. intros [].
  eapply t_bind; [apply changing_output|]. intros []. eapply t_bind; [apply changing_volume|]. intros ?. by apply t_ret.
Qed.
Lemma changing_done m g : changing m (call_flag m) g -> at_locked g.
Proof.
  intros (c & Hc & Hm & Hk & Hg). exists c. split; [|done]. destruct c. cbn in *. subst. done.
Qed.
Lemma adev_set_mode_t c m : core_ok c -> triple (at_core c) (adev_set_mode (W := W) m) (fun _ => at_ok).
Proof.
  intros Hc. unfold adev_set_mode. apply t_lock_dev; [apply Hc|]. hstep. cbn [co_mode co_set_lock].
  eapply t_bind with (R := fun _ => at_locked); [|intros []; apply t_locked_release; by apply t_ret].
  hstep; [apply t_ret; intros g Hg; by exists c|].
  apply (t_put_dev _ _ (co_set_mode m)); [done|intros ? []; by constructor|].
  apply t_pre with (P' := changing m (co_in_call c)).
  - eapply t_mono; [apply select_mode_t|intros []; apply changing_done].
    rewrite (ck_call _ Hc). case_match; auto.
  - intros g Hg. exists (co_set_mode m c). split; [|done]. by destruct Hc.
Qed.

(** *** The device *)

Lemma set_tty_t c m : core_ok c -> triple (at_core c) (set_tty (W := W) m) (fun _ => at_ok).
Proof.
  intros Hc. unfold set_tty. apply t_lock_dev; [apply Hc|]. hstep.
  eapply t_bind with (R := fun _ => at_core (co_set_lock true c)).
  { hstep; [hdone|]. hkeep. hstep; [|hdone]. hcall select_output_device_t. hcall adev_set_voice_volume_t. hdone. }
  intros []. apply t_end, t_unlock_dev. rewrite co_lock_id by apply Hc. hok.
Qed.
Lemma adev_set_parameters_t c kv : core_ok c -> triple (at_core c) (adev_set_parameters (W := W) kv) (fun _ => at_ok).
Proof.
  intros Hc. unfold adev_set_parameters. hstep. hstep. destruct a0 as [r value]. cbv zeta. hstep; [|hok].
  eapply t_bind with (R := fun _ => at_ok); [hstep; [by apply set_tty_t|hok]|]. intros [].
  clear c Hc. apply t_ok. intros c Hc. hstep. destruct a0 as [r' value'].
  eapply t_bind with (R := fun _ => at_core c).
  { hstep; [|hdone]. apply t_end. hkeep. hdone. }
  intros []. hstep. destruct a0 as [r'' value''].
  eapply t_bind with (R := fun _ => at_core c).
  { hstep; [|hdone]. apply t_devs; [apply set_audio_devices_active_live|by apply set_active_pc; left|]. intros _. hdone. }
  intros []. hstep. hok.
Qed.
Lemma dup_t c s : triple (at_core c) (dup (W := W) s) (fun _ => at_core c).
Proof. unfold dup, strdup. hrun. hdone. Qed.
Lemma dup_active_t c io : triple (at_core c) (dup_active (W := W) io) (fun _ => at_core c).
Proof.
  unfold dup_active. apply t_devs; [apply get_audio_devices_active_live| |].
  - apply pc_quiet. unfold get_audio_devices_active. repeat (apply quiet_bind; [auto with quiet|intros]). auto with quiet.
  - intros [? l]. apply dup_t.
Qed.
Lemma dup_devices_t c io : triple (at_core c) (dup_devices (W := W) io) (fun _ => at_core c).
Proof.
  unfold dup_devices. apply t_devs; [apply get_audio_devices_live|apply get_audio_devices_pc|].
  intros l. hstep. apply dup_t.
Qed.
Lemma adev_get_parameters_t c keys :
  triple (at_core c) (adev_get_parameters (W := W) keys) (fun _ => at_core c).
Proof.
  unfold adev_get_parameters, device_lists.
  repeat first [apply dup_t | apply dup_active_t | apply dup_devices_t | hstep].
Qed.

(** *** Opening *)

Definition core_zero : core := Core false 0 0 0 0 ∅ ∅.
(** While the cards are looked for. *)
Definition booting (P : dev_g -> Prop) (g : hal_g) : Prop := core_of g = core_zero /\ h_ins g = ∅ /\ P (devs_of g).
Lemma booting_devs {A} (P : dev_g -> Prop) (m : M (mach W dev_g) A) (Q : A -> dev_g -> Prop) :
  pc P m Q -> pc (booting P) (in_devs m) (fun a => booting (Q a)).
Proof.
  intros Hm s a s' (Hc & Hi & HP). unfold in_devs, zoom.
  destruct (m _) as [a' s1| |] eqn:E; [|done..]. intros [= <- <-]. split; [done|]. split; [done|].
  assert (HQ : Q a' (glob s1)) by (by eapply Hm, E). destruct s1 as [w h f [? ? ? ? ? ?]]. exact HQ.
Qed.
Lemma booted g : booting dev_ok g -> at_core core_zero g.
Proof. intros (Hc & Hi & Hd). split; [done|]. split; [done|]. rewrite Hi. apply map_Forall_empty. Qed.
Lemma default_route_t :
  triple (at_core core_zero) (default_route (W := W)) (fun _ => at_core core_zero).
Proof.
  unfold default_route. apply t_lock_dev; [done|].
  apply (t_put_dev _ _ (co_set_mode AUDIO_MODE_NORMAL)); [done|intros ? []; by constructor|]. hkeep. hkeep.
  eapply t_bind with (R := fun _ => at_core (co_set_lock true core_zero)).
  { hstep; [|hdone]. hstep. hkeep. apply init_ac100_t. }
  intros []. hcall select_output_device_t. hkeep. apply t_end, t_unlock_dev. by apply t_ret.
Qed.
Lemma pc_iface {A} c (m : M (mach W iface_g) A) : pc (at_core c) (in_iface m) (fun _ => at_core c).
Proof.
  intros s a s' [Hc Ht]. unfold in_iface, zoom. destruct (m _) as [a' s1| |]; [|done..]. by intros [= <- <-].
Qed.
Lemma zero_ok : AUDIO_MODE_MODE_FACTORY_TEST <> AUDIO_MODE_NORMAL -> core_ok core_zero.
Proof.
  intros Hf. constructor; [done|apply map_Forall_empty..| |by left|by left].
  unfold calling. change (co_mode core_zero) with AUDIO_MODE_NORMAL.
  destruct (Z.eqb_spec AUDIO_MODE_NORMAL AUDIO_MODE_MODE_FACTORY_TEST) as [E|]; [by destruct Hf|done].
Qed.

Lemma adev_open_pc name :
  AUDIO_MODE_MODE_FACTORY_TEST <> AUDIO_MODE_NORMAL ->
  pc (W := W) (fun g => g = hal_initial) (adev_open name) (fun r g => r = 0 -> at_ok g).
Proof.
  intros Hf. unfold adev_open. case_match; [by apply pc_ret|]. apply pc_quiet_bind; [auto with quiet|]. intros p.
  case_match; [by apply pc_ret|].
  eapply (pc_bind _ _ _ (fun _ => booting map_typed)).
  { apply pc_set_glob. intros g ->. split; [done|]. split; [done|]. vm_compute. repeat constructor. }
  intros []. eapply pc_bind; [eapply booting_devs, init_audio_devices_pc|]. intros [].
  eapply pc_bind; [eapply booting_devs, init_audio_devices_active_pc|]. intros [].
  apply pc_quiet_bind; [unfold get_dev; auto with quiet|]. intros card.
  apply pc_quiet_bind; [auto with quiet|]. intros mixer.
  eapply (pc_bind _ _ _ (fun _ => at_core core_zero)).
  { apply pc_set_glob. intros g Hg. by apply booted in Hg. }
  intros []. case_match.
  { apply pc_quiet_bind; [auto with quiet|]. intros _.
    eapply (pc_bind _ _ _ (fun _ _ => True)); [by apply pc_set_glob|]. intros []. by apply pc_ret. }
  eapply (pc_bind _ _ _ (fun _ => at_core core_zero)); [apply wpg_pc, default_route_t|]. intros [].
  eapply pc_bind; [apply pc_iface|]. intros ?. eapply pc_bind; [apply pc_iface|]. intros ?.
  apply pc_ret. intros g Hg _. by apply (at_ok_core core_zero), zero_ok.
Qed.
End SafeHal.
