(* ===== verification/AudSim.v ===== *)
(** * A board to run the audio HAL on

    The codec's card of [CodecSim] as card 0, whose nodes, mixer, file system and
    libraries are concrete functions; it keeps what is written to a card, and the
    bytes it captures count up.  It models no code of the repository. *)

From stdpp Require Import strings.
From S2P Require Import Prelude CLib Os Snd Mixer Pcm Codec VolumeConf CodecSim CodecClient AudBp AudIface.
From S2P Require Import VolumeTheorems AudRing AudDevices AudEnv.

Record hal_world := HalWorld {
  hw_codec : codec_world;
  hw_played : list (Z * bytes);       (* the stream and the samples, last first *)
  hw_captured : Z;                    (* the bytes that were captured *)
}.
Definition on_codec {A} (f : codec_world -> A * codec_world) (w : hal_world) : A * hal_world :=
  let '(a, c) := f (hw_codec w) in (a, HalWorld c (hw_played w) (hw_captured w)).

Definition card0_nodes : list string :=
  ["/sys/class/sound/card0"; "/sys/class/sound/card0/pcmC0D0p"; "/sys/class/sound/card0/pcmC0D0c"]%string.
Definition card0_id : bytes := str "audiocodec" ++ [10].
Definition os_with (card_id : bytes) : OsOps hal_world := {|
  os_malloc := fun n => on_codec (os_malloc n);
  os_open := fun path w => (if String.eqb path "/data/audio/audio_raw" then -1 else 3, w);
  os_close := fun _ w => w;
  os_lseek := fun _ off w => (off, w);
  os_read := fun _ _ w => (lenZ card_id, card_id, w);
  os_write := fun _ b w => (lenZ b, w);
  os_fsync := fun _ w => w;
  os_ioctl := fun _ _ _ b w => (0, b, w);
  os_access := fun path _ => if existsb (String.eqb path) card0_nodes then 0 else -1
|}.
#[export] Instance hal_os : OsOps hal_world := os_with card0_id.
#[export] Instance hal_mix : MixOps hal_world := {
  mix_list := fun fd n => on_codec (mix_list fd n);
  mix_info := fun fd n item => on_codec (mix_info fd n item);
  mix_read := fun fd n => on_codec (mix_read fd n);
  mix_write := fun fd n v => on_codec (mix_write fd n v);
}.
#[export] Instance hal_prop : PropOps hal_world := {
  prop_get := fun key _ _ =>
    if String.eqb key "ro.sw.audio.codec_plan_name" then (lenZ (str "PLAN_ONE"), str "PLAN_ONE")
    else if String.eqb key "ro.sw.audio.bp_device_name" then (4, str "demo") else (0, []);
}.
#[export] Instance hal_file : FileOps hal_world := {
  conf_bytes := fun _ _ => Some demo_file;
  stack_line := fun _ => [];
  fresh_word := fun _ _ _ => 0;
}.
#[export] Instance hal_sys : SystemOps hal_world := { sys_system := fun _ w => (0, w) }.
#[export] Instance hal_propset : PropSetOps hal_world := { prop_set := fun _ _ w => (0, w) }.

(** The rate of a USB card, and the result of creating a resampler, are chosen.
    A resampler asks for what it is to make, and makes one frame. *)
Definition one_frame (frames : Z) : rs_prog hal_world :=
  RsNext frames (fun _ n _ w => RsRelease n (RsDone [0; 0] 1 w)).
(** The streams of the cards are number 1; a string of parameters is the value of
    its only key. *)
Definition one_parm (key : string) (kv : bytes) (k : string) : Z * bytes :=
  if String.eqb k key then (0, kv) else (-1, []).
Definition libs_with (card_rate resampler_status : Z) : HalLibs hal_world := {|
  ta_open := fun _ _ _ _ w => (1, w);
  ta_open_req := fun _ _ _ c _ w => (1, c, w);
  ta_is_ready := fun _ _ => true;
  ta_close := fun _ w => w;
  ta_write := fun p b w => (0, HalWorld (hw_codec w) ((p, b) :: hw_played w) (hw_captured w));
  ta_read := fun _ b w =>
    (0, map (fun k => (hw_captured w + k) mod 256) (seqZ 0 (lenZ b)),
     HalWorld (hw_codec w) (hw_played w) (hw_captured w + lenZ b));
  ta_set_avail_min := fun _ _ w => w;
  ta_htimestamp := fun _ _ => (0, 0, (0, 0));
  ta_buffer_size := fun _ _ => 5440;
  ta_params_get := fun _ w => (1, w);
  ta_params_rate := fun _ _ => (card_rate, card_rate);
  ta_params_channels := fun _ _ => (2, 2);
  ta_params_free := fun _ w => w;
  ta_mixer_open := fun _ w => (1, w);
  ta_mixer_close := fun _ w => w;
  rs_create := fun _ _ _ w => (resampler_status, if resampler_status =? 0 then 1 else 0, w);
  rs_release := fun _ w => w;
  rs_reset := fun _ w => w;
  rs_from_input := fun _ b i o w => (b, i, i, w);
  rs_from_provider := fun _ frames _ => one_frame frames;
  er_create := fun _ _ _ _ w => (0, 1, w);
  er_release := fun _ w => w;
  er_write := fun _ _ w => w;
  er_read := fun _ _ w => w;
  fx_descriptor := fun _ _ => (0, true);
  ar_init := fun w => (1, w);
  ar_free := fun _ w => w;
  ar_reset := fun _ w => w;
  ar_apply_path := fun _ _ w => w;
  ar_update_mixer := fun _ w => w;
  parms_get := fun kv k _ _ => one_parm AUDIO_PARAMETER_STREAM_ROUTING kv k;
  hal_usleep := fun _ w => w;
  raw_create := fun _ w => (-1, w)
|}.
#[export] Instance hal_libs : HalLibs hal_world := libs_with 44100 0.
#[export] Instance hal_consts : HalConsts := {
  AUDIO_MODE_FM := 5;
  AUDIO_MODE_MODE_FACTORY_TEST := 4;
  AUDIO_DEVICE_IN_AF := 0x80002000;
  h8_platform := false;
  AUDIO_PARAMETER_DEVICES_IN := "audio_devices_in";
  AUDIO_PARAMETER_DEVICES_OUT := "audio_devices_out";
  AUDIO_PARAMETER_DEVICES_IN_ACTIVE := "audio_devices_in_active";
  AUDIO_PARAMETER_DEVICES_OUT_ACTIVE := "audio_devices_out_active";
  AUDIO_PARAMETER_RAW_DATA_OUT := "raw_data_output";
}.

(** The board after it starts. *)
Definition board_world : hal_world := HalWorld (CodecWorld 100 ∅) [] 0.
Definition board_boot {G} (g : G) : mach hal_world G := Mach board_world 0 0 g.
