(* ===== verification/AudHal.v ===== *)
(** * audio HAL: sequences of calls

    The calls the framework makes of an open device and its streams, in any
    order and with any arguments, and what holds between them. *)

From S2P Require Import Prelude CLib Os Live Snd Mixer Pcm Codec VolumeConf CodecClient AudBp AudIface.
From S2P Require Import AudRing AudDevices AudDevTheorems AudEnv AudHw AudOut AudIn AudAdev AudLive AudCore.
From S2P Require Import AudSafe AudSafeOut AudSafeIn AudSafeHal AudSim.

(** The entries of [struct audio_hw_device], [audio_stream_out] and
    [audio_stream_in] that do something. *)
Inductive hal_call :=
| SetMode (mode : Z)
| SetVoiceVolume (volume : Z)
| SetMicMute (state : bool)
| SetParameters (kvpairs : bytes)
| GetParameters (keys : bytes)
| OpenOutput
| CloseOutput (out : Z)
| OutStandby (out : Z)
| OutWrite (out : Z) (buffer : bytes)
| OutSetParameters (out : Z) (kvpairs : bytes)
| OutGetBufferSize (out : Z)
| OutGetLatency (out : Z)
| OpenInput (devices rate fmt channel_count : Z)
| CloseInput (inn : Z)
| InStandby (inn : Z)
| InRead (inn : Z) (buffer : bytes)
| InSetParameters (inn : Z) (kvpairs : bytes)
| InGetBufferSize (inn : Z)
| AddEffect (inn effect : Z)
| RemoveEffect (inn effect : Z).

(** What every state between two calls has: nobody holds a mutex, the flag of the
    call follows the mode, the active streams are open and play or capture, and
    the table of cards is well formed. *)
Record hal_ok `{HalConsts} (g : hal_g) : Prop := {
  ok_dev_free : ad_lock (h_dev g) = false;
  ok_outs_free : forall p o, h_outs g !! p = Some o -> so_lock o = false;
  ok_ins_free : forall p i, h_ins g !! p = Some i -> si_lock i = false;
  ok_in_call : ad_in_call (h_dev g) = if calling (ad_mode (h_dev g)) then 1 else 0;
  ok_output : ad_active_output (h_dev g) = 0 \/
    exists o, h_outs g !! ad_active_output (h_dev g) = Some o /\ so_standby o = false;
  ok_input : ad_active_input (h_dev g) = 0 \/
    exists i, h_ins g !! ad_active_input (h_dev g) = Some i /\ si_standby i = false;
  ok_cards : dev_ok (devs_of g);
}.

Section Hal.
Context {W : Type} `{OsOps W, MixOps W, PropOps W, FileOps W, SystemOps W, PropSetOps W, HalLibs W}.
Context `{HalConsts}.
Abbreviation S := (mach W hal_g).

Definition hal_exec (c : hal_call) : M S unit :=
  match c with
  | SetMode mode => adev_set_mode mode ;;; ret tt
  | SetVoiceVolume volume => adev_set_voice_volume volume ;;; ret tt
  | SetMicMute state => adev_set_mic_mute state ;;; ret tt
  | SetParameters kvpairs => adev_set_parameters kvpairs ;;; ret tt
  | GetParameters keys => adev_get_parameters keys ;;; ret tt
  | OpenOutput => adev_open_output_stream ;;; ret tt
  | CloseOutput out => adev_close_output_stream out
  | OutStandby out => out_standby out ;;; ret tt
  | OutWrite out buffer => out_write do_input_standby out buffer ;;; ret tt
  | OutSetParameters out kvpairs => out_set_parameters do_input_standby out kvpairs ;;; ret tt
  | OutGetBufferSize out => out_get_buffer_size out ;;; ret tt
  | OutGetLatency out => out_get_latency out ;;; ret tt
  | OpenInput devices rate fmt channel_count =>
      adev_open_input_stream devices rate fmt channel_count ;;; ret tt
  | CloseInput inn => adev_close_input_stream inn
  | InStandby inn => in_standby inn ;;; ret tt
  | InRead inn buffer => in_read inn buffer ;;; ret tt
  | InSetParameters inn kvpairs => in_set_parameters inn kvpairs ;;; ret tt
  | InGetBufferSize inn => in_get_buffer_size inn ;;; ret tt
  | AddEffect inn effect => in_add_audio_effect inn effect ;;; ret tt
  | RemoveEffect inn effect => in_remove_audio_effect inn effect ;;; ret tt
  end.
Fixpoint hal_run (l : list hal_call) : M S unit :=
  match l with [] => ret tt | c :: l => hal_exec c ;;; hal_run l end.

Lemma at_ok_hal g : at_ok g -> hal_ok g.
Proof.
  intros (c & [<- [Hd _]] & [Hl Ho Hi Hc Hao Hai]). cbn in *. constructor; [done| | |done| | |done].
  - intros p o E. apply (Ho p (out_core o)). by rewrite lookup_fmap, E.
  - intros p i E. apply (Hi p (in_core i)). by rewrite lookup_fmap, E.
  - destruct Hao as [|E]; [by left|right]. rewrite lookup_fmap in E.
    destruct (h_outs g !! _) as [o|]; [|done]. exists o. by injection E.
  - destruct Hai as [|E]; [by left|right]. rewrite lookup_fmap in E.
    destruct (h_ins g !! _) as [i|]; [|done]. exists i. by injection E.
Qed.

Lemma t_call {A} c (m : M S A) (R : A -> hal_g -> Prop) :
  triple (at_core c) m R -> (forall a g, R a g -> at_ok g) -> triple (at_core c) (m ;;; ret tt) (fun _ => at_ok).
Proof. intros Hm HR. eapply t_bind; [apply Hm|]. intros a. apply t_ret, HR. Qed.
Ltac ok_call tac := eapply t_call; [tac|cbn beta; eauto using at_ok_core, ok_standby_out, ok_standby_in].
Ltac ok_read tac :=
  lazymatch goal with c : core |- _ => eapply (t_call c _ (fun _ => at_core c)); [tac|cbn beta; eauto using at_ok_core] end.
Lemma hal_exec_t `{!CaptureWorks W} call : triple at_ok (hal_exec call) (fun _ => at_ok).
Proof.
  apply t_ok. intros c Hc. pose proof (ok_open_out c) as Ho. pose proof (ok_open_in c) as Hi.
  destruct call; cbn [hal_exec].
  - ok_call ltac:(by apply adev_set_mode_t).
  - ok_call ltac:(apply adev_set_voice_volume_t).
  - ok_read ltac:(unfold adev_set_mic_mute; hkeep; hdone).
  - ok_call ltac:(by apply adev_set_parameters_t).
  - ok_call ltac:(apply adev_get_parameters_t).
  - ok_call ltac:(by apply adev_open_output_stream_t).
  - by apply adev_close_output_stream_t.
  - ok_call ltac:(apply out_standby_t; auto).
  - ok_call ltac:(by apply out_write_t).
  - ok_call ltac:(by apply out_set_parameters_t).
  - ok_read ltac:(unfold out_get_buffer_size; hrun; hdone).
  - ok_read ltac:(unfold out_get_latency; apply t_end; hrun; hdone).
  - ok_call ltac:(by apply adev_open_input_stream_t).
  - by apply adev_close_input_stream_t.
  - ok_call ltac:(apply in_standby_t; auto; apply Hc).
  - ok_call ltac:(by apply in_read_t).
  - ok_call ltac:(by apply in_set_parameters_t).
  - ok_read ltac:(unfold in_get_buffer_size; hrun; hdone).
  - ok_call ltac:(by apply in_add_audio_effect_t).
  - ok_call ltac:(by apply in_remove_audio_effect_t).
Qed.
Lemma hal_run_t `{!CaptureWorks W} l : triple at_ok (hal_run l) (fun _ => at_ok).
Proof.
  induction l as [|c l IH]; cbn [hal_run]; [by apply t_ret|]. eapply t_bind; [apply hal_exec_t|]. by intros [].
Qed.

Lemma opened_ok name (s0 s : S) :
  AUDIO_MODE_MODE_FACTORY_TEST <> AUDIO_MODE_NORMAL ->
  glob s0 = hal_initial -> adev_open name s0 = Done 0 s -> at_ok (glob s).
Proof. intros Hf Hg E. by eapply adev_open_pc, eq_refl; [..|apply E]. Qed.
Lemma run_ok `{!CaptureWorks W} l (s s' : S) u : at_ok (glob s) -> hal_run l s = Done u s' -> at_ok (glob s').
Proof. intros Hs E. pose proof (hal_run_t l (glob s) Hs s eq_refl) as Hr. by rewrite E in Hr. Qed.

(** C2: The device that is opened answers every call.  Whatever the calls, their
    order and their arguments, and whatever the cards, the codec, the modem and
    the file system answer: as long as a resampler can be made and makes frames
    and a card is opened with a period, no call waits for a mutex for ever or
    loops, and every mutex is free after it, the flag of the phone call is that
    of the mode, an active stream is one that is open and out of standby, and the
    table of cards keeps its type. *)
Theorem hal_answers `{!CaptureWorks W} name calls (s0 s : S) :
  AUDIO_MODE_MODE_FACTORY_TEST <> AUDIO_MODE_NORMAL ->
  glob s0 = hal_initial -> adev_open name s0 = Done 0 s ->
  match hal_run calls s with
  | Done _ s' => hal_ok (glob s')
  | Blocked => False
  | Undef => True
  end.
Proof.
  intros Hf Hg E. pose proof (opened_ok name s0 s Hf Hg E) as Hs.
  pose proof (hal_run_t calls (glob s) Hs s eq_refl) as Hr.
  destruct (hal_run calls s); [by apply at_ok_hal|done..].
Qed.
End Hal.

(** The board's device is opened, plays, captures, goes through a call, changes its
    route, and closes its streams. *)
Definition end_of {A S} (r : outcome S A) (s : S) : S := match r with Done _ s' => s' | _ => s end.
Definition board_opened : mach hal_world hal_g :=
  end_of (adev_open AUDIO_HARDWARE_INTERFACE (board_boot hal_initial)) (board_boot hal_initial).
Definition board_calls : list hal_call :=
  [OpenOutput; OutWrite 120 (replicate 16 7); OpenInput 0x80000004 22050 1 2; InRead 122 (replicate 16 0);
   SetMode AUDIO_MODE_IN_CALL; SetVoiceVolume 3; SetMode AUDIO_MODE_NORMAL; OutWrite 120 (replicate 16 7);
   OutSetParameters 120 (str "2"); OutSetParameters 120 (str "1024"); AddEffect 122 1;
   InRead 122 (replicate 8 0); CloseOutput 120; CloseInput 122].
Lemma board_captures : CaptureWorks hal_world.
Proof. split; [by split|done|]. intros rs frames last w _. by cbn. Qed.
Lemma hal_answers_witness :
  map fst (hw_played (world (end_of (hal_run board_calls board_opened) board_opened))) = [1; 1] /\
  match hal_run board_calls board_opened with
  | Done _ s' => hal_ok (glob s')
  | Blocked => False
  | Undef => True
  end.
Proof.
  split; [by vm_compute|].
  apply (@hal_answers _ _ _ _ _ _ _ _ _ board_captures AUDIO_HARDWARE_INTERFACE board_calls (board_boot hal_initial));
    [done|reflexivity|vm_compute; reflexivity].
Defined.
