(* ===== verification/AudWrite.v ===== *)
(** * audio HAL: what a playing stream hands to the cards

    While a stream plays and neither the node of the raw mode nor the cards
    change, [out_write] hands the frames of its buffer to every active card, the
    card of the highest number first. *)

From S2P Require Import Prelude CLib Os Snd Mixer Pcm Codec VolumeConf CodecClient AudBp AudIface AudRing AudDevices AudEnv AudHw.
From S2P Require Import AudOut AudIn AudAdev AudHal AudSim.

(** The cards that play, from 16 down. *)
Definition playing (d : sunxi_audio_device) : list Z :=
  filter (fun index => plays (card_entry index d) = true) cards_down.

(** A stream whose cards all play its frames as they are. *)
Record plain (d : sunxi_audio_device) (o : sunxi_stream_out) : Prop := {
  pl_standby : so_standby o = false;
  pl_echo : so_echo_reference o = 0;
  pl_card index : plays (card_entry index d) = true ->
    out_slot (so_multi_pcm o) index <> 0 /\ out_slot (so_multi_resampler o) index = 0 /\
    exists c, so_multi_config o !! Z.to_nat index = Some c /\ channels c = 2;
}.
(** The device between two writes. *)
Record steady (out : Z) (g : hal_g) (o : sunxi_stream_out) `{HalConsts} : Prop := {
  sy_mode : call_mode (ad_mode (h_dev g)) = false;
  sy_raw : ad_raw_flag (h_dev g) = false;
  sy_af : ad_af_capture_flag (h_dev g) = false;
  sy_lock : ad_lock (h_dev g) = false;
  sy_out : h_outs g !! out = Some o;
  sy_free : so_lock o = false;
  sy_plain : plain (h_dev g) o;
}.

Section Write.
Context {W : Type} `{OsOps W, MixOps W, PropOps W, FileOps W, SystemOps W, PropSetOps W, HalLibs W}.
Context `{HalConsts}.
Abbreviation S := (mach W hal_g).

(** One card is handed [data]. *)
Definition hand (o : sunxi_stream_out) (data : bytes) (w : W) (index : Z) : W :=
  let p := out_slot (so_multi_pcm o) index in
  snd (ta_write p data (ta_set_avail_min p SHORT_PERIOD_SIZE w)).

Definition put (out : Z) (o : sunxi_stream_out) (g : hal_g) : hal_g := set_h_outs (<[out := o]> (h_outs g)) g.
Definition started_config (index : Z) : sunxi_stream_out -> sunxi_stream_out :=
  on_config index (set_avail_min SHORT_PERIOD_SIZE).

Lemma bind_the_out {B} out o (k : sunxi_stream_out -> M S B) s :
  h_outs (glob s) !! out = Some o -> bind (the_out out) k s = k o s.
Proof. intros E. unfold the_out. by rewrite bind_assoc, bind_get_glob, E. Qed.
Lemma bind_put_out {B} out o f (k : unit -> M S B) s :
  h_outs (glob s) !! out = Some o ->
  bind (put_out out f) k s = k tt (Mach (world s) (heap_live s) (fds_live s) (put out (f o) (glob s))).
Proof. intros E. unfold put_out. by rewrite bind_assoc, (bind_the_out out o). Qed.

Lemma plain_config d o index : plain d o -> plain d (started_config index o).
Proof.
  intros [Hs He Hc]. split; [done..|]. intros i Hi. destruct (Hc i Hi) as (Hp & Hr & c & Ec & Hch).
  split; [done|]. split; [done|]. cbn. destruct (decide (Z.to_nat index = Z.to_nat i)) as [->|Hn].
  - exists (set_avail_min SHORT_PERIOD_SIZE c). by rewrite list_lookup_alter_eq, Ec.
  - exists c. by rewrite list_lookup_alter_ne.
Qed.

(** One card, and all of them. *)
Lemma write_card_run out o index buffer n room w h f g :
  (forall p b w, fst (ta_write p b w) = 0) ->
  h_outs g !! out = Some o -> plain (h_dev g) o -> plays (card_entry index (h_dev g)) = true ->
  0 <= n -> n * 4 <= lenZ buffer ->
  write_card out index buffer n room (Mach w h f g) =
  Done (0, buffer, n, n)
    (Mach (hand o (bslice 0 (n * 4) buffer) w index) h f (put out (started_config index o) g)).
Proof.
  intros Hw Ho Hp Hi Hn Hb. destruct Hp as [Hs He Hc]. destruct (Hc index Hi) as (Hpcm & Hr & c & Ec & Hch).
  unfold write_card. rewrite (bind_the_out out o) by done. rewrite Ec. cbn [checked]. rewrite bind_ret_l.
  rewrite (bind_put_out out o) by done. unfold ta_handle at 1. rewrite (proj2 (Z.eqb_neq _ 0)) by done.
  rewrite bind_ret_l, bind_step_world. cbn [world heap_live fds_live glob]. fold (started_config index o).
  assert (Ho' : h_outs (put out (started_config index o) g) !! out = Some (started_config index o))
    by (cbn; by rewrite lookup_insert_eq).
  unfold resample. rewrite !bind_assoc, (bind_the_out out (started_config index o)) by done.
  cbn [so_multi_resampler started_config on_config set_so_multi_config]. rewrite Hr, Z.eqb_refl, bind_ret_l.
  rewrite (bind_the_out out (started_config index o)) by done.
  cbn [so_echo_reference started_config on_config set_so_multi_config so_multi_config]. rewrite He, Z.eqb_refl, bind_ret_l.
  rewrite list_lookup_alter_eq, Ec. cbn [fmap option_fmap option_map checked]. rewrite bind_ret_l.
  change (channels (set_avail_min _ c)) with (channels c). rewrite Hch, Z.eqb_refl.
  unfold write_pcm, ta_handle. rewrite (proj2 (Z.eqb_neq _ 0)) by done. rewrite bind_assoc, bind_ret_l.
  change OUT_FRAME_SIZE with 4. unfold in_bounds. rewrite (proj2 (Z.leb_le 0 0)), (proj2 (Z.leb_le 0 (n * 4))) by lia.
  rewrite (proj2 (Z.leb_le (0 + n * 4) _)) by lia. cbn [andb].
  specialize (Hw (out_slot (so_multi_pcm o) index) (bslice 0 (n * 4) buffer)
                 (ta_set_avail_min (out_slot (so_multi_pcm o) index) SHORT_PERIOD_SIZE w)).
  unfold hand. destruct (ta_write _ _ _) as [r w'] eqn:E. cbn in Hw. subst r.
  by rewrite (bind_on_world _ _ _ 0 w') by exact E.
Qed.

Lemma write_cards_run l : forall out o r buffer n room w h f g,
  (forall p b w, fst (ta_write p b w) = 0) ->
  h_outs g !! out = Some o -> plain (h_dev g) o -> 0 <= n -> n * 4 <= lenZ buffer ->
  let on := filter (fun index => plays (card_entry index (h_dev g)) = true) l in
  write_cards l out r buffer n room (Mach w h f g) =
  Done (match on with [] => r | _ => Some 0 end, buffer)
    (Mach (foldl (hand o (bslice 0 (n * 4) buffer)) w on) h f
       (match on with [] => g | _ => put out (foldl (fun o i => started_config i o) o on) g end)).
Proof.
  induction l as [|index l IH]; intros out o r buffer n room w h f g Hw Ho Hp Hn Hb; [done|].
  cbn [write_cards]. unfold get_dev. rewrite bind_get_glob. cbn [glob]. rewrite filter_cons.
  destruct (plays (card_entry index (h_dev g))) eqn:Ei.
  - rewrite decide_True by done. mcall (by apply write_card_run).
    rewrite Z.eqb_refl. cbn [negb].
    rewrite (IH out (started_config index o)); [|done|cbn; by rewrite lookup_insert_eq|by apply plain_config|done..].
    change (h_dev (put out (started_config index o) g)) with (h_dev g).
    destruct (filter _ l) as [|j k]; cbn [foldl]; [done|]. f_equal. f_equal.
    unfold put, set_h_outs. cbn. by rewrite insert_insert_eq.
  - rewrite decide_False by done. by apply IH.
Qed.

(** The stream after the write. *)
Definition written (d : sunxi_audio_device) (o : sunxi_stream_out) : sunxi_stream_out :=
  foldl (fun o index => started_config index o)
    (set_so_config (set_avail_min SHORT_PERIOD_SIZE (so_config o))
       (set_so_write_threshold (SHORT_PERIOD_SIZE * PLAYBACK_PERIOD_COUNT) o)) (playing d).

Lemma config_kept l : forall o,
  let o' := foldl (fun o index => started_config index o) o l in
  so_multi_pcm o' = so_multi_pcm o /\ so_lock o' = so_lock o /\ (forall d, plain d o -> plain d o').
Proof.
  induction l as [|i l IH]; intros o; [done|]. cbn [foldl]. destruct (IH (started_config i o)) as (-> & -> & Hp).
  split; [done|]. split; [done|]. intros d Hd. by apply Hp, plain_config.
Qed.
Lemma config_lock l b : forall o,
  set_so_lock b (foldl (fun o index => started_config index o) o l) =
  foldl (fun o index => started_config index o) (set_so_lock b o) l.
Proof. induction l as [|i l IH]; intros o; [done|]. cbn [foldl]. by rewrite IH. Qed.
Lemma written_kept d o : plain d o ->
  so_multi_pcm (written d o) = so_multi_pcm o /\ so_lock (written d o) = so_lock o /\ plain d (written d o).
Proof.
  intros [Hs He Hc]. unfold written. destruct (config_kept (playing d)
    (set_so_config (set_avail_min SHORT_PERIOD_SIZE (so_config o))
       (set_so_write_threshold (SHORT_PERIOD_SIZE * PLAYBACK_PERIOD_COUNT) o))) as (-> & -> & Hp).
  split; [done|]. split; [done|]. apply Hp. by split.
Qed.

Lemma relock_dev d : ad_lock d = false -> set_ad_lock false (set_ad_lock true d) = d.
Proof. destruct d. cbn. by intros ->. Qed.
Lemma relock_out o : so_lock o = false -> set_so_lock false (set_so_lock true o) = o.
Proof. destruct o. cbn. by intros ->. Qed.
(** Both mutexes are taken, and the device's is given back. *)
Lemma bind_lock_dev {B} (k : unit -> M S B) s :
  ad_lock (h_dev (glob s)) = false ->
  bind lock_dev k s =
  k tt (Mach (world s) (heap_live s) (fds_live s) (set_h_dev (set_ad_lock true (h_dev (glob s))) (glob s))).
Proof. intros Hl. unfold lock_dev, get_dev. by rewrite bind_assoc, bind_get_glob, Hl. Qed.
Lemma bind_lock_out {B} out o (k : unit -> M S B) s :
  h_outs (glob s) !! out = Some o -> so_lock o = false ->
  bind (lock_out out) k s = k tt (Mach (world s) (heap_live s) (fds_live s) (put out (set_so_lock true o) (glob s))).
Proof. intros Ho Hl. unfold lock_out. by rewrite bind_assoc, (bind_the_out out o), Hl, (bind_put_out out o). Qed.
Lemma put_put out o o' g : put out o (put out o' g) = put out o g.
Proof. unfold put, set_h_outs. cbn. by rewrite insert_insert_eq. Qed.
Lemma put_lookup out o g : h_outs (put out o g) !! out = Some o.
Proof. cbn. by rewrite lookup_insert_eq. Qed.
Lemma put_dev_of out o g : h_dev (put out o g) = h_dev g.
Proof. done. Qed.
Lemma put_relock out o g : ad_lock (h_dev g) = false ->
  set_h_dev (set_ad_lock false (h_dev (put out o (set_h_dev (set_ad_lock true (h_dev g)) g))))
    (put out o (set_h_dev (set_ad_lock true (h_dev g)) g)) = put out o g.
Proof. intros Hl. destruct g. cbn in *. by rewrite relock_dev. Qed.

End Write.

(** The board's stream after its first write. *)
Definition board_playing : mach hal_world hal_g :=
  end_of (hal_run (take 2 board_calls) board_opened) board_opened.
Definition board_stream : sunxi_stream_out := default out_zero (h_outs (glob board_playing) !! 120).
Lemma board_stream_there : h_outs (glob board_playing) !! 120 = Some board_stream.
Proof.
  unfold board_stream. destruct (h_outs (glob board_playing) !! 120) eqn:E; [done|].
  assert (Hs : bool_decide (is_Some (h_outs (glob board_playing) !! 120)) = true) by (vm_compute; reflexivity).
  by rewrite E in Hs.
Qed.
Lemma board_steady : steady 120 (glob board_playing) board_stream.
Proof.
  split; [vm_compute; reflexivity..|exact board_stream_there|vm_compute; reflexivity|].
  split; [vm_compute; reflexivity..|].
  intros index. unfold card_entry, out_slot. generalize (Z.to_nat index) as k. intros k.
  destruct k as [|k].
  - intros _. split; [by vm_compute|]. split; [by vm_compute|]. eexists. split; vm_compute; reflexivity.
  - assert (E : forall j, plays (default (past_end (ad_in_devices (h_dev (glob board_playing))))
      (drop 1 (ad_dev_manager (h_dev (glob board_playing))) !! j)) = false).
    { assert (Hd : drop 1 (ad_dev_manager (h_dev (glob board_playing))) = replicate 15 dev_zero) by (vm_compute; reflexivity).
      rewrite Hd. intros j. destruct (replicate 15 dev_zero !! j) eqn:Ej; [|vm_compute; reflexivity].
      apply lookup_replicate in Ej as [-> _]. reflexivity. }
    specialize (E k). rewrite lookup_drop in E. cbn [Nat.add] in E. by rewrite E.
Qed.
Lemma board_no_raw (s : mach hal_world hal_g) : detectRaw s = Done (RawInfo 0 RAW_PCM 44100) s.
Proof. by destruct s as [[] ? ? ?]. Qed.
Lemma board_plays : playing (h_dev (glob board_playing)) = [0].
Proof. vm_compute. reflexivity. Qed.
Lemma board_pcm : out_slot (so_multi_pcm board_stream) 0 = 1.
Proof. vm_compute. reflexivity. Qed.
