(* ===== verification/AudCapture.v ===== *)
(** * audio HAL: the order of the captured frames

    A stream with a pre-processing effect and no resampler reads a card by whole
    periods and hands the frames out in pieces of any length.  [read_frames]
    against its contract: what is read is what the card captured, without a gap
    and without a repetition, over any number of reads. *)

From S2P Require Import Prelude CLib Os Live Snd Mixer Pcm Codec VolumeConf CodecClient AudBp AudIface.
From S2P Require Import AudRing AudDevices AudEnv AudHw AudOut AudIn AudSafeIn AudHal AudSim AudWrite.

(** ** Streams of bytes *)

Definition segment (f : Z -> Z) (n : Z) : bytes := map f (seqZ 0 n).
Definition after (n : Z) (f : Z -> Z) : Z -> Z := fun k => f (n + k).
(** The bytes of [l], and [f] behind them. *)
Definition queued (l : bytes) (f : Z -> Z) : Z -> Z := fun k =>
  if k <? lenZ l then default 0 (bget l k) else f (k - lenZ l).

Lemma lenZ_segment f n : 0 <= n -> lenZ (segment f n) = n.
Proof. intros Hn. unfold segment, lenZ. rewrite length_map, length_seqZ. lia. Qed.
Lemma segment_lookup f n k : 0 <= k < n -> segment f n !! Z.to_nat k = Some (f k).
Proof.
  intros Hk. unfold segment. rewrite list_lookup_fmap, lookup_seqZ_lt by lia. cbn. do 2 f_equal. lia.
Qed.
Lemma segment_ext f g n : (forall k, 0 <= k < n -> f k = g k) -> segment f n = segment g n.
Proof.
  intros He. unfold segment. apply map_ext_in. intros k Hk. apply list_elem_of_In, elem_of_seqZ in Hk. apply He. lia.
Qed.
Lemma segment_app f n m : 0 <= n -> 0 <= m -> segment f (n + m) = segment f n ++ segment (after n f) m.
Proof.
  intros Hn Hm. unfold segment. rewrite seqZ_app, map_app by done. f_equal. rewrite Z.add_0_l.
  rewrite <- (Z.add_0_r n) at 1. rewrite <- fmap_add_seqZ, map_map. done.
Qed.
Lemma queued_start l f n : 0 <= n <= lenZ l -> segment (queued l f) n = bslice 0 n l.
Proof.
  intros Hn. apply list_eq. intros k. destruct (decide (Z.of_nat k < n)) as [Hk|Hk].
  - rewrite <- (Nat2Z.id k) at 1. rewrite segment_lookup by lia.
    unfold queued, bslice, bget. rewrite (proj2 (Z.ltb_lt _ _)), (proj2 (Z.ltb_ge _ 0)) by lia.
    rewrite Nat2Z.id, lookup_take_lt, lookup_drop by lia. cbn [Nat.add Z.to_nat].
    destruct (l !! k) eqn:E; [done|]. apply lookup_ge_None_1 in E. unfold lenZ in *. lia.
  - rewrite !lookup_ge_None_2; [done|..].
    + unfold bslice. rewrite length_take. lia.
    + pose proof (lenZ_segment (queued l f) n). unfold lenZ in *. lia.
Qed.
Lemma queued_after l f n : 0 <= n <= lenZ l -> forall k, 0 <= k -> after n (queued l f) k = queued (drop (Z.to_nat n) l) f k.
Proof.
  intros Hn k Hk. unfold after, queued, bget. assert (lenZ (drop (Z.to_nat n) l) = lenZ l - n) as ->
    by (unfold lenZ in *; rewrite length_drop; lia).
  rewrite (proj2 (Z.ltb_ge (n + k) 0)), (proj2 (Z.ltb_ge k 0)) by lia.
  destruct (Z.ltb_spec (n + k) (lenZ l)).
  - rewrite (proj2 (Z.ltb_lt _ _)) by lia. rewrite lookup_drop. do 2 f_equal. lia.
  - rewrite (proj2 (Z.ltb_ge _ _)) by lia. f_equal. lia.
Qed.
Lemma queued_none f k : 0 <= k -> queued [] f k = f k.
Proof. intros Hk. unfold queued. change (lenZ []) with 0. rewrite (proj2 (Z.ltb_ge k 0)) by done. f_equal. lia. Qed.
Lemma queued_segment f n k : 0 <= k -> 0 <= n -> queued (segment f n) (after n f) k = f k.
Proof.
  intros Hk Hn. unfold queued, bget, after. rewrite lenZ_segment by done. destruct (Z.ltb_spec k n).
  - rewrite (proj2 (Z.ltb_ge k 0)), segment_lookup by lia. done.
  - f_equal. lia.
Qed.

(** ** The stream *)

(** A card whose stream [p] never fails: a read gives the bytes that come next. *)
Class CardStream (W : Type) `{HalLibs W} (p : Z) := {
  captured : W -> Z -> Z;
  card_reads : forall b w, exists w', ta_read p b w = (0, segment (captured w) (lenZ b), w') /\
    forall k, 0 <= k -> captured w' k = captured w (lenZ b + k);
}.
Arguments captured {W _} p {_}.

(** A stream out of standby. *)
Record ready (c : pcm_config) (p : Z) (i : sunxi_stream_in) : Prop := {
  rd_config : si_config i = c;
  rd_pcm : si_pcm i = p;
  rd_open : p <> 0;
  rd_plain : si_resampler i = 0;
  rd_status : si_read_status i = 0;
  rd_channels : channels c = 1 \/ channels c = 2;
  rd_period : 1 <= period_size c < 4294967296;
  rd_frames : 0 <= si_frames_in i <= period_size c;
  rd_mem : period_size c * in_frame_size c <= lenZ (si_buffer_mem i);
}.
(** The frames of the last period that nobody has read yet. *)
Definition leftover (i : sunxi_stream_in) : bytes :=
  let c := si_config i in
  bslice ((period_size c - si_frames_in i) * in_frame_size c) (si_frames_in i * in_frame_size c) (si_buffer_mem i).

Section Capture.
Context {W : Type} `{OsOps W, MixOps W, PropOps W, FileOps W, SystemOps W, PropSetOps W, HalLibs W}.
Context `{HalConsts} (p : Z) `{!CardStream W p} (inn : Z) (c : pcm_config).
Abbreviation S := (mach W hal_g).
Local Abbreviation fs := (in_frame_size c).

(** What the framework is going to read is [f]; nothing else than the stream has
    changed since [s0]. *)
Definition capturing (f : Z -> Z) (s0 s : S) : Prop :=
  exists i w, s = Mach w (heap_live s0) (fds_live s0) (put_ins inn i (glob s0)) /\ ready c p i /\
    forall k, 0 <= k -> f k = queued (leftover i) (captured p w) k.

Lemma frame_size : channels c = 1 \/ channels c = 2 -> fs = channels c * 2 /\ 0 < fs.
Proof. unfold in_frame_size. intros [-> | ->]; cbn; lia. Qed.

Lemma bind_the_in {B} i (k : sunxi_stream_in -> M S B) w h f g :
  bind (the_in inn) k (Mach w h f (put_ins inn i g)) = k i (Mach w h f (put_ins inn i g)).
Proof. unfold the_in. rewrite bind_assoc, bind_get_glob. cbn [glob]. by rewrite put_ins_lookup. Qed.
Lemma bind_put_in {B} i u (k : unit -> M S B) w h f g :
  bind (put_in inn u) k (Mach w h f (put_ins inn i g)) = k tt (Mach w h f (put_ins inn (u i) g)).
Proof.
  unfold put_in. rewrite bind_assoc, bind_the_in, bind_set_glob. cbn [glob world heap_live fds_live].
  change (set_h_ins _ _) with (put_ins inn (u i) (put_ins inn i g)). by rewrite put_ins_twice.
Qed.

(** What the queue holds once there is a frame in the stream's buffer. *)
Lemma leftover_lenZ i : ready c p i -> lenZ (leftover i) = si_frames_in i * fs.
Proof.
  intros [Ec _ _ _ _ Hch Hp Hf Hm]. destruct (frame_size Hch) as [_ Hfs]. unfold leftover. rewrite Ec.
  apply lenZ_bslice; nia.
Qed.

(** A period is read when the buffer is empty. *)
Definition refill (i : sunxi_stream_in) : M S Z :=
  let period := period_size (si_config i) in
  if si_frames_in i =? 0 then
    let* '(r, mem) := read_pcm (si_pcm i) (si_buffer_mem i) (period * in_frame_size (si_config i)) in
    put_in inn (fun i => set_si_read_status r (set_si_buffer_mem mem i)) ;;;
    (if r =? 0 then put_in inn (set_si_frames_in period) else ret tt) ;;; ret r
  else ret 0.
Lemma refill_run i w h fd g f :
  ready c p i -> (forall k, 0 <= k -> f k = queued (leftover i) (captured p w) k) ->
  exists i' w', refill i (Mach w h fd (put_ins inn i g)) = Done 0 (Mach w' h fd (put_ins inn i' g)) /\
    ready c p i' /\ 1 <= si_frames_in i' /\ (forall k, 0 <= k -> f k = queued (leftover i') (captured p w') k).
Proof.
  intros Hr Hf. destruct Hr as [Ec Ep Ho Hrs Hst Hch Hp Hfr Hm]. unfold refill.
  destruct (Z.eqb_spec (si_frames_in i) 0) as [E|E].
  - destruct (frame_size Hch) as [_ Hfs]. unfold read_pcm, ta_handle. rewrite Ec, Ep, (proj2 (Z.eqb_neq p 0)) by done.
    rewrite bind_assoc, bind_ret_l. unfold in_bounds.
    rewrite (proj2 (Z.leb_le 0 0)), (proj2 (Z.leb_le 0 (_ * _))), (proj2 (Z.leb_le (0 + _) _)) by nia. cbn [andb].
    set (n := period_size c * fs). assert (Hn : 0 <= n) by nia.
    destruct (card_reads (p := p) (bslice 0 n (si_buffer_mem i)) w) as (w' & Eq & Hw).
    rewrite lenZ_bslice in Eq, Hw by lia.
    rewrite bind_assoc, (bind_on_world _ _ _ (0, segment (captured p w) n) w') by (cbn [world]; by rewrite Eq).
    rewrite bind_ret_l. cbn [world heap_live fds_live glob]. rewrite bind_put_in, Z.eqb_refl, bind_put_in.
    rewrite (bslice_all n) by (by apply lenZ_segment).
    eexists _, w'. split; [reflexivity|]. split; [|split].
    + split; cbn; try done; [lia|]. rewrite lenZ_bblit; rewrite ?lenZ_segment; lia.
    + cbn. lia.
    + intros k Hk. rewrite Hf by done. unfold leftover at 1. rewrite E.
      rewrite Z.mul_0_l. change (bslice _ 0 _) with (@nil Z). rewrite queued_none by done.
      unfold leftover. cbn [si_config si_frames_in si_buffer_mem set_si_frames_in set_si_read_status set_si_buffer_mem].
      rewrite Ec, Z.sub_diag, Z.mul_0_l. fold n.
      rewrite bslice_bblit_same by (rewrite ?lenZ_segment; lia).
      rewrite <- (queued_segment _ n) by done. unfold queued. rewrite lenZ_segment by done.
      destruct (Z.ltb_spec k n); [done|]. rewrite Hw by lia. done.
  - exists i, w. split; [done|]. split; [by split|]. split; [lia|done].
Qed.

(** Frames are taken from the buffer. *)
Lemma taken i w f n :
  ready c p i -> (forall k, 0 <= k -> f k = queued (leftover i) (captured p w) k) -> 0 <= n <= si_frames_in i ->
  bslice ((period_size c - si_frames_in i) * fs) (n * fs) (si_buffer_mem i) = segment f (n * fs) /\
  let i' := set_si_frames_in (u32 (si_frames_in i - n)) i in
  ready c p i' /\ (forall k, 0 <= k -> after (n * fs) f k = queued (leftover i') (captured p w) k).
Proof.
  intros Hr Hf Hn. pose proof (leftover_lenZ i Hr) as Hl. destruct Hr as [Ec Ep Ho Hrs Hst Hch Hp Hfr Hm].
  destruct (frame_size Hch) as [_ Hfs]. assert (Hnf : n * fs <= si_frames_in i * fs) by nia. split.
  - rewrite (segment_ext f (queued (leftover i) (captured p w))) by (intros k Hk; apply Hf; lia).
    rewrite queued_start by (rewrite Hl; nia). unfold leftover. rewrite Ec. rewrite bslice_bslice by nia.
    f_equal. lia.
  - cbn zeta. rewrite u32_small by lia. split; [split; cbn; done || lia|].
    intros k Hk. unfold after at 1. rewrite Hf by nia. change (queued ?l ?g (n * fs + k)) with (after (n * fs) (queued l g) k).
    rewrite queued_after by (rewrite ?Hl; nia). f_equal. unfold leftover. cbn [si_config si_frames_in si_buffer_mem set_si_frames_in].
    rewrite Ec. unfold bslice. rewrite skipn_firstn_comm, drop_drop. f_equal; [|f_equal]; nia.
Qed.

(** One turn of [read_frames]. *)
Lemma read_some_run f s0 s buffer off n :
  capturing f s0 s -> 1 <= n -> 0 <= off -> off + n * fs <= lenZ buffer ->
  exists m s', read_some inn buffer off n s = Done (m, bblit off (segment f (m * fs)) buffer) s' /\
    1 <= m <= n /\ capturing (after (m * fs) f) s0 s'.
Proof.
  intros (i & w & -> & Hr & Hf) Hn Hoff Hb. unfold read_some. rewrite bind_the_in, (rd_plain _ _ _ Hr), Z.eqb_refl.
  unfold get_next_buffer. rewrite !bind_assoc, bind_the_in, (rd_pcm _ _ _ Hr), (proj2 (Z.eqb_neq p 0)) by apply Hr.
  destruct (refill_run i w (heap_live s0) (fds_live s0) (glob s0) f Hr Hf) as (i1 & w1 & E & Hr1 & H1' & Hf1).
  unfold refill in E. rewrite (rd_pcm _ _ _ Hr) in E.
  rewrite (rd_config _ _ _ Hr) in *. rewrite !bind_assoc. mstep E. cbn [Z.eqb negb].
  rewrite !bind_assoc, bind_the_in. cbv zeta. set (m := if _ <? n then _ else n).
  assert (Hm : 1 <= m <= n /\ m <= si_frames_in i1) by (unfold m; destruct (Z.ltb_spec (si_frames_in i1) n); lia).
  pose proof (rd_config _ _ _ Hr1) as Ec. pose proof (rd_frames _ _ _ Hr1) as Hfr. pose proof (rd_mem _ _ _ Hr1) as Hmem.
  pose proof (rd_period _ _ _ Hr1) as Hper.
  destruct (frame_size (rd_channels _ _ _ Hr1)) as [Efs Hfs]. rewrite Ec.
  replace (_ * channels c * 2) with ((period_size c - si_frames_in i1) * fs) by (rewrite Efs; lia).
  destruct (taken i1 w1 f m Hr1 Hf1 ltac:(lia)) as [Ed [Hr2 Hf2]].
  unfold in_bounds at 1. rewrite !(proj2 (Z.leb_le _ _)) by nia. cbn [andb checked].
  rewrite bind_assoc, !bind_ret_l, Ed. unfold memcpy, in_bounds. rewrite lenZ_segment by nia.
  rewrite !(proj2 (Z.leb_le _ _)) by nia. cbn [andb checked]. rewrite bind_ret_l.
  rewrite (bslice_all (m * fs)) by (apply lenZ_segment; nia).
  unfold release_buffer. rewrite bind_put_in. eexists m, _. split; [reflexivity|]. split; [lia|].
  exists (set_si_frames_in (u32 (si_frames_in i1 - m)) i1), w1. by split_and!.
Qed.

Lemma bblit_next off a b dst : 0 <= off -> off + lenZ a + lenZ b <= lenZ dst ->
  bblit (off + lenZ a) b (bblit off a dst) = bblit off (a ++ b) dst.
Proof.
  intros Ho Hb. unfold bblit, lenZ in *.
  assert (E : Z.to_nat (off + Z.of_nat (length a)) = length (take (Z.to_nat off) dst ++ a))
    by (rewrite length_app, length_take; lia).
  rewrite E, (app_assoc (take (Z.to_nat off) dst) a), take_app_length, <- !app_assoc. do 3 f_equal.
  rewrite (app_assoc (take (Z.to_nat off) dst) a), drop_app_ge by lia. rewrite drop_drop, length_app. f_equal.
  rewrite length_app, length_take. lia.
Qed.
Lemma bblit_nothing off f dst : bblit off (segment f 0) dst = dst.
Proof. unfold bblit. change (segment f 0) with (@nil Z). cbn [app length]. by rewrite Nat.add_0_r, take_drop. Qed.
Lemma after_after n m f k : after m (after n f) k = after (n + m) f k.
Proof. unfold after. f_equal. lia. Qed.
Lemma capturing_ext f f' s0 s : (forall k, 0 <= k -> f' k = f k) -> capturing f s0 s -> capturing f' s0 s.
Proof. intros He (i & w & Es & Hr & Hf). exists i, w. split_and!; [done..|]. intros k Hk. by rewrite He, Hf. Qed.
Lemma capturing_status f s0 s : capturing f s0 s -> exists i,
  (forall B (k : sunxi_stream_in -> M S B), bind (the_in inn) k s = k i s) /\ ready c p i.
Proof. intros (i & w & -> & Hr & Hf). exists i. split; [|done]. intros B k. apply bind_the_in. Qed.

Lemma read_loop_run fuel : forall f s0 s buffer wr frames,
  capturing f s0 s -> 0 <= wr <= frames -> frames * fs <= lenZ buffer -> frames - wr <= Z.of_nat fuel ->
  exists s', read_loop fuel inn buffer wr frames s =
      Done (frames, bblit (wr * fs) (segment f ((frames - wr) * fs)) buffer) s' /\
    capturing (after ((frames - wr) * fs) f) s0 s'.
Proof.
  induction fuel as [|fuel IH]; intros f s0 s buffer wr frames Hs Hwr Hb Hfuel.
  - assert (wr = frames) as -> by lia. cbn [read_loop]. rewrite Z.ltb_irrefl, Z.sub_diag, Z.mul_0_l.
    exists s. split; [|eapply capturing_ext; [|exact Hs]; done]. by rewrite bblit_nothing.
  - cbn [read_loop]. destruct (Z.ltb_spec wr frames) as [Hlt|Hge].
    + destruct (capturing_status _ _ _ Hs) as (i & Hi & Hri). rewrite Hi, (rd_config _ _ _ Hri).
      destruct (frame_size (rd_channels _ _ _ Hri)) as [_ Hfs].
      destruct (read_some_run f s0 s buffer (wr * fs) (frames - wr) Hs) as (m & s1 & E & Hm & Hs1); [lia|nia|nia|].
      mstep E. destruct (capturing_status _ _ _ Hs1) as (i1 & Hi1 & Hri1).
      rewrite Hi1, (rd_status _ _ _ Hri1). cbn [Z.eqb negb].
      assert (Hseg : lenZ (segment f (m * fs)) = m * fs) by (apply lenZ_segment; nia).
      destruct (IH _ _ _ (bblit (wr * fs) (segment f (m * fs)) buffer) (wr + m) frames Hs1) as (s2 & E2 & Hs2);
        [lia|rewrite lenZ_bblit by (rewrite ?Hseg; nia); lia|lia|].
      exists s2. rewrite E2. split.
      * do 2 f_equal. replace ((wr + m) * fs) with (wr * fs + lenZ (segment f (m * fs))) by (rewrite Hseg; lia).
        rewrite bblit_next by (rewrite ?Hseg, ?lenZ_segment by nia; nia). f_equal.
        rewrite <- segment_app by nia. f_equal. lia.
      * eapply capturing_ext; [|exact Hs2]. intros k Hk. rewrite after_after. unfold after. f_equal. lia.
    + assert (wr = frames) as -> by lia. rewrite Z.sub_diag, Z.mul_0_l.
      exists s. split; [|eapply capturing_ext; [|exact Hs]; done]. by rewrite bblit_nothing.
Qed.

End Capture.

(** A stream of the board with a period of four frames, one of them unread. *)
#[export] Program Instance board_card : CardStream hal_world 1 := {
  captured := fun w k => (hw_captured w + k) mod 256;
}.
Next Obligation.
  intros b w. eexists. split; [reflexivity|]. intros k Hk. cbn. f_equal. lia.
Qed.
Definition small_config : pcm_config :=
  PcmConfig 2 44100 4 2 PCM_FORMAT_S16_LE 0 0 0 0 0 0.
Definition small_stream : sunxi_stream_in :=
  set_si_frames_in 1 (set_si_buffer_mem (map (fun k => 240 + k) (seqZ 0 16))
    (set_si_pcm 1 (set_si_config small_config in_zero))).
Definition small_state : mach hal_world hal_g := board_boot (put_ins 7 small_stream hal_initial).
