(* ===== verification/AudCall.v ===== *)
(** * audio HAL: phone calls

    What the modem is told, and what the start of a call does to the streams. *)

From stdpp Require Import strings pretty.
From S2P Require Import Prelude CLib Os Live Snd Mixer Pcm Codec VolumeConf CodecClient AudBp AudIface.
From S2P Require Import AudRing AudDevices AudDevTheorems AudEnv AudHw AudOut AudIn AudAdev AudCore.
From S2P Require Import AudSafe AudSafeOut AudSafeIn AudSafeHal AudHal AudSim.

(** ** The modem's commands *)

Section Modem.
Context {W : Type} `{OsOps W, PropOps W, SystemOps W}.
Abbreviation S := (mach W bp_g).

(** Terminal [k] is there, and none of a higher number is. *)
Definition highest_usb (k : Z) (w : W) : Prop :=
  0 <= k < 20 /\ os_access (usb_tty k) w = 0 /\ forall j, k < j < 20 -> os_access (usb_tty j) w <> 0.

Lemma last_usb_run l : forall no (s : S), exists r, last_usb l no s = Done r s /\ (r = no \/ r ∈ l).
Proof.
  induction l as [|i l IH]; intros no s; cbn [last_usb]; [exists no; auto|].
  destruct (IH (if os_access (usb_tty i) (world s) =? 0 then i else no) s) as (r & E & Hr).
  exists r. split; [exact E|]. destruct Hr as [-> | Hr]; [|right; by constructor].
  case_match; [right; constructor|by left].
Qed.
Lemma last_usb_none l : forall no (s : S), (forall j, j ∈ l -> os_access (usb_tty j) (world s) <> 0) ->
  last_usb l no s = Done no s.
Proof.
  induction l as [|i l IH]; intros no s Hn; cbn [last_usb]; [done|]. unfold bind at 1, c_access. cbn.
  rewrite (proj2 (Z.eqb_neq _ _)) by (apply Hn; constructor). apply IH. intros j Hj. apply Hn. by constructor.
Qed.
Lemma last_usb_app l l' no (s : S) r : last_usb l no s = Done r s -> last_usb (l ++ l') no s = last_usb l' r s.
Proof.
  revert no. induction l as [|i l IH]; intros no E; cbn [last_usb app] in *; [by injection E as ->|]. by apply IH.
Qed.
Lemma mu509_terminal k (s : S) : highest_usb k (world s) -> mu509_get_tty_dev s = Done (str (usb_tty k)) s.
Proof.
  intros (Hk & Ha & Hn). unfold mu509_get_tty_dev.
  assert (E : last_usb (seqZ 0 20) (-1) s = Done k s).
  { replace (seqZ 0 20) with (seqZ 0 k ++ k :: seqZ (k + 1) (19 - k)).
    2:{ replace (k :: seqZ (k + 1) (19 - k)) with (seqZ (0 + k) (20 - k)).
        - rewrite <- seqZ_app by lia. f_equal. lia.
        - rewrite seqZ_cons by lia. f_equal; f_equal; lia. }
    destruct (last_usb_run (seqZ 0 k) (-1) s) as (r & Er & _). rewrite (last_usb_app _ _ _ _ _ Er).
    cbn [last_usb]. unfold bind at 1, c_access. cbn. rewrite Ha. apply last_usb_none.
    intros j Hj. apply elem_of_seqZ in Hj. apply Hn. lia. }
  mstep E. by rewrite (proj2 (Z.leb_le 0 k)) by lia.
Qed.

Lemma terminal_short k : -1 <= k < 20 -> lenZ (if 0 <=? k then str (usb_tty k) else []) <= 13.
Proof.
  intros Hk. assert (Hall : forallb (fun k => lenZ (if 0 <=? k then str (usb_tty k) else []) <=? 13) (seqZ (-1) 21) = true)
    by (vm_compute; reflexivity).
  rewrite forallb_forall in Hall. apply Z.leb_le, Hall, list_elem_of_In, elem_of_seqZ. lia.
Qed.
Lemma command_lenZ t cmd : lenZ (at_command t cmd) = lenZ cmd + lenZ t + 35.
Proof.
  unfold at_command. rewrite !lenZ_app.
  change (lenZ (str "/system/bin/busybox echo -e ")) with 28. change (lenZ (str " > ")) with 3.
  change (lenZ [34]) with 1. change (lenZ [13; 10]) with 2. lia.
Qed.
Lemma exec_at_run t cmd (s : S) :
  lenZ cmd + lenZ t < 65 ->
  exec_at t cmd s = Done (fst (sys_system (at_command t cmd) (world s)))
    (Mach (snd (sys_system (at_command t cmd) (world s))) (heap_live s) (fds_live s) (glob s)).
Proof.
  intros Hl. unfold exec_at. rewrite command_lenZ, (proj2 (Z.ltb_lt _ _)) by lia.
  unfold on_world. by destruct (sys_system _ _).
Qed.
Lemma mu509_level_digit v : sprintf_d (mu509_level v) = [48 + mu509_level v] /\ 1 <= mu509_level v <= 5.
Proof. unfold mu509_level. repeat case_match; split; (reflexivity || lia). Qed.

(** A call's volume reaches the mu509: on a board whose highest terminal is
    /dev/ttyUSB[k] the call runs one command, busybox's echo of AT+CLVL=, the
    level as one digit from 1 to 5, and a carriage return and line feed into that
    terminal, and nothing else; the command line fits its array of 100. *)
Theorem mu509_volume_command k path volume (s : S) :
  highest_usb k (world s) ->
  let cmd := at_command (str (usb_tty k)) (str "AT+CLVL=" ++ [48 + mu509_level volume]) in
  set_call_volume MU509 path volume s =
    Done 0 (Mach (snd (sys_system cmd (world s))) (heap_live s) (fds_live s) (glob s)) /\
  1 <= mu509_level volume <= 5 /\ lenZ cmd < 100.
Proof.
  intros Hk cmd. destruct (mu509_level_digit volume) as [Ed Hlv].
  pose proof (terminal_short k ltac:(destruct Hk; lia)) as Ht. rewrite (proj2 (Z.leb_le 0 k)) in Ht by (destruct Hk; lia).
  split_and!; [|lia|lia|].
  - cbn [set_call_volume]. unfold mu509_set_call_volume. mstep (mu509_terminal k s Hk). rewrite Ed.
    mcall (apply exec_at_run; rewrite lenZ_app; change (lenZ (str "AT+CLVL=")) with 8; change (lenZ [_]) with 1; lia).
    reflexivity.
  - unfold cmd. rewrite command_lenZ, lenZ_app. change (lenZ (str "AT+CLVL=")) with 8. change (lenZ [_]) with 1. lia.
Qed.

(** No command the HAL gives a modem overflows: whatever terminals are there,
    the volume and the path of a call and the factory test's echo return 0 on
    every device. *)
Theorem modem_commands_fit d path volume (s : S) :
  yields (set_call_volume d path volume) s (fun r _ => r = 0) /\
  yields (set_call_path d path) s (fun r _ => r = 0) /\
  yields (set_call_at d (str "AT^ECHO1ON")) s (fun r _ => r = 0).
Proof.
  assert (Hex : forall t cmd (s : S), lenZ cmd + lenZ t < 65 -> yields (exec_at t cmd ;;; ret 0) s (fun r _ => r = 0)).
  { intros t cmd s' Hl. unfold yields. by mstep (exec_at_run t cmd s' Hl). }
  assert (Hmu : forall cmd (s : S), lenZ cmd < 50 ->
    yields (let* t := mu509_get_tty_dev in exec_at t cmd ;;; ret 0) s (fun r _ => r = 0)).
  { intros cmd s' Hl. unfold mu509_get_tty_dev. destruct (last_usb_run (seqZ 0 20) (-1) s') as (k & E & Hk).
    unfold yields. rewrite bind_assoc. mstep E. rewrite bind_ret_l. apply Hex.
    assert (-1 <= k < 20) as Hk' by (destruct Hk as [-> | Hk]; [lia|apply elem_of_seqZ in Hk; lia]).
    pose proof (terminal_short k Hk'). lia. }
  assert (Hret : forall s : S, yields (ret 0) s (fun r _ => r = 0)) by (intros s'; reflexivity).
  destruct d.
  - split_and!; apply Hret.
  - split_and!; apply Hmu; [|reflexivity..].
    rewrite lenZ_app. destruct (mu509_level_digit volume) as [-> _]. reflexivity.
  - split_and!; [apply Hret..|]. apply Hex. reflexivity.
  - split_and!; [apply Hret..|]. apply Hex. reflexivity.
Qed.
End Modem.

(** ** The start of a call *)

Section CallMode.
Context {W : Type} `{OsOps W, MixOps W, PropOps W, FileOps W, SystemOps W, PropSetOps W, HalLibs W}.
Context `{HalConsts}.
Abbreviation S := (mach W hal_g).

(** [c'] is [c] with both active streams in standby. *)
Record silenced (c c' : core) : Prop := {
  sl_out : co_out c' = 0;
  sl_in : co_in c' = 0;
  sl_mode : co_mode c' = co_mode c;
  sl_outs : co_out c <> 0 -> co_outs c' !! co_out c = Some (false, true);
  sl_ins : co_in c <> 0 -> co_ins c' !! co_in c = Some (false, true);
}.
Definition off_out (c : core) : core := if co_out c =? 0 then c else co_standby_out (co_out c) c.
Definition off_in (c : core) : core := if co_in c =? 0 then c else co_standby_in (co_in c) c.
Lemma silenced_off c :
  co_out c = 0 \/ co_outs c !! co_out c = Some (false, false) ->
  co_in c = 0 \/ co_ins c !! co_in c = Some (false, false) -> silenced c (off_in (off_out c)).
Proof.
  intros Ho Hi. unfold off_out, off_in.
  destruct (Z.eqb_spec (co_out c) 0) as [Eo|Eo].
  - destruct (Z.eqb_spec (co_in c) 0) as [Ei|Ei]; [by split|].
    destruct Hi as [|Hi]; [done|]. unfold co_standby_in. rewrite Hi. split; cbn; try done.
    intros _. by rewrite lookup_insert_eq.
  - destruct Ho as [|Ho]; [done|]. unfold co_standby_out. rewrite Ho. cbn [co_in co_put_out co_set_outs co_set_out].
    destruct (Z.eqb_spec (co_in c) 0) as [Ei|Ei].
    + split; cbn; try done. intros _. by rewrite lookup_insert_eq.
    + destruct Hi as [|Hi]; [done|]. unfold co_standby_in. cbn. rewrite Hi.
      split; cbn; try done; intros _; by rewrite lookup_insert_eq.
Qed.

Lemma free_open m p sb : free_locks m -> m !! p <> Some (true, sb).
Proof. intros Hm E. by apply Hm in E. Qed.
Lemma off_out_free c : free_locks (co_outs c) -> free_locks (co_outs (off_out c)).
Proof.
  intros Hf. unfold off_out, co_standby_out. case_match; [done|].
  destruct (co_outs c !! co_out c) as [[l []]|] eqn:E; [done| |done]. cbn.
  rewrite (free_lock _ _ _ _ Hf E). by apply free_insert.
Qed.
Lemma force_all_standby_exact c :
  free_locks (co_outs c) -> free_locks (co_ins c) ->
  triple (at_core (co_set_lock true c)) (force_all_standby (W := W)) (fun _ => at_core (co_set_lock true (off_in (off_out c)))).
Proof.
  intros Ho Hi. unfold force_all_standby. hstep. cbn [co_out co_set_lock].
  eapply t_bind with (R := fun _ => at_core (co_set_lock true (off_out c))).
  { unfold off_out. hstep; [hdone|]. apply t_lock_out; [intros sb E|intros sb; by apply free_open].
    hmove do_output_standby_t. apply t_end, t_release_standby_out; [done|]. apply t_ret. intros g Hg.
    by rewrite co_standby_out_lock in Hg. }
  intros []. hstep. cbn [co_in co_set_lock].
  assert (Ens : co_ins (off_out c) = co_ins c) by (unfold off_out, co_standby_out; repeat case_match; done).
  unfold off_in. hstep; [hdone|].
  apply force_in_standby_t; intros sb; apply free_open; [by rewrite Ens|by apply off_out_free].
Qed.

Lemma off_in_free c : free_locks (co_ins c) -> free_locks (co_ins (off_in c)).
Proof.
  intros Hf. unfold off_in, co_standby_in. case_match; [done|].
  destruct (co_ins c !! co_in c) as [[l []]|] eqn:E; [done| |done]. cbn.
  rewrite (free_lock _ _ _ _ Hf E). by apply free_insert.
Qed.
Lemma off_in_outs c : co_outs (off_in c) = co_outs c.
Proof. unfold off_in, co_standby_in. by repeat case_match. Qed.
Lemma off_out_ins c : co_ins (off_out c) = co_ins c.
Proof. unfold off_out, co_standby_out. by repeat case_match. Qed.
Lemma silence_idle c : co_out c = 0 -> co_in c = 0 -> off_in (off_out c) = c.
Proof. intros Ho Hi. unfold off_in, off_out. by rewrite Ho, Z.eqb_refl, Hi, Z.eqb_refl. Qed.

(** Inside the call of [select_mode] for a mode that is a call. *)
Lemma select_mode_call c1 m :
  co_mode c1 = m -> co_in_call c1 = 0 -> calling m = true -> silenced c1 (off_in (off_out c1)) ->
  free_locks (co_outs c1) -> free_locks (co_ins c1) ->
  triple (at_core (co_set_lock true c1)) (select_mode (W := W))
    (fun _ => at_core (co_set_lock true (co_set_in_call 1 (off_in (off_out c1))))).
Proof.
  intros Hmode Hcall Hm Hs Ho Hi. unfold select_mode. set (c2 := off_in (off_out c1)) in *.
  assert (Ho2 : free_locks (co_outs c2)) by (unfold c2; rewrite off_in_outs; by apply off_out_free).
  assert (Hi2 : free_locks (co_ins c2)) by (unfold c2; apply off_in_free; by rewrite off_out_ins).
  apply t_dev. intros d _ Ed Ec _ _. cbn in Ed, Ec. cbv zeta. rewrite Ed, Ec, Hmode, Hcall, Hm, Z.eqb_refl.
  eapply t_bind with (R := fun _ => at_core (co_set_lock true (co_set_in_call 1 c2))).
  { eapply t_bind; [by apply force_all_standby_exact|]. intros []. fold c2.
    apply (t_put_dev _ _ id); [apply call_devices_core|apply call_devices_ok|]. unfold id. apply t_ret_bind.
    hcall select_output_device_t. hcall adev_set_voice_volume_t.
    apply t_end, (t_put_dev _ _ (co_set_in_call 1)); [done|intros ? []; by constructor|]. hdone. }
  intros []. eapply t_bind with (R := fun _ => at_core (co_set_lock true (co_set_in_call 1 c2))).
  { hstep; [apply select_output_device_t|hdone]. }
  intros []. hstep; [|hdone]. eapply t_bind; [by apply force_all_standby_exact|]. intros [].
  rewrite silence_idle by apply Hs. hcall select_output_device_t. hcall adev_set_voice_volume_t. hdone.
Qed.

(** C14: A call takes the codec from the streams.  From any state between two calls of
    the HAL, not in a phone call, a mode that is one (a call, or the factory's
    test) is set without blocking: the result is 0, the flag of the call is set,
    no stream is active any more, and those that were have been put into standby,
    so that their next write or read starts them again. *)
Theorem call_silences_streams m (s : S) :
  let g := glob s in
  at_ok g -> calling (ad_mode (h_dev g)) = false -> calling m = true ->
  match adev_set_mode m s with
  | Done r s' =>
      let g' := glob s' in
      r = 0 /\ ad_mode (h_dev g') = m /\ ad_in_call (h_dev g') = 1 /\ ad_lock (h_dev g') = false /\
      ad_active_output (h_dev g') = 0 /\ ad_active_input (h_dev g') = 0 /\
      (ad_active_output (h_dev g) <> 0 ->
         exists o, h_outs g' !! ad_active_output (h_dev g) = Some o /\ so_lock o = false /\ so_standby o = true) /\
      (ad_active_input (h_dev g) <> 0 ->
         exists i, h_ins g' !! ad_active_input (h_dev g) = Some i /\ si_lock i = false /\ si_standby i = true)
  | Blocked => False
  | Undef => True
  end.
Proof.
  intros g (c & Hg & Hc) Hold Hm. set (c1 := co_set_mode m c).
  assert (Hm0 : co_mode c = ad_mode (h_dev g)) by (destruct Hg as [<- _]; done).
  assert (Hs : silenced c1 (off_in (off_out c1))) by (apply silenced_off; apply Hc).
  assert (Ht : triple (at_core c) (adev_set_mode (W := W) m)
    (fun r g' => r = 0 /\ at_core (co_set_lock false (co_set_in_call 1 (off_in (off_out c1)))) g')).
  { unfold adev_set_mode. apply t_lock_dev; [apply Hc|]. hstep. cbn [co_mode co_set_lock]. rewrite Hm0.
    rewrite (proj2 (Z.eqb_neq _ m)) by (intros E; congruence). hassoc.
    apply (t_put_dev _ _ (co_set_mode m)); [done|intros ? []; by constructor|].
    eapply t_bind; [apply (select_mode_call c1 m); try done; try apply Hc|].
    - cbn. by rewrite (ck_call _ Hc), Hm0, Hold.
    - intros []. apply t_unlock_dev. apply t_ret. intros g' Hg'. split; [done|]. by destruct (off_in (off_out c1)). }
  specialize (Ht g Hg s eq_refl). destruct (adev_set_mode m s) as [r s'| |]; [|done..].
  destruct Ht as [-> [Ec _]]. destruct Hg as [Eg _]. cbn zeta.
  assert (Ef : forall A (f : core -> A), f (core_of (glob s')) = f (co_set_lock false (co_set_in_call 1 (off_in (off_out c1)))))
    by (intros; by rewrite Ec).
  assert (Eo : co_out c = ad_active_output (h_dev g)) by (by rewrite <- Eg).
  assert (Ei : co_in c = ad_active_input (h_dev g)) by (by rewrite <- Eg).
  split_and!; [done|..].
  - etransitivity; [apply (Ef _ co_mode)|apply Hs].
  - apply (Ef _ co_in_call).
  - apply (Ef _ co_lock).
  - etransitivity; [apply (Ef _ co_out)|apply Hs].
  - etransitivity; [apply (Ef _ co_in)|apply Hs].
  - intros Hn. pose proof (sl_outs _ _ Hs) as Hl. change (co_out c1) with (co_out c) in Hl. rewrite Eo in Hl.
    specialize (Hl Hn). change (co_outs (co_set_lock false (co_set_in_call 1 (off_in (off_out c1)))) !! ad_active_output (h_dev g) = Some (false, true)) in Hl.
    rewrite <- (Ef _ co_outs) in Hl. cbn in Hl. rewrite lookup_fmap in Hl.
    destruct (h_outs (glob s') !! _) as [o|]; [|done]. exists o. by injection Hl.
  - intros Hn. pose proof (sl_ins _ _ Hs) as Hl. change (co_in c1) with (co_in c) in Hl. rewrite Ei in Hl.
    specialize (Hl Hn). change (co_ins (co_set_lock false (co_set_in_call 1 (off_in (off_out c1)))) !! ad_active_input (h_dev g) = Some (false, true)) in Hl.
    rewrite <- (Ef _ co_ins) in Hl. cbn in Hl. rewrite lookup_fmap in Hl.
    destruct (h_ins (glob s') !! _) as [i|]; [|done]. exists i. by injection Hl.
Qed.

(** The device never keeps a volume it is given: the one it applies again when a
    call changes its route is the one it was opened with. *)
Lemma iface_keeps_dev {A} (P : sunxi_audio_device -> Prop) (m : M (mach W iface_g) A) :
  pc (fun g => P (h_dev g)) (in_iface m) (fun _ g => P (h_dev g)).
Proof. intros s a s' HP. unfold in_iface, zoom. destruct (m _); [|done..]. by intros [= <- <-]. Qed.
Theorem voice_volume_forgotten volume (s s' : S) r :
  adev_set_voice_volume volume s = Done r s' -> h_dev (glob s') = h_dev (glob s).
Proof.
  set (d := h_dev (glob s)).
  assert (Hk : pc (fun g => h_dev g = d) (adev_set_voice_volume (W := W) volume) (fun _ g => h_dev g = d)).
  { unfold adev_set_voice_volume, set_bp_volume, get_dev.
    apply pc_quiet_bind; [auto with quiet|intros mode]. apply pc_quiet_bind; [auto with quiet|intros out].
    apply pc_bind with (Q := fun _ g => h_dev g = d); [|intros []; by apply pc_ret].
    case_match; [apply (iface_keeps_dev (fun v => v = d))|]. case_match; [|by apply pc_ret].
    eapply pc_bind; [apply (iface_keeps_dev (fun v => v = d))|intros ?].
    apply pc_quiet_bind; [auto with quiet|intros ?]. apply (iface_keeps_dev (fun v => v = d)). }
  by apply Hk.
Qed.
End CallMode.

Lemma mu509_volume_command_witness :
  let w := board_world in
  exists s' : mach hal_world bp_g,
  @set_call_volume _ (Build_OsOps _ (fun _ w => (0, w)) (fun _ w => (-1, w)) (fun _ w => w) (fun _ _ w => (0, w))
    (fun _ _ w => (0, [], w)) (fun _ _ w => (0, w)) (fun _ w => w) (fun _ _ _ b w => (0, b, w))
    (fun path _ => if String.eqb path "/dev/ttyUSB3" then 0 else -1)) hal_sys MU509 0 7 (board_boot ∅) = Done 0 s'.
Proof.
  intros w.
  set (os := Build_OsOps _ _ _ _ _ _ _ _ _ _).
  destruct (@mu509_volume_command hal_world os hal_sys 3 0 7 (board_boot ∅)) as [E _].
  - split; [lia|]. split; [reflexivity|]. intros j Hj.
    assert (Hall : forallb (fun j => negb (@os_access _ os (usb_tty j) board_world =? 0)) (seqZ 4 16) = true)
      by (vm_compute; reflexivity).
    rewrite forallb_forall in Hall. apply Z.eqb_neq, negb_true_iff, Hall, list_elem_of_In, elem_of_seqZ. lia.
  - by eexists.
Defined.

(** The board plays and captures when the call comes. *)
Definition board_busy : mach hal_world hal_g := end_of (hal_run (take 4 board_calls) board_opened) board_opened.
Lemma board_open_ok : at_ok (glob board_opened).
Proof.
  apply (opened_ok AUDIO_HARDWARE_INTERFACE (board_boot hal_initial) board_opened); [done|done|].
  vm_compute. reflexivity.
Qed.
Lemma board_busy_ok : at_ok (glob board_busy).
Proof.
  unfold board_busy. destruct (hal_run (take 4 board_calls) board_opened) as [u s'| |] eqn:E.
  - exact (run_ok (CaptureWorks0 := board_captures) _ _ _ _ board_open_ok E).
  - exact board_open_ok.
  - exact board_open_ok.
Qed.
Definition active (s : mach hal_world hal_g) : Z * Z := (ad_active_output (h_dev (glob s)), ad_active_input (h_dev (glob s))).
Definition is_done {S A} (r : outcome S A) : bool := match r with Done _ _ => true | _ => false end.
Lemma call_silences_streams_witness :
  active board_busy = (120, 122) /\
  exists s', adev_set_mode AUDIO_MODE_IN_CALL board_busy = Done 0 s' /\ active s' = (0, 0).
Proof.
  split; [vm_compute; reflexivity|].
  assert (Hd : is_done (adev_set_mode AUDIO_MODE_IN_CALL board_busy) = true) by (vm_compute; reflexivity).
  pose proof (call_silences_streams AUDIO_MODE_IN_CALL board_busy board_busy_ok ltac:(vm_compute; reflexivity) eq_refl) as Hc.
  destruct (adev_set_mode AUDIO_MODE_IN_CALL board_busy) as [r s'| |]; [|discriminate..].
  destruct Hc as (-> & _ & _ & _ & Ho & Hi & _). exists s'. split; [reflexivity|]. unfold active. by rewrite Ho, Hi.
Defined.

(** On a board whose only card is a headset of 48 kHz, and where no resampler can be
    made, the first write fails but leaves its stream active: when the stream is
    closed, the device still takes it for active, and the start of a call follows
    the address of a stream that is not there. *)
Definition usb_os : OsOps hal_world := os_with (str "Headset").
Definition usb_libs : HalLibs hal_world := libs_with 48000 (-1).
Definition usb_opened : mach hal_world hal_g :=
  end_of (adev_open (H := usb_os) (H5 := usb_libs) AUDIO_HARDWARE_INTERFACE (board_boot hal_initial)) (board_boot hal_initial).
Definition usb_run (l : list hal_call) : outcome (mach hal_world hal_g) unit :=
  hal_run (H := usb_os) (H5 := usb_libs) l usb_opened.
Theorem failed_start_dangles :
  let calls := [OpenOutput; OutWrite 120 (replicate 16 7); CloseOutput 120] in
  is_done (usb_run calls) = true /\
  ad_active_output (h_dev (glob (end_of (usb_run calls) usb_opened))) = 120 /\
  h_outs (glob (end_of (usb_run calls) usb_opened)) !! 120 = None /\
  usb_run (calls ++ [SetMode AUDIO_MODE_IN_CALL]) = Undef.
Proof. vm_compute. auto. Qed.
