(* ===== verification/CamPixel.v ===== *)
(** * camera: frames

    The routines that rearrange a frame: the crop of a zoom and the conversions of
    [V4L2CameraDevice2.cpp], the conversions and the down-scaling of
    [CallbackNotifier.cpp].  A frame is a list of bytes; reading or writing outside
    it is [None].  The offsets of a frame that is in memory do not wrap, so they
    are integers. *)

From S2P Require Import Prelude CLib.

(** ** The crop of a zoom *)

Record Rect := MkRect { left : Z; top : Z; right : Z; bottom : Z }.

(** C's division: [None] by zero. *)
Definition c_div (a b : Z) : option Z := if b =? 0 then None else Some (Z.quot a b).

Definition calculateCrop (new_zoom max_zoom width height : Z) : option Rect :=
  if max_zoom =? 0 then Some (MkRect 0 0 (width - 1) (height - 1)) else
  new_ratio ← option_map (fun q => q + 100) (c_div (new_zoom * 2 * 100) max_zoom);
  w ← c_div (width * 100) new_ratio;
  h ← c_div (height * 100) new_ratio;
  let l := Z.quot (width - w) 2 in
  let t := Z.quot (height - h) 2 in
  Some (MkRect l t (l + w - 1) (t + h - 1)).

(** ** Copies of single bytes *)

Definition put_byte (to v : Z) (dst : bytes) : option bytes :=
  if (0 <=? to) && (to <? lenZ dst) then Some (<[Z.to_nat to := v]> dst) else None.
(** [*(dst + to) = *(src + from)] *)
Definition copy_byte (src : bytes) (from to : Z) (dst : bytes) : option bytes :=
  v ← bget src from; put_byte to v dst.

(** [for (i = i0; i < hi; i += step)], with the number of its rounds. *)
Fixpoint for_loop (n : nat) (i step : Z) (body : Z -> bytes -> option bytes) (dst : bytes) :
  option bytes :=
  match n with
  | O => Some dst
  | S n' => dst ← body i dst; for_loop n' (i + step) step body dst
  end.
Definition rounds (hi step : Z) : nat := Z.to_nat ((hi + step - 1) / step).
Definition for_to (hi step : Z) := for_loop (rounds hi step) 0 step.

(** [memcpy (dst + to, src + from, n)] of two frames. *)
Definition copy_row (src : bytes) (from to n : Z) (dst : bytes) : option bytes :=
  if in_bounds from n src && in_bounds to n dst then Some (bblit to (bslice from n src) dst) else None.

(** ** V4L2CameraDevice2.cpp *)

Definition YUYVToNV12 (yuyv : bytes) (width height : Z) (nv12 : bytes) : option bytes :=
  let UV := width * height in
  for_to height 2 (fun i =>
    for_to width 1 (fun j d =>
      d ← copy_byte yuyv (i * width * 2 + j * 2) (i * width + j) d;
      d ← copy_byte yuyv ((i + 1) * width * 2 + j * 2) ((i + 1) * width + j) d;
      copy_byte yuyv (i * width * 2 + j * 2 + 1) (UV + Z.shiftr (i * width) 1 + j) d)) nv12.

Definition YUYVToNV21 (yuyv : bytes) (width height : Z) (nv21 : bytes) : option bytes :=
  let VU := width * height in
  for_to height 2 (fun i =>
    for_to width 1 (fun j d =>
      d ← copy_byte yuyv (i * width * 2 + j * 2) (i * width + j) d;
      d ← copy_byte yuyv ((i + 1) * width * 2 + j * 2) ((i + 1) * width + j) d;
      if negb (j mod 2 =? 0) then
        if j <? width - 1 then
          copy_byte yuyv (i * width * 2 + (j + 1) * 2 + 1) (VU + Z.shiftr (i * width) 1 + j) d
        else Some d
      else
        if 1 <? j then
          copy_byte yuyv (i * width * 2 + (j - 1) * 2 + 1) (VU + Z.shiftr (i * width) 1 + j) d
        else Some d)) nv21.

(** ** CallbackNotifier.cpp *)

(** The luma plane, byte by byte. *)
Definition copy_luma (src : bytes) (width height : Z) (dst : bytes) : option bytes :=
  for_to height 1 (fun i =>
    for_to width 1 (fun j => copy_byte src (i * width + j) (i * width + j))) dst.

Definition NV12ToYVU420 (src : bytes) (width height : Z) (dst : bytes) : option bytes :=
  let uv := width * height in
  d ← copy_luma src width height dst;
  for_to (height / 2) 1 (fun i =>
    for_to (width / 2) 1 (fun j d =>
      d ← copy_byte src (uv + i * width + j * 2) (uv + i * width / 2 + j) d;
      copy_byte src (uv + i * width + j * 2 + 1)
        (uv + (width / 2) * (height / 2) + i * width / 2 + j) d)) d.

Definition NV21ToYVU420 (src : bytes) (width height : Z) (dst : bytes) : option bytes :=
  let uv := width * height in
  d ← copy_luma src width height dst;
  for_to (height / 2) 1 (fun i =>
    for_to (width / 2) 1 (fun j d =>
      d ← copy_byte src (uv + i * width + j * 2 + 1) (uv + i * width / 2 + j) d;
      copy_byte src (uv + i * width + j * 2)
        (uv + (width / 2) * (height / 2) + i * width / 2 + j) d)) d.

Definition YVU420ToNV21 (src : bytes) (width height : Z) (dst : bytes) : option bytes :=
  let uv := width * height in
  d ← copy_luma src width height dst;
  for_to (height / 2) 1 (fun i =>
    for_to (width / 2) 1 (fun j d =>
      d ← copy_byte src (uv + i * width / 2 + j) (uv + i * width + j * 2 + 1) d;
      copy_byte src (uv + (width / 2) * (height / 2) + i * width / 2 + j)
        (uv + i * width + j * 2) d)) d.

(** A [short] moved as its two bytes. *)
Definition copy_short (src : bytes) (from to : Z) (dst : bytes) : option bytes :=
  d ← copy_byte src from to dst; copy_byte src (from + 1) (to + 1) d.

(** [true] with the frame written, [false] when the sizes are wrong; the division
    comes before the check. *)
Definition yuv420spDownScale (src : bytes) (src_w src_h dst_w dst_h : Z) (dst : bytes) :
  option (bool * bytes) :=
  let src_uv := src_w * src_h in
  let dst_uv := dst_w * dst_h in
  scale_w ← c_div src_w dst_w;
  scale_h ← c_div src_h dst_h;
  if (src_w <? dst_w) || (src_h <? dst_h) then Some (false, dst) else
  let scale := if scale_w =? scale_h then scale_w else 1 in
  if scale =? 1 then
    if (src_w =? dst_w) && (src_h =? dst_h) then
      d ← copy_row src 0 0 (dst_w * dst_h * 3 / 2) dst; Some (true, d)
    else
      d ← for_to dst_h 1 (fun h => copy_row src (h * src_w) (h * dst_w) dst_w) dst;
      d ← for_to (dst_h / 2) 1 (fun h => copy_row src (src_uv + h * src_w) (dst_uv + h * dst_w) dst_w) d;
      Some (true, d)
  else
    d ← for_to dst_h 1 (fun h =>
          for_to dst_w 1 (fun w =>
            copy_byte src (h * scale * src_w + w * scale) (h * dst_w + w))) dst;
    d ← for_to (dst_h / 2) 1 (fun h =>
          for_to dst_w 2 (fun w =>
            copy_short src (src_uv + h * scale * src_w + w * scale) (dst_uv + h * dst_w + w))) d;
    Some (true, d).

(** *** formatToNV21 *)

(** [vld2.8 {a, b}; vswp a, b; vst2.8 {a, b}]: the bytes of every pair trade
    places. *)
Fixpoint swap_pairs (b : bytes) : bytes :=
  match b with
  | x :: y :: b' => y :: x :: swap_pairs b'
  | _ => b
  end.

(** One turn of the assembly's loops: [got] bytes are loaded, the first [put] of
    the swapped ones are stored. *)
Definition swap_turn (got put : Z) (from to : Z) (m : bytes) : option bytes :=
  if in_bounds from got m && in_bounds to put m
  then Some (bblit to (bslice 0 put (swap_pairs (bslice from got m))) m) else None.
(** [sub n, k ... cmp n, k; bge], entered when there are [k] bytes left. *)
Fixpoint swap_loop (fuel : nat) (k got put n from to : Z) (m : bytes) : option (Z * Z * Z * bytes) :=
  match fuel with
  | O => Some (n, from, to, m)
  | S fuel' =>
      if n <? k then Some (n, from, to, m) else
      m ← swap_turn got put from to m; swap_loop fuel' k got put (n - k) (from + got) (to + put) m
  end.
(** The rounds by 32, by 16, and the last one by 8, which loads 16 bytes and
    stores two. *)
Definition swap_row (n from to : Z) (m : bytes) : option (Z * Z * bytes) :=
  let fuel := Z.to_nat n in
  '(n, from, to, m) ← swap_loop fuel 32 32 32 n from to m;
  '(n, from, to, m) ← swap_loop fuel 16 16 16 n from to m;
  '(n, from, to, m) ← swap_loop fuel 8 16 2 n from to m;
  Some (from, to, m).

(** The rows of the luma plane, until a pointer has passed its end. *)
Fixpoint luma_rows (n : nat) (width stride send dend from to : Z) (m : bytes) : option bytes :=
  match n with
  | O => Some m
  | S n' =>
      m ← copy_row m from to width m;
      let from := from + stride in
      let to := to + width in
      if (send <? from) || (dend <? to) then Some m else luma_rows n' width stride send dend from to m
  end.
Fixpoint chroma_rows (n : nat) (width skip from to : Z) (m : bytes) : option bytes :=
  match n with
  | O => Some m
  | S n' =>
      '(from, to, m) ← swap_row width from to m;
      chroma_rows n' width skip (from + skip) to m
  end.

(** With one buffer as the source and the destination, as its only caller has it;
    any other format is left alone.  The padding of a chroma row is skipped in
    shorts: a byte less, if it is odd. *)
Definition formatToNV21 (m : bytes) (width height stride offset length : Z) (is_nv12 : bool) :
  option bytes :=
  if negb is_nv12 then Some m else
  let alignedRow := u32 (stride - width) in
  if stride =? 0 then None else
  let xOff := offset mod stride in
  let yOff := offset / stride in
  m ← luma_rows (Z.to_nat height) width stride (length + offset) (width * height) offset 0 m;
  let from := width * height + (stride / 2) * yOff + xOff in
  chroma_rows (Z.to_nat (height / 2)) width (2 * (alignedRow / 2)) from (width * height) m.
