(* ===== verification/CamPixelTheorems.v ===== *)
(** * camera: the frames are what they should be

    A routine made of single copies is a list of moves ([copies]); when the moves
    stay inside the two frames and no two of them write the same place from
    different ones, the frame holds, at every place written, the byte moved there,
    and what it held elsewhere ([copies_spec]).  From it come the contents of the
    conversions and of the down-scaled frame, and their round trip; then the crop
    of a zoom. *)

From S2P Require Import Prelude CLib CamPixel.

(** ** Lists of moves *)

Definition move : Type := Z * Z.  (* from, to *)
Fixpoint copies (src : bytes) (ps : list move) (dst : bytes) : option bytes :=
  match ps with
  | [] => Some dst
  | (from, to) :: ps => d ← copy_byte src from to dst; copies src ps d
  end.
Definition copies_by (src : bytes) (body : bytes -> option bytes) (ps : list move) : Prop :=
  forall dst, body dst = copies src ps dst.

Lemma copies_app src ps qs dst : copies src (ps ++ qs) dst = d ← copies src ps dst; copies src qs d.
Proof.
  revert dst; induction ps as [|[f t] ps IH]; intros; cbn; [done|].
  destruct (copy_byte src f t dst); cbn; [apply IH|done].
Qed.
Lemma copies_by_one src from to : copies_by src (copy_byte src from to) [(from, to)].
Proof. intros d. cbn. by destruct (copy_byte _ _ _ _). Qed.
Lemma copies_by_bind src f g ps qs :
  copies_by src f ps -> copies_by src g qs -> copies_by src (fun d => d ← f d; g d) (ps ++ qs).
Proof.
  intros Hf Hg d. rewrite copies_app, Hf. destruct (copies src ps d); cbn; [apply Hg|done].
Qed.
Lemma copies_by_none src : copies_by src Some [].
Proof. done. Qed.
Lemma copies_by_if src (b : bool) f g ps qs :
  copies_by src f ps -> copies_by src g qs ->
  copies_by src (fun d => if b then f d else g d) (if b then ps else qs).
Proof. by destruct b. Qed.

(** The counters of a loop. *)
Definition counters (hi step : Z) : list Z := (fun k => k * step) <$> seqZ 0 (Z.of_nat (rounds hi step)).

Lemma copies_by_loop src n i step body ps :
  (forall i, copies_by src (body i) (ps i)) ->
  copies_by src (for_loop n i step body) (flat_map ps ((fun k => i + k * step) <$> seqZ 0 (Z.of_nat n))).
Proof.
  intros Hb. revert i; induction n as [|n IH]; intros i d; [done|].
  rewrite Nat2Z.inj_succ, seqZ_cons by lia. replace (Z.pred (Z.succ (Z.of_nat n))) with (Z.of_nat n) by lia.
  cbn [for_loop fmap list_fmap flat_map]. replace (i + 0 * step) with i by lia.
  rewrite copies_app, Hb. destruct (copies src (ps i) d) as [d'|]; cbn [mbind option_bind]; [|done].
  rewrite IH. f_equal. f_equal.
  change (Z.succ 0) with (0 + 1). rewrite <- (fmap_add_seqZ 1 0), <- list_fmap_compose.
  apply list_fmap_ext. intros. unfold compose. lia.
Qed.
Lemma copies_by_for src hi step body ps :
  (forall i, copies_by src (body i) (ps i)) ->
  copies_by src (for_to hi step body) (flat_map ps (counters hi step)).
Proof. intros Hb d. exact (copies_by_loop src _ 0 step body ps Hb d). Qed.

Lemma elem_counters hi step i :
  0 < step -> i ∈ counters hi step <-> 0 <= i < hi /\ (step | i).
Proof.
  intros Hs. unfold counters, rounds. rewrite list_elem_of_fmap. split.
  - intros (k & -> & Hk%elem_of_seqZ). set (q := (hi + step - 1) / step) in Hk.
    rewrite Z2Nat.id in Hk by lia. subst q.
    split; [|apply Z.divide_factor_r].
    assert (k + 1 <= (hi + step - 1) / step) by lia.
    assert ((k + 1) * step <= hi + step - 1).
    { transitivity ((hi + step - 1) / step * step); [nia|]. rewrite Z.mul_comm. apply Z.mul_div_le. lia. }
    nia.
  - intros [Hi [k ->]]. exists k. split; [done|]. apply elem_of_seqZ.
    assert (0 <= k) by nia.
    assert (k + 1 <= (hi + step - 1) / step) by (apply Z.div_le_lower_bound; nia).
    rewrite Z2Nat.id; lia.
Qed.
Lemma elem_loop {A} (ps : Z -> list A) hi step m :
  0 < step ->
  m ∈ flat_map ps (counters hi step) <-> exists i, 0 <= i < hi /\ (step | i) /\ m ∈ ps i.
Proof.
  intros Hs. rewrite list_elem_of_In, in_flat_map. split.
  - intros (i & Hi%list_elem_of_In & Hm%list_elem_of_In). apply elem_counters in Hi as [? ?]; [|done]. eauto.
  - intros (i & ? & ? & ?). exists i. rewrite <- !list_elem_of_In, elem_counters; auto.
Qed.

(** ** What a list of moves makes *)

(** Every move inside its frames, and one source for every place. *)
Record moves_ok (ps : list move) (slen dlen : Z) : Prop := {
  mo_from : forall from to, (from, to) ∈ ps -> 0 <= from < slen;
  mo_to : forall from to, (from, to) ∈ ps -> 0 <= to < dlen;
  mo_one : forall from from' to, (from, to) ∈ ps -> (from', to) ∈ ps -> from = from';
}.

Lemma copy_byte_run src from to dst :
  0 <= from < lenZ src -> 0 <= to < lenZ dst ->
  exists v, bget src from = Some v /\ copy_byte src from to dst = Some (<[Z.to_nat to := v]> dst).
Proof.
  intros Hf Ht. destruct (lookup_lt_is_Some_2 src (Z.to_nat from)) as [v Hv]; [unfold lenZ in Hf; lia|].
  exists v. unfold copy_byte, bget, put_byte.
  replace (from <? 0) with false by lia. rewrite Hv. cbn.
  replace ((0 <=? to) && (to <? lenZ dst)) with true by lia. done.
Qed.

Lemma copies_spec src ps dst :
  moves_ok ps (lenZ src) (lenZ dst) ->
  exists dst', copies src ps dst = Some dst' /\ lenZ dst' = lenZ dst /\
    (forall from to, (from, to) ∈ ps -> bget dst' to = bget src from) /\
    (forall to, 0 <= to -> (forall from, (from, to) ∉ ps) -> bget dst' to = bget dst to).
Proof.
  revert dst; induction ps as [|[f t] ps IH] using rev_ind; intros dst [Hf Ht H1].
  { exists dst. split_and!; [done..|set_solver|done]. }
  assert (Hl : (f, t) ∈ ps ++ [(f, t)]) by (apply elem_of_app; right; constructor).
  assert (Hi : forall m, m ∈ ps -> m ∈ ps ++ [(f, t)]) by (intros; by apply elem_of_app; left).
  destruct (IH dst) as (d & Ed & Ld & Hin & Hout).
  { split; eauto. }
  destruct (copy_byte_run src f t d) as (v & Hv & Er); [eauto|rewrite Ld; eauto|].
  exists (<[Z.to_nat t := v]> d). rewrite copies_app, Ed. cbn. rewrite Er. cbn.
  assert (Htr : 0 <= t < lenZ dst) by eauto.
  assert (Hget : forall o, 0 <= o -> bget (<[Z.to_nat t := v]> d) o = if o =? t then Some v else bget d o).
  { intros o Ho. unfold bget. replace (o <? 0) with false by lia. destruct (Z.eqb_spec o t) as [->|Hne].
    - apply list_lookup_insert_eq. unfold lenZ in *. lia.
    - apply list_lookup_insert_ne. lia. }
  split_and!; [done|unfold lenZ in *; rewrite length_insert; lia| |].
  - intros f' t' Hm. assert (0 <= t') by (apply Ht in Hm; lia). rewrite Hget by done.
    destruct (Z.eqb_spec t' t) as [->|Hne].
    + rewrite <- Hv. f_equal. eauto.
    + apply Hin. apply elem_of_app in Hm as [?|Hm]; [done|].
      apply list_elem_of_singleton in Hm. congruence.
  - intros o Ho Hno. rewrite Hget by done. destruct (Z.eqb_spec o t) as [->|Hne].
    + by exfalso; apply (Hno f).
    + apply Hout; [done|]. intros f' ?. apply (Hno f'). auto.
Qed.

(** ** The conversions *)

Lemma row_col_inj w r c r' c' : 0 <= c < w -> 0 <= c' < w -> r * w + c = r' * w + c' -> r = r' /\ c = c'.
Proof.
  intros Hc Hc' E. enough (r = r') as <- by lia.
  destruct (Z.lt_trichotomy r r') as [|[|]]; [|done|]; exfalso.
  - assert (1 * w <= (r' - r) * w) by (apply Z.mul_le_mono_nonneg_r; lia). lia.
  - assert (1 * w <= (r - r') * w) by (apply Z.mul_le_mono_nonneg_r; lia). lia.
Qed.
Lemma half_row k w : Z.shiftr (2 * k * w) 1 = k * w.
Proof. rewrite Z.shiftr_div_pow2 by lia. change (2 ^ 1) with 2.
  replace (2 * k * w) with (k * w * 2) by lia. by apply Z.div_mul. Qed.

(** The moves of both conversions from YUYV, [uv] giving the one of a chroma byte. *)
Definition luma_moves (w i j : Z) : list move :=
  [(i * w * 2 + j * 2, i * w + j); ((i + 1) * w * 2 + j * 2, (i + 1) * w + j)].
Definition yuyv_moves (w h : Z) (uv : Z -> Z -> list move) : list move :=
  flat_map (fun i => flat_map (fun j => luma_moves w i j ++ uv i j) (counters w 1)) (counters h 2).

Lemma elem_yuyv w h uv m :
  m ∈ yuyv_moves w h uv <->
  exists k c, 0 <= k /\ 2 * k < h /\ 0 <= c < w /\
    (m = (2 * (2 * k * w + c), 2 * k * w + c) \/ m = (2 * ((2 * k + 1) * w + c), (2 * k + 1) * w + c) \/
     m ∈ uv (2 * k) c).
Proof.
  unfold yuyv_moves. rewrite elem_loop by lia. setoid_rewrite elem_loop; [|lia].
  unfold luma_moves. setoid_rewrite elem_of_app. setoid_rewrite elem_of_cons. setoid_rewrite list_elem_of_singleton.
  split.
  - intros (i & Hi & [k ->] & c & Hc & _ & Hm). exists k, c. split_and!; [lia..|].
    destruct Hm as [[->| ->]|Hm]; [left; f_equal; lia|right; left; f_equal; lia|right; right].
    by replace (2 * k) with (k * 2) by lia.
  - intros (k & c & Hk & Hh & Hc & Hm). exists (k * 2). split_and!; [lia..|by exists k|].
    exists c. split_and!; [lia..|by apply Z.divide_1_l|].
    destruct Hm as [->|[->|Hm]]; [left; left; f_equal; lia|left; right; f_equal; lia|right].
    by replace (k * 2) with (2 * k) by lia.
Qed.

(** A chroma byte comes from the pixel [pick] names, or is left alone. *)
Definition uv_moves (w h : Z) (pick : Z -> option Z) (i j : Z) : list move :=
  match pick j with
  | Some p => [(i * w * 2 + p * 2 + 1, w * h + Z.shiftr (i * w) 1 + j)]
  | None => []
  end.

Lemma elem_uv w h pick k c m :
  m ∈ uv_moves w h pick (2 * k) c <->
  exists p, pick c = Some p /\ m = (2 * (2 * k * w + p) + 1, w * h + k * w + c).
Proof.
  unfold uv_moves. rewrite half_row. destruct (pick c) as [p|].
  - rewrite list_elem_of_singleton. split; [intros ->; exists p|intros (? & [= <-] & ->)]; split_and?; f_equal; lia.
  - split; [set_solver|]. by intros (? & ? & _).
Qed.

Section Yuyv.
Variables (w hh : Z) (pick : Z -> option Z) (yuyv dst : bytes).
Abbreviation h := (2 * hh).
Hypothesis Hw : 0 < w.
Hypothesis Hh : 0 <= hh.
Hypothesis Hs : w * h * 2 <= lenZ yuyv.
Hypothesis Hd : w * h + w * hh <= lenZ dst.
Hypothesis Hp : forall c p, 0 <= c < w -> pick c = Some p -> 0 <= p < w.
Abbreviation ps := (yuyv_moves w h (uv_moves w h pick)).

(** A luma byte of a row, and a chroma byte. *)
Lemma elem_moves m :
  m ∈ ps <->
  (exists r c, 0 <= r < h /\ 0 <= c < w /\ m = (2 * (r * w + c), r * w + c)) \/
  (exists k c p, 0 <= k < hh /\ 0 <= c < w /\ pick c = Some p /\
     m = (2 * (2 * k * w + p) + 1, w * h + k * w + c)).
Proof.
  rewrite elem_yuyv. split.
  - intros (k & c & Hk & Hk' & Hc & Hm). rewrite elem_uv in Hm. destruct Hm as [->|[->|(p & Ep & ->)]].
    + left. exists (2 * k), c. split_and!; [lia..|done].
    + left. exists (2 * k + 1), c. split_and!; [lia..|done].
    + right. exists k, c, p. split_and!; [lia..|done|done].
  - setoid_rewrite elem_uv. intros [(r & c & Hr & Hc & ->)|(k & c & p & Hk & Hc & Ep & ->)].
    + destruct (Z.Even_or_Odd r) as [[k ->]|[k ->]]; exists k, c; split_and!; try lia; auto.
    + exists k, c. split_and!; [lia..|]. right; right. eauto.
Qed.

Lemma row_in r c n : 0 <= r < n -> 0 <= c < w -> 0 <= r * w + c < w * n.
Proof.
  intros Hr Hc. assert ((r + 1) * w <= n * w) by (apply Z.mul_le_mono_nonneg_r; lia).
  assert (0 <= r * w) by (apply Z.mul_nonneg_nonneg; lia). lia.
Qed.

Lemma yuyv_ok : moves_ok ps (lenZ yuyv) (lenZ dst).
Proof.
  split; intros from.
  - intros to [(r & c & Hr & Hc & [= -> ->])|(k & c & p & Hk & Hc & Ep & [= -> ->])]%elem_moves.
    + pose proof (row_in r c h Hr Hc). lia.
    + pose proof (row_in (2 * k) p h ltac:(lia) (Hp c p Hc Ep)). lia.
  - intros to [(r & c & Hr & Hc & [= -> ->])|(k & c & p & Hk & Hc & Ep & [= -> ->])]%elem_moves.
    + pose proof (row_in r c h Hr Hc). nia.
    + pose proof (row_in k c hh Hk Hc). nia.
  - intros from' to [(r & c & Hr & Hc & [= -> E])|(k & c & p & Hk & Hc & Ep & [= -> E])]%elem_moves
      [(r' & c' & Hr' & Hc' & [= -> E'])|(k' & c' & p' & Hk' & Hc' & Ep' & [= -> E'])]%elem_moves; subst to.
    + lia.
    + pose proof (row_in r c h Hr Hc). pose proof (row_in k' c' hh Hk' Hc'). lia.
    + pose proof (row_in r' c' h Hr' Hc'). pose proof (row_in k c hh Hk Hc). lia.
    + destruct (row_col_inj w k c k' c') as [-> ->]; [done|done|lia|]. congruence.
Qed.

Lemma yuyv_run :
  exists d, copies yuyv ps dst = Some d /\ lenZ d = lenZ dst /\
    (forall r c, 0 <= r < h -> 0 <= c < w -> bget d (r * w + c) = bget yuyv (2 * (r * w + c))) /\
    (forall k c, 0 <= k < hh -> 0 <= c < w ->
       bget d (w * h + k * w + c) =
         match pick c with
         | Some p => bget yuyv (2 * (2 * k * w + p) + 1)
         | None => bget dst (w * h + k * w + c)
         end).
Proof.
  destruct (copies_spec yuyv ps dst yuyv_ok) as (d & E & L & Hin & Hout).
  exists d. split_and!; [done|done| |].
  - intros r c Hr Hc. apply Hin, elem_moves. left. eauto 6.
  - intros k c Hk Hc. destruct (pick c) as [p|] eqn:Ep.
    + apply Hin, elem_moves. right. eauto 10.
    + pose proof (row_in k c hh Hk Hc). apply Hout; [nia|]. intros from.
      intros [(r & c' & Hr & Hc' & [= _ E'])|(k' & c' & p & Hk' & Hc' & Ep' & [= _ E'])]%elem_moves.
      * pose proof (row_in r c' h Hr Hc'). lia.
      * destruct (row_col_inj w k c k' c') as [-> ->]; [done|done|lia|]. congruence.
Qed.
End Yuyv.

(** Every pixel keeps its own chroma byte in NV12. *)
Lemma nv12_moves yuyv w h : copies_by yuyv (YUYVToNV12 yuyv w h) (yuyv_moves w h (uv_moves w h Some)).
Proof.
  apply copies_by_for. intros i. apply copies_by_for. intros j.
  apply (copies_by_bind _ _ _ [_]); [apply copies_by_one|].
  apply (copies_by_bind _ _ _ [_]); [apply copies_by_one|]. apply copies_by_one.
Qed.

(** The pixel whose chroma byte goes to column [c] of NV21. *)
Definition nv21_pick (w c : Z) : option Z :=
  if negb (c mod 2 =? 0) then if c <? w - 1 then Some (c + 1) else None
  else if 1 <? c then Some (c - 1) else None.
Lemma nv21_moves yuyv w h : copies_by yuyv (YUYVToNV21 yuyv w h) (yuyv_moves w h (uv_moves w h (nv21_pick w))).
Proof.
  apply copies_by_for. intros i. apply copies_by_for. intros j.
  apply (copies_by_bind _ _ _ [_]); [apply copies_by_one|].
  apply (copies_by_bind _ _ _ [_]); [apply copies_by_one|].
  unfold uv_moves, nv21_pick.
  destruct (negb (j mod 2 =? 0)), (j <? w - 1), (1 <? j); (apply copies_by_one || apply copies_by_none).
Qed.

(** C16: a frame in the camera's own format (YUYV) becomes an NV21 frame of even height: the luma
    plane is exact, and the call stays inside both frames; but the colours are moved sideways: V comes
    from the pair on the left and U from the pair on the right, and the two outer columns of the chroma
    plane keep what the buffer held before. *)
Theorem preview_frame_colours (w hh : Z) (yuyv dst : bytes) :
  0 < w -> 0 <= hh -> w * (2 * hh) * 2 <= lenZ yuyv -> w * (2 * hh) + w * hh <= lenZ dst ->
  exists d, YUYVToNV21 yuyv w (2 * hh) dst = Some d /\ lenZ d = lenZ dst /\
    (forall r c, 0 <= r < 2 * hh -> 0 <= c < w -> bget d (r * w + c) = bget yuyv (2 * (r * w + c))) /\
    (forall k c, 0 <= k < hh -> 0 <= c < w ->
       bget d (w * (2 * hh) + k * w + c) =
         if c mod 2 =? 0 then
           if 1 <? c then bget yuyv (2 * (2 * k * w + (c - 1)) + 1) else bget dst (w * (2 * hh) + k * w + c)
         else
           if c <? w - 1 then bget yuyv (2 * (2 * k * w + (c + 1)) + 1)
           else bget dst (w * (2 * hh) + k * w + c)).
Proof.
  intros Hw Hh Hs Hd.
  destruct (yuyv_run w hh (nv21_pick w) yuyv dst Hw Hh Hs Hd) as (d & E & L & Hy & Hc).
  { intros c p Hc. unfold nv21_pick.
    destruct (negb (c mod 2 =? 0)), (Z.ltb_spec c (w - 1)), (Z.ltb_spec 1 c); intros [= <-]; lia. }
  exists d. rewrite (nv21_moves yuyv w (2 * hh) dst). split_and!; [done..|].
  intros k c Hk Hc'. rewrite (Hc k c Hk Hc'). unfold nv21_pick.
  by destruct (c mod 2 =? 0), (c <? w - 1), (1 <? c).
Qed.

(** ** Rows *)

Lemma copies_inv src ps dst d :
  copies src ps dst = Some d ->
  forall from to, (from, to) ∈ ps -> 0 <= from < lenZ src /\ 0 <= to < lenZ dst.
Proof.
  revert dst; induction ps as [|[f t] ps IH]; intros dst E from to Hm; [set_solver|].
  cbn in E. unfold copy_byte, bget, put_byte in E.
  destruct (Z.ltb_spec f 0) as [|Hf]; [done|]. destruct (src !! Z.to_nat f) as [v|] eqn:Ev; [|done].
  apply lookup_lt_Some in Ev. cbn in E.
  destruct ((0 <=? t) && (t <? lenZ dst)) eqn:Et; [|done]. cbn in E.
  apply elem_of_cons in Hm as [[= -> ->]|Hm].
  - unfold lenZ in *. lia.
  - destruct (IH _ E _ _ Hm) as [? Ht]. unfold lenZ in *. rewrite length_insert in Ht. lia.
Qed.

Definition row_moves (from to n : Z) : list move := (fun k => (from + k, to + k)) <$> seqZ 0 n.
Lemma elem_row from to n m :
  m ∈ row_moves from to n <-> exists k, 0 <= k < n /\ m = (from + k, to + k).
Proof.
  unfold row_moves. rewrite list_elem_of_fmap. setoid_rewrite elem_of_seqZ.
  split; intros (k & H1 & H2); exists k; (split; [lia|done]) || (split; [done|lia]).
Qed.
Lemma bget_blit to b d o :
  0 <= to -> to + lenZ b <= lenZ d -> 0 <= o ->
  bget (bblit to b d) o = if (to <=? o) && (o <? to + lenZ b) then bget b (o - to) else bget d o.
Proof.
  intros Ht Hb Ho. unfold bget, bblit, lenZ in *. replace (o <? 0) with false by lia.
  destruct ((to <=? o) && (o <? to + Z.of_nat (length b))) eqn:Eo.
  - replace (o - to <? 0) with false by lia.
    rewrite lookup_app_r, length_take_le by (rewrite ?length_take; lia).
    rewrite lookup_app_l by lia. f_equal. lia.
  - destruct (Z_lt_le_dec o to).
    + rewrite lookup_app_l, lookup_take_lt by (rewrite ?length_take; lia). done.
    + rewrite lookup_app_r, length_take_le by (rewrite ?length_take; lia).
      rewrite lookup_app_r, lookup_drop by lia. f_equal. lia.
Qed.
Lemma bget_slice from n b o :
  0 <= from -> 0 <= o < n -> bget (bslice from n b) o = bget b (from + o).
Proof.
  intros Hf Ho. unfold bget, bslice. replace (o <? 0) with false by lia. replace (from + o <? 0) with false by lia.
  rewrite lookup_take_lt, lookup_drop by lia. f_equal. lia.
Qed.
Lemma bget_ext d d' : lenZ d = lenZ d' -> (forall o, 0 <= o < lenZ d -> bget d o = bget d' o) -> d = d'.
Proof.
  intros L H. apply list_eq_same_length with (length d); [unfold lenZ in L; lia|done|].
  intros i x y Hi Hx Hy. specialize (H (Z.of_nat i) ltac:(unfold lenZ; lia)). unfold bget in H.
  replace (Z.of_nat i <? 0) with false in H by lia. rewrite Nat2Z.id in H. congruence.
Qed.

Lemma copies_by_row src from to n : 0 < n -> copies_by src (copy_row src from to n) (row_moves from to n).
Proof.
  intros Hn dst. unfold copy_row.
  destruct (in_bounds from n src && in_bounds to n dst) eqn:Eb.
  - apply andb_true_iff in Eb as [H1%in_bounds_spec H2%in_bounds_spec].
    destruct (copies_spec src (row_moves from to n) dst) as (d & E & L & Hin & Hout).
    { split; [intros f t (k & ? & [= -> ->])%elem_row; lia..|].
      intros f f' t (k & ? & [= -> ->])%elem_row (k' & ? & [= -> ?])%elem_row. lia. }
    rewrite E. f_equal. assert (Ls : lenZ (bslice from n src) = n) by (apply lenZ_bslice; lia).
    apply bget_ext; rewrite lenZ_bblit by lia; [done|]. intros o Ho.
    rewrite bget_blit, Ls by lia. destruct ((to <=? o) && (o <? to + n)) eqn:Eo.
    + rewrite bget_slice by lia. symmetry. apply Hin, elem_row. exists (o - to). split; [lia|f_equal; lia].
    + symmetry. apply Hout; [lia|]. intros f (k & ? & [= -> ->])%elem_row. lia.
  - destruct (copies src (row_moves from to n) dst) as [d|] eqn:E; [|done].
    pose proof (copies_inv _ _ _ _ E from to) as H0. pose proof (copies_inv _ _ _ _ E (from + (n - 1)) (to + (n - 1))) as H1.
    destruct H0; [apply elem_row; exists 0; split; [lia|f_equal; lia]|].
    destruct H1; [apply elem_row; exists (n - 1); split; [lia|done]|].
    apply andb_false_iff in Eb as [Eb|Eb]; unfold in_bounds in Eb; lia.
Qed.

(** ** The down-scaled frame *)

Section Scale.
Variables (sw sh ww hh s : Z) (src dst : bytes).
Abbreviation dw := (2 * ww).
Abbreviation dh := (2 * hh).
Hypothesis Hww : 0 < ww.
Hypothesis Hhh : 0 < hh.
Hypothesis Hs : 1 <= s.
Hypothesis Hsw : s * dw <= sw.
Hypothesis Hsh : s * dh <= sh.
Hypothesis Lsrc : sw * sh + sw * (sh / 2) <= lenZ src.
Hypothesis Ldst : dw * dh + dw * hh <= lenZ dst.

(** A luma byte, and the two bytes of a chroma pair. *)
Definition scaled_luma (m : move) : Prop :=
  exists r c, 0 <= r < dh /\ 0 <= c < dw /\ m = (r * s * sw + c * s, r * dw + c).
Definition scaled_chroma (m : move) : Prop :=
  exists r c b, 0 <= r < hh /\ 0 <= c < ww /\ 0 <= b < 2 /\
    m = (sw * sh + r * s * sw + 2 * c * s + b, dw * dh + r * dw + 2 * c + b).

(** A row [s * r] of [n * s] rows, and a column of it. *)
Lemma scaled_row r n c N : 0 <= r < n -> s * n <= N -> 0 <= c < sw -> 0 <= r * s * sw + c < sw * N.
Proof.
  intros Hr HN Hc. assert (0 <= r * s) by (apply Z.mul_nonneg_nonneg; lia).
  assert ((r + 1) * s <= n * s) by (apply Z.mul_le_mono_nonneg_r; lia).
  assert ((r * s + 1) * sw <= N * sw) by (apply Z.mul_le_mono_nonneg_r; lia).
  assert (0 <= r * s * sw) by (apply Z.mul_nonneg_nonneg; lia). lia.
Qed.
Lemma scaled_col c n : 0 <= c < n -> s * n <= sw -> 0 <= c * s /\ c * s + s <= sw.
Proof.
  intros Hc Hn. assert ((c + 1) * s <= n * s) by (apply Z.mul_le_mono_nonneg_r; lia).
  assert (0 <= c * s) by (apply Z.mul_nonneg_nonneg; lia). lia.
Qed.

Lemma scaled_luma_in from to : scaled_luma (from, to) -> 0 <= from < sw * sh /\ 0 <= to < dw * dh.
Proof.
  intros (r & c & Hr & Hc & [= -> ->]). destruct (scaled_col c dw Hc Hsw) as [? ?].
  pose proof (scaled_row r dh (c * s) sh Hr Hsh ltac:(lia)). pose proof (row_in dw ltac:(lia) r c dh Hr Hc). lia.
Qed.
Lemma scaled_chroma_in from to :
  scaled_chroma (from, to) ->
  sw * sh <= from < sw * sh + sw * (sh / 2) /\ dw * dh <= to < dw * dh + dw * hh.
Proof.
  intros (r & c & b & Hr & Hc & Hb & [= -> ->]).
  destruct (scaled_col (2 * c) dw ltac:(lia) Hsw) as [? ?].
  destruct (scaled_col (2 * c + 1) dw ltac:(lia) Hsw) as [? ?].
  assert (s * hh <= sh / 2) by (apply Z.div_le_lower_bound; lia).
  pose proof (scaled_row r hh (2 * c * s + b) (sh / 2) Hr ltac:(lia) ltac:(lia)).
  pose proof (row_in dw ltac:(lia) r (2 * c + b) hh Hr ltac:(lia)). lia.
Qed.

Lemma scaled_ok ps :
  (forall m, m ∈ ps <-> scaled_luma m \/ scaled_chroma m) -> moves_ok ps (lenZ src) (lenZ dst).
Proof.
  intros Hps. assert (0 <= sw * (sh / 2)) by (apply Z.mul_nonneg_nonneg; [lia|apply Z.div_pos; lia]).
  assert (0 <= dw * hh) by (apply Z.mul_nonneg_nonneg; lia).
  assert (0 <= sw * sh) by (apply Z.mul_nonneg_nonneg; lia).
  assert (0 <= dw * dh) by (apply Z.mul_nonneg_nonneg; lia).
  split; intros from.
  - intros to [Hm%scaled_luma_in|Hm%scaled_chroma_in]%Hps; lia.
  - intros to [Hm%scaled_luma_in|Hm%scaled_chroma_in]%Hps; lia.
  - intros from' to [Hm|Hm]%Hps [Hm'|Hm']%Hps;
      try (apply scaled_luma_in in Hm; apply scaled_chroma_in in Hm'; lia);
      try (apply scaled_luma_in in Hm'; apply scaled_chroma_in in Hm; lia).
    + destruct Hm as (r & c & Hr & Hc & [= -> ->]), Hm' as (r' & c' & Hr' & Hc' & [= -> E]).
      by destruct (row_col_inj dw r c r' c') as [-> ->].
    + destruct Hm as (r & c & b & Hr & Hc & Hb & [= -> ->]), Hm' as (r' & c' & b' & Hr' & Hc' & Hb' & [= -> E]).
      destruct (row_col_inj dw r (2 * c + b) r' (2 * c' + b')) as [-> ?]; [lia..|].
      assert (c = c') as -> by lia. lia.
Qed.

Lemma scaled_run f ps :
  copies_by src f ps -> (forall m, m ∈ ps <-> scaled_luma m \/ scaled_chroma m) ->
  exists d, f dst = Some d /\ lenZ d = lenZ dst /\
    (forall r c, 0 <= r < dh -> 0 <= c < dw -> bget d (r * dw + c) = bget src (r * s * sw + c * s)) /\
    (forall r c b, 0 <= r < hh -> 0 <= c < ww -> 0 <= b < 2 ->
       bget d (dw * dh + r * dw + 2 * c + b) = bget src (sw * sh + r * s * sw + 2 * c * s + b)).
Proof.
  intros Hf Hps. destruct (copies_spec src ps dst (scaled_ok ps Hps)) as (d & E & L & Hin & _).
  exists d. rewrite Hf. split_and!; [done..| |].
  - intros r c Hr Hc. apply Hin, Hps. left. exists r, c. done.
  - intros r c b Hr Hc Hb. apply Hin, Hps. right. exists r, c, b. done.
Qed.

(** The loops of single samples. *)
Definition sample_moves : list move :=
  flat_map (fun h => flat_map (fun w => [(h * s * sw + w * s, h * dw + w)]) (counters dw 1)) (counters dh 1) ++
  flat_map (fun h => flat_map (fun w => [(sw * sh + h * s * sw + w * s, dw * dh + h * dw + w)] ++
                                        [(sw * sh + h * s * sw + w * s + 1, dw * dh + h * dw + w + 1)])
                              (counters dw 2)) (counters (dh / 2) 1).
Lemma elem_samples m : m ∈ sample_moves <-> scaled_luma m \/ scaled_chroma m.
Proof.
  unfold sample_moves. rewrite elem_of_app, !elem_loop by lia. setoid_rewrite elem_loop; [|lia..].
  setoid_rewrite elem_of_app. setoid_rewrite list_elem_of_singleton.
  replace (dh / 2) with hh by (rewrite Z.mul_comm; symmetry; by apply Z.div_mul).
  apply or_iff_compat_l_iff || f_equiv.
  - split.
    + intros (r & Hr & _ & c & Hc & _ & ->). exists r, c. done.
    + intros (r & c & Hr & Hc & ->). exists r. split_and!; [lia..|by apply Z.divide_1_l|].
      exists c. split_and!; [lia..|by apply Z.divide_1_l|done].
  - split.
    + intros (r & Hr & _ & c & Hc & [k ->] & [->| ->]).
      * exists r, k, 0. split_and!; [lia..|]. f_equal; lia.
      * exists r, k, 1. split_and!; [lia..|]. f_equal; lia.
    + intros (r & c & b & Hr & Hc & Hb & ->). exists r. split_and!; [lia..|by apply Z.divide_1_l|].
      exists (c * 2). split_and!; [lia..|by exists c|].
      assert (b = 0 \/ b = 1) as [-> | ->] by lia; [left|right]; f_equal; lia.
Qed.
End Scale.

(** The rows of a crop, and the whole frame: the same samples with scale 1. *)
Definition crop_moves (sw sh dw dh : Z) : list move :=
  flat_map (fun h => row_moves (h * sw) (h * dw) dw) (counters dh 1) ++
  flat_map (fun h => row_moves (sw * sh + h * sw) (dw * dh + h * dw) dw) (counters (dh / 2) 1).

Lemma elem_crop sw sh ww hh m :
  0 < ww -> 0 < hh ->
  m ∈ crop_moves sw sh (2 * ww) (2 * hh) <-> scaled_luma sw ww hh 1 m \/ scaled_chroma sw sh ww hh 1 m.
Proof.
  intros Hw Hh. unfold crop_moves. rewrite elem_of_app, !elem_loop by lia. setoid_rewrite elem_row.
  replace (2 * hh / 2) with hh by (rewrite Z.mul_comm; symmetry; by apply Z.div_mul). f_equiv.
  - split.
    + intros (r & Hr & _ & c & Hc & ->). exists r, c. split_and!; [lia..|]. f_equal; lia.
    + intros (r & c & Hr & Hc & ->). exists r. split_and!; [lia..|by apply Z.divide_1_l|].
      exists c. split; [lia|]. f_equal; lia.
  - split.
    + intros (r & Hr & _ & c & Hc & ->).
      destruct (Z.Even_or_Odd c) as [[k ->]|[k ->]]; [exists r, k, 0|exists r, k, 1];
        (split_and!; [lia..|]); f_equal; lia.
    + intros (r & c & b & Hr & Hc & Hb & ->). exists r. split_and!; [lia..|by apply Z.divide_1_l|].
      exists (2 * c + b). split; [lia|]. f_equal; lia.
Qed.

Lemma elem_whole ww hh m :
  0 < ww -> 0 < hh ->
  m ∈ row_moves 0 0 (2 * ww * (2 * hh) * 3 / 2) <->
  scaled_luma (2 * ww) ww hh 1 m \/ scaled_chroma (2 * ww) (2 * hh) ww hh 1 m.
Proof.
  intros Hw Hh. rewrite elem_row.
  replace (2 * ww * (2 * hh) * 3 / 2) with (2 * ww * (2 * hh) + 2 * ww * hh)
    by (apply Z.div_unique with 0; lia).
  set (dw := 2 * ww). assert (Hdw : 0 < dw) by lia. split.
  - intros (k & Hk & ->). assert (0 <= k mod dw < dw) by (by apply Z.mod_pos_bound).
    destruct (Z_lt_le_dec k (dw * (2 * hh))) as [Hl|Hl].
    + left. exists (k / dw), (k mod dw). split_and!; [apply Z.div_pos; lia|apply Z.div_lt_upper_bound; lia|lia..|].
      pose proof (Z.div_mod k dw ltac:(lia)). f_equal; lia.
    + right. set (j := k - dw * (2 * hh)). assert (0 <= j mod dw < dw) by (by apply Z.mod_pos_bound).
      pose proof (Z.div_mod j dw ltac:(lia)). assert (0 <= j / dw) by (apply Z.div_pos; lia).
      assert (j / dw < hh) by (apply Z.div_lt_upper_bound; lia).
      destruct (Z.Even_or_Odd (j mod dw)) as [[q Eq]|[q Eq]]; [exists (j / dw), q, 0|exists (j / dw), q, 1];
        (split_and!; [lia..|]); f_equal; lia.
  - intros [(r & c & Hr & Hc & ->)|(r & c & b & Hr & Hc & Hb & ->)].
    + exists (r * dw + c). pose proof (row_in dw ltac:(lia) r c (2 * hh) Hr Hc).
      assert (0 <= dw * hh) by (apply Z.mul_nonneg_nonneg; lia). split; [lia|]. f_equal; lia.
    + exists (dw * (2 * hh) + r * dw + 2 * c + b).
      pose proof (row_in dw ltac:(lia) r (2 * c + b) hh Hr ltac:(lia)).
      assert (0 <= dw * (2 * hh)) by (apply Z.mul_nonneg_nonneg; lia). split; [lia|]. f_equal; lia.
Qed.

(** The scale: how often the frame fits, when that is the same both ways. *)
Definition down_scale (sw sh dw dh : Z) : Z := if sw / dw =? sh / dh then sw / dw else 1.

(** The destination only: what the call does to it when the sizes are right. *)
Definition down_write (src : bytes) (sw sh dw dh : Z) (dst : bytes) : option bytes :=
  match yuv420spDownScale src sw sh dw dh dst with Some (true, d) => Some d | _ => None end.

Lemma down_moves src sw sh ww hh :
  0 < ww -> 0 < hh -> 2 * ww <= sw -> 2 * hh <= sh ->
  exists ps, copies_by src (down_write src sw sh (2 * ww) (2 * hh)) ps /\
    forall m, m ∈ ps <-> scaled_luma sw ww hh (down_scale sw sh (2 * ww) (2 * hh)) m \/
                         scaled_chroma sw sh ww hh (down_scale sw sh (2 * ww) (2 * hh)) m.
Proof.
  intros Hw Hh Hsw Hsh. unfold copies_by, down_write, yuv420spDownScale, down_scale, c_div.
  replace (2 * ww =? 0) with false by lia. replace (2 * hh =? 0) with false by lia. cbn [mbind option_bind].
  rewrite !Z.quot_div_nonneg by lia.
  replace ((sw <? 2 * ww) || (sh <? 2 * hh)) with false by lia.
  set (s := if sw / (2 * ww) =? sh / (2 * hh) then sw / (2 * ww) else 1). destruct (Z.eqb_spec s 1) as [->|Hs].
  - destruct ((sw =? 2 * ww) && (sh =? 2 * hh)) eqn:Eq.
    + apply andb_true_iff in Eq as [->%Z.eqb_eq ->%Z.eqb_eq]. eexists. split; [|intros m; by apply elem_whole].
      intros d. rewrite <- copies_by_row; [by destruct (copy_row _ _ _ _ d)|].
      apply Z.div_str_pos. assert (2 * 1 * (2 * 1) <= 2 * ww * (2 * hh)) by (apply Z.mul_le_mono_nonneg; lia). lia.
    + exists (crop_moves sw sh (2 * ww) (2 * hh)). split; [|intros m; by apply elem_crop].
      intros d. unfold crop_moves. rewrite copies_app.
      rewrite <- (copies_by_for _ _ _ (fun h => copy_row src (h * sw) (h * (2 * ww)) (2 * ww)))
        by (intros; apply copies_by_row; lia).
      destruct (for_to _ _ _ d) as [d1|]; cbn [mbind option_bind]; [|done].
      rewrite <- (copies_by_for _ _ _ (fun h => copy_row src (sw * sh + h * sw) (2 * ww * (2 * hh) + h * (2 * ww)) (2 * ww)))
        by (intros; apply copies_by_row; lia).
      by destruct (for_to _ _ _ d1).
  - exists (sample_moves sw sh ww hh s). split; [|intros m; by apply elem_samples].
    intros d. unfold sample_moves. rewrite copies_app.
    erewrite <- (copies_by_for _ _ _ (fun h => for_to (2 * ww) 1 (fun w => copy_byte src (h * s * sw + w * s) (h * (2 * ww) + w))))
      by (intros; apply copies_by_for; intros; apply copies_by_one).
    destruct (for_to _ _ _ d) as [d1|]; cbn [mbind option_bind]; [|done].
    erewrite <- (copies_by_for _ _ _ (fun h => for_to (2 * ww) 2 (fun w =>
        copy_short src (sw * sh + h * s * sw + w * s) (2 * ww * (2 * hh) + h * (2 * ww) + w))))
      by (intros; apply copies_by_for; intros; apply copies_by_bind; apply copies_by_one).
    by destruct (for_to _ _ _ d1).
Qed.

Lemma down_scale_ok sw sh ww hh :
  0 < ww -> 0 < hh -> 2 * ww <= sw -> 2 * hh <= sh ->
  let s := down_scale sw sh (2 * ww) (2 * hh) in 1 <= s /\ s * (2 * ww) <= sw /\ s * (2 * hh) <= sh.
Proof.
  intros Hw Hh Hsw Hsh. unfold down_scale. case_test.
  - pose proof (Z.mul_div_le sw (2 * ww) ltac:(lia)). pose proof (Z.mul_div_le sh (2 * hh) ltac:(lia)).
    assert (0 < sw / (2 * ww)) by (apply Z.div_str_pos; lia). lia.
  - lia.
Qed.

(** C17: a preview frame handed to the application, of an even width and height
    that fit in the camera's frame, is the camera's frame taken every [s]-th
    pixel both ways ([s] being how often the small frame fits, if that is the
    same both ways, and 1 otherwise, which cuts a corner out); the chroma pairs
    stay pairs, and the call stays inside both frames. *)
Theorem preview_frame_scaled (sw sh ww hh : Z) (src dst : bytes) :
  0 < ww -> 0 < hh -> 2 * ww <= sw -> 2 * hh <= sh ->
  sw * sh + sw * (sh / 2) <= lenZ src -> 2 * ww * (2 * hh) + 2 * ww * hh <= lenZ dst ->
  let s := down_scale sw sh (2 * ww) (2 * hh) in
  exists d, yuv420spDownScale src sw sh (2 * ww) (2 * hh) dst = Some (true, d) /\ lenZ d = lenZ dst /\
    (forall r c, 0 <= r < 2 * hh -> 0 <= c < 2 * ww ->
       bget d (r * (2 * ww) + c) = bget src (r * s * sw + c * s)) /\
    (forall r c b, 0 <= r < hh -> 0 <= c < ww -> 0 <= b < 2 ->
       bget d (2 * ww * (2 * hh) + r * (2 * ww) + 2 * c + b) = bget src (sw * sh + r * s * sw + 2 * c * s + b)).
Proof.
  intros Hw Hh Hsw Hsh Ls Ld s. destruct (down_scale_ok sw sh ww hh Hw Hh Hsw Hsh) as (H1 & H2 & H3).
  destruct (down_moves src sw sh ww hh Hw Hh Hsw Hsh) as (ps & Hf & Hps).
  destruct (scaled_run sw sh ww hh s src dst Hw Hh H1 H2 H3 Ls Ld _ ps Hf Hps) as (d & E & L & Hy & Hc).
  unfold down_write in E. destruct (yuv420spDownScale _ _ _ _ _ dst) as [[[|] d']|]; [|done..].
  injection E as ->. exists d. done.
Qed.

(** ** The crop *)

Lemma quot_le_self a b : 0 <= a -> 1 <= b -> 0 <= Z.quot a b <= a.
Proof.
  intros Ha Hb. rewrite Z.quot_div_nonneg by lia. split; [apply Z.div_pos; lia|].
  apply Z.div_le_upper_bound; [lia|]. assert (1 * a <= b * a) by (apply Z.mul_le_mono_nonneg_r; lia). lia.
Qed.

(** [width * 100 / ratio] of a ratio from 1 to 3: at least a third, at most all. *)
Lemma crop_size n r : 0 < n -> 100 <= r <= 300 -> n <= 3 * Z.quot (n * 100) r + 2 /\ Z.quot (n * 100) r <= n.
Proof.
  intros Hn Hr. rewrite Z.quot_div_nonneg by lia.
  pose proof (Z.div_mod (n * 100) r ltac:(lia)) as E. pose proof (Z.mod_pos_bound (n * 100) r ltac:(lia)).
  set (q := n * 100 / r) in *. assert (0 <= q) by (apply Z.div_pos; lia).
  assert (r * q <= 300 * q) by (apply Z.mul_le_mono_nonneg_r; lia).
  assert (100 * q <= r * q) by (apply Z.mul_le_mono_nonneg_r; lia). lia.
Qed.

Lemma crop_ratio zoom max : 0 < max -> 0 <= zoom <= max -> 100 <= Z.quot (zoom * 2 * 100) max + 100 <= 300.
Proof.
  intros Hm Hz. rewrite Z.quot_div_nonneg by lia. split.
  - assert (0 <= zoom * 2 * 100 / max) by (apply Z.div_pos; lia). lia.
  - assert (zoom * 2 * 100 / max <= 200) by (apply Z.div_le_upper_bound; lia). lia.
Qed.

Lemma half_bounds z : 2 * (z / 2) <= z <= 2 * (z / 2) + 1.
Proof. pose proof (Z.div_mod z 2 ltac:(lia)). pose proof (Z.mod_pos_bound z 2 ltac:(lia)). lia. Qed.

Definition crop_width (r : Rect) : Z := right r - left r + 1.
Definition crop_height (r : Rect) : Z := bottom r - top r + 1.

(** C18: with a zoom in its range the crop of a frame of more than two pixels
    each way is a rectangle inside the frame, not empty, centred (to one pixel)
    and a third of the frame each way or more, as whole pixels go ([w <= 3 *
    crop_width + 2]); without a zoom it is the frame. *)
Theorem zoom_crop_inside (zoom max w h : Z) :
  0 <= max -> 0 <= zoom <= max -> 2 < w -> 2 < h ->
  exists r, calculateCrop zoom max w h = Some r /\
    0 <= left r <= right r /\ right r < w /\ 0 <= top r <= bottom r /\ bottom r < h /\
    w <= 3 * crop_width r + 2 /\ h <= 3 * crop_height r + 2 /\
    -1 <= left r - (w - 1 - right r) <= 0 /\ -1 <= top r - (h - 1 - bottom r) <= 0 /\
    (zoom = 0 -> r = MkRect 0 0 (w - 1) (h - 1)).
Proof.
  intros Hm Hz Hw Hh. unfold calculateCrop. destruct (Z.eqb_spec max 0) as [->|Hne].
  { eexists. split; [done|]. unfold crop_width, crop_height. cbn. split_and!; try lia; done. }
  unfold c_div. replace (max =? 0) with false by lia. cbn [option_map mbind option_bind].
  pose proof (crop_ratio zoom max ltac:(lia) Hz) as Hr. set (ratio := Z.quot (zoom * 2 * 100) max + 100) in *.
  replace (ratio =? 0) with false by lia. cbn [mbind option_bind].
  pose proof (crop_size w ratio ltac:(lia) Hr) as [Hw1 Hw2]. pose proof (crop_size h ratio ltac:(lia) Hr) as [Hh1 Hh2].
  assert (Ez : zoom = 0 -> ratio = 100) by (intros ->; subst ratio; cbn [Z.mul]; rewrite Z.quot_0_l by lia; done).
  set (cw := Z.quot (w * 100) ratio) in *. set (ch := Z.quot (h * 100) ratio) in *.
  assert (Ecw : zoom = 0 -> cw = w) by (intros E; subst cw; rewrite (Ez E); by rewrite Z.quot_mul by lia).
  assert (Ech : zoom = 0 -> ch = h) by (intros E; subst ch; rewrite (Ez E); by rewrite Z.quot_mul by lia).
  clearbody cw ch. clear Ez Hr Hz. clearbody ratio.
  eexists. split; [done|]. unfold crop_width, crop_height. cbn [left top right bottom].
  rewrite !Z.quot_div_nonneg by lia.
  pose proof (half_bounds (w - cw)). pose proof (half_bounds (h - ch)). split_and!; try lia.
  intros E. rewrite (Ecw E), (Ech E), !Z.sub_diag. cbn. by rewrite !Z.add_0_l.
Qed.

(** ** formatToNV21: the chroma bytes trade places *)

Lemma length_swap_pairs b : length (swap_pairs b) = length b.
Proof.
  revert b. fix IH 1. intros [|x [|y b]]; [done..|]. cbn. by rewrite IH.
Qed.
Lemma lenZ_swap_pairs b : lenZ (swap_pairs b) = lenZ b.
Proof. unfold lenZ. by rewrite length_swap_pairs. Qed.
Lemma swap_pairs_app k a b : length a = (2 * k)%nat -> swap_pairs (a ++ b) = swap_pairs a ++ swap_pairs b.
Proof.
  revert a; induction k as [|k IH]; intros a Ha; [by destruct a|].
  destruct a as [|x [|y a]]; cbn in Ha; [lia..|]. cbn. f_equal. f_equal. apply IH. lia.
Qed.
Lemma swap_pairs_twice b : swap_pairs (swap_pairs b) = b.
Proof. revert b. fix IH 1. intros [|x [|y b]]; [done..|]. cbn. by rewrite IH. Qed.

(** [n] bytes from [from] with every pair turned. *)
Definition swapped (from n : Z) (m : bytes) : bytes := bblit from (swap_pairs (bslice from n m)) m.

Lemma lenZ_swapped from n m : 0 <= from -> 0 <= n -> from + n <= lenZ m -> lenZ (swapped from n m) = lenZ m.
Proof.
  intros. unfold swapped. apply lenZ_bblit; [done|]. rewrite lenZ_swap_pairs, lenZ_bslice; lia.
Qed.
Lemma frame_bblit_app from a b m :
  0 <= from -> from + lenZ a + lenZ b <= lenZ m ->
  bblit (from + lenZ a) b (bblit from a m) = bblit from (a ++ b) m.
Proof.
  intros Hf Hl. pose proof (lenZ_nonneg a). pose proof (lenZ_nonneg b).
  apply bget_ext.
  - rewrite !lenZ_bblit; rewrite ?lenZ_bblit, ?lenZ_app; lia.
  - intros o Ho. rewrite !lenZ_bblit in Ho by (rewrite ?lenZ_bblit; lia).
    rewrite !bget_blit by (rewrite ?lenZ_bblit, ?lenZ_app; lia). rewrite lenZ_app.
    unfold bget. destruct ((from + lenZ a <=? o) && (o <? from + lenZ a + lenZ b)) eqn:E1;
      destruct ((from <=? o) && (o <? from + lenZ a)) eqn:E2;
      destruct ((from <=? o) && (o <? from + (lenZ a + lenZ b))) eqn:E3; try lia; try done.
    + replace (o - (from + lenZ a) <? 0) with false by lia. replace (o - from <? 0) with false by lia.
      rewrite lookup_app_r by (unfold lenZ in *; lia). f_equal. unfold lenZ in *. lia.
    + replace (o - from <? 0) with false by lia. by rewrite lookup_app_l by (unfold lenZ in *; lia).
Qed.
Lemma frame_bslice_app off a b m :
  0 <= off -> 0 <= a -> 0 <= b -> off + a + b <= lenZ m ->
  bslice off (a + b) m = bslice off a m ++ bslice (off + a) b m.
Proof.
  intros. apply bget_ext; rewrite ?lenZ_app, !lenZ_bslice by lia; [lia|]. intros o Ho.
  rewrite bget_slice by lia. unfold bget. replace (off + o <? 0) with false by lia. replace (o <? 0) with false by lia.
  destruct (Z_lt_le_dec o a).
  - rewrite lookup_app_l by (pose proof (lenZ_bslice off a m); unfold lenZ in *; lia).
    pose proof (bget_slice off a m o ltac:(lia) ltac:(lia)) as E. unfold bget in E.
    replace (o <? 0) with false in E by lia. replace (off + o <? 0) with false in E by lia. done.
  - pose proof (lenZ_bslice off a m ltac:(lia) ltac:(lia) ltac:(lia)) as La.
    rewrite lookup_app_r by (unfold lenZ in *; lia).
    pose proof (bget_slice (off + a) b m (o - a) ltac:(lia) ltac:(lia)) as E. unfold bget in E.
    replace (o - a <? 0) with false in E by lia. replace (off + a + (o - a) <? 0) with false in E by lia.
    replace (Z.to_nat o - length (bslice off a m))%nat with (Z.to_nat (o - a)) by (unfold lenZ in La; lia).
    rewrite E. f_equal. lia.
Qed.

Lemma swapped_app from k n m :
  0 <= from -> 0 <= k -> 0 <= n -> from + 2 * k + n <= lenZ m ->
  swapped (from + 2 * k) n (swapped from (2 * k) m) = swapped from (2 * k + n) m.
Proof.
  intros. unfold swapped at 1. unfold swapped at 1.
  assert (Ls : lenZ (swap_pairs (bslice from (2 * k) m)) = 2 * k) by (rewrite lenZ_swap_pairs, lenZ_bslice; lia).
  rewrite bslice_bblit_after by lia. rewrite <- Ls at 1 2. unfold swapped.
  rewrite frame_bblit_app by (rewrite ?Ls, ?lenZ_swap_pairs, ?lenZ_bslice; lia). rewrite Ls.
  rewrite frame_bslice_app, (swap_pairs_app (Z.to_nat k)) by (pose proof (lenZ_bslice from (2 * k) m); unfold lenZ in *; lia).
  done.
Qed.
Lemma swapped_none from m : 0 <= from <= lenZ m -> swapped from 0 m = m.
Proof.
  intros. unfold swapped, bslice. change (Z.to_nat 0) with 0%nat. rewrite take_0. cbn. unfold bblit. cbn.
  rewrite Nat.add_0_r. apply take_drop.
Qed.

Lemma swap_turn_run k from m :
  0 <= from -> 0 <= k -> from + k <= lenZ m -> swap_turn k k from from m = Some (swapped from k m).
Proof.
  intros. unfold swap_turn. rewrite (proj2 (in_bounds_spec from k m)) by lia. cbn [andb].
  unfold swapped. by rewrite (bslice_all k) by (rewrite lenZ_swap_pairs, lenZ_bslice; lia).
Qed.

Lemma swap_loop_run kk fuel n from m :
  0 < kk -> 0 <= n -> (Z.to_nat n <= fuel)%nat -> 0 <= from -> from + n <= lenZ m ->
  let k := 2 * kk in let r := n mod k in
  swap_loop fuel k k k n from from m = Some (r, from + (n - r), from + (n - r), swapped from (n - r) m).
Proof.
  intros Hk. cbn zeta. set (k := 2 * kk). revert n from m.
  induction fuel as [|fuel IH]; intros n from m Hn Hf Hfrom Hl; cbn [swap_loop].
  - assert (n = 0) as -> by lia. rewrite Z.mod_0_l, Z.sub_0_r, Z.add_0_r, swapped_none by lia. done.
  - destruct (Z.ltb_spec n k) as [Hlt|Hge].
    + rewrite Z.mod_small, Z.sub_diag, Z.add_0_r, swapped_none by lia. done.
    + rewrite swap_turn_run by lia. cbn [mbind option_bind].
      rewrite IH by (rewrite ?lenZ_swapped; lia).
      assert (E : (n - k) mod k = n mod k) by (replace (n - k) with (n + -1 * k) by lia; apply Z.mod_add; lia).
      rewrite E. pose proof (Z.mod_pos_bound n k ltac:(lia)). pose proof (Z.mod_pos_bound (n - k) k ltac:(lia)).
      assert (n mod k <= n - k) by (rewrite <- E; apply Z.mod_le; lia).
      replace (from + k + (n - k - n mod k)) with (from + (n - n mod k)) by lia.
      subst k. rewrite swapped_app by lia. do 3 f_equal. lia.
Qed.

Lemma swap_row_run q from m :
  0 <= q -> 0 <= from -> from + 16 * q <= lenZ m ->
  swap_row (16 * q) from from m = Some (from + 16 * q, from + 16 * q, swapped from (16 * q) m).
Proof.
  intros Hq Hf Hl. unfold swap_row.
  rewrite (swap_loop_run 16) by lia. cbn [mbind option_bind Z.mul].
  pose proof (Z.mod_pos_bound (16 * q) (2 * 16) ltac:(lia)).
  pose proof (Z.mod_le (16 * q) (2 * 16) ltac:(lia) ltac:(lia)).
  set (r := (16 * q) mod (2 * 16)) in *.
  assert (E16 : r = 16 * (q mod 2)).
  { subst r. change (2 * 16) with (16 * 2). apply Z.mul_mod_distr_l; lia. }
  assert (Er : r mod 16 = 0) by (rewrite E16, Z.mul_comm; apply Z.mod_mul; lia).
  clearbody r. rewrite (swap_loop_run 8) by (rewrite ?lenZ_swapped; lia).
  cbn [mbind option_bind]. change (2 * 8) with 16. rewrite Er, Z.sub_0_r.
  replace (16 * q - r) with (2 * (8 * q - r / 2)) by (rewrite E16; pose proof (Z.div_mul (8 * (q mod 2)) 2); 
    replace (16 * (q mod 2)) with (8 * (q mod 2) * 2) by lia; rewrite Z.div_mul by lia; lia).
  assert (Eh : 2 * (r / 2) = r) by (rewrite E16; replace (16 * (q mod 2)) with (8 * (q mod 2) * 2) by lia; rewrite Z.div_mul; lia).
  rewrite swapped_app by lia.
  replace (2 * (8 * q - r / 2) + r) with (16 * q) by lia.
  replace (from + 2 * (8 * q - r / 2) + r) with (from + 16 * q) by lia.
  by destruct (Z.to_nat (16 * q)).
Qed.

Lemma chroma_rows_run n q from m :
  0 <= q -> 0 <= from -> from + 16 * q * Z.of_nat n <= lenZ m ->
  chroma_rows n (16 * q) 0 from from m = Some (swapped from (16 * q * Z.of_nat n) m).
Proof.
  intros Hq. revert from m; induction n as [|n IH]; intros from m Hf Hl.
  - cbn. rewrite Z.mul_0_r, swapped_none by lia. done.
  - rewrite Nat2Z.inj_succ, Z.mul_succ_r in *.
    assert (0 <= 16 * q * Z.of_nat n) by (apply Z.mul_nonneg_nonneg; lia).
    cbn [chroma_rows]. rewrite swap_row_run by lia. cbn [mbind option_bind]. rewrite Z.add_0_r.
    rewrite IH by (rewrite ?lenZ_swapped; lia).
    pose proof (swapped_app from (8 * q) (16 * q * Z.of_nat n) m ltac:(lia) ltac:(lia) ltac:(lia) ltac:(lia)) as E.
    replace (2 * (8 * q)) with (16 * q) in E by lia. rewrite E. do 2 f_equal. lia.
Qed.

Lemma copy_row_self from n m : 0 <= from -> 0 <= n -> from + n <= lenZ m -> copy_row m from from n m = Some m.
Proof.
  intros. unfold copy_row. rewrite !(proj2 (in_bounds_spec from n m)) by lia. cbn. f_equal.
  assert (Ls : lenZ (bslice from n m) = n) by (apply lenZ_bslice; lia).
  apply bget_ext; rewrite lenZ_bblit by lia; [done|]. intros o Ho. rewrite bget_blit, Ls by lia.
  case_test; [|done]. rewrite bget_slice by lia. f_equal. lia.
Qed.

Lemma luma_rows_run n w send dend from m :
  0 <= w -> 0 <= from -> from + w * Z.of_nat n <= lenZ m ->
  luma_rows n w w send dend from from m = Some m.
Proof.
  intros Hw. revert from; induction n as [|n IH]; intros from Hf Hl; [done|].
  rewrite Nat2Z.inj_succ, Z.mul_succ_r in Hl. assert (0 <= w * Z.of_nat n) by (apply Z.mul_nonneg_nonneg; lia).
  cbn [luma_rows]. rewrite copy_row_self by lia. cbn [mbind option_bind]. case_test; [done|]. apply IH; lia.
Qed.

(** C19: an NV12 preview frame whose width is a positive multiple of 16 becomes the NV21 frame of the same
    picture: the luma plane and what lies behind the frame are untouched, the two bytes of every chroma
    pair trade places; doing it twice gives the frame back. *)
Theorem nv12_to_nv21 (q hh len : Z) (m : bytes) :
  0 < q -> 0 <= hh -> 16 * q * (2 * hh) + 16 * q * hh <= lenZ m ->
  let w := 16 * q in
  let nv21 := formatToNV21 m w (2 * hh) w 0 len true in
  nv21 = Some (bslice 0 (w * (2 * hh)) m ++ swap_pairs (bslice (w * (2 * hh)) (w * hh) m) ++
               drop (Z.to_nat (w * (2 * hh) + w * hh)) m) /\
  (d ← nv21; formatToNV21 d w (2 * hh) w 0 len true) = Some m.
Proof.
  intros Hq Hh Hl. cbn zeta.
  assert (0 <= 16 * q * hh) by (apply Z.mul_nonneg_nonneg; lia).
  assert (0 <= 16 * q * (2 * hh)) by (apply Z.mul_nonneg_nonneg; lia).
  assert (E : forall b, lenZ b = lenZ m ->
    formatToNV21 b (16 * q) (2 * hh) (16 * q) 0 len true = Some (swapped (16 * q * (2 * hh)) (16 * q * hh) b)).
  { intros b Lb. unfold formatToNV21. cbn [negb]. replace (16 * q =? 0) with false by lia.
    rewrite luma_rows_run by (rewrite ?Z2Nat.id; lia). cbn [mbind option_bind].
    replace (16 * q * (2 * hh) + 16 * q / 2 * (0 / (16 * q)) + 0 mod (16 * q)) with (16 * q * (2 * hh))
      by (rewrite Zdiv_0_l, Zmod_0_l; lia).
    replace (2 * hh / 2) with hh by (rewrite Z.mul_comm; symmetry; by apply Z.div_mul).
    rewrite Z.sub_diag. change (2 * (u32 0 / 2)) with 0. rewrite chroma_rows_run by (rewrite ?Z2Nat.id; lia). by rewrite Z2Nat.id by lia. }
  rewrite (E m) by done. cbn [mbind option_bind]. rewrite E by (apply lenZ_swapped; lia).
  set (f := 16 * q * (2 * hh)) in *. set (n := 16 * q * hh) in *. clearbody f n. split; f_equal.
  - unfold swapped, bblit. rewrite length_swap_pairs. f_equal. f_equal. f_equal.
    pose proof (lenZ_bslice f n m ltac:(lia) ltac:(lia) ltac:(lia)) as L. unfold lenZ in L. lia.
  - assert (L : lenZ (swap_pairs (bslice f n m)) = n) by (rewrite lenZ_swap_pairs; apply lenZ_bslice; lia).
    unfold swapped. rewrite bslice_bblit_same, swap_pairs_twice by lia.
    assert (Lm : lenZ (bslice f n m) = n) by (apply lenZ_bslice; lia).
    apply bget_ext; rewrite !lenZ_bblit by (rewrite ?lenZ_bblit; lia); [done|]. intros o Ho.
    rewrite bget_blit, Lm by (rewrite ?lenZ_bblit; lia). case_test.
    + rewrite bget_slice by lia. f_equal. lia.
    + rewrite bget_blit, L by lia. by replace ((f <=? o) && (o <? f + n)) with false.
Qed.

(** ** Witnesses *)

(** A 4x2 frame in YUYV: the luma of column c of row r is 10 r + c, the colours 100 and up. *)
Definition demo_yuyv : bytes := [0; 100; 1; 200; 2; 101; 3; 201; 10; 110; 11; 210; 12; 111; 13; 211].

Lemma preview_frame_colours_witness :
  exists d, YUYVToNV21 demo_yuyv 4 2 (fill 128 12) = Some d /\
    d = [0; 1; 2; 3; 10; 11; 12; 13; 128; 101; 200; 128] /\ bget d (4 * (2 * 1) + 0 * 4 + 2) = Some 200.
Proof.
  destruct (preview_frame_colours 4 1 demo_yuyv (fill 128 12) ltac:(lia) ltac:(lia)
    ltac:(vm_compute; discriminate) ltac:(vm_compute; discriminate)) as (d & E & L & Hy & Hc).
  exists d. split; [exact E|]. split; [vm_compute in E; congruence|].
  rewrite (Hc 0 2 ltac:(lia) ltac:(lia)). reflexivity.
Defined.

Lemma preview_frame_scaled_witness :
  exists d, yuv420spDownScale (seqZ 0 24) 4 4 2 2 (fill 0 6) = Some (true, d) /\
    d = [0; 2; 8; 10; 16; 17] /\ bget d (1 * (2 * 1) + 1) = Some 10.
Proof.
  destruct (preview_frame_scaled 4 4 1 1 (seqZ 0 24) (fill 0 6) ltac:(lia) ltac:(lia) ltac:(lia) ltac:(lia)
    ltac:(vm_compute; discriminate) ltac:(vm_compute; discriminate)) as (d & E & L & Hy & Hc).
  exists d. split; [exact E|]. split; [vm_compute in E; congruence|].
  rewrite (Hy 1 1 ltac:(lia) ltac:(lia)). reflexivity.
Defined.

Lemma zoom_crop_inside_witness :
  calculateCrop 10 20 1280 720 = Some (MkRect 320 180 959 539) /\
  exists r, calculateCrop 10 20 1280 720 = Some r /\ 0 <= left r <= right r /\ right r < 1280.
Proof.
  split; [reflexivity|].
  destruct (zoom_crop_inside 10 20 1280 720 ltac:(lia) ltac:(lia) ltac:(lia) ltac:(lia)) as (r & E & Hl & Hr & _).
  exists r. split; [exact E|]. split; [exact Hl|exact Hr].
Defined.

Lemma nv12_to_nv21_witness :
  formatToNV21 (seqZ 0 48) 16 2 16 0 48 true = Some (seqZ 0 32 ++ swap_pairs (seqZ 32 16)).
Proof.
  destruct (nv12_to_nv21 1 1 48 (seqZ 0 48) ltac:(lia) ltac:(lia) ltac:(vm_compute; discriminate)) as [E _].
  cbn zeta in E. refine (eq_trans E _). reflexivity.
Defined.

(** A width that leaves 8 bytes at the end of a row: only two bytes of the frame have the right colour
    after it, and the rows behind it move out of place. *)
Lemma odd_width_loses_colour :
  formatToNV21 (seqZ 0 36) 24 1 24 0 36 true = Some (seqZ 0 36) /\
  option_map (drop 48) (formatToNV21 (seqZ 0 96) 24 2 24 0 96 true) =
    Some (swap_pairs (seqZ 48 16) ++ [65; 64] ++ seqZ 66 30).
Proof. split; reflexivity. Qed.
