(* ===== verification/CamEnv.v ===== *)
(** * camera: the data of the device and what is around it

    The types of [V4L2CameraDevice2.h], and what the device calls that is not in
    the repository: the V4L2 driver behind the descriptor ([V4l2Ops], one operation
    per ioctl, with [mmap] and [select]), and the rest of the system ([CamEnvOps]:
    the ION allocator and the memory of the frames, the clocks, the files, the
    video decoder).  The world is the pair of both, so that what one does leaves
    the other alone.  [CamClient] is the interface to the objects the device calls
    back.  Only fields that some code reads are kept. *)

From S2P Require Import Prelude CLib Os OsalQueue OsalTheorems CamPixel.

(** ** Constants *)

Definition NB_BUFFER : Z := 10.
Definition MAX_PICTURE_SIZE : Z := Z.shiftr (4608 * 3456 * 3) 1.
Definition STATISICS_CNT : Z := 60.
Definition MAX_NUM_OF_CAMERAS : Z := 2.
Definition OK : Z := 0.
Definition NO_ERROR : Z := 0.
Definition EINVAL : Z := 22.
Definition UNKNOWN_ERROR : Z := -2147483648.
Definition MAP_FAILED : Z := 4294967295.

Definition str_bytes (s : string) : bytes :=
  map (fun c => Z.of_N (Ascii.N_of_ascii c)) (String.list_ascii_of_string s).

(** [v4l2_fourcc]: the four characters, the first one lowest. *)
Definition fourcc (s : string) : Z := le_get (str_bytes s).
Definition V4L2_PIX_FMT_YUYV : Z := fourcc "YUYV".
Definition V4L2_PIX_FMT_MJPEG : Z := fourcc "MJPG".
Definition V4L2_PIX_FMT_H264 : Z := fourcc "H264".
Definition V4L2_PIX_FMT_NV12 : Z := fourcc "NV12".
Definition V4L2_PIX_FMT_NV21 : Z := fourcc "NV21".
Definition V4L2_PIX_FMT_YVU420 : Z := fourcc "YV12".
Definition V4L2_CAP_VIDEO_CAPTURE : Z := 1.
Definition V4L2_CAP_STREAMING : Z := 0x04000000.

Definition ALIGN_4K (x : Z) : Z := Z.land (x + 4095) (Z.lnot 4095).
Definition ALIGN_32B (x : Z) : Z := Z.land (x + 31) (Z.lnot 31).
Definition ALIGN_16B (x : Z) : Z := Z.land (x + 15) (Z.lnot 15).

(** ** Enumerations *)

Inductive TAKE_PICTURE_STATE :=
| TAKE_PICTURE_NULL
| TAKE_PICTURE_NORMAL
| TAKE_PICTURE_FAST
| TAKE_PICTURE_RECORD
| TAKE_PICTURE_CONTINUOUS
| TAKE_PICTURE_CONTINUOUS_FAST
| TAKE_PICTURE_SMART.
#[export] Instance TAKE_PICTURE_STATE_eq : EqDecision TAKE_PICTURE_STATE.
Proof. solve_decision. Defined.

Inductive CameraDeviceState := STATE_CONSTRUCTED | STATE_CONNECTED | STATE_STARTED.
#[export] Instance CameraDeviceState_eq : EqDecision CameraDeviceState.
Proof. solve_decision. Defined.

Inductive CaptureThreadState :=
| CAPTURE_STATE_NULL
| CAPTURE_STATE_PAUSED
| CAPTURE_STATE_STARTED
| CAPTURE_STATE_EXIT.
#[export] Instance CaptureThreadState_eq : EqDecision CaptureThreadState.
Proof. solve_decision. Defined.

(** The condition variables; one thread at most sleeps on each. *)
Inductive cond :=
| mCaptureCond | mPreviewCond | mPictureCond | mContinuousPictureCond | mSmartPictureCond | mConnectCond.
#[export] Instance cond_eq : EqDecision cond.
Proof. solve_decision. Defined.
Definition set_cond (c : cond) (b : bool) (f : cond -> bool) : cond -> bool :=
  fun c' => if decide (c' = c) then b else f c'.

(** ** Data *)

Record HALCameraInfo := HalInfo {
  device_name : bytes;
  device_id : Z;
  fast_picture_mode : bool;
  is_uvc : bool;
}.
Definition set_device_name v r := HalInfo v (device_id r) (fast_picture_mode r) (is_uvc r).
Definition set_device_id v r := HalInfo (device_name r) v (fast_picture_mode r) (is_uvc r).
Definition set_fast_picture_mode v r := HalInfo (device_name r) (device_id r) v (is_uvc r).
Definition set_is_uvc v r := HalInfo (device_name r) (device_id r) (fast_picture_mode r) v.

Record RECT_t := RectT {
  r_left : Z;
  r_top : Z;
  r_width : Z;
  r_height : Z;
}.
Definition set_r_left v r := RectT v (r_top r) (r_width r) (r_height r).
Definition set_r_top v r := RectT (r_left r) v (r_width r) (r_height r).
Definition set_r_width v r := RectT (r_left r) (r_top r) v (r_height r).
Definition set_r_height v r := RectT (r_left r) (r_top r) (r_width r) v.

(** A frame, as the threads hand it around (type_camera.h is not in the
    repository: these are the fields the code uses). *)
Record V4L2BUF_t := V4l2Buf {
  vb_addrPhyY : Z;
  vb_addrVirY : Z;
  vb_addrPhyC : Z;
  vb_addrVirC : Z;
  vb_width : Z;
  vb_height : Z;
  vb_index : Z;
  vb_timeStamp : Z;
  vb_crop_rect : RECT_t;
  vb_format : Z;
  vb_bytesused : Z;
  vb_isThumbAvailable : Z;
  vb_thumbUsedForPreview : Z;
  vb_thumbUsedForPhoto : Z;
  vb_thumbUsedForVideo : Z;
  vb_thumbAddrPhyY : Z;
  vb_thumbAddrVirY : Z;
  vb_thumbWidth : Z;
  vb_thumbHeight : Z;
  vb_thumb_crop_rect : RECT_t;
  vb_thumbFormat : Z;
  vb_refCnt : Z;
}.
Definition set_vb_addrPhyY v r := V4l2Buf v (vb_addrVirY r) (vb_addrPhyC r) (vb_addrVirC r) (vb_width r) (vb_height r) (vb_index r) (vb_timeStamp r) (vb_crop_rect r) (vb_format r) (vb_bytesused r) (vb_isThumbAvailable r) (vb_thumbUsedForPreview r) (vb_thumbUsedForPhoto r) (vb_thumbUsedForVideo r) (vb_thumbAddrPhyY r) (vb_thumbAddrVirY r) (vb_thumbWidth r) (vb_thumbHeight r) (vb_thumb_crop_rect r) (vb_thumbFormat r) (vb_refCnt r).
Definition set_vb_addrVirY v r := V4l2Buf (vb_addrPhyY r) v (vb_addrPhyC r) (vb_addrVirC r) (vb_width r) (vb_height r) (vb_index r) (vb_timeStamp r) (vb_crop_rect r) (vb_format r) (vb_bytesused r) (vb_isThumbAvailable r) (vb_thumbUsedForPreview r) (vb_thumbUsedForPhoto r) (vb_thumbUsedForVideo r) (vb_thumbAddrPhyY r) (vb_thumbAddrVirY r) (vb_thumbWidth r) (vb_thumbHeight r) (vb_thumb_crop_rect r) (vb_thumbFormat r) (vb_refCnt r).
Definition set_vb_addrPhyC v r := V4l2Buf (vb_addrPhyY r) (vb_addrVirY r) v (vb_addrVirC r) (vb_width r) (vb_height r) (vb_index r) (vb_timeStamp r) (vb_crop_rect r) (vb_format r) (vb_bytesused r) (vb_isThumbAvailable r) (vb_thumbUsedForPreview r) (vb_thumbUsedForPhoto r) (vb_thumbUsedForVideo r) (vb_thumbAddrPhyY r) (vb_thumbAddrVirY r) (vb_thumbWidth r) (vb_thumbHeight r) (vb_thumb_crop_rect r) (vb_thumbFormat r) (vb_refCnt r).
Definition set_vb_addrVirC v r := V4l2Buf (vb_addrPhyY r) (vb_addrVirY r) (vb_addrPhyC r) v (vb_width r) (vb_height r) (vb_index r) (vb_timeStamp r) (vb_crop_rect r) (vb_format r) (vb_bytesused r) (vb_isThumbAvailable r) (vb_thumbUsedForPreview r) (vb_thumbUsedForPhoto r) (vb_thumbUsedForVideo r) (vb_thumbAddrPhyY r) (vb_thumbAddrVirY r) (vb_thumbWidth r) (vb_thumbHeight r) (vb_thumb_crop_rect r) (vb_thumbFormat r) (vb_refCnt r).
Definition set_vb_width v r := V4l2Buf (vb_addrPhyY r) (vb_addrVirY r) (vb_addrPhyC r) (vb_addrVirC r) v (vb_height r) (vb_index r) (vb_timeStamp r) (vb_crop_rect r) (vb_format r) (vb_bytesused r) (vb_isThumbAvailable r) (vb_thumbUsedForPreview r) (vb_thumbUsedForPhoto r) (vb_thumbUsedForVideo r) (vb_thumbAddrPhyY r) (vb_thumbAddrVirY r) (vb_thumbWidth r) (vb_thumbHeight r) (vb_thumb_crop_rect r) (vb_thumbFormat r) (vb_refCnt r).
Definition set_vb_height v r := V4l2Buf (vb_addrPhyY r) (vb_addrVirY r) (vb_addrPhyC r) (vb_addrVirC r) (vb_width r) v (vb_index r) (vb_timeStamp r) (vb_crop_rect r) (vb_format r) (vb_bytesused r) (vb_isThumbAvailable r) (vb_thumbUsedForPreview r) (vb_thumbUsedForPhoto r) (vb_thumbUsedForVideo r) (vb_thumbAddrPhyY r) (vb_thumbAddrVirY r) (vb_thumbWidth r) (vb_thumbHeight r) (vb_thumb_crop_rect r) (vb_thumbFormat r) (vb_refCnt r).
Definition set_vb_index v r := V4l2Buf (vb_addrPhyY r) (vb_addrVirY r) (vb_addrPhyC r) (vb_addrVirC r) (vb_width r) (vb_height r) v (vb_timeStamp r) (vb_crop_rect r) (vb_format r) (vb_bytesused r) (vb_isThumbAvailable r) (vb_thumbUsedForPreview r) (vb_thumbUsedForPhoto r) (vb_thumbUsedForVideo r) (vb_thumbAddrPhyY r) (vb_thumbAddrVirY r) (vb_thumbWidth r) (vb_thumbHeight r) (vb_thumb_crop_rect r) (vb_thumbFormat r) (vb_refCnt r).
Definition set_vb_timeStamp v r := V4l2Buf (vb_addrPhyY r) (vb_addrVirY r) (vb_addrPhyC r) (vb_addrVirC r) (vb_width r) (vb_height r) (vb_index r) v (vb_crop_rect r) (vb_format r) (vb_bytesused r) (vb_isThumbAvailable r) (vb_thumbUsedForPreview r) (vb_thumbUsedForPhoto r) (vb_thumbUsedForVideo r) (vb_thumbAddrPhyY r) (vb_thumbAddrVirY r) (vb_thumbWidth r) (vb_thumbHeight r) (vb_thumb_crop_rect r) (vb_thumbFormat r) (vb_refCnt r).
Definition set_vb_crop_rect v r := V4l2Buf (vb_addrPhyY r) (vb_addrVirY r) (vb_addrPhyC r) (vb_addrVirC r) (vb_width r) (vb_height r) (vb_index r) (vb_timeStamp r) v (vb_format r) (vb_bytesused r) (vb_isThumbAvailable r) (vb_thumbUsedForPreview r) (vb_thumbUsedForPhoto r) (vb_thumbUsedForVideo r) (vb_thumbAddrPhyY r) (vb_thumbAddrVirY r) (vb_thumbWidth r) (vb_thumbHeight r) (vb_thumb_crop_rect r) (vb_thumbFormat r) (vb_refCnt r).
Definition set_vb_format v r := V4l2Buf (vb_addrPhyY r) (vb_addrVirY r) (vb_addrPhyC r) (vb_addrVirC r) (vb_width r) (vb_height r) (vb_index r) (vb_timeStamp r) (vb_crop_rect r) v (vb_bytesused r) (vb_isThumbAvailable r) (vb_thumbUsedForPreview r) (vb_thumbUsedForPhoto r) (vb_thumbUsedForVideo r) (vb_thumbAddrPhyY r) (vb_thumbAddrVirY r) (vb_thumbWidth r) (vb_thumbHeight r) (vb_thumb_crop_rect r) (vb_thumbFormat r) (vb_refCnt r).
Definition set_vb_bytesused v r := V4l2Buf (vb_addrPhyY r) (vb_addrVirY r) (vb_addrPhyC r) (vb_addrVirC r) (vb_width r) (vb_height r) (vb_index r) (vb_timeStamp r) (vb_crop_rect r) (vb_format r) v (vb_isThumbAvailable r) (vb_thumbUsedForPreview r) (vb_thumbUsedForPhoto r) (vb_thumbUsedForVideo r) (vb_thumbAddrPhyY r) (vb_thumbAddrVirY r) (vb_thumbWidth r) (vb_thumbHeight r) (vb_thumb_crop_rect r) (vb_thumbFormat r) (vb_refCnt r).
Definition set_vb_isThumbAvailable v r := V4l2Buf (vb_addrPhyY r) (vb_addrVirY r) (vb_addrPhyC r) (vb_addrVirC r) (vb_width r) (vb_height r) (vb_index r) (vb_timeStamp r) (vb_crop_rect r) (vb_format r) (vb_bytesused r) v (vb_thumbUsedForPreview r) (vb_thumbUsedForPhoto r) (vb_thumbUsedForVideo r) (vb_thumbAddrPhyY r) (vb_thumbAddrVirY r) (vb_thumbWidth r) (vb_thumbHeight r) (vb_thumb_crop_rect r) (vb_thumbFormat r) (vb_refCnt r).
Definition set_vb_thumbUsedForPreview v r := V4l2Buf (vb_addrPhyY r) (vb_addrVirY r) (vb_addrPhyC r) (vb_addrVirC r) (vb_width r) (vb_height r) (vb_index r) (vb_timeStamp r) (vb_crop_rect r) (vb_format r) (vb_bytesused r) (vb_isThumbAvailable r) v (vb_thumbUsedForPhoto r) (vb_thumbUsedForVideo r) (vb_thumbAddrPhyY r) (vb_thumbAddrVirY r) (vb_thumbWidth r) (vb_thumbHeight r) (vb_thumb_crop_rect r) (vb_thumbFormat r) (vb_refCnt r).
Definition set_vb_thumbUsedForPhoto v r := V4l2Buf (vb_addrPhyY r) (vb_addrVirY r) (vb_addrPhyC r) (vb_addrVirC r) (vb_width r) (vb_height r) (vb_index r) (vb_timeStamp r) (vb_crop_rect r) (vb_format r) (vb_bytesused r) (vb_isThumbAvailable r) (vb_thumbUsedForPreview r) v (vb_thumbUsedForVideo r) (vb_thumbAddrPhyY r) (vb_thumbAddrVirY r) (vb_thumbWidth r) (vb_thumbHeight r) (vb_thumb_crop_rect r) (vb_thumbFormat r) (vb_refCnt r).
Definition set_vb_thumbUsedForVideo v r := V4l2Buf (vb_addrPhyY r) (vb_addrVirY r) (vb_addrPhyC r) (vb_addrVirC r) (vb_width r) (vb_height r) (vb_index r) (vb_timeStamp r) (vb_crop_rect r) (vb_format r) (vb_bytesused r) (vb_isThumbAvailable r) (vb_thumbUsedForPreview r) (vb_thumbUsedForPhoto r) v (vb_thumbAddrPhyY r) (vb_thumbAddrVirY r) (vb_thumbWidth r) (vb_thumbHeight r) (vb_thumb_crop_rect r) (vb_thumbFormat r) (vb_refCnt r).
Definition set_vb_thumbAddrPhyY v r := V4l2Buf (vb_addrPhyY r) (vb_addrVirY r) (vb_addrPhyC r) (vb_addrVirC r) (vb_width r) (vb_height r) (vb_index r) (vb_timeStamp r) (vb_crop_rect r) (vb_format r) (vb_bytesused r) (vb_isThumbAvailable r) (vb_thumbUsedForPreview r) (vb_thumbUsedForPhoto r) (vb_thumbUsedForVideo r) v (vb_thumbAddrVirY r) (vb_thumbWidth r) (vb_thumbHeight r) (vb_thumb_crop_rect r) (vb_thumbFormat r) (vb_refCnt r).
Definition set_vb_thumbAddrVirY v r := V4l2Buf (vb_addrPhyY r) (vb_addrVirY r) (vb_addrPhyC r) (vb_addrVirC r) (vb_width r) (vb_height r) (vb_index r) (vb_timeStamp r) (vb_crop_rect r) (vb_format r) (vb_bytesused r) (vb_isThumbAvailable r) (vb_thumbUsedForPreview r) (vb_thumbUsedForPhoto r) (vb_thumbUsedForVideo r) (vb_thumbAddrPhyY r) v (vb_thumbWidth r) (vb_thumbHeight r) (vb_thumb_crop_rect r) (vb_thumbFormat r) (vb_refCnt r).
Definition set_vb_thumbWidth v r := V4l2Buf (vb_addrPhyY r) (vb_addrVirY r) (vb_addrPhyC r) (vb_addrVirC r) (vb_width r) (vb_height r) (vb_index r) (vb_timeStamp r) (vb_crop_rect r) (vb_format r) (vb_bytesused r) (vb_isThumbAvailable r) (vb_thumbUsedForPreview r) (vb_thumbUsedForPhoto r) (vb_thumbUsedForVideo r) (vb_thumbAddrPhyY r) (vb_thumbAddrVirY r) v (vb_thumbHeight r) (vb_thumb_crop_rect r) (vb_thumbFormat r) (vb_refCnt r).
Definition set_vb_thumbHeight v r := V4l2Buf (vb_addrPhyY r) (vb_addrVirY r) (vb_addrPhyC r) (vb_addrVirC r) (vb_width r) (vb_height r) (vb_index r) (vb_timeStamp r) (vb_crop_rect r) (vb_format r) (vb_bytesused r) (vb_isThumbAvailable r) (vb_thumbUsedForPreview r) (vb_thumbUsedForPhoto r) (vb_thumbUsedForVideo r) (vb_thumbAddrPhyY r) (vb_thumbAddrVirY r) (vb_thumbWidth r) v (vb_thumb_crop_rect r) (vb_thumbFormat r) (vb_refCnt r).
Definition set_vb_thumb_crop_rect v r := V4l2Buf (vb_addrPhyY r) (vb_addrVirY r) (vb_addrPhyC r) (vb_addrVirC r) (vb_width r) (vb_height r) (vb_index r) (vb_timeStamp r) (vb_crop_rect r) (vb_format r) (vb_bytesused r) (vb_isThumbAvailable r) (vb_thumbUsedForPreview r) (vb_thumbUsedForPhoto r) (vb_thumbUsedForVideo r) (vb_thumbAddrPhyY r) (vb_thumbAddrVirY r) (vb_thumbWidth r) (vb_thumbHeight r) v (vb_thumbFormat r) (vb_refCnt r).
Definition set_vb_thumbFormat v r := V4l2Buf (vb_addrPhyY r) (vb_addrVirY r) (vb_addrPhyC r) (vb_addrVirC r) (vb_width r) (vb_height r) (vb_index r) (vb_timeStamp r) (vb_crop_rect r) (vb_format r) (vb_bytesused r) (vb_isThumbAvailable r) (vb_thumbUsedForPreview r) (vb_thumbUsedForPhoto r) (vb_thumbUsedForVideo r) (vb_thumbAddrPhyY r) (vb_thumbAddrVirY r) (vb_thumbWidth r) (vb_thumbHeight r) (vb_thumb_crop_rect r) v (vb_refCnt r).
Definition set_vb_refCnt v r := V4l2Buf (vb_addrPhyY r) (vb_addrVirY r) (vb_addrPhyC r) (vb_addrVirC r) (vb_width r) (vb_height r) (vb_index r) (vb_timeStamp r) (vb_crop_rect r) (vb_format r) (vb_bytesused r) (vb_isThumbAvailable r) (vb_thumbUsedForPreview r) (vb_thumbUsedForPhoto r) (vb_thumbUsedForVideo r) (vb_thumbAddrPhyY r) (vb_thumbAddrVirY r) (vb_thumbWidth r) (vb_thumbHeight r) (vb_thumb_crop_rect r) (vb_thumbFormat r) v.

(** [memset (.., 0, ..)]. *)
Definition buf_zero : V4L2BUF_t :=
  V4l2Buf 0 0 0 0 0 0 0 0 (RectT 0 0 0 0) 0 0 0 0 0 0 0 0 0 0 (RectT 0 0 0 0) 0 0.

(** A pointer to a frame: a slot of [mV4l2buf], or [mPicBuffer]. *)
Inductive bufptr := PBuf (i : Z) | PPic.
#[export] Instance bufptr_eq : EqDecision bufptr.
Proof. solve_decision. Defined.

(** What the driver fills in. *)
Record v4l2_buffer := V4l2Buffer { b_index : Z; b_bytesused : Z; b_offset : Z; b_reserved : Z }.
Record v4l2_capability := V4l2Cap { cap_driver : bytes; cap_card : bytes; capabilities : Z }.
Record v4l2_format := V4l2Fmt { f_width : Z; f_height : Z; f_pixelformat : Z; f_sub : option (Z * Z * Z) }.

(** [VideoStreamInfo] and [VideoStreamDataInfo], as far as they are used. *)
Record VideoStreamInfo := VideoInfo { vi_mjpeg : bool; vi_width : Z; vi_height : Z; vi_rate : Z; vi_duration : Z }.

(** ** The members of [V4L2CameraDevice] *)

(** What was opened and asked for. *)
Record cam_cfg := CamCfg {
  mHalCameraInfo : HALCameraInfo;
  mCameraFd : Z;
  mIsUsbCamera : bool;
  mFrameRate : Z;
  mUseHwEncoder : bool;
  mFrameWidth : Z;
  mFrameHeight : Z;
  mThumbWidth : Z;
  mThumbHeight : Z;
  mCaptureFormat : Z;
  mVideoFormat : Z;
  mVideoHint : bool;
  mIsThumbUsedForVideo : bool;
  mVideoWidth : Z;
  mVideoHeight : Z;
  mDecoder : Z;
  mVideoInfo : VideoStreamInfo;
}.
Definition set_mHalCameraInfo v r := CamCfg v (mCameraFd r) (mIsUsbCamera r) (mFrameRate r) (mUseHwEncoder r) (mFrameWidth r) (mFrameHeight r) (mThumbWidth r) (mThumbHeight r) (mCaptureFormat r) (mVideoFormat r) (mVideoHint r) (mIsThumbUsedForVideo r) (mVideoWidth r) (mVideoHeight r) (mDecoder r) (mVideoInfo r).
Definition set_mCameraFd v r := CamCfg (mHalCameraInfo r) v (mIsUsbCamera r) (mFrameRate r) (mUseHwEncoder r) (mFrameWidth r) (mFrameHeight r) (mThumbWidth r) (mThumbHeight r) (mCaptureFormat r) (mVideoFormat r) (mVideoHint r) (mIsThumbUsedForVideo r) (mVideoWidth r) (mVideoHeight r) (mDecoder r) (mVideoInfo r).
Definition set_mIsUsbCamera v r := CamCfg (mHalCameraInfo r) (mCameraFd r) v (mFrameRate r) (mUseHwEncoder r) (mFrameWidth r) (mFrameHeight r) (mThumbWidth r) (mThumbHeight r) (mCaptureFormat r) (mVideoFormat r) (mVideoHint r) (mIsThumbUsedForVideo r) (mVideoWidth r) (mVideoHeight r) (mDecoder r) (mVideoInfo r).
Definition set_mFrameRate v r := CamCfg (mHalCameraInfo r) (mCameraFd r) (mIsUsbCamera r) v (mUseHwEncoder r) (mFrameWidth r) (mFrameHeight r) (mThumbWidth r) (mThumbHeight r) (mCaptureFormat r) (mVideoFormat r) (mVideoHint r) (mIsThumbUsedForVideo r) (mVideoWidth r) (mVideoHeight r) (mDecoder r) (mVideoInfo r).
Definition set_mUseHwEncoder v r := CamCfg (mHalCameraInfo r) (mCameraFd r) (mIsUsbCamera r) (mFrameRate r) v (mFrameWidth r) (mFrameHeight r) (mThumbWidth r) (mThumbHeight r) (mCaptureFormat r) (mVideoFormat r) (mVideoHint r) (mIsThumbUsedForVideo r) (mVideoWidth r) (mVideoHeight r) (mDecoder r) (mVideoInfo r).
Definition set_mFrameWidth v r := CamCfg (mHalCameraInfo r) (mCameraFd r) (mIsUsbCamera r) (mFrameRate r) (mUseHwEncoder r) v (mFrameHeight r) (mThumbWidth r) (mThumbHeight r) (mCaptureFormat r) (mVideoFormat r) (mVideoHint r) (mIsThumbUsedForVideo r) (mVideoWidth r) (mVideoHeight r) (mDecoder r) (mVideoInfo r).
Definition set_mFrameHeight v r := CamCfg (mHalCameraInfo r) (mCameraFd r) (mIsUsbCamera r) (mFrameRate r) (mUseHwEncoder r) (mFrameWidth r) v (mThumbWidth r) (mThumbHeight r) (mCaptureFormat r) (mVideoFormat r) (mVideoHint r) (mIsThumbUsedForVideo r) (mVideoWidth r) (mVideoHeight r) (mDecoder r) (mVideoInfo r).
Definition set_mThumbWidth v r := CamCfg (mHalCameraInfo r) (mCameraFd r) (mIsUsbCamera r) (mFrameRate r) (mUseHwEncoder r) (mFrameWidth r) (mFrameHeight r) v (mThumbHeight r) (mCaptureFormat r) (mVideoFormat r) (mVideoHint r) (mIsThumbUsedForVideo r) (mVideoWidth r) (mVideoHeight r) (mDecoder r) (mVideoInfo r).
Definition set_mThumbHeight v r := CamCfg (mHalCameraInfo r) (mCameraFd r) (mIsUsbCamera r) (mFrameRate r) (mUseHwEncoder r) (mFrameWidth r) (mFrameHeight r) (mThumbWidth r) v (mCaptureFormat r) (mVideoFormat r) (mVideoHint r) (mIsThumbUsedForVideo r) (mVideoWidth r) (mVideoHeight r) (mDecoder r) (mVideoInfo r).
Definition set_mCaptureFormat v r := CamCfg (mHalCameraInfo r) (mCameraFd r) (mIsUsbCamera r) (mFrameRate r) (mUseHwEncoder r) (mFrameWidth r) (mFrameHeight r) (mThumbWidth r) (mThumbHeight r) v (mVideoFormat r) (mVideoHint r) (mIsThumbUsedForVideo r) (mVideoWidth r) (mVideoHeight r) (mDecoder r) (mVideoInfo r).
Definition set_mVideoFormat v r := CamCfg (mHalCameraInfo r) (mCameraFd r) (mIsUsbCamera r) (mFrameRate r) (mUseHwEncoder r) (mFrameWidth r) (mFrameHeight r) (mThumbWidth r) (mThumbHeight r) (mCaptureFormat r) v (mVideoHint r) (mIsThumbUsedForVideo r) (mVideoWidth r) (mVideoHeight r) (mDecoder r) (mVideoInfo r).
Definition set_mVideoHint v r := CamCfg (mHalCameraInfo r) (mCameraFd r) (mIsUsbCamera r) (mFrameRate r) (mUseHwEncoder r) (mFrameWidth r) (mFrameHeight r) (mThumbWidth r) (mThumbHeight r) (mCaptureFormat r) (mVideoFormat r) v (mIsThumbUsedForVideo r) (mVideoWidth r) (mVideoHeight r) (mDecoder r) (mVideoInfo r).
Definition set_mIsThumbUsedForVideo v r := CamCfg (mHalCameraInfo r) (mCameraFd r) (mIsUsbCamera r) (mFrameRate r) (mUseHwEncoder r) (mFrameWidth r) (mFrameHeight r) (mThumbWidth r) (mThumbHeight r) (mCaptureFormat r) (mVideoFormat r) (mVideoHint r) v (mVideoWidth r) (mVideoHeight r) (mDecoder r) (mVideoInfo r).
Definition set_mVideoWidth v r := CamCfg (mHalCameraInfo r) (mCameraFd r) (mIsUsbCamera r) (mFrameRate r) (mUseHwEncoder r) (mFrameWidth r) (mFrameHeight r) (mThumbWidth r) (mThumbHeight r) (mCaptureFormat r) (mVideoFormat r) (mVideoHint r) (mIsThumbUsedForVideo r) v (mVideoHeight r) (mDecoder r) (mVideoInfo r).
Definition set_mVideoHeight v r := CamCfg (mHalCameraInfo r) (mCameraFd r) (mIsUsbCamera r) (mFrameRate r) (mUseHwEncoder r) (mFrameWidth r) (mFrameHeight r) (mThumbWidth r) (mThumbHeight r) (mCaptureFormat r) (mVideoFormat r) (mVideoHint r) (mIsThumbUsedForVideo r) (mVideoWidth r) v (mDecoder r) (mVideoInfo r).
Definition set_mDecoder v r := CamCfg (mHalCameraInfo r) (mCameraFd r) (mIsUsbCamera r) (mFrameRate r) (mUseHwEncoder r) (mFrameWidth r) (mFrameHeight r) (mThumbWidth r) (mThumbHeight r) (mCaptureFormat r) (mVideoFormat r) (mVideoHint r) (mIsThumbUsedForVideo r) (mVideoWidth r) (mVideoHeight r) v (mVideoInfo r).
Definition set_mVideoInfo v r := CamCfg (mHalCameraInfo r) (mCameraFd r) (mIsUsbCamera r) (mFrameRate r) (mUseHwEncoder r) (mFrameWidth r) (mFrameHeight r) (mThumbWidth r) (mThumbHeight r) (mCaptureFormat r) (mVideoFormat r) (mVideoHint r) (mIsThumbUsedForVideo r) (mVideoWidth r) (mVideoHeight r) (mDecoder r) v.

Record cam_zoom := CamZoom {
  mNewZoom : Z;
  mLastZoom : Z;
  mMaxZoom : Z;
  mRectCrop : Rect;
  mThumbRectCrop : Rect;
}.
Definition set_mNewZoom v r := CamZoom v (mLastZoom r) (mMaxZoom r) (mRectCrop r) (mThumbRectCrop r).
Definition set_mLastZoom v r := CamZoom (mNewZoom r) v (mMaxZoom r) (mRectCrop r) (mThumbRectCrop r).
Definition set_mMaxZoom v r := CamZoom (mNewZoom r) (mLastZoom r) v (mRectCrop r) (mThumbRectCrop r).
Definition set_mRectCrop v r := CamZoom (mNewZoom r) (mLastZoom r) (mMaxZoom r) v (mThumbRectCrop r).
Definition set_mThumbRectCrop v r := CamZoom (mNewZoom r) (mLastZoom r) (mMaxZoom r) (mRectCrop r) v.

(** The memory of the frames. *)
Record cam_mem := CamMem {
  map_mem : list Z;  (* mMapMem.mem *)
  map_length : Z;  (* mMapMem.length *)
  buf_vir_addr : list Z;  (* mVideoBuffer *)
  buf_phy_addr : list Z;
  mBufferCnt : Z;
  mV4l2buf : list V4L2BUF_t;
  mPicBuffer : V4L2BUF_t;
  mCurAvailBufferCnt : Z;
  mCurrentV4l2buf : option Z;
}.
Definition set_map_mem v r := CamMem v (map_length r) (buf_vir_addr r) (buf_phy_addr r) (mBufferCnt r) (mV4l2buf r) (mPicBuffer r) (mCurAvailBufferCnt r) (mCurrentV4l2buf r).
Definition set_map_length v r := CamMem (map_mem r) v (buf_vir_addr r) (buf_phy_addr r) (mBufferCnt r) (mV4l2buf r) (mPicBuffer r) (mCurAvailBufferCnt r) (mCurrentV4l2buf r).
Definition set_buf_vir_addr v r := CamMem (map_mem r) (map_length r) v (buf_phy_addr r) (mBufferCnt r) (mV4l2buf r) (mPicBuffer r) (mCurAvailBufferCnt r) (mCurrentV4l2buf r).
Definition set_buf_phy_addr v r := CamMem (map_mem r) (map_length r) (buf_vir_addr r) v (mBufferCnt r) (mV4l2buf r) (mPicBuffer r) (mCurAvailBufferCnt r) (mCurrentV4l2buf r).
Definition set_mBufferCnt v r := CamMem (map_mem r) (map_length r) (buf_vir_addr r) (buf_phy_addr r) v (mV4l2buf r) (mPicBuffer r) (mCurAvailBufferCnt r) (mCurrentV4l2buf r).
Definition set_mV4l2buf v r := CamMem (map_mem r) (map_length r) (buf_vir_addr r) (buf_phy_addr r) (mBufferCnt r) v (mPicBuffer r) (mCurAvailBufferCnt r) (mCurrentV4l2buf r).
Definition set_mPicBuffer v r := CamMem (map_mem r) (map_length r) (buf_vir_addr r) (buf_phy_addr r) (mBufferCnt r) (mV4l2buf r) v (mCurAvailBufferCnt r) (mCurrentV4l2buf r).
Definition set_mCurAvailBufferCnt v r := CamMem (map_mem r) (map_length r) (buf_vir_addr r) (buf_phy_addr r) (mBufferCnt r) (mV4l2buf r) (mPicBuffer r) v (mCurrentV4l2buf r).
Definition set_mCurrentV4l2buf v r := CamMem (map_mem r) (map_length r) (buf_vir_addr r) (buf_phy_addr r) (mBufferCnt r) (mV4l2buf r) (mPicBuffer r) (mCurAvailBufferCnt r) v.

(** Taking pictures. *)
Record cam_pic := CamPic {
  mTakePictureState : TAKE_PICTURE_STATE;
  mIsPicCopy : bool;
  mContinuousPictureStarted : bool;
  mContinuousPictureCnt : Z;
  mContinuousPictureMax : Z;
  mContinuousPictureStartTime : Z;
  mSmartPictureDone : bool;
  mContinuousPictureLast : Z;
  mContinuousPictureAfter : Z;
  mFaceDectectLast : Z;
  mFaceDectectAfter : Z;
  mPreviewLast : Z;
  mPreviewAfter : Z;
}.
Definition set_mTakePictureState v r := CamPic v (mIsPicCopy r) (mContinuousPictureStarted r) (mContinuousPictureCnt r) (mContinuousPictureMax r) (mContinuousPictureStartTime r) (mSmartPictureDone r) (mContinuousPictureLast r) (mContinuousPictureAfter r) (mFaceDectectLast r) (mFaceDectectAfter r) (mPreviewLast r) (mPreviewAfter r).
Definition set_mIsPicCopy v r := CamPic (mTakePictureState r) v (mContinuousPictureStarted r) (mContinuousPictureCnt r) (mContinuousPictureMax r) (mContinuousPictureStartTime r) (mSmartPictureDone r) (mContinuousPictureLast r) (mContinuousPictureAfter r) (mFaceDectectLast r) (mFaceDectectAfter r) (mPreviewLast r) (mPreviewAfter r).
Definition set_mContinuousPictureStarted v r := CamPic (mTakePictureState r) (mIsPicCopy r) v (mContinuousPictureCnt r) (mContinuousPictureMax r) (mContinuousPictureStartTime r) (mSmartPictureDone r) (mContinuousPictureLast r) (mContinuousPictureAfter r) (mFaceDectectLast r) (mFaceDectectAfter r) (mPreviewLast r) (mPreviewAfter r).
Definition set_mContinuousPictureCnt v r := CamPic (mTakePictureState r) (mIsPicCopy r) (mContinuousPictureStarted r) v (mContinuousPictureMax r) (mContinuousPictureStartTime r) (mSmartPictureDone r) (mContinuousPictureLast r) (mContinuousPictureAfter r) (mFaceDectectLast r) (mFaceDectectAfter r) (mPreviewLast r) (mPreviewAfter r).
Definition set_mContinuousPictureMax v r := CamPic (mTakePictureState r) (mIsPicCopy r) (mContinuousPictureStarted r) (mContinuousPictureCnt r) v (mContinuousPictureStartTime r) (mSmartPictureDone r) (mContinuousPictureLast r) (mContinuousPictureAfter r) (mFaceDectectLast r) (mFaceDectectAfter r) (mPreviewLast r) (mPreviewAfter r).
Definition set_mContinuousPictureStartTime v r := CamPic (mTakePictureState r) (mIsPicCopy r) (mContinuousPictureStarted r) (mContinuousPictureCnt r) (mContinuousPictureMax r) v (mSmartPictureDone r) (mContinuousPictureLast r) (mContinuousPictureAfter r) (mFaceDectectLast r) (mFaceDectectAfter r) (mPreviewLast r) (mPreviewAfter r).
Definition set_mSmartPictureDone v r := CamPic (mTakePictureState r) (mIsPicCopy r) (mContinuousPictureStarted r) (mContinuousPictureCnt r) (mContinuousPictureMax r) (mContinuousPictureStartTime r) v (mContinuousPictureLast r) (mContinuousPictureAfter r) (mFaceDectectLast r) (mFaceDectectAfter r) (mPreviewLast r) (mPreviewAfter r).
Definition set_mContinuousPictureLast v r := CamPic (mTakePictureState r) (mIsPicCopy r) (mContinuousPictureStarted r) (mContinuousPictureCnt r) (mContinuousPictureMax r) (mContinuousPictureStartTime r) (mSmartPictureDone r) v (mContinuousPictureAfter r) (mFaceDectectLast r) (mFaceDectectAfter r) (mPreviewLast r) (mPreviewAfter r).
Definition set_mContinuousPictureAfter v r := CamPic (mTakePictureState r) (mIsPicCopy r) (mContinuousPictureStarted r) (mContinuousPictureCnt r) (mContinuousPictureMax r) (mContinuousPictureStartTime r) (mSmartPictureDone r) (mContinuousPictureLast r) v (mFaceDectectLast r) (mFaceDectectAfter r) (mPreviewLast r) (mPreviewAfter r).
Definition set_mFaceDectectLast v r := CamPic (mTakePictureState r) (mIsPicCopy r) (mContinuousPictureStarted r) (mContinuousPictureCnt r) (mContinuousPictureMax r) (mContinuousPictureStartTime r) (mSmartPictureDone r) (mContinuousPictureLast r) (mContinuousPictureAfter r) v (mFaceDectectAfter r) (mPreviewLast r) (mPreviewAfter r).
Definition set_mFaceDectectAfter v r := CamPic (mTakePictureState r) (mIsPicCopy r) (mContinuousPictureStarted r) (mContinuousPictureCnt r) (mContinuousPictureMax r) (mContinuousPictureStartTime r) (mSmartPictureDone r) (mContinuousPictureLast r) (mContinuousPictureAfter r) (mFaceDectectLast r) v (mPreviewLast r) (mPreviewAfter r).
Definition set_mPreviewLast v r := CamPic (mTakePictureState r) (mIsPicCopy r) (mContinuousPictureStarted r) (mContinuousPictureCnt r) (mContinuousPictureMax r) (mContinuousPictureStartTime r) (mSmartPictureDone r) (mContinuousPictureLast r) (mContinuousPictureAfter r) (mFaceDectectLast r) (mFaceDectectAfter r) v (mPreviewAfter r).
Definition set_mPreviewAfter v r := CamPic (mTakePictureState r) (mIsPicCopy r) (mContinuousPictureStarted r) (mContinuousPictureCnt r) (mContinuousPictureMax r) (mContinuousPictureStartTime r) (mSmartPictureDone r) (mContinuousPictureLast r) (mContinuousPictureAfter r) (mFaceDectectLast r) (mFaceDectectAfter r) (mPreviewLast r) v.

(** Dropping frames of the preview. *)
Record cam_rate := CamRate {
  mNeedHalfFrameRate : bool;
  mStatisicsIndex : Z;
  mShouldPreview : bool;
}.
Definition set_mNeedHalfFrameRate v r := CamRate v (mStatisicsIndex r) (mShouldPreview r).
Definition set_mStatisicsIndex v r := CamRate (mNeedHalfFrameRate r) v (mShouldPreview r).
Definition set_mShouldPreview v r := CamRate (mNeedHalfFrameRate r) (mStatisicsIndex r) v.

(** What the threads share: the states, the queues (as the FIFOs of
    [queues_are_fifos]), the condition variables and the object lock. *)
Record cam_sync := CamSync {
  mCameraDeviceState : CameraDeviceState;
  mCaptureThreadState : CaptureThreadState;
  mCanBeDisconnected : bool;
  mQueueBufferPreview : list bufptr;
  mQueueBufferPicture : list bufptr;
  asleep : cond -> bool;  (* a thread waits on it *)
  mObjectLock : bool;
}.
Definition set_mCameraDeviceState v r := CamSync v (mCaptureThreadState r) (mCanBeDisconnected r) (mQueueBufferPreview r) (mQueueBufferPicture r) (asleep r) (mObjectLock r).
Definition set_mCaptureThreadState v r := CamSync (mCameraDeviceState r) v (mCanBeDisconnected r) (mQueueBufferPreview r) (mQueueBufferPicture r) (asleep r) (mObjectLock r).
Definition set_mCanBeDisconnected v r := CamSync (mCameraDeviceState r) (mCaptureThreadState r) v (mQueueBufferPreview r) (mQueueBufferPicture r) (asleep r) (mObjectLock r).
Definition set_mQueueBufferPreview v r := CamSync (mCameraDeviceState r) (mCaptureThreadState r) (mCanBeDisconnected r) v (mQueueBufferPicture r) (asleep r) (mObjectLock r).
Definition set_mQueueBufferPicture v r := CamSync (mCameraDeviceState r) (mCaptureThreadState r) (mCanBeDisconnected r) (mQueueBufferPreview r) v (asleep r) (mObjectLock r).
Definition set_asleep v r := CamSync (mCameraDeviceState r) (mCaptureThreadState r) (mCanBeDisconnected r) (mQueueBufferPreview r) (mQueueBufferPicture r) v (mObjectLock r).
Definition set_mObjectLock v r := CamSync (mCameraDeviceState r) (mCaptureThreadState r) (mCanBeDisconnected r) (mQueueBufferPreview r) (mQueueBufferPicture r) (asleep r) v.

Record cam_g := CamG {
  cfg : cam_cfg;
  zm : cam_zoom;
  mem : cam_mem;
  pic : cam_pic;
  rate_ : cam_rate;
  sync : cam_sync;
}.
Definition set_cfg v r := CamG v (zm r) (mem r) (pic r) (rate_ r) (sync r).
Definition set_zm v r := CamG (cfg r) v (mem r) (pic r) (rate_ r) (sync r).
Definition set_mem v r := CamG (cfg r) (zm r) v (pic r) (rate_ r) (sync r).
Definition set_pic v r := CamG (cfg r) (zm r) (mem r) v (rate_ r) (sync r).
Definition set_rate_ v r := CamG (cfg r) (zm r) (mem r) (pic r) v (sync r).
Definition set_sync v r := CamG (cfg r) (zm r) (mem r) (pic r) (rate_ r) v.

(** ** The driver and the system *)

Class V4l2Ops (D : Type) := {
  v_open : bytes -> D -> Z * D;                          (* O_RDWR | O_NONBLOCK *)
  v_close : Z -> D -> D;
  v_querycap : Z -> D -> Z * v4l2_capability * D;
  v_s_input : Z -> Z -> D -> Z * D;
  v_enum_fmt : Z -> Z -> D -> Z * Z * D;                 (* result, pixel format *)
  v_s_fmt : Z -> v4l2_format -> D -> Z * v4l2_format * D;
  v_try_fmt : Z -> v4l2_format -> D -> Z * v4l2_format * D;
  v_reqbufs : Z -> Z -> D -> Z * Z * D;                  (* result, count *)
  v_querybuf : Z -> Z -> D -> Z * (Z * Z) * D;           (* result, length and offset *)
  v_mmap : Z -> Z -> Z -> D -> Z * D;                    (* descriptor, length, offset *)
  v_munmap : Z -> Z -> D -> Z * D;
  v_qbuf : Z -> Z -> D -> Z * D;
  v_dqbuf : Z -> D -> Z * v4l2_buffer * D;
  v_stream : bool -> Z -> D -> Z * D;                    (* VIDIOC_STREAMON, VIDIOC_STREAMOFF *)
  v_select : Z -> D -> Z * D;                            (* with the timeout of two seconds *)
  v_s_parm : Z -> bool -> Z -> D -> Z * D;               (* image mode, frames a second *)
  v_g_parm : Z -> D -> Z * (Z * Z) * D;                  (* result, numerator and denominator *)
  v_s_ctrl : Z -> string -> Z -> Z -> D -> Z * D;        (* control, value, pointer *)
  v_g_ctrl : Z -> string -> D -> Z * D;
  v_queryctrl : Z -> string -> D -> Z * D;
  v_framesize : Z -> Z -> Z -> D -> Z * (Z * Z) * D;     (* format, index; result, width and height *)
}.

(** What [RequestVideoStreamBuffer] and [RequestPicture] give. *)
Record stream_room := StreamRoom { sr_buf0 : Z; sr_size0 : Z; sr_buf1 : Z; sr_size1 : Z }.
Record VideoPicture := VPicture { vp_pData0 : Z; vp_pData1 : Z }.

Class CamEnvOps (E : Type) := {
  e_access : bytes -> E -> Z;
  e_lines : string -> E -> option (list bytes);          (* the lines of a file, as fgets reads them *)
  e_systemTime : E -> Z * E;
  e_gettimeofday : E -> Z * E;                           (* in microseconds *)
  e_usleep : Z -> E -> E;
  (* memoryAdapter *)
  ion_open : E -> Z * E;
  ion_close : E -> Z * E;
  ion_palloc : Z -> E -> Z * E;
  ion_pfree : Z -> E -> E;
  ion_phyaddr : Z -> E -> Z;
  ion_flush : Z -> Z -> E -> E;
  (* memory: the bytes of a frame *)
  mem_get : Z -> Z -> E -> bytes;
  mem_put : Z -> bytes -> E -> E;
  stack_buf : E -> V4L2BUF_t;                            (* what a local frame holds at first *)
  (* vdecoder *)
  vd_create : E -> Z * E;
  vd_initialize : Z -> VideoStreamInfo -> E -> Z * E;
  vd_destroy : Z -> E -> E;
  vd_request : Z -> Z -> E -> Z * stream_room * E;
  vd_submit : Z -> Z -> E -> E;                          (* the length; the data is in the room *)
  vd_decode : Z -> E -> bool * E;                        (* a frame was decoded *)
  vd_picture : Z -> E -> option VideoPicture * E;
  vd_return : Z -> VideoPicture -> E -> E;
}.

(** The objects the device calls back: the notifier (whether it keeps the frame,
    and whether the picture was encoded), the window and [CameraHardware]. *)
Class CamClient (E : Type) := {
  cb_next_frame : V4L2BUF_t -> bool -> E -> bool * E;
  cb_take_picture : V4L2BUF_t -> bool -> E -> bool * E;
  pw_next_frame : V4L2BUF_t -> E -> E;
  hw_notify_picture : V4L2BUF_t -> E -> E;
  hw_set_crop : Rect -> E -> E;
  hw_blink : E -> bool;                                  (* the result, and the detection is prepared *)
  hw_smile : E -> bool;
}.

Record cam_world (D E : Type) := CamWorld { drv : D; env : E }.
Arguments CamWorld {D E} drv env.
Arguments drv {D E} c.
Arguments env {D E} c.

Section World.
Context {D E : Type}.
Abbreviation S := (mach (cam_world D E) cam_g).

(** A call of the driver, and one of the rest. *)
Definition on_drv {A} (f : D -> A * D) : M S A :=
  on_world (fun w => let '(a, d) := f (drv w) in (a, CamWorld d (env w))).
Definition on_env {A} (f : E -> A * E) : M S A :=
  on_world (fun w => let '(a, e) := f (env w) in (a, CamWorld (drv w) e)).
Definition step_env (f : E -> E) : M S unit := step_world (fun w => CamWorld (drv w) (f (env w))).
Definition ask_env {A} (f : E -> A) : M S A := ask (fun w => f (env w)).

(** The parts of the state. *)
Definition upd_cfg (f : cam_cfg -> cam_cfg) : M S unit := set_glob (fun g => set_cfg (f (cfg g)) g).
Definition upd_zm (f : cam_zoom -> cam_zoom) : M S unit := set_glob (fun g => set_zm (f (zm g)) g).
Definition upd_mem (f : cam_mem -> cam_mem) : M S unit := set_glob (fun g => set_mem (f (mem g)) g).
Definition upd_pic (f : cam_pic -> cam_pic) : M S unit := set_glob (fun g => set_pic (f (pic g)) g).
Definition upd_rate (f : cam_rate -> cam_rate) : M S unit := set_glob (fun g => set_rate_ (f (rate_ g)) g).
Definition upd_sync (f : cam_sync -> cam_sync) : M S unit := set_glob (fun g => set_sync (f (sync g)) g).

(** [pthread_cond_signal], and going to sleep in [pthread_cond_wait]. *)
Definition signal (c : cond) : M S unit := upd_sync (fun y => set_asleep (set_cond c false (asleep y)) y).
Definition sleep_on (c : cond) : M S unit := upd_sync (fun y => set_asleep (set_cond c true (asleep y)) y).

(** A slot of an array of the object. *)
Definition slot {A} (l : list A) (i : Z) : M S A :=
  if i <? 0 then undef else checked (l !! Z.to_nat i).
Definition put_slot {A} (l : list A) (i : Z) (a : A) : M S (list A) :=
  if (0 <=? i) && (i <? lenZ l) then ret (<[Z.to_nat i := a]> l) else undef.
End World.

(** [OSAL_Queue] and [OSAL_Dequeue] on the queues of the device, as
    [queues_are_fifos] has them: [OSAL_QueueCreate (.., NB_BUFFER)] makes room for
    [capacity NB_BUFFER]. *)
Definition preview_room : Z := capacity NB_BUFFER.
Definition picture_room : Z := capacity 4.
Definition enqueue (room : Z) (p : bufptr) (q : list bufptr) : Z * list bufptr :=
  if lenZ q <? room then (0, q ++ [p]) else (-1, q).
Definition dequeue (q : list bufptr) : option bufptr * list bufptr :=
  match q with [] => (None, []) | p :: q => (Some p, q) end.

(** ** The object as its constructor leaves it *)

Definition rect_zero : Rect := MkRect 0 0 0 0.
Definition cam_initial : cam_g :=
  CamG
    (CamCfg (HalInfo [] 0 false false) 0 false 30 false 0 0 0 0 V4L2_PIX_FMT_NV21 V4L2_PIX_FMT_NV21
       false false 640 480 0 (VideoInfo false 0 0 0 0))
    (CamZoom 0 (-1) (-1) rect_zero rect_zero)
    (CamMem (replicate 10 0) 0 (replicate 10 0) (replicate 10 0) NB_BUFFER (replicate 10 buf_zero) buf_zero 0 None)
    (CamPic TAKE_PICTURE_NULL false false 0 0 0 true 0 0 0 0 0 0)
    (CamRate false 0 true)
    (CamSync STATE_CONSTRUCTED CAPTURE_STATE_PAUSED false [] [] (fun _ => false) false).
