(* ===== verification/CamDevice.v ===== *)
(** * camera: the V4L2 device

    [V4L2CameraDevice2.cpp]: opening a camera, its formats and buffers, the states
    constructed, connected and started, and the controls.  Before it, what it calls in [Libve_Decoder2.c] and
    [CameraList.cpp].  A call that takes
    [mObjectLock] is [Blocked] while another thread holds it. *)

From S2P Require Import Prelude CLib Os CamPixel CamEnv.

(** ** Libve_Decoder2.c *)

Section Decoder.
Context {D E : Type} `{CamEnvOps E}.
Abbreviation S := (mach (cam_world D E) cam_g).

(** [memcpy] between two places of the frames' memory. *)
Definition move_mem (to from n : Z) : M S unit :=
  step_env (fun e => mem_put to (mem_get from n e) e).

(** [false] when the frame does not fit; the fields of [dataInfo] are only set
    when it does. *)
Definition GetStreamData (from : Z) (room : stream_room) (nLength : Z) : M S bool :=
  if nLength <=? sr_size0 room then
    move_mem (sr_buf0 room) from nLength ;;; ret true
  else if nLength <=? sr_size0 room + sr_size1 room then
    move_mem (sr_buf0 room) from (sr_size0 room) ;;;
    move_mem (sr_buf1 room) (from + sr_size0 room) (nLength - sr_size0 room) ;;; ret true
  else ret false.

Definition Libve_dec2 (from to nLength : Z) : M S unit :=
  let* c := get_glob cfg in
  let d := mDecoder c in
  if d =? 0 then ret tt else
  let* '(r, room) := on_env (fun e => let '(r, room, e) := vd_request d nLength e in ((r, room), e)) in
  if r <? 0 then ret tt else
  GetStreamData from room nLength ;;;
  step_env (vd_submit d nLength) ;;;
  let* decoded := on_env (vd_decode d) in
  if negb decoded then ret tt else
  let* picture := on_env (vd_picture d) in
  match picture with
  | None => ret tt
  | Some p =>
      let luma := vi_width (mVideoInfo c) * vi_height (mVideoInfo c) in
      step_env (ion_flush (vp_pData0 p) luma) ;;;
      step_env (ion_flush (vp_pData1 p) (Z.quot luma 2)) ;;;
      move_mem to (vp_pData0 p) luma ;;;
      move_mem (to + luma) (vp_pData1 p) (Z.quot luma 2) ;;;
      step_env (vd_return d p)
  end.

Definition Libve_init2 (info : VideoStreamInfo) : M S Z :=
  let* c := get_glob cfg in
  if negb (mDecoder c =? 0) then ret (-1) else
  let* d := on_env vd_create in
  upd_cfg (set_mDecoder d) ;;;
  let* r := on_env (vd_initialize d info) in
  if negb (r =? 0) then
    step_env (vd_destroy d) ;;; upd_cfg (set_mDecoder 0) ;;; ret (-1)
  else ret 0.

Definition Libve_exit2 : M S Z :=
  let* c := get_glob cfg in
  if mDecoder c =? 0 then ret (-1) else
  step_env (vd_destroy (mDecoder c)) ;;; upd_cfg (set_mDecoder 0) ;;; ret 0.
End Decoder.

(** ** CameraList.cpp *)

Definition CAMERA_LIST_KEY_CONFIG_PATH : string := "/system/etc/cameralist.cfg".
Definition kCAMERA_LIST : bytes := str_bytes "key_camera_list".

(** What follows the first [=] of a line, or nothing.  The loop over [strtok]
    continues a scan that nothing has begun, and ends after this first piece. *)
Fixpoint getValue (line : bytes) : bytes :=
  match line with
  | [] => []
  | c :: line => if c =? 61 then line else getValue line
  end.

(** The value of the first line that begins with the key. *)
Fixpoint readKey (key : bytes) (lines : list bytes) : option bytes :=
  match lines with
  | [] => None
  | l :: lines => if starts key l then Some (getValue l) else readKey key lines
  end.

(** [mCameraDeviceList] after the constructor: [None] while it holds what the heap
    held before, because the file or the key is missing. *)
Definition CameraList (file : option (list bytes)) : option bytes :=
  lines ← file; readKey kCAMERA_LIST lines.

Section Device.
Context {D E : Type} `{V4l2Ops D} `{CamEnvOps E}.
Abbreviation S := (mach (cam_world D E) cam_g).

Definition the_fd : M S Z := get_glob (fun g => mCameraFd (cfg g)).

(** [Mutex::Autolock locker(&mObjectLock)] around a call. *)
Definition lock_object : M S unit :=
  let* y := get_glob sync in
  if mObjectLock y then blocked else upd_sync (set_mObjectLock true).
Definition unlock_object : M S unit := upd_sync (set_mObjectLock false).
Definition with_object {A} (m : M S A) : M S A :=
  lock_object ;;; let* a := m in unlock_object ;;; ret a.

Definition isConnected (y : cam_sync) : bool :=
  bool_decide (mCameraDeviceState y = STATE_CONNECTED \/ mCameraDeviceState y = STATE_STARTED).
Definition isStarted (y : cam_sync) : bool := bool_decide (mCameraDeviceState y = STATE_STARTED).

(** ** Opening *)

(** [open] and [close] of the device node, with the count of open descriptors. *)
Definition open_node (node : bytes) : M S Z := fun s =>
  let '(fd, d) := v_open node (drv (world s)) in
  Done fd (Mach (CamWorld d (env (world s))) (heap_live s)
             (if fd <? 0 then fds_live s else fds_live s + 1) (glob s)).
Definition close_node (fd : Z) : M S unit := fun s =>
  Done tt (Mach (CamWorld (v_close fd (drv (world s))) (env (world s))) (heap_live s)
             (if fd <? 0 then fds_live s else fds_live s - 1) (glob s)).

Definition closeCameraDev : M S unit :=
  let* fd := the_fd in
  if fd =? 0 then ret tt else close_node fd ;;; upd_cfg (set_mCameraFd 0).

(** The formats the driver lists, twelve at most. *)
Fixpoint try_formats (n : nat) (i format : Z) : M S Z :=
  match n with
  | O => ret (-1)
  | Datatypes.S n' =>
      let* fd := the_fd in
      let* '(r, p) := on_drv (fun d => let '(r, p, d) := v_enum_fmt fd i d in ((r, p), d)) in
      if r =? -1 then ret (-1) else
      if p =? format then ret OK else try_formats n' (i + 1) format
  end.
Definition tryFmt (format : Z) : M S Z := try_formats 12 0 format.

(** [/dev/video0], [/dev/video1]: the first there is, and the last when there is
    none. *)
Fixpoint first_node (n : nat) (i : Z) : M S bytes :=
  let node := str_bytes "/dev/video" ++ sprintf_d i in
  match n with
  | O => ret node
  | Datatypes.S n' =>
      let* r := ask_env (e_access node) in
      if (r =? 0) || bool_decide (n' = O) then ret node else first_node n' (i + 1)
  end.
Definition camera_node (name : bytes) : M S bytes :=
  let* r := ask_env (e_access name) in
  if r =? 0 then ret name else first_node (Z.to_nat MAX_NUM_OF_CAMERAS) 0.

(** The capture format of a USB camera; [false] when there is none. *)
Definition usb_format (card : bytes) : M S bool :=
  let* file := ask_env (e_lines CAMERA_LIST_KEY_CONFIG_PATH) in
  let* cameras := checked (CameraList file) in
  let isSupported := has_sub card cameras in
  let use f := upd_cfg (set_mCaptureFormat f) ;;; ret true in
  let* r := tryFmt V4L2_PIX_FMT_NV21 in
  if r =? OK then use V4L2_PIX_FMT_NV21 else
  let* r := (if isSupported then tryFmt V4L2_PIX_FMT_MJPEG else ret (-1)) in
  if r =? OK then use V4L2_PIX_FMT_MJPEG else
  let* r := tryFmt V4L2_PIX_FMT_H264 in
  if r =? OK then use V4L2_PIX_FMT_H264 else
  let* r := tryFmt V4L2_PIX_FMT_YUYV in
  if r =? OK then use V4L2_PIX_FMT_YUYV else ret false.

Definition uvcvideo : bytes := str_bytes "uvcvideo".

(** [END_ERROR] closes the descriptor. *)
Definition openCameraDev (halInfo : HALCameraInfo) : M S Z :=
  let fail := closeCameraDev ;;; ret (-1) in
  let* node := camera_node (device_name halInfo) in
  let* fd := open_node node in
  upd_cfg (set_mCameraFd fd) ;;;
  if fd =? -1 then ret (-1) else
  let* '(r, cap) := on_drv (fun d => let '(r, cap, d) := v_querycap fd d in ((r, cap), d)) in
  if r <? 0 then fail else
  if Z.land (capabilities cap) V4L2_CAP_VIDEO_CAPTURE =? 0 then fail else
  if Z.land (capabilities cap) V4L2_CAP_STREAMING =? 0 then fail else
  (if bool_decide (cap_driver cap = uvcvideo) then upd_cfg (set_mIsUsbCamera true) else ret tt) ;;;
  let* c := get_glob cfg in
  if negb (mIsUsbCamera c) then
    let* r := on_drv (v_s_input fd (device_id halInfo)) in
    if r =? -1 then fail else ret OK
  else
    let* ok := usb_format (cap_card cap) in
    if ok : bool then ret OK else fail.

Definition connectDevice (halInfo : HALCameraInfo) : M S Z :=
  with_object (
    let* y := get_glob sync in
    if isConnected y then ret NO_ERROR else
    let* r := openCameraDev halInfo in
    if negb (r =? OK) then ret r else
    upd_cfg (set_mHalCameraInfo halInfo) ;;;
    let* r := on_env ion_open in
    if r <? 0 then closeCameraDev ;;; ret UNKNOWN_ERROR else
    let* vir := on_env (ion_palloc MAX_PICTURE_SIZE) in
    let* phy := ask_env (ion_phyaddr vir) in
    upd_mem (fun m => set_mPicBuffer (set_vb_addrPhyY phy (set_vb_addrVirY vir (mPicBuffer m))) m) ;;;
    upd_sync (set_mCameraDeviceState STATE_CONNECTED) ;;;
    ret NO_ERROR).

Definition disconnectDevice : M S Z :=
  with_object (
    let* y := get_glob sync in
    if negb (isConnected y) then ret NO_ERROR else
    if isStarted y then ret (- EINVAL) else
    closeCameraDev ;;;
    let* m := get_glob mem in
    (if vb_addrVirY (mPicBuffer m) =? 0 then ret tt else
     step_env (ion_pfree (vb_addrVirY (mPicBuffer m))) ;;;
     upd_mem (set_mPicBuffer (set_vb_addrPhyY 0 (mPicBuffer m)))) ;;;
    on_env ion_close ;;;
    upd_sync (set_mCameraDeviceState STATE_CONSTRUCTED) ;;;
    ret NO_ERROR).

(** ** Formats and sizes *)

(** The format the driver delivers when the user asks for [pix_fmt]. *)
Definition driver_format (c : cam_cfg) (pix_fmt : Z) : Z :=
  if mCaptureFormat c =? V4L2_PIX_FMT_MJPEG then V4L2_PIX_FMT_MJPEG
  else if mCaptureFormat c =? V4L2_PIX_FMT_YUYV then V4L2_PIX_FMT_YUYV
  else if mCaptureFormat c =? V4L2_PIX_FMT_H264 then V4L2_PIX_FMT_H264
  else pix_fmt.

(** [4.5*1024*1024] is the integer 4718592. *)
Definition getSuitableThumbScale (used_for_video : bool) (full_w full_h : Z) : Z :=
  let scale := if used_for_video then 2 else 1 in
  if 10 * 1024 * 1024 <? full_w * full_h then 2
  else if 4718592 <? full_w * full_h then 2
  else scale.

Definition v4l2SetVideoParams (width height pix_fmt : Z) : M S Z :=
  let* c := get_glob cfg in
  let fast := fast_picture_mode (mHalCameraInfo c) in
  let scale := getSuitableThumbScale (mIsThumbUsedForVideo c) width height in
  if fast && (scale <=? 0) then ret UNKNOWN_ERROR else
  let sub := if fast then Some (Z.quot width scale, Z.quot height scale, pix_fmt) else None in
  let* '(r, f) := on_drv (fun d =>
    let '(r, f, d) := v_s_fmt (mCameraFd c) (V4l2Fmt width height (driver_format c pix_fmt) sub) d in
    ((r, f), d)) in
  if r <? 0 then ret r else
  upd_cfg (set_mFrameWidth (f_width f)) ;;;
  upd_cfg (set_mFrameHeight (f_height f)) ;;;
  (match f_sub f with
   | Some (w, h, _) => if fast then upd_cfg (set_mThumbWidth w) ;;; upd_cfg (set_mThumbHeight h) else ret tt
   | None => if fast then undef else ret tt
   end) ;;;
  ret OK.

Definition tryFmtSize (width height : Z) : M S (Z * Z * Z) :=
  let* c := get_glob cfg in
  let* '(r, f) := on_drv (fun d =>
    let '(r, f, d) := v_try_fmt (mCameraFd c) (V4l2Fmt width height (driver_format c (mVideoFormat c)) None) d in
    ((r, f), d)) in
  if r <? 0 then ret (r, width, height) else ret (0, f_width f, f_height f).

Definition setFrameRate (rate : Z) : M S Z := upd_cfg (set_mFrameRate rate) ;;; ret OK.
Definition getFrameRate : M S Z :=
  let* fd := the_fd in
  let* '(r, numerator, denominator) := on_drv (fun d => let '(r, f, d) := v_g_parm fd d in ((r, f.1, f.2), d)) in
  if r <? 0 then ret r else
  if negb (numerator =? 0) && negb (denominator =? 0) then ret (Z.quot denominator numerator) else ret 30.

Definition v4l2setCaptureParams : M S Z :=
  let* c := get_glob cfg in
  let* p := get_glob pic in
  on_drv (v_s_parm (mCameraFd c) (bool_decide (mTakePictureState p = TAKE_PICTURE_NORMAL)) (mFrameRate c)).

Definition comma : bytes := str_bytes ",".
(** Twenty sizes at most, [len] bytes of room; a size is printed into sixteen
    bytes. *)
Fixpoint enum_sizes (n : nat) (i fmt len : Z) (acc : bytes) : M S bytes :=
  match n with
  | O => ret acc
  | Datatypes.S n' =>
      let* fd := the_fd in
      let* '(r, w, h) := on_drv (fun d => let '(r, s, d) := v_framesize fd fmt i d in ((r, s.1, s.2), d)) in
      if r =? -1 then ret acc else
      let size := sprintf_d w ++ str_bytes "x" ++ sprintf_d h in
      let acc := (if i =? 0 then acc else acc ++ comma) ++ size in
      if (16 <=? lenZ size) || (len <=? lenZ acc) then undef
      else enum_sizes n' (i + 1) fmt len acc
  end.
Definition enumSize (len : Z) : M S bytes :=
  let* c := get_glob cfg in enum_sizes 20 0 (mCaptureFormat c) len [].

(** The first size, when the driver has one. *)
Definition getFullSize : M S (option (Z * Z)) :=
  let* c := get_glob cfg in
  let* '(r, s) := on_drv (fun d =>
    let '(r, s, d) := v_framesize (mCameraFd c) (mCaptureFormat c) 0 d in ((r, s), d)) in
  if r =? -1 then ret None else ret (Some s).

(** ** Buffers *)

Definition v4l2ReqBufs (cnt : Z) : M S (Z * Z) :=
  let* fd := the_fd in
  let* '(r, n) := on_drv (fun d => let '(r, n, d) := v_reqbufs fd cnt d in ((r, n), d)) in
  if r <? 0 then ret (r, cnt) else ret (OK, n).

(** The memory a USB camera's frame is converted into, grey at first. *)
Definition video_buffer (i : Z) : M S unit :=
  let* c := get_glob cfg in
  let luma := mFrameWidth c * mFrameHeight c in
  let* vir := on_env (ion_palloc (Z.quot (luma * 3) 2)) in
  let* phy := ask_env (ion_phyaddr vir) in
  let* m := get_glob mem in
  let* vs := put_slot (buf_vir_addr m) i vir in
  let* ps := put_slot (buf_phy_addr m) i phy in
  upd_mem (fun m => set_buf_phy_addr ps (set_buf_vir_addr vs m)) ;;;
  if vir =? 0 then undef else
  step_env (mem_put vir (fill 0x10 luma)) ;;;
  step_env (mem_put (vir + luma) (fill 0x80 (Z.quot luma 2))).

(** Buffer [i] asked for, mapped and given to the driver. *)
Definition query_buf (i : Z) : M S Z :=
  let* fd := the_fd in
  let* '(r, len, off) := on_drv (fun d => let '(r, lo, d) := v_querybuf fd i d in ((r, lo.1, lo.2), d)) in
  if r <? 0 then ret r else
  let* p := on_drv (v_mmap fd len off) in
  let* m := get_glob mem in
  let* mems := put_slot (map_mem m) i p in
  upd_mem (fun m => set_map_length len (set_map_mem mems m)) ;;;
  if p =? MAP_FAILED then ret (-1) else
  let* r := on_drv (v_qbuf fd i) in
  if r <? 0 then ret r else
  let* c := get_glob cfg in
  (if mIsUsbCamera c then video_buffer i else ret tt) ;;; ret OK.
Fixpoint query_bufs (n : nat) (i : Z) : M S Z :=
  match n with
  | O => ret OK
  | Datatypes.S n' =>
      let* r := query_buf i in
      if negb (r =? OK) then ret r else query_bufs n' (i + 1)
  end.
Definition v4l2QueryBuf : M S Z :=
  let* m := get_glob mem in query_bufs (Z.to_nat (mBufferCnt m)) 0.

(** Buffer [i] unmapped; the address of the converted frame stays. *)
Definition unmap_buf (i : Z) : M S Z :=
  let* m := get_glob mem in
  let* p := slot (map_mem m) i in
  let* r := on_drv (v_munmap p (map_length m)) in
  if r <? 0 then ret r else
  let* mems := put_slot (map_mem m) i 0 in
  upd_mem (set_map_mem mems) ;;;
  let* vir := slot (buf_vir_addr m) i in
  (if vir =? 0 then ret tt else
   step_env (ion_pfree vir) ;;;
   let* ps := put_slot (buf_phy_addr m) i 0 in
   upd_mem (set_buf_phy_addr ps)) ;;;
  ret OK.
Fixpoint unmap_bufs (n : nat) (i : Z) : M S Z :=
  match n with
  | O => ret OK
  | Datatypes.S n' =>
      let* r := unmap_buf i in
      if r <? 0 then ret r else unmap_bufs n' (i + 1)
  end.
Definition v4l2UnmapBuf : M S Z :=
  let* m := get_glob mem in unmap_bufs (Z.to_nat (mBufferCnt m)) 0.

Definition v4l2Streaming (on : bool) : M S Z :=
  let* fd := the_fd in
  let* r := on_drv (v_stream on fd) in
  if r <? 0 then ret r else ret OK.
Definition v4l2StartStreaming : M S Z := v4l2Streaming true.
Definition v4l2StopStreaming : M S Z := v4l2Streaming false.

(** ** Starting and stopping *)

(** [CHECK_NO_ERROR (r)]: any error closes the device. *)
Definition check_no_error (m : M S Z) (k : M S Z) : M S Z :=
  let* r := m in
  if negb (r =? NO_ERROR) then closeCameraDev ;;; ret EINVAL else k.

Definition start_decoder : M S unit :=
  let* c := get_glob cfg in
  if (mCaptureFormat c =? V4L2_PIX_FMT_MJPEG) || (mCaptureFormat c =? V4L2_PIX_FMT_H264) then
    let* duration := checked (c_div (1000 * 1000) (mFrameRate c)) in
    let info := VideoInfo (mCaptureFormat c =? V4L2_PIX_FMT_MJPEG) (mFrameWidth c) (mFrameHeight c)
                  (mFrameRate c) duration in
    upd_cfg (set_mVideoInfo info) ;;; Libve_init2 info ;;; ret tt
  else ret tt.

Definition startDevice (width height pix_fmt : Z) (video_hint : bool) : M S Z :=
  with_object (
    let* y := get_glob sync in
    if negb (isConnected y) then ret EINVAL else
    if isStarted y then ret EINVAL else
    upd_cfg (set_mVideoFormat pix_fmt) ;;;
    upd_mem (set_mCurrentV4l2buf None) ;;;
    upd_cfg (set_mVideoHint video_hint) ;;;
    upd_sync (set_mCanBeDisconnected false) ;;;
    v4l2setCaptureParams ;;;
    check_no_error (v4l2SetVideoParams width height pix_fmt) (
    let* p := get_glob pic in
    let buf_cnt := if bool_decide (mTakePictureState p = TAKE_PICTURE_NORMAL) then 1 else NB_BUFFER in
    let* '(r, buf_cnt) := v4l2ReqBufs buf_cnt in
    check_no_error (ret r) (
    upd_mem (fun m => set_mCurAvailBufferCnt buf_cnt (set_mBufferCnt buf_cnt m)) ;;;
    check_no_error v4l2QueryBuf (
    check_no_error v4l2StartStreaming (
    upd_sync (set_mCameraDeviceState STATE_STARTED) ;;;
    upd_pic (fun p => set_mContinuousPictureAfter (1000000 / 10)
               (set_mFaceDectectAfter (1000000 / 15) (set_mPreviewAfter (1000000 / 24) p))) ;;;
    start_decoder ;;;
    ret NO_ERROR))))).

(** [stopDevice] first waits for the capture thread, then takes the lock. *)
Definition stop_enter : M S bool :=
  let* y := get_glob sync in
  if mCanBeDisconnected y then ret false else sleep_on mConnectCond ;;; ret true.
Definition stop_device : M S Z :=
  with_object (
    let* y := get_glob sync in
    if negb (isStarted y) then ret NO_ERROR else
    v4l2StopStreaming ;;;
    v4l2UnmapBuf ;;;
    upd_mem (set_mV4l2buf (replicate 10 buf_zero)) ;;;
    upd_sync (set_mCameraDeviceState STATE_CONNECTED) ;;;
    upd_zm (set_mLastZoom (-1)) ;;;
    upd_mem (set_mCurrentV4l2buf None) ;;;
    let* c := get_glob cfg in
    (if mCaptureFormat c =? V4L2_PIX_FMT_MJPEG then Libve_exit2 ;;; ret tt else ret tt) ;;;
    ret NO_ERROR).
(** The call of one thread: nothing else runs to wake it. *)
Definition stopDevice : M S Z :=
  let* waits := stop_enter in
  if waits : bool then blocked else stop_device.

Definition startDeliveringFrames : M S Z :=
  let* y := get_glob sync in
  match mCaptureThreadState y with
  | CAPTURE_STATE_NULL => ret EINVAL
  | CAPTURE_STATE_STARTED => ret NO_ERROR
  | _ =>
      upd_sync (set_mCaptureThreadState CAPTURE_STATE_STARTED) ;;; signal mCaptureCond ;;; ret NO_ERROR
  end.
Definition stopDeliveringFrames : M S Z :=
  let* y := get_glob sync in
  match mCaptureThreadState y with
  | CAPTURE_STATE_NULL => ret EINVAL
  | CAPTURE_STATE_PAUSED => ret NO_ERROR
  | _ => upd_sync (set_mCaptureThreadState CAPTURE_STATE_PAUSED) ;;; ret NO_ERROR
  end.

(** ** Settings *)

Definition setTakePictureState (st : TAKE_PICTURE_STATE) : M S unit := upd_pic (set_mTakePictureState st).
Definition setThumbUsedForVideo (b : bool) : M S unit := upd_cfg (set_mIsThumbUsedForVideo b).
Definition setVideoSize (w h : Z) : M S unit := upd_cfg (fun c => set_mVideoHeight h (set_mVideoWidth w c)).
Definition setCrop (new_zoom max_zoom : Z) : M S unit :=
  upd_zm (fun z => set_mMaxZoom max_zoom (set_mNewZoom new_zoom z)).
Definition getCaptureFormat : M S Z := get_glob (fun g => mCaptureFormat (cfg g)).
Definition setHwEncoder (hw : bool) : M S unit := upd_cfg (set_mUseHwEncoder hw).
Definition setContinuousPictureCnt (cnt : Z) : M S unit := upd_pic (set_mContinuousPictureMax cnt).

Definition startContinuousPicture : M S unit :=
  upd_pic (fun p => set_mContinuousPictureStarted true (set_mContinuousPictureCnt 0 p)) ;;;
  let* t := on_env e_systemTime in
  upd_pic (set_mContinuousPictureStartTime t).
(** The time it took is only logged. *)
Definition stopContinuousPicture : M S unit :=
  let* p := get_glob pic in
  if negb (mContinuousPictureStarted p) then ret tt else
  upd_pic (set_mContinuousPictureStarted false) ;;; on_env e_systemTime ;;; ret tt.
Definition startSmartPicture : M S unit := upd_pic (set_mSmartPictureDone false).
Definition stopSmartPicture : M S unit :=
  let* p := get_glob pic in
  if mSmartPictureDone p then ret tt else upd_pic (set_mSmartPictureDone true).

(** ** Controls *)

(** [VIDIOC_S_CTRL] of one control. *)
Definition set_ctrl (id : string) (value ptr : Z) : M S Z :=
  let* fd := the_fd in on_drv (v_s_ctrl fd id value ptr).

Definition setImageEffect (effect : Z) : M S Z := set_ctrl "V4L2_CID_COLORFX" effect 0.
Definition setWhiteBalance (wb : Z) : M S Z := set_ctrl "V4L2_CID_AUTO_N_PRESET_WHITE_BALANCE" wb 0.
(** The value is not set. *)
Definition setTakePictureCtrl (junk : Z) : M S Z :=
  let* c := get_glob cfg in
  if fast_picture_mode (mHalCameraInfo c) then set_ctrl "V4L2_CID_TAKE_PICTURE" junk 0 else ret 0.
Definition setExposureMode (mode : Z) : M S Z := set_ctrl "V4L2_CID_EXPOSURE_AUTO" mode 0.
Definition setExposureCompensation (val : Z) : M S Z := set_ctrl "V4L2_CID_AUTO_EXPOSURE_BIAS" val 0.
Definition setExposureWind (num wind : Z) : M S Z := set_ctrl "V4L2_CID_AUTO_EXPOSURE_WIN_NUM" num wind.
Definition setFlashMode (mode : Z) : M S Z := set_ctrl "V4L2_CID_FLASH_LED_MODE" mode 0.
Definition setAutoFocusInit : M S Z := set_ctrl "V4L2_CID_AUTO_FOCUS_INIT" 0 0.
Definition setAutoFocusRelease (junk : Z) : M S Z := set_ctrl "V4L2_CID_AUTO_FOCUS_RELEASE" junk 0.
(** The first result is only logged. *)
Definition setAutoFocusRange (af_range : Z) : M S Z :=
  set_ctrl "V4L2_CID_FOCUS_AUTO" 1 0 ;;; set_ctrl "V4L2_CID_AUTO_FOCUS_RANGE" af_range 0.
Definition setAutoFocusWind (num wind : Z) : M S Z := set_ctrl "V4L2_CID_AUTO_FOCUS_WIN_NUM" num wind.
Definition setAutoFocusStart (junk : Z) : M S Z := set_ctrl "V4L2_CID_AUTO_FOCUS_START" junk 0.
Definition setAutoFocusStop (junk : Z) : M S Z := set_ctrl "V4L2_CID_AUTO_FOCUS_STOP" junk 0.
Definition set3ALock (lock : Z) : M S Z := set_ctrl "V4L2_CID_3A_LOCK" lock 0.

(** [0xFF000000] as an [int]: no camera is open. *)
Definition NO_CAMERA : Z := s32 0xFF000000.
Definition getAutoFocusStatus : M S Z :=
  let* fd := the_fd in
  if fd =? 0 then ret NO_CAMERA else on_drv (v_g_ctrl fd "V4L2_CID_AUTO_FOCUS_STATUS").
Definition getSnrValue : M S Z :=
  let* fd := the_fd in
  if fd =? 0 then ret NO_CAMERA else
  let* r := on_drv (v_queryctrl fd "V4L2_CID_GAIN") in
  if r =? -1 then ret 0 else on_drv (v_g_ctrl fd "V4L2_CID_GAIN").
End Device.
