(* ===== verification/CamThreads.v ===== *)
(** * camera: the five threads of the device

    The loops of [V4L2CameraDevice2.cpp]: capture, preview, single, continuous and
    smart pictures.  A loop is cut where it gives up a lock, sleeps, or calls out;
    each piece is one step of the system and answers where its thread stands then.
    The counts of a frame's users are touched under [mCaptureMutex], but for the
    one [CallbackNotifier] adds without it: its load and its store are steps of
    their own, so that any other thread may come between.  What is done under the
    mutex is one step: another thread that touches a frame meanwhile waits for the
    mutex, or is the notifier. *)

From S2P Require Import Prelude CLib Os CamPixel CamEnv CamDevice.

(** Where the threads stand. *)
Inductive cap_pc :=
| CapTop                   (* at the top of the loop *)
| CapAsleep                (* in pthread_cond_wait *)
| CapSelect                (* about to wait for the driver *)
| CapReady (r : Z)         (* back from it *)
| CapRelease (i : Z)       (* at DEC_REF, the lock given up *)
| CapExited.
Inductive prev_pc :=
| PrevTop
| PrevEmpty                (* found the queue empty *)
| PrevAsleep
| PrevGot (p : bufptr)     (* took a frame from the queue *)
| PrevCount (p : bufptr) (n : Z)  (* the notifier read the count [n], to count the recorder *)
| PrevRelease (p : bufptr).
Inductive pic_pc :=
| PicTop
| PicEmpty
| PicAsleep
| PicGot (p : bufptr)
| PicTaken (p : bufptr)    (* the picture is taken *)
| PicRelease (i : Z).
#[export] Instance cap_pc_eq : EqDecision cap_pc.
Proof. solve_decision. Defined.
#[export] Instance prev_pc_eq : EqDecision prev_pc.
Proof. solve_decision. Defined.
#[export] Instance pic_pc_eq : EqDecision pic_pc.
Proof. solve_decision. Defined.

Section Threads.
Context {D E : Type} `{V4l2Ops D} `{CamEnvOps E} `{CamClient E}.
Abbreviation S := (mach (cam_world D E) cam_g).

(** ** Frames *)

Definition the_buf (p : bufptr) : M S V4L2BUF_t :=
  let* m := get_glob mem in
  match p with PBuf i => slot (mV4l2buf m) i | PPic => ret (mPicBuffer m) end.
Definition put_buf (p : bufptr) (b : V4L2BUF_t) : M S unit :=
  let* m := get_glob mem in
  match p with
  | PBuf i => let* bs := put_slot (mV4l2buf m) i b in upd_mem (set_mV4l2buf bs)
  | PPic => upd_mem (set_mPicBuffer b)
  end.
(** [refCnt++] *)
Definition add_ref (p : bufptr) : M S unit :=
  let* b := the_buf p in put_buf p (set_vb_refCnt (vb_refCnt b + 1) b).

(** The last user gives the frame back to the driver. *)
Definition releasePreviewFrame (index : Z) : M S unit :=
  let* b := the_buf (PBuf index) in
  if 0 <? vb_refCnt b then
    put_buf (PBuf index) (set_vb_refCnt (vb_refCnt b - 1) b) ;;;
    if vb_refCnt b - 1 =? 0 then
      let* fd := the_fd in
      let* r := on_drv (v_qbuf fd index) in
      if r =? 0 then upd_mem (fun m => set_mCurAvailBufferCnt (mCurAvailBufferCnt m + 1) m) else ret tt
    else ret tt
  else ret tt.

Definition queue_preview (p : bufptr) : M S Z :=
  let* y := get_glob sync in
  let '(r, q) := enqueue preview_room p (mQueueBufferPreview y) in
  upd_sync (set_mQueueBufferPreview q) ;;; ret r.
Definition queue_picture (p : bufptr) : M S Z :=
  let* y := get_glob sync in
  let '(r, q) := enqueue picture_room p (mQueueBufferPicture y) in
  upd_sync (set_mQueueBufferPicture q) ;;; ret r.
Definition dequeue_preview : M S (option bufptr) :=
  let* y := get_glob sync in
  let '(p, q) := dequeue (mQueueBufferPreview y) in
  upd_sync (set_mQueueBufferPreview q) ;;; ret p.
Definition dequeue_picture : M S (option bufptr) :=
  let* y := get_glob sync in
  let '(p, q) := dequeue (mQueueBufferPicture y) in
  upd_sync (set_mQueueBufferPicture q) ;;; ret p.

(** ** captureThread *)

Definition v4l2WaitCameraReady : M S Z :=
  let* fd := the_fd in
  let* r := on_drv (v_select fd) in
  if (r =? -1) || (r =? 0) then ret (-1) else ret 0.
Definition singalDisconnect : M S unit :=
  upd_sync (set_mCanBeDisconnected true) ;;; signal mConnectCond.

(** Behind the wait: whether to go on. *)
Definition capture_woken : M S cap_pc :=
  let* y := get_glob sync in
  if bool_decide (mCaptureThreadState y = CAPTURE_STATE_EXIT) then singalDisconnect ;;; ret CapExited
  else ret CapSelect.
Definition capture_enter : M S cap_pc :=
  let* y := get_glob sync in
  if bool_decide (mCaptureThreadState y = CAPTURE_STATE_PAUSED)
  then singalDisconnect ;;; sleep_on mCaptureCond ;;; ret CapAsleep
  else capture_woken.
Definition capture_select : M S cap_pc :=
  let* r := v4l2WaitCameraReady in ret (CapReady r).

Definition getPreviewFrame : M S (Z * v4l2_buffer) :=
  let* fd := the_fd in
  let* '(r, b) := on_drv (fun d => let '(r, b, d) := v_dqbuf fd d in ((r, b), d)) in
  if r <? 0 then ret (1, b) else ret (OK, b).

(** One buffer less with the driver: four or less, and every second frame is
    dropped from the preview until sixty frames went well. *)
Definition count_down : M S unit :=
  upd_mem (fun m => set_mCurAvailBufferCnt (mCurAvailBufferCnt m - 1) m) ;;;
  let* m := get_glob mem in
  upd_rate (fun r =>
    if mCurAvailBufferCnt m <=? 4 then set_mNeedHalfFrameRate true (set_mStatisicsIndex 0 r)
    else if mNeedHalfFrameRate r then
      let i := mStatisicsIndex r + 1 in
      if STATISICS_CNT <=? i then set_mNeedHalfFrameRate false (set_mStatisicsIndex i r)
      else set_mStatisicsIndex i r
    else r).

(** [(float)a / (float)b > 4.0] *)
Definition over_four (a b : Z) : bool :=
  if b =? 0 then 0 <? a else if 0 <? b then 4 * b <? a else a <? 4 * b.

(** A new zoom makes new crops. *)
Definition update_crop : M S unit :=
  let* z := get_glob zm in
  if mLastZoom z =? mNewZoom z then ret tt else
  let* c := get_glob cfg in
  let w := mFrameWidth c in
  let h := mFrameHeight c in
  let* r := checked
    (if mIsThumbUsedForVideo c && over_four w (mVideoWidth c) && over_four h (mVideoHeight c)
     then calculateCrop (mNewZoom z) (mMaxZoom z) (Z.quot w 2) (Z.quot h 2)
     else calculateCrop (mNewZoom z) (mMaxZoom z) w h) in
  upd_zm (set_mRectCrop r) ;;;
  step_env (hw_set_crop r) ;;;
  (if fast_picture_mode (mHalCameraInfo c) then
     let* t := checked (calculateCrop (mNewZoom z) (mMaxZoom z) (mThumbWidth c) (mThumbHeight c)) in
     upd_zm (set_mThumbRectCrop t)
   else ret tt) ;;;
  upd_zm (set_mLastZoom (mNewZoom z)).

Definition is_compressed (c : cam_cfg) : bool :=
  (mCaptureFormat c =? V4L2_PIX_FMT_MJPEG) || (mCaptureFormat c =? V4L2_PIX_FMT_H264).
(** The user wants YUV420 and the driver delivers YUYV. *)
Definition is_converted (c : cam_cfg) : bool :=
  negb (mVideoFormat c =? V4L2_PIX_FMT_YUYV) && (mCaptureFormat c =? V4L2_PIX_FMT_YUYV).

(** Decoded or converted into the frame's second memory, when it has to be. *)
Definition convert_frame (b : v4l2_buffer) : M S unit :=
  let* c := get_glob cfg in
  let* m := get_glob mem in
  let size := mFrameWidth c * mFrameHeight c in
  (if is_compressed c then
     let* vir := slot (buf_vir_addr m) (b_index b) in
     let* p := slot (map_mem m) (b_index b) in
     step_env (ion_flush vir (Z.quot (size * 3) 2)) ;;;
     Libve_dec2 p vir (b_bytesused b) ;;;
     step_env (ion_flush vir (Z.quot (size * 3) 2))
   else ret tt) ;;;
  (if is_converted c then
     let* vir := slot (buf_vir_addr m) (b_index b) in
     let* p := slot (map_mem m) (b_index b) in
     step_env (ion_flush vir (size * 2)) ;;;
     let* yuyv := ask_env (mem_get p (map_length m)) in
     let* nv21 := ask_env (mem_get vir (Z.quot (size * 3) 2)) in
     let* nv21 := checked (YUYVToNV21 yuyv (mFrameWidth c) (mFrameHeight c) nv21) in
     step_env (mem_put vir nv21) ;;;
     step_env (ion_flush vir (size * 2))
   else ret tt).

(** The frame as the threads will see it, made in a local that holds anything. *)
Definition make_frame (b : v4l2_buffer) (now : Z) : M S V4L2BUF_t :=
  let* c := get_glob cfg in
  let* m := get_glob mem in
  let* z := get_glob zm in
  let* junk := ask_env stack_buf in
  let* '(phy, vir) :=
    (if is_converted c || (negb (mVideoFormat c =? V4L2_PIX_FMT_YUYV) && is_compressed c) then
       let* phy := slot (buf_phy_addr m) (b_index b) in
       let* vir := slot (buf_vir_addr m) (b_index b) in ret (phy, vir)
     else
       let* p := slot (map_mem m) (b_index b) in ret (b_offset b, u32 p)) in
  let crop := mRectCrop z in
  let f := set_vb_addrPhyY phy (set_vb_addrVirY vir (set_vb_width (mFrameWidth c)
    (set_vb_height (mFrameHeight c) (set_vb_index (b_index b) (set_vb_timeStamp now
    (set_vb_crop_rect (RectT (left crop) (top crop) (right crop - left crop + 1) (bottom crop - top crop + 1))
    (set_vb_format (mVideoFormat c) (set_vb_bytesused (b_bytesused b) junk)))))))) in
  ret (set_vb_refCnt 1
    (if fast_picture_mode (mHalCameraInfo c) then
       let thumb := mThumbRectCrop z in
       let off := ALIGN_4K (Z.quot (ALIGN_32B (mFrameWidth c) * mFrameHeight c * 3) 2) in
       set_vb_isThumbAvailable 1 (set_vb_thumbUsedForPreview 1 (set_vb_thumbUsedForPhoto 0
         (set_vb_thumbUsedForVideo (if mIsThumbUsedForVideo c then 1 else 0)
         (set_vb_thumbAddrPhyY (u32 (phy + off)) (set_vb_thumbAddrVirY (u32 (vir + off))
         (set_vb_thumbWidth (mThumbWidth c) (set_vb_thumbHeight (mThumbHeight c)
         (set_vb_thumb_crop_rect (RectT (left thumb) (top thumb) (right thumb - left thumb)
                                    (bottom thumb - top thumb))
         (set_vb_thumbFormat (mVideoFormat c) f)))))))))
     else set_vb_isThumbAvailable 0 f)).

(** [TAKE_PICTURE_NORMAL]: the frame is copied; [None] when it is too big, which
    ends the thread. *)
Definition normal_picture (b : V4L2BUF_t) : M S (option unit) :=
  let* c := get_glob cfg in
  let* m := get_glob mem in
  let phy := vb_addrPhyY (mPicBuffer m) in
  let vir := vb_addrVirY (mPicBuffer m) in
  let frame_size := Z.shiftr (mFrameWidth c * mFrameHeight c * 3) 1 in
  if MAX_PICTURE_SIZE <? frame_size then ret None else
  upd_mem (set_mPicBuffer (set_vb_addrPhyY phy (set_vb_addrVirY vir b))) ;;;
  step_env (ion_flush (vb_addrVirY b) frame_size) ;;;
  move_mem vir (vb_addrVirY b) frame_size ;;;
  step_env (ion_flush vir frame_size) ;;;
  let* r := queue_picture PPic in
  if negb (r =? 0) then signal mPictureCond ;;; ret (Some tt) else
  upd_pic (set_mIsPicCopy true) ;;;
  upd_sync (set_mCaptureThreadState CAPTURE_STATE_PAUSED) ;;;
  upd_pic (set_mTakePictureState TAKE_PICTURE_NULL) ;;;
  signal mPictureCond ;;; ret (Some tt).

(** A frame for the picture queue as well; [false] for [goto DEC_REF]. *)
Definition picture_too (p : bufptr) (c : cond) (after : M S unit) : M S bool :=
  let* r := queue_picture p in
  if negb (r =? 0) then signal c ;;; ret false else
  add_ref p ;;; after ;;; upd_pic (set_mIsPicCopy false) ;;; signal c ;;; ret true.

Definition isContinuousPictureTime : M S bool :=
  let* p := get_glob pic in
  if bool_decide (mTakePictureState p = TAKE_PICTURE_CONTINUOUS_FAST) then ret true else
  let* now := on_env e_gettimeofday in
  if mContinuousPictureAfter p <=? (now - mContinuousPictureLast p) mod 2 ^ 64
  then upd_pic (set_mContinuousPictureLast now) ;;; ret true else ret false.

Definition fast_part (p : bufptr) (reserved : Z) : M S bool :=
  let* c := get_glob cfg in
  let* t := get_glob (fun g => mTakePictureState (pic g)) in
  if bool_decide (t = TAKE_PICTURE_FAST \/ t = TAKE_PICTURE_RECORD) then
    if fast_picture_mode (mHalCameraInfo c) && (reserved =? 0xFFFFFFFF) then ret false
    else picture_too p mPictureCond (upd_pic (set_mTakePictureState TAKE_PICTURE_NULL))
  else ret true.
Definition smart_part (p : bufptr) : M S bool :=
  let* t := get_glob (fun g => mTakePictureState (pic g)) in
  if bool_decide (t = TAKE_PICTURE_SMART) then picture_too p mSmartPictureCond (ret tt) else ret true.
Definition continuous_part (p : bufptr) : M S bool :=
  let* t := get_glob (fun g => mTakePictureState (pic g)) in
  if bool_decide (t = TAKE_PICTURE_CONTINUOUS \/ t = TAKE_PICTURE_CONTINUOUS_FAST) then
    let* due := isContinuousPictureTime in
    if due : bool then picture_too p mContinuousPictureCond (ret tt) else ret true
  else ret true.

(** The frame to the preview, and to the pictures that want it. *)
Definition deliver_frame (i reserved : Z) : M S unit :=
  let p := PBuf i in
  let* r := queue_preview p in
  if negb (r =? 0) then ret tt else
  add_ref p ;;;
  signal mPreviewCond ;;;
  let* go := fast_part p reserved in
  if negb go then ret tt else
  let* go := smart_part p in
  if negb go then ret tt else
  continuous_part p ;;; ret tt.

(** The frame taken from the driver, up to [DEC_REF]. *)
Definition take_frame (b : v4l2_buffer) : M S cap_pc :=
  count_down ;;;
  let* now := on_env e_systemTime in
  update_crop ;;;
  convert_frame b ;;;
  let* f := make_frame b now in
  put_buf (PBuf (b_index b)) f ;;;
  let* c := get_glob cfg in
  let* t := get_glob (fun g => mTakePictureState (pic g)) in
  (if negb (mVideoHint c) && negb (bool_decide (t = TAKE_PICTURE_NORMAL))
   then upd_mem (set_mCurrentV4l2buf (Some (b_index b))) else ret tt) ;;;
  if bool_decide (t = TAKE_PICTURE_NORMAL) then
    let* r := normal_picture f in
    match r with None => ret CapExited | Some _ => ret (CapRelease (b_index b)) end
  else deliver_frame (b_index b) (b_reserved b) ;;; ret (CapRelease (b_index b)).

Definition capture_frame (r : Z) : M S cap_pc :=
  let* y := get_glob sync in
  if bool_decide (mCaptureThreadState y = CAPTURE_STATE_PAUSED \/
                  mCaptureThreadState y = CAPTURE_STATE_EXIT)
  then singalDisconnect ;;; ret CapTop else
  if negb (r =? 0) then ret CapTop else
  let* '(r, b) := getPreviewFrame in
  if negb (r =? OK) then step_env (e_usleep 10000) ;;; ret CapTop else take_frame b.

Definition capture_release (i : Z) : M S cap_pc := releasePreviewFrame i ;;; ret CapTop.

(** ** previewThread *)

Definition preview_dequeue : M S prev_pc :=
  let* p := dequeue_preview in
  match p with None => ret PrevEmpty | Some p => ret (PrevGot p) end.
Definition preview_sleep : M S prev_pc := sleep_on mPreviewCond ;;; ret PrevAsleep.

(** The memory behind a frame is gone. *)
Definition is_released (b : V4L2BUF_t) : M S bool :=
  let* m := get_glob mem in
  let* p := slot (map_mem m) (vb_index b) in
  ret ((p =? 0) || (vb_addrPhyY b =? 0)).

(** To the window; every second frame only while the driver is short of buffers. *)
Definition show_frame (p : bufptr) : M S prev_pc :=
  let* b := the_buf p in
  let* r := get_glob rate_ in
  (if negb (mNeedHalfFrameRate r) || mShouldPreview r then step_env (pw_next_frame b) else ret tt) ;;;
  upd_rate (set_mShouldPreview (negb (mShouldPreview r))) ;;;
  ret (PrevRelease p).

(** Under the object lock, which is kept until the frame is released.  When the
    notifier keeps the frame for the recorder, it has read the count at the end. *)
Definition preview_frame (p : bufptr) : M S prev_pc :=
  lock_object ;;;
  let* b := the_buf p in
  let* gone := is_released b in
  if gone : bool then unlock_object ;;; ret PrevTop else
  let* c := get_glob cfg in
  let* kept := on_env (cb_next_frame b (mUseHwEncoder c)) in
  if kept : bool then ret (PrevCount p (vb_refCnt b)) else show_frame p.

(** [pbuf->refCnt++] of [onNextFrameHW] without [mCaptureMutex]: the count read
    before, and one more, is stored.  A thread that changed the count since may as
    well have read it before this store and written after it: then the store is
    [lost]. *)
Definition preview_count (p : bufptr) (n : Z) (lost : bool) : M S prev_pc :=
  let* b := the_buf p in
  (if lost && negb (vb_refCnt b =? n) then ret tt else put_buf p (set_vb_refCnt (n + 1) b)) ;;;
  show_frame p.
Definition preview_release (p : bufptr) : M S prev_pc :=
  let* b := the_buf p in
  releasePreviewFrame (vb_index b) ;;; unlock_object ;;; ret PrevTop.

(** ** pictureThread *)

Definition picture_dequeue : M S pic_pc :=
  let* p := dequeue_picture in
  match p with None => ret PicEmpty | Some p => ret (PicGot p) end.
Definition picture_sleep (c : cond) : M S pic_pc := sleep_on c ;;; ret PicAsleep.
(** The frame given back unless it was a copy. *)
Definition unless_copy (p : bufptr) : M S pic_pc :=
  let* q := get_glob pic in
  let* b := the_buf p in
  if mIsPicCopy q then ret PicTop else ret (PicRelease (vb_index b)).
Definition picture_release (i : Z) : M S pic_pc := releasePreviewFrame i ;;; ret PicTop.

Definition take_picture (b : V4L2BUF_t) (continuous : bool) : M S bool :=
  on_env (cb_take_picture b continuous).
Definition picture_frame (p : bufptr) : M S pic_pc :=
  let* b := the_buf p in
  step_env (hw_notify_picture b) ;;;
  take_picture b false ;;;
  ret (PicTaken p).

(** ** smartPictureThread *)

(** One of the two detections took the picture. *)
Definition smart_shot (b : V4L2BUF_t) (seen : E -> bool) : M S unit :=
  let* s := ask_env seen in
  if s then
    step_env (hw_notify_picture b) ;;; take_picture b false ;;;
    stopSmartPicture ;;; upd_pic (set_mTakePictureState TAKE_PICTURE_NULL)
  else ret tt.
Definition smart_frame (p : bufptr) : M S pic_pc :=
  let* b := the_buf p in
  let* q := get_glob pic in
  if mSmartPictureDone q then
    upd_pic (set_mTakePictureState TAKE_PICTURE_NULL) ;;; ret (PicTaken p)
  else
    smart_shot b hw_blink ;;; smart_shot b hw_smile ;;; ret (PicTaken p).

(** ** continuousPictureThread *)

(** Under the object lock; the frame is always given back. *)
Definition continuous_frame (p : bufptr) : M S pic_pc :=
  lock_object ;;;
  let* b := the_buf p in
  let* gone := is_released b in
  if gone : bool then unlock_object ;;; ret PicTop else
  let* q := get_glob pic in
  (if mContinuousPictureMax q <=? mContinuousPictureCnt q then
     upd_pic (set_mTakePictureState TAKE_PICTURE_NULL) ;;; stopContinuousPicture
   else if negb (mContinuousPictureStarted q) then
     upd_pic (set_mTakePictureState TAKE_PICTURE_NULL)
   else
     let* ok := take_picture b true in
     if ok : bool then upd_pic (fun q => set_mContinuousPictureCnt (mContinuousPictureCnt q + 1) q)
     else ret tt) ;;;
  ret (PicRelease (vb_index b)).
Definition continuous_release (i : Z) : M S pic_pc :=
  releasePreviewFrame i ;;; unlock_object ;;; ret PicTop.

(** ** Other callers *)

(** The frame the face detection looks at: its bytes, when there is one. *)
Definition getCurrentFaceFrame : M S (option bytes) :=
  let* y := get_glob sync in
  if negb (bool_decide (mCaptureThreadState y = CAPTURE_STATE_STARTED)) then ret None else
  with_object (
    let* m := get_glob mem in
    match mCurrentV4l2buf m with
    | None => ret None
    | Some i =>
        let* b := slot (mV4l2buf m) i in
        if vb_addrVirY b =? 0 then ret None else
        if (vb_isThumbAvailable b =? 1) && (vb_thumbUsedForPreview b =? 1) then
          let off := ALIGN_4K (Z.quot (ALIGN_16B (vb_width b) * vb_height b * 3) 2) in
          let* bs := ask_env (mem_get (vb_addrVirY b + off) (ALIGN_16B (vb_thumbWidth b) * vb_thumbHeight b)) in
          ret (Some bs)
        else
          let* bs := ask_env (mem_get (vb_addrVirY b) (vb_width b * vb_height b)) in ret (Some bs)
    end).

Definition isPreviewTime : M S bool :=
  let* c := get_glob cfg in
  if negb (mVideoHint c) then ret true else
  let* p := get_glob pic in
  let* now := on_env e_gettimeofday in
  if mPreviewAfter p <=? (now - mPreviewLast p) mod 2 ^ 64
  then upd_pic (set_mPreviewLast now) ;;; ret true else ret false.
Definition waitFaceDectectTime : M S unit :=
  let* p := get_glob pic in
  let* now := on_env e_gettimeofday in
  let passed := (now - mFaceDectectLast p) mod 2 ^ 64 in
  if mFaceDectectAfter p <=? passed then upd_pic (set_mFaceDectectLast now) else
  step_env (e_usleep (mFaceDectectAfter p - passed)) ;;;
  let* now := on_env e_gettimeofday in
  upd_pic (set_mFaceDectectLast now).
End Threads.

(** ** The system

    Any interleaving of the pieces above and of the calls the application makes
    while the camera runs.  An actor's turn is a function: [None] when it has to
    wait.  The state has the frames the recorder was given as well: it returns them
    through [CameraHardware::releaseRecordingFrame]. *)

Inductive shooter := Single | Continuous | Smart.
#[export] Instance shooter_eq : EqDecision shooter.
Proof. solve_decision. Defined.

(** What the application may call between [startDevice] and [stopDevice]. *)
Inductive app_call :=
| AStartDelivering
| AStopDelivering
| ATakePicture (t : TAKE_PICTURE_STATE)
| AZoom (new_zoom max_zoom : Z)
| AHwEncoder (hw : bool)
| AContinuousCnt (cnt : Z)
| AStartContinuous
| AStopContinuous
| AStartSmart
| AStopSmart
| AFaceFrame
| AReleaseFrame (i : Z).

Inductive actor :=
| ACapture
| APreview (lost : bool)   (* what becomes of the store, if the thread is about to make it *)
| AShooter (w : shooter)
| AApp (c : app_call)
| ASpurious (c : cond).    (* a sleeper wakes without a signal *)

(** One of the frames the recorder has. *)
Fixpoint take_out (i : Z) (l : list Z) : option (list Z) :=
  match l with
  | [] => None
  | x :: l => if x =? i then Some l else option_map (cons x) (take_out i l)
  end.

Section System.
Context {D E : Type} `{V4l2Ops D} `{CamEnvOps E} `{CamClient E}.
Abbreviation S := (mach (cam_world D E) cam_g).

Record sys := Sys {
  st : S;
  cap : cap_pc;
  prev : prev_pc;
  shot : shooter -> pic_pc;
  kept : list Z;
}.

Definition set_shot (w : shooter) (pc : pic_pc) (f : shooter -> pic_pc) : shooter -> pic_pc :=
  fun w' => if decide (w' = w) then pc else f w'.

(** A sleeper that nobody woke waits on. *)
Definition awake (c : cond) : M S unit :=
  let* y := get_glob sync in if asleep y c then blocked else ret tt.

Definition cap_turn (pc : cap_pc) : M S cap_pc :=
  match pc with
  | CapTop => capture_enter
  | CapAsleep => awake mCaptureCond ;;; capture_woken
  | CapSelect => capture_select
  | CapReady r => capture_frame r
  | CapRelease i => capture_release i
  | CapExited => blocked
  end.

Definition prev_turn (pc : prev_pc) (lost : bool) : M S prev_pc :=
  match pc with
  | PrevTop => preview_dequeue
  | PrevEmpty => preview_sleep
  | PrevAsleep => awake mPreviewCond ;;; ret PrevTop
  | PrevGot p => preview_frame p
  | PrevCount p n => preview_count p n lost
  | PrevRelease p => preview_release p
  end.
(** The recorder is given the frame that was counted for it. *)
Definition given (pc : prev_pc) (kept : list Z) : list Z :=
  match pc with PrevCount (PBuf i) _ => i :: kept | _ => kept end.

Definition shot_cond (w : shooter) : cond :=
  match w with Single => mPictureCond | Continuous => mContinuousPictureCond | Smart => mSmartPictureCond end.
Definition shot_turn (w : shooter) (pc : pic_pc) : M S pic_pc :=
  match pc with
  | PicTop => picture_dequeue
  | PicEmpty => picture_sleep (shot_cond w)
  | PicAsleep => awake (shot_cond w) ;;; ret PicTop
  | PicGot p =>
      match w with
      | Single => picture_frame p
      | Continuous => continuous_frame p
      | Smart => smart_frame p
      end
  | PicTaken p => unless_copy p
  | PicRelease i => match w with Continuous => continuous_release i | _ => picture_release i end
  end.

(** The frame the recorder gives back is one it has. *)
Definition app_turn (c : app_call) (kept : list Z) : M S (list Z) :=
  let same {A} (m : M S A) := m ;;; ret kept in
  match c with
  | AStartDelivering => same startDeliveringFrames
  | AStopDelivering => same stopDeliveringFrames
  | ATakePicture t => same (setTakePictureState t)
  | AZoom z m => same (setCrop z m)
  | AHwEncoder b => same (setHwEncoder b)
  | AContinuousCnt n => same (setContinuousPictureCnt n)
  | AStartContinuous => same startContinuousPicture
  | AStopContinuous => same stopContinuousPicture
  | AStartSmart => same startSmartPicture
  | AStopSmart => same stopSmartPicture
  | AFaceFrame => same getCurrentFaceFrame
  | AReleaseFrame i =>
      match take_out i kept with
      | Some rest => releasePreviewFrame i ;;; ret rest
      | None => blocked
      end
  end.

Definition done {A} (o : outcome S A) (k : A -> S -> sys) : option sys :=
  match o with Done a s => Some (k a s) | _ => None end.
Definition turn (a : actor) (y : sys) : option sys :=
  match a with
  | ACapture =>
      done (cap_turn (cap y) (st y)) (fun pc s => Sys s pc (prev y) (shot y) (kept y))
  | APreview lost =>
      done (prev_turn (prev y) lost (st y)) (fun pc s =>
        Sys s (cap y) pc (shot y) (given (prev y) (kept y)))
  | AShooter w =>
      done (shot_turn w (shot y w) (st y)) (fun pc s =>
        Sys s (cap y) (prev y) (set_shot w pc (shot y)) (kept y))
  | AApp c =>
      done (app_turn c (kept y) (st y)) (fun k s => Sys s (cap y) (prev y) (shot y) k)
  | ASpurious c =>
      done (signal c (st y)) (fun _ s => Sys s (cap y) (prev y) (shot y) (kept y))
  end.
Fixpoint turns (l : list actor) (y : sys) : option sys :=
  match l with
  | [] => Some y
  | a :: l => y ← turn a y; turns l y
  end.
End System.
