(* ===== verification/CamFrames.v ===== *)
(** * camera: who has a frame

    The law class of a driver that works ([V4l2Law]), what of the state the frames
    depend on ([view_of]), and the invariant between calls ([core]): every count is
    the number of the frame's users, and the driver has exactly the frames that
    nobody uses.  Then what the pieces of the threads do to it. *)

From stdpp Require Import gmap.
From S2P Require Import Prelude CLib Os CamPixel CamEnv CamDevice CamThreads.

(** The buffers of a streaming driver: how many there are, and which wait to be
    filled.  It hands out one of those; a buffer it does not have is queued, or the
    ioctl answers -1 and moves none; waiting for it moves none. *)
Class V4l2Law (D : Type) `{V4l2Ops D} := {
  buffers : D -> Z;
  with_driver : D -> gset Z;
  law_dqbuf : forall fd d r b d', v_dqbuf fd d = (r, b, d') ->
    buffers d' = buffers d /\
    if r <? 0 then with_driver d' = with_driver d
    else b_index b ∈ with_driver d /\ with_driver d' = with_driver d ∖ {[b_index b]};
  law_qbuf : forall fd i d r d', v_qbuf fd i d = (r, d') ->
    buffers d' = buffers d /\
    (0 <= i < buffers d -> i ∉ with_driver d ->
      if r <? 0 then with_driver d' = with_driver d else r = 0 /\ with_driver d' = {[i]} ∪ with_driver d);
  law_select : forall fd d r d', v_select fd d = (r, d') ->
    buffers d' = buffers d /\ with_driver d' = with_driver d;
}.

(** The code takes [m.offset] of a filled buffer for its physical address, and 0
    for a frame that was released: a condition on the driver that V4L2 does not
    make (there the offset is a cookie for [mmap], 0 for the first buffer). *)
Class PhysicalOffset (D : Type) `{V4l2Ops D} : Prop :=
  law_offset : forall fd d r b d', v_dqbuf fd d = (r, b, d') -> 0 <= r -> b_offset b <> 0.
(** Queueing a buffer never fails. *)
Definition takes_back (D : Type) `{V4l2Law D} : Prop :=
  forall fd i d r d', v_qbuf fd i d = (r, d') -> 0 <= i < buffers d -> i ∉ with_driver d -> r = 0.

(** The parts of the state. *)
Record view := View {
  w_bufs : list V4L2BUF_t;
  w_drv : gset Z;
  w_total : Z;
  w_prev : list bufptr;
  w_pic : list bufptr;
  w_avail : Z;
  w_copy : bool;
  w_take : TAKE_PICTURE_STATE;
  w_map : list Z;
  w_phy : list Z;
  w_cnt : Z;
  w_conv : bool;
  w_back : Prop;
}.

Definition buf_at (bs : list V4L2BUF_t) (i : Z) : option V4L2BUF_t :=
  if i <? 0 then None else bs !! Z.to_nat i.
Definition ref_at (bs : list V4L2BUF_t) (i : Z) : Z :=
  match buf_at bs i with Some b => vb_refCnt b | None => 0 end.

(** How often a frame is in a queue. *)
Fixpoint in_queue (i : Z) (q : list bufptr) : Z :=
  match q with
  | [] => 0
  | p :: q => (if decide (p = PBuf i) then 1 else 0) + in_queue i q
  end.
Lemma in_queue_app i q k : in_queue i (q ++ k) = in_queue i q + in_queue i k.
Proof. induction q as [|p q IH]; cbn; lia. Qed.
Lemma in_queue_nonneg i q : 0 <= in_queue i q.
Proof. induction q as [|p q IH]; cbn; [lia|]. case_decide; lia. Qed.

Definition one (j i : Z) : Z := if decide (i = j) then 1 else 0.
Lemma in_queue_buf i j : in_queue i [PBuf j] = one j i.
Proof. cbn. unfold one. repeat case_decide; lia || congruence. Qed.

(** [c i] users of frame [i]. *)
Record core (v : view) (c : Z -> Z) : Prop := {
  co_len : lenZ (w_bufs v) = NB_BUFFER;
  co_ref : forall i, 0 <= i < NB_BUFFER -> ref_at (w_bufs v) i = c i;
  co_nonneg : forall i, 0 <= c i;
  co_used : forall i, 0 < c i ->
    0 <= i < w_cnt v /\
    exists b, buf_at (w_bufs v) i = Some b /\ vb_index b = i /\ vb_addrPhyY b <> 0;
  co_drv : forall i, i ∈ w_drv v -> 0 <= i < w_cnt v /\ c i = 0;
  co_back : w_back v -> forall i, 0 <= i < w_cnt v -> c i = 0 -> i ∈ w_drv v;
  co_avail : w_avail v = Z.of_nat (size (w_drv v));
  co_cnt : 0 <= w_cnt v <= NB_BUFFER;
  co_total : w_total v = w_cnt v;
  co_map : forall i, 0 <= i < w_cnt v -> exists p, w_map v !! Z.to_nat i = Some p /\ p <> 0;
  co_phy : w_conv v = true ->
    forall i, 0 <= i < w_cnt v -> exists p, w_phy v !! Z.to_nat i = Some p /\ p <> 0;
}.

Lemma core_ext v c c' : core v c -> (forall i, c i = c' i) -> core v c'.
Proof.
  intros [] E. split; try done.
  - intros i Hi. rewrite <- E. auto.
  - intros i. rewrite <- E. auto.
  - intros i Hi. rewrite <- E in Hi. auto.
  - intros i. rewrite <- E. auto.
  - intros Hb i. rewrite <- E. auto.
Qed.

(** ** Lemmas on slots *)

Lemma buf_at_insert bs j b i :
  0 <= j < lenZ bs -> buf_at (<[Z.to_nat j := b]> bs) i = if decide (i = j) then Some b else buf_at bs i.
Proof.
  intros Hj. unfold buf_at. destruct (Z.ltb_spec i 0).
  - case_decide; [lia|done].
  - case_decide as E.
    + subst. apply list_lookup_insert_eq. unfold lenZ in Hj. lia.
    + apply list_lookup_insert_ne. lia.
Qed.
Lemma ref_at_insert bs j b i :
  0 <= j < lenZ bs -> ref_at (<[Z.to_nat j := b]> bs) i = if decide (i = j) then vb_refCnt b else ref_at bs i.
Proof. intros Hj. unfold ref_at. rewrite buf_at_insert by done. by case_decide. Qed.

Definition with_bufs (f : list V4L2BUF_t -> list V4L2BUF_t) (v : view) : view :=
  View (f (w_bufs v)) (w_drv v) (w_total v) (w_prev v) (w_pic v) (w_avail v) (w_copy v) (w_take v)
    (w_map v) (w_phy v) (w_cnt v) (w_conv v) (w_back v).
Definition with_avail (d : gset Z) (n : Z) (v : view) : view :=
  View (w_bufs v) d (w_total v) (w_prev v) (w_pic v) n (w_copy v) (w_take v)
    (w_map v) (w_phy v) (w_cnt v) (w_conv v) (w_back v).
Definition with_queues (q k : list bufptr) (v : view) : view :=
  View (w_bufs v) (w_drv v) (w_total v) q k (w_avail v) (w_copy v) (w_take v)
    (w_map v) (w_phy v) (w_cnt v) (w_conv v) (w_back v).
Definition with_take (copy : bool) (t : TAKE_PICTURE_STATE) (v : view) : view :=
  View (w_bufs v) (w_drv v) (w_total v) (w_prev v) (w_pic v) (w_avail v) copy t
    (w_map v) (w_phy v) (w_cnt v) (w_conv v) (w_back v).

Lemma core_queues v c q k : core v c -> core (with_queues q k v) c.
Proof. by intros []. Qed.
Lemma core_take v c b t : core v c -> core (with_take b t v) c.
Proof. by intros []. Qed.

(** Slot [j] written: its count is [n] now, and the driver has it when that is 0. *)
Lemma core_write v c j b d n :
  core v c -> 0 <= j < w_cnt v -> 0 <= vb_refCnt b ->
  (0 < vb_refCnt b -> vb_index b = j /\ vb_addrPhyY b <> 0) ->
  (forall i, i <> j -> i ∈ d <-> i ∈ w_drv v) ->
  (j ∈ d -> vb_refCnt b = 0) -> (w_back v -> vb_refCnt b = 0 -> j ∈ d) ->
  n = Z.of_nat (size d) ->
  core (with_avail d n (with_bufs (insert (Z.to_nat j) b) v))
       (fun i => if decide (i = j) then vb_refCnt b else c i).
Proof.
  intros [] Hr H0 Hb Hd Hj Hw Hn. assert (Hl : 0 <= j < lenZ (w_bufs v)) by lia.
  split; cbn [with_avail with_bufs w_bufs w_drv w_total w_avail w_cnt w_map w_phy w_conv w_back]; try done.
  - unfold lenZ in *. by rewrite length_insert.
  - intros i Hi. rewrite ref_at_insert by done. case_decide; auto.
  - intros i. case_decide; [done|]. apply co_nonneg0.
  - intros i Hc. rewrite buf_at_insert by done. case_decide as E; [|by apply co_used0].
    subst i. destruct (Hb Hc). eauto.
  - intros i. case_decide as E; [subst i; auto|]. rewrite Hd by done. apply co_drv0.
  - intros Hwb i Hi. case_decide as E; [subst i; auto|]. rewrite Hd by done. by apply co_back0.
Qed.

Lemma core_slot v c j :
  core v c -> 0 < c j ->
  exists b, buf_at (w_bufs v) j = Some b /\ vb_refCnt b = c j /\ vb_index b = j /\ vb_addrPhyY b <> 0.
Proof.
  intros [] Hj. destruct (co_used0 j Hj) as (Hr & b & Eb & Hi & Hp). exists b. split_and!; try done.
  rewrite <- co_ref0 by lia. unfold ref_at. by rewrite Eb.
Qed.

(** One user more, or one less that is not the last one. *)
Lemma core_count v c j b k :
  core v c -> 0 < c j -> 0 < c j + k -> buf_at (w_bufs v) j = Some b ->
  core (with_bufs (insert (Z.to_nat j) (set_vb_refCnt (vb_refCnt b + k) b)) v) (fun i => c i + k * one j i).
Proof.
  intros Hv Hj Hk Eb. destruct (core_slot v c j Hv Hj) as (b' & Eb' & Hr & Hi & Hp).
  rewrite Eb in Eb'. injection Eb' as <-. destruct (co_used _ _ Hv j Hj) as [Hc _].
  eapply core_ext; [eapply (core_write v c j (set_vb_refCnt (vb_refCnt b + k) b) (w_drv v) (w_avail v) Hv Hc)|];
    cbn [set_vb_refCnt vb_refCnt vb_index vb_addrPhyY].
  - lia.
  - done.
  - done.
  - intros Hd%(co_drv _ _ Hv). lia.
  - lia.
  - apply (co_avail _ _ Hv).
  - intros i. unfold one. case_decide; [subst i|]; lia.
Qed.

(** The last user gives the frame to the driver. *)
Lemma core_give v c j b :
  core v c -> c j = 1 -> buf_at (w_bufs v) j = Some b ->
  core (with_avail ({[j]} ∪ w_drv v) (w_avail v + 1)
         (with_bufs (insert (Z.to_nat j) (set_vb_refCnt (vb_refCnt b - 1) b)) v)) (fun i => c i - one j i).
Proof.
  intros Hv Hj Eb. destruct (core_slot v c j Hv ltac:(lia)) as (b' & Eb' & Hr & Hi & Hp).
  rewrite Eb in Eb'. injection Eb' as <-. destruct (co_used _ _ Hv j ltac:(lia)) as [Hc _].
  assert (Hd : j ∉ w_drv v) by (intros Hd%(co_drv _ _ Hv); lia).
  eapply core_ext; [apply (core_write v c j _ _ _ Hv Hc)|];
    cbn [set_vb_refCnt vb_refCnt vb_index vb_addrPhyY].
  - lia.
  - done.
  - intros i Hn. rewrite elem_of_union, elem_of_singleton. intuition lia.
  - lia.
  - intros _ _. apply elem_of_union_l, elem_of_singleton_2. done.
  - rewrite (co_avail _ _ Hv), size_union, size_singleton by (by apply disjoint_singleton_l). lia.
  - intros i. unfold one. case_decide; [subst i|]; lia.
Qed.

(** The driver did not take it: nobody has it. *)
Lemma core_drop v c j b :
  core v c -> c j = 1 -> buf_at (w_bufs v) j = Some b -> ~ w_back v ->
  core (with_bufs (insert (Z.to_nat j) (set_vb_refCnt (vb_refCnt b - 1) b)) v) (fun i => c i - one j i).
Proof.
  intros Hv Hj Eb Hw. destruct (core_slot v c j Hv ltac:(lia)) as (b' & Eb' & Hr & Hi & Hp).
  rewrite Eb in Eb'. injection Eb' as <-. destruct (co_used _ _ Hv j ltac:(lia)) as [Hc _].
  eapply core_ext; [eapply (core_write v c j (set_vb_refCnt (vb_refCnt b - 1) b) (w_drv v) (w_avail v) Hv Hc)|];
    cbn [set_vb_refCnt vb_refCnt vb_index vb_addrPhyY]; try done; try lia.
  - apply (co_avail _ _ Hv).
  - intros i. unfold one. case_decide; [subst i|]; lia.
Qed.

(** A frame taken from the driver has one user. *)
Lemma core_fetch v c j b :
  core v c -> j ∈ w_drv v -> vb_refCnt b = 1 -> vb_index b = j -> vb_addrPhyY b <> 0 ->
  core (with_avail (w_drv v ∖ {[j]}) (w_avail v - 1) (with_bufs (insert (Z.to_nat j) b) v))
       (fun i => c i + one j i).
Proof.
  intros Hv Hd Hb Hi Hp. destruct (co_drv _ _ Hv j Hd) as [Hr Hc].
  eapply core_ext; [apply (core_write v c j _ _ _ Hv Hr)|].
  - lia.
  - done.
  - intros i Hn. rewrite elem_of_difference, elem_of_singleton. intuition.
  - rewrite elem_of_difference, elem_of_singleton. by intros [].
  - lia.
  - rewrite (co_avail _ _ Hv), size_difference, size_singleton by (by apply singleton_subseteq_l).
    assert (size (w_drv v) <> 0%nat) by (intros E%size_empty_inv; by apply (E j) in Hd). lia.
  - intros i. unfold one. case_decide; [subst i|]; lia.
Qed.

(** ** What a call does to the frames, if it returns *)

Section Post.
Context {D E : Type} `{V4l2Law D} `{CamEnvOps E} `{CamClient E}.
Abbreviation S := (mach (cam_world D E) cam_g).
Implicit Types (s : S).

(** The frames are in their second memory. *)
Definition is_second (c : cam_cfg) : bool :=
  is_converted c || (negb (mVideoFormat c =? V4L2_PIX_FMT_YUYV) && is_compressed c).

Definition view_of s : view :=
  let g := glob s in
  View (mV4l2buf (mem g)) (with_driver (drv (world s))) (buffers (drv (world s)))
    (mQueueBufferPreview (sync g)) (mQueueBufferPicture (sync g)) (mCurAvailBufferCnt (mem g))
    (mIsPicCopy (pic g)) (mTakePictureState (pic g)) (map_mem (mem g)) (buf_phy_addr (mem g))
    (mBufferCnt (mem g)) (is_second (cfg g)) (takes_back D).

Definition post {A} (m : M S A) s (Q : A -> S -> Prop) : Prop :=
  match m s with Done a s' => Q a s' | _ => True end.

Lemma post_mono {A} (m : M S A) s (Q R : A -> S -> Prop) :
  post m s Q -> (forall a s', Q a s' -> R a s') -> post m s R.
Proof. unfold post. destruct (m s); auto. Qed.
Lemma post_bind {A B} (m : M S A) (k : A -> M S B) s Q :
  post m s (fun a s' => post (k a) s' Q) -> post (bind m k) s Q.
Proof. unfold post, bind. by destruct (m s). Qed.
Lemma post_call {A B} (m : M S A) (k : A -> M S B) s P Q :
  post m s P -> (forall a s', P a s' -> post (k a) s' Q) -> post (bind m k) s Q.
Proof. intros Hm Hk. apply post_bind. by eapply post_mono. Qed.
Lemma post_ret {A} (a : A) s (Q : A -> S -> Prop) : Q a s -> post (ret a) s Q.
Proof. done. Qed.
Lemma post_get {A B} (f : cam_g -> A) (k : A -> M S B) s Q :
  post (k (f (glob s))) s Q -> post (bind (get_glob f) k) s Q.
Proof. done. Qed.
Lemma post_checked {A B} (o : option A) (k : A -> M S B) s Q :
  (forall a, o = Some a -> post (k a) s Q) -> post (bind (checked o) k) s Q.
Proof. destruct o; [|done]. intros Hk. by apply Hk. Qed.
Lemma post_slot {A B} (l : list A) i (k : A -> M S B) s Q :
  (forall a, 0 <= i -> l !! Z.to_nat i = Some a -> post (k a) s Q) -> post (bind (slot l i) k) s Q.
Proof.
  intros Hk. unfold slot. destruct (Z.ltb_spec i 0); [done|]. apply post_checked. intros a. by apply Hk.
Qed.
Lemma post_put_slot {A B} (l : list A) i a (k : list A -> M S B) s Q :
  (0 <= i < lenZ l -> post (k (<[Z.to_nat i := a]> l)) s Q) -> post (bind (put_slot l i a) k) s Q.
Proof.
  intros Hk. unfold put_slot. destruct ((0 <=? i) && (i <? lenZ l)) eqn:Ei; [|done]. apply Hk. lia.
Qed.

(** *** Calls that leave the frames alone *)

Definition still {A} (m : M S A) : Prop := forall s, post m s (fun _ s' => view_of s' = view_of s).

Lemma still_ret {A} (a : A) : still (ret a).
Proof. done. Qed.
Lemma still_bind {A B} (m : M S A) (k : A -> M S B) : still m -> (forall a, still (k a)) -> still (bind m k).
Proof.
  intros Hm Hk s. eapply post_call; [apply Hm|]. intros a s' <-. apply Hk.
Qed.
Lemma still_undef {A} : still (undef (A := A)).
Proof. done. Qed.
Lemma still_blocked {A} : still (blocked (A := A)).
Proof. done. Qed.
Lemma still_get {A} (f : cam_g -> A) : still (get_glob f).
Proof. done. Qed.
Lemma still_checked {A} (o : option A) : still (checked o).
Proof. by destruct o. Qed.
Lemma still_slot {A} (l : list A) i : still (slot l i).
Proof. unfold slot. destruct (i <? 0); [done|apply still_checked]. Qed.
Lemma still_on_env {A} (f : E -> A * E) : still (on_env f).
Proof. intros s. unfold post, on_env, on_world. by destruct (f _). Qed.
Lemma still_step_env (f : E -> E) : still (step_env f).
Proof. done. Qed.
Lemma still_ask_env {A} (f : E -> A) : still (ask_env f).
Proof. done. Qed.
(** Writing a member that the frames do not depend on. *)
Lemma still_set (f : cam_g -> cam_g) :
  (forall w h n g, view_of (Mach w h n (f g)) = view_of (Mach w h n g)) -> still (set_glob f).
Proof. intros Hf [w h n g]. apply Hf. Qed.
Lemma still_select fd : still (on_drv (v_select fd)).
Proof.
  intros s. unfold post, on_drv, on_world. destruct (v_select fd (drv (world s))) as [r d] eqn:Er.
  destruct (law_select _ _ _ _ Er) as [Hb Hd]. unfold view_of. cbn. by rewrite Hb, Hd.
Qed.
Lemma still_signal c : still (signal c).
Proof. by apply still_set. Qed.
Lemma still_sleep c : still (sleep_on c).
Proof. by apply still_set. Qed.
End Post.

Create HintDb still discriminated.
#[export] Hint Resolve still_select still_signal still_sleep : still.

(** [still_tac] takes a call apart into steps that leave the frames alone; the
    calls already known are hints. *)
Ltac still_step :=
  first
  [ solve [auto 1 with still nocore]
  | apply still_ret | apply still_undef | apply still_blocked | apply still_get | apply still_checked
  | apply still_slot | apply still_on_env | apply still_step_env | apply still_ask_env
  | apply still_bind; [|intros ?]
  | apply still_set; reflexivity
  | match goal with
    | |- still (if ?b then _ else _) => destruct b
    | |- still (match ?o with Some _ => _ | None => _ end) => destruct o
    | |- still (let '(_, _) := ?p in _) => destruct p
    | |- still (match ?c with CAPTURE_STATE_NULL => _ | _ => _ end) => destruct c
    end ].
Ltac still_tac := repeat still_step.

(** ** The pieces of the threads

    Each piece of [CamThreads.v] against [core]: what it does to the counts, and
    which pointers it puts where. *)

Section Pieces.
Context {D E : Type} `{V4l2Law D} `{!PhysicalOffset D} `{CamEnvOps E} `{CamClient E}.
Abbreviation S := (mach (cam_world D E) cam_g).
Implicit Types (s : S).

(** What the counts do not depend on. *)
Definition rest (v : view) := (w_prev v, w_pic v, w_copy v, w_take v).

(** ** Quiet pieces *)

Lemma still_singal : still (singalDisconnect (D := D) (E := E)).
Proof. unfold singalDisconnect. still_tac. Qed.
#[local] Hint Resolve still_singal : still.
Lemma still_woken : still (capture_woken (D := D) (E := E)).
Proof. unfold capture_woken. still_tac. Qed.
#[local] Hint Resolve still_woken : still.
Lemma still_enter : still (capture_enter (D := D) (E := E)).
Proof. unfold capture_enter. still_tac. Qed.
#[local] Hint Resolve still_enter : still.
Lemma still_select_turn : still (capture_select (D := D) (E := E)).
Proof. unfold capture_select, v4l2WaitCameraReady, the_fd. still_tac. Qed.
#[local] Hint Resolve still_select_turn : still.
Lemma still_crop : still (update_crop (D := D) (E := E)).
Proof. unfold update_crop. still_tac. Qed.
#[local] Hint Resolve still_crop : still.
Lemma still_dec from to n : still (Libve_dec2 (D := D) (E := E) from to n).
Proof. unfold Libve_dec2, GetStreamData, move_mem. still_tac. Qed.
#[local] Hint Resolve still_dec : still.
Lemma still_convert b : still (convert_frame (D := D) (E := E) b).
Proof. unfold convert_frame. still_tac. Qed.
#[local] Hint Resolve still_convert : still.
Lemma still_lock : still (lock_object (D := D) (E := E)).
Proof. unfold lock_object. still_tac. Qed.
#[local] Hint Resolve still_lock : still.
Lemma still_unlock : still (unlock_object (D := D) (E := E)).
Proof. unfold unlock_object. still_tac. Qed.
#[local] Hint Resolve still_unlock : still.
Lemma still_the_buf p : still (the_buf (D := D) (E := E) p).
Proof. unfold the_buf. destruct p; still_tac. Qed.
#[local] Hint Resolve still_the_buf : still.
Lemma still_start : still (startDeliveringFrames (D := D) (E := E)).
Proof. unfold startDeliveringFrames. still_tac. Qed.
#[local] Hint Resolve still_start : still.
Lemma still_stop : still (stopDeliveringFrames (D := D) (E := E)).
Proof. unfold stopDeliveringFrames. still_tac. Qed.
#[local] Hint Resolve still_stop : still.
Lemma still_zoom a b : still (setCrop (D := D) (E := E) a b).
Proof. unfold setCrop. still_tac. Qed.
#[local] Hint Resolve still_zoom : still.
Lemma still_hw b : still (setHwEncoder (D := D) (E := E) b).
Proof. unfold setHwEncoder. still_tac. Qed.
#[local] Hint Resolve still_hw : still.
Lemma still_cnt n : still (setContinuousPictureCnt (D := D) (E := E) n).
Proof. unfold setContinuousPictureCnt. still_tac. Qed.
#[local] Hint Resolve still_cnt : still.
Lemma still_start_cont : still (startContinuousPicture (D := D) (E := E)).
Proof. unfold startContinuousPicture. still_tac. Qed.
#[local] Hint Resolve still_start_cont : still.
Lemma still_stop_cont : still (stopContinuousPicture (D := D) (E := E)).
Proof. unfold stopContinuousPicture. still_tac. Qed.
#[local] Hint Resolve still_stop_cont : still.
Lemma still_start_smart : still (startSmartPicture (D := D) (E := E)).
Proof. unfold startSmartPicture. still_tac. Qed.
#[local] Hint Resolve still_start_smart : still.
Lemma still_stop_smart : still (stopSmartPicture (D := D) (E := E)).
Proof. unfold stopSmartPicture. still_tac. Qed.
#[local] Hint Resolve still_stop_smart : still.
Lemma still_face : still (getCurrentFaceFrame (D := D) (E := E)).
Proof.
  unfold getCurrentFaceFrame, with_object. still_tac.
Qed.
#[local] Hint Resolve still_face : still.
Lemma still_time : still (isContinuousPictureTime (D := D) (E := E)).
Proof. unfold isContinuousPictureTime. still_tac. Qed.
#[local] Hint Resolve still_time : still.

(** ** Counting *)

Lemma count_down_post s :
  post count_down s (fun _ s' => view_of s' = with_avail (w_drv (view_of s)) (w_avail (view_of s) - 1) (view_of s)).
Proof. reflexivity. Qed.

Lemma buf_slot s j b :
  buf_at (w_bufs (view_of s)) j = Some b -> the_buf (PBuf j) s = Done b s.
Proof.
  cbn. unfold buf_at, the_buf, slot, bind, get_glob. destruct (j <? 0); [done|]. by intros ->.
Qed.
Lemma put_buf_run s j b :
  0 <= j < lenZ (w_bufs (view_of s)) ->
  exists s', put_buf (PBuf j) b s = Done tt s' /\ view_of s' = with_bufs (insert (Z.to_nat j) b) (view_of s) /\
    world s' = world s.
Proof.
  intros Hj. unfold put_buf, put_slot, bind, get_glob. cbn in Hj.
  replace ((0 <=? j) && (j <? lenZ (mV4l2buf (mem (glob s))))) with true by lia. cbn. eauto.
Qed.

(** The count is 0 already: the driver gets the frame, if it takes it. *)
Lemma give_post s v c j b fd :
  core v c -> c j = 1 -> buf_at (w_bufs v) j = Some b ->
  view_of s = with_bufs (insert (Z.to_nat j) (set_vb_refCnt (vb_refCnt b - 1) b)) v -> w_back v = takes_back D ->
  post (let* r := on_drv (v_qbuf fd j) in
        if r =? 0 then upd_mem (fun m => set_mCurAvailBufferCnt (mCurAvailBufferCnt m + 1) m) else ret tt) s
    (fun _ s' => core (view_of s') (fun i => c i - one j i) /\ rest (view_of s') = rest v).
Proof.
  intros Hv Hj Eb Es Ew. destruct (co_used _ _ Hv j ltac:(lia)) as [Hc _].
  pose proof (f_equal w_drv Es) as Ed. pose proof (f_equal w_total Es) as Et.
  pose proof (f_equal w_avail Es) as Ea. cbn in Ed, Et, Ea.
  destruct (v_qbuf fd j (drv (world s))) as [r d] eqn:Eq.
  destruct (law_qbuf _ _ _ _ _ Eq) as [Hb Hd].
  assert (Hr0 : 0 <= j < buffers (drv (world s))) by (rewrite Et, (co_total _ _ Hv); done).
  assert (Hj0 : j ∉ with_driver (drv (world s))) by (rewrite Ed; intros Hdj%(co_drv _ _ Hv j); lia).
  specialize (Hd Hr0 Hj0). unfold post, bind, on_drv, on_world. rewrite Eq.
  destruct (Z.ltb_spec r 0) as [Hn|Hn].
  - replace (r =? 0) with false by lia. cbn [ret]. set (s2 := Mach _ _ _ _).
    assert (V2 : view_of s2 = view_of s) by (unfold view_of; cbn; by rewrite Hb, Hd).
    rewrite V2, Es. split; [|done]. apply core_drop; [done..|].
    rewrite Ew. intros Hb'. specialize (Hb' _ _ _ _ _ Eq Hr0 Hj0). lia.
  - destruct Hd as [-> Hd]. cbn [Z.eqb upd_mem set_glob]. set (s2 := Mach _ _ _ _).
    assert (V2 : view_of s2 = with_avail ({[j]} ∪ w_drv v) (w_avail v + 1) (view_of s)).
    { unfold view_of, with_avail. cbn. by rewrite Hb, Hd, Ed, Ea. }
    rewrite V2, Es. split; [|done]. by apply core_give.
Qed.

Lemma release_post s c j :
  core (view_of s) c -> 0 < c j ->
  post (releasePreviewFrame j) s (fun _ s' =>
    core (view_of s') (fun i => c i - one j i) /\ rest (view_of s') = rest (view_of s)).
Proof.
  intros Hv Hj. destruct (core_slot _ _ _ Hv Hj) as (b & Eb & Hr & _).
  destruct (co_used _ _ Hv j Hj) as [Hc _]. pose proof (co_cnt _ _ Hv). pose proof (co_len _ _ Hv).
  unfold releasePreviewFrame, post. unfold bind at 1. rewrite (buf_slot s j b Eb).
  replace (0 <? vb_refCnt b) with true by lia.
  destruct (put_buf_run s j (set_vb_refCnt (vb_refCnt b - 1) b) ltac:(lia)) as (s1 & E1 & V1 & W1).
  unfold bind at 1. rewrite E1. destruct (Z.eqb_spec (vb_refCnt b - 1) 0) as [E0|E0].
  - apply (give_post s1 (view_of s) c j b); [done|lia|done..].
  - cbn. rewrite V1. split; [|done].
    eapply core_ext; [apply (core_count _ c j b (-1)); [done..|lia|done]|]. intros i. cbn. lia.
Qed.

Lemma add_post s c j :
  core (view_of s) c -> 0 < c j ->
  post (add_ref (PBuf j)) s (fun _ s' =>
    core (view_of s') (fun i => c i + one j i) /\ rest (view_of s') = rest (view_of s)).
Proof.
  intros Hv Hj. destruct (core_slot _ _ _ Hv Hj) as (b & Eb & Hr & _).
  destruct (co_used _ _ Hv j Hj) as [Hc _]. pose proof (co_cnt _ _ Hv). pose proof (co_len _ _ Hv).
  unfold add_ref, post. unfold bind at 1. rewrite (buf_slot s j b Eb).
  destruct (put_buf_run s j (set_vb_refCnt (vb_refCnt b + 1) b) ltac:(lia)) as (s1 & E1 & V1 & W1).
  rewrite E1, V1. split; [|done].
  eapply core_ext; [apply (core_count _ c j b 1); [done..|lia|done]|]. intros i. cbn. lia.
Qed.

(** ** The queues *)

Lemma queue_preview_post s p :
  post (queue_preview p) s (fun r s' =>
    view_of s' = if r =? 0 then with_queues (w_prev (view_of s) ++ [p]) (w_pic (view_of s)) (view_of s)
                 else view_of s).
Proof.
  unfold queue_preview, enqueue, post, bind, get_glob. by destruct (_ <? _).
Qed.
Lemma queue_picture_post s p :
  post (queue_picture p) s (fun r s' =>
    view_of s' = if r =? 0 then with_queues (w_prev (view_of s)) (w_pic (view_of s) ++ [p]) (view_of s)
                 else view_of s).
Proof.
  unfold queue_picture, enqueue, post, bind, get_glob. by destruct (_ <? _).
Qed.

(** Pointers to frame [j] queued, each with its user. *)
Definition delivered (j : Z) (c : Z -> Z) (v v' : view) : Prop :=
  exists l1 l2,
    Forall (eq (PBuf j)) (l1 ++ l2) /\
    w_prev v' = w_prev v ++ l1 /\ w_pic v' = w_pic v ++ l2 /\
    core v' (fun i => c i + in_queue i l1 + in_queue i l2) /\
    (w_copy v' = if decide (l2 = []) then w_copy v else false) /\
    (w_take v <> TAKE_PICTURE_NORMAL -> w_take v' <> TAKE_PICTURE_NORMAL).

Lemma delivered_none j c v : core v c -> delivered j c v v.
Proof.
  intros Hv. exists [], []. rewrite !app_nil_r. split_and!; try done.
  eapply core_ext; [done|]. intros i. cbn. lia.
Qed.
Lemma delivered_trans j c v v1 v2 :
  delivered j c v v1 ->
  (forall c1, core v1 c1 -> (forall i, c i <= c1 i) -> delivered j c1 v1 v2) -> delivered j c v v2.
Proof.
  intros (l1 & l2 & Hl & Hp & Hq & Hc & Hcp & Ht) Hk.
  destruct (Hk _ Hc) as (k1 & k2 & Hl' & Hp' & Hq' & Hc' & Hcp' & Ht').
  { intros i. pose proof (in_queue_nonneg i l1). pose proof (in_queue_nonneg i l2). lia. }
  exists (l1 ++ k1), (l2 ++ k2). rewrite Hp', Hp, Hq', Hq, !app_assoc. split_and!; try done.
  - rewrite !Forall_app in *. tauto.
  - eapply core_ext; [done|]. intros i. rewrite !in_queue_app. lia.
  - rewrite Hcp', Hcp. destruct k2; [rewrite app_nil_r|]; repeat case_decide; try done; destruct l2; done.
  - auto.
Qed.

(** Calls that leave all but the wish for a picture alone, and never wish for a
    copy. *)
Definition light {A} (m : M S A) : Prop := forall s,
  post m s (fun _ s' => exists t, view_of s' = with_take (w_copy (view_of s)) t (view_of s) /\
    (w_take (view_of s) <> TAKE_PICTURE_NORMAL -> t <> TAKE_PICTURE_NORMAL)).
Lemma light_quiet {A} (m : M S A) : still m -> light m.
Proof. intros Hm s. eapply post_mono; [apply Hm|]. intros a s' ->. exists (w_take (view_of s)). by destruct (view_of s). Qed.
Lemma light_bind {A B} (m : M S A) (k : A -> M S B) : light m -> (forall a, light (k a)) -> light (bind m k).
Proof.
  intros Hm Hk s. eapply post_call; [apply Hm|]. intros a s1 (t & V1 & Ht).
  eapply post_mono; [apply Hk|]. intros b s2 (t' & V2 & Ht'). exists t'. rewrite V2, V1. cbn.
  rewrite V1 in Ht'. auto.
Qed.
Lemma light_take t : t <> TAKE_PICTURE_NORMAL -> light (upd_pic (set_mTakePictureState t)).
Proof. intros Ht s. exists t. done. Qed.
Lemma no_copy_post s :
  post (upd_pic (set_mIsPicCopy false)) s (fun _ s' =>
    view_of s' = with_take false (w_take (view_of s)) (view_of s)).
Proof. done. Qed.

Lemma picture_too_post s c j w after :
  light after -> core (view_of s) c -> 0 < c j ->
  post (picture_too (PBuf j) w after) s (fun _ s' => delivered j c (view_of s) (view_of s')).
Proof.
  intros Ha Hv Hj. unfold picture_too. eapply post_call; [apply queue_picture_post|].
  intros r s1. cbn beta. destruct (r =? 0); cbn [negb]; intros V1.
  - eapply post_call; [apply (add_post s1 c j); [rewrite V1; by apply core_queues|done]|].
    intros [] s2 [C2 R2]. eapply post_call; [apply Ha|]. intros [] s3 (t & V3 & Ht).
    eapply post_call; [apply no_copy_post|]. intros [] s4 V4.
    eapply post_call; [apply still_signal|]. intros [] s5 V5. apply post_ret.
    rewrite V5, V4, V3.
    unfold rest in R2. rewrite V1 in R2. cbn in R2. injection R2 as Rp Rq Rc Rt.
    exists [], [PBuf j]. cbn [with_take w_prev w_pic w_copy w_take]. rewrite app_nil_r.
    split_and!; [by constructor|done|done| |done|].
    2: { intros HN. apply Ht. cbn in *. by rewrite Rt. }
    apply core_take, core_take. eapply core_ext; [done|]. intros i. rewrite in_queue_buf. cbn. lia.
  - eapply post_call; [apply still_signal|]. intros [] s2 V2. apply post_ret. rewrite V2, V1.
    by apply delivered_none.
Qed.

(** ** The frame handed out *)

Lemma fast_part_post s c j r :
  core (view_of s) c -> 0 < c j ->
  post (fast_part (PBuf j) r) s (fun _ s' => delivered j c (view_of s) (view_of s')).
Proof.
  intros Hv Hj. unfold fast_part. do 2 apply post_get.
  destruct (bool_decide _); [|by apply post_ret, delivered_none].
  destruct (_ && _); [by apply post_ret, delivered_none|].
  by apply picture_too_post; [by apply light_take|..].
Qed.
Lemma smart_part_post s c j :
  core (view_of s) c -> 0 < c j ->
  post (smart_part (PBuf j)) s (fun _ s' => delivered j c (view_of s) (view_of s')).
Proof.
  intros Hv Hj. unfold smart_part. apply post_get. case_match; [|by apply post_ret, delivered_none].
  by apply picture_too_post; [by apply light_quiet|..].
Qed.
Lemma continuous_part_post s c j :
  core (view_of s) c -> 0 < c j ->
  post (continuous_part (PBuf j)) s (fun _ s' => delivered j c (view_of s) (view_of s')).
Proof.
  intros Hv Hj. unfold continuous_part. apply post_get. case_match; [|by apply post_ret, delivered_none].
  eapply post_call; [apply still_time|]. intros due s1 V1. rewrite <- V1 in *.
  destruct due; [|by apply post_ret, delivered_none].
  by apply picture_too_post; [by apply light_quiet|..].
Qed.

Lemma deliver_post s c j r :
  core (view_of s) c -> 0 < c j ->
  post (deliver_frame j r) s (fun _ s' => delivered j c (view_of s) (view_of s')).
Proof.
  intros Hv Hj. unfold deliver_frame. eapply post_call; [apply queue_preview_post|].
  intros r1 s1. cbn beta. destruct (r1 =? 0); cbn [negb]; intros V1;
    [|apply post_ret; rewrite V1; by apply delivered_none].
  eapply post_call; [apply (add_post s1 c j); [rewrite V1; by apply core_queues|done]|].
  intros [] s2 [C2 R2]. eapply post_call; [apply still_signal|]. intros [] s3 V3.
  assert (D3 : delivered j c (view_of s) (view_of s3)).
  { rewrite V3. unfold rest in R2. rewrite V1 in R2. cbn in R2. injection R2 as Rp Rq Rc Rt.
    exists [PBuf j], []. rewrite !app_nil_r. cbn in Rc, Rt.
    split_and!; [by constructor|done|done| |done|cbn; congruence].
    eapply core_ext; [done|]. intros i. rewrite in_queue_buf. cbn. lia. }
  assert (Hmore : forall c1, core (view_of s3) c1 -> (forall i, c i <= c1 i) -> 0 < c1 j)
    by (intros c1 _ Hc1; specialize (Hc1 j); lia).
  clear V1 V3 R2 C2 Hv.
  set (Q := fun (_ : unit) s' => delivered j c (view_of s) (view_of s')).
  assert (Hthen : forall (m : M S bool) s', delivered j c (view_of s) (view_of s') ->
    (forall c1, core (view_of s') c1 -> 0 < c1 j -> post m s' (fun _ s'' => delivered j c1 (view_of s') (view_of s''))) ->
    post m s' (fun _ s'' => delivered j c (view_of s) (view_of s''))).
  { intros m s' Hd Hm. unfold post in *. destruct (m s') as [a s''| |] eqn:Em; [|done..].
    eapply delivered_trans; [done|]. intros c1 Hc1 Hle. apply Hm; [done|]. specialize (Hle j). lia. }
  eapply post_call; [apply (Hthen _ _ D3); intros; by apply fast_part_post|]. intros go s4 D4.
  destruct go; [|by apply post_ret]. cbn [negb].
  eapply post_call; [apply (Hthen _ _ D4); intros; by apply smart_part_post|]. intros go s5 D5.
  destruct go; [|by apply post_ret]. cbn [negb].
  eapply post_call; [apply (Hthen _ _ D5); intros; by apply continuous_part_post|]. intros go s6 D6.
  by apply post_ret.
Qed.

(** ** The frame taken from the driver *)

Definition frame_of (i : Z) (f : V4L2BUF_t) : Prop :=
  vb_refCnt f = 1 /\ vb_index f = i /\ vb_addrPhyY f <> 0.

Lemma make_frame_post s b now :
  b_offset b <> 0 ->
  (is_second (cfg (glob s)) = true -> forall p, buf_phy_addr (mem (glob s)) !! Z.to_nat (b_index b) = Some p -> p <> 0) ->
  post (make_frame b now) s (fun f s' => s' = s /\ frame_of (b_index b) f).
Proof.
  intros Ho Hp. unfold make_frame. do 3 apply post_get. change (_ || _) with (is_second (cfg (glob s))).
  apply (post_call _ _ _ (fun _ s' => s' = s)); [done|]. intros junk ? ->.
  apply (post_call _ _ _ (fun pv s' => s' = s /\ pv.1 <> 0)).
  - destruct (is_second _).
    + apply post_slot. intros phy _ Ep. apply post_slot. intros vir _ _. apply post_ret. split; [done|]. by eapply Hp.
    + apply post_slot. intros p _ _. by apply post_ret.
  - intros [phy vir] ? [-> Hphy]. apply post_ret. split; [done|]. by destruct (fast_picture_mode _).
Qed.

(** The frame has left the driver, but it is not filled in yet. *)
Definition fetched (i : Z) (v : view) : view := with_avail (w_drv v ∖ {[i]}) (w_avail v - 1) v.

Lemma put_frame_post s v c i f :
  core v c -> i ∈ w_drv v -> frame_of i f -> view_of s = fetched i v ->
  post (put_buf (PBuf i) f) s (fun _ s' => core (view_of s') (fun j => c j + one i j) /\ rest (view_of s') = rest v).
Proof.
  intros Hv Hi (Hr & Hx & Hp) Es. pose proof (co_drv _ _ Hv i Hi). pose proof (co_len _ _ Hv).
  pose proof (co_cnt _ _ Hv).
  destruct (put_buf_run s i f) as (s1 & E1 & V1 & _); [rewrite Es; cbn; lia|].
  unfold post. rewrite E1, V1, Es. split; [|done]. by apply (core_fetch v c i f).
Qed.

(** From [count_down] on. *)
Lemma take_frame_post s v c b :
  core v c -> b_index b ∈ w_drv v -> b_offset b <> 0 ->
  view_of s = with_avail (w_drv v ∖ {[b_index b]}) (w_avail v) v -> w_take v <> TAKE_PICTURE_NORMAL ->
  post (take_frame b) s (fun pc s' => pc = CapRelease (b_index b) /\
    exists v1, rest v1 = rest v /\ core v1 (fun j => c j + one (b_index b) j) /\
      delivered (b_index b) (fun j => c j + one (b_index b) j) v1 (view_of s')).
Proof.
  intros Hv Hi Ho Es Ht. set (i := b_index b) in *. unfold take_frame.
  eapply post_call; [apply count_down_post|]. intros [] s1 V1. cbn beta in V1.
  assert (Hf : view_of s1 = fetched i v) by (rewrite V1, Es; done). clear V1 Es.
  eapply post_call; [apply still_on_env|]. intros now s2 V2.
  eapply post_call; [apply still_crop|]. intros [] s3 V3.
  eapply post_call; [apply still_convert|]. intros [] s4 V4.
  assert (V : view_of s4 = fetched i v) by congruence. clear V2 V3 V4 Hf.
  eapply post_call.
  { apply make_frame_post; [done|]. intros Hs p Ep.
    pose proof (co_drv _ _ Hv i Hi) as [Hr _].
    assert (Hm : w_phy v = buf_phy_addr (mem (glob s4))) by (change (w_phy (fetched i v) = w_phy (view_of s4)); by rewrite V).
    destruct (co_phy _ _ Hv) with (i := i) as (q & Eq & Hq); [|done|].
    - change (w_conv (fetched i v) = true). by rewrite <- V.
    - rewrite Hm in Eq. fold i in Ep. congruence. }
  cbn beta. intros f ? [-> Hf].
  eapply post_call; [by apply (put_frame_post s4 v c i f)|]. cbn beta. intros [] s5 [C5 R5].
  do 2 apply post_get.
  assert (Ht5 : mTakePictureState (pic (glob s5)) <> TAKE_PICTURE_NORMAL).
  { change (w_take (view_of s5) <> TAKE_PICTURE_NORMAL). unfold rest in R5. congruence. }
  eapply (post_call _ _ _ (fun _ s' => view_of s' = view_of s5)); [by destruct (_ && _)|].
  intros [] s6 V6. rewrite <- V6 in *. rewrite bool_decide_false by done.
  eapply post_call; [apply deliver_post; [exact C5|]|].
  - cbn beta. fold i. pose proof (co_nonneg _ _ Hv i). unfold one. rewrite decide_True by done. lia.
  - intros [] s7 D7. apply post_ret. split; [done|]. eauto.
Qed.

(** ** The turns *)

(** The capture thread goes round, or holds a frame more: the one that left the
    driver, after it was handed to whoever wants it. *)
Definition captured (v : view) (c : Z -> Z) (pc : cap_pc) (v' : view) : Prop :=
  (pc = CapTop /\ core v' c /\ rest v' = rest v) \/
  (exists i v1, pc = CapRelease i /\ rest v1 = rest v /\ core v1 (fun j => c j + one i j) /\
    delivered i (fun j => c j + one i j) v1 v').

Lemma get_frame_post s :
  post getPreviewFrame s (fun rb s' =>
    let '(r, b) := rb in
    if r =? OK then b_index b ∈ w_drv (view_of s) /\ b_offset b <> 0 /\
      view_of s' = with_avail (w_drv (view_of s) ∖ {[b_index b]}) (w_avail (view_of s)) (view_of s)
    else view_of s' = view_of s).
Proof.
  unfold getPreviewFrame, the_fd, post, bind, get_glob, on_drv, on_world.
  destruct (v_dqbuf _ (drv (world s))) as [[r b] d] eqn:Eq. destruct (law_dqbuf _ _ _ _ _ Eq) as [Hb Hd].
  destruct (Z.ltb_spec r 0) as [|Hr]; cbn -[view_of].
  - unfold view_of. cbn. by rewrite Hb, Hd.
  - destruct Hd as (Hi & Hd). pose proof (law_offset _ _ _ _ _ Eq Hr) as Ho. split_and!; [done..|]. unfold view_of, with_avail. cbn. by rewrite Hb, Hd.
Qed.

Lemma capture_frame_post s r c :
  core (view_of s) c -> w_take (view_of s) <> TAKE_PICTURE_NORMAL ->
  post (capture_frame r) s (fun pc s' => captured (view_of s) c pc (view_of s')).
Proof.
  intros Hv Ht. unfold capture_frame. apply post_get. destruct (bool_decide _).
  { eapply post_call; [apply still_singal|]. intros [] s1 V1. apply post_ret. left. by rewrite V1. }
  destruct (negb _); [by apply post_ret; left|].
  eapply post_call; [apply get_frame_post|]. intros [r1 b] s1. cbn beta iota.
  destruct (r1 =? OK); cbn [negb].
  - intros (Hi & Ho & V1). eapply post_mono; [by apply (take_frame_post s1 (view_of s) c b)|].
    intros pc s2 (-> & v1 & R1 & C1 & D1). right. eauto 6.
  - intros V1. eapply post_call; [apply still_step_env|]. intros [] s2 V2. apply post_ret. left.
    by rewrite V2, V1.
Qed.

Lemma lock_quiet s : post lock_object s (fun _ s' => view_of s' = view_of s).
Proof. apply still_lock. Qed.

Lemma is_released_post s c b :
  core (view_of s) c -> 0 <= vb_index b < w_cnt (view_of s) -> vb_addrPhyY b <> 0 ->
  post (is_released b) s (fun gone s' => s' = s /\ gone = false).
Proof.
  intros Hv Hi Hp. unfold is_released. apply post_get, post_slot. intros p _ Ep. apply post_ret.
  destruct (co_map _ _ Hv _ Hi) as (q & Eq & Hq). cbn in Eq. split; [done|]. assert (p = q) by congruence. lia.
Qed.

(** What a thread finds behind a pointer it has. *)
Lemma the_buf_post s c i :
  core (view_of s) c -> 0 < c i ->
  post (the_buf (PBuf i)) s (fun b s' => s' = s /\ vb_index b = i /\ vb_addrPhyY b <> 0 /\ 0 <= i < w_cnt (view_of s)).
Proof.
  intros Hv Hi. destruct (core_slot _ _ _ Hv Hi) as (b & Eb & _ & Hx & Hp). unfold post.
  rewrite (buf_slot s i b Eb). destruct (co_used _ _ Hv i Hi). split_and!; done || lia.
Qed.

Lemma the_count_post s c i :
  core (view_of s) c -> 0 < c i ->
  post (the_buf (PBuf i)) s (fun b s' => s' = s /\ buf_at (w_bufs (view_of s)) i = Some b /\
    vb_refCnt b = ref_at (w_bufs (view_of s)) i /\ vb_index b = i /\ vb_addrPhyY b <> 0).
Proof.
  intros Hv Hi. destruct (core_slot _ _ _ Hv Hi) as (b & Eb & _ & Hx & Hp). unfold post.
  rewrite (buf_slot s i b Eb). unfold ref_at. by rewrite Eb.
Qed.
Lemma show_frame_post s c i :
  core (view_of s) c -> 0 < c i ->
  post (show_frame (PBuf i)) s (fun pc s' => pc = PrevRelease (PBuf i) /\ view_of s' = view_of s).
Proof.
  intros Hv Hi. unfold show_frame. eapply post_call; [by apply (the_buf_post s c i)|].
  intros b ? (-> & _). apply post_get.
  eapply (post_call _ _ _ (fun _ s' => view_of s' = view_of s)); [by destruct (_ || _)|].
  intros [] s1 V1. eapply (post_call _ _ _ (fun _ s' => view_of s' = view_of s1)); [done|].
  intros [] s2 V2. apply post_ret. by rewrite V2, V1.
Qed.

(** The preview thread keeps its frame; or it has read its count. *)
Lemma preview_frame_post s c i :
  core (view_of s) c -> 0 < c i ->
  post (preview_frame (PBuf i)) s (fun pc s' => view_of s' = view_of s /\
    (pc = PrevRelease (PBuf i) \/ pc = PrevCount (PBuf i) (ref_at (w_bufs (view_of s)) i))).
Proof.
  intros Hv Hi. unfold preview_frame. eapply post_call; [apply lock_quiet|]. intros [] s1 V1. rewrite <- V1 in *.
  eapply post_call; [by apply (the_count_post s1 c i)|]. intros b ? (-> & _ & <- & Hx & Hp).
  destruct (co_used _ _ Hv i Hi) as [Hc _].
  eapply post_call; [apply (is_released_post s1 c); [done|by rewrite Hx|done]|]. intros ? ? [-> ->]. apply post_get.
  eapply post_call; [apply still_on_env|]. intros kept s2 V2. rewrite <- V2 in *. destruct kept.
  - apply post_ret. auto.
  - eapply post_mono; [by apply (show_frame_post s2 c)|]. cbn beta. intros pc s3 [-> V3]. auto.
Qed.

(** The recorder has it as well, if nobody changed the count meanwhile. *)
Lemma preview_count_post s c i lost :
  core (view_of s) c -> 0 < c i ->
  post (preview_count (PBuf i) (ref_at (w_bufs (view_of s)) i) lost) s (fun pc s' =>
    pc = PrevRelease (PBuf i) /\ rest (view_of s') = rest (view_of s) /\
    core (view_of s') (fun j => c j + one i j)).
Proof.
  intros Hv Hi. unfold preview_count.
  eapply post_call; [by apply (the_count_post s c i)|]. intros b ? (-> & Eb & <- & _).
  rewrite Z.eqb_refl, andb_false_r. pose proof (add_post s c i Hv Hi) as Ha. unfold add_ref, post, bind in Ha.
  rewrite (buf_slot s i b Eb) in Ha. eapply post_call; [exact Ha|].
  cbn beta. intros [] s1 [C1 R1]. eapply post_mono; [apply (show_frame_post s1 _ i C1)|].
  - unfold one. rewrite decide_True by done. lia.
  - cbn beta. intros pc s2 [-> V2]. by rewrite V2.
Qed.

Lemma preview_release_post s c i :
  core (view_of s) c -> 0 < c i ->
  post (preview_release (PBuf i)) s (fun pc s' => pc = PrevTop /\
    core (view_of s') (fun j => c j - one i j) /\ rest (view_of s') = rest (view_of s)).
Proof.
  intros Hv Hi. unfold preview_release. eapply post_call; [by apply (the_buf_post s c i)|].
  intros b ? (-> & -> & _). eapply post_call; [by apply (release_post s c i)|]. intros [] s1 G1.
  eapply post_call; [apply still_unlock|]. intros [] s2 V2. apply post_ret. by rewrite V2.
Qed.
Lemma picture_release_post s c i :
  core (view_of s) c -> 0 < c i ->
  post (picture_release i) s (fun pc s' => pc = PicTop /\
    core (view_of s') (fun j => c j - one i j) /\ rest (view_of s') = rest (view_of s)).
Proof.
  intros Hv Hi. eapply post_call; [by apply (release_post s c i)|]. intros [] s1 G1. by apply post_ret.
Qed.
Lemma continuous_release_post s c i :
  core (view_of s) c -> 0 < c i ->
  post (continuous_release i) s (fun pc s' => pc = PicTop /\
    core (view_of s') (fun j => c j - one i j) /\ rest (view_of s') = rest (view_of s)).
Proof.
  intros Hv Hi. eapply post_call; [by apply (release_post s c i)|]. intros [] s1 G1.
  eapply post_call; [apply still_unlock|]. intros [] s2 V2. apply post_ret. by rewrite V2.
Qed.

(** Light calls and where they go on. *)
Definition light_to {A} (m : M S A) s (Q : A -> Prop) : Prop :=
  post m s (fun a s' => Q a /\ exists t, view_of s' = with_take (w_copy (view_of s)) t (view_of s) /\
    (w_take (view_of s) <> TAKE_PICTURE_NORMAL -> t <> TAKE_PICTURE_NORMAL)).
Lemma light_to_ret {A B} (m : M S A) (b : B) s (Q : B -> Prop) :
  light m -> Q b -> light_to (m ;;; ret b) s Q.
Proof.
  intros Hm Hb. eapply post_call; [apply Hm|]. intros a s1 G1. by apply post_ret.
Qed.
Lemma light_to_done {B} (b : B) s (Q : B -> Prop) : Q b -> light_to (ret b) s Q.
Proof. intros Hb. split; [done|]. exists (w_take (view_of s)). by destruct (view_of s). Qed.
Lemma light_to_quiet {A B} (m : M S A) (k : A -> M S B) s (Q : B -> Prop) :
  still m -> (forall a s', view_of s' = view_of s -> light_to (k a) s' Q) -> light_to (bind m k) s Q.
Proof.
  intros Hm Hk. eapply post_call; [apply Hm|]. intros a s1 V1. unfold light_to in Hk. rewrite <- V1. by apply Hk.
Qed.

Lemma light_to_bind {A B} (m : M S A) (k : A -> M S B) s (Q : B -> Prop) :
  light m -> (forall a s', light_to (k a) s' Q) -> light_to (bind m k) s Q.
Proof.
  intros Hm Hk. eapply post_call; [apply Hm|]. intros a s1 (t & V1 & Ht).
  eapply post_mono; [apply Hk|]. cbn beta. intros b s2 (HQ & t' & V2 & Ht'). split; [done|].
  exists t'. rewrite V2, V1. rewrite V1 in Ht'. auto.
Qed.

Lemma still_take_picture b cont : still (take_picture (D := D) (E := E) b cont).
Proof. unfold take_picture. still_tac. Qed.
#[local] Hint Resolve still_take_picture : still.

Lemma picture_frame_post p s : light_to (picture_frame p) s (eq (PicTaken p)).
Proof.
  unfold picture_frame. apply light_to_quiet; [still_tac|]. intros b s1 V1.
  apply light_to_quiet; [still_tac|]. intros _ s2 _.
  apply light_to_ret; [apply light_quiet|done]. still_tac.
Qed.
Lemma light_shot b seen : light (smart_shot (D := D) (E := E) b seen).
Proof.
  apply light_bind; [apply light_quiet; still_tac|]. intros []; [|apply light_quiet; still_tac].
  do 3 (apply light_bind; [apply light_quiet; still_tac|intros _]). by apply light_take.
Qed.
Lemma smart_frame_post p s : light_to (smart_frame p) s (eq (PicTaken p)).
Proof.
  unfold smart_frame. apply light_to_quiet; [still_tac|]. intros b s1 V1.
  apply light_to_quiet; [still_tac|]. intros q s2 _. destruct (mSmartPictureDone q).
  - apply light_to_ret; [by apply light_take|done].
  - do 2 (apply light_to_bind; [apply light_shot|intros _ ?]). by apply light_to_done.
Qed.

(** The continuous thread always gives its frame back. *)
Lemma continuous_frame_post s c i :
  core (view_of s) c -> 0 < c i -> light_to (continuous_frame (PBuf i)) s (eq (PicRelease i)).
Proof.
  intros Hv Hi. unfold continuous_frame. apply light_to_quiet; [apply still_lock|]. intros [] s1 V1.
  rewrite <- V1 in Hv. eapply post_call; [by apply (the_buf_post s1 c i)|]. intros b ? (-> & Hx & Hp & Hr). subst i.
  eapply post_call; [by apply (is_released_post s1 c)|]. intros ? ? [-> ->].
  apply (light_to_quiet _ _ s1); [still_tac|]. intros q s2 _. apply light_to_ret; [|done].
  destruct (_ <=? _); [|destruct (negb _)].
  - apply light_bind; [by apply light_take|]. intros _. apply light_quiet. still_tac.
  - by apply light_take.
  - apply light_quiet. still_tac.
Qed.

(** Dequeuing. *)
Lemma preview_dequeue_post s :
  post preview_dequeue s (fun pc s' =>
    match w_prev (view_of s) with
    | [] => pc = PrevEmpty /\ view_of s' = view_of s
    | p :: q => pc = PrevGot p /\ view_of s' = with_queues q (w_pic (view_of s)) (view_of s)
    end).
Proof.
  unfold preview_dequeue, dequeue_preview, post, bind, get_glob. cbn.
  unfold dequeue, view_of. by destruct (mQueueBufferPreview (sync (glob s))) eqn:Eq; cbn; rewrite ?Eq.
Qed.
Lemma picture_dequeue_post s :
  post picture_dequeue s (fun pc s' =>
    match w_pic (view_of s) with
    | [] => pc = PicEmpty /\ view_of s' = view_of s
    | p :: q => pc = PicGot p /\ view_of s' = with_queues (w_prev (view_of s)) q (view_of s)
    end).
Proof.
  unfold picture_dequeue, dequeue_picture, post, bind, get_glob. cbn.
  unfold dequeue, view_of. by destruct (mQueueBufferPicture (sync (glob s))) eqn:Eq; cbn; rewrite ?Eq.
Qed.
Lemma unless_copy_post s c i :
  (w_copy (view_of s) = false -> core (view_of s) c /\ 0 < c i) ->
  post (unless_copy (PBuf i)) s (fun pc s' => view_of s' = view_of s /\
    pc = if w_copy (view_of s) then PicTop else PicRelease i).
Proof.
  intros Hc. unfold unless_copy. apply post_get.
  change (mIsPicCopy (pic (glob s))) with (w_copy (view_of s)). destruct (w_copy (view_of s)).
  - eapply post_call; [apply still_the_buf|]. intros b s1 V1. by apply post_ret.
  - destruct (Hc eq_refl). eapply post_call; [by apply (the_buf_post s c i)|].
    intros b ? (-> & -> & _). by apply post_ret.
Qed.
End Pieces.

#[export] Hint Resolve still_enter still_woken still_select_turn still_start still_stop still_zoom
  still_hw still_cnt still_start_cont still_stop_cont still_start_smart still_stop_smart still_face
  still_lock still_unlock : still.
