(* ===== verification/CamInv.v ===== *)
(** * camera: no frame is lost or shared with the driver

    The invariant of the running system: the count in a frame is the number of
    pointers to it in the queues and in the hands of the threads and the recorder,
    and the driver has only frames to which there is none: all of them, if it takes
    back what it is given.  It is kept by every turn of every thread and by every
    call of the application, but for the request of a copied picture
    ([TAKE_PICTURE_NORMAL]) and for a turn that changes a count between the load and
    the store of the notifier's [refCnt++], which has no lock. *)

From stdpp Require Import gmap.
From S2P Require Import Prelude CLib Os CamPixel CamEnv CamDevice CamThreads CamFrames.

(** ** Who points at a frame *)

Definition held_cap (pc : cap_pc) : list bufptr :=
  match pc with CapRelease i => [PBuf i] | _ => [] end.
Definition held_prev (pc : prev_pc) : list bufptr :=
  match pc with PrevGot p | PrevCount p _ | PrevRelease p => [p] | _ => [] end.
Definition held_shot (pc : pic_pc) : list bufptr :=
  match pc with PicGot p | PicTaken p => [p] | PicRelease i => [PBuf i] | _ => [] end.
(** The picture a thread works on: it looks at [mIsPicCopy] when it is done. *)
Definition held_pic (pc : pic_pc) : list bufptr :=
  match pc with PicGot p | PicTaken p => [p] | _ => [] end.
Definition all_shots (h : pic_pc -> list bufptr) (f : shooter -> pic_pc) : list bufptr :=
  h (f Single) ++ h (f Continuous) ++ h (f Smart).
Definition is_buf (p : bufptr) : Prop := exists i, p = PBuf i.

Lemma in_queue_in i l : PBuf i ∈ l -> 0 < in_queue i l.
Proof.
  induction l as [|p l IH]; cbn; [by intros []%not_elem_of_nil|].
  pose proof (in_queue_nonneg i l). intros [->|Hl]%elem_of_cons; [rewrite decide_True by done; lia|].
  specialize (IH Hl). case_decide; lia.
Qed.
Lemma in_queue_shots i h w pc f :
  in_queue i (all_shots h (set_shot w pc f)) = in_queue i (all_shots h f) - in_queue i (h (f w)) + in_queue i (h pc).
Proof.
  unfold all_shots, set_shot. rewrite !in_queue_app. destruct w; repeat case_decide; try done; lia.
Qed.
Lemma shots_forall (P : bufptr -> Prop) h w pc f :
  Forall P (all_shots h f) -> Forall P (h pc) -> Forall P (all_shots h (set_shot w pc f)).
Proof.
  unfold all_shots, set_shot. rewrite !Forall_app. destruct w; repeat case_decide; try done; tauto.
Qed.
Lemma shots_has h w f p : p ∈ h (f w) -> p ∈ all_shots h f.
Proof. unfold all_shots. rewrite !elem_of_app. destruct w; tauto. Qed.
Lemma shots_nil h w pc f : all_shots h f = [] -> h pc = [] -> all_shots h (set_shot w pc f) = [].
Proof.
  unfold all_shots, set_shot. intros [E1 [E2 E3]%app_nil]%app_nil Ep.
  destruct w; repeat case_decide; try done; by rewrite ?E1, ?E2, ?E3, ?Ep.
Qed.

Section Invariant.
Context {D E : Type} `{V4l2Law D} `{!PhysicalOffset D} `{CamEnvOps E} `{CamClient E}.
Abbreviation S := (mach (cam_world D E) cam_g).
Abbreviation sys := (CamThreads.sys (D := D) (E := E)).
Implicit Types (s : S) (y : sys) (v : view).

Definition in_hands y : list bufptr :=
  held_cap (cap y) ++ held_prev (prev y) ++ all_shots held_shot (shot y) ++ map PBuf (kept y).

(** Between two turns. *)
Record frames_inv (v : view) (hands : list bufptr) (pics : list bufptr) : Prop := {
  fi_core : core v (fun i => in_queue i (w_prev v) + in_queue i (w_pic v) + in_queue i hands);
  fi_prev : Forall is_buf (w_prev v);
  fi_pic : Forall is_buf (w_pic v);
  fi_hands : Forall is_buf hands;
  fi_copy : w_copy v = true -> w_pic v = [] /\ pics = [];
  fi_take : w_take v <> TAKE_PICTURE_NORMAL;
}.
Definition frames_ok y : Prop :=
  frames_inv (view_of (st y)) (in_hands y) (all_shots held_pic (shot y)).

(** The number of pointers to frame [i]. *)
Definition users y (i : Z) : Z :=
  in_queue i (mQueueBufferPreview (sync (glob (st y)))) +
  in_queue i (mQueueBufferPicture (sync (glob (st y)))) + in_queue i (in_hands y).

(** *** What a turn does to the view *)

Lemma inv_take v hands pics t :
  frames_inv v hands pics -> t <> TAKE_PICTURE_NORMAL -> frames_inv (with_take (w_copy v) t v) hands pics.
Proof. intros [] Ht. split; try done. by apply core_take. Qed.

(** Pointers change hands. *)
Lemma inv_hands v hands pics hands' pics' :
  frames_inv v hands pics -> (forall i, in_queue i hands' = in_queue i hands) -> Forall is_buf hands' ->
  (pics = [] -> pics' = []) -> frames_inv v hands' pics'.
Proof.
  intros [] Hq Hf Hp. split; try done.
  - eapply core_ext; [done|]. intros i. cbn. by rewrite Hq.
  - intros Hc. destruct (fi_copy0 Hc). auto.
Qed.

(** Pointers leave a queue. *)
Lemma inv_queues v hands pics q k v' hands' pics' :
  frames_inv v hands pics -> v' = with_queues q k v ->
  (forall i, in_queue i q + in_queue i k + in_queue i hands' =
    in_queue i (w_prev v) + in_queue i (w_pic v) + in_queue i hands) ->
  Forall is_buf q -> Forall is_buf k -> Forall is_buf hands' ->
  (w_copy v = true -> w_pic v = [] -> pics = [] -> k = [] /\ pics' = []) -> frames_inv v' hands' pics'.
Proof.
  intros [] -> Hq Fq Fk Fh Hc. split; try done.
  - eapply core_ext; [by apply core_queues|]. intros i. cbn. by rewrite Hq.
  - cbn. intros Hcp. destruct (fi_copy0 Hcp). auto.
Qed.

(** A pointer more, or one given back. *)
Lemma inv_step v hands pics c' v' hands' pics' :
  frames_inv v hands pics -> core v' c' -> rest v' = rest v ->
  (forall j, in_queue j (w_prev v) + in_queue j (w_pic v) + in_queue j hands' = c' j) -> Forall is_buf hands' ->
  (pics = [] -> pics' = []) -> frames_inv v' hands' pics'.
Proof.
  intros [] Hc R Hq Hf Hp. injection R as Rp Rq Rc Rt.
  split; rewrite ?Rp, ?Rq, ?Rc, ?Rt; try done.
  - eapply core_ext; [done|]. intros j. cbn. by rewrite Hq.
  - intros Hcp. destruct (fi_copy0 Hcp). auto.
Qed.

(** Frames delivered to the queues. *)
Lemma inv_delivered v hands pics i v1 v' hands' :
  frames_inv v hands pics -> rest v1 = rest v ->
  delivered i (fun j => in_queue j (w_prev v) + in_queue j (w_pic v) + in_queue j hands + one i j) v1 v' ->
  (forall j, in_queue j hands' = in_queue j hands + one i j) -> Forall is_buf hands' ->
  frames_inv v' hands' pics.
Proof.
  intros [] R (l1 & l2 & Hl & Hp & Hq & Hc & Hcp & Ht) Hh Hf. injection R as Rp Rq Rc Rt.
  assert (Hb : Forall is_buf (l1 ++ l2)) by (eapply Forall_impl; [exact Hl|]; intros p <-; by eexists).
  apply Forall_app in Hb as [Hb1 Hb2].
  split.
  - eapply core_ext; [done|]. intros j. cbn. rewrite Hp, Hq, Rp, Rq, !in_queue_app, Hh. lia.
  - rewrite Hp, Rp. by apply Forall_app.
  - rewrite Hq, Rq. by apply Forall_app.
  - done.
  - rewrite Hcp, Hq, Rq, Rc. case_decide as El; [|done]. rewrite El, app_nil_r. auto.
  - apply Ht. congruence.
Qed.

(** *** The turns *)

Lemma turn_post {A} (m : M S A) s (k : A -> S -> sys) (Q : A -> S -> Prop) y' :
  CamThreads.done (m s) k = Some y' -> post m s Q -> exists a s', y' = k a s' /\ Q a s'.
Proof. unfold post. destruct (m s); cbn; [|done..]. intros [= <-] HQ. eauto. Qed.

Lemma inv_quiet v v' hands pics : frames_inv v hands pics -> v' = v -> frames_inv v' hands pics.
Proof. by intros ? ->. Qed.

(** A call that leaves the frames and the hands alone, or only moves pointers. *)
Lemma inv_moves v v' hands pics hands' pics' :
  frames_inv v hands pics -> v' = v ->
  (forall i, in_queue i hands' = in_queue i hands) -> Forall is_buf hands' ->
  (pics = [] -> pics' = []) -> frames_inv v' hands' pics'.
Proof. intros Hi -> ???. by eapply inv_hands. Qed.

Lemma hands_forall y : frames_ok y ->
  Forall is_buf (held_cap (cap y)) /\ Forall is_buf (held_prev (prev y)) /\
  Forall is_buf (all_shots held_shot (shot y)) /\ Forall is_buf (map PBuf (kept y)).
Proof. intros Hi. pose proof (fi_hands _ _ _ Hi) as Hf. unfold in_hands in Hf. by rewrite !Forall_app in Hf. Qed.
Lemma users_pos y p : frames_ok y -> p ∈ in_hands y ->
  exists i, p = PBuf i /\ 0 < in_queue i (w_prev (view_of (st y))) + in_queue i (w_pic (view_of (st y))) + in_queue i (in_hands y).
Proof.
  intros Hi Hp. destruct (proj1 (Forall_forall _ _) (fi_hands _ _ _ Hi) p Hp) as [i ->]. exists i. split; [done|].
  pose proof (in_queue_in _ _ Hp). pose proof (in_queue_nonneg i (w_prev (view_of (st y)))).
  pose proof (in_queue_nonneg i (w_pic (view_of (st y)))). lia.
Qed.

(** A pointer a thread holds is one of the hands'. *)
Ltac in_hands_tac := unfold in_hands; rewrite !elem_of_app; cbn; set_solver.
Ltac count_tac :=
  unfold in_hands; cbn [st cap prev shot kept held_cap held_prev map];
  intros; rewrite ?in_queue_app, ?in_queue_shots, ?in_queue_buf; cbn [in_queue]; unfold one;
  repeat case_decide; try congruence; try lia.
Ltac forall_tac :=
  unfold in_hands; cbn [st cap prev shot kept held_cap held_prev map];
  rewrite ?Forall_app; split_and!; try done; try (by repeat constructor; eexists);
  try (apply Forall_cons; split; [by eexists|done]).

Lemma post_and {A} (m : M S A) s (P Q : A -> S -> Prop) :
  post m s P -> post m s Q -> post m s (fun a s' => P a s' /\ Q a s').
Proof. unfold post. by destruct (m s). Qed.

(** Between frames, the capture thread holds nothing. *)
Lemma cap_quiet (m : M S cap_pc) y :
  frames_ok y -> held_cap (cap y) = [] -> still m -> (forall s, post m s (fun pc _ => held_cap pc = [])) ->
  post m (st y) (fun pc s' => frames_ok (Sys s' pc (prev y) (shot y) (kept y))).
Proof.
  intros Hi Hc Hm Hp. destruct (hands_forall y Hi) as (Fc & Fp & Fs & Fk).
  eapply post_mono; [apply post_and; [apply Hm|apply Hp]|]. intros pc s' [V E1].
  eapply inv_moves; [exact Hi|exact V|..]; [|forall_tac; by rewrite E1|done].
  unfold in_hands. cbn [cap prev shot kept]. by rewrite E1, Hc.
Qed.

Lemma still_awake c : still (awake (D := D) (E := E) c).
Proof. unfold awake. still_tac. Qed.
Lemma woken_holds s : post capture_woken s (fun pc _ => held_cap pc = []).
Proof. unfold capture_woken. apply post_get. by destruct (bool_decide _). Qed.
Lemma enter_holds s : post capture_enter s (fun pc _ => held_cap pc = []).
Proof. unfold capture_enter. apply post_get. destruct (bool_decide _); [done|apply woken_holds]. Qed.
Lemma select_holds s : post capture_select s (fun pc _ => held_cap pc = []).
Proof. unfold capture_select. apply post_bind. by unfold post; destruct (v4l2WaitCameraReady s). Qed.

Lemma release_cap_post s c i :
  core (view_of s) c -> 0 < c i ->
  post (capture_release i) s (fun pc s' => pc = CapTop /\
    core (view_of s') (fun j => c j - one i j) /\ rest (view_of s') = rest (view_of s)).
Proof.
  intros Hv Hi. eapply post_call; [by apply (release_post s c i)|]. intros [] s1 G1. by apply post_ret.
Qed.

Lemma cap_ok y : frames_ok y ->
  post (cap_turn (cap y)) (st y) (fun pc s' => frames_ok (Sys s' pc (prev y) (shot y) (kept y))).
Proof.
  intros Hi. destruct (hands_forall y Hi) as (Fc & Fp & Fs & Fk).
  destruct y as [s pc pp sh kp]. cbn [st cap prev shot kept] in *. destruct pc as [| | |r|i|]; cbn [cap_turn].
  - apply (cap_quiet _ _ Hi); [done|auto with still|apply enter_holds].
  - apply (cap_quiet _ _ Hi); [done| |].
    + unfold awake. still_tac.
    + intros s1. unfold awake. apply post_bind, post_get. destruct (asleep _ _); [done|apply woken_holds].
  - apply (cap_quiet _ _ Hi); [done|auto with still|apply select_holds].
  - eapply post_mono; [apply capture_frame_post; [apply (fi_core _ _ _ Hi)|apply (fi_take _ _ _ Hi)]|].
    intros pc s' [(-> & C & R)|(i & v1 & -> & R & C & Dl)].
    + eapply inv_step; [exact Hi|exact C|exact R|done|forall_tac|done].
    + eapply inv_delivered; [exact Hi|exact R|exact Dl|count_tac|forall_tac].
  - destruct (users_pos _ (PBuf i) Hi) as (j & [= <-] & Hu); [in_hands_tac|].
    eapply post_mono; [apply (release_cap_post _ _ i (fi_core _ _ _ Hi) Hu)|].
    intros pc s' (-> & C & R). eapply inv_step; [exact Hi|exact C|exact R|count_tac|forall_tac|done].
  - done.
Qed.

(** What the notifier read is still the count. *)
Definition counted (pc : prev_pc) s : Prop :=
  match pc with PrevCount (PBuf i) n => ref_at (mV4l2buf (mem (glob s))) i = n | _ => True end.

Lemma prev_ok y lost : frames_ok y -> counted (prev y) (st y) ->
  post (prev_turn (prev y) lost) (st y) (fun pc s' =>
    frames_ok (Sys s' (cap y) pc (shot y) (given (prev y) (kept y))) /\ counted pc s').
Proof.
  intros Hi Hn. destruct (hands_forall y Hi) as (Fc & Fp & Fs & Fk).
  destruct y as [s pc pp sh kp]. cbn [st cap prev shot kept] in *. destruct pp as [| | |p|p n|p]; cbn [prev_turn given].
  - eapply post_mono; [apply preview_dequeue_post|]. cbn beta. intros pc1 s1 G.
    destruct (w_prev (view_of s)) as [|p q] eqn:Eq; destruct G as [-> V]; (split; [|done]).
    + eapply inv_moves; [exact Hi|exact V|count_tac|forall_tac|done].
    + pose proof (fi_prev _ _ _ Hi) as Fq. cbn [st] in Fq. rewrite Eq in Fq. apply Forall_cons in Fq as [[i ->] Fq].
      eapply inv_queues; [exact Hi|exact V| |done|apply (fi_pic _ _ _ Hi)|forall_tac|done].
      cbn [st]. rewrite Eq. count_tac.
  - eapply post_call; [apply still_sleep|]. intros [] s1 V. apply post_ret. split; [|done].
    eapply inv_moves; [exact Hi|exact V|count_tac|forall_tac|done].
  - eapply (post_call _ _ _ (fun _ s' => view_of s' = view_of s)); [apply still_awake|]. intros [] s1 V. apply post_ret.
    split; [|done]. eapply inv_moves; [exact Hi|exact V|count_tac|forall_tac|done].
  - destruct (users_pos _ p Hi) as (i & -> & Hu); [in_hands_tac|].
    eapply post_mono; [apply (preview_frame_post _ _ i (fi_core _ _ _ Hi) Hu)|].
    intros pc1 s1 [V [->| ->]]; (split; [eapply inv_moves; [exact Hi|exact V|count_tac|forall_tac|done]|]); [done|].
    cbn [st] in *. unfold counted. change (mV4l2buf (mem (glob s1))) with (w_bufs (view_of s1)). by rewrite V.
  - destruct (users_pos _ p Hi) as (i & -> & Hu); [in_hands_tac|]. cbn [counted] in Hn. subst n.
    eapply post_mono; [apply (preview_count_post _ _ i lost (fi_core _ _ _ Hi) Hu)|].
    intros pc1 s1 (-> & R & C). split; [|done].
    eapply inv_step; [exact Hi|exact C|exact R|count_tac|forall_tac|done].
  - destruct (users_pos _ p Hi) as (i & -> & Hu); [in_hands_tac|].
    eapply post_mono; [apply (preview_release_post _ _ i (fi_core _ _ _ Hi) Hu)|].
    intros pc1 s1 (-> & C & R). split; [|done].
    eapply inv_step; [exact Hi|exact C|exact R|count_tac|forall_tac|done].
Qed.

(** A shooter's pointers change with its place. *)
Lemma shot_hands s1 s pc pp sh kp w pc1 i :
  in_queue i (in_hands (Sys s1 pc pp (set_shot w pc1 sh) kp)) =
  in_queue i (in_hands (Sys s pc pp sh kp)) - in_queue i (held_shot (sh w)) + in_queue i (held_shot pc1).
Proof. unfold in_hands. cbn [cap prev shot kept]. rewrite !in_queue_app, in_queue_shots. lia. Qed.
Lemma shot_hands_forall s1 s pc pp sh kp w pc1 :
  frames_ok (Sys s pc pp sh kp) -> Forall is_buf (held_shot pc1) ->
  Forall is_buf (in_hands (Sys s1 pc pp (set_shot w pc1 sh) kp)).
Proof.
  intros Hi Hp. destruct (hands_forall _ Hi) as (Fc & Fp & Fs & Fk). forall_tac. by apply shots_forall.
Qed.

(** The shooter moves on with what it had. *)
Lemma shot_moves s s1 pc pp sh kp w pc1 :
  frames_ok (Sys s pc pp sh kp) ->
  (exists t, view_of s1 = with_take (w_copy (view_of s)) t (view_of s) /\
    (w_take (view_of s) <> TAKE_PICTURE_NORMAL -> t <> TAKE_PICTURE_NORMAL)) ->
  held_shot pc1 = held_shot (sh w) -> (held_pic (sh w) = [] -> held_pic pc1 = []) ->
  frames_ok (Sys s1 pc pp (set_shot w pc1 sh) kp).
Proof.
  intros Hi (t & V & Ht) Hh Hp. unfold frames_ok. cbn [st shot]. rewrite V.
  apply inv_take; [|apply Ht, (fi_take _ _ _ Hi)].
  eapply inv_hands; [exact Hi|..].
  - intros i. rewrite (shot_hands s1 s), Hh. lia.
  - apply (shot_hands_forall _ _ _ _ _ _ _ _ Hi). rewrite Hh.
    destruct (hands_forall _ Hi) as (_ & _ & Fs & _). cbn [shot] in Fs. unfold all_shots in Fs.
    rewrite !Forall_app in Fs. destruct w; tauto.
  - cbn [shot]. intros Hn. apply shots_nil; [done|]. apply Hp. unfold all_shots in Hn.
    apply app_nil in Hn as [N1 [N2 N3]%app_nil]. by destruct w.
Qed.
(** It gives its frame back. *)
Lemma shot_gives s s1 pc pp sh kp w pc1 i :
  frames_ok (Sys s pc pp sh kp) ->
  core (view_of s1) (fun j => in_queue j (w_prev (view_of s)) + in_queue j (w_pic (view_of s)) +
                      in_queue j (in_hands (Sys s pc pp sh kp)) - one i j) ->
  rest (view_of s1) = rest (view_of s) ->
  held_shot (sh w) = [PBuf i] -> held_shot pc1 = [] -> held_pic pc1 = [] ->
  frames_ok (Sys s1 pc pp (set_shot w pc1 sh) kp).
Proof.
  intros Hi C R Hh Hs Hp. eapply inv_step; [exact Hi|exact C|exact R|..].
  - intros j. rewrite (shot_hands s1 s), Hh, Hs, in_queue_buf. cbn [st in_queue]. lia.
  - apply (shot_hands_forall _ _ _ _ _ _ _ _ Hi). by rewrite Hs.
  - cbn [shot]. intros Hn. by apply shots_nil.
Qed.
Lemma light_view (v v' : view) : v' = v ->
  exists t, v' = with_take (w_copy v) t v /\ (w_take v <> TAKE_PICTURE_NORMAL -> t <> TAKE_PICTURE_NORMAL).
Proof. intros ->. exists (w_take v). by destruct v. Qed.

Lemma shot_ok w y : frames_ok y ->
  post (shot_turn w (shot y w)) (st y) (fun pc s' => frames_ok (Sys s' (cap y) (prev y) (set_shot w pc (shot y)) (kept y))).
Proof.
  intros Hi. destruct y as [s pc pp sh kp]. cbn [st cap prev shot kept] in *.
  assert (Hin : forall p, p ∈ held_shot (sh w) -> exists i, p = PBuf i /\
    0 < in_queue i (w_prev (view_of s)) + in_queue i (w_pic (view_of s)) + in_queue i (in_hands (Sys s pc pp sh kp))).
  { intros p Hp. apply (users_pos _ p Hi). unfold in_hands. rewrite !elem_of_app. right; right; left. by eapply shots_has. }
  destruct (sh w) as [| | |p|p|i] eqn:Ew; cbn [shot_turn].
  - eapply post_mono; [apply picture_dequeue_post|]. cbn beta. intros pc1 s1 G.
    destruct (w_pic (view_of s)) as [|p q] eqn:Eq; destruct G as [-> V].
    + apply (shot_moves _ _ _ _ _ _ _ _ Hi); [by apply light_view|by rewrite Ew..].
    + pose proof (fi_pic _ _ _ Hi) as Fq. cbn [st] in Fq. rewrite Eq in Fq. apply Forall_cons in Fq as [[i ->] Fq].
      eapply inv_queues; [exact Hi|exact V| |apply (fi_prev _ _ _ Hi)|done| |cbn [st]; by rewrite Eq].
      * intros j. rewrite (shot_hands s1 s), Ew. cbn [st]. rewrite Eq. cbn [held_shot in_queue]. lia.
      * apply (shot_hands_forall _ _ _ _ _ _ _ _ Hi). by repeat constructor; eexists.
  - eapply post_call; [apply still_sleep|]. intros [] s1 V. apply post_ret.
    apply (shot_moves _ _ _ _ _ _ _ _ Hi); [by apply light_view|by rewrite Ew..].
  - eapply post_call; [apply still_awake|]. intros [] s1 V. apply post_ret.
    apply (shot_moves _ _ _ _ _ _ _ _ Hi); [by apply light_view|by rewrite Ew..].
  - destruct (Hin p) as (i & -> & Hu); [set_solver|]. destruct w.
    + eapply post_mono; [apply picture_frame_post|]. cbn beta. intros pc1 s1 [<- L].
      apply (shot_moves _ _ _ _ _ _ _ _ Hi); [done|by rewrite Ew..].
    + eapply post_mono; [apply (continuous_frame_post _ _ i (fi_core _ _ _ Hi) Hu)|]. cbn beta. intros pc1 s1 [<- L].
      apply (shot_moves _ _ _ _ _ _ _ _ Hi); [done|by rewrite Ew..].
    + eapply post_mono; [apply smart_frame_post|]. cbn beta. intros pc1 s1 [<- L].
      apply (shot_moves _ _ _ _ _ _ _ _ Hi); [done|by rewrite Ew..].
  - destruct (Hin p) as (i & -> & Hu); [set_solver|].
    eapply post_mono; [eapply unless_copy_post; intros _; split; [apply (fi_core _ _ _ Hi)|exact Hu]|].
    cbn beta. intros pc1 s1 [V ->].
    assert (Ec : w_copy (view_of s) = false).
    { destruct (w_copy (view_of s)) eqn:Ec; [|done]. destruct (fi_copy _ _ _ Hi Ec) as [_ Hn].
      cbn [shot] in Hn. assert (Hp : PBuf i ∈ all_shots held_pic sh) by (apply (shots_has _ w); rewrite Ew; left).
      rewrite Hn in Hp. by apply not_elem_of_nil in Hp. }
    rewrite Ec. apply (shot_moves _ _ _ _ _ _ _ _ Hi); [by apply light_view|by rewrite Ew..].
  - destruct (Hin (PBuf i)) as (i' & [= <-] & Hu); [set_solver|].
    destruct w; (eapply post_mono; [first [apply (picture_release_post _ _ i (fi_core _ _ _ Hi) Hu)
      | apply (continuous_release_post _ _ i (fi_core _ _ _ Hi) Hu)]|]);
      intros pc1 s1 (-> & C & R); apply (shot_gives _ _ _ _ _ _ _ _ i Hi C R); by rewrite ?Ew.
Qed.

(** The application; a copied picture is not asked for. *)
Definition calm (a : actor) : Prop := a <> AApp (ATakePicture TAKE_PICTURE_NORMAL).

Lemma take_out_queue i l l' j : take_out i l = Some l' ->
  in_queue j (map PBuf l) = in_queue j (map PBuf l') + one i j.
Proof.
  revert l'. induction l as [|x l IH]; intros l'; cbn; [done|]. destruct (Z.eqb_spec x i) as [->|Hx].
  - intros [= <-]. unfold one. repeat case_decide; congruence || lia.
  - destruct (take_out i l) as [k|]; [|done]. intros [= <-]. cbn. rewrite (IH k) by done. lia.
Qed.

Lemma kept_bufs l : Forall is_buf (map PBuf l).
Proof. induction l; constructor; [by eexists|done]. Qed.
Lemma app_quiet {A} (m : M S A) y :
  frames_ok y -> light m ->
  post (m ;;; ret (kept y)) (st y) (fun k s' => frames_ok (Sys s' (cap y) (prev y) (shot y) k)).
Proof.
  intros Hi Hm. eapply post_call; [apply Hm|]. intros a s1 (t & V & Ht). apply post_ret.
  unfold frames_ok. cbn [st shot]. rewrite V. apply inv_take; [exact Hi|apply Ht, (fi_take _ _ _ Hi)].
Qed.
Lemma app_ok c y : frames_ok y -> calm (AApp c) ->
  post (app_turn c (kept y)) (st y) (fun k s' => frames_ok (Sys s' (cap y) (prev y) (shot y) k)).
Proof.
  intros Hi Hc. destruct c; cbn [app_turn]; try (by apply app_quiet; [|apply light_quiet; auto with still]).
  - apply app_quiet; [done|]. apply light_take. intros ->. by apply Hc.
  - destruct (take_out i (kept y)) as [k|] eqn:Ek; [|done].
    destruct (hands_forall y Hi) as (Fc & Fp & Fs & Fk). destruct y as [s pc pp sh kp]. cbn [st cap prev shot kept] in *.
    assert (Hk : forall j, in_queue j (in_hands (Sys s pc pp sh kp)) = in_queue j (in_hands (Sys s pc pp sh k)) + one i j).
    { intros j. unfold in_hands. cbn [cap prev shot kept]. rewrite !in_queue_app, (take_out_queue _ _ _ j Ek). lia. }
    eapply post_call; [apply (release_post _ _ i (fi_core _ _ _ Hi))|].
    + cbn beta. rewrite Hk. pose proof (in_queue_nonneg i (in_hands (Sys s pc pp sh k))).
      pose proof (in_queue_nonneg i (w_prev (view_of s))). pose proof (in_queue_nonneg i (w_pic (view_of s))).
      cbn [st]. unfold one. rewrite decide_True by done. lia.
    + intros [] s1 [C R]. apply post_ret. eapply inv_step; [exact Hi|exact C|exact R| |forall_tac; apply kept_bufs|done].
      intros j. cbn beta. rewrite Hk. change (in_hands (Sys s1 pc pp sh k)) with (in_hands (Sys s pc pp sh k)). lia.
Qed.

(** While the preview thread is between the load and the store, the turn leaves the
    count of its frame alone. *)
Definition apart y y' : bool :=
  match prev y with
  | PrevCount (PBuf i) n =>
      negb (bool_decide (prev y' = prev y)) ||
      (ref_at (mV4l2buf (mem (glob (st y')))) i =? ref_at (mV4l2buf (mem (glob (st y)))) i)
  | _ => true
  end.
(** A run in which no other thread counts the frame between the load and the store. *)
Fixpoint undisturbed (l : list actor) y : bool :=
  match l with
  | [] => true
  | a :: l => match turn a y with Some y' => apart y y' && undisturbed l y' | None => true end
  end.

Lemma still_counted y y' :
  counted (prev y) (st y) -> apart y y' = true -> prev y' = prev y -> counted (prev y') (st y').
Proof.
  intros Hn Ha Ep. rewrite Ep. unfold apart in Ha. destruct (prev y) as [| | |p|[i|] n|p]; try done.
  rewrite bool_decide_true in Ha by done. cbn [negb orb] in Ha. cbn in *. lia.
Qed.

Lemma turn_ok a y y' :
  frames_ok y -> counted (prev y) (st y) -> calm a -> turn a y = Some y' -> apart y y' = true ->
  frames_ok y' /\ counted (prev y') (st y').
Proof.
  intros Hi Hn Hc Ht Ha. destruct a as [|lost|w|c|c]; cbn in Ht.
  - destruct (turn_post _ _ _ _ _ Ht (cap_ok y Hi)) as (pc & s & -> & Hi').
    split; [done|by apply (still_counted y)].
  - by destruct (turn_post _ _ _ _ _ Ht (prev_ok y lost Hi Hn)) as (pc & s & -> & Hi').
  - destruct (turn_post _ _ _ _ _ Ht (shot_ok w y Hi)) as (pc & s & -> & Hi').
    split; [done|by apply (still_counted y)].
  - destruct (turn_post _ _ _ _ _ Ht (app_ok c y Hi Hc)) as (k & s & -> & Hi').
    split; [done|by apply (still_counted y)].
  - injection Ht as <-. split; [exact Hi|by apply (still_counted y)].
Qed.
Lemma turns_ok l y y' :
  frames_ok y -> counted (prev y) (st y) -> Forall calm l -> undisturbed l y = true ->
  turns l y = Some y' -> frames_ok y'.
Proof.
  revert y. induction l as [|a l IH]; intros y Hi Hn Hc Hu; cbn; [by intros [= <-]|].
  apply Forall_cons in Hc as [Ha Hl]. cbn in Hu. destruct (turn a y) as [y1|] eqn:Et; [|done]. cbn.
  apply andb_prop in Hu as [Hap Hu]. destruct (turn_ok a y y1 Hi Hn Ha Et Hap). by apply IH.
Qed.
End Invariant.
