(* ===== verification/CamStart.v ===== *)
(** * camera: a session, from [startDevice] on

    A device that starts gives the driver all its frames, and from then on
    [frames_ok] holds.  Then the same on a concrete driver, and the ways in which
    the bookkeeping of the frames breaks. *)

From stdpp Require Import gmap.
From S2P Require Import Prelude CLib Os CamPixel CamEnv CamDevice CamThreads CamFrames CamInv.

(** The rest of what a working driver does while it is set up: it has as many
    buffers as it answered, none of them queued; mapping them and starting the
    stream moves none; and the ION allocator knows the memory it gave out. *)
Class V4l2Start (D E : Type) `{V4l2Law D} `{CamEnvOps E} := {
  law_reqbufs : forall fd n d r m d', v_reqbufs fd n d = (r, m, d') -> 0 <= r ->
    0 <= m /\ buffers d' = m /\ with_driver d' = ∅;
  law_querybuf : forall fd i d r lo d', v_querybuf fd i d = (r, lo, d') ->
    buffers d' = buffers d /\ with_driver d' = with_driver d;
  law_mmap : forall fd n off d p d', v_mmap fd n off d = (p, d') ->
    p <> 0 /\ buffers d' = buffers d /\ with_driver d' = with_driver d;
  law_stream : forall fd d r d', v_stream true fd d = (r, d') ->
    buffers d' = buffers d /\ with_driver d' = with_driver d;
  law_phyaddr : forall p (e : E), p <> 0 -> ion_phyaddr p e <> 0;
}.

Section Start.
Context {D E : Type} `{V4l2Start D E} `{!PhysicalOffset D} `{CamClient E}.
Abbreviation S := (mach (cam_world D E) cam_g).
Abbreviation sys := (CamThreads.sys (D := D) (E := E)).
Implicit Types (s : S).

(** Only a USB camera needs a second memory for its frames. *)
Definition usb_ok (c : cam_cfg) : Prop :=
  is_compressed c || (mCaptureFormat c =? V4L2_PIX_FMT_YUYV) = true -> mIsUsbCamera c = true.
Lemma second_usb c : usb_ok c -> is_second c = true -> mIsUsbCamera c = true.
Proof.
  unfold usb_ok, is_second, is_converted. intros Hu Hs. apply Hu.
  destruct (is_compressed c), (mCaptureFormat c =? V4L2_PIX_FMT_YUYV); [done..|].
  by rewrite !andb_false_r in Hs.
Qed.

(** Nobody has a frame: at first, and after [stopDevice] once the queues are
    empty. *)
Record idle s : Prop := {
  id_len : lenZ (mV4l2buf (mem (glob s))) = NB_BUFFER;
  id_ref : Forall (fun b => vb_refCnt b = 0) (mV4l2buf (mem (glob s)));
  id_prev : mQueueBufferPreview (sync (glob s)) = [];
  id_pic : mQueueBufferPicture (sync (glob s)) = [];
  id_take : mTakePictureState (pic (glob s)) <> TAKE_PICTURE_NORMAL;
  id_map : lenZ (map_mem (mem (glob s))) = NB_BUFFER;
  id_usb : usb_ok (cfg (glob s));
}.

Lemma idle_glob s s' : glob s' = glob s -> idle s -> idle s'.
Proof. intros E1 []. by split; rewrite E1. Qed.

(** *** Before the buffers *)

Definition keeps {A} (m : M S A) : Prop := forall s, idle s -> post m s (fun _ s' => idle s').
Lemma keeps_bind {A B} (m : M S A) (k : A -> M S B) : keeps m -> (forall a, keeps (k a)) -> keeps (bind m k).
Proof. intros Hm Hk s Hs. eapply post_call; [by apply Hm|]. intros a s1 H1'. by apply Hk. Qed.
Lemma keeps_world {A} (f : cam_world D E -> A * cam_world D E) : keeps (on_world f).
Proof. intros s Hs. unfold on_world, post. destruct (f _). by apply (idle_glob s). Qed.
Lemma keeps_drv {A} (f : D -> A * D) : keeps (on_drv f).
Proof. apply keeps_world. Qed.
Lemma keeps_get {A} (f : cam_g -> A) : keeps (get_glob f).
Proof. intros s Hs. exact Hs. Qed.
Lemma keeps_set (f : cam_g -> cam_g) : (forall w h n g, idle (Mach w h n g) -> idle (Mach w h n (f g))) -> keeps (set_glob f).
Proof. intros Hf [w h n g]. apply Hf. Qed.
Lemma keeps_ret {A} (a : A) : keeps (ret a).
Proof. intros s Hs. exact Hs. Qed.
Ltac keeps_step := first
  [ apply keeps_ret | apply keeps_drv | apply keeps_get | by intros ? ?
  | apply keeps_set; intros ???? []; by split
  | apply keeps_bind; [|intros ?]
  | match goal with
    | |- keeps (if ?b then _ else _) => destruct b
    | |- keeps (match ?o with Some _ => _ | None => _ end) => destruct o
    | |- keeps (let '(_, _) := ?p in _) => destruct p
    end ].
Ltac keeps_tac := repeat keeps_step.

Lemma keeps_params : keeps v4l2setCaptureParams.
Proof. unfold v4l2setCaptureParams. keeps_tac. Qed.
Lemma keeps_video w h f : keeps (v4l2SetVideoParams w h f).
Proof. unfold v4l2SetVideoParams. keeps_tac. Qed.

(** *** The buffers *)

(** [n] buffers there are: the first [i] of them with the driver, [m] mapped, and
    [k] with a second memory. *)
Record mapped (n i m k : Z) s : Prop := {
  ma_idle : idle s;
  ma_n : mBufferCnt (mem (glob s)) = n;
  ma_avail : mCurAvailBufferCnt (mem (glob s)) = n;
  ma_i : 0 <= i <= n;
  ma_room : m <= lenZ (map_mem (mem (glob s)));
  ma_buffers : buffers (drv (world s)) = n;
  ma_drv : forall j, j ∈ with_driver (drv (world s)) <-> 0 <= j < i;
  ma_map : forall j, 0 <= j < m -> exists p, map_mem (mem (glob s)) !! Z.to_nat j = Some p /\ p <> 0;
  ma_phy : mIsUsbCamera (cfg (glob s)) = true ->
    forall j, 0 <= j < k -> exists p, buf_phy_addr (mem (glob s)) !! Z.to_nat j = Some p /\ p <> 0;
}.

(** What a step of the mapping may do. *)
Lemma mapped_drv {A} (P : A -> Prop) n i m k s (f : D -> A * D) :
  mapped n i m k s ->
  (forall d a d', f d = (a, d') -> P a /\ buffers d' = buffers d /\ with_driver d' = with_driver d) ->
  post (on_drv f) s (fun a s' => P a /\ mapped n i m k s' /\ glob s' = glob s).
Proof.
  intros [] Hf. unfold on_drv, on_world, post. destruct (f (drv (world s))) as [a d] eqn:Ef.
  destruct (Hf _ _ _ Ef) as (HP & Hb & Hd). split_and!; [done| |done].
  split; cbn; rewrite ?Hb, ?Hd; try done. by apply (idle_glob s).
Qed.
Lemma mapped_env n i m k s s' :
  mapped n i m k s -> glob s' = glob s -> drv (world s') = drv (world s) -> mapped n i m k s'.
Proof. intros [] Eg Ed. split; rewrite ?Eg, ?Ed; try done. by apply (idle_glob s). Qed.

(** A slot of an array written. *)
Lemma slots_next (l : list Z) i p :
  0 <= i < lenZ l -> p <> 0 ->
  (forall j, 0 <= j < i -> exists q, l !! Z.to_nat j = Some q /\ q <> 0) ->
  forall j, 0 <= j < i + 1 -> exists q, <[Z.to_nat i := p]> l !! Z.to_nat j = Some q /\ q <> 0.
Proof.
  intros Hi Hp Hl j Hj. destruct (decide (j = i)) as [->|Hn].
  - exists p. split; [|done]. apply list_lookup_insert_eq. unfold lenZ in Hi. lia.
  - rewrite list_lookup_insert_ne by lia. apply Hl. lia.
Qed.

(** [mmap], and the slot of [map_mem]. *)
Lemma put_map_post n i s p len :
  mapped n i i i s -> 0 <= i < lenZ (map_mem (mem (glob s))) -> p <> 0 ->
  post (upd_mem (fun m => set_map_length len (set_map_mem (<[Z.to_nat i := p]> (map_mem (mem (glob s)))) m))) s
    (fun _ s' => mapped n i (i + 1) i s').
Proof.
  intros [] Hi Hp. split; cbn; try done.
  - destruct ma_idle0. split; cbn; try done. unfold lenZ in *. by rewrite length_insert.
  - unfold lenZ in *. rewrite length_insert. lia.
  - by apply slots_next.
Qed.
(** The buffer given to the driver. *)
Lemma queue_post n i s fd :
  mapped n i (i + 1) i s -> 0 <= i < n ->
  post (on_drv (v_qbuf fd i)) s (fun r s' => 0 <= r -> mapped n (i + 1) (i + 1) i s').
Proof.
  intros [] Hi. unfold on_drv, on_world, post. destruct (v_qbuf _ i (drv (world s))) as [r d] eqn:Eq.
  destruct (law_qbuf _ _ _ _ _ Eq) as [Hb Hd]. specialize (Hd ltac:(lia) ltac:(rewrite ma_drv0; lia)).
  intros Hr. destruct (Z.ltb_spec r 0) as [|_]; [lia|]. destruct Hd as [_ Hd].
  split; cbn; rewrite ?Hb; try done; [by apply (idle_glob s)|lia|].
  intros j. rewrite Hd, elem_of_union, elem_of_singleton, ma_drv0. lia.
Qed.
(** Its second memory. *)
Lemma second_post n i s :
  mapped n (i + 1) (i + 1) i s ->
  post (video_buffer i) s (fun _ s' => mapped n (i + 1) (i + 1) (i + 1) s').
Proof.
  intros Hs. unfold video_buffer. apply post_get.
  eapply (post_call _ _ _ (fun _ s' => mapped n (i + 1) (i + 1) i s')).
  { unfold on_env, on_world, post. destruct (ion_palloc _ _). by apply (mapped_env _ _ _ _ s). }
  intros vir s1 M1. eapply (post_call _ _ _ (fun phy s' => s' = s1 /\ (vir <> 0 -> phy <> 0))).
  { split; [done|]. apply law_phyaddr. }
  intros phy ? [-> Hphy]. apply post_get, post_put_slot. intros _. apply post_put_slot. intros Hr.
  eapply (post_call _ _ _ (fun _ s' => vir <> 0 -> mapped n (i + 1) (i + 1) (i + 1) s')).
  { intros Hv. destruct M1. split; cbn; try done; [by destruct ma_idle0; split|].
    intros Hu. apply slots_next; auto. }
  intros [] s2 M2. destruct (Z.eqb_spec vir 0) as [|Hv]; [done|]. specialize (M2 Hv).
  eapply (post_call _ _ _ (fun _ s' => mapped n (i + 1) (i + 1) (i + 1) s')); [by apply (mapped_env _ _ _ _ s2)|].
  intros [] s3 M3. by apply (mapped_env _ _ _ _ s3).
Qed.
Lemma mapped_no_second n i s :
  mapped n (i + 1) (i + 1) i s -> mIsUsbCamera (cfg (glob s)) = false -> mapped n (i + 1) (i + 1) (i + 1) s.
Proof. intros [] Hu. split; try done. congruence. Qed.

Lemma query_buf_post n i s :
  mapped n i i i s -> 0 <= i < n ->
  post (query_buf i) s (fun r s' => r = OK -> mapped n (i + 1) (i + 1) (i + 1) s').
Proof.
  intros Hs Hi. unfold query_buf, the_fd. apply post_get.
  eapply post_call; [apply (mapped_drv (fun _ => True) n i i i s); [done|]|].
  { intros d [[r len] off] d' Ef. destruct (v_querybuf _ i d) as [[r1 lo] d1] eqn:Eq.
    destruct (law_querybuf _ _ _ _ _ _ Eq). by simplify_eq. }
  cbn beta. intros [[r len] off] s1 (_ & M1 & G1). destruct (r <? 0) eqn:Er.
  { apply post_ret. unfold OK. lia. }
  eapply post_call; [apply (mapped_drv (fun p => p <> 0) n i i i s1); [done|]|].
  { intros d p d' Ef. by apply law_mmap in Ef. }
  cbn beta. intros p s2 (Hp & M2 & G2). apply post_get, post_put_slot. intros Hr.
  eapply post_call; [by apply (put_map_post n i s2 p len)|]. cbn beta. intros [] s3 M3.
  destruct (p =? MAP_FAILED); [by apply post_ret|].
  eapply post_call; [by apply (queue_post n i s3)|]. cbn beta. intros r2 s4 M4.
  destruct (Z.ltb_spec r2 0) as [|Hr2]; [apply post_ret; unfold OK; lia|]. specialize (M4 Hr2). apply post_get.
  eapply (post_call _ _ _ (fun _ s' => mapped n (i + 1) (i + 1) (i + 1) s')).
  - destruct (mIsUsbCamera _) eqn:Eu; [by apply second_post|by apply mapped_no_second].
  - intros [] s5 M5. by apply post_ret.
Qed.
Lemma query_bufs_post n m : forall i s,
  mapped n i i i s -> i + Z.of_nat m = n ->
  post (query_bufs m i) s (fun r s' => r = OK -> mapped n n n n s').
Proof.
  induction m as [|m IH]; intros i s Hs Hn; cbn [query_bufs].
  - apply post_ret. intros _. by assert (n = i) as -> by lia.
  - pose proof (ma_i _ _ _ _ _ Hs). eapply post_call; [apply (query_buf_post n i s Hs); lia|]. intros r s1 M1.
    destruct (Z.eqb_spec r OK) as [->|Hr]; cbn [negb]; [|by apply post_ret].
    apply IH; [by apply M1|lia].
Qed.
(** Asking for them. *)
Lemma reqbufs_post s cnt :
  idle s ->
  post (v4l2ReqBufs cnt) s (fun rn s' => rn.1 = OK -> idle s' /\ glob s' = glob s /\ 0 <= rn.2 /\
    buffers (drv (world s')) = rn.2 /\ with_driver (drv (world s')) = ∅).
Proof.
  intros Hs. unfold v4l2ReqBufs, the_fd, on_drv, on_world, post, bind, get_glob.
  destruct (v_reqbufs _ cnt (drv (world s))) as [[r n] d] eqn:Eq. cbn.
  destruct (Z.ltb_spec r 0) as [|Hr]; cbn; [unfold OK; lia|]. intros _.
  destruct (law_reqbufs _ _ _ _ _ _ Eq Hr) as (H0' & H1' & H2'). split_and!; try done. by apply (idle_glob s).
Qed.

(** *** The session *)

Lemma size_upto (X : gset Z) n : (forall j, j ∈ X <-> 0 <= j < n) -> size X = Z.to_nat n.
Proof.
  intros HX. assert (X = list_to_set (seqZ 0 n)) as ->.
  { apply set_eq. intros j. rewrite HX, elem_of_list_to_set, elem_of_seqZ. lia. }
  rewrite size_list_to_set by apply NoDup_seqZ. by rewrite length_seqZ.
Qed.

Lemma start_core s n : mapped n n n n s -> core (view_of s) (fun _ => 0).
Proof.
  intros [[] Hn Ha Hi Hr Hb Hd Hm Hp]. split; cbn; try done.
  - intros i Hi'. unfold ref_at, buf_at. rewrite Forall_forall in id_ref0.
    destruct (i <? 0); [done|]. destruct (_ !! _) eqn:El; [|done].
    apply id_ref0. by eapply list_elem_of_lookup_2.
  - intros i. rewrite Hd, Hn. lia.
  - intros _ i. rewrite Hd, Hn. lia.
  - rewrite Ha. rewrite (size_upto _ n) by done. lia.
  - lia.
  - congruence.
  - intros i Hi'. apply Hm. lia.
  - intros Hs i Hi'. apply Hp; [by apply second_usb|lia].
Qed.

Lemma check_post (m k : M S Z) s (Q : S -> Prop) :
  post m s (fun r s' => r = OK -> post k s' (fun r s'' => r = OK -> Q s'')) ->
  post (check_no_error m k) s (fun r s' => r = OK -> Q s').
Proof.
  intros Hm. unfold check_no_error. eapply post_call; [exact Hm|]. cbn beta. intros r s1 Hk.
  destruct (Z.eqb_spec r NO_ERROR) as [->|Hr]; cbn [negb]; [by apply Hk|].
  unfold post, bind. by destruct (closeCameraDev s1).
Qed.
Lemma still_start_decoder : still (start_decoder (D := D) (E := E)).
Proof. unfold start_decoder, Libve_init2. still_tac. Qed.

(** Nobody has a frame, and the driver has them all. *)
Definition all_with_driver s : Prop :=
  core (view_of s) (fun _ => 0) /\ w_prev (view_of s) = [] /\ w_pic (view_of s) = [] /\
  w_take (view_of s) <> TAKE_PICTURE_NORMAL.
Lemma all_quiet {A} (m : M S A) s (Q : A -> S -> Prop) :
  still m -> all_with_driver s -> (forall a s', all_with_driver s' -> Q a s') -> post m s Q.
Proof.
  intros Hm Hs HQ. eapply post_mono; [apply Hm|]. cbn beta. intros a s' V. apply HQ. by unfold all_with_driver; rewrite V.
Qed.

Lemma start_post w h f hint s :
  idle s -> post (startDevice w h f hint) s (fun r s' => r = OK -> all_with_driver s').
Proof.
  intros Hs. unfold startDevice, with_object.
  assert (Hk : forall A B (m : M S A) (k : A -> M S B) s Q, keeps m -> idle s ->
    (forall a s', idle s' -> post (k a) s' Q) -> post (bind m k) s Q).
  { intros A B m k s0 Q Hm Hs0 Hk. eapply post_call; [by apply Hm|]. exact Hk. }
  apply Hk; [unfold lock_object; keeps_tac|done|]. intros _ s1 H1'.
  eapply (post_call _ _ _ (fun r s' => r = OK -> all_with_driver s')).
  2: { intros r s2 Hr. unfold post, bind, unlock_object, upd_sync, set_glob, ret. intros E0.
       destruct (Hr E0) as (C & Hp & Hq & Ht). by split_and!. }
  apply post_get. destruct (negb _); [by apply post_ret|]. destruct (isStarted _); [by apply post_ret|].
  do 5 (apply Hk; [first [apply keeps_params | unfold upd_cfg, upd_mem, upd_sync; keeps_tac]|done|];
    intros _ ? ?).
  apply check_post. eapply post_mono; [by apply keeps_video|]. cbn beta. intros r s2 H2' ->. apply post_get.
  eapply post_call; [by apply reqbufs_post|]. cbn beta. intros [r n] s3 G3. apply check_post, post_ret. cbn.
  intros ->. destruct (G3 eq_refl) as (H3' & Eg & Hn & Hb & Hd). cbn [fst snd] in *.
  eapply (post_call _ _ _ (fun _ s' => mapped n 0 0 0 s' /\ mBufferCnt (mem (glob s')) = n)).
  { split; [|done]. split; cbn; [by destruct H3'; split|done|done|lia| |done| |intros; lia..].
    - unfold lenZ. lia.
    - intros j. rewrite Hd. pose proof (not_elem_of_empty (C := gset Z) j). intuition lia. }
  cbn beta. intros _ s4 [M4 En]. apply check_post. unfold v4l2QueryBuf. apply post_get. rewrite En.
  eapply post_mono; [apply (query_bufs_post n _ 0 s4 M4); lia|]. cbn beta. intros r s5 M5 ->. specialize (M5 eq_refl).
  apply check_post. unfold v4l2StartStreaming, v4l2Streaming, the_fd. apply post_get.
  eapply post_call; [apply (mapped_drv (fun _ => True) n n n n s5 _ M5)|].
  { intros d r d' Ef. by apply law_stream in Ef. }
  cbn beta. intros r s6 (_ & M6 & _). destruct (r <? 0) eqn:Er; apply post_ret; [unfold OK; lia|]. intros _.
  assert (A6 : all_with_driver s6).
  { pose proof (ma_idle _ _ _ _ _ M6) as []. split_and!; try done. by eapply start_core. }
  do 2 (eapply post_call; [eapply (all_quiet _ _ (fun _ s' => all_with_driver s')); [by apply still_set|eassumption|by intros]|]; intros [] ? ?).
  eapply post_call; [eapply (all_quiet _ _ (fun _ s' => all_with_driver s')); [apply still_start_decoder|eassumption|by intros]|].
  intros [] s9 A9. by apply post_ret.
Qed.

(** The threads between two frames. *)
Definition free_hands (y : sys) : Prop :=
  held_cap (cap y) = [] /\ held_prev (prev y) = [] /\ (forall w, held_shot (shot y w) = []) /\ kept y = [].
Lemma start_frames y : all_with_driver (st y) -> free_hands y -> frames_ok y.
Proof.
  intros (C & Hp & Hq & Ht) (Hc & Hv & Hs & Hk).
  assert (Eh : in_hands y = []) by (unfold in_hands, all_shots; by rewrite Hc, Hv, !Hs, Hk).
  assert (Es : all_shots held_pic (shot y) = []).
  { unfold all_shots. assert (Hn : forall pc, held_shot pc = [] -> held_pic pc = []) by (by intros []). by rewrite !Hn. }
  split; rewrite ?Eh, ?Es, ?Hp, ?Hq; try done.
Qed.


(** A frame whose address is 0, as a driver gives it that counts [m.offset] from
    the start of its memory: the preview thread takes it for released and leaves
    it, counted. *)
Theorem zero_offset_dropped s i b p :
  mObjectLock (sync (glob s)) = false ->
  buf_at (mV4l2buf (mem (glob s))) i = Some b -> vb_addrPhyY b = 0 -> 0 <= vb_index b ->
  map_mem (mem (glob s)) !! Z.to_nat (vb_index b) = Some p ->
  exists s', preview_frame (PBuf i) s = Done PrevTop s' /\ mem (glob s') = mem (glob s).
Proof.
  intros Hl Eb Hp Hi Em. unfold preview_frame, lock_object, bind at 1 2, get_glob. rewrite Hl. cbn [upd_sync set_glob].
  set (s1 := Mach _ _ _ _). unfold bind at 1. rewrite (buf_slot s1 i b) by exact Eb.
  unfold bind at 1, is_released. unfold bind at 1, get_glob, bind at 1, slot.
  replace (vb_index b <? 0) with false by lia. change (map_mem (mem (glob s1))) with (map_mem (mem (glob s))).
  rewrite Em. cbn [checked ret]. rewrite Hp, orb_true_r. by eexists.
Qed.
End Start.

(** ** A concrete camera

    [n] buffers of which [queue] wait; one is filled at every turn, the lowest
    first.  Memory is zero, time stands still, and the recorder keeps every frame
    while [env] says so. *)

Record camera := Camera { has : Z; queue : gset Z }.
#[export] Instance camera_ops : V4l2Ops camera := {|
  v_open := fun _ d => (3, d);
  v_close := fun _ d => d;
  v_querycap := fun _ d => (0, V4l2Cap [] [] (V4L2_CAP_VIDEO_CAPTURE + V4L2_CAP_STREAMING), d);
  v_s_input := fun _ _ d => (0, d);
  v_enum_fmt := fun _ _ d => (-1, 0, d);
  v_s_fmt := fun _ f d => (0, f, d);
  v_try_fmt := fun _ f d => (0, f, d);
  v_reqbufs := fun _ n d => (0, Z.max 0 n, Camera (Z.max 0 n) ∅);
  v_querybuf := fun _ i d => (0, (4096, 4096 * (i + 1)), d);
  v_mmap := fun _ _ off d => ((if off =? 0 then 1 else off), d);
  v_munmap := fun _ _ d => (0, d);
  v_qbuf := fun _ i d =>
    if (0 <=? i) && (i <? has d) then (if decide (i ∈ queue d) then (-1, d) else (0, Camera (has d) ({[i]} ∪ queue d)))
    else (-1, d);
  v_dqbuf := fun _ d =>
    match elements (queue d) with
    | [] => (-1, V4l2Buffer 0 0 0 0, d)
    | i :: _ => (0, V4l2Buffer i 100 4096 0, Camera (has d) (queue d ∖ {[i]}))
    end;
  v_stream := fun _ _ d => (0, d);
  v_select := fun _ d => ((if decide (queue d = ∅) then 0 else 1), d);
  v_s_parm := fun _ _ _ d => (0, d);
  v_g_parm := fun _ d => (0, (1, 30), d);
  v_s_ctrl := fun _ _ _ _ d => (0, d);
  v_g_ctrl := fun _ _ d => (0, d);
  v_queryctrl := fun _ _ d => (0, d);
  v_framesize := fun _ _ _ d => (0, (16, 16), d);
|}.
#[export] Instance camera_law : V4l2Law camera.
Proof.
  refine {| buffers := has; with_driver := queue |}.
  - intros fd d r b d'. cbn. destruct (elements (queue d)) as [|i l] eqn:El; intros [= <- <- <-]; cbn; [done|].
    split_and!; try done. apply elem_of_elements. rewrite El. left.
  - intros fd i d r d'. cbn. destruct ((0 <=? i) && (i <? has d)) eqn:Ei; [|intros [= <- <-]; split; [done|lia]].
    destruct (decide (i ∈ queue d)); intros [= <- <-]; cbn; [|done]. by split.
  - intros fd d r d' [= _ <-]. done.
Defined.
#[export] Instance camera_offset : PhysicalOffset camera.
Proof.
  intros fd d r b d'. cbn. destruct (elements (queue d)); intros [= <- <- _] Hr; [lia|done].
Qed.
Lemma camera_takes_back : takes_back camera.
Proof.
  intros fd i d r d'. cbn. intros Eq Hi Hn. replace ((0 <=? i) && (i <? has d)) with true in Eq by lia.
  destruct (decide (i ∈ queue d)) as [Hd|_]; [by destruct Hn|]. by injection Eq.
Qed.

(** Whether the recorder keeps frames. *)
#[export] Instance calm_env : CamEnvOps bool := {|
  e_access := fun _ _ => 0;
  e_lines := fun _ _ => Some [];
  e_systemTime := fun e => (0, e);
  e_gettimeofday := fun e => (0, e);
  e_usleep := fun _ e => e;
  ion_open := fun e => (0, e);
  ion_close := fun e => (0, e);
  ion_palloc := fun _ e => (8192, e);
  ion_pfree := fun _ e => e;
  ion_phyaddr := fun p _ => p;
  ion_flush := fun _ _ e => e;
  mem_get := fun _ _ _ => [];
  mem_put := fun _ _ e => e;
  stack_buf := fun _ => buf_zero;
  vd_create := fun e => (1, e);
  vd_initialize := fun _ _ e => (0, e);
  vd_destroy := fun _ e => e;
  vd_request := fun _ _ e => (0, StreamRoom 0 0 0 0, e);
  vd_submit := fun _ _ e => e;
  vd_decode := fun _ e => (false, e);
  vd_picture := fun _ e => (None, e);
  vd_return := fun _ _ e => e;
|}.
#[export] Instance calm_client : CamClient bool := {|
  cb_next_frame := fun _ _ e => (e, e);
  cb_take_picture := fun _ _ e => (true, e);
  pw_next_frame := fun _ e => e;
  hw_notify_picture := fun _ e => e;
  hw_set_crop := fun _ e => e;
  hw_blink := fun _ => false;
  hw_smile := fun _ => false;
|}.
#[export] Instance camera_start : V4l2Start camera bool.
Proof.
  split.
  - intros fd n d r m d' [= <- <- <-] _. split; [lia|done].
  - by intros fd i d r lo d' [= _ _ <-].
  - intros fd n off d p d' [= <- <-]. by destruct (Z.eqb_spec off 0).
  - by intros fd d r d' [= _ <-].
  - done.
Defined.

(** Connected; started; and the threads at their tops. *)
Definition fresh : mach (cam_world camera bool) cam_g := Mach (CamWorld (Camera 0 ∅) true) 0 0 cam_initial.
Definition after {A} (m : M (mach (cam_world camera bool) cam_g) A) s :=
  match m s with Done _ s' => s' | _ => s end.
Definition connected := after (connectDevice (HalInfo (str_bytes "/dev/video0") 0 false false)) fresh.
Definition started := after (startDevice 640 480 V4L2_PIX_FMT_NV21 false) connected.
Definition session (s : mach (cam_world camera bool) cam_g) : sys :=
  Sys s CapTop PrevTop (fun _ => PicTop) [].
Definition frame_counts (y : sys) : list Z := map vb_refCnt (mV4l2buf (mem (glob (st (D := camera) (E := bool) y)))).

(** One frame through the capture thread, and then through the preview. *)
Definition capture_round : list actor := [ACapture; ACapture; ACapture; ACapture].
Definition preview_round : list actor := [APreview false; APreview false; APreview false; APreview false].

Definition trial : list actor :=
  AApp AStartDelivering :: capture_round ++ [APreview false; APreview false] ++ capture_round ++
  [APreview false; APreview false] ++
  [AApp (ATakePicture TAKE_PICTURE_FAST)] ++ capture_round ++ [AShooter Single; AShooter Single].


Lemma connected_idle : idle connected.
Proof. split; try done; by repeat constructor. Qed.
Lemma trial_runs : is_Some (turns trial (session started)).
Proof. vm_compute. by eexists. Qed.

Lemma trial_calm : Forall calm trial.
Proof. by repeat constructor. Qed.
Lemma trial_undisturbed : undisturbed trial (session started) = true.
Proof. vm_compute. reflexivity. Qed.


(** ** Where the bookkeeping breaks *)

(** A frame counted but held by nobody never comes back; one with the driver that
    somebody holds is overwritten. *)
Definition frame_lost (i : Z) (y : sys) : bool :=
  users y i <? ref_at (mV4l2buf (mem (glob (st (D := camera) (E := bool) y)))) i.
Definition frame_shared (i : Z) (y : sys) : bool :=
  bool_decide (i ∈ queue (drv (world (st (D := camera) (E := bool) y)))) && (0 <? users y i).

(** The capture thread gives the frame it delivered back while the notifier, which
    has read its count, is about to store one more. *)
Definition counted_between (lost : bool) : list actor :=
  [AApp AStartDelivering; ACapture; ACapture; ACapture; APreview false; APreview false; ACapture; APreview lost].

(** [pbuf->refCnt++] of [onNextFrameHW] without [mCaptureMutex]: a release between
    its load and its store is forgotten, so that the frame never goes back to the
    driver; or, when the release read the count before that store and writes it
    after, the recorder is not counted, and the frame is given to the driver while
    the recorder has it. *)
Theorem unlocked_count_breaks :
  option_map (frame_lost 7) (turns (counted_between false) (session started)) = Some true /\
  option_map (frame_shared 7) (turns (counted_between true ++ [APreview false]) (session started)) = Some true.
Proof. vm_compute. by split. Qed.

(** The copied picture of [TAKE_PICTURE_NORMAL] sets [mIsPicCopy], one flag for all
    the pictures under way. *)
Definition fast_then_normal : list actor :=
  [AApp AStartDelivering; AApp (ATakePicture TAKE_PICTURE_FAST)] ++ capture_round ++ [AShooter Single] ++
  [AApp (ATakePicture TAKE_PICTURE_NORMAL)] ++ capture_round ++ [AShooter Single; AShooter Single] ++
  preview_round ++ [AApp (AReleaseFrame 7)].
(** The continuous thread does not look at the flag. *)
Definition normal_to_continuous : list actor :=
  [AApp AStartDelivering; AApp (ATakePicture TAKE_PICTURE_NORMAL)] ++ capture_round ++
  [AShooter Continuous; AShooter Continuous; AApp AStartDelivering] ++ capture_round ++ [AShooter Continuous].

(** [mIsPicCopy] is one flag for all pictures: with a copied picture asked for
    while another picture is under way, the other one's frame is never given back;
    and the continuous thread, which does not read the flag, gives back the frame of
    a copy, which is then with the driver while the preview still waits for it. *)
Theorem copied_picture_breaks_frames :
  option_map (frame_lost 7) (turns fast_then_normal (session started)) = Some true /\
  option_map (frame_shared 7) (turns normal_to_continuous (session started)) = Some true.
Proof. vm_compute. by split. Qed.

(** the threads look at their queue and go to sleep without a lock around both:
    a picture queued and signalled in between is left in the queue, and the thread
    sleeps. *)
Theorem picture_signal_lost :
  option_map (fun y => (mQueueBufferPicture (sync (glob (st y))), shot y Single, asleep (sync (glob (st y))) mPictureCond))
    (turns (AShooter Single :: AApp AStartDelivering :: AApp (ATakePicture TAKE_PICTURE_FAST) :: capture_round ++
            [AShooter Single]) (session started)) =
  Some ([PBuf 7], PicAsleep, true).
Proof. vm_compute. reflexivity. Qed.

(** Stopped and started again, the threads where they are. *)
Definition restarted (y : sys) : sys :=
  Sys (after (startDevice 640 480 V4L2_PIX_FMT_NV21 false) (after stop_device (st y)))
    (cap y) (prev y) (shot y) (kept y).
(** A frame left in the preview queue when the device stops. *)
Definition left_over : list actor := [AApp AStartDelivering] ++ capture_round ++ [AApp AStopDelivering; ACapture].
Definition met_again : list actor :=
  [AApp AStartDelivering; ACapture] ++ capture_round ++ preview_round ++ [AApp (AReleaseFrame 7)].

(** [stopDevice] leaves the queues as they are: a frame of the old session is
    taken for the new one of the same index, which is with the driver while it still
    waits in the queue. *)
Theorem stale_frame_shared :
  option_map (frame_shared 7) (y ← turns left_over (session started); turns met_again (restarted y)) = Some true.
Proof. vm_compute. reflexivity. Qed.

(** ** A start that fails *)

Section Failed.
Context {D E : Type} `{V4l2Ops D} `{CamEnvOps E}.
Abbreviation S := (mach (cam_world D E) cam_g).
Implicit Types (s : S).

(** What a start that fails is about: the state, the descriptor, and how many are
    open. *)
Definition footing s : CameraDeviceState * Z * Z :=
  (mCameraDeviceState (sync (glob s)), mCameraFd (cfg (glob s)), fds_live s).

(** Calls that leave it alone. *)
Definition stable {A} (m : M S A) : Prop := forall s, post m s (fun _ s' => footing s' = footing s).
Lemma stable_bind {A B} (m : M S A) (k : A -> M S B) :
  stable m -> (forall a, stable (k a)) -> stable (bind m k).
Proof. intros Hm Hk s. eapply post_call; [apply Hm|]. intros a s1 <-. apply Hk. Qed.
Lemma stable_world {A} (f : cam_world D E -> A * cam_world D E) : stable (on_world f).
Proof. intros s. unfold on_world, post. by destruct (f _). Qed.
Lemma stable_set (f : cam_g -> cam_g) :
  (forall g, mCameraDeviceState (sync (f g)) = mCameraDeviceState (sync g) /\
    mCameraFd (cfg (f g)) = mCameraFd (cfg g)) -> stable (set_glob f).
Proof. intros Hf s. destruct (Hf (glob s)) as [E1 E2]. unfold footing. cbn. by rewrite E1, E2. Qed.
Lemma stable_slot {A B} (l : list A) i a (k : list A -> M S B) :
  (forall l, stable (k l)) -> stable (bind (put_slot l i a) k).
Proof. intros Hk s. apply post_put_slot. intros _. apply Hk. Qed.
End Failed.

Ltac stable_step := first
  [ apply stable_world | apply stable_slot; intros ? | apply stable_bind; [|intros ?]
  | apply stable_set; by split
  | match goal with
    | |- stable (if ?b then _ else _) => destruct b
    | |- stable (match ?o with Some _ => _ | None => _ end) => destruct o
    | |- stable (let '(_, _) := ?p in _) => destruct p
    end
  | by intros ?; unfold post, get_glob, ret, undef ].
Ltac stable_tac := repeat stable_step.

Section FailedStart.
Context {D E : Type} `{V4l2Ops D} `{CamEnvOps E}.
Abbreviation S := (mach (cam_world D E) cam_g).
Implicit Types (s : S).

Lemma stable_params : stable (v4l2setCaptureParams (D := D) (E := E)).
Proof. unfold v4l2setCaptureParams. stable_tac. Qed.
Lemma stable_video w h f : stable (v4l2SetVideoParams (D := D) (E := E) w h f).
Proof. unfold v4l2SetVideoParams, on_drv. stable_tac. Qed.
Lemma stable_reqbufs n : stable (v4l2ReqBufs (D := D) (E := E) n).
Proof. unfold v4l2ReqBufs, the_fd, on_drv. stable_tac. Qed.
Lemma stable_query n i : stable (query_bufs (D := D) (E := E) n i).
Proof.
  revert i. induction n as [|n IH]; intros i; cbn [query_bufs]; [stable_tac|].
  apply stable_bind; [|intros r; destruct (negb _); [stable_tac|apply IH]].
  unfold query_buf, video_buffer, the_fd, on_drv, on_env, ask_env, upd_mem, step_env. stable_tac.
Qed.
Lemma stable_decoder : stable (start_decoder (D := D) (E := E)).
Proof. unfold start_decoder, Libve_init2, on_env, step_env, checked, upd_cfg. stable_tac. Qed.

(** Where a start from "connected" with descriptor [fd] and [n] of them open ends:
    on an error the close of [fd] is the last call of the driver. *)
Definition start_ends (fd n : Z) (r : Z) s : Prop :=
  (r = NO_ERROR /\ footing s = (STATE_STARTED, fd, n)) \/
  (r = EINVAL /\ footing s = (STATE_CONNECTED, 0, if fd <=? 0 then n else n - 1) /\
   (fd <> 0 -> exists d, drv (world s) = v_close fd d)).

Lemma check_ends (m k : M S Z) s fd n :
  stable m -> footing s = (STATE_CONNECTED, fd, n) ->
  (forall s1, footing s1 = (STATE_CONNECTED, fd, n) -> post k s1 (start_ends fd n)) ->
  post (check_no_error m k) s (start_ends fd n).
Proof.
  intros Hm Hs Hk. unfold check_no_error. eapply post_call; [apply Hm|]. cbn beta. intros r s1 E1.
  rewrite Hs in E1. destruct (negb (r =? NO_ERROR)); [|by apply Hk].
  injection E1 as Ec Ef En. unfold closeCameraDev, the_fd, post, bind, get_glob, start_ends, footing. rewrite Ef.
  destruct (Z.eqb_spec fd 0) as [->|H0']; right; cbn.
  - by rewrite Ec, Ef, En.
  - rewrite Ec, En. split_and!; [done| |eauto].
    by destruct (Z.ltb_spec fd 0), (Z.leb_spec fd 0); try lia.
Qed.
Lemma stable_start {A B} (m : M S A) (k : A -> M S B) s p Q :
  stable m -> footing s = p -> (forall a s1, footing s1 = p -> post (k a) s1 Q) -> post (bind m k) s Q.
Proof. intros Hm Hs Hk. eapply post_call; [apply Hm|]. cbn beta. intros a s1 E1. apply Hk. by rewrite E1. Qed.

Lemma start_ends_post width height fmt hint s fd n :
  footing s = (STATE_CONNECTED, fd, n) -> post (startDevice width height fmt hint) s (start_ends fd n).
Proof.
  intros Hs. unfold startDevice, with_object, lock_object.
  eapply stable_start; [stable_tac|exact Hs|]. clear s Hs. intros _ s Hs.
  eapply (post_call _ _ _ (start_ends fd n)).
  2: { intros r1 s1 [[-> Hf]|(-> & Hf & Hd)]; [by left|by right]. }
  apply post_get. assert (Hc : mCameraDeviceState (sync (glob s)) = STATE_CONNECTED) by (by injection Hs).
  unfold isConnected, isStarted. rewrite Hc. cbn [negb bool_decide]. clear Hc.
  do 4 (eapply stable_start; [apply stable_set; by split|exact Hs|]; clear s Hs; intros _ s Hs).
  eapply stable_start; [apply stable_params|exact Hs|]. clear s Hs. intros _ s Hs.
  apply check_ends; [apply stable_video|done|]. clear s Hs. intros s Hs. apply post_get.
  eapply stable_start; [apply stable_reqbufs|exact Hs|]. clear s Hs. intros [rq m] s Hs.
  apply check_ends; [stable_tac|done|]. clear s Hs. intros s Hs.
  eapply stable_start; [apply stable_set; by split|exact Hs|]. clear s Hs. intros _ s Hs.
  apply check_ends; [apply stable_bind; [stable_tac|intros; apply stable_query]|done|]. clear s Hs. intros s Hs.
  apply check_ends; [unfold v4l2StartStreaming, v4l2Streaming, the_fd, on_drv; stable_tac|done|]. clear s Hs. intros s Hs.
  eapply (post_call _ _ _ (fun _ s' => footing s' = (STATE_STARTED, fd, n))).
  { injection Hs as _ Ef En. unfold post, upd_sync, set_glob, footing. cbn. by rewrite Ef, En. }
  clear s Hs. intros _ s Hs.
  eapply stable_start; [apply stable_set; by split|exact Hs|]. clear s Hs. intros _ s Hs.
  eapply stable_start; [apply stable_decoder|exact Hs|]. clear s Hs. intros _ s Hs.
  apply post_ret. by left.
Qed.

(** C21: an error of the driver while a connected device starts closes the
    descriptor, once, as the last call of the driver, and answers [EINVAL]; but the
    device stays in the state "connected", now with descriptor 0.  The next start
    is therefore not refused for want of a device: whatever its arguments, it never
    opens the node, its success leaves the device "started" on descriptor 0, and its
    failure closes nothing. *)
Theorem failed_start_stays_connected width height fmt hint s r s' :
  mCameraDeviceState (sync (glob s)) = STATE_CONNECTED -> 0 < mCameraFd (cfg (glob s)) ->
  startDevice width height fmt hint s = Done r s' -> r <> NO_ERROR ->
  r = EINVAL /\ footing s' = (STATE_CONNECTED, 0, fds_live s - 1) /\
  (exists d, drv (world s') = v_close (mCameraFd (cfg (glob s))) d) /\
  (forall width' height' fmt' hint' r2 s2, startDevice width' height' fmt' hint' s' = Done r2 s2 ->
    (r2 = NO_ERROR /\ footing s2 = (STATE_STARTED, 0, fds_live s - 1)) \/
    (r2 = EINVAL /\ footing s2 = (STATE_CONNECTED, 0, fds_live s - 1))).
Proof.
  intros Hc Hd Er Hr. set (fd := mCameraFd (cfg (glob s))) in *.
  pose proof (start_ends_post width height fmt hint s fd (fds_live s)) as Hp. unfold post in Hp.
  rewrite Er in Hp. destruct Hp as [[-> _]|(-> & Hf & Hv)]; [unfold footing; by rewrite Hc|done|].
  replace (fd <=? 0) with false in Hf by lia. split_and!; [done|done|apply Hv; lia|].
  intros w2 h2 f2 t2 r2 s2 E2. pose proof (start_ends_post w2 h2 f2 t2 s' _ _ Hf) as Hp. unfold post in Hp.
  rewrite E2 in Hp. destruct Hp as [[-> Hf2]|(-> & Hf2 & _)]; [by left|by right].
Qed.
End FailedStart.

(** A driver whose [VIDIOC_STREAMON] fails. *)
Definition no_stream : V4l2Ops camera := {|
  v_open := v_open; v_close := v_close; v_querycap := v_querycap; v_s_input := v_s_input;
  v_enum_fmt := v_enum_fmt; v_s_fmt := v_s_fmt; v_try_fmt := v_try_fmt; v_reqbufs := v_reqbufs;
  v_querybuf := v_querybuf; v_mmap := v_mmap; v_munmap := v_munmap; v_qbuf := v_qbuf; v_dqbuf := v_dqbuf;
  v_stream := fun _ _ d => (-1, d);
  v_select := v_select; v_s_parm := v_s_parm; v_g_parm := v_g_parm; v_s_ctrl := v_s_ctrl;
  v_g_ctrl := v_g_ctrl; v_queryctrl := v_queryctrl; v_framesize := v_framesize;
|}.
Lemma failed_start_stays_connected_witness : exists s',
  startDevice (H := no_stream) 640 480 V4L2_PIX_FMT_NV21 false connected = Done EINVAL s' /\
  footing connected = (STATE_CONNECTED, 3, 1) /\ footing s' = (STATE_CONNECTED, 0, 0) /\
  (forall w h f hint r2 s2, startDevice (H := no_stream) w h f hint s' = Done r2 s2 ->
    (r2 = NO_ERROR /\ footing s2 = (STATE_STARTED, 0, 0)) \/ (r2 = EINVAL /\ footing s2 = (STATE_CONNECTED, 0, 0))).
Proof.
  destruct (startDevice (H := no_stream) 640 480 V4L2_PIX_FMT_NV21 false connected) as [r s'| |] eqn:Es;
    [|by vm_compute in Es..].
  assert (Hr : bool_decide (r = NO_ERROR) = false).
  { assert (Eb : match startDevice (H := no_stream) 640 480 V4L2_PIX_FMT_NV21 false connected with
             | Done r _ => bool_decide (r = NO_ERROR) | _ => true end = false) by (vm_compute; reflexivity).
    by rewrite Es in Eb. }
  apply bool_decide_eq_false in Hr.
  destruct (failed_start_stays_connected (H := no_stream) 640 480 V4L2_PIX_FMT_NV21 false connected r s')
    as (-> & Hf & _ & Hn); [vm_compute; reflexivity|vm_compute; reflexivity|exact Es|exact Hr|].
  exists s'. split_and!; [reflexivity|vm_compute; reflexivity|exact Hf|exact Hn].
Defined.
(** The driver recovers: the camera streams on descriptor 0. *)
Theorem restarts_on_zero :
  match startDevice (H := no_stream) 640 480 V4L2_PIX_FMT_NV21 false connected with
  | Done _ s' => option_map footing (match startDevice 640 480 V4L2_PIX_FMT_NV21 false s' with
                                     | Done r s2 => if r =? NO_ERROR then Some s2 else None | _ => None end)
  | _ => None
  end = Some (STATE_STARTED, 0, 0).
Proof. vm_compute. reflexivity. Qed.
