(* ===== verification/CamNotify.v ===== *)
(** * camera: pictures and the callbacks

    [BufferListManager.cpp] and [CallbackNotifier.cpp]: the messages of the
    framework, the frames handed to it, and a picture on its way: encoded by
    [takePicture], put into a list, and saved by a thread of its own into the
    descriptor the application sends for it.  The framework, the encoder and the
    kernel are the class [NotifyOps]; a heap block counts in [heap_live] and a
    descriptor the application hands over in [fds_live]. *)

From S2P Require Import Prelude CLib Os CamPixel CamEnv.

(** The messages the code sends; their bits are the framework's. *)
Inductive cam_msg :=
| CAMERA_MSG_ERROR | CAMERA_MSG_SHUTTER | CAMERA_MSG_FOCUS | CAMERA_MSG_FOCUS_MOVE
| CAMERA_MSG_PREVIEW_FRAME | CAMERA_MSG_VIDEO_FRAME | CAMERA_MSG_RAW_IMAGE
| CAMERA_MSG_COMPRESSED_IMAGE | CAMERA_MSG_RAW_IMAGE_NOTIFY | CAMERA_MSG_PREVIEW_METADATA
| CAMERA_MSG_CONTINUOUSSNAP | CAMERA_MSG_SNAP | CAMERA_MSG_SNAP_THUMB | CAMERA_MSG_SNAP_FD.

(** A picture, and the path and the descriptor it is to go to. *)
Record buffer_node := BufferNode {
  bn_id : Z;
  bn_data : bytes;
  bn_size : Z;
  bn_priv : bytes;    (* the string in its 128 bytes *)
  bn_fd : Z;
}.
Definition set_bn_id v r := BufferNode v (bn_data r) (bn_size r) (bn_priv r) (bn_fd r).
Definition set_bn_data v r := BufferNode (bn_id r) v (bn_size r) (bn_priv r) (bn_fd r).
Definition set_bn_size v r := BufferNode (bn_id r) (bn_data r) v (bn_priv r) (bn_fd r).
Definition set_bn_priv v r := BufferNode (bn_id r) (bn_data r) (bn_size r) v (bn_fd r).
Definition set_bn_fd v r := BufferNode (bn_id r) (bn_data r) (bn_size r) (bn_priv r) v.

(** [VencInputBuffer] and [JpegEncInfo], the fields that are not constant. *)
Record VencInputBuffer := VencIn {
  ve_virY : Z; ve_virC : Z; ve_phyY : Z; ve_phyC : Z; ve_id : Z; ve_pts : Z; ve_crop : option RECT_t }.
Record JpegEncInfo := JpegInfo {
  je_in_w : Z; je_in_h : Z; je_dst_w : Z; je_dst_h : Z; je_phyY : Z; je_phyC : Z; je_nv21 : bool; je_quality : Z;
  je_rotate : Z; je_crop : option RECT_t }.

(** What is handed to the framework. *)
Inductive payload := Empty | Bytes (b : bytes) | Venc (v : VencInputBuffer).

Class NotifyOps (F : Type) := {
  msg_bit : cam_msg -> Z;
  nf_venc_size : Z;                              (* sizeof(VencInputBuffer) *)
  nf_malloc : Z -> F -> bool * F;                (* malloc: whether there is a block *)
  nf_memory : Z -> F -> bool * F;                (* mGetMemoryCB *)
  nf_notify : cam_msg -> Z -> F -> F;            (* mNotifyCB *)
  nf_data : cam_msg -> payload -> F -> F;        (* mDataCB *)
  nf_data_time : Z -> payload -> F -> F;         (* mDataCBTimestamp, a video frame *)
  nf_frame : Z -> Z -> F -> bytes;               (* the memory of a frame *)
  nf_fresh : Z -> F -> bytes;                    (* what new memory of a size holds *)
  nf_encode : JpegEncInfo -> F -> Z * bytes * F; (* AWJpecEnc *)
  nf_write : Z -> bytes -> F -> Z * F;
  nf_close : Z -> F -> F;
  nf_fopen : bytes -> F -> bool * F;             (* "wb+" *)
  nf_fwrite : bytes -> bytes -> F -> F;          (* with fflush and fclose *)
}.

(** The object; [nt_list] is the list of [mBufferList], when there is one. *)
Record notify_g := NotifyG {
  nt_callbacks : bool;            (* the callbacks are set *)
  mMessageEnabler : Z;
  mVideoRecEnabled : bool;
  mSavePictureCnt : Z;
  mSavePictureMax : Z;
  mJpegQuality : Z;
  mJpegRotate : Z;
  mPictureWidth : Z;
  mPictureHeight : Z;
  nt_facelock : bool;             (* mCallingProcessName is com.android.facelock *)
  mFolderPath : bytes;
  mSnapPath : bytes;
  mFd : Z;
  mCBWidth : Z;
  mCBHeight : Z;
  nt_list : option (list buffer_node);
  nt_exit : bool;                 (* THREAD_STATE_EXIT *)
  mSaveThreadExited : bool;
  mIsSinglePicture : bool;
  mContinuousFd : list Z;
  mContinuousFdIndex : Z;
  nt_asleep : bool;               (* the thread sleeps on mSavePictureCond *)
}.
Definition set_nt_callbacks v r := NotifyG v (mMessageEnabler r) (mVideoRecEnabled r) (mSavePictureCnt r) (mSavePictureMax r) (mJpegQuality r) (mJpegRotate r) (mPictureWidth r) (mPictureHeight r) (nt_facelock r) (mFolderPath r) (mSnapPath r) (mFd r) (mCBWidth r) (mCBHeight r) (nt_list r) (nt_exit r) (mSaveThreadExited r) (mIsSinglePicture r) (mContinuousFd r) (mContinuousFdIndex r) (nt_asleep r).
Definition set_mMessageEnabler v r := NotifyG (nt_callbacks r) v (mVideoRecEnabled r) (mSavePictureCnt r) (mSavePictureMax r) (mJpegQuality r) (mJpegRotate r) (mPictureWidth r) (mPictureHeight r) (nt_facelock r) (mFolderPath r) (mSnapPath r) (mFd r) (mCBWidth r) (mCBHeight r) (nt_list r) (nt_exit r) (mSaveThreadExited r) (mIsSinglePicture r) (mContinuousFd r) (mContinuousFdIndex r) (nt_asleep r).
Definition set_mVideoRecEnabled v r := NotifyG (nt_callbacks r) (mMessageEnabler r) v (mSavePictureCnt r) (mSavePictureMax r) (mJpegQuality r) (mJpegRotate r) (mPictureWidth r) (mPictureHeight r) (nt_facelock r) (mFolderPath r) (mSnapPath r) (mFd r) (mCBWidth r) (mCBHeight r) (nt_list r) (nt_exit r) (mSaveThreadExited r) (mIsSinglePicture r) (mContinuousFd r) (mContinuousFdIndex r) (nt_asleep r).
Definition set_mSavePictureCnt v r := NotifyG (nt_callbacks r) (mMessageEnabler r) (mVideoRecEnabled r) v (mSavePictureMax r) (mJpegQuality r) (mJpegRotate r) (mPictureWidth r) (mPictureHeight r) (nt_facelock r) (mFolderPath r) (mSnapPath r) (mFd r) (mCBWidth r) (mCBHeight r) (nt_list r) (nt_exit r) (mSaveThreadExited r) (mIsSinglePicture r) (mContinuousFd r) (mContinuousFdIndex r) (nt_asleep r).
Definition set_mSavePictureMax v r := NotifyG (nt_callbacks r) (mMessageEnabler r) (mVideoRecEnabled r) (mSavePictureCnt r) v (mJpegQuality r) (mJpegRotate r) (mPictureWidth r) (mPictureHeight r) (nt_facelock r) (mFolderPath r) (mSnapPath r) (mFd r) (mCBWidth r) (mCBHeight r) (nt_list r) (nt_exit r) (mSaveThreadExited r) (mIsSinglePicture r) (mContinuousFd r) (mContinuousFdIndex r) (nt_asleep r).
Definition set_mJpegQuality v r := NotifyG (nt_callbacks r) (mMessageEnabler r) (mVideoRecEnabled r) (mSavePictureCnt r) (mSavePictureMax r) v (mJpegRotate r) (mPictureWidth r) (mPictureHeight r) (nt_facelock r) (mFolderPath r) (mSnapPath r) (mFd r) (mCBWidth r) (mCBHeight r) (nt_list r) (nt_exit r) (mSaveThreadExited r) (mIsSinglePicture r) (mContinuousFd r) (mContinuousFdIndex r) (nt_asleep r).
Definition set_mJpegRotate v r := NotifyG (nt_callbacks r) (mMessageEnabler r) (mVideoRecEnabled r) (mSavePictureCnt r) (mSavePictureMax r) (mJpegQuality r) v (mPictureWidth r) (mPictureHeight r) (nt_facelock r) (mFolderPath r) (mSnapPath r) (mFd r) (mCBWidth r) (mCBHeight r) (nt_list r) (nt_exit r) (mSaveThreadExited r) (mIsSinglePicture r) (mContinuousFd r) (mContinuousFdIndex r) (nt_asleep r).
Definition set_mPictureWidth v r := NotifyG (nt_callbacks r) (mMessageEnabler r) (mVideoRecEnabled r) (mSavePictureCnt r) (mSavePictureMax r) (mJpegQuality r) (mJpegRotate r) v (mPictureHeight r) (nt_facelock r) (mFolderPath r) (mSnapPath r) (mFd r) (mCBWidth r) (mCBHeight r) (nt_list r) (nt_exit r) (mSaveThreadExited r) (mIsSinglePicture r) (mContinuousFd r) (mContinuousFdIndex r) (nt_asleep r).
Definition set_mPictureHeight v r := NotifyG (nt_callbacks r) (mMessageEnabler r) (mVideoRecEnabled r) (mSavePictureCnt r) (mSavePictureMax r) (mJpegQuality r) (mJpegRotate r) (mPictureWidth r) v (nt_facelock r) (mFolderPath r) (mSnapPath r) (mFd r) (mCBWidth r) (mCBHeight r) (nt_list r) (nt_exit r) (mSaveThreadExited r) (mIsSinglePicture r) (mContinuousFd r) (mContinuousFdIndex r) (nt_asleep r).
Definition set_nt_facelock v r := NotifyG (nt_callbacks r) (mMessageEnabler r) (mVideoRecEnabled r) (mSavePictureCnt r) (mSavePictureMax r) (mJpegQuality r) (mJpegRotate r) (mPictureWidth r) (mPictureHeight r) v (mFolderPath r) (mSnapPath r) (mFd r) (mCBWidth r) (mCBHeight r) (nt_list r) (nt_exit r) (mSaveThreadExited r) (mIsSinglePicture r) (mContinuousFd r) (mContinuousFdIndex r) (nt_asleep r).
Definition set_mFolderPath v r := NotifyG (nt_callbacks r) (mMessageEnabler r) (mVideoRecEnabled r) (mSavePictureCnt r) (mSavePictureMax r) (mJpegQuality r) (mJpegRotate r) (mPictureWidth r) (mPictureHeight r) (nt_facelock r) v (mSnapPath r) (mFd r) (mCBWidth r) (mCBHeight r) (nt_list r) (nt_exit r) (mSaveThreadExited r) (mIsSinglePicture r) (mContinuousFd r) (mContinuousFdIndex r) (nt_asleep r).
Definition set_mSnapPath v r := NotifyG (nt_callbacks r) (mMessageEnabler r) (mVideoRecEnabled r) (mSavePictureCnt r) (mSavePictureMax r) (mJpegQuality r) (mJpegRotate r) (mPictureWidth r) (mPictureHeight r) (nt_facelock r) (mFolderPath r) v (mFd r) (mCBWidth r) (mCBHeight r) (nt_list r) (nt_exit r) (mSaveThreadExited r) (mIsSinglePicture r) (mContinuousFd r) (mContinuousFdIndex r) (nt_asleep r).
Definition set_mFd v r := NotifyG (nt_callbacks r) (mMessageEnabler r) (mVideoRecEnabled r) (mSavePictureCnt r) (mSavePictureMax r) (mJpegQuality r) (mJpegRotate r) (mPictureWidth r) (mPictureHeight r) (nt_facelock r) (mFolderPath r) (mSnapPath r) v (mCBWidth r) (mCBHeight r) (nt_list r) (nt_exit r) (mSaveThreadExited r) (mIsSinglePicture r) (mContinuousFd r) (mContinuousFdIndex r) (nt_asleep r).
Definition set_mCBWidth v r := NotifyG (nt_callbacks r) (mMessageEnabler r) (mVideoRecEnabled r) (mSavePictureCnt r) (mSavePictureMax r) (mJpegQuality r) (mJpegRotate r) (mPictureWidth r) (mPictureHeight r) (nt_facelock r) (mFolderPath r) (mSnapPath r) (mFd r) v (mCBHeight r) (nt_list r) (nt_exit r) (mSaveThreadExited r) (mIsSinglePicture r) (mContinuousFd r) (mContinuousFdIndex r) (nt_asleep r).
Definition set_mCBHeight v r := NotifyG (nt_callbacks r) (mMessageEnabler r) (mVideoRecEnabled r) (mSavePictureCnt r) (mSavePictureMax r) (mJpegQuality r) (mJpegRotate r) (mPictureWidth r) (mPictureHeight r) (nt_facelock r) (mFolderPath r) (mSnapPath r) (mFd r) (mCBWidth r) v (nt_list r) (nt_exit r) (mSaveThreadExited r) (mIsSinglePicture r) (mContinuousFd r) (mContinuousFdIndex r) (nt_asleep r).
Definition set_nt_list v r := NotifyG (nt_callbacks r) (mMessageEnabler r) (mVideoRecEnabled r) (mSavePictureCnt r) (mSavePictureMax r) (mJpegQuality r) (mJpegRotate r) (mPictureWidth r) (mPictureHeight r) (nt_facelock r) (mFolderPath r) (mSnapPath r) (mFd r) (mCBWidth r) (mCBHeight r) v (nt_exit r) (mSaveThreadExited r) (mIsSinglePicture r) (mContinuousFd r) (mContinuousFdIndex r) (nt_asleep r).
Definition set_nt_exit v r := NotifyG (nt_callbacks r) (mMessageEnabler r) (mVideoRecEnabled r) (mSavePictureCnt r) (mSavePictureMax r) (mJpegQuality r) (mJpegRotate r) (mPictureWidth r) (mPictureHeight r) (nt_facelock r) (mFolderPath r) (mSnapPath r) (mFd r) (mCBWidth r) (mCBHeight r) (nt_list r) v (mSaveThreadExited r) (mIsSinglePicture r) (mContinuousFd r) (mContinuousFdIndex r) (nt_asleep r).
Definition set_mSaveThreadExited v r := NotifyG (nt_callbacks r) (mMessageEnabler r) (mVideoRecEnabled r) (mSavePictureCnt r) (mSavePictureMax r) (mJpegQuality r) (mJpegRotate r) (mPictureWidth r) (mPictureHeight r) (nt_facelock r) (mFolderPath r) (mSnapPath r) (mFd r) (mCBWidth r) (mCBHeight r) (nt_list r) (nt_exit r) v (mIsSinglePicture r) (mContinuousFd r) (mContinuousFdIndex r) (nt_asleep r).
Definition set_mIsSinglePicture v r := NotifyG (nt_callbacks r) (mMessageEnabler r) (mVideoRecEnabled r) (mSavePictureCnt r) (mSavePictureMax r) (mJpegQuality r) (mJpegRotate r) (mPictureWidth r) (mPictureHeight r) (nt_facelock r) (mFolderPath r) (mSnapPath r) (mFd r) (mCBWidth r) (mCBHeight r) (nt_list r) (nt_exit r) (mSaveThreadExited r) v (mContinuousFd r) (mContinuousFdIndex r) (nt_asleep r).
Definition set_mContinuousFd v r := NotifyG (nt_callbacks r) (mMessageEnabler r) (mVideoRecEnabled r) (mSavePictureCnt r) (mSavePictureMax r) (mJpegQuality r) (mJpegRotate r) (mPictureWidth r) (mPictureHeight r) (nt_facelock r) (mFolderPath r) (mSnapPath r) (mFd r) (mCBWidth r) (mCBHeight r) (nt_list r) (nt_exit r) (mSaveThreadExited r) (mIsSinglePicture r) v (mContinuousFdIndex r) (nt_asleep r).
Definition set_mContinuousFdIndex v r := NotifyG (nt_callbacks r) (mMessageEnabler r) (mVideoRecEnabled r) (mSavePictureCnt r) (mSavePictureMax r) (mJpegQuality r) (mJpegRotate r) (mPictureWidth r) (mPictureHeight r) (nt_facelock r) (mFolderPath r) (mSnapPath r) (mFd r) (mCBWidth r) (mCBHeight r) (nt_list r) (nt_exit r) (mSaveThreadExited r) (mIsSinglePicture r) (mContinuousFd r) v (nt_asleep r).
Definition set_nt_asleep v r := NotifyG (nt_callbacks r) (mMessageEnabler r) (mVideoRecEnabled r) (mSavePictureCnt r) (mSavePictureMax r) (mJpegQuality r) (mJpegRotate r) (mPictureWidth r) (mPictureHeight r) (nt_facelock r) (mFolderPath r) (mSnapPath r) (mFd r) (mCBWidth r) (mCBHeight r) (nt_list r) (nt_exit r) (mSaveThreadExited r) (mIsSinglePicture r) (mContinuousFd r) (mContinuousFdIndex r) v.

(** The object as its constructor leaves it. *)
Definition notify_initial : notify_g :=
  NotifyG false 0 false 0 0 90 0 640 480 false [] [] 0 0 0 None false false true (replicate 10 0) 0 false.

(** Where the thread that saves the pictures stands. *)
Inductive save_pc :=
| SvTop
| SvEmpty                           (* found the list empty *)
| SvAsleep
| SvRound (n : buffer_node) (wait_cnt : Z)  (* at the head of the loop that waits for the descriptor *)
| SvWait (n : buffer_node) (wait_cnt : Z)   (* in pthread_cond_timedwait *)
| SvWaitContinuous (n : buffer_node)
| SvExited.

Section Notify.
Context {F : Type} `{NotifyOps F}.
Abbreviation S := (mach F notify_g).

(** ** BufferListManager.cpp *)

Definition get_block (n : Z) : M S bool := fun s =>
  let '(ok, w) := nf_malloc n (world s) in
  Done ok (Mach w (if ok : bool then heap_live s + 1 else heap_live s) (fds_live s) (glob s)).
Definition free_block : M S unit := fun s =>
  Done tt (Mach (world s) (heap_live s - 1) (fds_live s) (glob s)).

Definition SIZEOF_buffer_node : Z := 152.

Definition allocBuffer (min_size : Z) : M S (option buffer_node) :=
  let* ok := get_block SIZEOF_buffer_node in
  if negb ok then ret None else
  let* ok := get_block min_size in
  if negb ok then free_block ;;; ret None else
  ret (Some (BufferNode 0 [] min_size [] 0)).
Definition releaseBuffer (n : buffer_node) : M S unit := free_block ;;; free_block.

(** The list; there is none before [setCallbacks]. *)
Definition the_list : M S (list buffer_node) :=
  let* l := get_glob nt_list in checked l.
Definition isListEmpty : M S bool := let* l := the_list in ret (bool_decide (l = [])).
Definition getItemCnt : M S Z := let* l := the_list in ret (lenZ l).
Definition push (n : buffer_node) : M S unit :=
  let* l := the_list in set_glob (set_nt_list (Some (l ++ [n]))).
Definition pop : M S (option buffer_node) :=
  let* l := the_list in
  match l with
  | [] => ret None
  | n :: l => set_glob (set_nt_list (Some l)) ;;; ret (Some n)
  end.
Fixpoint release_all (l : list buffer_node) : M S unit :=
  match l with [] => ret tt | n :: l => releaseBuffer n ;;; release_all l end.

(** ** Messages *)

Definition isMessageEnabled (m : cam_msg) : M S bool :=
  let* e := get_glob mMessageEnabler in ret (negb (Z.land e (msg_bit m) =? 0)).
Definition enableMessage (msg_type : Z) : M S unit :=
  set_glob (fun g => set_mMessageEnabler (Z.lor (mMessageEnabler g) msg_type) g).
Definition disableMessage (msg_type : Z) : M S unit :=
  set_glob (fun g => set_mMessageEnabler (Z.ldiff (mMessageEnabler g) msg_type) g).
Definition enableVideoRecording : M S Z := set_glob (set_mVideoRecEnabled true) ;;; ret NO_ERROR.
Definition disableVideoRecording : M S unit := set_glob (set_mVideoRecEnabled false).
Definition storeMetaDataInBuffers : M S Z := ret UNKNOWN_ERROR.

(** A call of one of the framework's functions, which are set or NULL. *)
Definition callback (f : F -> F) : M S unit :=
  let* set := get_glob nt_callbacks in
  if set : bool then step_world f else undef.
Definition notify (m : cam_msg) (ext1 : Z) : M S unit := callback (nf_notify m ext1).
(** [mGetMemoryCB (-1, n, 1, NULL)], the data called back with it, and the
    release; [false] when there is no memory. *)
Definition data_cb (m : cam_msg) (n : Z) (p : payload) : M S bool :=
  let* set := get_glob nt_callbacks in
  if negb set then undef else
  let* ok := on_world (nf_memory n) in
  if ok : bool then step_world (nf_data m p) ;;; ret true else ret false.

Definition autoFocusMsg (success : bool) : M S Z :=
  let* on := isMessageEnabled CAMERA_MSG_FOCUS in
  (if on : bool then notify CAMERA_MSG_FOCUS (if success then 1 else 0) else ret tt) ;;; ret NO_ERROR.
Definition autoFocusContinuousMsg (success : bool) : M S Z :=
  let* on := isMessageEnabled CAMERA_MSG_FOCUS_MOVE in
  (if on : bool then notify CAMERA_MSG_FOCUS_MOVE (if success then 1 else 0) else ret tt) ;;; ret NO_ERROR.
(** Without memory the code calls [release] through NULL. *)
Definition faceDetectionMsg : M S Z :=
  let* on := isMessageEnabled CAMERA_MSG_PREVIEW_METADATA in
  (if on : bool then
     let* ok := data_cb CAMERA_MSG_PREVIEW_METADATA 1 Empty in if ok : bool then ret tt else undef
   else ret tt) ;;; ret NO_ERROR.
Definition onCameraDeviceError (err : Z) : M S unit :=
  let* on := isMessageEnabled CAMERA_MSG_ERROR in
  let* set := get_glob nt_callbacks in
  if on && set then notify CAMERA_MSG_ERROR err else ret tt.
Definition notifyPictureMsg : M S unit :=
  let* on := isMessageEnabled CAMERA_MSG_SHUTTER in
  (if on : bool then notify CAMERA_MSG_SHUTTER 0 else ret tt) ;;;
  let* raw := isMessageEnabled CAMERA_MSG_RAW_IMAGE in
  if raw : bool then data_cb CAMERA_MSG_RAW_IMAGE 1 Empty ;;; ret tt
  else
    let* on := isMessageEnabled CAMERA_MSG_RAW_IMAGE_NOTIFY in
    if on : bool then notify CAMERA_MSG_RAW_IMAGE_NOTIFY 0 else ret tt.

(** ** Frames *)

(** A video frame with its time; [false] without memory. *)
Definition video_frame (time n : Z) (p : payload) : M S bool :=
  let* set := get_glob nt_callbacks in
  if negb set then undef else
  let* ok := on_world (nf_memory n) in
  if ok : bool then step_world (nf_data_time time p) ;;; ret true else ret false.

(** The addresses of the frame for the encoder; whether the recorder keeps it. *)
Definition onNextFrameHW (b : V4L2BUF_t) : M S bool :=
  let crop := vb_crop_rect b in
  let sInputBuffer := VencIn (vb_addrVirY b) (vb_addrVirC b) (vb_addrPhyY b) (vb_addrPhyC b) (vb_index b)
    (vb_timeStamp b)
    (if (vb_width b =? r_width crop) || (vb_height b =? r_height crop) then None else Some crop) in
  let* video := isMessageEnabled CAMERA_MSG_VIDEO_FRAME in
  let* rec := get_glob mVideoRecEnabled in
  let* kept :=
    (if video && rec then video_frame (vb_timeStamp b) (nf_venc_size + 4) (Venc sInputBuffer)
     else ret false) in
  let* preview := isMessageEnabled CAMERA_MSG_PREVIEW_FRAME in
  (if preview : bool then data_cb CAMERA_MSG_PREVIEW_FRAME (nf_venc_size + 4) (Venc sInputBuffer) ;;; ret tt
   else ret tt) ;;;
  ret kept.

(** The frame scaled to [w] by [h] for the preview callback. *)
Definition scaled_preview (src : bytes) (src_w src_h w h : Z) (swap : bool) : M S unit :=
  let* set := get_glob nt_callbacks in
  if negb set then undef else
  let* ok := on_world (nf_memory (w * h * 3 / 2)) in
  if negb ok then ret tt else
  let* fresh := ask (nf_fresh (w * h * 3 / 2)) in
  let* '(_, d) := checked (yuv420spDownScale src src_w src_h w h fresh) in
  let* d := checked (if swap then formatToNV21 d w h (ALIGN_16B w) 0 (ALIGN_16B w * h * 3 / 2) true else Some d) in
  step_world (nf_data CAMERA_MSG_PREVIEW_FRAME (Bytes d)).

Definition onNextFrameSW (b : V4L2BUF_t) : M S unit :=
  let '(fmt, vir, w, h) :=
    (if (vb_isThumbAvailable b =? 1) && (vb_thumbUsedForPreview b =? 1)
     then (vb_thumbFormat b, vb_thumbAddrVirY b, vb_thumbWidth b, vb_thumbHeight b)
     else (vb_format b, vb_addrVirY b, vb_width b, vb_height b)) in
  let framesize := Z.quot (ALIGN_16B w * h * 3) 2 in
  let* src := ask (nf_frame vir framesize) in
  let* video := isMessageEnabled CAMERA_MSG_VIDEO_FRAME in
  let* rec := get_glob mVideoRecEnabled in
  (if video && rec then video_frame (vb_timeStamp b) framesize (Bytes src) ;;; ret tt else ret tt) ;;;
  let* preview := isMessageEnabled CAMERA_MSG_PREVIEW_FRAME in
  if negb preview then ret tt else
  let* g := get_glob id in
  if nt_facelock g then scaled_preview src (ALIGN_16B w) h 160 120 false
  else scaled_preview src (ALIGN_16B w) h (mCBWidth g) (mCBHeight g) (fmt =? V4L2_PIX_FMT_NV12).

Definition onNextFrameAvailable (b : V4L2BUF_t) (hw : bool) : M S bool :=
  if hw then onNextFrameHW b else onNextFrameSW b ;;; ret false.

(** ** Taking a picture *)

(** What the encoder is told: neither the crop of a zoom nor the EXIF data of the
    application, which the code writes into a structure it does not use. *)
Definition jpeg_info (g : notify_g) (b : V4L2BUF_t) : JpegEncInfo :=
  let '(fmt, phy, w, h) :=
    (if (vb_isThumbAvailable b =? 1) && (vb_thumbUsedForPhoto b =? 1)
     then (vb_thumbFormat b, vb_thumbAddrPhyY b, vb_thumbWidth b, vb_thumbHeight b)
     else (vb_format b, vb_addrPhyY b, vb_width b, vb_height b)) in
  JpegInfo w h (mPictureWidth g) (mPictureHeight g) phy (u32 (phy + ALIGN_16B w * h))
    (fmt =? V4L2_PIX_FMT_NV21) (mJpegQuality g) (mJpegRotate g) None.

(** [pthread_cond_signal (&mSavePictureCond)] *)
Definition signal_save : M S unit := set_glob (set_nt_asleep false).

Definition takePicture (b : V4L2BUF_t) (is_continuous : bool) : M S bool :=
  let* g := get_glob id in
  let room := mPictureWidth g * mPictureHeight g in
  the_list ;;;
  let* n := allocBuffer room in
  match n with
  | None => ret false
  | Some n =>
      let* '(r, jpeg) := on_world (fun w => let '(r, d, w) := nf_encode (jpeg_info g b) w in ((r, d), w)) in
      if r <? 0 then ret false else
      if room <? lenZ jpeg then undef else
      let n := set_bn_data jpeg n in
      if is_continuous then
        push (set_bn_id (mSavePictureCnt g) (set_bn_size (lenZ jpeg) n)) ;;;
        let* on := isMessageEnabled CAMERA_MSG_CONTINUOUSSNAP in
        (if on : bool then notify CAMERA_MSG_CONTINUOUSSNAP (mSavePictureCnt g) else ret tt) ;;;
        signal_save ;;;
        set_glob (fun g => set_mSavePictureCnt (mSavePictureCnt g + 1) g) ;;; ret true
      else if 0 <? lenZ (mSnapPath g) then
        push (set_bn_id (-1) (set_bn_size (lenZ jpeg) (set_bn_priv (mSnapPath g) n))) ;;;
        notify CAMERA_MSG_SNAP 0 ;;;
        signal_save ;;; ret true
      else
        data_cb CAMERA_MSG_COMPRESSED_IMAGE (lenZ jpeg) (Bytes jpeg) ;;;
        releaseBuffer n ;;; ret true
  end.

(** A slot of [mContinuousFd]. *)
Definition fd_slot (l : list Z) (i : Z) : M S Z := checked (bget l i).
Definition put_fd (l : list Z) (i fd : Z) : M S (list Z) :=
  if (0 <=? i) && (i <? lenZ l) then ret (<[Z.to_nat i := fd]> l) else undef.

(** The application's descriptor, which is the notifier's from now on. *)
Definition setFd (fd : Z) : M S unit :=
  (fun s => Done tt (Mach (world s) (heap_live s) (if 0 <? fd then fds_live s + 1 else fds_live s) (glob s))) ;;;
  let* g := get_glob id in
  if mIsSinglePicture g then set_glob (set_mFd fd)
  else
    let* fds := put_fd (mContinuousFd g) (mContinuousFdIndex g mod 10) fd in
    set_glob (fun g => set_mContinuousFdIndex (mContinuousFdIndex g + 1) (set_mContinuousFd fds g)).

Definition startContinuousPicture : M S unit := set_glob (set_mSavePictureCnt 0).
Definition setContinuousPictureCnt (cnt : Z) : M S unit := set_glob (set_mSavePictureMax cnt).
Definition setPictureMode (single : bool) : M S unit := set_glob (set_mIsSinglePicture single).
(** [strcpy] into 128 bytes. *)
Definition path_ok (path : bytes) : M S unit := if lenZ path <? 128 then ret tt else undef.
Definition setCBSize (w h : Z) : M S unit := set_glob (fun g => set_mCBHeight h (set_mCBWidth w g)).
Definition setJpegQuality (jpeg_quality : Z) : M S unit := set_glob (set_mJpegQuality jpeg_quality).
Definition setJpegRotate (jpeg_rotate : Z) : M S unit := set_glob (set_mJpegRotate jpeg_rotate).
(** The only process whose name matters. *)
Definition setCallingProcess (name : bytes) : M S unit :=
  path_ok name ;;; set_glob (set_nt_facelock (bool_decide (name = str_bytes "com.android.facelock"))).
Definition setPictureSize (w h : Z) : M S unit := set_glob (fun g => set_mPictureHeight h (set_mPictureWidth w g)).
Definition setSnapPath (path : bytes) : M S unit := path_ok path ;;; set_glob (set_mSnapPath path).
Definition setSaveFolderPath (path : bytes) : M S unit := path_ok path ;;; set_glob (set_mFolderPath path).

(** ** savePictureThread *)

Definition sprintf_03d (n : Z) : bytes :=
  let d := sprintf_d n in fill 48 (3 - lenZ d) ++ d.
Definition picture_name (folder : bytes) (id : Z) : bytes := folder ++ sprintf_03d id ++ str_bytes ".jpg".

(** [SAVE_PICTURE_END] *)
Definition save_end (n : buffer_node) : M S save_pc := releaseBuffer n ;;; ret SvTop.

Definition c_close_fd (fd : Z) : M S unit := fun s =>
  Done tt (Mach (nf_close fd (world s)) (heap_live s) (fds_live s - 1) (glob s)).
(** The picture into its descriptor, or into the file of its path; [false] for
    [goto SAVE_PICTURE_END]. *)
Definition write_picture (n : buffer_node) : M S bool :=
  if negb (in_bounds 0 (bn_size n) (bn_data n)) then undef else
  let data := bslice 0 (bn_size n) (bn_data n) in
  if 0 <? bn_fd n then
    let* err := on_world (nf_write (bn_fd n) data) in
    if err =? -1 then c_close_fd (bn_fd n) ;;; ret false else
    c_close_fd (bn_fd n) ;;;
    (if 0 <=? bn_id n then
       let* on := isMessageEnabled CAMERA_MSG_CONTINUOUSSNAP in
       if on : bool then notify CAMERA_MSG_CONTINUOUSSNAP (bn_id n + 1000) else ret tt
     else ret tt) ;;; ret true
  else
    let* folder := get_glob mFolderPath in
    let fname := if 0 <=? bn_id n then picture_name folder (bn_id n) else bn_priv n in
    path_ok fname ;;;
    let* ok := on_world (nf_fopen fname) in
    if ok : bool then step_world (nf_fwrite fname data) ;;; ret true else ret false.
(** From the descriptor on: [wait_cnt] is what is left of the rounds. *)
Definition save_with (n : buffer_node) (wait_cnt : Z) : M S save_pc :=
  if (wait_cnt <? 0) || (bn_fd n <=? 0) then save_end n else
  let* ok := write_picture n in
  if negb ok then save_end n else
  (if bn_id n <? 0 then data_cb CAMERA_MSG_SNAP_THUMB (lenZ (bn_priv n)) (Bytes (bn_priv n)) ;;; ret tt else ret tt) ;;;
  save_end n.

(** The thread was told to end. *)
Definition save_exit : M S save_pc :=
  set_glob (set_mSaveThreadExited true) ;;; signal_save ;;; ret SvExited.

(** The descriptor of a single picture, and of one of a series: the slot is the
    number of the picture, while [setFd] counts modulo ten. *)
Definition single_fd (n : buffer_node) (wait_cnt : Z) : M S save_pc :=
  let* fd := get_glob mFd in
  set_glob (set_mFd 0) ;;; save_with (set_bn_fd fd n) wait_cnt.
Definition continuous_fd (n : buffer_node) : M S save_pc :=
  let* g := get_glob id in
  let* fd := fd_slot (mContinuousFd g) (bn_id n) in
  let* fds := put_fd (mContinuousFd g) (bn_id n) 0 in
  set_glob (set_mContinuousFd fds) ;;; save_with (set_bn_fd fd n) 0.

(** To the first wait: the thread tests and goes to sleep under its mutex, but the
    others signal without it. *)
Definition save_top : M S save_pc :=
  let* g := get_glob id in
  if mIsSinglePicture g && nt_exit g then save_exit else
  let* empty := isListEmpty in
  if empty : bool then (if nt_exit g then save_exit else ret SvEmpty) else
  let* n := pop in
  match n with
  | None => ret SvTop
  | Some n =>
      if mIsSinglePicture g then
        let n := if 0 <=? bn_id n then set_bn_priv (picture_name (mFolderPath g) (bn_id n)) n else n in
        path_ok (bn_priv n) ;;;
        let* ok := data_cb CAMERA_MSG_SNAP_FD (lenZ (bn_priv n)) (Bytes (bn_priv n)) in
        if ok : bool then ret (SvRound n 5) else save_end n
      else
        let* fd := fd_slot (mContinuousFd g) (bn_id n) in
        if fd <=? 0 then ret (SvWaitContinuous n) else continuous_fd n
  end.

(** One round of the loop [while (wait_cnt-- >= 0)]. *)
Definition save_round (n : buffer_node) (wait_cnt : Z) : M S save_pc :=
  if 0 <=? wait_cnt then
    let* fd := get_glob mFd in
    if fd <=? 0 then ret (SvWait n (wait_cnt - 1)) else single_fd n (wait_cnt - 1)
  else save_with n (wait_cnt - 1).
(** The timed wait is over: after three seconds, or by a signal. *)
Definition save_waited (n : buffer_node) (wait_cnt : Z) (timeout : bool) : M S save_pc :=
  if timeout then
    let* g := get_glob id in
    if nt_exit g then save_exit else ret (SvRound n wait_cnt)
  else single_fd n wait_cnt.

(** One turn; [timeout] matters in the timed waits. *)
Definition save_turn (timeout : bool) (pc : save_pc) : M S save_pc :=
  match pc with
  | SvTop => save_top
  | SvEmpty => set_glob (set_nt_asleep true) ;;; ret SvAsleep
  | SvAsleep => let* a := get_glob nt_asleep in if a : bool then blocked else ret SvTop
  | SvRound n wait_cnt => save_round n wait_cnt
  | SvWait n wait_cnt => save_waited n wait_cnt timeout
  | SvWaitContinuous n => if timeout then save_end n else continuous_fd n
  | SvExited => blocked
  end.

(** ** Coming and going *)

(** The list of an earlier session, if there is one, is forgotten. *)
Definition setCallbacks : M S unit :=
  get_block 1 ;;;
  set_glob (fun g => set_nt_callbacks true (set_nt_list (Some []) (set_mSaveThreadExited false (set_nt_exit false g)))).

(** The thread is told; whether it has to be waited for. *)
Definition cleanup_enter : M S bool :=
  let* l := get_glob nt_list in
  match l with
  | None => ret false
  | Some _ =>
      set_glob (set_nt_exit true) ;;; signal_save ;;;
      let* g := get_glob id in ret (negb (mSaveThreadExited g))
  end.
Definition cleanup_rest : M S unit :=
  set_glob (fun g => set_mMessageEnabler 0 (set_nt_callbacks false (set_mVideoRecEnabled false (set_mJpegQuality 90
    (set_mJpegRotate 0 (set_mPictureWidth 640 (set_mPictureHeight 480 g))))))) ;;;
  let* l := get_glob nt_list in
  match l with
  | None => ret tt
  | Some l => release_all l ;;; free_block ;;; set_glob (set_nt_list None)
  end.
Definition cleanupCBNotifier : M S unit :=
  let* waits := cleanup_enter in
  if waits : bool then blocked else cleanup_rest.
End Notify.

(** ** The pictures as a system *)

(** Any interleaving of the pictures taken, the descriptors and settings of the
    application and the turns of the thread; [pushed] is the pictures that were put
    into the list, in order. *)
Inductive notify_act :=
| NTake (b : V4L2BUF_t) (is_continuous : bool)
| NSetFd (fd : Z)
| NSnapPath (path : bytes)
| NFolderPath (path : bytes)
| NPictureSize (w h : Z)
| NCBSize (w h : Z)
| NMessages (on : bool) (msg_type : Z)
| NRecord (on : bool)
| NFrame (b : V4L2BUF_t) (hw : bool)
| NPictureMsg
| NFocusMsg (continuous success : bool)
| NStartContinuous
| NMode (single : bool)
| NWake                           (* the thread wakes without a signal *)
| NSave (timeout : bool).

Record notify_sys (F : Type) := NSys { ns : mach F notify_g; saver : save_pc; pushed : list bytes }.
Arguments NSys {F} ns saver pushed.
Arguments ns {F} n.
Arguments saver {F} n.
Arguments pushed {F} n.

Section NotifySystem.
Context {F : Type} `{NotifyOps F}.
Abbreviation S := (mach F notify_g).

Definition pictures (s : S) : list buffer_node := default [] (nt_list (glob s)).
Definition app_act (a : notify_act) : M S unit :=
  match a with
  | NTake b c => takePicture b c ;;; ret tt
  | NSetFd fd => setFd fd
  | NSnapPath p => setSnapPath p
  | NFolderPath p => setSaveFolderPath p
  | NPictureSize w h => setPictureSize w h
  | NCBSize w h => setCBSize w h
  | NRecord on => if on then enableVideoRecording ;;; ret tt else disableVideoRecording
  | NFrame b hw => onNextFrameAvailable b hw ;;; ret tt
  | NPictureMsg => notifyPictureMsg
  | NFocusMsg c ok => (if c then autoFocusContinuousMsg ok else autoFocusMsg ok) ;;; ret tt
  | NMessages on m => if on then enableMessage m else disableMessage m
  | NStartContinuous => startContinuousPicture
  | NMode single => setPictureMode single
  | NWake => signal_save
  | NSave _ => ret tt
  end.
Definition notify_turn (a : notify_act) (y : notify_sys F) : option (notify_sys F) :=
  match a with
  | NSave t =>
      match save_turn t (saver y) (ns y) with
      | Done pc s => Some (NSys s pc (pushed y))
      | _ => None
      end
  | _ =>
      match app_act a (ns y) with
      | Done _ s => Some (NSys s (saver y) (pushed y ++ map bn_data (drop (length (pictures (ns y))) (pictures s))))
      | _ => None
      end
  end.
Fixpoint notify_turns (l : list notify_act) (y : notify_sys F) : option (notify_sys F) :=
  match l with
  | [] => Some y
  | a :: l => y ← notify_turn a y; notify_turns l y
  end.

(** The picture the thread is saving. *)
Definition in_saving (pc : save_pc) : list buffer_node :=
  match pc with SvRound n _ | SvWait n _ | SvWaitContinuous n => [n] | _ => [] end.
End NotifySystem.

(** What a world notes of the pictures: each write, with its descriptor. *)
Class NotifyLog (F : Type) `{NotifyOps F} := {
  wrote : F -> list (Z * bytes);
  wrote_malloc : forall n f ok f', nf_malloc n f = (ok, f') -> wrote f' = wrote f;
  wrote_memory : forall n f ok f', nf_memory n f = (ok, f') -> wrote f' = wrote f;
  wrote_notify : forall m e f, wrote (nf_notify m e f) = wrote f;
  wrote_data : forall m p f, wrote (nf_data m p f) = wrote f;
  wrote_data_time : forall t p f, wrote (nf_data_time t p f) = wrote f;
  wrote_encode : forall i f r d f', nf_encode i f = (r, d, f') -> wrote f' = wrote f;
  wrote_write : forall fd b f r f', nf_write fd b f = (r, f') -> wrote f' = wrote f ++ [(fd, b)];
  wrote_close : forall fd f, wrote (nf_close fd f) = wrote f;
}.

Section NotifyProofs.
Context {F : Type} `{NotifyLog F}.
Abbreviation S := (mach F notify_g).
Implicit Types (s : S) (n : buffer_node).

Definition may {A} (m : M S A) s (Q : A -> S -> Prop) : Prop :=
  match m s with Done a s' => Q a s' | _ => True end.
Lemma may_call {A B} (m : M S A) (k : A -> M S B) s (P : A -> S -> Prop) Q :
  may m s P -> (forall a s', P a s' -> may (k a) s' Q) -> may (bind m k) s Q.
Proof. unfold may, bind. destruct (m s); [|done..]. intros HP Hk. exact (Hk _ _ HP). Qed.
Lemma may_mono {A} (m : M S A) s (P Q : A -> S -> Prop) :
  may m s P -> (forall a s', P a s' -> Q a s') -> may m s Q.
Proof. unfold may. destruct (m s); [|done..]. intros HP Hk. exact (Hk _ _ HP). Qed.
Lemma may_ret {A} (a : A) s (Q : A -> S -> Prop) : Q a s -> may (ret a) s Q.
Proof. done. Qed.
Lemma may_get {A B} (f : notify_g -> A) (k : A -> M S B) s Q : may (k (f (glob s))) s Q -> may (bind (get_glob f) k) s Q.
Proof. done. Qed.

(** What the pictures depend on. *)
Definition facts s := (nt_list (glob s), heap_live s, wrote (world s), nt_exit (glob s)).
Definition idles {A} (m : M S A) : Prop := forall s, may m s (fun _ s' => facts s' = facts s).
Lemma idles_bind {A B} (m : M S A) (k : A -> M S B) : idles m -> (forall a, idles (k a)) -> idles (bind m k).
Proof. intros Hm Hk s. eapply may_call; [apply Hm|]. intros a s1 <-. apply Hk. Qed.
Lemma idles_set (f : notify_g -> notify_g) :
  (forall g, nt_list (f g) = nt_list g /\ nt_exit (f g) = nt_exit g) -> idles (set_glob f).
Proof. intros Hf [w h fd g]. unfold may, facts. cbn. by destruct (Hf g) as [-> ->]. Qed.
Lemma idles_step (f : F -> F) : (forall w, wrote (f w) = wrote w) -> idles (step_world f).
Proof. intros Hf [w h fd g]. unfold may, facts. cbn. by rewrite Hf. Qed.
Lemma idles_world {A} (f : F -> A * F) : (forall w a w', f w = (a, w') -> wrote w' = wrote w) -> idles (on_world f).
Proof.
  intros Hf [w h fd g]. unfold may, facts, on_world. cbn. destruct (f w) as [a w'] eqn:E. cbn. by erewrite Hf.
Qed.
Ltac idles_step := first
  [ by intros ?; unfold may, get_glob, ask, ret, undef, checked
  | apply idles_bind; [|intros ?]
  | apply idles_set; by intros ?
  | apply idles_step; intros; first [apply wrote_notify | apply wrote_data | apply wrote_data_time]
  | apply idles_world; intros ???; first [apply wrote_memory]
  | match goal with
    | |- idles (if ?b then _ else _) => destruct b
    | |- idles (let '(_, _) := ?p in _) => destruct p
    | |- idles (checked ?o) => destruct o
    end ].
Ltac idles_tac := repeat idles_step.

Lemma idles_enabled m : idles (isMessageEnabled m).
Proof. unfold isMessageEnabled. idles_tac. Qed.
Lemma idles_notify m e : idles (notify m e).
Proof. unfold notify, callback. idles_tac. Qed.
Lemma idles_data m k p : idles (data_cb m k p).
Proof. unfold data_cb. idles_tac. Qed.
Lemma idles_video t k p : idles (video_frame t k p).
Proof. unfold video_frame. idles_tac. Qed.
Lemma idles_preview src sw sh w h swap : idles (scaled_preview src sw sh w h swap).
Proof. unfold scaled_preview. idles_tac. Qed.
Ltac idles_more := repeat first
  [ idles_step | apply idles_enabled | apply idles_notify | apply idles_data | apply idles_video | apply idles_preview ].
Lemma idles_frame b hw : idles (onNextFrameAvailable b hw).
Proof.
  unfold onNextFrameAvailable. destruct hw; [unfold onNextFrameHW; idles_more|].
  unfold onNextFrameSW. idles_more.
Qed.

(** *** The pictures between two turns *)

Definition node_ok n : Prop := bn_size n = lenZ (bn_data n).

(** [h] heap blocks were there before; the thread holds [held], for [k] blocks. *)
Definition holds (h : Z) (pub : list bytes) (held : list buffer_node) (k : Z) s : Prop :=
  exists l, nt_list (glob s) = Some l /\ nt_exit (glob s) = false /\
    heap_live s = h + 2 * lenZ l + k /\ Forall node_ok (held ++ l) /\
    sublist (map snd (wrote (world s)) ++ map bn_data (held ++ l)) pub.

Lemma holds_facts h pub held k s s' : facts s' = facts s -> holds h pub held k s -> holds h pub held k s'.
Proof. intros [= E1 E2 E3 E4] (l & Hl & Hr). exists l. by rewrite E1, E2, E3, E4. Qed.
Lemma holds_idle {A B} (m : M S A) (k : A -> M S B) h pub held c s Q :
  idles m -> holds h pub held c s -> (forall a s', holds h pub held c s' -> may (k a) s' Q) -> may (bind m k) s Q.
Proof.
  intros Hm Hs Hk. eapply may_call; [apply Hm|]. cbn beta. intros a s1 E1. apply Hk. by eapply holds_facts.
Qed.

(** What the thread keeps is freed; a picture it still had is dropped. *)
Lemma save_end_holds h pub held s n :
  holds h pub held 2 s -> may (save_end n) s (fun pc s' => pc = SvTop /\ holds h pub [] 0 s').
Proof.
  intros (l & Hl & Hx & Hh & Hn & Hs). unfold save_end, releaseBuffer, free_block, may, bind, ret. cbn.
  split; [done|]. exists l. cbn. split_and!; [done|done|lia|by apply Forall_app in Hn as [_ ?]|].
  etrans; [|exact Hs]. rewrite map_app. apply sublist_app; [done|]. by apply sublist_inserts_l.
Qed.

Lemma write_holds h pub s n :
  holds h pub [n] 2 s -> 0 < bn_fd n ->
  may (write_picture n) s (fun _ s' => holds h pub [] 2 s').
Proof.
  intros (l & Hl & Hx & Hh & Hn & Hs) Hf. unfold write_picture. destruct (negb _); [done|].
  destruct (Z.ltb_spec 0 (bn_fd n)); [|lia].
  apply Forall_cons in Hn as [Hok Hn].
  assert (Hd : bslice 0 (bn_size n) (bn_data n) = bn_data n).
  { rewrite Hok. unfold bslice, lenZ. rewrite Nat2Z.id. cbn. by rewrite firstn_all. }
  eapply (may_call _ _ _ (fun _ s' => holds h pub [] 2 s')).
  { unfold on_world, may. destruct (nf_write _ _ _) as [r w] eqn:Ew. exists l. cbn.
    rewrite (wrote_write _ _ _ _ _ Ew), map_app, Hd, <- app_assoc. cbn. done. }
  intros r s1 K1. assert (Hc : idles (c_close_fd (F := F) (bn_fd n))).
  { intros s0. unfold may, facts. cbn. by rewrite wrote_close. }
  destruct (r =? -1).
  - eapply holds_idle; [exact Hc|exact K1|]. intros [] s2 K2. by apply may_ret.
  - eapply holds_idle; [exact Hc|exact K1|]. intros [] s2 K2.
    eapply holds_idle; [|exact K2|intros [] s3 K3; by apply may_ret].
    destruct (0 <=? bn_id n); [|idles_tac]. apply idles_bind; [apply idles_enabled|].
    intros []; [apply idles_notify|idles_tac].
Qed.

Lemma save_with_holds h pub s n w :
  holds h pub [n] 2 s -> may (save_with n w) s (fun pc s' => pc = SvTop /\ holds h pub [] 0 s').
Proof.
  intros Hs. unfold save_with. destruct (_ || _) eqn:Ef; [by eapply save_end_holds|].
  eapply may_call; [apply (write_holds h pub s n Hs); lia|]. cbn beta. intros ok s1 K1.
  destruct ok; cbn [negb]; [|by eapply save_end_holds].
  eapply holds_idle; [|exact K1|intros [] s2 K2; by eapply save_end_holds].
  destruct (bn_id n <? 0); [|idles_tac]. apply idles_bind; [apply idles_data|intros; idles_tac].
Qed.

Definition saving h pub (pc : save_pc) s : Prop := holds h pub (in_saving pc) (2 * lenZ (in_saving pc)) s.
Lemma saving_top h pub (m : M S save_pc) s :
  may m s (fun pc s' => pc = SvTop /\ holds h pub [] 0 s') -> may m s (saving h pub).
Proof. intros Hm. eapply may_mono; [exact Hm|]. cbn beta. intros pc s' [-> Hs]. exact Hs. Qed.

(** The same picture with another descriptor or path. *)
Lemma holds_same h pub k s n n' :
  holds h pub [n] k s -> bn_data n' = bn_data n -> bn_size n' = bn_size n -> holds h pub [n'] k s.
Proof.
  intros (l & Hl & Hx & Hh & Hn & Hs) Ed Es. exists l. cbn in *. rewrite Ed. split_and!; try done.
  apply Forall_cons in Hn as [Hok Hn]. constructor; [|done]. unfold node_ok in *. congruence.
Qed.

Lemma single_holds h pub s n w : holds h pub [n] 2 s -> may (single_fd n w) s (saving h pub).
Proof.
  intros Hs. apply saving_top. unfold single_fd. apply may_get.
  eapply holds_idle; [apply idles_set; by intros ?|exact Hs|]. intros [] s1 K1. apply save_with_holds.
  by eapply holds_same.
Qed.
Lemma continuous_holds h pub s n : holds h pub [n] 2 s -> may (continuous_fd n) s (saving h pub).
Proof.
  intros Hs. apply saving_top. unfold continuous_fd. apply may_get.
  eapply holds_idle; [unfold fd_slot; idles_tac|exact Hs|]. intros fd s1 K1.
  eapply holds_idle; [unfold put_fd; idles_tac|exact K1|]. intros fds s2 K2.
  eapply holds_idle; [apply idles_set; by intros ?|exact K2|]. intros [] s3 K3. apply save_with_holds.
  by eapply holds_same.
Qed.

Lemma pop_holds h pub s :
  holds h pub [] 0 s ->
  may pop s (fun o s' => match o with None => holds h pub [] 0 s' | Some n => holds h pub [n] 2 s' end).
Proof.
  intros (l & Hl & Hx & Hh & Hn & Hs). unfold pop, the_list, may, bind, get_glob, checked. rewrite Hl.
  destruct l as [|n l]; cbn; [by exists []|]. exists l. cbn. split_and!; try done. rewrite Hh. unfold lenZ. cbn. lia.
Qed.

Lemma save_top_holds h pub s : holds h pub [] 0 s -> may save_top s (saving h pub).
Proof.
  intros Hs. pose proof Hs as (l & Hl & Hx & _). unfold save_top. apply may_get. unfold id. rewrite Hx, andb_false_r.
  eapply holds_idle; [unfold isListEmpty, the_list; idles_tac|exact Hs|]. intros em s1 K1.
  destruct em; [by apply may_ret|].
  eapply may_call; [by apply pop_holds|]. cbn beta. intros o s2 K2. destruct o as [n|]; [|by apply may_ret].
  destruct (mIsSinglePicture (glob s)).
  - eapply holds_idle; [unfold path_ok; idles_tac|exact K2|]. intros [] s3 K3.
    eapply holds_idle; [apply idles_data|exact K3|]. intros ok s4 K4.
    destruct ok; [|by eapply saving_top, save_end_holds]. apply may_ret.
    eapply holds_same; [exact K4|by destruct (0 <=? bn_id n)..].
  - eapply holds_idle; [unfold fd_slot; idles_tac|exact K2|]. intros fd s3 K3.
    destruct (fd <=? 0); [by apply may_ret|by apply continuous_holds].
Qed.

Lemma save_turn_holds h pub t pc s : saving h pub pc s -> may (save_turn t pc) s (saving h pub).
Proof.
  intros Hs. pose proof Hs as (l & Hl & Hx & _). destruct pc as [| | |n w|n w|n|]; cbn [save_turn].
  - by apply save_top_holds.
  - eapply holds_idle; [apply idles_set; by intros ?|exact Hs|]. intros [] s1 K1. by apply may_ret.
  - apply may_get. destruct (nt_asleep _); [done|]. by apply may_ret.
  - unfold save_round. destruct (0 <=? w); [|by apply saving_top, save_with_holds]. apply may_get.
    destruct (_ <=? 0); [by apply may_ret|by apply single_holds].
  - unfold save_waited. destruct t; [|by apply single_holds]. apply may_get. unfold id. rewrite Hx. by apply may_ret.
  - destruct t; [by eapply saving_top, save_end_holds|by apply continuous_holds].
  - done.
Qed.

(** *** The application's calls *)

(** A picture more in the list. *)
Definition more h pub held k s s' : Prop :=
  holds h (pub ++ map bn_data (drop (length (pictures s)) (pictures s'))) held k s'.
Lemma more_none h pub held k s s' : holds h pub held k s' -> nt_list (glob s') = nt_list (glob s) -> more h pub held k s s'.
Proof. intros Hs El. unfold more, pictures. rewrite El, drop_all. cbn. by rewrite app_nil_r. Qed.
Lemma more_one h pub held k s s' l n :
  nt_list (glob s) = Some l -> nt_list (glob s') = Some (l ++ [n]) ->
  holds h (pub ++ [bn_data n]) held k s' -> more h pub held k s s'.
Proof. intros E1 E2 Hs. unfold more, pictures. rewrite E1, E2. cbn. by rewrite drop_app_length. Qed.
Lemma more_idle {A B} (m : M S A) (k : A -> M S B) h pub held c s0 s Q :
  idles m -> more h pub held c s0 s ->
  (forall a s', more h pub held c s0 s' -> may (k a) s' Q) -> may (bind m k) s Q.
Proof.
  intros Hm Hs Hk. eapply may_call; [apply Hm|]. cbn beta. intros a s1 E1. apply Hk.
  unfold more, pictures in *. injection E1 as E1 E2 E3 E4. rewrite E1. eapply holds_facts; [|exact Hs].
  unfold facts. congruence.
Qed.

(** A node has its two blocks. *)
Lemma alloc_post s room :
  may (allocBuffer room) s (fun o s' =>
    nt_list (glob s') = nt_list (glob s) /\ nt_exit (glob s') = nt_exit (glob s) /\ wrote (world s') = wrote (world s) /\
    match o with
    | None => heap_live s' = heap_live s
    | Some n => heap_live s' = heap_live s + 2
    end).
Proof.
  unfold allocBuffer, get_block, free_block, may, bind, ret.
  destruct (nf_malloc _ (world s)) as [ok w] eqn:E1. pose proof (wrote_malloc _ _ _ _ E1) as W1.
  destruct ok; cbn; [|by rewrite W1]. destruct (nf_malloc room w) as [ok w2] eqn:E2.
  pose proof (wrote_malloc _ _ _ _ E2) as W2. destruct ok; cbn; rewrite W2, W1; split_and!; (done || lia).
Qed.

Lemma push_more h pub held k s n :
  holds h pub held (k + 2) s -> node_ok n -> may (push n) s (fun _ s' => more h pub held k s s').
Proof.
  intros (l & Hl & Hx & Hh & Hn & Hs) Hok. unfold push, the_list, may, bind, get_glob, checked. rewrite Hl. cbn.
  eapply more_one; [exact Hl|done|]. exists (l ++ [n]). cbn. rewrite app_assoc.
  split_and!; [done|done| | |].
  - rewrite Hh. unfold lenZ. rewrite length_app. cbn. lia.
  - apply Forall_app. split; [done|by constructor].
  - rewrite map_app, app_assoc. by apply sublist_app.
Qed.

Lemma the_list_same s : may the_list s (fun _ s' => s' = s).
Proof. unfold the_list, may, bind, get_glob, checked. by destruct (nt_list (glob s)). Qed.
Lemma take_more h pub held k s b c :
  (forall i (f : F) r d f', nf_encode i f = (r, d, f') -> 0 <= r) ->
  holds h pub held k s -> may (takePicture b c) s (fun _ s' => more h pub held k s s').
Proof.
  intros Henc Hs. unfold takePicture. apply may_get. unfold id.
  eapply may_call; [by apply the_list_same|]. cbn beta. intros l0 ? ->. clear l0.
  eapply may_call; [apply alloc_post|]. cbn beta. intros o s1 (El & Ex & Ew & Eh).
  assert (Hs1 : forall k', heap_live s1 = heap_live s + k' -> holds h pub held (k + k') s1).
  { intros k' Ek. destruct Hs as (l & Hl & Hx & Hh & Hr). exists l. rewrite El, Ex, Ew, Ek, Hh. split_and!; try done; [lia|tauto..]. }
  destruct o as [n|].
  2: { apply may_ret, more_none; [|done]. specialize (Hs1 0 ltac:(lia)). by rewrite Z.add_0_r in Hs1. }
  specialize (Hs1 2 Eh).
  eapply (may_call _ _ _ (fun rd s' => 0 <= rd.1 /\ facts s' = facts s1)).
  { unfold on_world, may. destruct (nf_encode _ (world s1)) as [[r d] w] eqn:En. split; [by eapply Henc|].
    unfold facts. cbn. by rewrite (wrote_encode _ _ _ _ _ En). }
  intros [r jpeg] s2 [Hr E2]. cbn in Hr. assert (Hs2 : holds h pub held (k + 2) s2) by (by eapply holds_facts).
  assert (E20 : nt_list (glob s2) = nt_list (glob s)) by (injection E2; congruence).
  destruct (Z.ltb_spec r 0); [lia|]. destruct (_ <? lenZ jpeg); [done|].
  assert (Hm : forall s', more h pub held k s2 s' -> more h pub held k s s').
  { intros s'. unfold more, pictures. by rewrite E20. }
  destruct c; [|destruct (0 <? lenZ _)].
  - eapply may_call; [apply (push_more h pub held k s2); [exact Hs2|done]|]. cbn beta. intros [] s3 K3.
    eapply more_idle; [apply idles_enabled|exact K3|]. intros on s4 K4.
    eapply more_idle; [destruct on; [apply idles_notify|idles_tac]|exact K4|]. intros [] s5 K5.
    eapply more_idle; [apply idles_set; by intros ?|exact K5|]. intros [] s6 K6.
    eapply more_idle; [apply idles_set; by intros ?|exact K6|]. intros [] s7 K7. apply may_ret. by apply Hm.
  - eapply may_call; [apply (push_more h pub held k s2); [exact Hs2|done]|]. cbn beta. intros [] s3 K3.
    eapply more_idle; [apply idles_notify|exact K3|]. intros [] s4 K4.
    eapply more_idle; [apply idles_set; by intros ?|exact K4|]. intros [] s5 K5. apply may_ret. by apply Hm.
  - eapply (may_call _ _ _ (fun _ s' => facts s' = facts s2)); [apply idles_data|]. intros ok s3 E3.
    unfold releaseBuffer, free_block, may, bind, ret. cbn. injection E3 as E31 E32 E33 E34.
    apply more_none; [|cbn; congruence]. destruct Hs2 as (l & Hl & Hx & Hh & Hn & Hsub). exists l. cbn.
    rewrite E31, E33, E34, E32, Hh. split_and!; try done. lia.
Qed.

Lemma idle_more {A} (m : M S A) h pub held k s :
  idles m -> holds h pub held k s -> may m s (fun _ s' => more h pub held k s s').
Proof.
  intros Hm Hs. eapply may_mono; [apply Hm|]. cbn beta. intros a s' E1. apply more_none; [by eapply holds_facts|].
  by injection E1.
Qed.
Lemma idles_fd fd : idles (setFd (F := F) fd).
Proof.
  unfold setFd. apply idles_bind; [by intros ?|]. intros _. apply idles_bind; [by intros ?|]. intros g.
  destruct (mIsSinglePicture g); [by apply idles_set|]. unfold put_fd. idles_tac.
Qed.

Lemma act_more h pub held k s a :
  (forall i (f : F) r d f', nf_encode i f = (r, d, f') -> 0 <= r) ->
  holds h pub held k s -> may (app_act a) s (fun _ s' => more h pub held k s s').
Proof.
  intros Henc Hs. destruct a; cbn [app_act].
  { eapply may_call; [by apply take_more|]. cbn beta. intros ok s1 K1. by apply may_ret. }
  all: apply idle_more; [|done].
  - apply idles_fd.
  - unfold setSnapPath, path_ok. idles_tac.
  - unfold setSaveFolderPath, path_ok. idles_tac.
  - by apply idles_set.
  - by apply idles_set.
  - destruct on; by apply idles_set.
  - destruct on; [unfold enableVideoRecording; idles_tac|by apply idles_set].
  - apply idles_bind; [apply idles_frame|intros ?; idles_tac].
  - unfold notifyPictureMsg. idles_more.
  - destruct continuous; [unfold autoFocusContinuousMsg|unfold autoFocusMsg]; idles_more.
  - by apply idles_set.
  - by apply idles_set.
  - by apply idles_set.
  - by intros ?.
Qed.

(** *** Any run *)

Definition saving_sys h (y : notify_sys F) : Prop := saving h (pushed y) (saver y) (ns y).
Lemma notify_turn_saving h a y y' :
  (forall i (f : F) r d f', nf_encode i f = (r, d, f') -> 0 <= r) ->
  saving_sys h y -> notify_turn a y = Some y' -> saving_sys h y'.
Proof.
  intros Henc Hs Et. destruct y as [s pc pub]. unfold saving_sys in *. cbn [pushed saver ns] in *.
  pose proof (act_more h pub _ _ s a Henc Hs) as Hm. unfold may in Hm.
  destruct a as [| | | | | | | | | | | | | |t]; try (cbn [notify_turn ns saver pushed] in Et;
    destruct (app_act _ s) as [u s'| |]; [|done..]; injection Et as <-; exact Hm).
  clear Hm. cbn in Et. pose proof (save_turn_holds h pub t pc s Hs) as Hm. unfold may in Hm.
  destruct (save_turn t pc s); [|done..]. by injection Et as <-.
Qed.
Lemma notify_turns_saving h l y y' :
  (forall i (f : F) r d f', nf_encode i f = (r, d, f') -> 0 <= r) ->
  saving_sys h y -> notify_turns l y = Some y' -> saving_sys h y'.
Proof.
  intros Henc. revert y. induction l as [|a l IH]; intros y Hs; cbn; [by intros [= <-]|].
  destruct (notify_turn a y) as [y1|] eqn:Et; [|done]. cbn. apply IH. by eapply notify_turn_saving.
Qed.

(** C7: From an empty list on, whatever the application and the thread do (a cleanup
    apart) and in whatever order, the pictures written are a subsequence of the pictures
    put into the list, each once and in the order they were taken, those in the thread's
    hand and in the list come after them, and every other picture's two heap blocks
    have been freed; for this the encoder must never fail. *)
Theorem pictures_saved_in_order s l (y : notify_sys F) :
  (forall i (f : F) r d f', nf_encode i f = (r, d, f') -> 0 <= r) ->
  nt_list (glob s) = Some [] -> nt_exit (glob s) = false -> wrote (world s) = [] ->
  notify_turns l (NSys s SvTop []) = Some y ->
  let waiting := in_saving (saver y) ++ pictures (ns y) in
  sublist (map snd (wrote (world (ns y))) ++ map bn_data waiting) (pushed y) /\
  heap_live (ns y) = heap_live s + 2 * lenZ waiting.
Proof.
  intros Henc Hl Hx Hw Et waiting.
  assert (H0s : saving_sys (heap_live s) (NSys s SvTop [])).
  { exists []. cbn. rewrite Hw. split_and!; [done..|unfold lenZ; cbn; lia|constructor|constructor]. }
  destruct (notify_turns_saving _ _ _ _ Henc H0s Et) as (l' & Hl' & _ & Hh & _ & Hs).
  unfold waiting, pictures. rewrite Hl'. cbn [default]; unfold id. split; [exact Hs|].
  rewrite Hh, lenZ_app. lia.
Qed.

(** The sixth round is counted as a failure: a descriptor that arrives in it is
    taken, the picture dropped, and the descriptor neither written nor closed. *)
Theorem last_round_discards_fd s n t :
  0 < mFd (glob s) ->
  let dropped := Done SvTop (Mach (world s) (heap_live s - 2) (fds_live s) (set_mFd 0 (glob s))) in
  save_turn t (SvRound n 0) s = dropped /\ save_turn false (SvWait n (-1)) s = dropped.
Proof.
  intros Hf dropped. destruct s as [w h fd g]. cbn in Hf.
  assert (Hd : save_turn false (SvWait n (-1)) (Mach w h fd g) = dropped).
  { unfold dropped. cbn. do 2 f_equal. lia. }
  split; [|exact Hd]. rewrite <- Hd. cbn [save_turn]. unfold save_round, bind, get_glob. cbn.
  destruct (Z.leb_spec (mFd g) 0); [lia|done].
Qed.

(** In a series the slot of a descriptor is the number of the picture, and there are
    ten slots: the thread leaves the array at the eleventh picture. *)
Theorem eleventh_picture_out_of_bounds s n l t :
  lenZ (mContinuousFd (glob s)) = 10 -> mIsSinglePicture (glob s) = false ->
  nt_list (glob s) = Some (n :: l) -> 10 <= bn_id n ->
  save_turn t SvTop s = Undef.
Proof.
  intros H10 Hm Hl Hid. destruct s as [w h fd []]. cbn in H10, Hm, Hl. subst. cbn [save_turn].
  unfold save_top, isListEmpty, pop, the_list, bind. cbn. unfold bind, fd_slot, bget, checked.
  destruct (Z.ltb_spec (bn_id n) 0); [lia|]. cbn. rewrite lookup_ge_None_2; [done|]. unfold lenZ in H10. lia.
Qed.

(** When the encoder fails the picture's node is lost. *)
Theorem encode_failure_leaks s b c l :
  nt_list (glob s) = Some l ->
  (forall k (f : F), (nf_malloc k f).1 = true) -> (forall i (f : F), (nf_encode i f).1.1 < 0) ->
  exists s', takePicture b c s = Done false s' /\ nt_list (glob s') = Some l /\ heap_live s' = heap_live s + 2.
Proof.
  intros Hl Hm He. unfold takePicture, allocBuffer, get_block, the_list, bind, get_glob, checked, ret, on_world, id.
  rewrite Hl. pose proof (Hm SIZEOF_buffer_node (world s)) as H1.
  destruct (nf_malloc SIZEOF_buffer_node (world s)) as [ok1 w1]. cbn in H1. subst ok1. cbn.
  set (room := _ * _). pose proof (Hm room w1) as H2. destruct (nf_malloc room w1) as [ok2 w2]. cbn in H2. subst ok2. cbn.
  set (info := jpeg_info _ _). pose proof (He info w2) as H3. destruct (nf_encode info w2) as [[r d] w3]. cbn in H3.
  cbn. destruct (Z.ltb_spec r 0); [|lia]. eexists. split; [done|]. cbn. split; [done|lia].
Qed.

(** The signal of [cleanupCBNotifier] is not sent under the mutex: between the
    thread's test and its sleep it is lost, and the two wait for each other. *)
Theorem cleanup_signal_lost s t t' t'' :
  nt_list (glob s) = Some [] -> nt_exit (glob s) = false -> mSaveThreadExited (glob s) = false ->
  exists s1 s2, save_turn t SvTop s = Done SvEmpty s /\ cleanup_enter s = Done true s1 /\
    save_turn t' SvEmpty s1 = Done SvAsleep s2 /\ save_turn t'' SvAsleep s2 = Blocked /\
    mSaveThreadExited (glob s2) = false.
Proof.
  intros Hl Hx He. destruct s as [w h fd []]. cbn in Hl, Hx, He. subst. eexists _, _. split_and!.
  - unfold save_turn, save_top, isListEmpty, the_list, bind. cbn. by rewrite andb_false_r.
  - unfold cleanup_enter, bind. cbn. done.
  - done.
  - done.
  - done.
Qed.
End NotifyProofs.

(** ** A world *)

(** The encoder gives pictures of one byte, numbered; what is written is noted. *)
Record notebook := Notebook { nb_pictures : Z; nb_wrote : list (Z * bytes) }.
#[export] Instance notebook_ops : NotifyOps notebook := {|
  msg_bit := fun m => if m is CAMERA_MSG_CONTINUOUSSNAP then 1 else 2;
  nf_venc_size := 64;
  nf_malloc := fun _ f => (true, f);
  nf_memory := fun _ f => (true, f);
  nf_notify := fun _ _ f => f;
  nf_data := fun _ _ f => f;
  nf_data_time := fun _ _ f => f;
  nf_frame := fun _ n _ => zeros n;
  nf_fresh := fun n _ => zeros n;
  nf_encode := fun _ f => (0, [nb_pictures f], Notebook (nb_pictures f + 1) (nb_wrote f));
  nf_write := fun fd b f => (lenZ b, Notebook (nb_pictures f) (nb_wrote f ++ [(fd, b)]));
  nf_close := fun _ f => f;
  nf_fopen := fun _ f => (true, f);
  nf_fwrite := fun _ _ f => f;
|}.
#[export] Instance notebook_log : NotifyLog notebook.
Proof. refine {| wrote := nb_wrote |}; cbn; intros; by simplify_eq. Defined.

(** Four pictures of a series: the second one's descriptor never comes, the third is
    in the thread's hand and the fourth in the list. *)
Definition one_picture (fd : Z) : list notify_act := [NSave false; NSetFd fd; NSave false].
Definition series : list notify_act :=
  [NMessages true 3; NStartContinuous; NTake buf_zero true; NTake buf_zero true; NTake buf_zero true] ++
  one_picture 7 ++ [NSave false] ++ concat (replicate 6 [NSave false; NSave true]) ++ [NSave false] ++
  [NTake buf_zero true; NSave false; NSave false].
Definition notebook_start : notify_sys notebook :=
  NSys (Mach (Notebook 0 []) 1 0 (set_nt_list (Some []) (set_nt_callbacks true notify_initial))) SvTop [].
Definition notebook_pages (y : notify_sys notebook) : list (Z * bytes) * list bytes * list bytes * Z :=
  (nb_wrote (world (ns y)), map bn_data (in_saving (saver y) ++ pictures (ns y)), pushed y, heap_live (ns y)).

Lemma pictures_saved_in_order_witness : exists y,
  notify_turns series notebook_start = Some y /\
  notebook_pages y = ([(7, [0])], [[2]; [3]], [[0]; [1]; [2]; [3]], 5) /\
  sublist (map snd (wrote (world (ns y))) ++ map bn_data (in_saving (saver y) ++ pictures (ns y))) (pushed y) /\
  heap_live (ns y) = 1 + 2 * lenZ (in_saving (saver y) ++ pictures (ns y)).
Proof.
  destruct (notify_turns series notebook_start) as [y|] eqn:Et; [|by vm_compute in Et].
  exists y. split; [reflexivity|]. split.
  - assert (Ec : option_map notebook_pages (notify_turns series notebook_start)
                 = Some ([(7, [0])], [[2]; [3]], [[0]; [1]; [2]; [3]], 5)) by (vm_compute; reflexivity).
    rewrite Et in Ec. cbn [option_map] in Ec. injection Ec as E1 E2 E3 E4.
    unfold notebook_pages. rewrite E1, E2, E3, E4. reflexivity.
  - refine (pictures_saved_in_order (ns notebook_start) series y _ _ _ _ Et); [|reflexivity..].
    intros i f r d f' E. cbn in E. injection E as <- _ _. lia.
Defined.
